(* ===== verification/_CoqProject ===== *)
-Q . S2P
Prelude.v
Float.v
BufState.v
BufTag.v
SortTemplate.v
BinaryHeap.v
Shmem.v
Concurrency.v
PrivateRefCount.v
Ring.v
Sample.v
DList.v
Sweep.v
ClockSweep.v
Sieve.v
Lru.v
Lfu.v
Policy.v
BufTable.v
Strategy.v
LocalBuf.v
ContentLock.v
LockWord.v
LockProtocol.v
LockRun.v
Pin.v
Tracking.v
PinRun.v
Reserved.v
BufIO.v
IORun.v
LocalInv.v
LocalRun.v
LocalAlloc.v
LocalCache.v
RefCounts.v
Recency.v
Contracts.v
Writeback.v
Eviction.v
BSearch.v
DropFlush.v
Checkpoint.v
Extend.v
Readv.v
Read.v
PolicyQuiet.v
Pool.v
FlushRun.v
EvictRun.v
VictimRun.v
AllocRun.v
DropRun.v
SharedCache.v
DropCache.v
FlushScan.v
BufInit.v
CheckpointRun.v
ExtendRun.v
ReadRun.v
ReadCache.v
ReadSession.v
