(* ===== verification/Prelude.v ===== *)
(** * The buffer manager of postgreSIEVE

    PostgreSQL keeps blocks of its files in a pool of shared buffers.  This fork
    replaces the clock sweep that chooses the buffer to evict by a table of functions
    with four implementations: the clock sweep, SIEVE, LRU and LFU.  The development
    models the buffer manager ([src/backend/storage/buffer/]: [freelist.c], [buf_table.c],
    [buf_init.c], [localbuf.c] and most of [bufmgr.c], with [buf_internals.h]), the parts
    of other directories it is made of ([sort_template.h], [binaryheap.c], the path of a
    synchronous read through [aio.c], [aio_callback.c], [aio_io.c] and [md.c], the hit
    counters of [tracking/]) and proves that it is a correct cache whichever policy is
    active.

    ** How programs are modelled

    A C function is a function in the monad [ST] of this file: it takes the state of
    the world and gives an outcome and a new world.  The outcome is a value ([Ret]), an
    error raised with [elog(ERROR)] ([Elog]), undefined behaviour or a failed [Assert]
    ([UB]), or no return within the gas ([Spin]).  The world ([Shmem.World]) has the
    shared memory ([Shared]: descriptors, lookup table, strategy block, words of the
    policy, pages, files, durable end of the log, processes), what belongs to the
    running backend ([Backend]: private pin counts, rings, held locks, local buffers)
    and a schedule of what other backends do to shared memory: each atomic access lets
    the next action of the schedule happen first.  Machine integers are [Z] with their
    wrap-around written out ([u32], [u64], [i32]).

    ** Gas

    Loops that are not bounded by a counter ([for (;;)], [goto retry]) are [forever],
    which runs [gas (me w)] rounds and is [Spin] after that.  Theorems that promise a
    result have an explicit lower bound for the gas and conclude [Ret] or [Elog], never
    [Spin]: one round where a header or content lock is free, [NBuffers] rounds for LRU,
    2 [NBuffers] + 1 for SIEVE (a turn to clear the visited marks and a turn to find),
    16 [NBuffers] for the clock sweep (the usage count has four bits), [NBuffers] + 1026
    for LFU (its buckets and the queued buffers); [PolicyQuiet.search_gas] is above all
    of them.  A victim search with a ring comes back at most once for each buffer of the
    ring ([VictimRun.live_slots]); a wait for a read of k blocks takes at most 2 k + 1
    rounds ([ReadCache.rounds]), k being at most 127; the loop of a checkpoint takes one
    round for each buffer it has marked.  Theorems
    about arbitrary interference are of the form "no undefined behaviour, and if it
    returns then", because another backend may hold a spinlock for ever.

    ** Files and components

    - [Prelude]: the monad, [for] loops, post-conditions ([wp]), bits, lists indexed by
      [Z].
    - [Float]: [float] and [double] as IEEE 754 numbers.
    - [BufState], [LockWord]: the 64-bit state word ([buf_internals.h]).  [BufTag]: tags
      and comparators.  [Shmem]: shared memory, atomics, header spinlock ([LockBufHdr],
      [UnlockBufHdrExt], [WaitBufHdrUnlocked]).  [Concurrency]: interference and the
      rules for it.
    - [PrivateRefCount], [RefCounts], [Reserved]: the private pin counts ([bufmgr.c],
      [ReservePrivateRefCountEntry] to [TrackNewBufferPin]).
    - [Ring]: access strategies ([GetAccessStrategy], [GetBufferFromRing],
      [StrategyRejectBuffer]) and the limits on pins.
    - [DList], [Sweep]: linked lists in index arrays, searches of a list.
      [ClockSweep], [Sieve], [Lru], [Lfu]: the four policies of [freelist.c].
      [Policy]: the table of functions and the interface, a type class, that every
      policy implements.  [Strategy]: [StrategyGetBuffer], the notifications,
      [StrategySyncStart], [StrategyShmemSize], [StrategyInitialize].  [Recency],
      [Contracts]: what the policies promise over sequences of calls, and sizes.
    - [BufTable]: the lookup table ([buf_table.c]).
    - [ContentLock], [LockProtocol], [LockRun]: the content lock of a buffer
      ([BufferLockAcquire] to [UnlockBuffer]), as a transition system of all processes
      and as programs.
    - [Pin], [PinRun]: [PinBuffer], [UnpinBuffer], [MarkBufferDirty], cleanup locks.
      [BufIO], [IORun]: [StartBufferIO], [TerminateBufferIO], [WaitIO], [AbortBufferIO].
    - [LocalBuf], [LocalInv], [LocalRun], [LocalAlloc], [LocalCache]: the buffers of
      temporary tables ([localbuf.c]).
    - [Writeback]: [ScheduleBufferTagForWriteback], [IssuePendingWritebacks].
    - [Eviction]: [BufferAlloc], [GetVictimBuffer], [InvalidateBuffer],
      [InvalidateVictimBuffer], [FlushBuffer].  [PolicyQuiet], [Pool], [FlushRun],
      [EvictRun], [VictimRun], [AllocRun], [SharedCache]: the pool as a cache.
    - [BSearch], [DropFlush]: [DropRelationBuffers], [DropRelationsAllBuffers],
      [DropDatabaseBuffers], [FlushRelationBuffers], [FlushRelationsAllBuffers],
      [FlushDatabaseBuffers], [SyncOneBuffer], [EvictUnpinnedBuffer] and the like.
      [DropRun], [DropCache], [FlushScan]: what they do to the pool.
    - [BufInit]: [BufferManagerShmemInit], [BufferManagerShmemSize],
      [InitBufferManagerAccess], and the start of a server up to its first reads.
    - [SortTemplate], [BinaryHeap]: the sort that [sort_template.h] generates and the
      heap of [binaryheap.c], with the size it asks [palloc] for.  [Checkpoint], [CheckpointRun]: [BufferSync] and
      [CheckPointBuffers], which use them.
    - [Extend], [ExtendRun]: [ExtendBufferedRelShared] and its callers.
    - [Readv]: staging, execution by the caller and completion of a read
      ([buffer_stage_common], [pgaio_io_perform_synchronously], [buffer_readv_complete]),
      and the encoding of its errors.  [Read]: [PrefetchBuffer], [StartReadBuffers],
      [WaitReadBuffers], [ReadBufferExtended] and its variants, [ExtendBufferedRelTo].
      [ReadRun], [ReadCache], [ReadSession]: a read on the pool, step by step, as an
      operation, and as what a reader gets.
    - [Tracking]: [RecordAtomicCacheHit], [RecordAtomicCacheMiss], [GenAtomicStats].
    - [Sample]: a pool of three buffers for examples.

    ** What is shown

    - Under any interference that respects the locks and pins of the backend (rely
      conditions in [Concurrency.Proto]): the search of each policy returns a buffer that
      nobody had pinned, pinned once, or fails cleanly; a pin, a dirty mark and a content
      lock attempt are each one atomic step of the state word; notifications keep the
      lists of the policy well formed.
    - The content lock among all processes: conflicting holders never coexist, and no
      waiter is forgotten, in all reachable interleavings (rule induction).
    - Without interference, exactly what each function does: which buffer each policy
      evicts, what happens to the queue, to the flags, to the private counts.
    - Refinement to simple specifications: the private counts are a finite map; the LRU
      queue is the list of buffers in order of last use; the shared pool and the local
      buffers are caches that never change what a block reads as, through hits, misses,
      dirty victims, rings, rejected victims and failed writes, with write-ahead
      logging obeyed; a sequence of [ReadBuffer] calls returns the pages the blocks had
      at the beginning; dropping takes away exactly the dropped blocks; flushing puts on
      disk what readers saw; a checkpoint writes every buffer that was dirty when it
      began; extending a relation adds pages of zeros and nothing else; the sort sorts
      and the heap is a priority queue.
    - Termination and liveness: searches end, [GetVictimBuffer] finds a victim if the
      policy knows of one, within as many rounds as the ring has buffers and one more,
      sequences of allocations and releases never get stuck, and reads end however few
      pages a system call brings.
    - Errors: the theorems about allocation, reading and extension are about pools in
      which the policy knows of an unpinned buffer where one is needed, and name the
      reasons of an error: a failed call of the storage manager, a page that does not
      pass verification, or a system call, the one made for the blocks that are left
      while their buffers are claimed, that brings no whole page.  Where none of this
      happens ([ReadCache.kernel_delivers]: the kernel brings at least one page of a
      block that exists) the reads return.
    - Bounds: sizes of the strategy block, rings, pending write-backs.
    - Flaws: a failed search makes the next searches of [LFUGetBuffer] fail until an
      insertion, the buffers of dropped blocks are no longer in the queue of LRU,
      [ReadRecentBuffer] can leak a pin, a failed I/O leaves no [BM_IO_ERROR], the size
      functions overflow at the largest setting, extending over an existing buffer does
      not give the victim back, the error encoding of reads is one bit short for 128 pages, and the hit
      counters are never allocated.

    The storage manager and the log are parameters ([Eviction.Server]) with their
    documented behaviour as hypotheses ([FlushRun.ServerLaws]: flushing the log advances its
    durable end at least to the position asked for, a checksum does not change the
    page that readers see); [SharedCache.sample_server] is an instance.  Files are a
    finite map of lists of pages, and each call may fail ([smgr_faults]).  The handles of
    asynchronous I/O, the pages a system call brings and page verification are parameters
    ([Readv.Aio], with [ReadRun.AioLaws]: a handle is free, no I/O is staged, and what a
    system call says it has read are the blocks of the file);
    [ReadSession.sample_aio] is an instance that reads one page per call.  The segment
    size is that of the default configuration.

    ** Not modelled

    - Reads that another process executes: the I/O workers, [io_uring] and batches of
      staged I/O are reached through [Readv.Aio] only, and the theorems are about reads
      that the caller executes, which [io_method = sync] and [ReadBuffer] always do.
      The states of a handle are left out.
    - The branch of [ExtendBufferedRelShared] for a block that has a buffer already is
      modelled; the theorem about it excludes such buffers, an example shows the branch.
    - Pinning several blocks in one call of [StartReadBuffers] is modelled; the theorems
      are about one block from the start, or several that are pinned already.
    - [BgBufferSync]: its pacing with moving averages in static variables; the step it
      is made of, [SyncOneBuffer], is modelled, and so is [StrategySyncStart].
    - [MarkBufferDirtyHint], [BufferGetLSNAtomic]: they insert into the log.
    - The lock word and wait queue of [lwlock.c]: a partition lock is what its holder
      sees of it.
    - Statistics, tracing, error context callbacks, resource owners beyond the pins and
      I/Os they own, the allocator of shared memory, [palloc] but for the largest size it
      accepts where a binary heap is allocated, barrier signals during a checkpoint, and [locking_tracking_stats.c],
      whose functions are empty. *)

From Stdlib Require Export ZArith Lia.
From stdpp Require Export functions.
From stdpp Require Export base tactics numbers list strings gmap.

#[export] Set Default Goal Selector "!".
#[global] Open Scope Z_scope.
#[global] Arguments Z.compare !x !y : simpl nomatch.
#[global] Arguments Z.ltb !x !y : simpl nomatch.
#[global] Arguments Z.leb !x !y : simpl nomatch.
#[global] Arguments Z.eqb !x !y : simpl nomatch.

(** ** Machine integers

    A [w]-bit C integer is a [Z] kept in range by an explicit wrap.  The
    signed wrap is the one of [-fwrapv], with which the server is built. *)
Definition u32 (z : Z) : Z := z mod 2 ^ 32.
Definition u64 (z : Z) : Z := z mod 2 ^ 64.
Definition i32 (z : Z) : Z := (z + 2 ^ 31) mod 2 ^ 32 - 2 ^ 31.

(** The largest size in bytes that [palloc] allocates. *)
Definition MaxAllocSize : Z := 0x3fffffff.

Lemma u32_range z : 0 <= u32 z < 2 ^ 32.
Proof. apply Z.mod_pos_bound; lia. Qed.
Lemma u64_range z : 0 <= u64 z < 2 ^ 64.
Proof. apply Z.mod_pos_bound; lia. Qed.
Lemma i32_range z : - 2 ^ 31 <= i32 z < 2 ^ 31.
Proof. unfold i32. pose proof (Z.mod_pos_bound (z + 2 ^ 31) (2 ^ 32)). lia. Qed.
Lemma u32_small z : 0 <= z < 2 ^ 32 -> u32 z = z.
Proof. apply Z.mod_small. Qed.
Lemma u64_small z : 0 <= z < 2 ^ 64 -> u64 z = z.
Proof. apply Z.mod_small. Qed.
Lemma i32_small z : - 2 ^ 31 <= z < 2 ^ 31 -> i32 z = z.
Proof. intros H. unfold i32. rewrite Z.mod_small; lia. Qed.

(** ** Outcomes and the state monad

    [Ret]: the C function returned.  [Elog]: control left through
    [elog(ERROR)], with the shared memory as it was at that point.  [UB]: an
    access outside the object it is meant for.  [Spin]: a loop did not finish
    within the iterations it was given. *)
Inductive outcome (A : Type) : Type :=
| Ret (a : A)
| Elog (msg : string)
| UB (what : string)
| Spin.
Arguments Ret {A} a.
Arguments Elog {A} msg.
Arguments UB {A} what.
Arguments Spin {A}.

Definition ST (W A : Type) : Type := W -> outcome A * W.

Definition ret {W A} (a : A) : ST W A := fun w => (Ret a, w).
Definition elog {W A} (msg : string) : ST W A := fun w => (Elog msg, w).
Definition trap {W A} (what : string) : ST W A := fun w => (UB what, w).
Definition spin {W A} : ST W A := fun w => (Spin, w).

Definition bind {W A B} (m : ST W A) (k : A -> ST W B) : ST W B :=
  fun w =>
    match m w with
    | (Ret a, w') => k a w'
    | (Elog e, w') => (Elog e, w')
    | (UB e, w') => (UB e, w')
    | (Spin, w') => (Spin, w')
    end.

Declare Scope c_scope.
Delimit Scope c_scope with c.
Notation "'let*' x ':=' m 'in' k" := (bind m (fun x => k))
  (at level 10, x name, m at level 100, k at level 200,
   format "'[v' 'let*'  x  ':='  m  'in' '/' k ']'") : c_scope.
Notation "'let*' ' p ':=' m 'in' k" := (bind m (fun p => k))
  (at level 10, p strict pattern, m at level 100, k at level 200) : c_scope.
Notation "m ;; k" := (bind m (fun _ => k))
  (at level 100, k at level 200, right associativity) : c_scope.
#[global] Open Scope c_scope.

Definition when {W} (b : bool) (m : ST W unit) : ST W unit :=
  if b then m else ret tt.

(** C truth of an integer expression. *)
Definition ztrue (z : Z) : bool := negb (z =? 0).

(** One round of a [for (;;)] loop: go on with new locals or leave it. *)
Inductive ctl (S R : Type) : Type :=
| Continue (s : S)
| Break (r : R).
Arguments Continue {S R} s.
Arguments Break {S R} r.

Fixpoint iter_fuel {W S R} (n : nat) (body : S -> ST W (ctl S R)) (s : S) : ST W R :=
  match n with
  | O => spin
  | S n' =>
      let* c := body s in
      match c with
      | Continue s' => iter_fuel n' body s'
      | Break r => ret r
      end
  end.

Lemma iter_continue {W S R} n (body : S -> ST W (ctl S R)) s w s' w' :
  body s w = (Ret (Continue s'), w') -> iter_fuel (Datatypes.S n) body s w = iter_fuel n body s' w'.
Proof. intros H. cbn. unfold bind. by rewrite H. Qed.
Lemma iter_break {W S R} n (body : S -> ST W (ctl S R)) s w r w' :
  body s w = (Ret (Break r), w') -> iter_fuel (Datatypes.S n) body s w = (Ret r, w').
Proof. intros H. cbn. unfold bind. by rewrite H. Qed.
Lemma iter_elog {W S R} n (body : S -> ST W (ctl S R)) s w e w' :
  body s w = (Elog e, w') -> iter_fuel (Datatypes.S n) body s w = (Elog e, w').
Proof. intros H. cbn. unfold bind. by rewrite H. Qed.

(** [for (i = lo; i < lo + n; i++) body i], for the loops whose bound is
    computed before the first round. *)
Fixpoint for_upto {W} (n : nat) (lo : Z) (body : Z -> ST W unit) : ST W unit :=
  match n with
  | O => ret tt
  | S n' => body lo ;; for_upto n' (lo + 1) body
  end.

(** ** Post-conditions *)
Definition wp {W A} (m : ST W A) (Q : outcome A -> W -> Prop) (w : W) : Prop :=
  Q (m w).1 (m w).2.

(** What a post-condition of a continuation requires of its first part. *)
Definition bind_post {W A B} (k : A -> ST W B) (Q : outcome B -> W -> Prop)
    (o : outcome A) (w : W) : Prop :=
  match o with
  | Ret a => wp (k a) Q w
  | Elog e => Q (Elog e) w
  | UB e => Q (UB e) w
  | Spin => Q Spin w
  end.

Lemma wp_ret {W A} (a : A) Q (w : W) : Q (Ret a) w -> wp (ret a) Q w.
Proof. done. Qed.
Lemma wp_elog {W A} e (Q : outcome A -> W -> Prop) w : Q (Elog e) w -> wp (elog e) Q w.
Proof. done. Qed.

Lemma wp_bind {W A B} (m : ST W A) (k : A -> ST W B) Q w :
  wp m (bind_post k Q) w -> wp (bind m k) Q w.
Proof. unfold wp, bind. destruct (m w) as [[a|e|e|] w']; done. Qed.

Lemma wp_mono {W A} (m : ST W A) (P Q : outcome A -> W -> Prop) w :
  (forall o w', P o w' -> Q o w') -> wp m P w -> wp m Q w.
Proof. unfold wp. auto. Qed.

Lemma wp_use {W A} (m : ST W A) Q w o w' : wp m Q w -> m w = (o, w') -> Q o w'.
Proof. unfold wp. intros H E. by rewrite E in H. Qed.
Lemma wp_eq {W A} (m : ST W A) Q w o w' : m w = (o, w') -> Q o w' -> wp m Q w.
Proof. unfold wp. by intros ->. Qed.

(** The first commands are done. *)
Lemma wp_step {W A} (m m' : ST W A) Q w w' : m w = m' w' -> wp m' Q w' -> wp m Q w.
Proof. unfold wp. by intros ->. Qed.

Lemma bind_ret {W A B} (m : ST W A) (k : A -> ST W B) w a w' :
  m w = (Ret a, w') -> bind m k w = k a w'.
Proof. unfold bind. by intros ->. Qed.

(** Runs the first command of the goal, whose result [H] states. *)
Ltac run H := rewrite (bind_ret _ _ _ _ _ H).

Lemma bind_ext {W A B} (m : ST W A) (k k' : A -> ST W B) w :
  (forall a w', k a w' = k' a w') -> bind m k w = bind m k' w.
Proof. intros H. unfold bind. by destruct (m w) as [[] ?]. Qed.

Lemma bind_assoc {W A B C} (m : ST W A) (k : A -> ST W B) (k' : B -> ST W C) w :
  bind (bind m k) k' w = bind m (fun x => bind (k x) k') w.
Proof. unfold bind. by destruct (m w) as [[] ?]. Qed.
Lemma bind_ret_l {W A B} (a : A) (k : A -> ST W B) w : bind (ret a) k w = k a w.
Proof. done. Qed.

Lemma when_true {W} b (m : ST W unit) w : b = true -> when b m w = m w.
Proof. by intros ->. Qed.
Lemma when_false {W} b (m : ST W unit) w : b = false -> when b m w = (Ret tt, w).
Proof. by intros ->. Qed.

(** What the post-condition of a loop requires of one round from measure [n]. *)
Definition round_post {W S R} (Inv : nat -> S -> W -> Prop) (n : nat)
    (Q : outcome R -> W -> Prop) (o : outcome (ctl S R)) (w : W) : Prop :=
  match o with
  | Ret (Continue s) => exists n', (n' < n)%nat /\ Inv n' s w
  | Ret (Break r) => Q (Ret r) w
  | Elog e => Q (Elog e) w
  | UB e => Q (UB e) w
  | Spin => Q Spin w
  end.

Lemma wp_iter {W S R} (Inv : nat -> S -> W -> Prop) (body : S -> ST W (ctl S R)) Q :
  (forall n s w, Inv n s w -> wp (body s) (round_post Inv n Q) w) ->
  forall fuel n s w, (n < fuel)%nat -> Inv n s w -> wp (iter_fuel fuel body s) Q w.
Proof.
  intros Hround fuel. induction fuel as [|fuel IH]; intros n s w Hn Hinv; [lia|].
  simpl. apply wp_bind. eapply wp_mono; [|by apply Hround].
  intros [[s'|r]|e|e|] w'; simpl; try done.
  intros (n' & Hlt & Hinv'). apply (IH n'); [lia|done].
Qed.

(** The same without a measure: the loop may also run out of iterations. *)
Definition round_post_partial {W S R} (Inv : S -> W -> Prop)
    (Q : outcome R -> W -> Prop) (o : outcome (ctl S R)) (w : W) : Prop :=
  match o with
  | Ret (Continue s) => Inv s w
  | Ret (Break r) => Q (Ret r) w
  | Elog e => Q (Elog e) w
  | UB e => Q (UB e) w
  | Spin => Q Spin w
  end.

Lemma wp_iter_partial {W S R} (Inv : S -> W -> Prop) (body : S -> ST W (ctl S R)) Q :
  (forall s w, Inv s w -> Q Spin w) ->
  (forall s w, Inv s w -> wp (body s) (round_post_partial Inv Q) w) ->
  forall fuel s w, Inv s w -> wp (iter_fuel fuel body s) Q w.
Proof.
  intros Hspin Hround fuel. induction fuel as [|fuel IH]; intros s w Hinv.
  - by apply (Hspin s).
  - simpl. apply wp_bind. eapply wp_mono; [|by apply Hround].
    intros [[s'|r]|e|e|] w'; simpl; try done. apply IH.
Qed.

(** ** Arrays indexed by C integers *)
Definition lookupZ {A} (l : list A) (i : Z) : option A :=
  if 0 <=? i then l !! Z.to_nat i else None.
Definition insertZ {A} (i : Z) (x : A) (l : list A) : list A :=
  if 0 <=? i then <[Z.to_nat i := x]> l else l.

Section arrays.
Context {A : Type}.
Implicit Types (l : list A) (x y : A) (i j : Z).

Lemma length_insertZ i x l : length (insertZ i x l) = length l.
Proof. unfold insertZ. case_match; [apply length_insert|done]. Qed.

Lemma lookupZ_insertZ_eq i x l :
  0 <= i < Z.of_nat (length l) -> lookupZ (insertZ i x l) i = Some x.
Proof.
  intros H. unfold lookupZ, insertZ.
  replace (0 <=? i) with true by lia. apply list_lookup_insert_eq. lia.
Qed.

Lemma lookupZ_insertZ_ne i j x l : i <> j -> lookupZ (insertZ i x l) j = lookupZ l j.
Proof.
  intros H. unfold lookupZ, insertZ. destruct (Z.leb_spec 0 j); [|done].
  destruct (Z.leb_spec 0 i); [|done]. apply list_lookup_insert_ne. lia.
Qed.

Lemma lookupZ_Some l i x : lookupZ l i = Some x -> 0 <= i < Z.of_nat (length l).
Proof.
  unfold lookupZ. destruct (Z.leb_spec 0 i); [|done].
  intros Hl%lookup_lt_Some. lia.
Qed.

Lemma lookupZ_lt l i : 0 <= i < Z.of_nat (length l) -> exists x, lookupZ l i = Some x.
Proof.
  intros H. unfold lookupZ. replace (0 <=? i) with true by lia.
  apply lookup_lt_is_Some. lia.
Qed.

Lemma lookupZ_insertZ_Some i j x y l :
  lookupZ (insertZ i x l) j = Some y ->
  (i = j /\ x = y) \/ (i <> j /\ lookupZ l j = Some y).
Proof.
  intros H. destruct (decide (i = j)) as [<-|Hne].
  - left. pose proof (lookupZ_Some _ _ _ H) as Hr. rewrite length_insertZ in Hr.
    rewrite lookupZ_insertZ_eq in H by done. naive_solver.
  - right. by rewrite lookupZ_insertZ_ne in H.
Qed.

Lemma elem_of_insertZ i x y l : y ∈ insertZ i x l -> y = x \/ y ∈ l.
Proof.
  unfold insertZ. case_match; [|auto]. rewrite !list_elem_of_lookup.
  intros [j [(_ & <- & _)|[_ Hj]]%list_lookup_insert_Some]; eauto.
Qed.

Lemma insertZ_insertZ i x y l : insertZ i x (insertZ i y l) = insertZ i x l.
Proof. unfold insertZ. case_match; [apply list_insert_insert_eq|done]. Qed.

Lemma insertZ_id i x l : lookupZ l i = Some x -> insertZ i x l = l.
Proof.
  unfold lookupZ, insertZ. case_match; [|done]. apply list_insert_id.
Qed.
End arrays.

(** ** Searching a list *)
(** The first element with property [p], with what precedes it. *)
Fixpoint first {A} (p : A -> bool) (r : list A) : option (list A * A) :=
  match r with
  | [] => None
  | x :: r =>
      if p x then Some ([], x) else
      match first p r with
      | Some (xs, v) => Some (x :: xs, v)
      | None => None
      end
  end.

Lemma first_Some {A} (p : A -> bool) r xs v :
  first p r = Some (xs, v) ->
  exists ys, r = xs ++ v :: ys /\ p v = true /\ forall x, x ∈ xs -> p x = false.
Proof.
  revert xs. induction r as [|x r IH]; intros xs; cbn; [done|].
  destruct (p x) eqn:Hx.
  - intros [= <- <-]. exists r. split_and!; [done..|]. set_solver.
  - destruct (first p r) as [[xs' v']|]; [|done]. intros [= <- <-].
    destruct (IH xs' eq_refl) as (ys & -> & Hv & Hxs). exists ys.
    split_and!; [done..|]. set_solver.
Qed.

Lemma first_None {A} (p : A -> bool) r : first p r = None -> forall x, x ∈ r -> p x = false.
Proof.
  induction r as [|x r IH]; cbn; [set_solver|].
  destruct (p x) eqn:Hx; [done|]. destruct (first p r) as [[]|]; [done|]. set_solver.
Qed.

(** ** Removing an element *)
Definition rm (b : Z) (l : list Z) : list Z := filter (fun x => x <> b) l.

Lemma rm_notin b l : (b ∉ l) -> rm b l = l.
Proof.
  induction l as [|x l IH]; intros Hb; [done|]. unfold rm. rewrite filter_cons_True by set_solver.
  f_equal. apply IH. set_solver.
Qed.
Lemma rm_split b l1 l2 : NoDup (l1 ++ b :: l2) -> rm b (l1 ++ b :: l2) = l1 ++ l2.
Proof.
  intros (_ & Hd & [Hb _]%NoDup_cons)%NoDup_app. unfold rm. rewrite filter_app.
  rewrite filter_cons_False by (intros H; by apply H). f_equal; apply rm_notin; set_solver.
Qed.
Lemma elem_of_rm b x l : x ∈ rm b l <-> x ∈ l /\ x <> b.
Proof. unfold rm. rewrite list_elem_of_filter. tauto. Qed.

(** ** The ends of a list *)
(** [l] without one occurrence of [b]. *)
Fixpoint remove_one (b : Z) (l : list Z) : option (list Z) :=
  match l with
  | [] => None
  | x :: l => if x =? b then Some l else cons x <$> remove_one b l
  end.

Lemma remove_one_perm b l l' : remove_one b l = Some l' -> l ≡ₚ b :: l'.
Proof.
  revert l'. induction l as [|x l IH]; intros l' H; cbn in H; [done|].
  destruct (Z.eqb_spec x b) as [->|]; [by injection H as <-|].
  apply fmap_Some in H as (l2 & Hl2 & ->). rewrite (IH _ Hl2). apply Permutation_swap.
Qed.

Lemma remove_one_in b l : b ∈ l -> exists l', remove_one b l = Some l'.
Proof.
  induction l as [|x l IH]; [by intros ?%not_elem_of_nil|]. cbn.
  destruct (Z.eqb_spec x b) as [->|Hne]; [by eexists|].
  intros [->|H]%elem_of_cons; [done|]. destruct (IH H) as [l' ->]. by eexists.
Qed.

Lemma remove_one_head b l : remove_one b (b :: l) = Some l.
Proof. cbn. by rewrite Z.eqb_refl. Qed.

Lemma default_last_in {A} (s : A) l : default s (last l) = s \/ default s (last l) ∈ l.
Proof.
  destruct l as [|x l _] using rev_ind; [by left|]. right. rewrite last_snoc. cbn. set_solver.
Qed.
Lemma default_head_in {A} (s : A) l : default s (head l) = s \/ default s (head l) ∈ l.
Proof. destruct l as [|x l]; [by left|]. right. cbn. set_solver. Qed.

(** ** Searching a list of lists *)
Lemma first_join {A B} (p : A -> bool) (F : B -> list A) fs xs v :
  first p (mjoin (F <$> fs)) = Some (xs, v) ->
  exists fs1 f fs2 ps ys, fs = fs1 ++ f :: fs2 /\ F f = ps ++ v :: ys /\ p v = true /\
    (forall x, x ∈ ps -> p x = false) /\ (forall g x, g ∈ fs1 -> x ∈ F g -> p x = false).
Proof.
  revert xs. induction fs as [|g fs IH]; intros xs Hf; [done|]. cbn in Hf.
  destruct (first p (F g)) as [[ps v']|] eqn:Hg.
  - assert (v' = v) as ->.
    { clear IH. revert ps xs Hg Hf. generalize (F g). intros l. induction l as [|x l IH]; intros ps xs; cbn; [done|].
      destruct (p x); [congruence|].
      destruct (first p l) as [[]|]; [|done].
      destruct (first p (l ++ mjoin (F <$> fs))) as [[]|]; [|done].
      intros [= <- <-] [= <- <-]. by eapply IH. }
    apply first_Some in Hg as (ys & Hg & Hv & Hps).
    exists [], g, fs, ps, ys. split_and!; try done. set_solver.
  - pose proof (first_None _ _ Hg) as Hall.
    assert (exists xs', first p (mjoin (F <$> fs)) = Some (xs', v)) as [xs' Hf'].
    { clear IH. revert xs Hf. generalize (F g), Hall. intros l Hl.
      clear Hg Hall. induction l as [|x l IH]; intros xs; cbn; [by eexists|].
      rewrite (Hl x) by set_solver.
      destruct (first p (l ++ mjoin (F <$> fs))) as [[]|]; [|done].
      intros [= <- <-]. eapply IH; [set_solver|reflexivity]. }
    destruct (IH xs' Hf') as (fs1 & f & fs2 & ps & ys & -> & HF & Hv & Hps & Hfs1).
    exists (g :: fs1), f, fs2, ps, ys. split_and!; try done.
    intros g' x [->|Hg']%elem_of_cons Hx; [by apply Hall|by eapply Hfs1].
Qed.

Lemma seqZ_split a len fs1 f fs2 :
  seqZ a len = fs1 ++ f :: fs2 ->
  f = a + Z.of_nat (length fs1) /\ fs1 = seqZ a (Z.of_nat (length fs1)) /\
  Z.of_nat (length fs1) < len.
Proof.
  intros H. assert (length (seqZ a len) = length fs1 + S (length fs2))%nat as Hlen.
  { rewrite H, length_app. done. }
  rewrite length_seqZ in Hlen. assert (Z.of_nat (length fs1) < len) as Hlt by lia.
  split_and!; [| |done].
  - assert ((fs1 ++ f :: fs2) !! length fs1 = Some f) as Hl.
    { rewrite lookup_app_r by lia. by rewrite Nat.sub_diag. }
    rewrite <- H in Hl. apply lookup_seqZ in Hl as [-> _]. done.
  - replace len with (Z.of_nat (length fs1) + (len - Z.of_nat (length fs1))) in H by lia.
    rewrite seqZ_app in H by lia. symmetry.
    refine (proj1 (app_inj_1 _ _ _ _ _ H)). rewrite length_seqZ. lia.
Qed.

(** ** Ranges of indices, for the loops that fill arrays *)
Definition in_range (lo k x : Z) : bool := (lo <=? x) && (x <? lo + k).

Lemma in_range_nil lo x : in_range lo 0 x = false.
Proof. unfold in_range, Z.succ. lia. Qed.
Lemma in_range_here lo k : 0 <= k -> in_range lo (Z.succ k) lo = true.
Proof. unfold in_range, Z.succ. lia. Qed.
Lemma in_range_past lo k : in_range (lo + 1) k lo = false.
Proof. unfold in_range, Z.succ. lia. Qed.
Lemma in_range_step lo k x : x <> lo -> in_range (lo + 1) k x = in_range lo (Z.succ k) x.
Proof. unfold in_range, Z.succ. lia. Qed.
Lemma in_range_true lo k x : lo <= x < lo + k -> in_range lo k x = true.
Proof. unfold in_range, Z.succ. lia. Qed.
Lemma in_range_false lo k x : x < lo \/ lo + k <= x -> in_range lo k x = false.
Proof. unfold in_range, Z.succ. lia. Qed.
