(* ===== verification/Float.v ===== *)
(** * The floating-point numbers of the code

    [float] and [double] as IEEE 754 binary32 and binary64 numbers rounded to the
    nearest, with the conversions the code uses; a conversion to [int] of a number
    out of range is undefined and gives [None]. *)
From Stdlib Require Import SpecFloat.
From S2P Require Import Prelude.

Definition float8 := spec_float.
Definition float8_zero : float8 := S754_zero false.
Definition float8_of_int (z : Z) : float8 := binary_normalize 53 1024 z 0 false.
Definition float8_add : float8 -> float8 -> float8 := SFadd 53 1024.
Definition float8_mul : float8 -> float8 -> float8 := SFmul 53 1024.
Definition float8_div : float8 -> float8 -> float8 := SFdiv 53 1024.

Definition float4 := spec_float.
Definition float4_zero : float4 := S754_zero false.
Definition float4_of_int (z : Z) : float4 := binary_normalize 24 128 z 0 false.
Definition float4_add : float4 -> float4 -> float4 := SFadd 24 128.
Definition float4_sub : float4 -> float4 -> float4 := SFsub 24 128.
Definition float4_div : float4 -> float4 -> float4 := SFdiv 24 128.
Definition float4_leb : float4 -> float4 -> bool := SFleb.

Definition float8_of_float4 (f : float4) : float8 :=
  match f with
  | S754_finite s m e => binary_normalize 53 1024 (cond_Zopp s (Zpos m)) e s
  | _ => f
  end.

(** Towards zero. *)
Definition trunc_float (f : spec_float) : option Z :=
  match f with
  | S754_zero _ => Some 0
  | S754_finite s m e => Some (cond_Zopp s (if 0 <=? e then Zpos m * 2 ^ e else Zpos m / 2 ^ (- e)))
  | _ => None
  end.
Definition int_of_float (f : spec_float) : option Z :=
  match trunc_float f with
  | Some z => if (- 2 ^ 31 <=? z) && (z <? 2 ^ 31) then Some z else None
  | None => None
  end.

Lemma int_of_float_range f z : int_of_float f = Some z -> - 2 ^ 31 <= z < 2 ^ 31.
Proof.
  unfold int_of_float. destruct (trunc_float f) as [x|]; [|done]. destruct (Z.leb_spec (- 2 ^ 31) x), (Z.ltb_spec x (2 ^ 31)); try done.
  cbn. intros [= <-]. lia.
Qed.
