(* ===== verification/BufState.v ===== *)
(** * The packed buffer state word ([src/include/storage/buf_internals.h])

    One 64-bit word holds the pin count, the usage count, twelve flags and the
    content lock of a shared buffer.  The file has the C constants and
    accessors, the arithmetic of the operations the buffer manager performs on
    the word, and the fact that the four parts never disturb one another. *)
From S2P Require Import Prelude.

(** ** Constants and accessors *)
Definition BUF_REFCOUNT_BITS : Z := 18.
Definition BUF_USAGECOUNT_BITS : Z := 4.
Definition BUF_FLAG_BITS : Z := 12.
Definition BUF_LOCK_BITS : Z := 18 + 2.

Definition BUF_REFCOUNT_ONE : Z := 1.
Definition BUF_REFCOUNT_MASK : Z := Z.shiftl 1 BUF_REFCOUNT_BITS - 1.

Definition BUF_USAGECOUNT_SHIFT : Z := BUF_REFCOUNT_BITS.
Definition BUF_USAGECOUNT_MASK : Z :=
  Z.shiftl (Z.shiftl 1 BUF_USAGECOUNT_BITS - 1) BUF_USAGECOUNT_SHIFT.
Definition BUF_USAGECOUNT_ONE : Z := Z.shiftl 1 BUF_REFCOUNT_BITS.

Definition BUF_FLAG_SHIFT : Z := BUF_REFCOUNT_BITS + BUF_USAGECOUNT_BITS.
Definition BUF_FLAG_MASK : Z := Z.shiftl (Z.shiftl 1 BUF_FLAG_BITS - 1) BUF_FLAG_SHIFT.

Definition MAX_BACKENDS_BITS : Z := 18.
Definition MAX_BACKENDS : Z := Z.shiftl 1 MAX_BACKENDS_BITS - 1.

Definition BM_LOCK_SHIFT : Z := BUF_FLAG_SHIFT + BUF_FLAG_BITS.
Definition BM_LOCK_VAL_SHARED : Z := Z.shiftl 1 BM_LOCK_SHIFT.
Definition BM_LOCK_VAL_SHARE_EXCLUSIVE : Z := Z.shiftl 1 (BM_LOCK_SHIFT + MAX_BACKENDS_BITS).
Definition BM_LOCK_VAL_EXCLUSIVE : Z := Z.shiftl 1 (BM_LOCK_SHIFT + MAX_BACKENDS_BITS + 1).
Definition BM_LOCK_MASK : Z :=
  Z.lor (Z.lor (Z.shiftl MAX_BACKENDS BM_LOCK_SHIFT) BM_LOCK_VAL_SHARE_EXCLUSIVE)
        BM_LOCK_VAL_EXCLUSIVE.

Definition BUF_STATE_GET_REFCOUNT (state : Z) : Z := u32 (Z.land state BUF_REFCOUNT_MASK).
Definition BUF_STATE_GET_USAGECOUNT (state : Z) : Z :=
  u32 (Z.shiftr (Z.land state BUF_USAGECOUNT_MASK) BUF_USAGECOUNT_SHIFT).

Definition BUF_DEFINE_FLAG (flagno : Z) : Z := Z.shiftl 1 (BUF_FLAG_SHIFT + flagno).
Definition BM_LOCKED : Z := BUF_DEFINE_FLAG 0.
Definition BM_DIRTY : Z := BUF_DEFINE_FLAG 1.
Definition BM_VALID : Z := BUF_DEFINE_FLAG 2.
Definition BM_TAG_VALID : Z := BUF_DEFINE_FLAG 3.
Definition BM_IO_IN_PROGRESS : Z := BUF_DEFINE_FLAG 4.
Definition BM_IO_ERROR : Z := BUF_DEFINE_FLAG 5.
Definition BM_JUST_DIRTIED : Z := BUF_DEFINE_FLAG 6.
Definition BM_PIN_COUNT_WAITER : Z := BUF_DEFINE_FLAG 7.
Definition BM_CHECKPOINT_NEEDED : Z := BUF_DEFINE_FLAG 8.
Definition BM_PERMANENT : Z := BUF_DEFINE_FLAG 9.
Definition BM_LOCK_HAS_WAITERS : Z := BUF_DEFINE_FLAG 10.
Definition BM_LOCK_WAKE_IN_PROGRESS : Z := BUF_DEFINE_FLAG 11.

Definition BM_MAX_USAGE_COUNT : Z := 5.

(** [x & F] as a C condition, and the 64-bit complement [~x]. *)
Definition flag (state F : Z) : bool := ztrue (Z.land state F).
Definition not64 (x : Z) : Z := u64 (Z.lnot x).

(** ** Well-formed words and their parts *)
Definition wf_state (s : Z) : Prop := 0 <= s < 2 ^ 64.

Definition refcount (s : Z) : Z := s mod 2 ^ 18.
Definition usage (s : Z) : Z := (s / 2 ^ 18) mod 2 ^ 4.
Definition flagbits (s : Z) : Z := (s / 2 ^ 22) mod 2 ^ 12.
Definition lockbits (s : Z) : Z := s / 2 ^ 34.

Ltac zdm := Z.div_mod_to_equations; lia.

Lemma get_refcount s : 0 <= s -> BUF_STATE_GET_REFCOUNT s = refcount s.
Proof.
  intros Hs. unfold BUF_STATE_GET_REFCOUNT, refcount.
  change BUF_REFCOUNT_MASK with (Z.ones 18). rewrite Z.land_ones by lia.
  apply u32_small. pose proof (Z.mod_pos_bound s (2 ^ 18)). lia.
Qed.

Lemma get_usagecount s : 0 <= s -> BUF_STATE_GET_USAGECOUNT s = usage s.
Proof.
  intros Hs. unfold BUF_STATE_GET_USAGECOUNT, usage.
  change BUF_USAGECOUNT_MASK with (Z.shiftl (Z.ones 4) 18).
  change BUF_USAGECOUNT_SHIFT with 18.
  rewrite Z.shiftr_land, (Z.shiftr_shiftl_r (Z.ones 4) 18 18), Z.sub_diag by lia.
  rewrite Z.shiftr_0_r, Z.land_ones, Z.shiftr_div_pow2 by lia.
  apply u32_small. pose proof (Z.mod_pos_bound (s / 2 ^ 18) (2 ^ 4)). lia.
Qed.

Lemma ztrue_land_pow2 s k : 0 <= k -> ztrue (Z.land s (Z.shiftl 1 k)) = Z.testbit s k.
Proof.
  intros Hk. rewrite Z.shiftl_1_l. unfold ztrue.
  destruct (Z.testbit s k) eqn:E.
  - apply negb_true_iff, Z.eqb_neq. intros H0.
    assert (Z.testbit (Z.land s (2 ^ k)) k = true) as H.
    { by rewrite Z.land_spec, E, Z.pow2_bits_true by lia. }
    rewrite H0, Z.bits_0 in H. done.
  - apply negb_false_iff, Z.eqb_eq, Z.bits_inj'. intros n Hn.
    rewrite Z.land_spec, Z.bits_0.
    destruct (decide (n = k)) as [->|Hne]; [by rewrite E|].
    by rewrite Z.pow2_bits_false, andb_false_r by lia.
Qed.

(** A flag is a bit of the word. *)
Lemma flag_testbit s n :
  0 <= n -> flag s (BUF_DEFINE_FLAG n) = Z.testbit s (22 + n).
Proof.
  intros Hn. unfold flag, BUF_DEFINE_FLAG.
  change BUF_FLAG_SHIFT with 22. apply ztrue_land_pow2. lia.
Qed.

Lemma land_not64 s x : wf_state s -> Z.land s (not64 x) = Z.ldiff s x.
Proof.
  intros Hs. apply Z.bits_inj'. intros n Hn.
  rewrite Z.land_spec, Z.ldiff_spec. unfold not64, u64.
  destruct (decide (n < 64)).
  - rewrite Z.mod_pow2_bits_low by lia. by rewrite Z.lnot_spec.
  - rewrite Z.mod_pow2_bits_high by lia.
    assert (Z.testbit s n = false) as ->; [|done].
    rewrite <- (Z.mod_small s (2 ^ 64)) by (unfold wf_state in Hs; lia).
    apply Z.mod_pow2_bits_high. lia.
Qed.

(** ** Operations on one part leave the others alone *)

(** Everything above bit [k] is determined by the quotient by [2 ^ k]. *)
Lemma testbit_quot s s' k n :
  0 <= k <= n -> s' / 2 ^ k = s / 2 ^ k -> Z.testbit s' n = Z.testbit s n.
Proof.
  intros Hk Hq. replace n with ((n - k) + k) by lia.
  rewrite <- !Z.shiftr_spec by lia. rewrite !Z.shiftr_div_pow2 by lia. by rewrite Hq.
Qed.

Lemma flag_quot22 s s' n :
  0 <= n -> s' / 2 ^ 22 = s / 2 ^ 22 ->
  flag s' (BUF_DEFINE_FLAG n) = flag s (BUF_DEFINE_FLAG n).
Proof. intros Hn Hq. rewrite !flag_testbit by lia. apply (testbit_quot _ _ 22); lia. Qed.

Lemma quot18_22 s s' : s' / 2 ^ 18 = s / 2 ^ 18 -> s' / 2 ^ 22 = s / 2 ^ 22.
Proof.
  intros Hq. change (2 ^ 22) with (2 ^ 18 * 2 ^ 4). by rewrite <- !Z.div_div, Hq by lia.
Qed.

Lemma flag_quot18 s s' n :
  0 <= n -> s' / 2 ^ 18 = s / 2 ^ 18 ->
  flag s' (BUF_DEFINE_FLAG n) = flag s (BUF_DEFINE_FLAG n).
Proof. intros Hn Hq. by apply flag_quot22, quot18_22. Qed.

Lemma usage_quot18 s s' : s' / 2 ^ 18 = s / 2 ^ 18 -> usage s' = usage s.
Proof. unfold usage. by intros ->. Qed.

Lemma lockbits_quot22 s s' : s' / 2 ^ 22 = s / 2 ^ 22 -> lockbits s' = lockbits s.
Proof.
  intros Hq. unfold lockbits. change (2 ^ 34) with (2 ^ 22 * 2 ^ 12).
  by rewrite <- !Z.div_div, Hq by lia.
Qed.

(** [state + BUF_REFCOUNT_ONE], as long as the pin count does not overflow. *)
Definition pinned_word (s : Z) : Z := u64 (s + BUF_REFCOUNT_ONE).

Lemma pin_word s :
  wf_state s -> refcount s < 2 ^ 18 - 1 ->
  wf_state (pinned_word s) /\ refcount (pinned_word s) = refcount s + 1 /\
  pinned_word s / 2 ^ 18 = s / 2 ^ 18.
Proof.
  unfold wf_state, refcount, pinned_word, BUF_REFCOUNT_ONE. intros Hs Hr.
  rewrite u64_small by zdm. repeat split; zdm.
Qed.

(** [state - BUF_REFCOUNT_ONE] on a pinned buffer. *)
Definition unpinned_word (s : Z) : Z := u64 (s - BUF_REFCOUNT_ONE).

Lemma unpin_word s :
  wf_state s -> 0 < refcount s ->
  wf_state (unpinned_word s) /\ refcount (unpinned_word s) = refcount s - 1 /\
  unpinned_word s / 2 ^ 18 = s / 2 ^ 18.
Proof.
  unfold wf_state, refcount, unpinned_word, BUF_REFCOUNT_ONE. intros Hs Hr.
  rewrite u64_small by zdm. repeat split; zdm.
Qed.

(** The word as pin count, usage count and the bits above them. *)
Definition word_of (c u h : Z) : Z := c + 2 ^ 18 * u + 2 ^ 22 * h.

Lemma word_of_parts c u h :
  0 <= c < 2 ^ 18 -> 0 <= u < 2 ^ 4 -> 0 <= h < 2 ^ 42 ->
  wf_state (word_of c u h) /\ refcount (word_of c u h) = c /\
  usage (word_of c u h) = u /\ word_of c u h / 2 ^ 22 = h.
Proof.
  intros Hc Hu Hh. unfold wf_state, refcount, usage, word_of.
  assert ((c + 2 ^ 18 * u + 2 ^ 22 * h) / 2 ^ 18 = u + 2 ^ 4 * h) as Eq.
  { symmetry. apply (Z.div_unique _ _ _ c); lia. }
  repeat split; [lia|lia|..].
  - symmetry. apply (Z.mod_unique _ _ (u + 2 ^ 4 * h)); lia.
  - rewrite Eq. symmetry. apply (Z.mod_unique _ _ h); lia.
  - symmetry. apply (Z.div_unique _ _ _ (c + 2 ^ 18 * u)); lia.
Qed.

Lemma parts_word s :
  wf_state s ->
  s = word_of (refcount s) (usage s) (s / 2 ^ 22) /\
  0 <= refcount s < 2 ^ 18 /\ 0 <= usage s < 2 ^ 4 /\ 0 <= s / 2 ^ 22 < 2 ^ 42.
Proof.
  unfold wf_state, word_of, refcount, usage. intros Hs.
  pose proof (Z.div_mod s (2 ^ 18) ltac:(lia)) as E1.
  pose proof (Z.div_mod (s / 2 ^ 18) (2 ^ 4) ltac:(lia)) as E2.
  rewrite Z.div_div in E2 by lia. change (2 ^ 18 * 2 ^ 4) with (2 ^ 22) in E2.
  pose proof (Z.mod_pos_bound s (2 ^ 18) ltac:(lia)).
  pose proof (Z.mod_pos_bound (s / 2 ^ 18) (2 ^ 4) ltac:(lia)).
  repeat split; lia.
Qed.

Lemma refcount_range s : 0 <= refcount s < 2 ^ 18.
Proof. apply Z.mod_pos_bound; lia. Qed.
Lemma usage_range s : 0 <= usage s < 16.
Proof. apply Z.mod_pos_bound; lia. Qed.

(** [state + BUF_USAGECOUNT_ONE] below the maximum of the four bits. *)
Lemma usage_up_word s :
  wf_state s -> usage s < 15 ->
  let s' := u64 (s + BUF_USAGECOUNT_ONE) in
  wf_state s' /\ refcount s' = refcount s /\ usage s' = usage s + 1 /\
  s' / 2 ^ 22 = s / 2 ^ 22.
Proof.
  intros Hs Hu. cbv zeta. destruct (parts_word s Hs) as (E & Hc & Hu' & Hh).
  assert (s + BUF_USAGECOUNT_ONE = word_of (refcount s) (usage s + 1) (s / 2 ^ 22)) as ->.
  { change BUF_USAGECOUNT_ONE with (2 ^ 18). rewrite E at 1. unfold word_of. lia. }
  destruct (word_of_parts (refcount s) (usage s + 1) (s / 2 ^ 22)) as (W & ?); [lia..|].
  by rewrite u64_small by apply W.
Qed.

(** [state - BUF_USAGECOUNT_ONE] on a nonzero usage count. *)
Lemma usage_down_word s :
  wf_state s -> 0 < usage s ->
  let s' := u64 (s - BUF_USAGECOUNT_ONE) in
  wf_state s' /\ refcount s' = refcount s /\ usage s' = usage s - 1 /\
  s' / 2 ^ 22 = s / 2 ^ 22.
Proof.
  intros Hs Hu. cbv zeta. destruct (parts_word s Hs) as (E & Hc & Hu' & Hh).
  assert (s - BUF_USAGECOUNT_ONE = word_of (refcount s) (usage s - 1) (s / 2 ^ 22)) as ->.
  { change BUF_USAGECOUNT_ONE with (2 ^ 18). rewrite E at 1. unfold word_of. lia. }
  destruct (word_of_parts (refcount s) (usage s - 1) (s / 2 ^ 22)) as (W & ?); [lia..|].
  by rewrite u64_small by apply W.
Qed.

(** ** Setting and clearing bits *)
Lemma wf_state_bits s :
  wf_state s <-> 0 <= s /\ forall n, 64 <= n -> Z.testbit s n = false.
Proof.
  unfold wf_state. split.
  - intros Hs. split; [lia|]. apply Z.bounded_iff_bits_nonneg; lia.
  - intros [Hs Hb]. split; [done|]. apply Z.bounded_iff_bits_nonneg; [lia..|done].
Qed.

Lemma wf_lor s F : wf_state s -> wf_state F -> wf_state (Z.lor s F).
Proof.
  rewrite !wf_state_bits. intros [Hs Hsb] [HF HFb].
  split; [by apply Z.lor_nonneg|]. intros n Hn. by rewrite Z.lor_spec, Hsb, HFb.
Qed.

Lemma wf_ldiff s F : wf_state s -> wf_state (Z.ldiff s F).
Proof.
  rewrite !wf_state_bits. intros [Hs Hsb].
  split; [apply Z.ldiff_nonneg; lia|]. intros n Hn. by rewrite Z.ldiff_spec, Hsb.
Qed.

(** A field occupies the bits [lo .. lo + len - 1]. *)
Definition field (lo len s : Z) : Z := (s / 2 ^ lo) mod 2 ^ len.

Lemma field_testbit lo len s n :
  0 <= lo -> 0 <= len -> 0 <= n ->
  Z.testbit (field lo len s) n = (n <? len) && Z.testbit s (n + lo).
Proof.
  intros Hlo Hlen Hn. unfold field. destruct (Z.ltb_spec n len).
  - rewrite Z.mod_pow2_bits_low by lia. rewrite <- Z.shiftr_div_pow2 by lia.
    by rewrite Z.shiftr_spec.
  - by rewrite Z.mod_pow2_bits_high by lia.
Qed.

Lemma field_ext lo len s s' :
  0 <= lo -> 0 <= len ->
  (forall n, lo <= n < lo + len -> Z.testbit s' n = Z.testbit s n) ->
  field lo len s' = field lo len s.
Proof.
  intros Hlo Hlen H. apply Z.bits_inj'. intros n Hn. rewrite !field_testbit by lia.
  destruct (Z.ltb_spec n len); simpl; [apply H; lia|done].
Qed.

Lemma refcount_field s : refcount s = field 0 18 s.
Proof. unfold refcount, field. by rewrite Z.pow_0_r, Z.div_1_r. Qed.
Lemma usage_field s : usage s = field 18 4 s.
Proof. done. Qed.

(** Setting bits outside a field keeps it. *)
Lemma field_lor lo len s F :
  0 <= lo -> 0 <= len -> field lo len F = 0 -> field lo len (Z.lor s F) = field lo len s.
Proof.
  intros Hlo Hlen HF. apply field_ext; [done..|]. intros n Hn. rewrite Z.lor_spec.
  assert (Z.testbit F n = false) as ->; [|by rewrite orb_false_r].
  pose proof (field_testbit lo len F (n - lo) Hlo Hlen ltac:(lia)) as E.
  rewrite HF, Z.bits_0 in E. replace (n - lo + lo) with n in E by lia.
  destruct (Z.ltb_spec (n - lo) len); [done|lia].
Qed.

(** Clearing bits outside a field keeps it, clearing all its bits zeroes it. *)
Lemma field_ldiff lo len s F :
  0 <= lo -> 0 <= len -> field lo len F = 0 -> field lo len (Z.ldiff s F) = field lo len s.
Proof.
  intros Hlo Hlen HF. apply field_ext; [done..|]. intros n Hn. rewrite Z.ldiff_spec.
  assert (Z.testbit F n = false) as ->; [|by rewrite andb_true_r].
  pose proof (field_testbit lo len F (n - lo) Hlo Hlen ltac:(lia)) as E.
  rewrite HF, Z.bits_0 in E. replace (n - lo + lo) with n in E by lia.
  destruct (Z.ltb_spec (n - lo) len); [done|lia].
Qed.

Lemma field_ldiff_all lo len s F :
  0 <= lo -> 0 <= len -> field lo len F = Z.ones len -> field lo len (Z.ldiff s F) = 0.
Proof.
  intros Hlo Hlen HF. apply Z.bits_inj'. intros n Hn.
  rewrite field_testbit, Z.ldiff_spec, Z.bits_0 by lia.
  pose proof (field_testbit lo len F n Hlo Hlen Hn) as E. rewrite HF in E.
  destruct (Z.ltb_spec n len); simpl in *; [|done].
  rewrite Z.ones_spec_low in E by lia. rewrite <- E. by rewrite andb_false_r.
Qed.

Lemma flag_lor s F n :
  0 <= n -> flag (Z.lor s F) (BUF_DEFINE_FLAG n) =
            flag s (BUF_DEFINE_FLAG n) || flag F (BUF_DEFINE_FLAG n).
Proof. intros Hn. rewrite !flag_testbit by lia. apply Z.lor_spec. Qed.

Lemma flag_ldiff s F n :
  0 <= n -> flag (Z.ldiff s F) (BUF_DEFINE_FLAG n) =
            flag s (BUF_DEFINE_FLAG n) && negb (flag F (BUF_DEFINE_FLAG n)).
Proof. intros Hn. rewrite !flag_testbit by lia. apply Z.ldiff_spec. Qed.

(** [state & ~BUF_USAGECOUNT_MASK]. *)
Definition usage_cleared (s : Z) : Z := Z.land s (not64 BUF_USAGECOUNT_MASK).

Lemma usage_clear_word s :
  wf_state s ->
  wf_state (usage_cleared s) /\ refcount (usage_cleared s) = refcount s /\
  usage (usage_cleared s) = 0 /\
  forall n, 0 <= n -> flag (usage_cleared s) (BUF_DEFINE_FLAG n) = flag s (BUF_DEFINE_FLAG n).
Proof.
  intros Hs. unfold usage_cleared. rewrite land_not64 by done. split_and!.
  - by apply wf_ldiff.
  - rewrite !refcount_field. by apply field_ldiff.
  - rewrite usage_field. by apply field_ldiff_all.
  - intros n Hn. rewrite !flag_testbit, Z.ldiff_spec by done.
    rewrite (Z.bits_above_log2 BUF_USAGECOUNT_MASK); [apply andb_true_r|done|].
    change (Z.log2 BUF_USAGECOUNT_MASK) with 21. lia.
Qed.

(** [state | BM_LOCKED] on a free header, and the way back. *)
Lemma lor_disjoint a b : Z.land a b = 0 -> Z.lor a b = a + b.
Proof. intros H. rewrite Z.add_nocarry_lxor, Z.lxor_lor by done. done. Qed.

Lemma land_bit_0 s k : 0 <= k -> Z.testbit s k = false -> Z.land s (Z.shiftl 1 k) = 0.
Proof.
  intros Hk Hb. pose proof (ztrue_land_pow2 s k Hk) as E. rewrite Hb in E.
  by apply negb_false_iff, Z.eqb_eq in E.
Qed.

Lemma clear_bit s k :
  0 <= k -> Z.testbit s k = true -> Z.ldiff s (Z.shiftl 1 k) = s - Z.shiftl 1 k.
Proof.
  intros Hk Hb. rewrite Z.sub_nocarry_ldiff; [done|]. apply Z.bits_inj'. intros n Hn.
  rewrite Z.ldiff_spec, Z.bits_0, Z.shiftl_1_l, Z.pow2_bits_eqb by lia.
  destruct (Z.eqb_spec k n) as [<-|]; [by rewrite Hb|done].
Qed.

Lemma unlock_sub s :
  wf_state s -> flag s BM_LOCKED = true -> u64 (s - BM_LOCKED) = Z.ldiff s BM_LOCKED.
Proof.
  intros Hs Hf. change BM_LOCKED with (Z.shiftl 1 22) in *.
  rewrite <- (clear_bit s 22); [|lia|by rewrite <- ztrue_land_pow2].
  apply u64_small, (wf_ldiff s _ Hs).
Qed.

Lemma unlock_lock s :
  flag s BM_LOCKED = false -> Z.ldiff (Z.lor s BM_LOCKED) BM_LOCKED = s.
Proof.
  intros Hf. apply Z.bits_inj'. intros n Hn. rewrite Z.ldiff_spec, Z.lor_spec.
  destruct (Z.testbit BM_LOCKED n) eqn:E; [|by rewrite orb_false_r, andb_true_r].
  change BM_LOCKED with (2 ^ 22) in E. rewrite Z.pow2_bits_eqb in E by lia. apply Z.eqb_eq in E as <-.
  pose proof (flag_testbit s 0 ltac:(lia)) as Ht. change (BUF_DEFINE_FLAG 0) with BM_LOCKED in Ht.
  rewrite Hf in Ht. change (22 + 0) with 22 in Ht. by rewrite <- Ht.
Qed.

(** ** Named flags

    Each of them is one bit of the word. *)
Class IsBit (F k : Z) := is_bit : F = Z.shiftl 1 k /\ 0 <= k.
#[export] Instance bit_locked : IsBit BM_LOCKED 22. Proof. by split. Qed.
#[export] Instance bit_dirty : IsBit BM_DIRTY 23. Proof. by split. Qed.
#[export] Instance bit_valid : IsBit BM_VALID 24. Proof. by split. Qed.
#[export] Instance bit_tag_valid : IsBit BM_TAG_VALID 25. Proof. by split. Qed.
#[export] Instance bit_io_in_progress : IsBit BM_IO_IN_PROGRESS 26. Proof. by split. Qed.
#[export] Instance bit_io_error : IsBit BM_IO_ERROR 27. Proof. by split. Qed.
#[export] Instance bit_just_dirtied : IsBit BM_JUST_DIRTIED 28. Proof. by split. Qed.
#[export] Instance bit_pin_count_waiter : IsBit BM_PIN_COUNT_WAITER 29. Proof. by split. Qed.
#[export] Instance bit_checkpoint_needed : IsBit BM_CHECKPOINT_NEEDED 30. Proof. by split. Qed.
#[export] Instance bit_permanent : IsBit BM_PERMANENT 31. Proof. by split. Qed.
#[export] Instance bit_has_waiters : IsBit BM_LOCK_HAS_WAITERS 32. Proof. by split. Qed.
#[export] Instance bit_wake : IsBit BM_LOCK_WAKE_IN_PROGRESS 33. Proof. by split. Qed.
#[export] Instance bit_shared : IsBit BM_LOCK_VAL_SHARED 34. Proof. by split. Qed.
#[export] Instance bit_share_exclusive : IsBit BM_LOCK_VAL_SHARE_EXCLUSIVE 52. Proof. by split. Qed.
#[export] Instance bit_exclusive : IsBit BM_LOCK_VAL_EXCLUSIVE 53. Proof. by split. Qed.

Section bit.
Context {G k : Z} `{!IsBit G k}.

Lemma flag_bit s : flag s G = Z.testbit s k.
Proof. destruct (is_bit (F := G)) as [-> Hk]. by apply ztrue_land_pow2. Qed.
Lemma flag_or s F : flag (Z.lor s F) G = flag s G || flag F G.
Proof. rewrite !flag_bit. apply Z.lor_spec. Qed.
Lemma flag_diff s F : flag (Z.ldiff s F) G = flag s G && negb (flag F G).
Proof. rewrite !flag_bit. apply Z.ldiff_spec. Qed.
Lemma flag_0 : flag 0 G = false.
Proof. done. Qed.
Lemma flag_pin s s' : 18 <= k -> s' / 2 ^ 18 = s / 2 ^ 18 -> flag s' G = flag s G.
Proof. intros Hk Hs. rewrite !flag_bit. apply (testbit_quot _ _ 18); [lia|done]. Qed.
Lemma flag_use s s' : 22 <= k -> s' / 2 ^ 22 = s / 2 ^ 22 -> flag s' G = flag s G.
Proof. intros Hk Hs. rewrite !flag_bit. apply (testbit_quot _ _ 22); [lia|done]. Qed.
End bit.

(** Computes the flags of a word that was made with [|] and [& ~]. *)
Ltac flags :=
  repeat match goal with
  | |- context [flag (Z.lor ?s ?F) ?G] => rewrite (flag_or (G := G) s F)
  | |- context [flag (Z.ldiff ?s ?F) ?G] => rewrite (flag_diff (G := G) s F)
  end;
  repeat match goal with
  | |- context [flag ?F ?G] =>
      is_const F;
      let v := eval vm_compute in (flag F G) in
      change (flag F G) with v
  end;
  rewrite ?andb_true_r, ?andb_false_r, ?orb_true_r, ?orb_false_r.

Lemma flag_locked s : flag (Z.lor s BM_LOCKED) BM_LOCKED = true.
Proof. by flags. Qed.

Lemma wf_locked s : wf_state s -> wf_state (Z.lor s BM_LOCKED).
Proof. intros Hs. apply wf_lor; [done|]. by vm_compute. Qed.
