(* ===== verification/BufTag.v ===== *)
(** * Buffer tags and the orders on them

    The identity of a disk block ([BufferTag], [RelFileLocator]) with the
    inline functions of [buf_internals.h], and the comparators of [bufmgr.c]
    that order tags for sorting, binary search and write-back. *)
From S2P Require Import Prelude.

(** ** Data *)
Record RelFileLocator := mkRelFileLocator {
  loc_spcOid : Z;
  loc_dbOid : Z;
  loc_relNumber : Z
}.

Record BufferTag := mkBufferTag {
  spcOid : Z;
  dbOid : Z;
  relNumber : Z;
  forkNum : Z;
  blockNum : Z
}.

Definition InvalidOid : Z := 0.
Definition InvalidRelFileNumber : Z := InvalidOid.
Definition InvalidForkNumber : Z := -1.
Definition MAIN_FORKNUM : Z := 0.
Definition FSM_FORKNUM : Z := 1.
Definition VISIBILITYMAP_FORKNUM : Z := 2.
Definition INIT_FORKNUM : Z := 3.
Definition InvalidBlockNumber : Z := 0xFFFFFFFF.
Definition MaxBlockNumber : Z := 0xFFFFFFFE.

#[export] Instance BufferTag_eq_dec : EqDecision BufferTag.
Proof. solve_decision. Defined.
#[export] Instance RelFileLocator_eq_dec : EqDecision RelFileLocator.
Proof. solve_decision. Defined.
#[export] Instance BufferTag_countable : Countable BufferTag.
Proof.
  refine (inj_countable' (fun t => (spcOid t, dbOid t, relNumber t, forkNum t, blockNum t))
            (fun '(a, b, c, d, e) => mkBufferTag a b c d e) _).
  by intros [].
Defined.
#[export] Instance RelFileLocator_countable : Countable RelFileLocator.
Proof.
  refine (inj_countable' (fun l => (loc_spcOid l, loc_dbOid l, loc_relNumber l))
            (fun '(a, b, c) => mkRelFileLocator a b c) _).
  by intros [].
Defined.
#[export] Instance BufferTag_inhabited : Inhabited BufferTag :=
  populate (mkBufferTag 0 0 0 0 0).

(** ** [buf_internals.h] *)
Definition BufTagGetRelNumber (tag : BufferTag) : Z := relNumber tag.
Definition BufTagGetForkNum (tag : BufferTag) : Z := forkNum tag.

Definition BufTagSetRelForkDetails (tag : BufferTag) (relnumber forknum : Z) : BufferTag :=
  mkBufferTag (spcOid tag) (dbOid tag) relnumber forknum (blockNum tag).

Definition BufTagGetRelFileLocator (tag : BufferTag) : RelFileLocator :=
  mkRelFileLocator (spcOid tag) (dbOid tag) (BufTagGetRelNumber tag).

Definition ClearBufferTag (tag : BufferTag) : BufferTag :=
  let tag := mkBufferTag InvalidOid InvalidOid (relNumber tag) (forkNum tag) (blockNum tag) in
  let tag := BufTagSetRelForkDetails tag InvalidRelFileNumber InvalidForkNumber in
  mkBufferTag (spcOid tag) (dbOid tag) (relNumber tag) (forkNum tag) InvalidBlockNumber.

Definition InitBufferTag (tag : BufferTag) (rlocator : RelFileLocator)
    (fork block : Z) : BufferTag :=
  let tag := mkBufferTag (loc_spcOid rlocator) (loc_dbOid rlocator)
                         (relNumber tag) (forkNum tag) (blockNum tag) in
  let tag := BufTagSetRelForkDetails tag (loc_relNumber rlocator) fork in
  mkBufferTag (spcOid tag) (dbOid tag) (relNumber tag) (forkNum tag) block.

Definition BufferTagsEqual (tag1 tag2 : BufferTag) : bool :=
  (spcOid tag1 =? spcOid tag2) &&
  (dbOid tag1 =? dbOid tag2) &&
  (relNumber tag1 =? relNumber tag2) &&
  (blockNum tag1 =? blockNum tag2) &&
  (forkNum tag1 =? forkNum tag2).

Definition BufTagMatchesRelFileLocator (tag : BufferTag) (rlocator : RelFileLocator) : bool :=
  (spcOid tag =? loc_spcOid rlocator) &&
  (dbOid tag =? loc_dbOid rlocator) &&
  (BufTagGetRelNumber tag =? loc_relNumber rlocator).

Definition NUM_BUFFER_PARTITIONS : Z := 128.
Definition BufTableHashPartition (hashcode : Z) : Z := hashcode mod NUM_BUFFER_PARTITIONS.

(** ** Comparators of [bufmgr.c] *)
Definition rlocator_comparator (n1 n2 : RelFileLocator) : Z :=
  if loc_relNumber n1 <? loc_relNumber n2 then -1
  else if loc_relNumber n2 <? loc_relNumber n1 then 1
  else if loc_dbOid n1 <? loc_dbOid n2 then -1
  else if loc_dbOid n2 <? loc_dbOid n1 then 1
  else if loc_spcOid n1 <? loc_spcOid n2 then -1
  else if loc_spcOid n2 <? loc_spcOid n1 then 1
  else 0.

Definition buffertag_comparator (ba bb : BufferTag) : Z :=
  let rlocatora := BufTagGetRelFileLocator ba in
  let rlocatorb := BufTagGetRelFileLocator bb in
  let r := rlocator_comparator rlocatora rlocatorb in
  if negb (r =? 0) then r
  else if BufTagGetForkNum ba <? BufTagGetForkNum bb then -1
  else if BufTagGetForkNum bb <? BufTagGetForkNum ba then 1
  else if blockNum ba <? blockNum bb then -1
  else if blockNum bb <? blockNum ba then 1
  else 0.

Record CkptSortItem := mkCkptSortItem {
  tsId : Z;
  ckpt_relNumber : Z;
  ckpt_forkNum : Z;
  ckpt_blockNum : Z;
  ckpt_buf_id : Z
}.

Definition ckpt_buforder_comparator (a b : CkptSortItem) : Z :=
  if tsId a <? tsId b then -1
  else if tsId b <? tsId a then 1
  else if ckpt_relNumber a <? ckpt_relNumber b then -1
  else if ckpt_relNumber b <? ckpt_relNumber a then 1
  else if ckpt_forkNum a <? ckpt_forkNum b then -1
  else if ckpt_forkNum b <? ckpt_forkNum a then 1
  else if ckpt_blockNum a <? ckpt_blockNum b then -1
  else if ckpt_blockNum b <? ckpt_blockNum a then 1
  else 0.

(** ** Equality *)
Lemma BufferTagsEqual_spec t1 t2 : BufferTagsEqual t1 t2 = true <-> t1 = t2.
Proof.
  destruct t1, t2. unfold BufferTagsEqual; simpl.
  rewrite !andb_true_iff, !Z.eqb_eq. naive_solver.
Qed.

Lemma BufferTagsEqual_refl t : BufferTagsEqual t t = true.
Proof. by apply BufferTagsEqual_spec. Qed.

Lemma InitBufferTag_eq tag l f b :
  InitBufferTag tag l f b = mkBufferTag (loc_spcOid l) (loc_dbOid l) (loc_relNumber l) f b.
Proof. done. Qed.

(** The tag built for a block of a relation names that relation, and only the
    tags of that relation do. *)
Lemma BufTagMatches_spec t l :
  BufTagMatchesRelFileLocator t l = true <-> BufTagGetRelFileLocator t = l.
Proof.
  destruct t, l. unfold BufTagMatchesRelFileLocator, BufTagGetRelFileLocator; simpl.
  rewrite !andb_true_iff, !Z.eqb_eq. naive_solver.
Qed.

(** ** The comparators are total orders *)

(** A three-way comparison with the laws of a total order. *)
Class TotalCompare {A} (cmp : A -> A -> Z) : Prop := {
  cmp_eq : forall x y, cmp x y = 0 <-> x = y;
  cmp_antisym : forall x y, cmp y x = - cmp x y;
  cmp_range : forall x y, cmp x y = -1 \/ cmp x y = 0 \/ cmp x y = 1;
  cmp_trans : forall x y z, cmp x y <= 0 -> cmp y z <= 0 -> cmp x z <= 0
}.

Ltac case_ltb :=
  repeat match goal with
  | |- context [?a <? ?b] => destruct (Z.ltb_spec a b)
  | H : context [?a <? ?b] |- _ => destruct (Z.ltb_spec a b)
  end.

Lemma rlocator_comparator_total : TotalCompare rlocator_comparator.
Proof.
  split.
  - intros [] []; unfold rlocator_comparator; simpl. split.
    + case_ltb; try lia. intros _. f_equal; lia.
    + intros [= -> -> ->]. by rewrite !Z.ltb_irrefl.
  - intros [] []; unfold rlocator_comparator; simpl. case_ltb; lia.
  - intros [] []; unfold rlocator_comparator; simpl. case_ltb; lia.
  - intros [] [] []; unfold rlocator_comparator; simpl. case_ltb; lia.
Qed.

Lemma buffertag_antisym x y : buffertag_comparator y x = - buffertag_comparator x y.
Proof.
  unfold buffertag_comparator. rewrite (cmp_antisym (TotalCompare := rlocator_comparator_total)).
  set (r := rlocator_comparator _ _).
  destruct (Z.eqb_spec (- r) 0), (Z.eqb_spec r 0); try lia; cbn [negb].
  - case_ltb; lia.
  - done.
Qed.

Lemma buffertag_comparator_total : TotalCompare buffertag_comparator.
Proof.
  pose proof rlocator_comparator_total as [R1 R2 R3 R4].
  split.
  - intros [s1 d1 r1 f1 b1] [s2 d2 r2 f2 b2]. unfold buffertag_comparator. cbn.
    match goal with |- context [rlocator_comparator ?a ?b] =>
      pose proof (R1 a b) as Hr; destruct (Z.eqb_spec (rlocator_comparator a b) 0) as [E|E] end; cbn [negb].
    + apply Hr in E. injection E as -> -> ->. split; [case_ltb; try lia; intros _; f_equal; lia|].
      intros [= -> ->]. by rewrite !Z.ltb_irrefl.
    + split; [done|]. intros [= -> -> -> -> ->]. by apply R1.
  - intros x y. apply buffertag_antisym.
  - intros x y. unfold buffertag_comparator.
    match goal with |- context [rlocator_comparator ?a ?b] =>
      pose proof (R3 a b); destruct (Z.eqb_spec (rlocator_comparator a b) 0) end; cbn [negb]; case_ltb; lia.
  - intros x y z. unfold buffertag_comparator.
    set (a := BufTagGetRelFileLocator x). set (b := BufTagGetRelFileLocator y).
    set (c := BufTagGetRelFileLocator z). pose proof (R4 a b c) as Ht.
    destruct (Z.eqb_spec (rlocator_comparator a b) 0) as [Eab|Nab].
    + apply R1 in Eab as ->. destruct (Z.eqb_spec (rlocator_comparator b c) 0); cbn [negb]; case_ltb; lia.
    + destruct (Z.eqb_spec (rlocator_comparator b c) 0) as [Ebc|Nbc].
      * apply R1 in Ebc as <-. destruct (Z.eqb_spec (rlocator_comparator a b) 0); cbn [negb]; case_ltb; lia.
      * cbn [negb]. intros Hab Hbc. destruct (Z.eqb_spec (rlocator_comparator a c) 0) as [Eac|Nac]; [|by apply Ht].
         apply R1 in Eac as <-. rewrite R2 in Hbc. lia.
Qed.
