(* ===== verification/SortTemplate.v ===== *)
(** * Sorting ([src/include/lib/sort_template.h])

    The quicksort that the buffer manager instantiates for the buffers of a
    checkpoint and for the pending write-backs, and that [qsort] stands for in the
    rest of the server.  The array is the state; a pointer into it is an index.
    For every comparator that orders its arguments, it returns with the array in
    order and without an access outside of the part it was given. *)
From stdpp Require Import sorting.
From S2P Require Import Prelude BufTag.

(** ** The template *)
Section ST_SORT.
Context {A : Type} (ST_COMPARE : A -> A -> Z).
Local Abbreviation Arr := (ST (list A)).

Definition elt (i : Z) : Arr A := fun l =>
  match lookupZ l i with
  | Some x => (Ret x, l)
  | None => (UB "element out of range", l)
  end.
Definition set_elt (i : Z) (x : A) : Arr unit := fun l => (Ret tt, insertZ i x l).

Definition DO_COMPARE (a b : Z) : Arr Z :=
  let* x := elt a in
  let* y := elt b in
  ret (ST_COMPARE x y).

Definition ST_MED3 (a b c : Z) : Arr Z :=
  let* ab := DO_COMPARE a b in
  if ab <? 0 then
    let* bc := DO_COMPARE b c in
    if bc <? 0 then ret b else let* ac := DO_COMPARE a c in ret (if ac <? 0 then c else a)
  else
    let* bc := DO_COMPARE b c in
    if 0 <? bc then ret b else let* ac := DO_COMPARE a c in ret (if ac <? 0 then a else c).

Definition ST_SWAP (a b : Z) : Arr unit :=
  let* tmp := elt a in
  let* y := elt b in
  set_elt a y ;;
  set_elt b tmp.

Definition ST_SWAPN (a b n : Z) : Arr unit :=
  for_upto (Z.to_nat n) 0 (fun i => ST_SWAP (a + i) (b + i)).

(** Fewer than seven elements. *)
Definition insert_round (a pl : Z) : Arr (ctl Z unit) :=
  if a <? pl then
    let* r := DO_COMPARE (pl - 1) pl in
    if 0 <? r then ST_SWAP pl (pl - 1) ;; ret (Continue (pl - 1)) else ret (Break tt)
  else ret (Break tt).
Definition insertion_sort (a n : Z) : Arr unit :=
  for_upto (Z.to_nat (n - 1)) (a + 1) (fun pm => iter_fuel (S (Z.to_nat (pm - a))) (insert_round a) pm).

Definition presorted_round (a n pm : Z) : Arr (ctl Z bool) :=
  if pm <? a + n then
    let* r := DO_COMPARE (pm - 1) pm in
    if 0 <? r then ret (Break false) else ret (Continue (pm + 1))
  else ret (Break true).

Definition ninther (n pl pm pn : Z) : Arr (Z * Z * Z) :=
  if 40 <? n then
    let d := n / 8 in
    let* pl := ST_MED3 pl (pl + d) (pl + 2 * d) in
    let* pm := ST_MED3 (pm - d) pm (pm + d) in
    let* pn := ST_MED3 (pn - 2 * d) (pn - d) pn in
    ret (pl, pm, pn)
  else ret (pl, pm, pn).
Definition choose_pivot (a n : Z) : Arr Z :=
  let pm := a + n / 2 in
  if 7 <? n then
    let* '(pl, pm, pn) := ninther n a pm (a + (n - 1)) in
    ST_MED3 pl pm pn
  else ret pm.

(** The two inner loops of the partition, and a round of the outer one. *)
Definition left_round (a pc : Z) '((pa, pb) : Z * Z) : Arr (ctl (Z * Z) (Z * Z)) :=
  if pb <=? pc then
    let* r := DO_COMPARE pb a in
    if r <=? 0 then
      if r =? 0 then ST_SWAP pa pb ;; ret (Continue (pa + 1, pb + 1)) else ret (Continue (pa, pb + 1))
    else ret (Break (pa, pb))
  else ret (Break (pa, pb)).
Definition right_round (a pb : Z) '((pc, pd) : Z * Z) : Arr (ctl (Z * Z) (Z * Z)) :=
  if pb <=? pc then
    let* r := DO_COMPARE pc a in
    if 0 <=? r then
      if r =? 0 then ST_SWAP pc pd ;; ret (Continue (pc - 1, pd - 1)) else ret (Continue (pc - 1, pd))
    else ret (Break (pc, pd))
  else ret (Break (pc, pd)).
Definition partition_round (a n : Z) '((pa, pb, pc, pd) : Z * Z * Z * Z) : Arr (ctl (Z * Z * Z * Z) (Z * Z * Z * Z)) :=
  let* '(pa, pb) := iter_fuel (S (Z.to_nat n)) (left_round a pc) (pa, pb) in
  let* '(pc, pd) := iter_fuel (S (Z.to_nat n)) (right_round a pb) (pc, pd) in
  if pc <? pb then ret (Break (pa, pb, pc, pd))
  else ST_SWAP pb pc ;; ret (Continue (pa, pb + 1, pc - 1, pd)).

(** The two sizes that are left to sort, at the start and at the end of the part. *)
Definition st_partition (a n : Z) : Arr (Z * Z) :=
  let* pm := choose_pivot a n in
  ST_SWAP a pm ;;
  let* '(pa, pb, pc, pd) :=
    iter_fuel (S (Z.to_nat n)) (partition_round a n) (a + 1, a + 1, a + (n - 1), a + (n - 1)) in
  let pn := a + n in
  let d1 := Z.min (pa - a) (pb - pa) in
  ST_SWAPN a (pb - d1) d1 ;;
  let d1 := Z.min (pd - pc) (pn - pd - 1) in
  ST_SWAPN pb (pn - d1) d1 ;;
  ret (pb - pa, pd - pc).

(** The jump back to [loop] is a call like the other one. *)
Fixpoint st_sort (fuel : nat) (a n : Z) : Arr unit :=
  match fuel with
  | O => spin
  | S fuel =>
      if n <? 7 then
        if n <? 2 then ret tt else insertion_sort a n
      else
        let* presorted := iter_fuel (S (Z.to_nat n)) (presorted_round a n) (a + 1) in
        if presorted then ret tt
        else
          let* '(d1, d2) := st_partition a n in
          let pn := a + n in
          if d1 <=? d2 then st_sort fuel a d1 ;; st_sort fuel (pn - d2) d2
          else st_sort fuel (pn - d2) d2 ;; st_sort fuel a d1
  end.
Definition ST_SORT (data n : Z) : Arr unit := st_sort (S (Z.to_nat n)) data n.
End ST_SORT.

(** ** Comparators *)
Class OrderCompare {A} (cmp : A -> A -> Z) : Prop := {
  oc_flip : forall x y, Z.sgn (cmp y x) = - Z.sgn (cmp x y);
  oc_trans : forall x y z, cmp x y <= 0 -> cmp y z <= 0 -> cmp x z <= 0
}.
#[export] Instance total_order {A} (cmp : A -> A -> Z) : TotalCompare cmp -> OrderCompare cmp.
Proof. intros H. split; [|apply cmp_trans]. intros x y. rewrite (cmp_antisym x y). apply Z.sgn_opp. Qed.

(** ** Arrays whose elements in [lo, hi) were moved among themselves *)
Section shuffled.
Context {A : Type}.
Implicit Types (l : list A).

Definition swapped (i j : Z) (x y : A) (l : list A) : list A := insertZ j x (insertZ i y l).
Definition swap_in (lo hi : Z) (l l' : list A) : Prop :=
  exists i j x y, lo <= i < hi /\ lo <= j < hi /\ lookupZ l i = Some x /\ lookupZ l j = Some y /\ l' = swapped i j x y l.
Definition shuffled (lo hi : Z) : relation (list A) := rtc (swap_in lo hi).

(** The elements at [lo, hi) all satisfy [P]. *)
Definition all_in (l : list A) (lo hi : Z) (P : A -> Prop) : Prop :=
  forall i x, lo <= i < hi -> lookupZ l i = Some x -> P x.

#[export] Instance shuffled_trans lo hi : Transitive (shuffled lo hi).
Proof. unfold shuffled. apply _. Qed.
#[export] Instance shuffled_refl lo hi : Reflexive (shuffled lo hi).
Proof. unfold shuffled. apply _. Qed.

Lemma lookup_swapped l i j x y k :
  lookupZ l i = Some x -> lookupZ l j = Some y ->
  lookupZ (swapped i j x y l) k = if k =? j then Some x else if k =? i then Some y else lookupZ l k.
Proof.
  intros Hi Hj. apply lookupZ_Some in Hi, Hj. unfold swapped.
  destruct (Z.eqb_spec k j) as [->|Hkj]; [apply lookupZ_insertZ_eq; by rewrite length_insertZ|].
  rewrite lookupZ_insertZ_ne by done. destruct (Z.eqb_spec k i) as [->|Hki]; [by apply lookupZ_insertZ_eq|].
  by apply lookupZ_insertZ_ne.
Qed.

Lemma swapped_perm l i j x y : lookupZ l i = Some x -> lookupZ l j = Some y -> swapped i j x y l ≡ₚ l.
Proof.
  intros Hi Hj. pose proof (lookupZ_Some _ _ _ Hi) as Ri. pose proof (lookupZ_Some _ _ _ Hj) as Rj.
  unfold swapped, insertZ, lookupZ in *. rewrite (proj2 (Z.leb_le 0 i)), (proj2 (Z.leb_le 0 j)) in * by lia.
  by apply Permutation_insert_swap.
Qed.

Lemma shuffled_mono lo hi lo' hi' l l' : lo' <= lo -> hi <= hi' -> shuffled lo hi l l' -> shuffled lo' hi' l l'.
Proof.
  intros H1 H2. apply rtc_subrel. intros a b (i & j & x & y & ? & ? & ?). exists i, j, x, y. split; [lia|]. by split; [lia|].
Qed.

Lemma shuffled_outside lo hi l l' k : shuffled lo hi l l' -> ~ lo <= k < hi -> lookupZ l' k = lookupZ l k.
Proof.
  intros H Hk. induction H as [|a b c (i & j & x & y & ? & ? & Hi & Hj & ->) _ IH]; [done|].
  rewrite IH, (lookup_swapped _ _ _ _ _ _ Hi Hj). case_match; [lia|]. case_match; [lia|done].
Qed.

Lemma shuffled_all lo hi l l' P : shuffled lo hi l l' -> all_in l lo hi P -> all_in l' lo hi P.
Proof.
  intros H. induction H as [|a b c (i & j & x & y & Ri & Rj & Hi & Hj & ->) _ IH]; [done|]. intros Ha. apply IH.
  intros k z Hk. rewrite (lookup_swapped _ _ _ _ _ _ Hi Hj).
  case_match; [intros [= <-]; exact (Ha i x Ri Hi)|]. case_match; [intros [= <-]; exact (Ha j y Rj Hj)|]. by apply Ha.
Qed.

Lemma shuffled_length lo hi l l' : shuffled lo hi l l' -> length l' = length l.
Proof.
  intros H. induction H as [|a b c (i & j & x & y & Ri & Rj & Hi & Hj & ->) _ IH]; [done|].
  rewrite IH. unfold swapped. by rewrite !length_insertZ.
Qed.

Lemma shuffled_perm lo hi l l' : shuffled lo hi l l' -> l' ≡ₚ l.
Proof.
  intros H. induction H as [|a b c (i & j & x & y & Ri & Rj & Hi & Hj & ->) _ IH]; [done|].
  rewrite IH. by apply swapped_perm.
Qed.

Lemma all_in_outside lo hi l l' a b P :
  shuffled lo hi l l' -> b <= lo \/ hi <= a -> all_in l a b P -> all_in l' a b P.
Proof. intros H Hd Ha i x Hi. rewrite (shuffled_outside lo hi l l') by (done || lia). by apply Ha. Qed.
End shuffled.

(** ** The parts of the sort *)
Section sorts.
Context {A : Type} (cmp : A -> A -> Z).
Implicit Types (l : list A).

(** The command returns [b], having moved elements of [lo, hi) only. *)
Definition moves {B} (lo hi : Z) (m : ST (list A) B) (l : list A) (R : B -> list A -> Prop) : Prop :=
  exists b l', m l = (Ret b, l') /\ shuffled lo hi l l' /\ R b l'.

Lemma compare_run l a b x y :
  lookupZ l a = Some x -> lookupZ l b = Some y -> DO_COMPARE cmp a b l = (Ret (cmp x y), l).
Proof. intros Ha Hb. unfold DO_COMPARE, bind, elt. by rewrite Ha, Hb. Qed.
Lemma swap_run l a b x y :
  lookupZ l a = Some x -> lookupZ l b = Some y -> ST_SWAP a b l = (Ret tt, swapped a b x y l).
Proof. intros Ha Hb. unfold ST_SWAP, bind, elt. by rewrite Ha, Hb. Qed.
Lemma swap_moves l lo hi a b x y :
  lookupZ l a = Some x -> lookupZ l b = Some y -> lo <= a < hi -> lo <= b < hi ->
  shuffled lo hi l (swapped a b x y l).
Proof. intros Ha Hb Ra Rb. apply rtc_once. by exists a, b, x, y. Qed.

Lemma med3_run l a b c :
  let len := Z.of_nat (length l) in
  0 <= a < len -> 0 <= b < len -> 0 <= c < len ->
  exists m, ST_MED3 cmp a b c l = (Ret m, l) /\ (m = a \/ m = b \/ m = c).
Proof.
  intros len [x Hx]%lookupZ_lt [y Hy]%lookupZ_lt [z Hz]%lookupZ_lt. unfold ST_MED3.
  run (compare_run l a b x y Hx Hy). case_match.
  - run (compare_run l b c y z Hy Hz). case_match; [by eauto|]. run (compare_run l a c x z Hx Hz). case_match; by eauto.
  - run (compare_run l b c y z Hy Hz). case_match; [by eauto|]. run (compare_run l a c x z Hx Hz). case_match; by eauto.
Qed.

Lemma ninther_run l a n :
  7 <= n -> 0 <= a -> a + n <= Z.of_nat (length l) ->
  exists pl pm pn, ninther cmp n a (a + n / 2) (a + (n - 1)) l = (Ret (pl, pm, pn), l) /\
    a <= pl < a + n /\ a <= pm < a + n /\ a <= pn < a + n.
Proof.
  intros Hn Ha Hlen. unfold ninther.
  assert (0 <= n / 2 < n /\ 0 <= n / 8 /\ 2 * (n / 8) < n /\ n / 8 <= n / 2 /\ n / 2 + n / 8 < n) as (? & ? & ? & ? & ?)
    by (Z.to_euclidean_division_equations; lia).
  destruct (40 <? n); [|exists a, (a + n / 2), (a + (n - 1)); split; [done|lia]]. cbv zeta.
  destruct (med3_run l a (a + n / 8) (a + 2 * (n / 8))) as (pl & R1 & Hpl); [lia..|].
  destruct (med3_run l (a + n / 2 - n / 8) (a + n / 2) (a + n / 2 + n / 8)) as (pm & R2 & Hpm); [lia..|].
  destruct (med3_run l (a + (n - 1) - 2 * (n / 8)) (a + (n - 1) - n / 8) (a + (n - 1))) as (pn & R3 & Hpn); [lia..|].
  exists pl, pm, pn. run R1. run R2. run R3. split; [done|lia].
Qed.

Lemma choose_pivot_run l a n :
  7 <= n -> 0 <= a -> a + n <= Z.of_nat (length l) ->
  exists m, choose_pivot cmp a n l = (Ret m, l) /\ a <= m < a + n.
Proof.
  intros Hn Ha Hlen. unfold choose_pivot. cbv zeta. destruct (Z.ltb_spec 7 n) as [H7|_].
  - destruct (ninther_run l a n) as (pl & pm & pn & H & ? & ? & ?); [done..|]. run H.
    destruct (med3_run l pl pm pn) as (m & -> & Hm); [lia..|]. exists m. split; [done|lia].
  - exists (a + n / 2). split; [done|]. Z.to_euclidean_division_equations; lia.
Qed.

(** *** Order *)
Context `{!OrderCompare cmp}.

Definition sorted_in (l : list A) (lo hi : Z) : Prop :=
  forall i j x y, lo <= i < j -> j < hi -> lookupZ l i = Some x -> lookupZ l j = Some y -> cmp x y <= 0.

Lemma cmp_gt x y : 0 < cmp x y -> cmp y x < 0.
Proof using OrderCompare0. intros H. pose proof (oc_flip x y). lia. Qed.
Lemma cmp_lt x y : cmp x y < 0 -> 0 < cmp y x.
Proof using OrderCompare0. intros H. pose proof (oc_flip x y). lia. Qed.
Lemma cmp_zero x y : cmp x y = 0 -> cmp y x = 0.
Proof using OrderCompare0. intros H. pose proof (oc_flip x y). lia. Qed.

(** Everything up to [pm] is in order, but the element at [pl] may have to go
    further to the left. *)
Definition sorted_but (l : list A) (a pl pm : Z) : Prop :=
  (forall i j x y, a <= i < j -> j <= pm -> i <> pl -> j <> pl ->
    lookupZ l i = Some x -> lookupZ l j = Some y -> cmp x y <= 0) /\
  forall j x y, pl < j <= pm -> lookupZ l pl = Some x -> lookupZ l j = Some y -> cmp x y <= 0.

Lemma sorted_but_swap l a pl pm x y :
  a < pl <= pm -> sorted_but l a pl pm -> lookupZ l (pl - 1) = Some x -> lookupZ l pl = Some y -> 0 < cmp x y ->
  sorted_but (swapped pl (pl - 1) y x l) a (pl - 1) pm.
Proof using OrderCompare0.
  intros Hpl [H1 H2] Hx Hy Hgt. apply cmp_gt in Hgt. split.
  - intros i j u v Hij Hj Hi1 Hj1. rewrite !(lookup_swapped _ _ _ _ _ _ Hy Hx).
    rewrite (proj2 (Z.eqb_neq i (pl - 1))), (proj2 (Z.eqb_neq j (pl - 1))) by lia.
    destruct (Z.eqb_spec i pl) as [->|]; destruct (Z.eqb_spec j pl) as [->|]; [lia|..].
    + intros [= <-] Hv. apply (H1 (pl - 1) j); auto; lia.
    + intros Hu [= <-]. apply (H1 i (pl - 1)); auto; lia.
    + intros Hu Hv. apply (H1 i j); auto; lia.
  - intros j u v Hj. rewrite !(lookup_swapped _ _ _ _ _ _ Hy Hx), Z.eqb_refl.
    rewrite (proj2 (Z.eqb_neq j (pl - 1))) by lia. intros [= <-]. destruct (Z.eqb_spec j pl) as [->|].
    + intros [= <-]. lia.
    + intros Hv. apply (H2 j); auto; lia.
Qed.

Lemma sorted_but_done l a pl pm :
  a <= pl -> sorted_but l a pl pm ->
  (a < pl -> exists x y, lookupZ l (pl - 1) = Some x /\ lookupZ l pl = Some y /\ cmp x y <= 0) -> sorted_in l a (pm + 1).
Proof using OrderCompare0.
  intros Hpl [H1 H2] Hprev i j x y Hij Hj Hx Hy. destruct (decide (i = pl)) as [->|Hi].
  { apply (H2 j); auto; lia. }
  destruct (decide (j = pl)) as [->|Hj']; [|apply (H1 i j); auto; lia].
  destruct Hprev as (u & v & Hu & Hv & Hle); [lia|]. simplify_eq.
  destruct (decide (i = pl - 1)) as [->|]; [by simplify_eq|].
  apply (oc_trans _ u); [|done]. apply (H1 i (pl - 1)); auto; lia.
Qed.

Lemma insert_run l lo hi a pl pm fuel :
  (Z.to_nat (pl - a) < fuel)%nat -> 0 <= a -> lo <= a -> a <= pl <= pm -> pm < hi -> pm < Z.of_nat (length l) -> sorted_but l a pl pm ->
  moves lo hi (iter_fuel fuel (insert_round cmp a) pl) l (fun _ l' => sorted_in l' a (pm + 1)).
Proof using OrderCompare0.
  revert l pl. induction fuel as [|fuel IH]; intros l pl Hf Ha Hlo Hpl Hhi Hlen Hs; [lia|]. unfold moves.
  assert (insert_round cmp a pl l = (Ret (Break tt), l) -> sorted_in l a (pm + 1) ->
    exists b l', iter_fuel (S fuel) (insert_round cmp a) pl l = (Ret b, l') /\ shuffled lo hi l l' /\ sorted_in l' a (pm + 1)) as Hstop.
  { intros Hr Hd. exists tt, l. by rewrite (iter_break _ _ _ _ _ _ Hr). }
  unfold insert_round in *. destruct (Z.ltb_spec a pl) as [Hlt|Hge].
  2: { apply Hstop; [done|]. apply (sorted_but_done _ _ pl); [lia|done|lia]. }
  destruct (lookupZ_lt l (pl - 1)) as [x Hx]; [lia|]. destruct (lookupZ_lt l pl) as [y Hy]; [lia|].
  rewrite (bind_ret _ _ _ _ _ (compare_run l _ _ x y Hx Hy)) in Hstop. destruct (Z.ltb_spec 0 (cmp x y)) as [Hgt|Hle].
  - destruct (IH (swapped pl (pl - 1) y x l) (pl - 1)) as (b & l' & Hrun & Hsh & Hd); try lia.
    { unfold swapped. rewrite !length_insertZ. lia. }
    { apply sorted_but_swap; [lia|done..]. }
    exists b, l'. split_and!; [|etrans; [apply (swap_moves l lo hi pl (pl - 1) y x); [done|done|lia|lia]|done]|done].
    erewrite iter_continue; [exact Hrun|]. fold (insert_round cmp a).
    rewrite (proj2 (Z.ltb_lt a pl)) by lia. run (compare_run l _ _ x y Hx Hy). rewrite (proj2 (Z.ltb_lt _ _)) by lia.
    by run (swap_run l _ _ y x Hy Hx).
  - apply Hstop; [done|]. apply (sorted_but_done _ _ pl); [lia|done|]. intros _. by exists x, y.
Qed.

Lemma insertion_run l a n :
  0 <= a -> 1 <= n -> a + n <= Z.of_nat (length l) ->
  moves a (a + n) (insertion_sort cmp a n) l (fun _ l' => sorted_in l' a (a + n)).
Proof using OrderCompare0.
  intros Ha Hn. unfold insertion_sort.
  assert (forall k pm l, a < pm -> pm + Z.of_nat k = a + n -> a + n <= Z.of_nat (length l) -> sorted_in l a pm ->
    moves a (a + n) (for_upto k pm (fun pm => iter_fuel (S (Z.to_nat (pm - a))) (insert_round cmp a) pm)) l
      (fun _ l' => sorted_in l' a (a + n))) as H.
  { clear l. induction k as [|k IH]; intros pm l Hpm Hk Hlen Hs; cbn [for_upto].
    - exists tt, l. split_and!; [done|done|]. by replace (a + n) with pm by lia.
    - destruct (insert_run l a (a + n) a pm pm (S (Z.to_nat (pm - a)))) as (b & l1 & Hrun & Hsh & Hs1); try lia.
      { split; [|lia]. intros i j x y ? ? ? ?. apply Hs; lia. }
      destruct (IH (pm + 1) l1) as (b2 & l2 & Hrun2 & Hsh2 & Hs2); [lia|lia|by rewrite (shuffled_length _ _ _ _ Hsh)|done|].
      exists b2, l2. run Hrun. split_and!; [done|by etrans|done]. }
  intros Hlen. apply H; [lia|lia|done|]. intros i j x y ? ?. lia.
Qed.

Lemma presorted_run l a n :
  0 <= a -> 1 <= n -> a + n <= Z.of_nat (length l) ->
  exists b, iter_fuel (S (Z.to_nat n)) (presorted_round cmp a n) (a + 1) l = (Ret b, l) /\
    (b = true -> sorted_in l a (a + n)).
Proof using OrderCompare0.
  intros Ha Hn Hlen.
  assert (forall fuel pm, (Z.to_nat (a + n - pm) < fuel)%nat -> a < pm <= a + n -> sorted_in l a pm ->
    exists b, iter_fuel fuel (presorted_round cmp a n) pm l = (Ret b, l) /\ (b = true -> sorted_in l a (a + n))) as H.
  { induction fuel as [|fuel IH]; intros pm Hf Hpm Hs; [lia|].
    destruct (Z.ltb_spec pm (a + n)) as [Hlt|Hge].
    2: { exists true. split; [|by replace (a + n) with pm by lia]. apply iter_break. unfold presorted_round.
      by rewrite (proj2 (Z.ltb_ge _ _)). }
    destruct (lookupZ_lt l (pm - 1)) as [x Hx]; [lia|]. destruct (lookupZ_lt l pm) as [y Hy]; [lia|].
    assert (presorted_round cmp a n pm l = if 0 <? cmp x y then (Ret (Break false), l) else (Ret (Continue (pm + 1)), l)) as Hr.
    { unfold presorted_round. rewrite (proj2 (Z.ltb_lt _ _)) by done. run (compare_run l _ _ x y Hx Hy). by case_match. }
    destruct (Z.ltb_spec 0 (cmp x y)) as [Hgt|Hle].
    - exists false. split; [by apply iter_break|done].
    - destruct (IH (pm + 1)) as (b & Hrun & Hb); [lia|lia| |exists b; by rewrite (iter_continue _ _ _ _ _ _ Hr)].
      intros i j u v Hij Hj Hu Hv. destruct (decide (j = pm)) as [->|]; [|apply (Hs i j); auto; lia]. simplify_eq.
      destruct (decide (i = pm - 1)) as [->|]; [by simplify_eq|]. apply (oc_trans _ x); [|done]. apply (Hs i (pm - 1)); auto; lia. }
  apply H; [lia|lia|]. intros i j x y ? ?. lia.
Qed.

(** *** The partition around the element [v] at the start *)
Record parted (a n : Z) (v : A) (pa pb pc pd : Z) (l : list A) : Prop := {
  pt_len : 0 <= a /\ a + n <= Z.of_nat (length l);
  pt_order : a < pa <= pb /\ pb <= pc + 1 /\ pc <= pd < a + n;
  pt_pivot : lookupZ l a = Some v;
  pt_eq_left : all_in l a pa (fun x => cmp x v = 0);
  pt_less : all_in l pa pb (fun x => cmp x v < 0);
  pt_greater : all_in l (pc + 1) (pd + 1) (fun x => 0 < cmp x v);
  pt_eq_right : all_in l (pd + 1) (a + n) (fun x => cmp x v = 0)
}.

Lemma all_in_grow l lo hi P x : all_in l lo hi P -> lookupZ l hi = Some x -> P x -> all_in l lo (hi + 1) P.
Proof using Type.
  intros H Hx HP i y Hi Hy. destruct (decide (i = hi)) as [->|]; [by simplify_eq|]. apply (H i); [lia|done].
Qed.
Lemma all_in_grow_left l lo hi P x : all_in l lo hi P -> lookupZ l (lo - 1) = Some x -> P x -> all_in l (lo - 1) hi P.
Proof using Type.
  intros H Hx HP i y Hi Hy. destruct (decide (i = lo - 1)) as [->|]; [by simplify_eq|]. apply (H i); [lia|done].
Qed.

(** One more element on the left that is equal to the pivot, or less. *)
Lemma parted_equal_left a n v pa pb pc pd l x y :
  parted a n v pa pb pc pd l -> pb <= pc -> lookupZ l pa = Some x -> lookupZ l pb = Some y -> cmp y v = 0 ->
  parted a n v (pa + 1) (pb + 1) pc pd (swapped pa pb x y l).
Proof using Type.
  intros [[P1 P1'] P2 P3 P4 P5 P6 P7] Hbc Hx Hy Heq. split; try lia.
  - split; [done|]. unfold swapped. by rewrite !length_insertZ.
  - rewrite (lookup_swapped _ _ _ _ _ _ Hx Hy). rewrite !(proj2 (Z.eqb_neq _ _)) by lia. done.
  - intros i z Hi. rewrite (lookup_swapped _ _ _ _ _ _ Hx Hy). destruct (Z.eqb_spec i pb) as [->|].
    + intros [= <-]. assert (pa = pb) as -> by lia. congruence.
    + destruct (Z.eqb_spec i pa) as [->|]; [by intros [= <-]|]. apply P4. lia.
  - intros i z Hi. rewrite (lookup_swapped _ _ _ _ _ _ Hx Hy). destruct (Z.eqb_spec i pb) as [->|].
    + intros [= <-]. apply (P5 pa); [lia|done].
    + rewrite (proj2 (Z.eqb_neq i pa)) by lia. apply P5. lia.
  - intros i z Hi. rewrite (lookup_swapped _ _ _ _ _ _ Hx Hy), !(proj2 (Z.eqb_neq _ _)) by lia. by apply P6.
  - intros i z Hi. rewrite (lookup_swapped _ _ _ _ _ _ Hx Hy), !(proj2 (Z.eqb_neq _ _)) by lia. by apply P7.
Qed.

Lemma parted_equal_right a n v pa pb pc pd l x y :
  parted a n v pa pb pc pd l -> pb <= pc -> lookupZ l pc = Some x -> lookupZ l pd = Some y -> cmp x v = 0 ->
  parted a n v pa pb (pc - 1) (pd - 1) (swapped pc pd x y l).
Proof using Type.
  intros [[P1 P1'] P2 P3 P4 P5 P6 P7] Hbc Hx Hy Heq. split; try lia.
  - split; [done|]. unfold swapped. by rewrite !length_insertZ.
  - rewrite (lookup_swapped _ _ _ _ _ _ Hx Hy). rewrite !(proj2 (Z.eqb_neq _ _)) by lia. done.
  - intros i z Hi. rewrite (lookup_swapped _ _ _ _ _ _ Hx Hy), !(proj2 (Z.eqb_neq _ _)) by lia. by apply P4.
  - intros i z Hi. rewrite (lookup_swapped _ _ _ _ _ _ Hx Hy), !(proj2 (Z.eqb_neq _ _)) by lia. by apply P5.
  - intros i z Hi. rewrite (lookup_swapped _ _ _ _ _ _ Hx Hy). rewrite (proj2 (Z.eqb_neq i pd)) by lia.
    destruct (Z.eqb_spec i pc) as [->|]; [|apply P6; lia]. intros [= <-]. apply (P6 pd); [lia|done].
  - intros i z Hi. rewrite (lookup_swapped _ _ _ _ _ _ Hx Hy). destruct (Z.eqb_spec i pd) as [->|]; [by intros [= <-]|].
    destruct (Z.eqb_spec i pc) as [->|]; [lia|]. apply P7. lia.
Qed.

(** A pair on the wrong sides. *)
Lemma parted_swap a n v pa pb pc pd l x y :
  parted a n v pa pb pc pd l -> pb < pc -> lookupZ l pb = Some x -> lookupZ l pc = Some y -> 0 < cmp x v -> cmp y v < 0 ->
  parted a n v pa (pb + 1) (pc - 1) pd (swapped pb pc x y l).
Proof using Type.
  intros [[P1 P1'] P2 P3 P4 P5 P6 P7] Hbc Hx Hy Hgt Hlt. split; try lia.
  - split; [done|]. unfold swapped. by rewrite !length_insertZ.
  - rewrite (lookup_swapped _ _ _ _ _ _ Hx Hy). rewrite !(proj2 (Z.eqb_neq _ _)) by lia. done.
  - intros i z Hi. rewrite (lookup_swapped _ _ _ _ _ _ Hx Hy), !(proj2 (Z.eqb_neq _ _)) by lia. by apply P4.
  - intros i z Hi. rewrite (lookup_swapped _ _ _ _ _ _ Hx Hy). rewrite (proj2 (Z.eqb_neq i pc)) by lia.
    destruct (Z.eqb_spec i pb) as [->|]; [by intros [= <-]|]. apply P5; lia.
  - intros i z Hi. rewrite (lookup_swapped _ _ _ _ _ _ Hx Hy). destruct (Z.eqb_spec i pc) as [->|]; [by intros [= <-]|].
    rewrite (proj2 (Z.eqb_neq i pb)) by lia. apply P6; lia.
  - intros i z Hi. rewrite (lookup_swapped _ _ _ _ _ _ Hx Hy), !(proj2 (Z.eqb_neq _ _)) by lia. by apply P7.
Qed.

Definition at_greater (v : A) (i : Z) (l : list A) : Prop := exists x, lookupZ l i = Some x /\ 0 < cmp x v.
Definition at_less (v : A) (i : Z) (l : list A) : Prop := exists x, lookupZ l i = Some x /\ cmp x v < 0.

Lemma left_run a n v pc pd fuel : forall pa pb l,
  (Z.to_nat (pc + 1 - pb) < fuel)%nat -> parted a n v pa pb pc pd l ->
  moves a (a + n) (iter_fuel fuel (left_round cmp a pc) (pa, pb)) l (fun '(pa', pb') l' =>
    parted a n v pa' pb' pc pd l' /\ pb <= pb' /\ (pb' <= pc -> at_greater v pb' l')).
Proof using Type.
  induction fuel as [|fuel IH]; intros pa pb l Hf HP; [lia|].
  pose proof HP as [[P1 P1'] P2 P3 P4 P5 P6 P7]. destruct (Z.leb_spec pb pc) as [Hle|Hgt].
  2: { exists (pa, pb), l. split_and!; [|done|done|lia|lia]. apply iter_break. unfold left_round.
    by rewrite (proj2 (Z.leb_gt _ _)). }
  destruct (lookupZ_lt l pa) as [x Hx]; [lia|]. destruct (lookupZ_lt l pb) as [y Hy]; [lia|].
  assert (left_round cmp a pc (pa, pb) l = if cmp y v <=? 0 then
    if cmp y v =? 0 then (Ret (Continue (pa + 1, pb + 1)), swapped pa pb x y l) else (Ret (Continue (pa, pb + 1)), l)
    else (Ret (Break (pa, pb)), l)) as Hr.
  { unfold left_round. rewrite (proj2 (Z.leb_le _ _)) by done. run (compare_run l _ _ y v Hy P3).
    case_match; [|done]. case_match; [|done]. by run (swap_run l _ _ x y Hx Hy). }
  destruct (Z.leb_spec (cmp y v) 0) as [Hle0|Hgt0].
  2: { exists (pa, pb), l. split_and!; [by apply iter_break|done|done|lia|by exists y]. }
  destruct (Z.eqb_spec (cmp y v) 0) as [E|E].
  - destruct (IH (pa + 1) (pb + 1) (swapped pa pb x y l)) as ([pa' pb'] & l' & Hrun & Hsh & HP' & Hb & Hg);
      [lia|by apply parted_equal_left|].
    exists (pa', pb'), l'. rewrite (iter_continue _ _ _ _ _ _ Hr). split_and!; [done| |done|lia|done].
    etrans; [apply (swap_moves l a (a + n) pa pb x y); [done|done|lia|lia]|done].
  - destruct (IH pa (pb + 1) l) as ([pa' pb'] & l' & Hrun & Hsh & HP' & Hb & Hg); [lia| |].
    { split; try done; [lia|]. apply (all_in_grow _ _ _ _ y); [done|done|lia]. }
    exists (pa', pb'), l'. rewrite (iter_continue _ _ _ _ _ _ Hr). split_and!; [done|done|done|lia|done].
Qed.

Lemma right_run a n v pa pb fuel : forall pc pd l,
  (Z.to_nat (pc + 1 - pb) < fuel)%nat -> parted a n v pa pb pc pd l -> (pb <= pc -> at_greater v pb l) ->
  moves a (a + n) (iter_fuel fuel (right_round cmp a pb) (pc, pd)) l (fun '(pc', pd') l' =>
    parted a n v pa pb pc' pd' l' /\ pc' <= pc /\ (pb <= pc' -> at_greater v pb l' /\ at_less v pc' l')).
Proof using Type.
  induction fuel as [|fuel IH]; intros pc pd l Hf HP Hgr; [lia|].
  pose proof HP as [[P1 P1'] P2 P3 P4 P5 P6 P7]. destruct (Z.leb_spec pb pc) as [Hle|Hgt].
  2: { exists (pc, pd), l. split_and!; [|done|done|lia|lia]. apply iter_break. unfold right_round.
    by rewrite (proj2 (Z.leb_gt _ _)). }
  destruct (lookupZ_lt l pc) as [x Hx]; [lia|]. destruct (lookupZ_lt l pd) as [y Hy]; [lia|].
  assert (right_round cmp a pb (pc, pd) l = if 0 <=? cmp x v then
    if cmp x v =? 0 then (Ret (Continue (pc - 1, pd - 1)), swapped pc pd x y l) else (Ret (Continue (pc - 1, pd)), l)
    else (Ret (Break (pc, pd)), l)) as Hr.
  { unfold right_round. rewrite (proj2 (Z.leb_le _ _)) by done. run (compare_run l _ _ x v Hx P3).
    case_match; [|done]. case_match; [|done]. by run (swap_run l _ _ x y Hx Hy). }
  specialize (Hgr Hle). destruct (Z.leb_spec 0 (cmp x v)) as [Hle0|Hgt0].
  2: { exists (pc, pd), l. split_and!; [by apply iter_break|done|done|lia|]. intros _. split; [done|by exists x]. }
  destruct (Z.eqb_spec (cmp x v) 0) as [E|E].
  - destruct (IH (pc - 1) (pd - 1) (swapped pc pd x y l)) as ([pc' pd'] & l' & Hrun & Hsh & HP' & Hc & Hg);
      [lia|by apply parted_equal_right| |].
    { intros Hpb. destruct Hgr as (z & Hz & Hgz). exists z. rewrite (lookup_swapped _ _ _ _ _ _ Hx Hy).
      by rewrite !(proj2 (Z.eqb_neq _ _)) by lia. }
    exists (pc', pd'), l'. rewrite (iter_continue _ _ _ _ _ _ Hr). split_and!; [done| |done|lia|done].
    etrans; [apply (swap_moves l a (a + n) pc pd x y); [done|done|lia|lia]|done].
  - destruct (IH (pc - 1) pd l) as ([pc' pd'] & l' & Hrun & Hsh & HP' & Hc & Hg); [lia| |done|].
    { split; try done; [lia|]. replace (pc - 1 + 1) with (pc + 1 - 1) by lia.
      apply (all_in_grow_left _ _ _ _ x); [done|by replace (pc + 1 - 1) with pc by lia|lia]. }
    exists (pc', pd'), l'. rewrite (iter_continue _ _ _ _ _ _ Hr). split_and!; [done|done|done|lia|done].
Qed.

Lemma partition_loop a n v fuel : forall pa pb pc pd l,
  (Z.to_nat (pc + 1 - pb) < fuel)%nat -> parted a n v pa pb pc pd l ->
  moves a (a + n) (iter_fuel fuel (partition_round cmp a n) (pa, pb, pc, pd)) l (fun '(pa', pb', pc', pd') l' =>
    parted a n v pa' pb' pc' pd' l' /\ pc' + 1 = pb').
Proof using Type.
  induction fuel as [|fuel IH]; intros pa pb pc pd l Hf HP; [lia|]. pose proof HP as [? Ho _ _ _ _ _].
  destruct (left_run a n v pc pd (S (Z.to_nat n)) pa pb l) as ([pa1 pb1] & l1 & Hr1 & Hs1 & HP1 & Hb1 & Hg1); [lia|done|].
  pose proof HP1 as [? Ho1 _ _ _ _ _].
  destruct (right_run a n v pa1 pb1 (S (Z.to_nat n)) pc pd l1) as ([pc2 pd2] & l2 & Hr2 & Hs2 & HP2 & Hc2 & Hg2); [lia|done|done|].
  pose proof HP2 as [? Ho2 _ _ _ _ _].
  assert (partition_round cmp a n (pa, pb, pc, pd) l =
    (if pc2 <? pb1 then ret (Break (pa1, pb1, pc2, pd2))
     else ST_SWAP pb1 pc2 ;; ret (Continue (pa1, pb1 + 1, pc2 - 1, pd2))) l2) as Hr.
  { unfold partition_round. run Hr1. by run Hr2. }
  destruct (Z.ltb_spec pc2 pb1) as [Hlt|Hge].
  { exists (pa1, pb1, pc2, pd2), l2. split_and!; [by apply iter_break|by etrans|done|lia]. }
  destruct (Hg2 Hge) as [(x & Hx & Hgx) (y & Hy & Hly)]. rewrite (bind_ret _ _ _ _ _ (swap_run l2 _ _ x y Hx Hy)) in Hr.
  assert (pb1 <> pc2) by (intros ->; simplify_eq; lia).
  destruct (IH pa1 (pb1 + 1) (pc2 - 1) pd2 (swapped pb1 pc2 x y l2)) as ([[[pa' pb'] pc'] pd'] & l' & Hrun & Hsh & HP' & He);
    [lia|apply parted_swap; [done|lia|done..]|].
  exists (pa', pb', pc', pd'), l'. rewrite (iter_continue _ _ _ _ _ _ Hr). split_and!; [done| |done|done].
  etrans; [exact Hs1|]. etrans; [exact Hs2|]. etrans; [apply (swap_moves l2 a (a + n) pb1 pc2 x y); [done|done|lia|lia]|done].
Qed.

(** *** The equal elements go to the middle *)
Lemma swapn_run lo hi l i j k :
  0 <= lo -> lo <= i -> i + k <= j -> j + k <= hi -> hi <= Z.of_nat (length l) ->
  moves lo hi (ST_SWAPN i j k) l (fun _ l' =>
    (forall t, 0 <= t < k -> lookupZ l' (i + t) = lookupZ l (j + t) /\ lookupZ l' (j + t) = lookupZ l (i + t)) /\
    forall m, ~ (i <= m < i + k) -> ~ (j <= m < j + k) -> lookupZ l' m = lookupZ l m).
Proof using Type.
  intros H0 Hi Hij Hj Hlen. unfold ST_SWAPN.
  assert (forall c s l, 0 <= s -> Z.of_nat c = Z.max 0 (k - s) -> hi <= Z.of_nat (length l) ->
    moves lo hi (for_upto c s (fun t => ST_SWAP (i + t) (j + t))) l (fun _ l' =>
      (forall t, s <= t < k -> lookupZ l' (i + t) = lookupZ l (j + t) /\ lookupZ l' (j + t) = lookupZ l (i + t)) /\
      forall m, ~ (i + s <= m < i + k) -> ~ (j + s <= m < j + k) -> lookupZ l' m = lookupZ l m)) as H.
  { clear l Hlen. induction c as [|c IH]; intros s l Hs Hc Hlen; cbn [for_upto].
    { exists tt, l. split_and!; [done|done|lia|done]. }
    destruct (lookupZ_lt l (i + s)) as [x Hx]; [lia|]. destruct (lookupZ_lt l (j + s)) as [y Hy]; [lia|].
    destruct (IH (s + 1) (swapped (i + s) (j + s) x y l)) as (b & l' & Hrun & Hsh & Ht & Hm); [lia|lia| |].
    { unfold swapped. by rewrite !length_insertZ. }
    exists b, l'. run (swap_run l _ _ x y Hx Hy). split_and!; [done| | |].
    - etrans; [apply (swap_moves l lo hi (i + s) (j + s) x y); [done|done|lia|lia]|done].
    - intros t Hts. destruct (decide (t = s)) as [->|].
      + rewrite !Hm by lia. rewrite !(lookup_swapped _ _ _ _ _ _ Hx Hy), !Z.eqb_refl.
        rewrite (proj2 (Z.eqb_neq (i + s) (j + s))) by lia. done.
      + destruct (Ht t) as [-> ->]; [lia|]. rewrite !(lookup_swapped _ _ _ _ _ _ Hx Hy).
        by rewrite !(proj2 (Z.eqb_neq _ _)) by lia.
    - intros m Hm1 Hm2. rewrite Hm by lia. rewrite (lookup_swapped _ _ _ _ _ _ Hx Hy).
      by rewrite !(proj2 (Z.eqb_neq _ _)) by lia. }
  destruct (H (Z.to_nat k) 0 l) as (b & l' & Hrun & Hsh & Ht & Hm); [lia|lia|done|].
  exists b, l'. split_and!; [done|done|done|]. intros m ? ?. apply Hm; lia.
Qed.

(** Exchanging the ends of [lo, hi), [P] up to [mid] and [Q] from there. *)
Lemma rotate_run lo hi l a mid e P Q :
  0 <= lo -> lo <= a <= mid -> mid <= e <= hi -> hi <= Z.of_nat (length l) ->
  all_in l a mid P -> all_in l mid e Q ->
  let d := Z.min (mid - a) (e - mid) in
  moves lo hi (ST_SWAPN a (e - d) d) l (fun _ l' =>
    all_in l' a (a + (e - mid)) Q /\ all_in l' (a + (e - mid)) e P /\
    forall m, ~ a <= m < e -> lookupZ l' m = lookupZ l m).
Proof using Type.
  intros H0 Ha He Hlen HP HQ d.
  destruct (swapn_run lo hi l a (e - d) d) as (b & l' & Hrun & Hsh & Ht & Hm); [lia|lia|lia|lia|done|].
  exists b, l'. split_and!; [done|done|..].
  - intros i x Hi Hx. destruct (Z.ltb_spec i (a + d)) as [Hlt|Hge].
    + destruct (Ht (i - a)) as [E _]; [lia|]. replace (a + (i - a)) with i in E by lia. rewrite E in Hx.
      apply (HQ (e - d + (i - a))); [lia|done].
    + rewrite Hm in Hx by lia. apply (HQ i); [lia|done].
  - intros i x Hi Hx. destruct (Z.ltb_spec i (e - d)) as [Hlt|Hge].
    + rewrite Hm in Hx by lia. apply (HP i); [lia|done].
    + destruct (Ht (i - (e - d))) as [_ E]; [lia|]. replace (e - d + (i - (e - d))) with i in E by lia. rewrite E in Hx.
      apply (HP (a + (i - (e - d)))); [lia|done].
  - intros m Hmm. apply Hm; lia.
Qed.

(** Less than [v], equal to it, greater. *)
Definition split_by (v : A) (a n d1 d2 : Z) (l : list A) : Prop :=
  all_in l a (a + d1) (fun x => cmp x v < 0) /\ all_in l (a + d1) (a + n - d2) (fun x => cmp x v = 0) /\
  all_in l (a + n - d2) (a + n) (fun x => 0 < cmp x v).

Lemma partition_run l a n :
  7 <= n -> 0 <= a -> a + n <= Z.of_nat (length l) ->
  moves a (a + n) (st_partition cmp a n) l (fun '(d1, d2) l' =>
    0 <= d1 /\ 0 <= d2 /\ d1 + d2 < n /\ exists v, split_by v a n d1 d2 l').
Proof using OrderCompare0.
  intros Hn Ha Hlen. unfold st_partition. destruct (choose_pivot_run l a n Hn Ha Hlen) as (pm & Hpm & Rpm).
  destruct (lookupZ_lt l a) as [x Hx]; [lia|]. destruct (lookupZ_lt l pm) as [v Hv]; [lia|].
  set (l1 := swapped a pm x v l).
  assert (length l1 = length l) as Hl1 by (unfold l1, swapped; by rewrite !length_insertZ).
  assert (lookupZ l1 a = Some v) as Hv1.
  { unfold l1. rewrite (lookup_swapped _ _ _ _ _ _ Hx Hv), Z.eqb_refl. destruct (Z.eqb_spec a pm) as [->|]; [congruence|done]. }
  destruct (partition_loop a n v (S (Z.to_nat n)) (a + 1) (a + 1) (a + (n - 1)) (a + (n - 1)) l1)
    as ([[[pa pb] pc] pd] & l2 & Hr2 & Hs2 & [[_ P1] P2 P3 P4 P5 P6 P7] & Hpc); [lia| |].
  { split; try done; try lia; try (intros i y Hi; lia). intros i y Hi Hy. assert (i = a) as -> by lia.
    simplify_eq. pose proof (oc_flip v v). lia. }
  destruct (rotate_run a (a + n) l2 a pa pb (fun x => cmp x v = 0) (fun x => cmp x v < 0))
    as ([] & l3 & Hr3 & Hs3 & L3 & E3 & O3); [lia..|done|done|].
  destruct (rotate_run a (a + n) l3 pb (pd + 1) (a + n) (fun x => 0 < cmp x v) (fun x => cmp x v = 0))
    as ([] & l4 & Hr4 & Hs4 & E4 & G4 & O4); [lia|lia|lia|by rewrite (shuffled_length _ _ _ _ Hs3)|..].
  { intros i y Hi. rewrite O3 by lia. apply P6. lia. }
  { intros i y Hi. rewrite O3 by lia. apply P7. lia. }
  replace (Z.min (pd + 1 - pb) (a + n - (pd + 1))) with (Z.min (pd - pc) (a + n - pd - 1)) in Hr4 by lia.
  exists (pb - pa, pd - pc), l4. split_and!; [|..|lia|lia|lia|exists v; split_and!].
  - run Hpm. run (swap_run l _ _ x v Hx Hv). fold l1. run Hr2. cbv zeta. run Hr3. by run Hr4.
  - etrans; [apply (swap_moves l a (a + n) a pm x v); [done|done|lia|lia]|]. fold l1. etrans; [exact Hs2|]. by etrans.
  - intros i y Hi. rewrite O4 by lia. apply L3. lia.
  - intros i y Hi Hy. destruct (Z.ltb_spec i pb).
    + rewrite O4 in Hy by lia. apply (E3 i); [lia|done].
    + apply (E4 i); [lia|done].
  - intros i y Hi. apply G4. lia.
Qed.

Lemma split_sorted v a n d1 d2 l :
  0 <= d1 -> 0 <= d2 -> d1 + d2 < n -> split_by v a n d1 d2 l -> sorted_in l a (a + d1) ->
  sorted_in l (a + n - d2) (a + n) -> sorted_in l a (a + n).
Proof using OrderCompare0.
  intros H1 H2 H12 (Hl & He & Hg) Hs1 Hs2 i j x y Hij Hj Hx Hy.
  assert (i < a + n - d2 -> cmp x v <= 0) as Hxv.
  { intros Hi. destruct (Z.ltb_spec i (a + d1)); [apply Z.lt_le_incl, (Hl i); [lia|done]|]. rewrite (He i x); [done|lia|done]. }
  assert (a + d1 <= j -> cmp v y <= 0) as Hvy.
  { intros Hj'. pose proof (oc_flip y v) as Hf. destruct (Z.ltb_spec j (a + n - d2)).
    - specialize (He j y ltac:(lia) Hy). cbn in He. lia.
    - specialize (Hg j y ltac:(lia) Hy). cbn in Hg. lia. }
  destruct (Z.ltb_spec j (a + d1)); [apply (Hs1 i j); auto; lia|].
  destruct (Z.ltb_spec i (a + n - d2)); [apply (oc_trans _ v); auto; apply Hvy; lia|apply (Hs2 i j); auto; lia].
Qed.

(** *** The whole sort *)

(** Sorting either end does not move an element to another side of [v]. *)
Lemma split_keep v a n d1 d2 lo hi l l' :
  0 <= d1 -> 0 <= d2 -> d1 + d2 < n -> (lo = a /\ hi = a + d1) \/ (lo = a + n - d2 /\ hi = a + n) ->
  shuffled lo hi l l' -> split_by v a n d1 d2 l -> split_by v a n d1 d2 l'.
Proof using Type.
  intros ? ? ? [[-> ->]|[-> ->]] Hs (? & ? & ?); split_and!;
    first [by eapply shuffled_all | eapply all_in_outside; [done|lia|done]].
Qed.

Definition sorts_part (lo hi : Z) (m : ST (list A) unit) : Prop := forall l, hi <= Z.of_nat (length l) ->
  moves lo hi m l (fun _ l' => sorted_in l' lo hi).

Lemma sort_both lo1 hi1 lo2 hi2 m1 m2 l :
  sorts_part lo1 hi1 m1 -> sorts_part lo2 hi2 m2 -> hi1 <= lo2 \/ hi2 <= lo1 ->
  hi1 <= Z.of_nat (length l) -> hi2 <= Z.of_nat (length l) ->
  exists l1 l2, (m1 ;; m2) l = (Ret tt, l2) /\ shuffled lo1 hi1 l l1 /\ shuffled lo2 hi2 l1 l2 /\
    sorted_in l2 lo1 hi1 /\ sorted_in l2 lo2 hi2.
Proof using Type.
  intros H1 H2 Hd Hl1 Hl2. destruct (H1 l Hl1) as ([] & l1 & Hr1 & Hs1 & Ho1).
  destruct (H2 l1) as ([] & l2 & Hr2 & Hs2 & Ho2); [by rewrite (shuffled_length _ _ _ _ Hs1)|].
  exists l1, l2. run Hr1. split_and!; try done. intros i j x y Hij Hj.
  rewrite !(shuffled_outside _ _ _ _ _ Hs2) by lia. by apply Ho1.
Qed.

Lemma st_sort_run fuel : forall a n,
  (Z.to_nat n < fuel)%nat -> 0 <= a -> sorts_part a (a + n) (st_sort cmp fuel a n).
Proof using OrderCompare0.
  induction fuel as [|fuel IH]; intros a n Hf Ha l Hlen; [lia|]. cbn [st_sort].
  destruct (Z.ltb_spec n 7) as [H7|H7].
  { destruct (Z.ltb_spec n 2) as [H2|H2]; [|apply insertion_run; lia].
    exists tt, l. split_and!; [done|done|]. intros i j x y ? ?. lia. }
  destruct (presorted_run l a n Ha ltac:(lia) Hlen) as (b & Hb & Hsorted). unfold moves. run Hb. destruct b.
  { exists tt, l. split_and!; [done|done|by apply Hsorted]. }
  destruct (partition_run l a n H7 Ha Hlen) as ([d1 d2] & l1 & Hr1 & Hs1 & H1 & H2 & H12 & v & Hsp). run Hr1. cbv zeta.
  pose proof (shuffled_length _ _ _ _ Hs1) as Hl1. pose proof (IH a d1 ltac:(lia) ltac:(lia)) as Hleft.
  pose proof (IH (a + n - d2) d2 ltac:(lia) ltac:(lia)) as Hright. replace (a + n - d2 + d2) with (a + n) in Hright by lia.
  destruct (d1 <=? d2).
  - destruct (sort_both _ _ _ _ _ _ l1 Hleft Hright) as (l2 & l3 & Hr & Hs2 & Hs3 & Ho1 & Ho2); [lia..|].
    exists tt, l3. split_and!; [done| |].
    + etrans; [exact Hs1|]. etrans; eapply shuffled_mono; [..|exact Hs2| | |exact Hs3]; lia.
    + apply (split_sorted v a n d1 d2); try done. eapply split_keep; [done..| |exact Hs3|]; [by auto|].
      by eapply split_keep; [done..| |exact Hs2|]; [auto|].
  - destruct (sort_both _ _ _ _ _ _ l1 Hright Hleft) as (l2 & l3 & Hr & Hs2 & Hs3 & Ho1 & Ho2); [lia..|].
    exists tt, l3. split_and!; [done| |].
    + etrans; [exact Hs1|]. etrans; eapply shuffled_mono; [..|exact Hs2| | |exact Hs3]; lia.
    + apply (split_sorted v a n d1 d2); try done. eapply split_keep; [done..| |exact Hs3|]; [by auto|].
      by eapply split_keep; [done..| |exact Hs2|]; [auto|].
Qed.
End sorts.

(** A whole array. *)
Lemma sorted_strongly {A} (cmp : A -> A -> Z) l :
  sorted_in cmp l 0 (Z.of_nat (length l)) -> StronglySorted (fun x y => cmp x y <= 0) l.
Proof.
  induction l as [|x l IH]; [constructor|]. intros H. constructor.
  - apply IH. intros i j u v Hij Hj Hu Hv. apply (H (i + 1) (j + 1)); [lia|cbn; lia|..].
    + unfold lookupZ in *. rewrite (proj2 (Z.leb_le _ _)) in Hu by lia. rewrite (proj2 (Z.leb_le _ _)) by lia.
      by replace (Z.to_nat (i + 1)) with (S (Z.to_nat i)) by lia.
    + unfold lookupZ in *. rewrite (proj2 (Z.leb_le _ _)) in Hv by lia. rewrite (proj2 (Z.leb_le _ _)) by lia.
      by replace (Z.to_nat (j + 1)) with (S (Z.to_nat j)) by lia.
  - apply Forall_forall. intros y [k Hk]%list_elem_of_lookup. pose proof (lookup_lt_Some _ _ _ Hk).
    apply (H 0 (Z.of_nat k + 1)); [lia|cbn; lia|done|]. unfold lookupZ. rewrite (proj2 (Z.leb_le _ _)) by lia.
    by replace (Z.to_nat (Z.of_nat k + 1)) with (S k) by lia.
Qed.

Lemma ST_SORT_array {A} (cmp : A -> A -> Z) `{!OrderCompare cmp} l :
  exists l', ST_SORT cmp 0 (Z.of_nat (length l)) l = (Ret tt, l') /\ l' ≡ₚ l /\ StronglySorted (fun x y => cmp x y <= 0) l'.
Proof.
  destruct (st_sort_run cmp (S (Z.to_nat (Z.of_nat (length l)))) 0 (Z.of_nat (length l))) with (l := l)
    as ([] & l' & Hrun & Hsh & Hs); [lia|lia|lia|].
  exists l'. split_and!; [done|by eapply shuffled_perm|]. apply sorted_strongly.
  by rewrite (shuffled_length _ _ _ _ Hsh).
Qed.

(** What [qsort] and the instances of the template leave in an array. *)
Definition sort_array {A} (cmp : A -> A -> Z) (l : list A) : list A := (ST_SORT cmp 0 (Z.of_nat (length l)) l).2.

Lemma sort_array_run {A} (cmp : A -> A -> Z) `{!OrderCompare cmp} l :
  ST_SORT cmp 0 (Z.of_nat (length l)) l = (Ret tt, sort_array cmp l).
Proof. unfold sort_array. by destruct (ST_SORT_array cmp l) as (l' & -> & _). Qed.
Lemma sort_array_perm {A} (cmp : A -> A -> Z) `{!OrderCompare cmp} l : sort_array cmp l ≡ₚ l.
Proof. unfold sort_array. by destruct (ST_SORT_array cmp l) as (l' & -> & ? & _). Qed.
Lemma sort_array_sorted {A} (cmp : A -> A -> Z) `{!OrderCompare cmp} l :
  StronglySorted (fun x y => cmp x y <= 0) (sort_array cmp l).
Proof. unfold sort_array. by destruct (ST_SORT_array cmp l) as (l' & -> & _ & ?). Qed.

#[export] Existing Instance buffertag_comparator_total.
#[export] Existing Instance rlocator_comparator_total.
#[export] Instance ckpt_order : OrderCompare ckpt_buforder_comparator.
Proof.
  split.
  - intros [] []. unfold ckpt_buforder_comparator. cbn. case_ltb; lia.
  - intros [] [] []. unfold ckpt_buforder_comparator. cbn. case_ltb; lia.
Qed.

(** C33. The quicksort of [sort_template.h], for any comparator that orders its
    arguments and any part of an array: it returns, it compares and swaps only
    elements of the part, the part is in order afterwards, holds the same elements
    as before, and the rest of the array is as it was. *)
Theorem ST_SORT_sorts {A} (cmp : A -> A -> Z) `{!OrderCompare cmp} (data n : Z) (l : list A) :
  0 <= data -> data + n <= Z.of_nat (length l) ->
  exists l', ST_SORT cmp data n l = (Ret tt, l') /\ l' ≡ₚ l /\
    (forall i, ~ data <= i < data + n -> lookupZ l' i = lookupZ l i) /\ sorted_in cmp l' data (data + n).
Proof.
  intros Hd Hlen. destruct (st_sort_run cmp (S (Z.to_nat n)) data n) with (l := l) as ([] & l' & Hrun & Hsh & Hs); [lia|done|done|].
  exists l'. split_and!; [done|by eapply shuffled_perm| |done]. intros i. by eapply shuffled_outside.
Qed.

(** The middle of an array of twelve tags, with two equal ones. *)
Lemma ST_SORT_sorts_witness :
  let l := (fun b => mkBufferTag 1663 5 16384 0 b) <$> [9; 4; 4; 12; 1; 8; 7; 3; 3; 11; 2; 0] in
  exists l', ST_SORT buffertag_comparator 1 10 l = (Ret tt, l') /\ sorted_in buffertag_comparator l' 1 11 /\
    blockNum <$> l' = [9; 1; 2; 3; 3; 4; 4; 7; 8; 11; 12; 0].
Proof.
  intros l. destruct (ST_SORT_sorts buffertag_comparator 1 10 l) as (l' & Hrun & _ & _ & Hs); [lia|vm_compute; discriminate|].
  exists l'. split; [exact Hrun|]. split; [exact Hs|].
  assert (blockNum <$> (ST_SORT buffertag_comparator 1 10 l).2 = [9; 1; 2; 3; 3; 4; 4; 7; 8; 11; 12; 0]) as H by (vm_compute; reflexivity).
  rewrite Hrun in H. exact H.
Defined.
