(* ===== verification/BinaryHeap.v ===== *)
(** * Binary heaps ([src/common/binaryheap.c])

    A heap in an array, whose nodes are numbers: for the checkpointer they are
    pointers to the state of a tablespace.  The comparator is an argument of the
    operations, because it may look at memory that changes between two calls.
    Whatever the comparator does, the operations return and only move nodes; with
    a comparator that orders the nodes, a heap is a bounded priority queue. *)
From S2P Require Import Prelude BufTag SortTemplate.

Record binaryheap := mkHeap {
  bh_size : Z;
  bh_space : Z;
  bh_has_heap_property : bool;
  bh_nodes : list Z
}.
Definition with_bh_size (v : Z) (h : binaryheap) : binaryheap := mkHeap v (bh_space h) (bh_has_heap_property h) (bh_nodes h).
Definition with_bh_has_heap_property (v : bool) (h : binaryheap) : binaryheap := mkHeap (bh_size h) (bh_space h) v (bh_nodes h).
Definition with_bh_nodes (v : list Z) (h : binaryheap) : binaryheap := mkHeap (bh_size h) (bh_space h) (bh_has_heap_property h) v.

(** ** The operations *)

(** The layout of a [binaryheap] on a 64-bit machine. *)
Definition offsetof_bh_nodes : Z := 32.
Definition sizeof_bh_node_type : Z := 8.

(** [palloc] refuses sizes above [MaxAllocSize]. *)
Definition palloc_check {W} (size : Z) : ST W unit :=
  if MaxAllocSize <? size then elog "invalid memory alloc request size" else ret tt.

(** The size is computed in 64 bits, stored in an [int] and converted back for
    [palloc]; the nodes are those that fit into the memory allocated, whatever
    [bh_space] says.  New memory contains anything. *)
Definition binaryheap_allocate {W} (capacity : Z) (junk : Z -> Z) : ST W binaryheap :=
  let sz := i32 (u64 (offsetof_bh_nodes + u64 (sizeof_bh_node_type * u64 capacity))) in
  palloc_check (u64 sz) ;;
  if sz <? offsetof_bh_nodes then trap "heap does not fit into the memory allocated"
  else ret (mkHeap 0 capacity true (junk <$> seqZ 0 ((sz - offsetof_bh_nodes) / sizeof_bh_node_type))).
Definition binaryheap_reset (h : binaryheap) : binaryheap := with_bh_has_heap_property true (with_bh_size 0 h).
Definition binaryheap_empty (h : binaryheap) : bool := bh_size h =? 0.

Definition left_offset (i : Z) : Z := i32 (2 * i + 1).
Definition right_offset (i : Z) : Z := i32 (2 * i + 2).
Definition parent_offset (i : Z) : Z := Z.quot (i - 1) 2.

Section operations.
Context (bh_compare : Z -> Z -> Z).
Local Abbreviation H := (ST binaryheap).

Definition node (i : Z) : H Z := fun h =>
  match lookupZ (bh_nodes h) i with
  | Some d => (Ret d, h)
  | None => (UB "node out of range", h)
  end.
Definition set_node (i d : Z) : H unit := node i ;; fun h => (Ret tt, with_bh_nodes (insertZ i d (bh_nodes h)) h).
Definition get_size : H Z := fun h => (Ret (bh_size h), h).
Definition set_size (n : Z) : H unit := fun h => (Ret tt, with_bh_size n h).
Definition set_property (b : bool) : H unit := fun h => (Ret tt, with_bh_has_heap_property b h).

(** The loop of [sift_up]; [node_off] is the hole. *)
Definition sift_up_round (node_val node_off : Z) : H (ctl Z Z) :=
  if node_off =? 0 then ret (Break node_off)
  else
    let parent_off := parent_offset node_off in
    let* parent_val := node parent_off in
    if bh_compare node_val parent_val <=? 0 then ret (Break node_off)
    else set_node node_off parent_val ;; ret (Continue parent_off).
Definition sift_up (node_off : Z) : H unit :=
  let* node_val := node node_off in
  let* node_off := iter_fuel (S (Z.to_nat node_off)) (sift_up_round node_val) node_off in
  set_node node_off node_val.

(** The larger child: both are compared if there are two. *)
Definition larger_child (node_off : Z) : H Z :=
  let left_off := left_offset node_off in
  let right_off := right_offset node_off in
  let* n := get_size in
  if right_off <? n then
    let* l := node left_off in
    let* r := node right_off in
    ret (if bh_compare l r <? 0 then right_off else left_off)
  else ret left_off.
Definition sift_down_round (node_val node_off : Z) : H (ctl Z Z) :=
  let left_off := left_offset node_off in
  let* swap_off := larger_child node_off in
  let* n := get_size in
  if n <=? left_off then ret (Break node_off)
  else
    let* swap_val := node swap_off in
    if 0 <=? bh_compare node_val swap_val then ret (Break node_off)
    else set_node node_off swap_val ;; ret (Continue swap_off).
Definition sift_down (node_off : Z) : H unit :=
  let* node_val := node node_off in
  let* n := get_size in
  let* node_off := iter_fuel (S (Z.to_nat n)) (sift_down_round node_val) node_off in
  set_node node_off node_val.

Definition binaryheap_add_unordered (d : Z) : H unit := fun h =>
  (if bh_space h <=? bh_size h then elog "out of binary heap slots"
   else
     set_property false ;;
     set_node (bh_size h) d ;;
     set_size (bh_size h + 1)) h.

Definition binaryheap_build : H unit :=
  let* n := get_size in
  let i := parent_offset (n - 1) in
  for_upto (Z.to_nat (i + 1)) 0 (fun k => sift_down (i - k)) ;;
  set_property true.

Definition binaryheap_add (d : Z) : H unit := fun h =>
  (if bh_space h <=? bh_size h then elog "out of binary heap slots"
   else
     set_node (bh_size h) d ;;
     set_size (bh_size h + 1) ;;
     sift_up (bh_size h)) h.

Definition assert_heap : H unit := fun h =>
  (if negb (binaryheap_empty h) && bh_has_heap_property h then ret tt
   else trap "!binaryheap_empty(heap) && heap->bh_has_heap_property") h.

Definition binaryheap_first : H Z := assert_heap ;; node 0.

Definition binaryheap_remove_first : H Z :=
  assert_heap ;;
  let* result := node 0 in
  let* n := get_size in
  if n =? 1 then set_size (n - 1) ;; ret result
  else
    set_size (n - 1) ;;
    let* last := node (n - 1) in
    set_node 0 last ;;
    sift_down 0 ;;
    ret result.

Definition binaryheap_remove_node (i : Z) : H unit :=
  assert_heap ;;
  let* n := get_size in
  (if (0 <=? i) && (i <? n) then ret tt else trap "n >= 0 && n < heap->bh_size") ;;
  set_size (n - 1) ;;
  let* last := node (n - 1) in
  let* old := node i in
  let cmp := bh_compare last old in
  set_node i last ;;
  if 0 <? cmp then sift_up i else if cmp <? 0 then sift_down i else ret tt.

Definition binaryheap_replace_first (d : Z) : H unit :=
  assert_heap ;;
  set_node 0 d ;;
  let* n := get_size in
  when (1 <? n) (sift_down 0).
End operations.

(** ** Moving nodes *)
Lemma parent_range i : 0 < i -> 0 <= parent_offset i < i /\ 2 * parent_offset i + 1 <= i <= 2 * parent_offset i + 2.
Proof. intros Hi. unfold parent_offset. rewrite Z.quot_div_nonneg by lia. Z.to_euclidean_division_equations; lia. Qed.
Lemma child_parent i c : 0 <= i -> c = 2 * i + 1 \/ c = 2 * i + 2 -> parent_offset c = i.
Proof. intros Hi [-> | ->]; unfold parent_offset; rewrite Z.quot_div_nonneg by lia; Z.to_euclidean_division_equations; lia. Qed.
Lemma left_small i : 0 <= i < 2 ^ 30 - 1 -> left_offset i = 2 * i + 1.
Proof. intros Hi. unfold left_offset. apply i32_small. lia. Qed.
Lemma right_small i : 0 <= i < 2 ^ 30 - 1 -> right_offset i = 2 * i + 2.
Proof. intros Hi. unfold right_offset. apply i32_small. lia. Qed.

Section heaps.
Context (cmp : Z -> Z -> Z).
Implicit Types (h : binaryheap) (l : list Z).

(** The counters are in order; the offsets of the children are in the range of an [int]. *)
Record heap_ok h : Prop := {
  hk_size : 0 <= bh_size h <= bh_space h;
  hk_space : bh_space h < 2 ^ 30;
  hk_nodes : Z.of_nat (length (bh_nodes h)) = bh_space h
}.

(** The command returns, having moved nodes among the first [bh_size]. *)
Definition heap_moves (m : ST binaryheap unit) h (R : list Z -> Prop) : Prop :=
  exists l', m h = (Ret tt, with_bh_nodes l' h) /\ shuffled 0 (bh_size h) (bh_nodes h) l' /\ R l'.

Lemma with_nodes_eta h : with_bh_nodes (bh_nodes h) h = h.
Proof using Type. by destruct h. Qed.
Lemma with_nodes_twice l l' h : with_bh_nodes l (with_bh_nodes l' h) = with_bh_nodes l h.
Proof using Type. done. Qed.

Lemma node_run h i d : lookupZ (bh_nodes h) i = Some d -> node i h = (Ret d, h).
Proof using Type. intros E. unfold node. by rewrite E. Qed.
Lemma set_node_run h i d x :
  lookupZ (bh_nodes h) i = Some x -> set_node i d h = (Ret tt, with_bh_nodes (insertZ i d (bh_nodes h)) h).
Proof using Type. intros E. unfold set_node. by run (node_run h i x E). Qed.

(** ** Order *)

(** The node at [i] comes before the one at [c]. *)
Definition ordered l (i c : Z) : Prop := forall x y, lookupZ l i = Some x -> lookupZ l c = Some y -> 0 <= cmp x y.
(** The heap property of the first [n] nodes, for the nodes from [j] on. *)
Definition heap_from (j n : Z) l : Prop := forall i, 0 < i < n -> j <= parent_offset i -> ordered l (parent_offset i) i.

(** ... except below [k], where a node may have to sink. *)
Definition sinking (j n k : Z) l : Prop :=
  (forall i, 0 < i < n -> j <= parent_offset i -> parent_offset i <> k -> ordered l (parent_offset i) i) /\
  (forall c, 0 < c < n -> parent_offset c = k -> 0 < k -> j <= parent_offset k -> ordered l (parent_offset k) c).
(** ... except above [k], where a node may have to rise. *)
Definition rising (n k : Z) l : Prop :=
  (forall i, 0 < i < n -> i <> k -> ordered l (parent_offset i) i) /\
  (forall c, 0 < c < n -> parent_offset c = k -> 0 < k -> ordered l (parent_offset k) c).

Section order.
Context `{!OrderCompare cmp}.

Lemma cmp_before x y : cmp x y < 0 -> 0 <= cmp y x.
Proof using OrderCompare0. intros E. pose proof (oc_flip x y). lia. Qed.
Lemma before_trans x y z : 0 <= cmp x y -> 0 <= cmp y z -> 0 <= cmp x z.
Proof using OrderCompare0.
  intros H1 H2. pose proof (oc_flip x y). pose proof (oc_flip y z). pose proof (oc_flip x z).
  pose proof (oc_trans z y x). lia.
Qed.

Lemma sink_step j n k c v y l :
  0 <= j <= k -> 0 < c < n -> parent_offset c = k -> sinking j n k l -> lookupZ l k = Some v -> lookupZ l c = Some y ->
  cmp v y < 0 -> (forall c', 0 < c' < n -> parent_offset c' = k -> c' <> c -> ordered l c c') ->
  sinking j n c (swapped k c v y l).
Proof using OrderCompare0.
  intros Hj Hc Hp [I1 I2] Hv Hy Hlt Hother. pose proof (parent_range c ltac:(lia)) as Rc.
  assert (forall i, lookupZ (swapped k c v y l) i = if i =? c then Some v else if i =? k then Some y else lookupZ l i) as L
    by (intros i; by apply lookup_swapped).
  split.
  - intros i Hi Hji Hpc a b. pose proof (parent_range i ltac:(lia)) as Ri. rewrite !L.
    rewrite (proj2 (Z.eqb_neq (parent_offset i) c)) by done. destruct (Z.eqb_spec (parent_offset i) k) as [Epk|Npk].
    + intros [= <-]. destruct (Z.eqb_spec i c) as [->|]; [intros [= <-]; by apply cmp_before|].
      rewrite (proj2 (Z.eqb_neq i k)) by lia. intros Hb. apply (Hother i); auto.
    + destruct (Z.eqb_spec i c) as [->|]; [done|]. intros Ha. destruct (Z.eqb_spec i k) as [->|].
      * intros [= <-]. apply (I2 c); auto; lia.
      * intros Hb. by apply (I1 i).
  - intros c' Hc' Hpc' _ Hjk a b. pose proof (parent_range c' ltac:(lia)). rewrite !L, Hp, (Z.eqb_refl k).
    rewrite (proj2 (Z.eqb_neq k c)) by lia. intros [= <-]. rewrite !(proj2 (Z.eqb_neq _ _)) by lia. intros Hb.
    apply (I1 c'); [lia|lia|lia|by rewrite Hpc'|done].
Qed.

Lemma sink_done j n k v l :
  0 <= j <= k -> sinking j n k l -> lookupZ l k = Some v ->
  (forall i y, 0 < i < n -> parent_offset i = k -> lookupZ l i = Some y -> 0 <= cmp v y) -> heap_from j n l.
Proof using Type.
  intros Hj [I1 _] Hv Hch i Hi Hji. destruct (decide (parent_offset i = k)) as [E|]; [|by apply I1].
  rewrite E. intros x y Hx Hy. simplify_eq. by apply (Hch i).
Qed.
End order.

(** ** Sinking *)
Lemma insert_swapped k c v y l :
  k <> c -> lookupZ l c = Some y -> 0 <= k < Z.of_nat (length l) ->
  insertZ c v (insertZ k y l) = swapped k c v y (insertZ k v l).
Proof using Type.
  intros Hne Hc Hk. unfold swapped, insertZ. rewrite (proj2 (Z.leb_le 0 k)) by lia. by rewrite list_insert_insert_eq.
Qed.

Definition child_of (n k c : Z) : Prop := 0 < c < n /\ parent_offset c = k.
Lemma child_cases n k c : 0 <= k -> child_of n k c <-> c < n /\ (c = 2 * k + 1 \/ c = 2 * k + 2).
Proof using Type.
  clear cmp. intros Hk. split.
  - intros [Hc <-]. pose proof (parent_range c). lia.
  - intros [Hn Hc]. split; [lia|]. by apply child_parent.
Qed.

(** Which child the node is compared with. *)
Lemma larger_child_run h k :
  heap_ok h -> 0 <= k < bh_size h ->
  (bh_size h <= 2 * k + 1 /\ exists c, larger_child cmp k h = (Ret c, h)) \/
  (2 * k + 1 < bh_size h /\ exists c y, larger_child cmp k h = (Ret c, h) /\ child_of (bh_size h) k c /\ lookupZ (bh_nodes h) c = Some y /\
    (OrderCompare cmp -> forall c', child_of (bh_size h) k c' -> c' <> c -> ordered (bh_nodes h) c c')).
Proof using Type.
  intros [K1 K2 K3] Hk. unfold larger_child. rewrite left_small, right_small by lia. run (eq_refl (get_size h)).
  destruct (Z.leb_spec (bh_size h) (2 * k + 1)) as [Hge|Hlt].
  { left. split; [done|]. exists (2 * k + 1). by rewrite (proj2 (Z.ltb_ge _ _)) by lia. }
  right. split; [done|]. destruct (lookupZ_lt (bh_nodes h) (2 * k + 1)) as [y1 Hy1]; [lia|].
  destruct (Z.ltb_spec (2 * k + 2) (bh_size h)) as [Hr|Hr].
  - destruct (lookupZ_lt (bh_nodes h) (2 * k + 2)) as [y2 Hy2]; [lia|].
    run (node_run h _ y1 Hy1). run (node_run h _ y2 Hy2). destruct (Z.ltb_spec (cmp y1 y2) 0) as [Hc|Hc].
    + exists (2 * k + 2), y2. split_and!; [done|by apply child_cases; lia|done|].
      intros HO c' Hc'%child_cases Hne x y Hx Hy; [|lia]. assert (c' = 2 * k + 1) as -> by lia. simplify_eq. by apply cmp_before.
    + exists (2 * k + 1), y1. split_and!; [done|by apply child_cases; lia|done|].
      intros HO c' Hc'%child_cases Hne x y Hx Hy; [|lia]. assert (c' = 2 * k + 2) as -> by lia. by simplify_eq.
  - exists (2 * k + 1), y1. split_and!; [done|by apply child_cases; lia|done|].
    intros HO c' Hc'%child_cases Hne; [|lia]. lia.
Qed.

(** The hole of [sift_down] has moved from [k] to its place. *)
Definition sunk (j v k : Z) h (res : outcome Z * binaryheap) : Prop := exists k' l', res = (Ret k', with_bh_nodes l' h) /\
  0 <= k' < bh_size h /\ length l' = length (bh_nodes h) /\
  shuffled 0 (bh_size h) (insertZ k v (bh_nodes h)) (insertZ k' v l') /\
  (OrderCompare cmp -> sinking j (bh_size h) k (insertZ k v (bh_nodes h)) -> heap_from j (bh_size h) (insertZ k' v l')).

Lemma sunk_here j v k h :
  heap_ok h -> 0 <= j <= k -> k < bh_size h ->
  (OrderCompare cmp -> forall i y, child_of (bh_size h) k i -> lookupZ (bh_nodes h) i = Some y -> 0 <= cmp v y) ->
  sunk j v k h (Ret k, h).
Proof using Type.
  intros [K1 K2 K3] Hj Hk Hch. exists k, (bh_nodes h). rewrite with_nodes_eta. split_and!; try done; [lia|].
  intros HO Hs. apply (sink_done j _ k v); [done|done|apply lookupZ_insertZ_eq; lia|]. intros i y Hi Hp Hy.
  apply (Hch HO i); [done|]. pose proof (parent_range i). by rewrite lookupZ_insertZ_ne in Hy by lia.
Qed.

Lemma sunk_below j v k c y h res :
  heap_ok h -> 0 <= j <= k -> k < bh_size h -> child_of (bh_size h) k c -> lookupZ (bh_nodes h) c = Some y -> cmp v y < 0 ->
  (OrderCompare cmp -> forall c', child_of (bh_size h) k c' -> c' <> c -> ordered (bh_nodes h) c c') ->
  sunk j v c (with_bh_nodes (insertZ k y (bh_nodes h)) h) res -> sunk j v k h res.
Proof using Type.
  intros [K1 K2 K3] Hj Hk [Rc Pc] Hy Hgt Hmax (k' & l' & Hrun & Hk' & Hl & Hsh & Hord).
  pose proof (parent_range c ltac:(lia)) as Rp. rewrite Pc in Rp.
  cbn [bh_nodes bh_size with_bh_nodes] in *. rewrite insert_swapped in Hsh, Hord by (done || lia).
  assert (lookupZ (insertZ k v (bh_nodes h)) k = Some v) as Hv by (apply lookupZ_insertZ_eq; lia).
  assert (lookupZ (insertZ k v (bh_nodes h)) c = Some y) as Hy' by (by rewrite lookupZ_insertZ_ne by lia).
  exists k', l'. split_and!; [exact Hrun|lia|lia| | |].
  - by rewrite Hl, length_insertZ.
  - etrans; [|exact Hsh]. by apply swap_moves; [..|lia|lia].
  - intros HO Hs. apply (Hord HO). apply sink_step; try done. intros c' R' P' Hne x z.
    rewrite lookupZ_insertZ_ne by lia. rewrite lookupZ_insertZ_ne by (pose proof (parent_range c'); lia).
    by apply (Hmax HO c').
Qed.

Lemma sift_down_loop j v fuel : forall k h,
  (Z.to_nat (bh_size h - k) < fuel)%nat -> heap_ok h -> 0 <= j <= k -> k < bh_size h ->
  sunk j v k h (iter_fuel fuel (sift_down_round cmp v) k h).
Proof using Type.
  induction fuel as [|fuel IH]; intros k h Hf Hok Hj Hk; [lia|]. pose proof Hok as [K1 K2 K3].
  destruct (larger_child_run h k Hok ltac:(lia)) as [[Hge [c Hc]]|(Hlt & c & y & Hc & Hch & Hy & Hmax)].
  { erewrite iter_break; [apply sunk_here; [done..|]|].
    - intros _ i y Hi%child_cases; lia.
    - unfold sift_down_round. run Hc. run (eq_refl (get_size h)). rewrite left_small by lia. by rewrite (proj2 (Z.leb_le _ _)). }
  pose proof Hch as [Rc Pc]. pose proof (parent_range c ltac:(lia)) as Rp. rewrite Pc in Rp.
  assert (sift_down_round cmp v k h = if 0 <=? cmp v y then (Ret (Break k), h)
    else (Ret (Continue c), with_bh_nodes (insertZ k y (bh_nodes h)) h)) as Hr.
  { unfold sift_down_round. run Hc. run (eq_refl (get_size h)). rewrite left_small, (proj2 (Z.leb_gt _ _)) by lia.
    run (node_run h c y Hy). case_match; [done|]. destruct (lookupZ_lt (bh_nodes h) k) as [x Hx]; [lia|].
    by run (set_node_run h k y x Hx). }
  destruct (Z.leb_spec 0 (cmp v y)) as [Hle|Hgt].
  - rewrite (iter_break _ _ _ _ _ _ Hr). apply sunk_here; [done..|]. intros HO i z Hi Hz.
    destruct (decide (i = c)) as [->|Hne]; [by simplify_eq|]. apply (before_trans v y z); [done|]. by apply (Hmax HO i).
  - rewrite (iter_continue _ _ _ _ _ _ Hr). apply (sunk_below j v k c y); try done.
    apply IH; [cbn; lia|split; cbn; rewrite ?length_insertZ; lia|lia|cbn; lia].
Qed.

(** Filling the hole. *)
Lemma fill_run h l i v : 
  heap_ok h -> length l = length (bh_nodes h) -> 0 <= i < bh_size h ->
  set_node i v (with_bh_nodes l h) = (Ret tt, with_bh_nodes (insertZ i v l) h).
Proof using Type.
  intros [K1 K2 K3] Hl Hi. destruct (lookupZ_lt l i) as [x Hx]; [lia|]. by rewrite (set_node_run _ _ _ x).
Qed.

Lemma sift_down_run j k h :
  heap_ok h -> 0 <= j <= k -> k < bh_size h ->
  heap_moves (sift_down cmp k) h (fun l' => OrderCompare cmp -> sinking j (bh_size h) k (bh_nodes h) -> heap_from j (bh_size h) l').
Proof using Type.
  intros Hok Hj Hk. pose proof Hok as [K1 K2 K3]. destruct (lookupZ_lt (bh_nodes h) k) as [v Hv]; [lia|].
  destruct (sift_down_loop j v (S (Z.to_nat (bh_size h))) k h) as (k' & l' & Hrun & Hk' & Hl & Hsh & Hord); [lia|done|done|done|].
  rewrite (insertZ_id _ _ _ Hv) in Hsh, Hord. exists (insertZ k' v l'). split_and!; [|done|done].
  unfold sift_down. run (node_run h k v Hv). run (eq_refl (get_size h)). run Hrun. by apply fill_run.
Qed.

(** ** Rising *)
Lemma rise_step n k p v y l :
  OrderCompare cmp -> 0 < k < n -> parent_offset k = p -> rising n k l -> lookupZ l k = Some v -> lookupZ l p = Some y ->
  0 < cmp v y -> rising n p (swapped k p v y l).
Proof using Type.
  intros HO Hk Hp [I1 I2] Hv Hy Hgt. pose proof (parent_range k ltac:(lia)) as Rk. rewrite Hp in Rk.
  assert (forall i, lookupZ (swapped k p v y l) i = if i =? p then Some v else if i =? k then Some y else lookupZ l i) as L
    by (intros i; by apply lookup_swapped).
  split.
  - intros i Hi Hip a b. pose proof (parent_range i ltac:(lia)) as Ri. rewrite !L.
    rewrite (proj2 (Z.eqb_neq i p)) by done. destruct (Z.eqb_spec i k) as [->|Hik].
    { rewrite Hp, Z.eqb_refl. intros [= <-] [= <-]. lia. }
    destruct (Z.eqb_spec (parent_offset i) p) as [E|E].
    { intros [= <-] Hb. apply (before_trans v y b); [lia|]. apply (I1 i); [done|done|by rewrite E|done]. }
    destruct (Z.eqb_spec (parent_offset i) k) as [E'|E']; [|by apply I1].
    intros [= <-] Hb. apply (I2 i); [done|done|lia|by rewrite Hp|done].
  - intros c Hc Hpc Hp0 a b. pose proof (parent_range p ltac:(lia)) as Rp. rewrite !L.
    rewrite !(proj2 (Z.eqb_neq (parent_offset p) _)) by lia. pose proof (parent_range c ltac:(lia)).
    rewrite (proj2 (Z.eqb_neq c p)) by lia. intros Ha. assert (0 <= cmp a y) as Hay by (apply (I1 p); [lia|lia|done|done]).
    destruct (Z.eqb_spec c k) as [->|Hck]; [by intros [= <-]|].
    intros Hb. apply (before_trans a y b); [done|]. apply (I1 c); [lia|done|by rewrite Hpc|done].
Qed.

Lemma rise_done n k l :
  rising n k l -> (0 < k < n -> ordered l (parent_offset k) k) -> heap_from 0 n l.
Proof using Type.
  intros [I1 _] Hk i Hi _. destruct (decide (i = k)) as [->|]; [by apply Hk|by apply I1].
Qed.

Lemma sift_up_loop v fuel : forall k h,
  (Z.to_nat k < fuel)%nat -> heap_ok h -> 0 <= k < bh_size h ->
  exists k' l', iter_fuel fuel (sift_up_round cmp v) k h = (Ret k', with_bh_nodes l' h) /\
    0 <= k' < bh_size h /\ length l' = length (bh_nodes h) /\
    shuffled 0 (bh_size h) (insertZ k v (bh_nodes h)) (insertZ k' v l') /\
    (OrderCompare cmp -> rising (bh_size h) k (insertZ k v (bh_nodes h)) -> heap_from 0 (bh_size h) (insertZ k' v l')).
Proof using Type.
  induction fuel as [|fuel IH]; intros k h Hf Hok Hk; [lia|]. pose proof Hok as [K1 K2 K3].
  assert (lookupZ (insertZ k v (bh_nodes h)) k = Some v) as Hv by (apply lookupZ_insertZ_eq; lia).
  destruct (Z.eqb_spec k 0) as [->|Hk0].
  { exists 0, (bh_nodes h). erewrite iter_break by (unfold sift_up_round; by rewrite Z.eqb_refl).
    rewrite with_nodes_eta. split_and!; try done; [lia|]. intros _ Hr. by apply (rise_done _ 0); [|lia]. }
  pose proof (parent_range k ltac:(lia)) as Rp. set (p := parent_offset k) in *.
  destruct (lookupZ_lt (bh_nodes h) p) as [y Hy]; [lia|].
  assert (sift_up_round cmp v k h = if cmp v y <=? 0 then (Ret (Break k), h)
    else (Ret (Continue p), with_bh_nodes (insertZ k y (bh_nodes h)) h)) as Hr.
  { unfold sift_up_round. rewrite (proj2 (Z.eqb_neq _ _)) by done. fold p. run (node_run h p y Hy). case_match; [done|].
    destruct (lookupZ_lt (bh_nodes h) k) as [x Hx]; [lia|]. by run (set_node_run h k y x Hx). }
  assert (lookupZ (insertZ k v (bh_nodes h)) p = Some y) as Hy' by (by rewrite lookupZ_insertZ_ne by lia).
  destruct (Z.leb_spec (cmp v y) 0) as [Hle|Hgt].
  - exists k, (bh_nodes h). rewrite (iter_break _ _ _ _ _ _ Hr), with_nodes_eta. split_and!; try done; [lia|lia|].
    intros HO Hri. apply (rise_done _ k); [done|]. intros _ a b. fold p. intros Ha Hb. simplify_eq. pose proof (oc_flip v y). lia.
  - destruct (IH p (with_bh_nodes (insertZ k y (bh_nodes h)) h)) as (k' & l' & Hrun & Hk' & Hl & Hsh & Hord);
      [lia|split; cbn; rewrite ?length_insertZ; lia|cbn; lia|].
    cbn [bh_nodes bh_size with_bh_nodes] in *. rewrite insert_swapped in Hsh, Hord by (done || lia).
    exists k', l'. rewrite (iter_continue _ _ _ _ _ _ Hr). split_and!; [exact Hrun|lia|lia| | |].
    + by rewrite Hl, length_insertZ.
    + etrans; [|exact Hsh]. by apply swap_moves; [..|lia|lia].
    + intros HO Hri. apply (Hord HO). by apply rise_step; [|lia|..].
Qed.

Lemma sift_up_run k h :
  heap_ok h -> 0 <= k < bh_size h ->
  heap_moves (sift_up cmp k) h (fun l' => OrderCompare cmp -> rising (bh_size h) k (bh_nodes h) -> heap_from 0 (bh_size h) l').
Proof using Type.
  intros Hok Hk. pose proof Hok as [K1 K2 K3]. destruct (lookupZ_lt (bh_nodes h) k) as [v Hv]; [lia|].
  destruct (sift_up_loop v (S (Z.to_nat k)) k h) as (k' & l' & Hrun & Hk' & Hl & Hsh & Hord); [lia|done|done|].
  rewrite (insertZ_id _ _ _ Hv) in Hsh, Hord. exists (insertZ k' v l'). split_and!; [|done|done].
  unfold sift_up. run (node_run h k v Hv). run Hrun. by apply fill_run.
Qed.

(** ** What a heap holds *)
Definition contents h : list Z := take (Z.to_nat (bh_size h)) (bh_nodes h).

Record holds h (s : list Z) : Prop := {
  hd_ok : heap_ok h;
  hd_property : bh_has_heap_property h = true;
  hd_contents : contents h ≡ₚ s
}.
(** ... in order. *)
Definition in_order h : Prop := heap_from 0 (bh_size h) (bh_nodes h).

Lemma shuffled_take n l l' : shuffled 0 n l l' -> take (Z.to_nat n) l' ≡ₚ take (Z.to_nat n) l.
Proof using Type.
  clear cmp. intros Hs. induction Hs as [|a b c (i & j & x & y & Ri & Rj & Hi & Hj & ->) _ IH]; [done|]. rewrite IH.
  unfold swapped, insertZ, lookupZ in *. rewrite !(proj2 (Z.leb_le _ _)) in * by lia.
  rewrite !take_insert_lt by lia. apply Permutation_insert_swap; rewrite lookup_take_lt by lia; done.
Qed.

Lemma replace_perm (l : list Z) (i : nat) x y : l !! i = Some x -> x :: <[i:=y]> l ≡ₚ y :: l.
Proof using Type.
  intros Hx. pose proof (lookup_lt_Some _ _ _ Hx). rewrite insert_take_drop by done.
  rewrite <- (take_drop_middle l i x Hx) at 3. rewrite <- !Permutation_middle. apply perm_swap.
Qed.

(** The last of [n] nodes goes to [i]. *)
Lemma last_perm l n i x z :
  0 <= i < n -> lookupZ l i = Some x -> lookupZ l (n - 1) = Some z ->
  x :: take (Z.to_nat (n - 1)) (insertZ i z l) ≡ₚ take (Z.to_nat n) l.
Proof using Type.
  intros Hi Hx Hz. unfold insertZ, lookupZ in *. rewrite (proj2 (Z.leb_le 0 i)), (proj2 (Z.leb_le 0 (n - 1))) in * by lia.
  replace (Z.to_nat n) with (S (Z.to_nat (n - 1))) by lia. rewrite (take_S_r _ _ _ Hz).
  destruct (decide (i = n - 1)) as [->|Hne].
  - rewrite take_insert_ge by lia. simplify_eq. apply Permutation_cons_append.
  - rewrite take_insert_lt, (replace_perm _ _ x) by (rewrite ?lookup_take_lt by lia; done || lia). apply Permutation_cons_append.
Qed.

Lemma holds_size h s : holds h s -> bh_size h = Z.of_nat (length s).
Proof using Type.
  intros [[K1 K2 K3] _ Hc]. rewrite <- Hc. unfold contents. rewrite length_take. lia.
Qed.
Lemma heap_ok_nodes h l : heap_ok h -> length l = length (bh_nodes h) -> heap_ok (with_bh_nodes l h).
Proof using Type. intros [K1 K2 K3] Hl. split; cbn; lia. Qed.

Lemma assert_run h s : holds h s -> s <> [] -> assert_heap h = (Ret tt, h).
Proof using Type.
  intros Hh Hs. pose proof (holds_size _ _ Hh) as Hn. unfold assert_heap, binaryheap_empty. rewrite (hd_property _ _ Hh), Hn.
  destruct s; [done|]. done.
Qed.

Lemma top_before h x : OrderCompare cmp -> heap_ok h -> in_order h -> lookupZ (bh_nodes h) 0 = Some x ->
  forall i y, 0 <= i < bh_size h -> lookupZ (bh_nodes h) i = Some y -> 0 <= cmp x y.
Proof using Type.
  intros HO [K1 K2 K3] Hord Hx i. induction (Z.lt_wf 0 i) as [i _ IH]. intros y Hi Hy.
  destruct (decide (i = 0)) as [->|H0]; [assert (y = x) as -> by congruence; pose proof (oc_flip x x); lia|].
  pose proof (parent_range i ltac:(lia)) as Rp. destruct (lookupZ_lt (bh_nodes h) (parent_offset i)) as [z Hz]; [lia|].
  apply (before_trans x z y); [apply (IH (parent_offset i)); [lia|lia|done]|]. apply (Hord i); [lia|lia|done|done].
Qed.

Lemma elem_of_contents h s y : holds h s -> y ∈ s -> exists i, 0 <= i < bh_size h /\ lookupZ (bh_nodes h) i = Some y.
Proof using Type.
  intros [[K1 K2 K3] _ Hc]. rewrite <- Hc. intros [i Hi]%list_elem_of_lookup. pose proof (lookup_lt_Some _ _ _ Hi) as Hl.
  unfold contents in *. rewrite length_take in Hl. rewrite lookup_take_lt in Hi by lia. exists (Z.of_nat i). split; [lia|].
  unfold lookupZ. by rewrite (proj2 (Z.leb_le _ _)), Nat2Z.id by lia.
Qed.

(** The first node. *)
Lemma top_node h s : holds h s -> s <> [] -> exists d, lookupZ (bh_nodes h) 0 = Some d /\ d ∈ s.
Proof using Type.
  intros Hh Hs. pose proof (holds_size _ _ Hh) as Hn. destruct Hh as [[K1 K2 K3] _ Hc].
  assert (0 < bh_size h) by (destruct s; [done|cbn in Hn; lia]). destruct (lookupZ_lt (bh_nodes h) 0) as [d Hd]; [lia|].
  exists d. split; [done|]. rewrite <- Hc. apply list_elem_of_lookup. exists 0%nat. unfold contents.
  rewrite lookup_take_lt by lia. exact Hd.
Qed.

Lemma first_run h s :
  holds h s -> s <> [] ->
  exists d, binaryheap_first h = (Ret d, h) /\ lookupZ (bh_nodes h) 0 = Some d /\ d ∈ s /\
    (OrderCompare cmp -> in_order h -> forall y, y ∈ s -> 0 <= cmp d y).
Proof using Type.
  intros Hh Hs. destruct (top_node h s Hh Hs) as (d & Hd & Hin). exists d. split_and!; try done.
  - unfold binaryheap_first. run (assert_run h s Hh Hs). by apply node_run.
  - intros HO Hord y Hy. destruct (elem_of_contents h s y Hh Hy) as (i & Ri & Hi). by eapply top_before; [|apply Hh|..].
Qed.

(** A new first node has to sink. *)
Lemma sinking_top l n d : heap_from 0 n l -> sinking 0 n 0 (insertZ 0 d l).
Proof using Type.
  intros Hh. split; [|lia]. intros i Hi _ Hp. pose proof (parent_range i ltac:(lia)). intros x y.
  rewrite !lookupZ_insertZ_ne by lia. apply (Hh i); lia.
Qed.

Lemma remove_first_run h s :
  holds h s -> s <> [] ->
  exists d s' h', binaryheap_remove_first cmp h = (Ret d, h') /\ lookupZ (bh_nodes h) 0 = Some d /\ d :: s' ≡ₚ s /\
    holds h' s' /\ (OrderCompare cmp -> in_order h -> in_order h').
Proof using Type.
  intros Hh Hs. destruct (top_node h s Hh Hs) as (d & Hd & Hin). pose proof (holds_size _ _ Hh) as Hn.
  pose proof Hh as [Hok Hpr Hc]. pose proof Hok as [K1 K2 K3]. assert (0 < bh_size h) by (destruct s; [done|cbn in Hn; lia]).
  destruct (lookupZ_lt (bh_nodes h) (bh_size h - 1)) as [z Hz]; [lia|].
  pose proof (last_perm (bh_nodes h) (bh_size h) 0 d z ltac:(lia) Hd Hz) as Hperm.
  unfold binaryheap_remove_first. destruct (Z.eqb_spec (bh_size h) 1) as [E1|E1].
  - exists d, [], (with_bh_size 0 h). run (assert_run h s Hh Hs). run (node_run h 0 d Hd). run (eq_refl (get_size h)).
    rewrite E1. split_and!; [done|done| | |].
    + rewrite <- Hc. unfold contents. rewrite E1 in *. exact Hperm.
    + split; [split; cbn; lia|done|done].
    + intros _ _ i Hi. cbn in Hi. lia.
  - set (h1 := with_bh_nodes (insertZ 0 z (bh_nodes h)) (with_bh_size (bh_size h - 1) h)).
    assert (heap_ok h1) as Hok1 by (apply heap_ok_nodes; [split; cbn; lia|apply length_insertZ]).
    destruct (sift_down_run 0 0 h1) as (l' & Hrun & Hsh & Hord); [done|lia|unfold h1; cbn; lia|].
    exists d, (contents h1), (with_bh_nodes l' h1). split_and!; [|done| | |].
    + run (assert_run h s Hh Hs). run (node_run h 0 d Hd). run (eq_refl (get_size h)). rewrite (proj2 (Z.eqb_neq _ _)) by done.
      run (eq_refl (set_size (bh_size h - 1) h)). run (node_run (with_bh_size (bh_size h - 1) h) _ z Hz).
      run (set_node_run (with_bh_size (bh_size h - 1) h) 0 z d Hd). by run Hrun.
    + rewrite <- Hc. exact Hperm.
    + split; [|done|by apply shuffled_take in Hsh]. apply heap_ok_nodes; [done|by apply shuffled_length in Hsh].
    + intros HO Hio. apply (Hord HO). apply sinking_top. intros i Hi. apply (Hio i). unfold h1 in Hi. cbn in Hi. lia.
Qed.

Lemma replace_first_run h s d :
  holds h s -> s <> [] ->
  exists d0 s' h', binaryheap_replace_first cmp d h = (Ret tt, h') /\ lookupZ (bh_nodes h) 0 = Some d0 /\ d0 :: s' ≡ₚ s /\
    holds h' (d :: s') /\ (OrderCompare cmp -> in_order h -> in_order h').
Proof using Type.
  intros Hh Hs. destruct (top_node h s Hh Hs) as (d0 & Hd & Hin). pose proof (holds_size _ _ Hh) as Hn.
  pose proof Hh as [Hok Hpr Hc]. pose proof Hok as [K1 K2 K3]. assert (0 < bh_size h) by (destruct s; [done|cbn in Hn; lia]).
  set (h1 := with_bh_nodes (insertZ 0 d (bh_nodes h)) h).
  assert (heap_ok h1) as Hok1 by (apply heap_ok_nodes; [done|by rewrite length_insertZ]).
  destruct (proj1 (elem_of_Permutation s d0) Hin) as [s' Hs']. exists d0, s'.
  assert (contents h1 ≡ₚ d :: s') as Hc1.
  { apply (Permutation_cons_inv (a := d0)). rewrite (perm_swap d d0 s'), <- Hs', <- Hc. unfold h1, contents. cbn.
    unfold insertZ. cbn. rewrite take_insert_lt by lia. apply replace_perm. rewrite lookup_take_lt by lia. exact Hd. }
  assert (binaryheap_replace_first cmp d h = when (1 <? bh_size h) (sift_down cmp 0) h1) as Hr.
  { unfold binaryheap_replace_first. run (assert_run h s Hh Hs). run (set_node_run h 0 d d0 Hd). by run (eq_refl (get_size h1)). }
  rewrite Hr. destruct (Z.ltb_spec 1 (bh_size h)) as [H1|H1]; cbn [when].
  - destruct (sift_down_run 0 0 h1) as (l' & Hrun & Hsh & Hord); [done|lia|cbn; lia|].
    exists (with_bh_nodes l' h1). split_and!; [done|done|done| |].
    + split; [|done|]. { apply heap_ok_nodes; [done|by apply shuffled_length in Hsh]. }
      unfold contents. cbn [bh_size bh_nodes with_bh_nodes]. by rewrite (shuffled_take _ _ _ Hsh).
    + intros HO Hio. apply (Hord HO). by apply sinking_top.
  - exists h1. split_and!; [done|done|done|by split|]. intros _ _ i Hi. unfold h1 in Hi. cbn in Hi. lia.
Qed.

(** A node after the last one. *)
Lemma append_contents h d l :
  heap_ok h -> bh_size h < bh_space h -> l = insertZ (bh_size h) d (bh_nodes h) ->
  take (Z.to_nat (bh_size h + 1)) l ≡ₚ d :: contents h.
Proof using Type.
  clear cmp. intros [K1 K2 K3] Hlt ->. replace (Z.to_nat (bh_size h + 1)) with (S (Z.to_nat (bh_size h))) by lia.
  unfold insertZ. rewrite (proj2 (Z.leb_le _ _)) by lia. rewrite (take_S_r _ _ d) by (apply list_lookup_insert_eq; lia).
  rewrite take_insert_ge by lia. symmetry. apply Permutation_cons_append.
Qed.

Lemma add_unordered_run h d s :
  heap_ok h -> contents h ≡ₚ s -> bh_size h < bh_space h ->
  exists h', binaryheap_add_unordered d h = (Ret tt, h') /\ heap_ok h' /\ contents h' ≡ₚ d :: s /\
    bh_size h' = bh_size h + 1 /\ bh_space h' = bh_space h.
Proof using Type.
  clear cmp. intros Hok Hc Hlt. pose proof Hok as [K1 K2 K3].
  set (l := insertZ (bh_size h) d (bh_nodes h)). exists (mkHeap (bh_size h + 1) (bh_space h) false l). split_and!; try done.
  - unfold binaryheap_add_unordered. rewrite (proj2 (Z.leb_gt _ _)) by lia. run (eq_refl (set_property false h)).
    destruct (lookupZ_lt (bh_nodes h) (bh_size h)) as [x Hx]; [lia|].
    by run (set_node_run (with_bh_has_heap_property false h) (bh_size h) d x Hx).
  - split; cbn; unfold l; rewrite ?length_insertZ; lia.
  - rewrite <- Hc. by apply append_contents.
Qed.

Lemma full_run h d :
  bh_space h <= bh_size h ->
  binaryheap_add_unordered d h = (Elog "out of binary heap slots", h) /\ binaryheap_add cmp d h = (Elog "out of binary heap slots", h).
Proof using Type.
  intros Hf. unfold binaryheap_add_unordered, binaryheap_add. by rewrite (proj2 (Z.leb_le _ _)).
Qed.

Lemma add_run h d s :
  holds h s -> bh_size h < bh_space h ->
  exists h', binaryheap_add cmp d h = (Ret tt, h') /\ holds h' (d :: s) /\ bh_space h' = bh_space h /\
    (OrderCompare cmp -> in_order h -> in_order h').
Proof using Type.
  intros [Hok Hpr Hc] Hlt. pose proof Hok as [K1 K2 K3].
  set (l := insertZ (bh_size h) d (bh_nodes h)). set (h1 := mkHeap (bh_size h + 1) (bh_space h) true l).
  assert (heap_ok h1) as Hok1 by (split; cbn; unfold l; rewrite ?length_insertZ; lia).
  destruct (sift_up_run (bh_size h) h1) as (l' & Hrun & Hsh & Hord); [done|cbn; lia|].
  exists (with_bh_nodes l' h1). split_and!; [| |done|].
  - unfold binaryheap_add. rewrite (proj2 (Z.leb_gt _ _)) by lia.
    destruct (lookupZ_lt (bh_nodes h) (bh_size h)) as [x Hx]; [lia|]. run (set_node_run h (bh_size h) d x Hx).
    run (eq_refl (set_size (bh_size h + 1) (with_bh_nodes l h))). fold l. rewrite <- Hrun. unfold h1. by rewrite <- Hpr.
  - split; [apply heap_ok_nodes; [done|by apply shuffled_length in Hsh]|done|]. rewrite <- Hc.
    etrans; [exact (shuffled_take _ _ _ Hsh)|]. by apply append_contents.
  - intros HO Hio. apply (Hord HO). change (bh_size h1) with (bh_size h + 1). change (bh_nodes h1) with l. split.
    + intros i Hi Hne x y. pose proof (parent_range i ltac:(lia)). unfold l. rewrite !lookupZ_insertZ_ne by lia. apply (Hio i); lia.
    + intros c Hc' Hp _. pose proof (parent_range c ltac:(lia)). lia.
Qed.

Lemma build_loop h i k : forall j l,
  heap_ok h -> i < bh_size h -> Z.of_nat k + j = i + 1 -> 0 <= j -> length l = length (bh_nodes h) ->
  exists l', for_upto k j (fun k => sift_down cmp (i - k)) (with_bh_nodes l h) = (Ret tt, with_bh_nodes l' h) /\
    shuffled 0 (bh_size h) l l' /\ (OrderCompare cmp -> heap_from (i - j + 1) (bh_size h) l -> heap_from 0 (bh_size h) l').
Proof using Type.
  induction k as [|k IH]; intros j l Hok Hi Hk Hj Hl; cbn [for_upto].
  - exists l. split_and!; [done|done|]. by replace (i - j + 1) with 0 by lia.
  - destruct (sift_down_run (i - j) (i - j) (with_bh_nodes l h)) as (l1 & Hrun & Hsh & Hord); [by apply heap_ok_nodes|lia|cbn; lia|].
    destruct (IH (j + 1) l1) as (l2 & Hrun2 & Hsh2 & Hord2); [done|done|lia|lia|by rewrite (shuffled_length _ _ _ _ Hsh)|].
    exists l2. run Hrun. split_and!; [done|by etrans|]. intros HO Hfr. apply (Hord2 HO).
    replace (i - (j + 1) + 1) with (i - j) by lia. apply (Hord HO). split.
    + intros c Hc' Hp Hne. apply (Hfr c); [done|lia].
    + intros c Hc' Hp H0 Hjp. pose proof (parent_range (i - j)). lia.
Qed.

Lemma last_parent n : 0 <= n -> parent_offset (n - 1) < Z.max 0 n /\ forall c, 0 < c < n -> parent_offset c <= parent_offset (n - 1).
Proof using Type.
  clear cmp. intros Hn. unfold parent_offset. split; [Z.to_euclidean_division_equations; lia|].
  intros c Hc. rewrite !Z.quot_div_nonneg by lia. apply Z.div_le_mono; lia.
Qed.

Lemma build_run h s :
  heap_ok h -> contents h ≡ₚ s ->
  exists h', binaryheap_build cmp h = (Ret tt, h') /\ holds h' s /\ bh_space h' = bh_space h /\ (OrderCompare cmp -> in_order h').
Proof using Type.
  intros Hok Hc. pose proof Hok as [K1 K2 K3]. destruct (last_parent (bh_size h) ltac:(lia)) as [Hi Hmax].
  set (i := parent_offset (bh_size h - 1)) in *. unfold binaryheap_build. run (eq_refl (get_size h)). fold i. cbv zeta.
  assert (exists l', for_upto (Z.to_nat (i + 1)) 0 (fun k => sift_down cmp (i - k)) h = (Ret tt, with_bh_nodes l' h) /\
    shuffled 0 (bh_size h) (bh_nodes h) l' /\ (OrderCompare cmp -> heap_from 0 (bh_size h) l')) as (l' & Hrun & Hsh & Hord).
  { destruct (Z.ltb_spec i 0).
    - replace (Z.to_nat (i + 1)) with 0%nat by lia. exists (bh_nodes h). rewrite with_nodes_eta. split_and!; [done|done|].
      intros _ c Hc'. pose proof (Hmax c Hc'). pose proof (parent_range c). lia.
    - destruct (build_loop h i (Z.to_nat (i + 1)) 0 (bh_nodes h)) as (l' & Hrun & Hsh & Hord); [done|lia|lia|lia|done|].
      rewrite with_nodes_eta in Hrun. exists l'. split_and!; [done|done|]. intros HO. apply (Hord HO).
      intros c Hc' Hp. pose proof (Hmax c Hc'). lia. }
  exists (with_bh_has_heap_property true (with_bh_nodes l' h)). run Hrun. split_and!; [done| |done|done].
  split; [|done|]. { destruct (heap_ok_nodes h l' Hok (shuffled_length _ _ _ _ Hsh)). by split. }
  rewrite <- Hc. exact (shuffled_take _ _ _ Hsh).
Qed.

(** ** Any node *)
Lemma replaced_order l n i x z :
  OrderCompare cmp -> 0 <= i < n -> heap_from 0 n l -> lookupZ l i = Some x -> 
  (0 <= cmp z x -> rising n i (insertZ i z l)) /\ (cmp z x <= 0 -> sinking 0 n i (insertZ i z l)).
Proof using Type.
  intros HO Hi Hh Hx. pose proof (lookupZ_Some _ _ _ Hx) as Rx.
  assert (forall c, 0 < c < n -> parent_offset c = i -> 0 < i -> ordered (insertZ i z l) (parent_offset i) c) as Hgrand.
  { intros c Hc Hp H0 a b. pose proof (parent_range i H0). pose proof (parent_range c ltac:(lia)). rewrite !lookupZ_insertZ_ne by lia.
    intros Ha Hb. apply (before_trans a x b); [by apply (Hh i); auto; lia|]. apply (Hh c); [lia|lia|by rewrite Hp|done]. }
  split.
  - intros Hz. split; [|done]. intros c Hc Hne a b. pose proof (parent_range c ltac:(lia)).
    rewrite (lookupZ_insertZ_ne i c) by done. destruct (decide (parent_offset c = i)) as [E|E].
    + rewrite E, lookupZ_insertZ_eq by done. intros [= <-] Hb. apply (before_trans z x b); [done|]. apply (Hh c); [lia|lia|by rewrite E|done].
    + rewrite lookupZ_insertZ_ne by done. apply (Hh c); lia.
  - intros Hz. split; [|by intros; apply Hgrand]. intros c Hc _ Hp a b. pose proof (parent_range c ltac:(lia)).
    rewrite (lookupZ_insertZ_ne i (parent_offset c)) by done. destruct (decide (c = i)) as [->|E].
    + rewrite lookupZ_insertZ_eq by done. intros Ha [= <-]. apply (before_trans a x z); [by apply (Hh i); auto; lia|].
      pose proof (oc_flip z x). lia.
    + rewrite lookupZ_insertZ_ne by done. apply (Hh c); lia.
Qed.

Lemma remove_node_start h s i x z :
  holds h s -> s <> [] -> 0 <= i < bh_size h -> lookupZ (bh_nodes h) i = Some x -> lookupZ (bh_nodes h) (bh_size h - 1) = Some z ->
  binaryheap_remove_node cmp i h =
    (if 0 <? cmp z x then sift_up cmp i else if cmp z x <? 0 then sift_down cmp i else ret tt)
      (with_bh_nodes (insertZ i z (bh_nodes h)) (with_bh_size (bh_size h - 1) h)).
Proof using Type.
  intros Hh Hs Hi Hx Hz. unfold binaryheap_remove_node. run (assert_run h s Hh Hs). run (eq_refl (get_size h)).
  rewrite (proj2 (Z.leb_le 0 i)), (proj2 (Z.ltb_lt i _)) by lia. cbn [andb]. rewrite bind_ret_l.
  run (eq_refl (set_size (bh_size h - 1) h)). run (node_run (with_bh_size (bh_size h - 1) h) _ z Hz).
  run (node_run (with_bh_size (bh_size h - 1) h) _ x Hx). by run (set_node_run (with_bh_size (bh_size h - 1) h) i z x Hx).
Qed.

Lemma remove_node_run h s i :
  OrderCompare cmp -> holds h s -> in_order h -> 0 <= i < bh_size h ->
  exists x s' h', lookupZ (bh_nodes h) i = Some x /\ binaryheap_remove_node cmp i h = (Ret tt, h') /\ x :: s' ≡ₚ s /\
    holds h' s' /\ in_order h'.
Proof using Type.
  intros HO Hh Hio Hi. pose proof Hh as [Hok Hpr Hc]. pose proof Hok as [K1 K2 K3].
  assert (s <> []) as Hs. { intros ->. pose proof (holds_size _ _ Hh) as Hn. cbn in Hn. lia. }
  destruct (lookupZ_lt (bh_nodes h) i) as [x Hx]; [lia|]. destruct (lookupZ_lt (bh_nodes h) (bh_size h - 1)) as [z Hz]; [lia|].
  set (h1 := with_bh_nodes (insertZ i z (bh_nodes h)) (with_bh_size (bh_size h - 1) h)).
  assert (heap_ok h1) as Hok1 by (apply heap_ok_nodes; [split; cbn; lia|apply length_insertZ]).
  assert (x :: contents h1 ≡ₚ s) as Hperm by (rewrite <- Hc; by apply (last_perm (bh_nodes h) (bh_size h) i x z)).
  pose proof (remove_node_start h s i x z Hh Hs Hi Hx Hz) as Hr. fold h1 in Hr.
  exists x, (contents h1). rewrite Hr.
  assert (forall m, (i < bh_size h - 1 -> heap_moves m h1 (fun l' => heap_from 0 (bh_size h1) l')) -> i < bh_size h - 1 ->
    exists h', lookupZ (bh_nodes h) i = Some x /\ m h1 = (Ret tt, h') /\ x :: contents h1 ≡ₚ s /\ holds h' (contents h1) /\ in_order h') as Hmove.
  { intros m Hm Hlt. destruct (Hm Hlt) as (l' & Hrun & Hsh & Hord). exists (with_bh_nodes l' h1). split_and!; try done.
    split; [apply heap_ok_nodes; [done|by apply shuffled_length in Hsh]|done|exact (shuffled_take _ _ _ Hsh)]. }
  assert (heap_from 0 (bh_size h1) (bh_nodes h)) as Hfrom by (intros c Hc' Hp; apply (Hio c); unfold h1 in Hc'; cbn in Hc'; lia).
  assert (cmp z x <> 0 -> i < bh_size h - 1) as Hne.
  { intros Hn0. destruct (decide (i = bh_size h - 1)) as [->|]; [|lia]. assert (z = x) as -> by congruence. pose proof (oc_flip x x). lia. }
  destruct (Z.ltb_spec 0 (cmp z x)) as [Hgt|Hle]; [|destruct (Z.ltb_spec (cmp z x) 0) as [Hlt|Hge]].
  - apply Hmove; [|apply Hne; lia]. intros Hin. destruct (sift_up_run i h1) as (l' & R1 & R2 & R3); [done|unfold h1; cbn; lia|].
    exists l'. split_and!; [done|done|]. apply (R3 HO). apply (replaced_order _ _ i x z HO); [unfold h1; cbn; lia|done|done|lia].
  - apply Hmove; [|apply Hne; lia]. intros Hin. destruct (sift_down_run 0 i h1) as (l' & R1 & R2 & R3); [done|lia|unfold h1; cbn; lia|].
    exists l'. split_and!; [done|done|]. apply (R3 HO). apply (replaced_order _ _ i x z HO); [unfold h1; cbn; lia|done|done|lia].
  - exists h1. split_and!; try done. intros c Hc' Hp a b. pose proof (parent_range c ltac:(lia)).
    destruct (decide (i < bh_size h1)) as [Hin|Hout].
    + destruct (proj1 (replaced_order _ _ i x z HO (conj (proj1 Hi) Hin) Hfrom Hx)) as [I1 _]; [lia|].
      destruct (proj2 (replaced_order _ _ i x z HO (conj (proj1 Hi) Hin) Hfrom Hx)) as [J1 _]; [lia|].
      destruct (decide (c = i)) as [->|]; [apply (J1 i); lia|by apply (I1 c)].
    + change (bh_nodes h1) with (insertZ i z (bh_nodes h)). rewrite !lookupZ_insertZ_ne by lia. by apply Hfrom.
Qed.
End heaps.

(** ** The specification: a bounded priority queue, as a list up to permutation *)
Record is_queue (cmp : Z -> Z -> Z) (h : binaryheap) (s : list Z) : Prop := {
  iq_holds : holds h s;
  iq_order : in_order cmp h
}.

(** The memory for so many nodes can be allocated. *)
Definition heap_fits (capacity : Z) : Prop := offsetof_bh_nodes + sizeof_bh_node_type * capacity <= MaxAllocSize.

Lemma heap_size_exact capacity :
  0 <= capacity -> offsetof_bh_nodes + sizeof_bh_node_type * capacity < 2 ^ 32 ->
  i32 (u64 (offsetof_bh_nodes + u64 (sizeof_bh_node_type * u64 capacity))) = i32 (offsetof_bh_nodes + sizeof_bh_node_type * capacity).
Proof.
  unfold offsetof_bh_nodes, sizeof_bh_node_type, u64. intros H0 H1. rewrite (Z.mod_small capacity), (Z.mod_small (8 * capacity)) by lia.
  by rewrite (Z.mod_small (32 + 8 * capacity)) by lia.
Qed.

Lemma allocate_queue {W} cmp capacity junk (w : W) :
  0 <= capacity -> heap_fits capacity ->
  exists h, binaryheap_allocate capacity junk w = (Ret h, w) /\ bh_space h = capacity /\ is_queue cmp h [].
Proof.
  unfold heap_fits, MaxAllocSize. intros Hc Hfit. unfold binaryheap_allocate, palloc_check. rewrite heap_size_exact by lia.
  unfold offsetof_bh_nodes, sizeof_bh_node_type in *. set (sz := 32 + 8 * capacity) in *.
  assert (i32 sz = sz) as -> by (unfold i32; rewrite Z.mod_small; lia).
  assert (u64 sz = sz) as -> by (unfold u64; rewrite Z.mod_small; lia).
  rewrite (proj2 (Z.ltb_ge MaxAllocSize sz)), (proj2 (Z.ltb_ge sz 32)) by (unfold MaxAllocSize; lia).
  assert ((sz - 32) / 8 = capacity) as -> by (unfold sz; replace (32 + 8 * capacity - 32) with (capacity * 8) by lia; by apply Z.div_mul).
  eexists. split; [done|]. split; [done|]. split; [split; [split; cbn|done|done]|].
  - lia.
  - lia.
  - rewrite length_fmap, length_seqZ. lia.
  - intros i Hi. cbn in Hi. lia.
Qed.

(** Up to the capacity at which the size in bytes no longer fits into 32 bits, one
    that is too large is refused. *)
Lemma allocate_refused {W} capacity junk (w : W) :
  0 <= capacity -> ~ heap_fits capacity -> offsetof_bh_nodes + sizeof_bh_node_type * capacity < 2 ^ 32 ->
  binaryheap_allocate capacity junk w = (Elog "invalid memory alloc request size", w).
Proof.
  unfold heap_fits. intros Hc Hfit Hmax. unfold binaryheap_allocate, palloc_check. rewrite heap_size_exact by lia.
  unfold offsetof_bh_nodes, sizeof_bh_node_type, MaxAllocSize in *. set (sz := 32 + 8 * capacity) in *.
  assert (0x3fffffff < u64 (i32 sz)) as Hbig by (unfold i32, u64; Z.to_euclidean_division_equations; lia).
  unfold bind at 1. by rewrite (proj2 (Z.ltb_lt _ _) Hbig).
Qed.

(** Beyond it the size wraps: a heap for 2^29 nodes has memory for none. *)
Example allocate_wraps :
  binaryheap_allocate (2 ^ 29) id tt = (Ret (mkHeap 0 (2 ^ 29) true []), tt) /\
  (binaryheap_add Z.sub 7 (mkHeap 0 (2 ^ 29) true [])).1 = UB "node out of range".
Proof. split; vm_compute; reflexivity. Qed.

(** The nodes [ds] are added in no order, then the heap is built. *)
Fixpoint add_all (ds : list Z) : ST binaryheap unit :=
  match ds with
  | [] => ret tt
  | d :: ds => binaryheap_add_unordered d ;; add_all ds
  end.

Lemma add_all_run ds : forall h s,
  heap_ok h -> contents h ≡ₚ s -> bh_size h + Z.of_nat (length ds) <= bh_space h ->
  exists h', add_all ds h = (Ret tt, h') /\ heap_ok h' /\ contents h' ≡ₚ ds ++ s.
Proof.
  induction ds as [|d ds IH]; intros h s Hok Hc Hlen; cbn [add_all]; [by exists h|].
  destruct (add_unordered_run h d s Hok Hc) as (h1 & Hr1 & Hok1 & Hc1 & Hs1 & Hsp1); [cbn in Hlen; lia|].
  destruct (IH h1 (d :: s) Hok1 Hc1) as (h2 & Hr2 & Hok2 & Hc2); [cbn in Hlen; lia|].
  exists h2. run Hr1. split_and!; [done|done|]. rewrite Hc2. cbn. symmetry. apply Permutation_middle.
Qed.

(** C36. A binary heap is a bounded priority queue, for any comparator that orders
    the nodes.  [binaryheap_allocate] gives an empty one if the memory for its
    capacity can be allocated (a size of at most [MaxAllocSize] bytes), and raises an
    error for any larger capacity whose size fits into 32 bits.
    [binaryheap_build] makes a queue of nodes that were added in any order.  Of a queue
    that is not empty [binaryheap_first] gives a node that no other node comes
    before; [binaryheap_remove_first] takes the same node out and
    [binaryheap_replace_first] puts another one in its place.  A node is added if
    there is room and refused with an error if not; [binaryheap_remove_node] takes
    out the node at any place.  Every operation returns, without an access outside of the nodes. *)
Theorem binaryheap_refines cmp `{!OrderCompare cmp} :
  (forall W (w : W) capacity junk ds, Z.of_nat (length ds) <= capacity -> heap_fits capacity ->
    exists h0 h, binaryheap_allocate capacity junk w = (Ret h0, w) /\ is_queue cmp h0 [] /\ bh_space h0 = capacity /\
      (add_all ds ;; binaryheap_build cmp) h0 = (Ret tt, h) /\ is_queue cmp h ds) /\
  (forall W (w : W) capacity junk, 0 <= capacity -> ~ heap_fits capacity ->
    offsetof_bh_nodes + sizeof_bh_node_type * capacity < 2 ^ 32 ->
    binaryheap_allocate capacity junk w = (Elog "invalid memory alloc request size", w)) /\
  forall h s, is_queue cmp h s ->
    (s <> [] -> exists d s' h', d :: s' ≡ₚ s /\ (forall y, y ∈ s -> 0 <= cmp d y) /\ binaryheap_first h = (Ret d, h) /\
      binaryheap_remove_first cmp h = (Ret d, h') /\ is_queue cmp h' s' /\
      forall e, exists h2, binaryheap_replace_first cmp e h = (Ret tt, h2) /\ is_queue cmp h2 (e :: s')) /\
    (forall d, binaryheap_add cmp d h = (Elog "out of binary heap slots", h) /\ Z.of_nat (length s) = bh_space h \/
      exists h', binaryheap_add cmp d h = (Ret tt, h') /\ is_queue cmp h' (d :: s) /\ Z.of_nat (length s) < bh_space h) /\
    (forall i, 0 <= i < Z.of_nat (length s) -> exists x s' h', lookupZ (bh_nodes h) i = Some x /\ x :: s' ≡ₚ s /\
      binaryheap_remove_node cmp i h = (Ret tt, h') /\ is_queue cmp h' s').
Proof.
  split; [|split; [intros; by apply allocate_refused|]].
  - intros W w capacity junk ds Hlen Hfit. destruct (allocate_queue cmp capacity junk w) as (h0 & Hr0 & Hsp & Hq0); [lia|done|].
    pose proof Hq0 as [Hh0 _]. destruct (Hh0) as [Hok _ Hc]. pose proof (holds_size _ _ Hh0) as Hn0. cbn in Hn0.
    destruct (add_all_run ds _ [] Hok Hc) as (h1 & Hr1 & Hok1 & Hc1); [lia|]. rewrite app_nil_r in Hc1.
    destruct (build_run cmp h1 ds Hok1 Hc1) as (h2 & Hr2 & Hh2 & _ & Hord). exists h0, h2. split_and!; try done; [by run Hr1|by split; auto].
  - intros h s [Hh Hord]. pose proof (holds_size _ _ Hh) as Hn. pose proof (hk_size _ (hd_ok _ _ Hh)) as Hsz. split_and!.
    + intros Hs. destruct (first_run cmp h s Hh Hs) as (d & Hf & Hd & _ & Hmax).
      destruct (remove_first_run cmp h s Hh Hs) as (d1 & s' & h' & Hr & Hd1 & Hp & Hh' & Ho').
      assert (d1 = d) as -> by congruence. exists d, s', h'. split_and!; try done; [by apply Hmax|split; auto|].
      intros e. destruct (replace_first_run cmp h s e Hh Hs) as (d2 & s2 & h2 & Hr2 & Hd2 & Hp2 & Hh2 & Ho2).
      assert (d2 = d) as -> by congruence. exists h2. split; [done|]. split; [|by auto].
      assert (s2 ≡ₚ s') as E by (apply (Permutation_cons_inv (a := d)); by rewrite Hp, Hp2).
      destruct Hh2 as [? ? Hc2]. split; try done. by rewrite Hc2, E.
    + intros d. destruct (Z.ltb_spec (bh_size h) (bh_space h)) as [Hlt|Hge].
      * right. destruct (add_run cmp h d s Hh Hlt) as (h' & Hr & Hh' & _ & Ho'). exists h'. split_and!; [done|split; auto|lia].
      * left. split; [by apply full_run|lia].
    + intros i Hi. destruct (remove_node_run cmp h s i _ Hh Hord) as (x & s' & h' & Hx & Hr & Hp & Hh' & Ho'); [lia|].
      exists x, s', h'. split_and!; try done. 
Qed.

(** Seven numbers, the largest first; then the next one. *)
#[export] Instance sub_order : OrderCompare Z.sub.
Proof. split; intros; lia. Qed.
Definition sample_heap : binaryheap := mkHeap 0 8 true (seqZ 0 8).

Lemma binaryheap_refines_witness :
  exists h s' h', binaryheap_allocate 8 id tt = (Ret sample_heap, tt) /\
    (add_all [3; 9; 4; 7; 1; 8; 2] ;; binaryheap_build Z.sub) sample_heap = (Ret tt, h) /\
    binaryheap_first h = (Ret 9, h) /\ binaryheap_remove_first Z.sub h = (Ret 9, h') /\ 9 :: s' ≡ₚ [3; 9; 4; 7; 1; 8; 2] /\
    is_queue Z.sub h' s' /\ (binaryheap_first h').1 = Ret 8.
Proof.
  destruct (binaryheap_refines Z.sub) as (Hbuild & _ & Hops).
  destruct (Hbuild unit tt 8 id [3; 9; 4; 7; 1; 8; 2]) as (h0 & h & Ha & _ & _ & Hr & Hq); [cbn; lia|vm_compute; discriminate|].
  assert (binaryheap_allocate 8 id tt = (Ret sample_heap, tt)) as Ha' by (vm_compute; reflexivity).
  assert (h0 = sample_heap) as -> by (rewrite Ha' in Ha; injection Ha; done).
  destruct (Hops h _ Hq) as [(d & s' & h' & Hp & _ & Hf & Hrm & Hq' & _) _]; [discriminate|].
  assert (h = ((add_all [3; 9; 4; 7; 1; 8; 2] ;; binaryheap_build Z.sub) sample_heap).2) as E by (rewrite Hr; reflexivity).
  assert (Ret d = Ret 9) as [= ->]. { transitivity (binaryheap_first h).1; [rewrite Hf; reflexivity|]. rewrite E. vm_compute. reflexivity. }
  assert ((binaryheap_first h').1 = (binaryheap_first (binaryheap_remove_first Z.sub h).2).1) as Hnext by (rewrite Hrm; reflexivity).
  exists h, s', h'. split; [exact Ha'|]. split; [exact Hr|]. split; [exact Hf|]. split; [exact Hrm|]. split; [exact Hp|]. split; [exact Hq'|].
  rewrite Hnext, E. vm_compute. reflexivity.
Defined.
