(* ===== verification/Shmem.v ===== *)
(** * Shared memory, atomic accesses and the buffer header lock

    The state every component works on: the buffer descriptors, the strategy
    block, the lookup table and the page images as shared memory, and the
    globals of one backend.  Every atomic access of the C code to a descriptor
    is preceded by an arbitrary action of other processes.  On top of that the
    file has the spinlock of the strategy block and the buffer header lock
    ([LockBufHdr], [UnlockBufHdr], [UnlockBufHdrExt], [WaitBufHdrUnlocked]). *)
From S2P Require Import Prelude BufState BufTag.

(** ** Buffer descriptors *)
Record BufferDesc := mkBufferDesc {
  tag : BufferTag;
  buf_id : Z;
  state : Z;
  wait_backend_pgprocno : Z;
  io_wref : option Z;
  lock_waiters : list Z
}.
Definition with_tag (v : BufferTag) (r : BufferDesc) : BufferDesc :=
  mkBufferDesc v (buf_id r) (state r) (wait_backend_pgprocno r) (io_wref r) (lock_waiters r).
Definition with_buf_id (v : Z) (r : BufferDesc) : BufferDesc :=
  mkBufferDesc (tag r) v (state r) (wait_backend_pgprocno r) (io_wref r) (lock_waiters r).
Definition with_state (v : Z) (r : BufferDesc) : BufferDesc :=
  mkBufferDesc (tag r) (buf_id r) v (wait_backend_pgprocno r) (io_wref r) (lock_waiters r).
Definition with_wait_backend_pgprocno (v : Z) (r : BufferDesc) : BufferDesc :=
  mkBufferDesc (tag r) (buf_id r) (state r) v (io_wref r) (lock_waiters r).
Definition with_io_wref (v : option Z) (r : BufferDesc) : BufferDesc :=
  mkBufferDesc (tag r) (buf_id r) (state r) (wait_backend_pgprocno r) v (lock_waiters r).
Definition with_lock_waiters (v : list Z) (r : BufferDesc) : BufferDesc :=
  mkBufferDesc (tag r) (buf_id r) (state r) (wait_backend_pgprocno r) (io_wref r) v.

(** ** The strategy control block *)
Inductive EvictionPolicy := EVICTION_CLOCKSWEEP | EVICTION_SIEVE | EVICTION_LFU.

Record BufferStrategyCommon := mkStrategyCommon {
  buffer_strategy_lock : option Z;
  active_policy : EvictionPolicy;
  completePasses : Z;
  numBufferAllocs : Z;
  bgwprocno : Z
}.
Definition with_buffer_strategy_lock (v : option Z) (r : BufferStrategyCommon) : BufferStrategyCommon :=
  mkStrategyCommon v (active_policy r) (completePasses r) (numBufferAllocs r) (bgwprocno r).
Definition with_active_policy (v : EvictionPolicy) (r : BufferStrategyCommon) : BufferStrategyCommon :=
  mkStrategyCommon (buffer_strategy_lock r) v (completePasses r) (numBufferAllocs r) (bgwprocno r).
Definition with_completePasses (v : Z) (r : BufferStrategyCommon) : BufferStrategyCommon :=
  mkStrategyCommon (buffer_strategy_lock r) (active_policy r) v (numBufferAllocs r) (bgwprocno r).
Definition with_numBufferAllocs (v : Z) (r : BufferStrategyCommon) : BufferStrategyCommon :=
  mkStrategyCommon (buffer_strategy_lock r) (active_policy r) (completePasses r) v (bgwprocno r).
Definition with_bgwprocno (v : Z) (r : BufferStrategyCommon) : BufferStrategyCommon :=
  mkStrategyCommon (buffer_strategy_lock r) (active_policy r) (completePasses r) (numBufferAllocs r) v.

(** ** Processes: the part of [PGPROC] the buffer manager uses *)
Inductive LWLockWaitState := LW_WS_NOT_WAITING | LW_WS_WAITING | LW_WS_PENDING_WAKEUP.
Inductive BufferLockMode :=
| BUFFER_LOCK_UNLOCK
| BUFFER_LOCK_SHARE
| BUFFER_LOCK_SHARE_EXCLUSIVE
| BUFFER_LOCK_EXCLUSIVE.
#[export] Instance BufferLockMode_eq_dec : EqDecision BufferLockMode.
Proof. solve_decision. Defined.
#[export] Instance LWLockWaitState_eq_dec : EqDecision LWLockWaitState.
Proof. solve_decision. Defined.

Inductive LWLockMode := LW_EXCLUSIVE | LW_SHARED.
#[export] Instance LWLockMode_eq_dec : EqDecision LWLockMode.
Proof. solve_decision. Defined.

Record PGPROC := mkPGPROC {
  lwWaiting : LWLockWaitState;
  lwWaitMode : BufferLockMode;
  sem : Z;
  procLatch : bool
}.
Definition with_lwWaiting (v : LWLockWaitState) (r : PGPROC) : PGPROC :=
  mkPGPROC v (lwWaitMode r) (sem r) (procLatch r).
Definition with_lwWaitMode (v : BufferLockMode) (r : PGPROC) : PGPROC :=
  mkPGPROC (lwWaiting r) v (sem r) (procLatch r).
Definition with_sem (v : Z) (r : PGPROC) : PGPROC :=
  mkPGPROC (lwWaiting r) (lwWaitMode r) v (procLatch r).
Definition with_procLatch (v : bool) (r : PGPROC) : PGPROC :=
  mkPGPROC (lwWaiting r) (lwWaitMode r) (sem r) v.

(** ** Files

    A fork of a relation is the list of its page images; a page image is a
    number, and 0 is the image of a zeroed page. *)
Definition Files : Type := gmap (RelFileLocator * Z) (list Z).

(** ** Shared memory

    [policy_mem] is the part of the strategy block behind
    [BufferStrategyCommon], as 32-bit words: the control structs and arrays of
    the four policies all start at its first word.  [BufferBlocks] and
    [smgr_disk] hold page images in memory and on disk, [wal_flushed] the position up to which the
    log is durable. *)
Record Shared := mkShared {
  BufferDescriptors : list BufferDesc;
  StrategyControl : BufferStrategyCommon;
  policy_mem : list Z;
  SharedBufHash : gmap BufferTag Z;
  allProcs : list PGPROC;
  BufferBlocks : list Z;
  smgr_disk : Files;
  wal_flushed : Z
}.
Definition with_BufferDescriptors (v : list BufferDesc) (r : Shared) : Shared :=
  mkShared v (StrategyControl r) (policy_mem r) (SharedBufHash r) (allProcs r) (BufferBlocks r) (smgr_disk r) (wal_flushed r).
Definition with_StrategyControl (v : BufferStrategyCommon) (r : Shared) : Shared :=
  mkShared (BufferDescriptors r) v (policy_mem r) (SharedBufHash r) (allProcs r) (BufferBlocks r) (smgr_disk r) (wal_flushed r).
Definition with_policy_mem (v : list Z) (r : Shared) : Shared :=
  mkShared (BufferDescriptors r) (StrategyControl r) v (SharedBufHash r) (allProcs r) (BufferBlocks r) (smgr_disk r) (wal_flushed r).
Definition with_SharedBufHash (v : gmap BufferTag Z) (r : Shared) : Shared :=
  mkShared (BufferDescriptors r) (StrategyControl r) (policy_mem r) v (allProcs r) (BufferBlocks r) (smgr_disk r) (wal_flushed r).
Definition with_allProcs (v : list PGPROC) (r : Shared) : Shared :=
  mkShared (BufferDescriptors r) (StrategyControl r) (policy_mem r) (SharedBufHash r) v (BufferBlocks r) (smgr_disk r) (wal_flushed r).
Definition with_BufferBlocks (v : list Z) (r : Shared) : Shared :=
  mkShared (BufferDescriptors r) (StrategyControl r) (policy_mem r) (SharedBufHash r) (allProcs r) v (smgr_disk r) (wal_flushed r).
Definition with_smgr_disk (v : Files) (r : Shared) : Shared :=
  mkShared (BufferDescriptors r) (StrategyControl r) (policy_mem r) (SharedBufHash r) (allProcs r) (BufferBlocks r) v (wal_flushed r).
Definition with_wal_flushed (v : Z) (r : Shared) : Shared :=
  mkShared (BufferDescriptors r) (StrategyControl r) (policy_mem r) (SharedBufHash r) (allProcs r) (BufferBlocks r) (smgr_disk r) v.

(** ** Process-local state *)
Record PrivateRefCountData := mkRefData {
  data_refcount : Z;
  data_lockmode : BufferLockMode
}.
Record PrivateRefCountEntry := mkRefEntry {
  entry_buffer : Z;
  entry_data : PrivateRefCountData
}.

Inductive BufferAccessStrategyType := BAS_NORMAL | BAS_BULKREAD | BAS_BULKWRITE | BAS_VACUUM.
#[export] Instance BufferAccessStrategyType_eq_dec : EqDecision BufferAccessStrategyType.
Proof. solve_decision. Defined.

Record BufferAccessStrategyData := mkRing {
  btype : BufferAccessStrategyType;
  nbuffers : Z;
  current : Z;
  buffers : list Z
}.
Definition with_btype (v : BufferAccessStrategyType) (r : BufferAccessStrategyData) : BufferAccessStrategyData :=
  mkRing v (nbuffers r) (current r) (buffers r).
Definition with_nbuffers (v : Z) (r : BufferAccessStrategyData) : BufferAccessStrategyData :=
  mkRing (btype r) v (current r) (buffers r).
Definition with_current (v : Z) (r : BufferAccessStrategyData) : BufferAccessStrategyData :=
  mkRing (btype r) (nbuffers r) v (buffers r).
Definition with_buffers (v : list Z) (r : BufferAccessStrategyData) : BufferAccessStrategyData :=
  mkRing (btype r) (nbuffers r) (current r) v.

(** The four tables of policy entry points; a pointer to one of them is its name. *)
Inductive EvictionVtablePtr := ClockSweepVtable | SieveVtable | LFUVtable | LRUVtable.
#[export] Instance EvictionVtablePtr_eq_dec : EqDecision EvictionVtablePtr.
Proof. solve_decision. Defined.

(** The hits and misses that [AtomicStatsPointer] points to. *)
Record AtomicStats := mkAtomicStats {
  atomic_cache_hits : Z;
  atomic_cache_misses : Z
}.
(** Counters of [pgBufferUsage] and of the vacuum cost limit. *)
Record Accounting := mkAccounting {
  shared_blks_hit : Z;
  shared_blks_read : Z;
  shared_blks_dirtied : Z;
  shared_blks_written : Z;
  local_blks_hit : Z;
  local_blks_read : Z;
  local_blks_dirtied : Z;
  local_blks_written : Z;
  VacuumCostActive : bool;
  VacuumCostBalance : Z;
  VacuumCostPageHit : Z;
  VacuumCostPageMiss : Z;
  VacuumCostPageDirty : Z;
  AtomicStatsPointer : option AtomicStats
}.
Definition with_shared_blks_hit (v : Z) (r : Accounting) : Accounting :=
  mkAccounting v (shared_blks_read r) (shared_blks_dirtied r) (shared_blks_written r) (local_blks_hit r) (local_blks_read r) (local_blks_dirtied r) (local_blks_written r) (VacuumCostActive r) (VacuumCostBalance r) (VacuumCostPageHit r) (VacuumCostPageMiss r) (VacuumCostPageDirty r) (AtomicStatsPointer r).
Definition with_shared_blks_read (v : Z) (r : Accounting) : Accounting :=
  mkAccounting (shared_blks_hit r) v (shared_blks_dirtied r) (shared_blks_written r) (local_blks_hit r) (local_blks_read r) (local_blks_dirtied r) (local_blks_written r) (VacuumCostActive r) (VacuumCostBalance r) (VacuumCostPageHit r) (VacuumCostPageMiss r) (VacuumCostPageDirty r) (AtomicStatsPointer r).
Definition with_shared_blks_dirtied (v : Z) (r : Accounting) : Accounting :=
  mkAccounting (shared_blks_hit r) (shared_blks_read r) v (shared_blks_written r) (local_blks_hit r) (local_blks_read r) (local_blks_dirtied r) (local_blks_written r) (VacuumCostActive r) (VacuumCostBalance r) (VacuumCostPageHit r) (VacuumCostPageMiss r) (VacuumCostPageDirty r) (AtomicStatsPointer r).
Definition with_shared_blks_written (v : Z) (r : Accounting) : Accounting :=
  mkAccounting (shared_blks_hit r) (shared_blks_read r) (shared_blks_dirtied r) v (local_blks_hit r) (local_blks_read r) (local_blks_dirtied r) (local_blks_written r) (VacuumCostActive r) (VacuumCostBalance r) (VacuumCostPageHit r) (VacuumCostPageMiss r) (VacuumCostPageDirty r) (AtomicStatsPointer r).
Definition with_local_blks_hit (v : Z) (r : Accounting) : Accounting :=
  mkAccounting (shared_blks_hit r) (shared_blks_read r) (shared_blks_dirtied r) (shared_blks_written r) v (local_blks_read r) (local_blks_dirtied r) (local_blks_written r) (VacuumCostActive r) (VacuumCostBalance r) (VacuumCostPageHit r) (VacuumCostPageMiss r) (VacuumCostPageDirty r) (AtomicStatsPointer r).
Definition with_local_blks_read (v : Z) (r : Accounting) : Accounting :=
  mkAccounting (shared_blks_hit r) (shared_blks_read r) (shared_blks_dirtied r) (shared_blks_written r) (local_blks_hit r) v (local_blks_dirtied r) (local_blks_written r) (VacuumCostActive r) (VacuumCostBalance r) (VacuumCostPageHit r) (VacuumCostPageMiss r) (VacuumCostPageDirty r) (AtomicStatsPointer r).
Definition with_local_blks_dirtied (v : Z) (r : Accounting) : Accounting :=
  mkAccounting (shared_blks_hit r) (shared_blks_read r) (shared_blks_dirtied r) (shared_blks_written r) (local_blks_hit r) (local_blks_read r) v (local_blks_written r) (VacuumCostActive r) (VacuumCostBalance r) (VacuumCostPageHit r) (VacuumCostPageMiss r) (VacuumCostPageDirty r) (AtomicStatsPointer r).
Definition with_local_blks_written (v : Z) (r : Accounting) : Accounting :=
  mkAccounting (shared_blks_hit r) (shared_blks_read r) (shared_blks_dirtied r) (shared_blks_written r) (local_blks_hit r) (local_blks_read r) (local_blks_dirtied r) v (VacuumCostActive r) (VacuumCostBalance r) (VacuumCostPageHit r) (VacuumCostPageMiss r) (VacuumCostPageDirty r) (AtomicStatsPointer r).
Definition with_VacuumCostActive (v : bool) (r : Accounting) : Accounting :=
  mkAccounting (shared_blks_hit r) (shared_blks_read r) (shared_blks_dirtied r) (shared_blks_written r) (local_blks_hit r) (local_blks_read r) (local_blks_dirtied r) (local_blks_written r) v (VacuumCostBalance r) (VacuumCostPageHit r) (VacuumCostPageMiss r) (VacuumCostPageDirty r) (AtomicStatsPointer r).
Definition with_VacuumCostBalance (v : Z) (r : Accounting) : Accounting :=
  mkAccounting (shared_blks_hit r) (shared_blks_read r) (shared_blks_dirtied r) (shared_blks_written r) (local_blks_hit r) (local_blks_read r) (local_blks_dirtied r) (local_blks_written r) (VacuumCostActive r) v (VacuumCostPageHit r) (VacuumCostPageMiss r) (VacuumCostPageDirty r) (AtomicStatsPointer r).
Definition with_VacuumCostPageHit (v : Z) (r : Accounting) : Accounting :=
  mkAccounting (shared_blks_hit r) (shared_blks_read r) (shared_blks_dirtied r) (shared_blks_written r) (local_blks_hit r) (local_blks_read r) (local_blks_dirtied r) (local_blks_written r) (VacuumCostActive r) (VacuumCostBalance r) v (VacuumCostPageMiss r) (VacuumCostPageDirty r) (AtomicStatsPointer r).
Definition with_VacuumCostPageMiss (v : Z) (r : Accounting) : Accounting :=
  mkAccounting (shared_blks_hit r) (shared_blks_read r) (shared_blks_dirtied r) (shared_blks_written r) (local_blks_hit r) (local_blks_read r) (local_blks_dirtied r) (local_blks_written r) (VacuumCostActive r) (VacuumCostBalance r) (VacuumCostPageHit r) v (VacuumCostPageDirty r) (AtomicStatsPointer r).
Definition with_VacuumCostPageDirty (v : Z) (r : Accounting) : Accounting :=
  mkAccounting (shared_blks_hit r) (shared_blks_read r) (shared_blks_dirtied r) (shared_blks_written r) (local_blks_hit r) (local_blks_read r) (local_blks_dirtied r) (local_blks_written r) (VacuumCostActive r) (VacuumCostBalance r) (VacuumCostPageHit r) (VacuumCostPageMiss r) v (AtomicStatsPointer r).
Definition with_AtomicStatsPointer (v : option AtomicStats) (r : Accounting) : Accounting :=
  mkAccounting (shared_blks_hit r) (shared_blks_read r) (shared_blks_dirtied r) (shared_blks_written r) (local_blks_hit r) (local_blks_read r) (local_blks_dirtied r) (local_blks_written r) (VacuumCostActive r) (VacuumCostBalance r) (VacuumCostPageHit r) (VacuumCostPageMiss r) (VacuumCostPageDirty r) v.

(** The private buffers of temporary tables ([localbuf.c]).  A block pointer is
    the number of an allocation of [LocalBufferContext] and an index into it;
    [local_chunks] has the size of each allocation, [local_pages] the page
    images in them, [temp_files] the files of the temporary relations; the three
    counters are the static variables of [GetLocalBufferStorage]. *)
Record LocalBuffers := mkLocalBuffers {
  num_temp_buffers : Z;
  NLocBuffer : Z;
  LocalBufferDescriptors : list BufferDesc;
  LocalBufferBlockPointers : list (option (Z * Z));
  LocalRefCount : list Z;
  nextFreeLocalBufId : Z;
  LocalBufHash : option (gmap BufferTag Z);
  NLocalPinnedBuffers : Z;
  next_buf_in_block : Z;
  num_bufs_in_block : Z;
  total_bufs_allocated : Z;
  local_chunks : list Z;
  local_pages : gmap (Z * Z) Z;
  temp_files : Files
}.
Definition with_num_temp_buffers (v : Z) (r : LocalBuffers) : LocalBuffers :=
  mkLocalBuffers v (NLocBuffer r) (LocalBufferDescriptors r) (LocalBufferBlockPointers r) (LocalRefCount r) (nextFreeLocalBufId r) (LocalBufHash r) (NLocalPinnedBuffers r) (next_buf_in_block r) (num_bufs_in_block r) (total_bufs_allocated r) (local_chunks r) (local_pages r) (temp_files r).
Definition with_NLocBuffer (v : Z) (r : LocalBuffers) : LocalBuffers :=
  mkLocalBuffers (num_temp_buffers r) v (LocalBufferDescriptors r) (LocalBufferBlockPointers r) (LocalRefCount r) (nextFreeLocalBufId r) (LocalBufHash r) (NLocalPinnedBuffers r) (next_buf_in_block r) (num_bufs_in_block r) (total_bufs_allocated r) (local_chunks r) (local_pages r) (temp_files r).
Definition with_LocalBufferDescriptors (v : list BufferDesc) (r : LocalBuffers) : LocalBuffers :=
  mkLocalBuffers (num_temp_buffers r) (NLocBuffer r) v (LocalBufferBlockPointers r) (LocalRefCount r) (nextFreeLocalBufId r) (LocalBufHash r) (NLocalPinnedBuffers r) (next_buf_in_block r) (num_bufs_in_block r) (total_bufs_allocated r) (local_chunks r) (local_pages r) (temp_files r).
Definition with_LocalBufferBlockPointers (v : list (option (Z * Z))) (r : LocalBuffers) : LocalBuffers :=
  mkLocalBuffers (num_temp_buffers r) (NLocBuffer r) (LocalBufferDescriptors r) v (LocalRefCount r) (nextFreeLocalBufId r) (LocalBufHash r) (NLocalPinnedBuffers r) (next_buf_in_block r) (num_bufs_in_block r) (total_bufs_allocated r) (local_chunks r) (local_pages r) (temp_files r).
Definition with_LocalRefCount (v : list Z) (r : LocalBuffers) : LocalBuffers :=
  mkLocalBuffers (num_temp_buffers r) (NLocBuffer r) (LocalBufferDescriptors r) (LocalBufferBlockPointers r) v (nextFreeLocalBufId r) (LocalBufHash r) (NLocalPinnedBuffers r) (next_buf_in_block r) (num_bufs_in_block r) (total_bufs_allocated r) (local_chunks r) (local_pages r) (temp_files r).
Definition with_nextFreeLocalBufId (v : Z) (r : LocalBuffers) : LocalBuffers :=
  mkLocalBuffers (num_temp_buffers r) (NLocBuffer r) (LocalBufferDescriptors r) (LocalBufferBlockPointers r) (LocalRefCount r) v (LocalBufHash r) (NLocalPinnedBuffers r) (next_buf_in_block r) (num_bufs_in_block r) (total_bufs_allocated r) (local_chunks r) (local_pages r) (temp_files r).
Definition with_LocalBufHash (v : option (gmap BufferTag Z)) (r : LocalBuffers) : LocalBuffers :=
  mkLocalBuffers (num_temp_buffers r) (NLocBuffer r) (LocalBufferDescriptors r) (LocalBufferBlockPointers r) (LocalRefCount r) (nextFreeLocalBufId r) v (NLocalPinnedBuffers r) (next_buf_in_block r) (num_bufs_in_block r) (total_bufs_allocated r) (local_chunks r) (local_pages r) (temp_files r).
Definition with_NLocalPinnedBuffers (v : Z) (r : LocalBuffers) : LocalBuffers :=
  mkLocalBuffers (num_temp_buffers r) (NLocBuffer r) (LocalBufferDescriptors r) (LocalBufferBlockPointers r) (LocalRefCount r) (nextFreeLocalBufId r) (LocalBufHash r) v (next_buf_in_block r) (num_bufs_in_block r) (total_bufs_allocated r) (local_chunks r) (local_pages r) (temp_files r).
Definition with_next_buf_in_block (v : Z) (r : LocalBuffers) : LocalBuffers :=
  mkLocalBuffers (num_temp_buffers r) (NLocBuffer r) (LocalBufferDescriptors r) (LocalBufferBlockPointers r) (LocalRefCount r) (nextFreeLocalBufId r) (LocalBufHash r) (NLocalPinnedBuffers r) v (num_bufs_in_block r) (total_bufs_allocated r) (local_chunks r) (local_pages r) (temp_files r).
Definition with_num_bufs_in_block (v : Z) (r : LocalBuffers) : LocalBuffers :=
  mkLocalBuffers (num_temp_buffers r) (NLocBuffer r) (LocalBufferDescriptors r) (LocalBufferBlockPointers r) (LocalRefCount r) (nextFreeLocalBufId r) (LocalBufHash r) (NLocalPinnedBuffers r) (next_buf_in_block r) v (total_bufs_allocated r) (local_chunks r) (local_pages r) (temp_files r).
Definition with_total_bufs_allocated (v : Z) (r : LocalBuffers) : LocalBuffers :=
  mkLocalBuffers (num_temp_buffers r) (NLocBuffer r) (LocalBufferDescriptors r) (LocalBufferBlockPointers r) (LocalRefCount r) (nextFreeLocalBufId r) (LocalBufHash r) (NLocalPinnedBuffers r) (next_buf_in_block r) (num_bufs_in_block r) v (local_chunks r) (local_pages r) (temp_files r).
Definition with_local_chunks (v : list Z) (r : LocalBuffers) : LocalBuffers :=
  mkLocalBuffers (num_temp_buffers r) (NLocBuffer r) (LocalBufferDescriptors r) (LocalBufferBlockPointers r) (LocalRefCount r) (nextFreeLocalBufId r) (LocalBufHash r) (NLocalPinnedBuffers r) (next_buf_in_block r) (num_bufs_in_block r) (total_bufs_allocated r) v (local_pages r) (temp_files r).
Definition with_local_pages (v : gmap (Z * Z) Z) (r : LocalBuffers) : LocalBuffers :=
  mkLocalBuffers (num_temp_buffers r) (NLocBuffer r) (LocalBufferDescriptors r) (LocalBufferBlockPointers r) (LocalRefCount r) (nextFreeLocalBufId r) (LocalBufHash r) (NLocalPinnedBuffers r) (next_buf_in_block r) (num_bufs_in_block r) (total_bufs_allocated r) (local_chunks r) v (temp_files r).
Definition with_temp_files (v : Files) (r : LocalBuffers) : LocalBuffers :=
  mkLocalBuffers (num_temp_buffers r) (NLocBuffer r) (LocalBufferDescriptors r) (LocalBufferBlockPointers r) (LocalRefCount r) (nextFreeLocalBufId r) (LocalBufHash r) (NLocalPinnedBuffers r) (next_buf_in_block r) (num_bufs_in_block r) (total_bufs_allocated r) (local_chunks r) (local_pages r) v.

(** A list of blocks whose write-back will be requested; the limit is 0 if
    none is to be requested. *)
Record WritebackContext := mkWritebackContext {
  max_pending : Z;
  pending_writebacks : list BufferTag
}.
Definition with_max_pending (v : Z) (r : WritebackContext) : WritebackContext :=
  mkWritebackContext v (pending_writebacks r).
Definition with_pending_writebacks (v : list BufferTag) (r : WritebackContext) : WritebackContext :=
  mkWritebackContext (max_pending r) v.

(** The globals of a backend.  [smgr_faults] says which of the next calls into
    the storage manager fail. *)
Record Backend := mkBackend {
  NBuffers : Z;
  ActiveEviction : option EvictionVtablePtr;
  MyProcNumber : Z;
  gas : nat;
  PrivateRefCountArrayKeys : list Z;
  PrivateRefCountArray : list PrivateRefCountEntry;
  PrivateRefCountHash : gmap Z PrivateRefCountData;
  PrivateRefCountOverflowed : Z;
  PrivateRefCountClock : Z;
  ReservedRefCountSlot : Z;
  PrivateRefCountEntryLast : Z;
  owned_pins : list Z;
  owned_ios : list Z;
  rings : gmap Z BufferAccessStrategyData;
  held_lwlocks : list (Z * LWLockMode);
  MaxProportionalPins : Z;
  PinCountWaitBuf : option Z;
  InterruptHoldoffCount : Z;
  IsParallelWorker : bool;
  accounting : Accounting;
  smgr_faults : list bool;
  local : LocalBuffers;
  BackendWritebackContext : WritebackContext;
  wb_context : WritebackContext
}.
Definition with_NBuffers (v : Z) (r : Backend) : Backend :=
  mkBackend v (ActiveEviction r) (MyProcNumber r) (gas r) (PrivateRefCountArrayKeys r) (PrivateRefCountArray r) (PrivateRefCountHash r) (PrivateRefCountOverflowed r) (PrivateRefCountClock r) (ReservedRefCountSlot r) (PrivateRefCountEntryLast r) (owned_pins r) (owned_ios r) (rings r) (held_lwlocks r) (MaxProportionalPins r) (PinCountWaitBuf r) (InterruptHoldoffCount r) (IsParallelWorker r) (accounting r) (smgr_faults r) (local r) (BackendWritebackContext r) (wb_context r).
Definition with_ActiveEviction (v : option EvictionVtablePtr) (r : Backend) : Backend :=
  mkBackend (NBuffers r) v (MyProcNumber r) (gas r) (PrivateRefCountArrayKeys r) (PrivateRefCountArray r) (PrivateRefCountHash r) (PrivateRefCountOverflowed r) (PrivateRefCountClock r) (ReservedRefCountSlot r) (PrivateRefCountEntryLast r) (owned_pins r) (owned_ios r) (rings r) (held_lwlocks r) (MaxProportionalPins r) (PinCountWaitBuf r) (InterruptHoldoffCount r) (IsParallelWorker r) (accounting r) (smgr_faults r) (local r) (BackendWritebackContext r) (wb_context r).
Definition with_MyProcNumber (v : Z) (r : Backend) : Backend :=
  mkBackend (NBuffers r) (ActiveEviction r) v (gas r) (PrivateRefCountArrayKeys r) (PrivateRefCountArray r) (PrivateRefCountHash r) (PrivateRefCountOverflowed r) (PrivateRefCountClock r) (ReservedRefCountSlot r) (PrivateRefCountEntryLast r) (owned_pins r) (owned_ios r) (rings r) (held_lwlocks r) (MaxProportionalPins r) (PinCountWaitBuf r) (InterruptHoldoffCount r) (IsParallelWorker r) (accounting r) (smgr_faults r) (local r) (BackendWritebackContext r) (wb_context r).
Definition with_gas (v : nat) (r : Backend) : Backend :=
  mkBackend (NBuffers r) (ActiveEviction r) (MyProcNumber r) v (PrivateRefCountArrayKeys r) (PrivateRefCountArray r) (PrivateRefCountHash r) (PrivateRefCountOverflowed r) (PrivateRefCountClock r) (ReservedRefCountSlot r) (PrivateRefCountEntryLast r) (owned_pins r) (owned_ios r) (rings r) (held_lwlocks r) (MaxProportionalPins r) (PinCountWaitBuf r) (InterruptHoldoffCount r) (IsParallelWorker r) (accounting r) (smgr_faults r) (local r) (BackendWritebackContext r) (wb_context r).
Definition with_PrivateRefCountArrayKeys (v : list Z) (r : Backend) : Backend :=
  mkBackend (NBuffers r) (ActiveEviction r) (MyProcNumber r) (gas r) v (PrivateRefCountArray r) (PrivateRefCountHash r) (PrivateRefCountOverflowed r) (PrivateRefCountClock r) (ReservedRefCountSlot r) (PrivateRefCountEntryLast r) (owned_pins r) (owned_ios r) (rings r) (held_lwlocks r) (MaxProportionalPins r) (PinCountWaitBuf r) (InterruptHoldoffCount r) (IsParallelWorker r) (accounting r) (smgr_faults r) (local r) (BackendWritebackContext r) (wb_context r).
Definition with_PrivateRefCountArray (v : list PrivateRefCountEntry) (r : Backend) : Backend :=
  mkBackend (NBuffers r) (ActiveEviction r) (MyProcNumber r) (gas r) (PrivateRefCountArrayKeys r) v (PrivateRefCountHash r) (PrivateRefCountOverflowed r) (PrivateRefCountClock r) (ReservedRefCountSlot r) (PrivateRefCountEntryLast r) (owned_pins r) (owned_ios r) (rings r) (held_lwlocks r) (MaxProportionalPins r) (PinCountWaitBuf r) (InterruptHoldoffCount r) (IsParallelWorker r) (accounting r) (smgr_faults r) (local r) (BackendWritebackContext r) (wb_context r).
Definition with_PrivateRefCountHash (v : gmap Z PrivateRefCountData) (r : Backend) : Backend :=
  mkBackend (NBuffers r) (ActiveEviction r) (MyProcNumber r) (gas r) (PrivateRefCountArrayKeys r) (PrivateRefCountArray r) v (PrivateRefCountOverflowed r) (PrivateRefCountClock r) (ReservedRefCountSlot r) (PrivateRefCountEntryLast r) (owned_pins r) (owned_ios r) (rings r) (held_lwlocks r) (MaxProportionalPins r) (PinCountWaitBuf r) (InterruptHoldoffCount r) (IsParallelWorker r) (accounting r) (smgr_faults r) (local r) (BackendWritebackContext r) (wb_context r).
Definition with_PrivateRefCountOverflowed (v : Z) (r : Backend) : Backend :=
  mkBackend (NBuffers r) (ActiveEviction r) (MyProcNumber r) (gas r) (PrivateRefCountArrayKeys r) (PrivateRefCountArray r) (PrivateRefCountHash r) v (PrivateRefCountClock r) (ReservedRefCountSlot r) (PrivateRefCountEntryLast r) (owned_pins r) (owned_ios r) (rings r) (held_lwlocks r) (MaxProportionalPins r) (PinCountWaitBuf r) (InterruptHoldoffCount r) (IsParallelWorker r) (accounting r) (smgr_faults r) (local r) (BackendWritebackContext r) (wb_context r).
Definition with_PrivateRefCountClock (v : Z) (r : Backend) : Backend :=
  mkBackend (NBuffers r) (ActiveEviction r) (MyProcNumber r) (gas r) (PrivateRefCountArrayKeys r) (PrivateRefCountArray r) (PrivateRefCountHash r) (PrivateRefCountOverflowed r) v (ReservedRefCountSlot r) (PrivateRefCountEntryLast r) (owned_pins r) (owned_ios r) (rings r) (held_lwlocks r) (MaxProportionalPins r) (PinCountWaitBuf r) (InterruptHoldoffCount r) (IsParallelWorker r) (accounting r) (smgr_faults r) (local r) (BackendWritebackContext r) (wb_context r).
Definition with_ReservedRefCountSlot (v : Z) (r : Backend) : Backend :=
  mkBackend (NBuffers r) (ActiveEviction r) (MyProcNumber r) (gas r) (PrivateRefCountArrayKeys r) (PrivateRefCountArray r) (PrivateRefCountHash r) (PrivateRefCountOverflowed r) (PrivateRefCountClock r) v (PrivateRefCountEntryLast r) (owned_pins r) (owned_ios r) (rings r) (held_lwlocks r) (MaxProportionalPins r) (PinCountWaitBuf r) (InterruptHoldoffCount r) (IsParallelWorker r) (accounting r) (smgr_faults r) (local r) (BackendWritebackContext r) (wb_context r).
Definition with_PrivateRefCountEntryLast (v : Z) (r : Backend) : Backend :=
  mkBackend (NBuffers r) (ActiveEviction r) (MyProcNumber r) (gas r) (PrivateRefCountArrayKeys r) (PrivateRefCountArray r) (PrivateRefCountHash r) (PrivateRefCountOverflowed r) (PrivateRefCountClock r) (ReservedRefCountSlot r) v (owned_pins r) (owned_ios r) (rings r) (held_lwlocks r) (MaxProportionalPins r) (PinCountWaitBuf r) (InterruptHoldoffCount r) (IsParallelWorker r) (accounting r) (smgr_faults r) (local r) (BackendWritebackContext r) (wb_context r).
Definition with_owned_pins (v : list Z) (r : Backend) : Backend :=
  mkBackend (NBuffers r) (ActiveEviction r) (MyProcNumber r) (gas r) (PrivateRefCountArrayKeys r) (PrivateRefCountArray r) (PrivateRefCountHash r) (PrivateRefCountOverflowed r) (PrivateRefCountClock r) (ReservedRefCountSlot r) (PrivateRefCountEntryLast r) v (owned_ios r) (rings r) (held_lwlocks r) (MaxProportionalPins r) (PinCountWaitBuf r) (InterruptHoldoffCount r) (IsParallelWorker r) (accounting r) (smgr_faults r) (local r) (BackendWritebackContext r) (wb_context r).
Definition with_owned_ios (v : list Z) (r : Backend) : Backend :=
  mkBackend (NBuffers r) (ActiveEviction r) (MyProcNumber r) (gas r) (PrivateRefCountArrayKeys r) (PrivateRefCountArray r) (PrivateRefCountHash r) (PrivateRefCountOverflowed r) (PrivateRefCountClock r) (ReservedRefCountSlot r) (PrivateRefCountEntryLast r) (owned_pins r) v (rings r) (held_lwlocks r) (MaxProportionalPins r) (PinCountWaitBuf r) (InterruptHoldoffCount r) (IsParallelWorker r) (accounting r) (smgr_faults r) (local r) (BackendWritebackContext r) (wb_context r).
Definition with_rings (v : gmap Z BufferAccessStrategyData) (r : Backend) : Backend :=
  mkBackend (NBuffers r) (ActiveEviction r) (MyProcNumber r) (gas r) (PrivateRefCountArrayKeys r) (PrivateRefCountArray r) (PrivateRefCountHash r) (PrivateRefCountOverflowed r) (PrivateRefCountClock r) (ReservedRefCountSlot r) (PrivateRefCountEntryLast r) (owned_pins r) (owned_ios r) v (held_lwlocks r) (MaxProportionalPins r) (PinCountWaitBuf r) (InterruptHoldoffCount r) (IsParallelWorker r) (accounting r) (smgr_faults r) (local r) (BackendWritebackContext r) (wb_context r).
Definition with_held_lwlocks (v : list (Z * LWLockMode)) (r : Backend) : Backend :=
  mkBackend (NBuffers r) (ActiveEviction r) (MyProcNumber r) (gas r) (PrivateRefCountArrayKeys r) (PrivateRefCountArray r) (PrivateRefCountHash r) (PrivateRefCountOverflowed r) (PrivateRefCountClock r) (ReservedRefCountSlot r) (PrivateRefCountEntryLast r) (owned_pins r) (owned_ios r) (rings r) v (MaxProportionalPins r) (PinCountWaitBuf r) (InterruptHoldoffCount r) (IsParallelWorker r) (accounting r) (smgr_faults r) (local r) (BackendWritebackContext r) (wb_context r).
Definition with_MaxProportionalPins (v : Z) (r : Backend) : Backend :=
  mkBackend (NBuffers r) (ActiveEviction r) (MyProcNumber r) (gas r) (PrivateRefCountArrayKeys r) (PrivateRefCountArray r) (PrivateRefCountHash r) (PrivateRefCountOverflowed r) (PrivateRefCountClock r) (ReservedRefCountSlot r) (PrivateRefCountEntryLast r) (owned_pins r) (owned_ios r) (rings r) (held_lwlocks r) v (PinCountWaitBuf r) (InterruptHoldoffCount r) (IsParallelWorker r) (accounting r) (smgr_faults r) (local r) (BackendWritebackContext r) (wb_context r).
Definition with_PinCountWaitBuf (v : option Z) (r : Backend) : Backend :=
  mkBackend (NBuffers r) (ActiveEviction r) (MyProcNumber r) (gas r) (PrivateRefCountArrayKeys r) (PrivateRefCountArray r) (PrivateRefCountHash r) (PrivateRefCountOverflowed r) (PrivateRefCountClock r) (ReservedRefCountSlot r) (PrivateRefCountEntryLast r) (owned_pins r) (owned_ios r) (rings r) (held_lwlocks r) (MaxProportionalPins r) v (InterruptHoldoffCount r) (IsParallelWorker r) (accounting r) (smgr_faults r) (local r) (BackendWritebackContext r) (wb_context r).
Definition with_InterruptHoldoffCount (v : Z) (r : Backend) : Backend :=
  mkBackend (NBuffers r) (ActiveEviction r) (MyProcNumber r) (gas r) (PrivateRefCountArrayKeys r) (PrivateRefCountArray r) (PrivateRefCountHash r) (PrivateRefCountOverflowed r) (PrivateRefCountClock r) (ReservedRefCountSlot r) (PrivateRefCountEntryLast r) (owned_pins r) (owned_ios r) (rings r) (held_lwlocks r) (MaxProportionalPins r) (PinCountWaitBuf r) v (IsParallelWorker r) (accounting r) (smgr_faults r) (local r) (BackendWritebackContext r) (wb_context r).
Definition with_IsParallelWorker (v : bool) (r : Backend) : Backend :=
  mkBackend (NBuffers r) (ActiveEviction r) (MyProcNumber r) (gas r) (PrivateRefCountArrayKeys r) (PrivateRefCountArray r) (PrivateRefCountHash r) (PrivateRefCountOverflowed r) (PrivateRefCountClock r) (ReservedRefCountSlot r) (PrivateRefCountEntryLast r) (owned_pins r) (owned_ios r) (rings r) (held_lwlocks r) (MaxProportionalPins r) (PinCountWaitBuf r) (InterruptHoldoffCount r) v (accounting r) (smgr_faults r) (local r) (BackendWritebackContext r) (wb_context r).
Definition with_accounting (v : Accounting) (r : Backend) : Backend :=
  mkBackend (NBuffers r) (ActiveEviction r) (MyProcNumber r) (gas r) (PrivateRefCountArrayKeys r) (PrivateRefCountArray r) (PrivateRefCountHash r) (PrivateRefCountOverflowed r) (PrivateRefCountClock r) (ReservedRefCountSlot r) (PrivateRefCountEntryLast r) (owned_pins r) (owned_ios r) (rings r) (held_lwlocks r) (MaxProportionalPins r) (PinCountWaitBuf r) (InterruptHoldoffCount r) (IsParallelWorker r) v (smgr_faults r) (local r) (BackendWritebackContext r) (wb_context r).
Definition with_smgr_faults (v : list bool) (r : Backend) : Backend :=
  mkBackend (NBuffers r) (ActiveEviction r) (MyProcNumber r) (gas r) (PrivateRefCountArrayKeys r) (PrivateRefCountArray r) (PrivateRefCountHash r) (PrivateRefCountOverflowed r) (PrivateRefCountClock r) (ReservedRefCountSlot r) (PrivateRefCountEntryLast r) (owned_pins r) (owned_ios r) (rings r) (held_lwlocks r) (MaxProportionalPins r) (PinCountWaitBuf r) (InterruptHoldoffCount r) (IsParallelWorker r) (accounting r) v (local r) (BackendWritebackContext r) (wb_context r).
Definition with_local (v : LocalBuffers) (r : Backend) : Backend :=
  mkBackend (NBuffers r) (ActiveEviction r) (MyProcNumber r) (gas r) (PrivateRefCountArrayKeys r) (PrivateRefCountArray r) (PrivateRefCountHash r) (PrivateRefCountOverflowed r) (PrivateRefCountClock r) (ReservedRefCountSlot r) (PrivateRefCountEntryLast r) (owned_pins r) (owned_ios r) (rings r) (held_lwlocks r) (MaxProportionalPins r) (PinCountWaitBuf r) (InterruptHoldoffCount r) (IsParallelWorker r) (accounting r) (smgr_faults r) v (BackendWritebackContext r) (wb_context r).
Definition with_BackendWritebackContext (v : WritebackContext) (r : Backend) : Backend :=
  mkBackend (NBuffers r) (ActiveEviction r) (MyProcNumber r) (gas r) (PrivateRefCountArrayKeys r) (PrivateRefCountArray r) (PrivateRefCountHash r) (PrivateRefCountOverflowed r) (PrivateRefCountClock r) (ReservedRefCountSlot r) (PrivateRefCountEntryLast r) (owned_pins r) (owned_ios r) (rings r) (held_lwlocks r) (MaxProportionalPins r) (PinCountWaitBuf r) (InterruptHoldoffCount r) (IsParallelWorker r) (accounting r) (smgr_faults r) (local r) v (wb_context r).
Definition with_wb_context (v : WritebackContext) (r : Backend) : Backend :=
  mkBackend (NBuffers r) (ActiveEviction r) (MyProcNumber r) (gas r) (PrivateRefCountArrayKeys r) (PrivateRefCountArray r) (PrivateRefCountHash r) (PrivateRefCountOverflowed r) (PrivateRefCountClock r) (ReservedRefCountSlot r) (PrivateRefCountEntryLast r) (owned_pins r) (owned_ios r) (rings r) (held_lwlocks r) (MaxProportionalPins r) (PinCountWaitBuf r) (InterruptHoldoffCount r) (IsParallelWorker r) (accounting r) (smgr_faults r) (local r) (BackendWritebackContext r) v.

(** ** The world of one backend

    [sched] holds what other processes do to shared memory, one action before
    each of our next atomic accesses; when it is empty nobody interferes. *)
Record World := mkWorld {
  shm : Shared;
  me : Backend;
  sched : list (Shared -> Shared)
}.
Definition with_shm (v : Shared) (r : World) : World :=
  mkWorld v (me r) (sched r).
Definition with_me (v : Backend) (r : World) : World :=
  mkWorld (shm r) v (sched r).
Definition with_sched (v : list (Shared -> Shared)) (r : World) : World :=
  mkWorld (shm r) (me r) v.

Definition M (A : Type) : Type := ST World A.

(** ** Access to the pieces *)
Definition gets {A} (f : World -> A) : M A := fun w => (Ret (f w), w).
Definition modify (f : World -> World) : M unit := fun w => (Ret tt, f w).

Definition upd_shm (f : Shared -> Shared) (w : World) : World := with_shm (f (shm w)) w.
Definition upd_me (f : Backend -> Backend) (w : World) : World := with_me (f (me w)) w.
Definition modify_shm (f : Shared -> Shared) : M unit := modify (upd_shm f).
Definition modify_me (f : Backend -> Backend) : M unit := modify (upd_me f).
Definition get_me {A} (f : Backend -> A) : M A := gets (fun w => f (me w)).

(** A failed [Assert]. *)
Definition c_assert (b : bool) (what : string) : M unit :=
  if b then ret tt else trap what.

Lemma c_assert_ok {A} b what (k : unit -> M A) w :
  b = true -> bind (c_assert b what) k w = k tt w.
Proof. by intros ->. Qed.

(** [for (;;)] *)
Definition forever {S R} (body : S -> M (ctl S R)) (s : S) : M R :=
  fun w => iter_fuel (gas (me w)) body s w.

Lemma wp_forever_partial {S R} (Inv : S -> World -> Prop) (body : S -> M (ctl S R)) Q s w :
  (forall s w, Inv s w -> Q Spin w) ->
  (forall s w, Inv s w -> wp (body s) (round_post_partial Inv Q) w) ->
  Inv s w -> wp (forever body s) Q w.
Proof. intros ???. by apply (wp_iter_partial Inv body Q). Qed.

Lemma wp_forever {S R} (Inv : nat -> S -> World -> Prop) (body : S -> M (ctl S R)) Q n s w :
  (forall n s w, Inv n s w -> wp (body s) (round_post Inv n Q) w) ->
  (n < gas (me w))%nat -> Inv n s w -> wp (forever body s) Q w.
Proof. intros ???. by apply (wp_iter Inv body Q) with (n := n). Qed.

(** ** Interference *)
Definition interfere : M unit :=
  fun w =>
    match sched w with
    | [] => (Ret tt, w)
    | f :: fs => (Ret tt, with_sched fs (upd_shm f w))
    end.

(** ** Descriptors

    A [BufferDesc *] is the index of the descriptor in the array. *)
Definition GetBufferDescriptor (id : Z) : Z := id.

Definition deref (buf : Z) : M BufferDesc :=
  let* d := gets (fun w => lookupZ (BufferDescriptors (shm w)) buf) in
  match d with
  | Some d => ret d
  | None => trap "buffer descriptor out of range"
  end.

Definition store_desc (buf : Z) (d : BufferDesc) : M unit :=
  modify_shm (fun s => with_BufferDescriptors (insertZ buf d (BufferDescriptors s)) s).

Definition BufferDescriptorGetBuffer (buf : Z) : M Z :=
  let* d := deref buf in ret (buf_id d + 1).

(** ** 64-bit atomics on [buf->state] *)
Definition pg_atomic_read_u64 (buf : Z) : M Z :=
  interfere ;;
  let* d := deref buf in ret (state d).

(** Returns whether the swap happened and the value [*expected] has after it. *)
Definition pg_atomic_compare_exchange_u64 (buf expected newval : Z) : M (bool * Z) :=
  interfere ;;
  let* d := deref buf in
  if state d =? expected
  then store_desc buf (with_state newval d) ;; ret (true, expected)
  else ret (false, state d).

Definition atomic_rmw (buf : Z) (f : Z -> Z) : M Z :=
  interfere ;;
  let* d := deref buf in
  store_desc buf (with_state (f (state d)) d) ;;
  ret (state d).

Definition pg_atomic_fetch_sub_u64 (buf v : Z) : M Z := atomic_rmw buf (fun s => u64 (s - v)).
Definition pg_atomic_fetch_or_u64 (buf v : Z) : M Z := atomic_rmw buf (fun s => Z.lor s v).
Definition pg_atomic_fetch_and_u64 (buf v : Z) : M Z := atomic_rmw buf (fun s => Z.land s v).
Definition pg_atomic_sub_fetch_u64 (buf v : Z) : M Z :=
  let* old := pg_atomic_fetch_sub_u64 buf v in ret (u64 (old - v)).

(** ** The words behind [BufferStrategyCommon]

    A scalar field of a control struct is one word; the [len] elements of an
    [int32] array start at word [base].  An index outside of the array, or a word
    outside of the memory that was allocated, is undefined behaviour. *)
Definition rd_word (a : Z) : M Z :=
  let* v := gets (fun w => lookupZ (policy_mem (shm w)) a) in
  match v with
  | Some v => ret v
  | None => trap "read outside of the strategy memory"
  end.

Definition wr_word (a v : Z) : M unit :=
  rd_word a ;;
  modify_shm (fun s => with_policy_mem (insertZ a v (policy_mem s)) s).

Definition rd_arr (base len i : Z) : M Z :=
  if (0 <=? i) && (i <? len) then rd_word (base + i) else trap "array index out of range".
Definition wr_arr (base len i v : Z) : M unit :=
  if (0 <=? i) && (i <? len) then wr_word (base + i) v else trap "array index out of range".

(** ** 32-bit atomics on a word of that memory *)
Definition pg_atomic_read_u32 (a : Z) : M Z := interfere ;; rd_word a.

Definition pg_atomic_fetch_add_u32 (a v : Z) : M Z :=
  interfere ;;
  let* x := rd_word a in
  wr_word a (u32 (x + v)) ;;
  ret x.

(** Returns whether the swap happened and the value [*expected] has after it. *)
Definition pg_atomic_compare_exchange_u32 (a expected newval : Z) : M (bool * Z) :=
  interfere ;;
  let* x := rd_word a in
  if x =? expected then wr_word a newval ;; ret (true, expected) else ret (false, x).

(** ** Spinlock of the strategy block *)
Definition SpinLockAcquire : M unit :=
  forever (fun _ : unit =>
    interfere ;;
    let* h := gets (fun w => buffer_strategy_lock (StrategyControl (shm w))) in
    match h with
    | None =>
        let* p := get_me MyProcNumber in
        modify_shm (fun s => with_StrategyControl
          (with_buffer_strategy_lock (Some p) (StrategyControl s)) s) ;;
        ret (Break tt)
    | Some _ => ret (Continue tt)
    end) tt.

Definition SpinLockRelease : M unit :=
  modify_shm (fun s => with_StrategyControl
    (with_buffer_strategy_lock None (StrategyControl s)) s).

(** ** Buffer header lock *)
Definition WaitBufHdrUnlocked (buf : Z) : M Z :=
  let* buf_state := pg_atomic_read_u64 buf in
  forever (fun buf_state =>
    if flag buf_state BM_LOCKED
    then let* buf_state := pg_atomic_read_u64 buf in ret (Continue buf_state)
    else ret (Break buf_state)) buf_state.

Definition LockBufHdr (buf : Z) : M Z :=
  forever (fun _ : unit =>
    let* old_buf_state := pg_atomic_fetch_or_u64 buf BM_LOCKED in
    if negb (flag old_buf_state BM_LOCKED)
    then ret (Break (Z.lor old_buf_state BM_LOCKED))
    else
      forever (fun old_buf_state =>
        if flag old_buf_state BM_LOCKED
        then let* s := pg_atomic_read_u64 buf in ret (Continue s)
        else ret (Break tt)) old_buf_state ;;
      ret (Continue tt)) tt.

Definition UnlockBufHdr (buf : Z) : M unit :=
  let* s := pg_atomic_read_u64 buf in
  c_assert (flag s BM_LOCKED) "buffer header is not locked" ;;
  pg_atomic_fetch_sub_u64 buf BM_LOCKED ;;
  ret tt.

(** The word [UnlockBufHdrExt] swaps in. *)
Definition unlock_word (buf_state set_bits unset_bits refcount_change : Z) : Z :=
  let buf_state := Z.lor buf_state set_bits in
  let buf_state := Z.land buf_state (not64 unset_bits) in
  let buf_state := Z.land buf_state (not64 BM_LOCKED) in
  if ztrue refcount_change
  then u64 (buf_state + BUF_REFCOUNT_ONE * refcount_change) else buf_state.

Definition UnlockBufHdrExt (buf old_buf_state set_bits unset_bits refcount_change : Z) : M Z :=
  forever (fun old_buf_state =>
    c_assert (flag old_buf_state BM_LOCKED) "buffer header is not locked" ;;
    let buf_state := unlock_word old_buf_state set_bits unset_bits refcount_change in
    let* '(ok, seen) := pg_atomic_compare_exchange_u64 buf old_buf_state buf_state in
    if ok then ret (Break old_buf_state) else ret (Continue seen)) old_buf_state.

(** ** Processes: latches and semaphores *)
Definition SetLatch (procno : Z) : M unit :=
  let* procs := gets (fun w => allProcs (shm w)) in
  match lookupZ procs procno with
  | Some p => modify_shm (fun s => with_allProcs (insertZ procno (with_procLatch true p) procs) s)
  | None => trap "process number out of range"
  end.

Definition ProcSendSignal (procNumber : Z) : M unit :=
  let* procs := gets (fun w => allProcs (shm w)) in
  if (procNumber <? 0) || (procNumber >=? Z.of_nat (length procs))
  then elog "procNumber out of range"
  else SetLatch procNumber.

Definition GetPGProcByNumber (procno : Z) : M PGPROC :=
  let* procs := gets (fun w => allProcs (shm w)) in
  match lookupZ procs procno with
  | Some p => ret p
  | None => trap "process number out of range"
  end.

Definition set_proc (procno : Z) (p : PGPROC) : M unit :=
  modify_shm (fun s => with_allProcs (insertZ procno p (allProcs s)) s).

Definition PGSemaphoreLock (procno : Z) : M unit :=
  forever (fun _ : unit =>
    interfere ;;
    let* p := GetPGProcByNumber procno in
    if 0 <? sem p
    then set_proc procno (with_sem (sem p - 1) p) ;; ret (Break tt)
    else ret (Continue tt)) tt.

Definition PGSemaphoreUnlock (procno : Z) : M unit :=
  let* p := GetPGProcByNumber procno in
  set_proc procno (with_sem (sem p + 1) p).
