(* ===== verification/Concurrency.v ===== *)
(** * Interference by other processes

    A backend runs against a schedule of actions of other processes.  This file
    says what such an action may do (the rely condition of the strategy lock and
    of the descriptors), and has the proof rules for the atomic accesses of
    [Shmem.v], with and without interference. *)
From S2P Require Import Prelude BufState BufTag Shmem.

Definition with_mem (m : list Z) (w : World) : World := upd_shm (with_policy_mem m) w.
Definition mem (w : World) : list Z := policy_mem (shm w).
Lemma mem_with_mem m w : mem (with_mem m w) = m.
Proof. done. Qed.
Definition lock_of (s : Shared) : option Z := buffer_strategy_lock (StrategyControl s).

(** What a stretch of code of one backend relies on: the number of buffers, the
    number of the process, what it owns of the buffers, the invariant of the words
    behind the strategy block, and whether the strategy lock protects them (the
    clock hand is an atomic variable that it does not protect). *)
Record Proto := mkProto {
  pr_n : Z;
  pr_proc : Z;
  pr_own : Z -> option (Z -> Prop);
  pr_inv : list Z -> Prop;
  pr_locked : bool
}.

(** What we own of buffer [i] (a pin, the header lock, the content lock), as a
    property of its state word; an owned buffer is pinned or header-locked. *)
Definition own_ok (pr : Proto) (i s : Z) : Prop :=
  match pr_own pr i with
  | Some P => P s /\ (refcount s <> 0 \/ flag s BM_LOCKED = true)
  | None => True
  end.

(** An unpinned buffer without header lock is not ours. *)
Lemma own_free pr i s : own_ok pr i s -> refcount s = 0 -> flag s BM_LOCKED = false -> pr_own pr i = None.
Proof. unfold own_ok. destruct (pr_own pr i); [|done]. intros [_ [?|?]] ??; congruence. Qed.
Lemma own_none pr i s : pr_own pr i = None -> own_ok pr i s.
Proof. unfold own_ok. by intros ->. Qed.

(** Descriptors: [pr_n] of them, each with its own index as [buf_id] and a
    64-bit state word that has what we own of it; the process to wake, if any,
    exists. *)
Record descs_ok (pr : Proto) (s : Shared) : Prop := {
  descs_len : Z.of_nat (length (BufferDescriptors s)) = pr_n pr;
  descs_ids : forall i d, lookupZ (BufferDescriptors s) i = Some d ->
    buf_id d = i /\ wf_state (state d) /\ own_ok pr i (state d);
  bgw_valid : bgwprocno (StrategyControl s) = -1 \/
    is_Some (lookupZ (allProcs s) (bgwprocno (StrategyControl s)))
}.

Section rely.
Context (pr : Proto).

(** The descriptors are sound, and so is the memory of the policy, at least
    while the strategy lock is free. *)
Definition shared_ok (s : Shared) : Prop :=
  descs_ok pr s /\ (pr_locked pr = false \/ lock_of s = None -> pr_inv pr (policy_mem s)).

(** While we hold the strategy lock nobody else touches it or the words it
    protects, and nobody takes or releases a lock in our name. *)
Record Rely (s s' : Shared) : Prop := {
  rely_lock : lock_of s = Some (pr_proc pr) <-> lock_of s' = Some (pr_proc pr);
  rely_mem : pr_locked pr = true -> lock_of s = Some (pr_proc pr) ->
    policy_mem s' = policy_mem s
}.

#[export] Instance Rely_refl : Reflexive Rely.
Proof using Type. by split. Qed.
#[export] Instance Rely_trans : Transitive Rely.
Proof using Type.
  intros s1 s2 s3 [Hl1 Hm1] [Hl2 Hm2]. split.
  - by rewrite Hl1.
  - intros Hlk H. rewrite Hm2; [auto|done|by apply Hl1].
Qed.

Definition other_ok (f : Shared -> Shared) : Prop :=
  forall s, shared_ok s -> shared_ok (f s) /\ Rely s (f s).

(** The world between two of our accesses. *)
Record env_ok (w : World) : Prop := {
  env_shared : shared_ok (shm w);
  env_sched : Forall other_ok (sched w);
  env_proc : MyProcNumber (me w) = pr_proc pr;
  env_nbuf : NBuffers (me w) = pr_n pr
}.

(** What a wait or an atomic access may have changed before it takes effect. *)
Record evolves (w w' : World) : Prop := {
  evo_env : env_ok w';
  evo_me : me w' = me w;
  evo_rely : Rely (shm w) (shm w')
}.

Lemma evolves_refl w : env_ok w -> evolves w w.
Proof using Type. done. Qed.
Lemma evolves_trans w1 w2 w3 : evolves w1 w2 -> evolves w2 w3 -> evolves w1 w3.
Proof using Type. intros [] []. split; [done|congruence|by etrans]. Qed.

(** What we hold does not change under our feet. *)
Lemma evolves_locked w w' :
  pr_locked pr = true -> evolves w w' -> lock_of (shm w) = Some (pr_proc pr) ->
  lock_of (shm w') = Some (pr_proc pr) /\ mem w' = mem w.
Proof using Type. intros Hlk [_ _ [Hl Hm]] H. split; [by apply Hl|by apply Hm]. Qed.

Lemma wp_interfere Q w :
  env_ok w -> (forall w', evolves w w' -> Q (Ret tt) w') -> wp interfere Q w.
Proof using Type.
  intros Henv HQ. unfold wp, interfere. destruct (sched w) as [|f fs] eqn:Hs; cbn.
  - by apply HQ.
  - destruct Henv as [Hok Hsch Hp Hn]. rewrite Hs in Hsch.
    apply Forall_cons in Hsch as [Hf Hfs]. destruct (Hf _ Hok) as [Hok' Hrely].
    apply HQ. split; [|done|done]. by split.
Qed.
End rely.

(** ** Our own updates *)
Definition set_desc (buf : Z) (d : BufferDesc) (w : World) : World :=
  upd_shm (fun s => with_BufferDescriptors (insertZ buf d (BufferDescriptors s)) s) w.
Definition set_lock (h : option Z) (w : World) : World :=
  upd_shm (fun s => with_StrategyControl
    (with_buffer_strategy_lock h (StrategyControl s)) s) w.
Definition desc_at (w : World) (buf : Z) (d : BufferDesc) : Prop :=
  lookupZ (BufferDescriptors (shm w)) buf = Some d.

(** Properties of the buffer [x] in [w]. *)
Definition desc_is (p : Z -> bool) (w : World) (x : Z) : bool :=
  match lookupZ (BufferDescriptors (shm w)) x with
  | Some d => p (state d)
  | None => false
  end.
Definition unpinned : World -> Z -> bool := desc_is (fun s => refcount s =? 0).
Lemma unpinned_at w x d : desc_at w x d -> unpinned w x = (refcount (state d) =? 0).
Proof. intros Hd. unfold unpinned, desc_is, desc_at in *. by rewrite Hd. Qed.

(** A buffer as code sees it that meets no header lock. *)
Definition sees (w : World) (x : Z) (d : BufferDesc) : Prop :=
  desc_at w x d /\ buf_id d = x /\ wf_state (state d) /\ flag (state d) BM_LOCKED = false.

Lemma desc_at_set_eq w buf d d' : desc_at w buf d -> desc_at (set_desc buf d' w) buf d'.
Proof. intros H%lookupZ_Some. by apply lookupZ_insertZ_eq. Qed.
Lemma set_desc_id w buf d : desc_at w buf d -> set_desc buf d w = w.
Proof.
  intros Hd. unfold set_desc, upd_shm, desc_at in *. rewrite insertZ_id by done.
  by destruct w as [[] ? ?].
Qed.
Lemma desc_at_set_ne w buf buf' d d' :
  buf <> buf' -> desc_at w buf' d <-> desc_at (set_desc buf d' w) buf' d.
Proof. intros H. unfold desc_at. cbn. by rewrite lookupZ_insertZ_ne. Qed.

Section rules.
Context (pr : Proto).
Abbreviation env_ok := (env_ok pr).
Abbreviation evolves := (evolves pr).

Lemma env_desc w buf :
  env_ok w -> 0 <= buf < pr_n pr ->
  exists d, desc_at w buf d /\ buf_id d = buf /\ wf_state (state d) /\
    own_ok pr buf (state d).
Proof using Type.
  intros [[[Hlen Hids Hbgw] _] _ _ _] Hr.
  destruct (lookupZ_lt (BufferDescriptors (shm w)) buf) as [d Hd]; [lia|].
  exists d. split; [done|]. by apply Hids.
Qed.

Lemma env_set_desc w buf d d' :
  env_ok w -> desc_at w buf d -> buf_id d' = buf -> wf_state (state d') ->
  own_ok pr buf (state d') ->
  env_ok (set_desc buf d' w).
Proof using Type.
  intros [[[Hlen Hids Hbgw] Hl] Hs Hp Hn] Hd Hid Hwf Hpin. split; [|done|done|done].
  split; [|done]. split; cbn; [by rewrite length_insertZ| |done].
  intros i e [[<- <-]|[_ He]]%lookupZ_insertZ_Some; [done|by apply Hids].
Qed.

Lemma env_me w m :
  env_ok w -> MyProcNumber m = MyProcNumber (me w) -> NBuffers m = NBuffers (me w) ->
  env_ok (with_me m w).
Proof using Type. intros [] ??. split; [done|done|cbn; congruence|cbn; congruence]. Qed.

Lemma env_same w w' :
  env_ok w -> shm w' = shm w -> sched w' = sched w ->
  MyProcNumber (me w') = MyProcNumber (me w) -> NBuffers (me w') = NBuffers (me w) -> env_ok w'.
Proof using Type. intros [] Hs Hf ??. split; rewrite ?Hs, ?Hf; congruence. Qed.

Lemma env_with_mem w m :
  pr_locked pr = true -> env_ok w -> lock_of (shm w) = Some (pr_proc pr) -> env_ok (with_mem m w).
Proof using Type.
  intros Hlk [[[Hlen Hids Hbgw] Hl] Hs Hp Hn] H. split; [|done|done|done].
  split; [by split|]. cbn. unfold lock_of in *. cbn. intros []; congruence.
Qed.

Lemma env_write w m : env_ok w -> pr_inv pr m -> env_ok (with_mem m w).
Proof using Type.
  intros [[[Hlen Hids Hbgw] Hl] Hs Hp Hn] H. split; [|done|done|done]. split; [by split|done].
Qed.

Lemma env_release w : env_ok w -> pr_inv pr (mem w) -> env_ok (set_lock None w).
Proof using Type.
  intros [[[Hlen Hids Hbgw] Hl] Hs Hp Hn] H. split; [|done|done|done]. by split.
Qed.

Lemma wp_deref Q w buf d : desc_at w buf d -> Q (Ret d) w -> wp (deref buf) Q w.
Proof using Type. intros Hd HQ. unfold wp, deref. cbn. rewrite Hd. done. Qed.

Lemma wp_pg_atomic_read_u64 Q w buf :
  env_ok w -> 0 <= buf < pr_n pr ->
  (forall w' d, evolves w w' -> desc_at w' buf d -> buf_id d = buf -> wf_state (state d) ->
    own_ok pr buf (state d) ->
    Q (Ret (state d)) w') ->
  wp (pg_atomic_read_u64 buf) Q w.
Proof using Type.
  intros Henv Hb HQ. apply wp_bind, (wp_interfere pr); [done|]. intros w' Hev.
  destruct (env_desc w' buf) as (d & Hd & Hid & Hwf & Hpin); [apply Hev|done|].
  cbn. apply wp_bind. by eapply wp_deref, HQ.
Qed.

Lemma wp_pg_atomic_compare_exchange_u64 Q w buf expected newval :
  env_ok w -> 0 <= buf < pr_n pr ->
  (forall w' d, evolves w w' -> desc_at w' buf d -> buf_id d = buf ->
    state d = expected -> wf_state expected ->
    own_ok pr buf expected ->
    Q (Ret (true, expected)) (set_desc buf (with_state newval d) w')) ->
  (forall w' d, evolves w w' -> desc_at w' buf d -> buf_id d = buf ->
    state d <> expected -> wf_state (state d) ->
    own_ok pr buf (state d) -> Q (Ret (false, state d)) w') ->
  wp (pg_atomic_compare_exchange_u64 buf expected newval) Q w.
Proof using Type.
  intros Henv Hb Hyes Hno. apply wp_bind, (wp_interfere pr); [done|]. intros w' Hev.
  destruct (env_desc w' buf) as (d & Hd & Hid & Hwf & Hpin); [apply Hev|done|].
  cbn. apply wp_bind. eapply wp_deref; [done|]. cbn.
  destruct (Z.eqb_spec (state d) expected) as [He|He].
  - by subst; apply Hyes.
  - by apply Hno.
Qed.

Lemma wp_atomic_rmw Q w buf f :
  env_ok w -> 0 <= buf < pr_n pr ->
  (forall w' d, evolves w w' -> desc_at w' buf d -> buf_id d = buf -> wf_state (state d) ->
    own_ok pr buf (state d) ->
    Q (Ret (state d)) (set_desc buf (with_state (f (state d)) d) w')) ->
  wp (atomic_rmw buf f) Q w.
Proof using Type.
  intros Henv Hb HQ. apply wp_bind, (wp_interfere pr); [done|]. intros w' Hev.
  destruct (env_desc w' buf) as (d & Hd & Hid & Hwf & Hpin); [apply Hev|done|].
  cbn. apply wp_bind. eapply wp_deref; [done|]. by apply HQ.
Qed.

(** Waiting for the strategy lock: either for ever, or until it was free. *)
Lemma wp_SpinLockAcquire Q w :
  env_ok w ->
  (forall w', evolves w w' -> Q Spin w') ->
  (forall w', evolves w w' -> pr_inv pr (mem w') -> lock_of (shm w') = None ->
    env_ok (set_lock (Some (pr_proc pr)) w') -> Q (Ret tt) (set_lock (Some (pr_proc pr)) w')) ->
  wp SpinLockAcquire Q w.
Proof using Type.
  intros Henv Hspin HQ. unfold SpinLockAcquire, forever.
  apply (wp_iter_partial (fun _ w' => evolves w w')); [by intros _ w' ?; apply Hspin| |done].
  intros _ w1 Hev. apply wp_bind, (wp_interfere pr); [apply Hev|]. intros w2 Hev2.
  assert (evolves w w2) as Hev' by (by eapply evolves_trans).
  cbn [bind_post]. unfold wp, bind, gets. cbn.
  destruct (buffer_strategy_lock (StrategyControl (shm w2))) eqn:Hl; cbn; [done|].
  destruct (evo_env _ _ _ Hev') as [[Hd Hi] Hs Hp Hn]. rewrite Hp.
  assert (pr_inv pr (mem w2)) as Hmem by (apply Hi; by right).
  apply HQ; [done..|]. split; [|done|done|done]. split; [|done]. split; apply Hd.
Qed.

(** What the invariant says of the words stays true while we hold the lock. *)
Lemma inv_evolves w w' :
  lock_of (shm w) = Some (pr_proc pr) -> pr_inv pr (mem w) -> evolves w w' ->
  lock_of (shm w') = Some (pr_proc pr) /\ pr_inv pr (mem w').
Proof using Type.
  intros Hl Hi Hev. destruct (pr_locked pr) eqn:Hlk.
  - destruct (evolves_locked _ _ _ Hlk Hev Hl) as [? ->]. done.
  - destruct Hev as [[[_ H] _ _ _] _ [Hr _]]. split; [by apply Hr|]. apply H. by left.
Qed.

(** ** Inside the critical section of the strategy lock *)
Record held (m0 : Backend) (w : World) : Prop := {
  held_locked : pr_locked pr = true;
  held_env : env_ok w;
  held_lock : lock_of (shm w) = Some (pr_proc pr);
  held_me : me w = m0
}.

Lemma held_evolves m0 w w' : held m0 w -> evolves w w' -> held m0 w' /\ mem w' = mem w.
Proof using Type.
  intros [Hlk He Hl Hm] Hev. destruct (evolves_locked _ _ _ Hlk Hev Hl) as [Hl' Hmem].
  destruct Hev as [He' Hme _]. split; [|done]. split; [done..|congruence].
Qed.

Lemma held_with_mem m0 w m : held m0 w -> held m0 (with_mem m w).
Proof using Type. intros [Hlk He Hl Hm]. split; [done|by apply env_with_mem|done|done]. Qed.

Lemma held_set_desc m0 w buf d d' :
  held m0 w -> desc_at w buf d -> buf_id d' = buf -> wf_state (state d') ->
  own_ok pr buf (state d') -> held m0 (set_desc buf d' w).
Proof using Type. intros [Hlk He Hl Hm] ????. split; [done|by eapply env_set_desc|done|done]. Qed.

Lemma held_acquired w w' :
  pr_locked pr = true -> evolves w w' -> env_ok (set_lock (Some (pr_proc pr)) w') ->
  held (me w) (set_lock (Some (pr_proc pr)) w').
Proof using Type. intros Hlk [_ Hme _] He. split; [done|done|done|by cbn]. Qed.

Lemma held_release m0 w : held m0 w -> pr_inv pr (mem w) -> env_ok (set_lock None w).
Proof using Type. intros [_ He _ _]. by apply env_release. Qed.

(** We are not inside the critical section. *)
Definition outside (m0 : Backend) (w : World) : Prop :=
  env_ok w /\ lock_of (shm w) <> Some (pr_proc pr) /\ me w = m0.

Lemma outside_evolves m0 w w' : outside m0 w -> evolves w w' -> outside m0 w'.
Proof using Type.
  intros (He & Hl & Hm) [He' Hm' [Hl' _]]. split_and!; [done| |congruence].
  intros H. by apply Hl, Hl'.
Qed.

(** Waiting until the header lock is free. *)
Lemma wp_WaitBufHdrUnlocked Q w buf :
  env_ok w -> 0 <= buf < pr_n pr ->
  (forall w', evolves w w' -> Q Spin w') ->
  (forall w' d, evolves w w' -> desc_at w' buf d -> buf_id d = buf -> wf_state (state d) ->
    own_ok pr buf (state d) ->
    flag (state d) BM_LOCKED = false -> Q (Ret (state d)) w') ->
  wp (WaitBufHdrUnlocked buf) Q w.
Proof using Type.
  intros Henv Hb Hspin HQ. unfold WaitBufHdrUnlocked.
  apply wp_bind, wp_pg_atomic_read_u64; [done..|]. intros w1 d1 Hev1 Hd1 Hid1 Hwf1 Hpin1.
  cbn [bind_post]. unfold forever.
  apply (wp_iter_partial (fun st w' => evolves w w' /\ exists d, desc_at w' buf d /\
    buf_id d = buf /\ wf_state (state d) /\ own_ok pr buf (state d) /\
    st = state d)).
  - intros st w' [? _]. by apply Hspin.
  - intros st w' (Hev & d & Hd & Hid & Hwf & Hpin & ->).
    destruct (flag (state d) BM_LOCKED) eqn:Hlk; [|by apply wp_ret, (HQ w' d)].
    apply wp_bind, wp_pg_atomic_read_u64; [apply Hev|done|].
    intros w2 d2 Hev2 Hd2 Hid2 Hwf2 Hpin2. apply wp_ret. cbn.
    split; [by eapply evolves_trans|]. by exists d2.
  - split; [done|]. by exists d1.
Qed.
End rules.

(** ** Without interference *)
Definition quiet (w : World) : Prop := sched w = [].

Section quiet.
Context (w : World) (Hq : quiet w).

Lemma interfere_quiet : interfere w = (Ret tt, w).
Proof using Hq. unfold interfere. by rewrite Hq. Qed.

Lemma deref_run buf d : desc_at w buf d -> deref buf w = (Ret d, w).
Proof using Type. intros Hd. unfold deref, bind, gets. cbn. unfold desc_at in Hd. by rewrite Hd. Qed.

Lemma read_quiet buf d : desc_at w buf d -> pg_atomic_read_u64 buf w = (Ret (state d), w).
Proof using Hq.
  intros Hd. unfold pg_atomic_read_u64.
  by rewrite (bind_ret _ _ _ _ _ interfere_quiet), (bind_ret _ _ _ _ _ (deref_run _ _ Hd)).
Qed.

Lemma cas_quiet buf d newval :
  desc_at w buf d ->
  pg_atomic_compare_exchange_u64 buf (state d) newval w =
    (Ret (true, state d), set_desc buf (with_state newval d) w).
Proof using Hq.
  intros Hd. unfold pg_atomic_compare_exchange_u64.
  rewrite (bind_ret _ _ _ _ _ interfere_quiet), (bind_ret _ _ _ _ _ (deref_run _ _ Hd)).
  by rewrite Z.eqb_refl.
Qed.

Lemma rmw_quiet buf d f :
  desc_at w buf d ->
  atomic_rmw buf f w = (Ret (state d), set_desc buf (with_state (f (state d)) d) w).
Proof using Hq.
  intros Hd. unfold atomic_rmw.
  by rewrite (bind_ret _ _ _ _ _ interfere_quiet), (bind_ret _ _ _ _ _ (deref_run _ _ Hd)).
Qed.

Lemma SpinLockAcquire_quiet :
  lock_of (shm w) = None -> (0 < gas (me w))%nat ->
  SpinLockAcquire w = (Ret tt, set_lock (Some (MyProcNumber (me w))) w).
Proof using Hq.
  intros Hl Hg. unfold SpinLockAcquire, forever. destruct (gas (me w)); [lia|]. cbn [iter_fuel].
  unfold bind at 1 2. rewrite interfere_quiet. unfold gets at 1, bind at 1.
  unfold lock_of in Hl. by rewrite Hl.
Qed.
End quiet.

Lemma SpinLockRelease_run w : SpinLockRelease w = (Ret tt, set_lock None w).
Proof. done. Qed.

(** ** The header lock without interference *)
Lemma set_desc_set_desc w buf d d' : set_desc buf d' (set_desc buf d w) = set_desc buf d' w.
Proof. unfold set_desc, upd_shm. cbn. by rewrite insertZ_insertZ. Qed.

Lemma with_state_with_state a b d : with_state a (with_state b d) = with_state a d.
Proof. done. Qed.
Lemma with_state_id d : with_state (state d) d = d.
Proof. by destruct d. Qed.

Section header.
Context (w : World) (Hq : quiet w) (Hg : (0 < gas (me w))%nat).

Lemma LockBufHdr_quiet buf d :
  desc_at w buf d -> flag (state d) BM_LOCKED = false ->
  LockBufHdr buf w = (Ret (Z.lor (state d) BM_LOCKED),
    set_desc buf (with_state (Z.lor (state d) BM_LOCKED) d) w).
Proof using Hg Hq.
  intros Hd Hf. unfold LockBufHdr, forever. destruct (gas (me w)) as [|g]; [lia|].
  apply iter_break. run (rmw_quiet _ Hq _ _ (fun s => Z.lor s BM_LOCKED) Hd). by rewrite Hf.
Qed.

Lemma WaitBufHdrUnlocked_quiet buf d :
  desc_at w buf d -> flag (state d) BM_LOCKED = false ->
  WaitBufHdrUnlocked buf w = (Ret (state d), w).
Proof using Hg Hq.
  intros Hd Hf. unfold WaitBufHdrUnlocked. run (read_quiet _ Hq _ _ Hd).
  unfold forever. destruct (gas (me w)) as [|g]; [lia|]. apply iter_break. by rewrite Hf.
Qed.

Lemma UnlockBufHdr_quiet buf d :
  desc_at w buf d -> wf_state (state d) -> flag (state d) BM_LOCKED = true ->
  UnlockBufHdr buf w = (Ret tt, set_desc buf (with_state (Z.ldiff (state d) BM_LOCKED) d) w).
Proof using Hq.
  intros Hd Hwf Hf. unfold UnlockBufHdr. run (read_quiet _ Hq _ _ Hd). rewrite c_assert_ok by done.
  run (rmw_quiet _ Hq _ _ (fun s => u64 (s - BM_LOCKED)) Hd). by rewrite unlock_sub.
Qed.

Lemma UnlockBufHdrExt_quiet buf d set_bits unset_bits refcount_change :
  desc_at w buf d -> flag (state d) BM_LOCKED = true ->
  UnlockBufHdrExt buf (state d) set_bits unset_bits refcount_change w = (Ret (state d),
    set_desc buf (with_state (unlock_word (state d) set_bits unset_bits refcount_change) d) w).
Proof using Hg Hq.
  intros Hd Hf. unfold UnlockBufHdrExt, forever. destruct (gas (me w)) as [|g]; [lia|].
  apply iter_break. rewrite c_assert_ok by done. cbv zeta. by run (cas_quiet _ Hq _ _
    (unlock_word (state d) set_bits unset_bits refcount_change) Hd).
Qed.
End header.
