(* ===== verification/PrivateRefCount.v ===== *)
(** * Backend-private pin counts ([bufmgr.c], lines 249-582)

    A backend tracks its own pins in an eight-entry array that is searched
    sequentially and that overflows, clock-wise, into a hash table.  The file
    models the six functions of that mechanism and proves that together they
    implement a finite map from buffer numbers to pin data. *)
From S2P Require Import Prelude BufState BufTag Shmem.

Definition InvalidBuffer : Z := 0.
Definition REFCOUNT_ARRAY_ENTRIES : Z := 8.

Definition BufferIsValid (bufnum : Z) : bool := negb (bufnum =? InvalidBuffer).
Definition BufferIsLocal (buffer : Z) : bool := buffer <? 0.

(** A [PrivateRefCountEntry *] points into the array or into the hash table. *)
Inductive RefPtr := InArray (slot : Z) | InHash (buffer : Z).

Definition array_entry (i : Z) : M PrivateRefCountEntry :=
  let* e := get_me (fun m => lookupZ (PrivateRefCountArray m) i) in
  match e with
  | Some e => ret e
  | None => trap "PrivateRefCountArray out of range"
  end.

Definition array_key (i : Z) : M Z :=
  let* k := get_me (fun m => lookupZ (PrivateRefCountArrayKeys m) i) in
  match k with
  | Some k => ret k
  | None => trap "PrivateRefCountArrayKeys out of range"
  end.

Definition set_array_entry (i : Z) (e : PrivateRefCountEntry) : M unit :=
  modify_me (fun m => with_PrivateRefCountArray (insertZ i e (PrivateRefCountArray m)) m).
Definition set_array_key (i k : Z) : M unit :=
  modify_me (fun m => with_PrivateRefCountArrayKeys (insertZ i k (PrivateRefCountArrayKeys m)) m).

(** [ref->data] and [ref->data = d]. *)
Definition ref_data (ref : RefPtr) : M PrivateRefCountData :=
  match ref with
  | InArray i => let* e := array_entry i in ret (entry_data e)
  | InHash b =>
      let* d := get_me (fun m => PrivateRefCountHash m !! b) in
      match d with
      | Some d => ret d
      | None => trap "dangling PrivateRefCountHash entry"
      end
  end.

Definition set_ref_data (ref : RefPtr) (d : PrivateRefCountData) : M unit :=
  match ref with
  | InArray i =>
      let* e := array_entry i in set_array_entry i (mkRefEntry (entry_buffer e) d)
  | InHash b =>
      modify_me (fun m => with_PrivateRefCountHash (<[b := d]> (PrivateRefCountHash m)) m)
  end.

(** The loops over the key array do not stop at the first match, so the last
    matching slot wins; [-1] when there is none. *)
Definition scan_keys (k : Z) (keys : list Z) : Z :=
  foldl (fun slot '(i, x) => if x =? k then Z.of_nat i else slot) (-1)
        (zip (seq 0 8) keys).

#[global] Arguments scan_keys : simpl never.

Definition no_pin_data : PrivateRefCountData := mkRefData 0 BUFFER_LOCK_UNLOCK.

Definition ReservePrivateRefCountEntry : M unit :=
  let* r := get_me ReservedRefCountSlot in
  if negb (r =? -1) then ret tt else
  let* keys := get_me PrivateRefCountArrayKeys in
  modify_me (with_ReservedRefCountSlot (scan_keys InvalidBuffer keys)) ;;
  let* r := get_me ReservedRefCountSlot in
  if negb (r =? -1) then ret tt else
  let* clock := get_me PrivateRefCountClock in
  let victim_slot := clock mod REFCOUNT_ARRAY_ENTRIES in
  modify_me (with_PrivateRefCountClock (u32 (clock + 1))) ;;
  modify_me (with_ReservedRefCountSlot victim_slot) ;;
  let* key := array_key victim_slot in
  let* victim_entry := array_entry victim_slot in
  c_assert (negb (key =? InvalidBuffer)) "victim slot is free" ;;
  c_assert (negb (entry_buffer victim_entry =? InvalidBuffer)) "victim entry is free" ;;
  c_assert (key =? entry_buffer victim_entry) "key and entry differ" ;;
  let* found := get_me (fun m => PrivateRefCountHash m !! key) in
  c_assert (match found with None => true | Some _ => false end) "entry already in hash" ;;
  modify_me (fun m => with_PrivateRefCountHash
    (<[key := entry_data victim_entry]> (PrivateRefCountHash m)) m) ;;
  set_array_key victim_slot InvalidBuffer ;;
  set_array_entry victim_slot (mkRefEntry InvalidBuffer no_pin_data) ;;
  modify_me (fun m => with_PrivateRefCountOverflowed (PrivateRefCountOverflowed m + 1) m).

Definition NewPrivateRefCountEntry (buffer : Z) : M RefPtr :=
  let* r := get_me ReservedRefCountSlot in
  c_assert (negb (r =? -1)) "no reserved refcount slot" ;;
  let* _ := array_entry r in
  set_array_key r buffer ;;
  set_array_entry r (mkRefEntry buffer no_pin_data) ;;
  modify_me (with_PrivateRefCountEntryLast r) ;;
  modify_me (with_ReservedRefCountSlot (-1)) ;;
  ret (InArray r).

(** The [do_move] branch: an overflowed entry goes back into the array. *)
Definition move_to_array (buffer found : Z) : M (option RefPtr) :=
  ReservePrivateRefCountEntry ;;
  let* r := get_me ReservedRefCountSlot in
  c_assert (negb (r =? -1)) "no reserved refcount slot" ;;
  let* free := array_entry r in
  let* key := array_key r in
  c_assert (key =? entry_buffer free) "key and entry differ" ;;
  c_assert (entry_buffer free =? InvalidBuffer) "reserved slot is in use" ;;
  let* data := ref_data (InHash buffer) in
  set_array_entry r (mkRefEntry buffer data) ;;
  set_array_key r buffer ;;
  modify_me (with_PrivateRefCountEntryLast found) ;;
  modify_me (with_ReservedRefCountSlot (-1)) ;;
  let* ov := get_me PrivateRefCountOverflowed in
  modify_me (fun m => with_PrivateRefCountHash (delete buffer (PrivateRefCountHash m)) m) ;;
  c_assert (0 <? ov) "no overflowed entries" ;;
  modify_me (with_PrivateRefCountOverflowed (ov - 1)) ;;
  ret (Some (InArray r)).

Definition GetPrivateRefCountEntrySlow (buffer : Z) (do_move : bool) : M (option RefPtr) :=
  let* keys := get_me PrivateRefCountArrayKeys in
  let found := scan_keys buffer keys in
  if negb (found =? -1)
  then modify_me (with_PrivateRefCountEntryLast found) ;; ret (Some (InArray found))
  else
  let* overflowed := get_me PrivateRefCountOverflowed in
  if overflowed =? 0 then ret None else
  let* res := get_me (fun m => PrivateRefCountHash m !! buffer) in
  match res with
  | None => ret None
  | Some _ =>
      if negb do_move then ret (Some (InHash buffer)) else
      move_to_array buffer found
  end.

Definition GetPrivateRefCountEntry (buffer : Z) (do_move : bool) : M (option RefPtr) :=
  c_assert (BufferIsValid buffer) "invalid buffer" ;;
  c_assert (negb (BufferIsLocal buffer)) "local buffer" ;;
  let* last := get_me PrivateRefCountEntryLast in
  if negb (last =? -1) then
    let* e := array_entry last in
    if entry_buffer e =? buffer then ret (Some (InArray last))
    else GetPrivateRefCountEntrySlow buffer do_move
  else GetPrivateRefCountEntrySlow buffer do_move.

Definition GetPrivateRefCount (buffer : Z) : M Z :=
  c_assert (BufferIsValid buffer) "invalid buffer" ;;
  c_assert (negb (BufferIsLocal buffer)) "local buffer" ;;
  let* ref := GetPrivateRefCountEntry buffer false in
  match ref with
  | None => ret 0
  | Some ref => let* d := ref_data ref in ret (data_refcount d)
  end.

Definition ForgetPrivateRefCountEntry (ref : RefPtr) : M unit :=
  let* d := ref_data ref in
  c_assert (data_refcount d =? 0) "refcount is not zero" ;;
  c_assert (bool_decide (data_lockmode d = BUFFER_LOCK_UNLOCK)) "lock is held" ;;
  match ref with
  | InArray i =>
      set_array_entry i (mkRefEntry InvalidBuffer d) ;;
      set_array_key i InvalidBuffer ;;
      modify_me (with_ReservedRefCountSlot i)
  | InHash buffer =>
      let* ov := get_me PrivateRefCountOverflowed in
      modify_me (fun m => with_PrivateRefCountHash (delete buffer (PrivateRefCountHash m)) m) ;;
      c_assert (0 <? ov) "no overflowed entries" ;;
      modify_me (with_PrivateRefCountOverflowed (ov - 1))
  end.

(** ** The finite map behind the array and the hash table *)

(** The key array, the entry array, the hash table and its size together hold
    exactly the pins of [mu], each of them once. *)
Record prc_core (keys : list Z) (arr : list PrivateRefCountEntry)
    (hash : gmap Z PrivateRefCountData) (ov : Z) (mu : gmap Z PrivateRefCountData) : Prop := {
  core_len_keys : length keys = 8%nat;
  core_len_array : length arr = 8%nat;
  core_keys : forall i e, lookupZ arr i = Some e -> lookupZ keys i = Some (entry_buffer e);
  core_array : forall i e, lookupZ arr i = Some e -> entry_buffer e <> InvalidBuffer ->
    mu !! entry_buffer e = Some (entry_data e) /\ hash !! entry_buffer e = None;
  core_distinct : forall i j e e', lookupZ arr i = Some e -> lookupZ arr j = Some e' ->
    entry_buffer e = entry_buffer e' -> entry_buffer e <> InvalidBuffer -> i = j;
  core_hash : forall b d, hash !! b = Some d -> mu !! b = Some d;
  core_cover : forall b d, mu !! b = Some d ->
    (exists i, lookupZ arr i = Some (mkRefEntry b d)) \/ hash !! b = Some d;
  core_no_invalid : mu !! InvalidBuffer = None;
  core_overflowed : ov = Z.of_nat (size hash)
}.

(** [m] tracks exactly the pins of [mu]. *)
Record prc_inv (m : Backend) (mu : gmap Z PrivateRefCountData) : Prop := {
  prc_is_core : prc_core (PrivateRefCountArrayKeys m) (PrivateRefCountArray m)
    (PrivateRefCountHash m) (PrivateRefCountOverflowed m) mu;
  prc_reserved : ReservedRefCountSlot m = -1 \/
    lookupZ (PrivateRefCountArrayKeys m) (ReservedRefCountSlot m) = Some InvalidBuffer;
  prc_last : PrivateRefCountEntryLast m = -1 \/ 0 <= PrivateRefCountEntryLast m < 8
}.

(** What the functions of this file leave alone. *)
Record prc_frame (m m' : Backend) : Prop := {
  fr_NBuffers : NBuffers m' = NBuffers m;
  fr_Active : ActiveEviction m' = ActiveEviction m;
  fr_Proc : MyProcNumber m' = MyProcNumber m;
  fr_gas : gas m' = gas m;
  fr_pins : owned_pins m' = owned_pins m;
  fr_ios : owned_ios m' = owned_ios m;
  fr_rings : rings m' = rings m;
  fr_lwlocks : held_lwlocks m' = held_lwlocks m;
  fr_maxpins : MaxProportionalPins m' = MaxProportionalPins m;
  fr_waitbuf : PinCountWaitBuf m' = PinCountWaitBuf m;
  fr_holdoff : InterruptHoldoffCount m' = InterruptHoldoffCount m;
  fr_parallel : IsParallelWorker m' = IsParallelWorker m;
  fr_accounting : accounting m' = accounting m;
  fr_faults : smgr_faults m' = smgr_faults m;
  fr_local : local m' = local m;
  fr_backend_wb : BackendWritebackContext m' = BackendWritebackContext m;
  fr_wb : wb_context m' = wb_context m
}.

#[export] Instance prc_frame_refl : Reflexive prc_frame.
Proof. by split. Qed.
#[export] Instance prc_frame_trans : Transitive prc_frame.
Proof. intros ??? [] []. split; congruence. Qed.

(** [ref] points to the entry of buffer [b]. *)
Definition ref_ok (m : Backend) (ref : RefPtr) (b : Z) : Prop :=
  match ref with
  | InArray i => exists e, lookupZ (PrivateRefCountArray m) i = Some e /\ entry_buffer e = b
  | InHash b' => b' = b /\ is_Some (PrivateRefCountHash m !! b)
  end.

Lemma scan_keys_aux k keys : forall n acc,
  let r := foldl (fun slot '(i, x) => if x =? k then Z.of_nat i else slot) acc
                 (zip (seq n (length keys)) keys) in
  ((k ∉ keys) /\ r = acc) \/ (exists i, keys !! i = Some k /\ r = Z.of_nat (n + i)).
Proof.
  induction keys as [|x keys IH]; intros n acc; simpl.
  { left. split; [apply not_elem_of_nil|done]. }
  destruct (IH (S n) (if x =? k then Z.of_nat n else acc)) as [[Hnot ->]|(i & Hi & ->)].
  - destruct (Z.eqb_spec x k) as [->|Hne].
    + right. exists 0%nat. split; [done|]. by rewrite Nat.add_0_r.
    + left. split; [|done]. rewrite not_elem_of_cons. split; [congruence|done].
  - right. exists (S i). split; [done|]. f_equal. lia.
Qed.

Lemma scan_keys_spec k keys :
  length keys = 8%nat ->
  ((k ∉ keys) /\ scan_keys k keys = -1) \/
  (lookupZ keys (scan_keys k keys) = Some k /\ 0 <= scan_keys k keys < 8).
Proof.
  intros Hlen. pose proof (scan_keys_aux k keys 0 (-1)) as Haux. rewrite Hlen in Haux.
  unfold scan_keys. destruct Haux as [[Hnot ->]|(i & Hi & ->)]; [by left|].
  right. pose proof (lookup_lt_Some _ _ _ Hi). split; [|lia].
  unfold lookupZ. rewrite Nat.add_0_l, (proj2 (Z.leb_le _ _)) by lia.
  by rewrite Nat2Z.id.
Qed.

Section core.
Context (keys : list Z) (arr : list PrivateRefCountEntry)
        (hash : gmap Z PrivateRefCountData) (ov : Z) (mu : gmap Z PrivateRefCountData).
Hypothesis Hcore : prc_core keys arr hash ov mu.

Lemma core_at i :
  0 <= i < 8 ->
  exists e, lookupZ arr i = Some e /\ lookupZ keys i = Some (entry_buffer e).
Proof.
  intros Hi. destruct (lookupZ_lt arr i) as [e He].
  { rewrite (core_len_array _ _ _ _ _ Hcore). lia. }
  exists e. split; [done|]. by eapply core_keys.
Qed.

Lemma core_key_entry i k :
  lookupZ keys i = Some k ->
  exists e, lookupZ arr i = Some e /\ entry_buffer e = k /\ 0 <= i < 8.
Proof.
  intros Hk. pose proof (lookupZ_Some _ _ _ Hk) as Hr.
  rewrite (core_len_keys _ _ _ _ _ Hcore) in Hr.
  destruct (core_at i) as (e & He & Hk'); [lia|].
  exists e. rewrite Hk in Hk'. split_and!; [done|congruence|lia|lia].
Qed.

Lemma core_not_key b i e : (b ∉ keys) -> lookupZ arr i = Some e -> entry_buffer e <> b.
Proof.
  intros Hnot He <-. apply Hnot. pose proof (core_keys _ _ _ _ _ Hcore _ _ He) as Hk.
  unfold lookupZ in Hk. destruct (0 <=? i); [|done]. by eapply list_elem_of_lookup_2.
Qed.

(** A free slot takes a buffer that is not tracked yet. *)
Lemma core_put i b d e :
  lookupZ arr i = Some e -> entry_buffer e = InvalidBuffer ->
  b <> InvalidBuffer -> mu !! b = None ->
  prc_core (insertZ i b keys) (insertZ i (mkRefEntry b d) arr) hash ov (<[b := d]> mu).
Proof using Hcore.
  intros He Hfree Hb Hmu. destruct Hcore as [Hlk Hla Hk Ha Hd Hh Hc Hn Ho].
  assert (hash !! b = None) as Hhb.
  { destruct (hash !! b) eqn:E; [|done]. apply Hh in E. congruence. }
  pose proof (lookupZ_Some _ _ _ He) as Hi. rewrite Hla in Hi.
  split; rewrite ?length_insertZ; try done.
  - intros j e' [[<- <-]|[Hne He']]%lookupZ_insertZ_Some.
    + rewrite lookupZ_insertZ_eq; [done|lia].
    + rewrite lookupZ_insertZ_ne by done. by apply Hk.
  - intros j e' [[<- <-]|[Hne He']]%lookupZ_insertZ_Some Hv; cbn.
    + by rewrite lookup_insert_eq.
    + destruct (Ha _ _ He' Hv) as [? ?]. rewrite lookup_insert_ne by congruence. done.
  - intros j k e1 e2 [[<- <-]|[Hne1 H1]]%lookupZ_insertZ_Some
      [[<- <-]|[Hne2 H2]]%lookupZ_insertZ_Some; cbn; intros Heq Hv; try done.
    + destruct (Ha _ _ H2) as [? ?]; congruence.
    + destruct (Ha _ _ H1) as [? ?]; congruence.
    + by eapply Hd.
  - intros b' d' H'. rewrite lookup_insert_ne by congruence. auto.
  - intros b' d' [[<- <-]|[Hne Hb']]%lookup_insert_Some.
    + left. exists i. apply lookupZ_insertZ_eq. lia.
    + destruct (Hc _ _ Hb') as [[j Hj]|?]; [|by right]. left. exists j.
      rewrite lookupZ_insertZ_ne; [done|]. intros ->. rewrite He in Hj.
      injection Hj as ->. cbn in Hfree. congruence.
  - rewrite lookup_insert_ne by done. done.
Qed.

(** A slot in use is emptied. *)
Lemma core_take i e x :
  lookupZ arr i = Some e -> entry_buffer e <> InvalidBuffer ->
  prc_core (insertZ i InvalidBuffer keys) (insertZ i (mkRefEntry InvalidBuffer x) arr)
    hash ov (delete (entry_buffer e) mu).
Proof using Hcore.
  intros He Hv. destruct Hcore as [Hlk Hla Hk Ha Hd Hh Hc Hn Ho].
  pose proof (lookupZ_Some _ _ _ He) as Hi. rewrite Hla in Hi.
  destruct (Ha _ _ He Hv) as [Hmu Hhash].
  split; rewrite ?length_insertZ; try done.
  - intros j e' [[<- <-]|[Hne He']]%lookupZ_insertZ_Some.
    + rewrite lookupZ_insertZ_eq; [done|lia].
    + rewrite lookupZ_insertZ_ne by done. by apply Hk.
  - intros j e' [[<- <-]|[Hne He']]%lookupZ_insertZ_Some Hv'; [done|].
    destruct (Ha _ _ He' Hv') as [? ?]. rewrite lookup_delete_ne; [done|].
    intros Heq. apply Hne. by eapply Hd.
  - intros j k e1 e2 [[<- <-]|[Hne1 H1]]%lookupZ_insertZ_Some
      [[<- <-]|[Hne2 H2]]%lookupZ_insertZ_Some; cbn; intros Heq Hv'; try done.
    by eapply Hd.
  - intros b' d' H'. rewrite lookup_delete_ne by congruence. auto.
  - intros b' d' [Hne Hb']%lookup_delete_Some.
    destruct (Hc _ _ Hb') as [[j Hj]|?]; [|by right]. left. exists j.
    rewrite lookupZ_insertZ_ne; [done|]. intros ->. rewrite He in Hj.
    injection Hj as ->. by cbn in Hne.
  - by rewrite lookup_delete_ne by done.
Qed.

(** The hash table takes a buffer that is not tracked yet. *)
Lemma core_hash_put b d :
  b <> InvalidBuffer -> mu !! b = None ->
  prc_core keys arr (<[b := d]> hash) (ov + 1) (<[b := d]> mu).
Proof using Hcore.
  intros Hb Hmu. destruct Hcore as [Hlk Hla Hk Ha Hd Hh Hc Hn Ho].
  assert (hash !! b = None) as Hhb.
  { destruct (hash !! b) eqn:E; [|done]. apply Hh in E. congruence. }
  split; try done.
  - intros j e He Hv. destruct (Ha _ _ He Hv) as [? ?].
    rewrite !lookup_insert_ne by congruence. done.
  - intros b' d'. rewrite !lookup_insert_Some. naive_solver.
  - intros b' d'. rewrite !lookup_insert_Some. naive_solver.
  - by rewrite lookup_insert_ne.
  - rewrite map_size_insert_None by done. lia.
Qed.

(** An entry leaves the hash table. *)
Lemma core_hash_del b d :
  hash !! b = Some d -> prc_core keys arr (delete b hash) (ov - 1) (delete b mu).
Proof using Hcore.
  intros Hb. destruct Hcore as [Hlk Hla Hk Ha Hd Hh Hc Hn Ho].
  split; try done.
  - intros j e He Hv. destruct (Ha _ _ He Hv) as [? ?].
    rewrite !lookup_delete_ne by congruence. done.
  - intros b' d'. rewrite !lookup_delete_Some. naive_solver.
  - intros b' d'. rewrite !lookup_delete_Some. naive_solver.
  - rewrite lookup_delete_None. auto.
  - rewrite map_size_delete_Some by eauto.
    pose proof (map_size_non_empty_iff hash). assert (size hash <> 0%nat); [|lia].
    intros E%map_size_empty_inv. rewrite E in Hb. by rewrite lookup_empty in Hb.
Qed.
End core.

(** ** The functions against the map *)
Ltac me_run :=
  cbv beta delta [bind get_me gets modify_me modify upd_me ret
                  array_entry array_key set_array_entry set_array_key c_assert];
  cbn [me shm sched with_me with_shm].

Lemma with_me_id w : with_me (me w) w = w.
Proof. by destruct w. Qed.

Lemma Reserve_spec w mu :
  prc_inv (me w) mu ->
  exists m', ReservePrivateRefCountEntry w = (Ret tt, with_me m' w) /\
    prc_inv m' mu /\ prc_frame (me w) m' /\ ReservedRefCountSlot m' <> -1 /\
    (forall b, b <> InvalidBuffer -> (b ∉ PrivateRefCountArrayKeys (me w)) ->
      b ∉ PrivateRefCountArrayKeys m').
Proof.
  intros [Hcore Hres Hlast]. unfold ReservePrivateRefCountEntry. me_run.
  destruct (Z.eqb_spec (ReservedRefCountSlot (me w)) (-1)) as [Hr|Hr]; cbn [negb].
  2: { exists (me w). rewrite with_me_id. split_and!; done. }
  me_run.
  destruct (scan_keys_spec InvalidBuffer (PrivateRefCountArrayKeys (me w)))
    as [[Hnot Hs]|[Hs Hrange]]; [apply Hcore| |].
  - rewrite Hs. cbn.
    set (v := PrivateRefCountClock (me w) mod REFCOUNT_ARRAY_ENTRIES).
    assert (0 <= v < 8) as Hv by (apply Z.mod_pos_bound; done).
    destruct (core_at _ _ _ _ _ Hcore v Hv) as (e & He & Hk).
    pose proof (core_not_key _ _ _ _ _ Hcore _ _ _ Hnot He) as Hne.
    destruct (core_array _ _ _ _ _ Hcore _ _ He Hne) as [Hmu Hh].
    rewrite Hk. cbn. rewrite He. cbn.
    rewrite (proj2 (Z.eqb_neq _ _) Hne). cbn. rewrite Z.eqb_refl. cbn. rewrite Hh. cbn.
    eexists. split; [reflexivity|]. split; [|split; [by split|cbn; split; [lia|]]].
    2: { intros b Hb Hb' [->|?]%elem_of_insertZ; done. }
    split; [|right|done]; cbn.
    + pose proof (core_hash_put _ _ _ _ _
        (core_take _ _ _ _ _ Hcore v e no_pin_data He Hne) (entry_buffer e) (entry_data e) Hne
        (lookup_delete_eq _ _)) as Hc.
      by rewrite insert_delete_id in Hc.
    + apply lookupZ_insertZ_eq. rewrite (core_len_keys _ _ _ _ _ Hcore). exact Hv.
  - cbn. rewrite (proj2 (Z.eqb_neq _ _)) by lia. cbn.
    eexists. split; [reflexivity|]. split; [|split; [by split|cbn; split; [lia|done]]].
    split; [done|by right|done].
Qed.

Lemma New_spec w mu b :
  prc_inv (me w) mu -> ReservedRefCountSlot (me w) <> -1 ->
  b <> InvalidBuffer -> mu !! b = None ->
  exists m' ref, NewPrivateRefCountEntry b w = (Ret ref, with_me m' w) /\
    prc_inv m' (<[b := no_pin_data]> mu) /\ prc_frame (me w) m' /\ ref_ok m' ref b.
Proof.
  intros [Hcore [Hres|Hres] Hlast] Hr Hb Hmu; [done|].
  destruct (core_key_entry _ _ _ _ _ Hcore _ _ Hres) as (e & He & Hfree & Hrange).
  unfold NewPrivateRefCountEntry. me_run. rewrite (proj2 (Z.eqb_neq _ _) Hr). cbn.
  rewrite He. cbn. eexists _, _. split; [reflexivity|].
  split; [|split; [by split|]]; cbn.
  - split; cbn; [|by left|by right]. by eapply core_put.
  - eexists. rewrite lookupZ_insertZ_eq; [done|].
    rewrite (core_len_array _ _ _ _ _ Hcore). lia.
Qed.

(** Looking up a buffer finds its entry exactly when it is pinned; the map does
    not change, whether or not the entry moves to the array. *)
Definition found_ref (m : Backend) (mu : gmap Z PrivateRefCountData) (b : Z)
    (res : option RefPtr) : Prop :=
  match res with
  | None => mu !! b = None
  | Some ref => ref_ok m ref b /\ is_Some (mu !! b)
  end.

(** The path that moves an overflowed entry back into the array. *)
Lemma move_spec w mu b d last :
  prc_inv (me w) mu -> b <> InvalidBuffer -> (b ∉ PrivateRefCountArrayKeys (me w)) ->
  PrivateRefCountHash (me w) !! b = Some d -> (last = -1 \/ 0 <= last < 8) ->
  exists m' res, move_to_array b last w = (Ret res, with_me m' w) /\
    prc_inv m' mu /\ prc_frame (me w) m' /\ found_ref m' mu b res.
Proof.
  intros Hinv Hb Hnot Hh Hl. unfold move_to_array.
  assert (mu !! b = Some d) as Hmu by (by eapply core_hash; [apply Hinv|]).
  destruct (Reserve_spec w mu Hinv) as (m & Hrun & [Hcore Hres Hlast] & Hfr & Hr & Hkeys).
  specialize (Hkeys b Hb Hnot). destruct Hres as [?|Hres]; [done|].
  destruct (core_key_entry _ _ _ _ _ Hcore _ _ Hres) as (e & He & Hfree & Hrange).
  assert (PrivateRefCountHash m !! b = Some d) as Hh'.
  { destruct (core_cover _ _ _ _ _ Hcore _ _ Hmu) as [[i Hi]|?]; [|done].
    by destruct (core_not_key _ _ _ _ _ Hcore _ _ _ Hkeys Hi). }
  pose proof (core_hash_del _ _ _ _ _ Hcore _ _ Hh') as Hdel.
  assert (0 < PrivateRefCountOverflowed m) as Hov.
  { pose proof (core_overflowed _ _ _ _ _ Hdel). lia. }
  rewrite (bind_ret _ _ _ _ _ Hrun). me_run. rewrite (proj2 (Z.eqb_neq _ _) Hr). cbn.
  rewrite He. cbn. rewrite Hres. cbn. rewrite Hfree. cbn. rewrite Hh'. cbn.
  rewrite (proj2 (Z.ltb_lt _ _) Hov). cbn.
  eexists _, _. split; [reflexivity|].
  split; [|split; [etrans; [apply Hfr|by split]|split; [|by rewrite Hmu]]].
  - split; cbn; [|by left|done].
    rewrite <- (insert_delete_id mu b d Hmu).
    eapply core_put; [exact Hdel|done..|apply lookup_delete_eq].
  - cbn. eexists. split; [apply lookupZ_insertZ_eq|done].
    by rewrite (core_len_array _ _ _ _ _ Hcore).
Qed.

Lemma GetSlow_spec w mu b do_move :
  prc_inv (me w) mu -> b <> InvalidBuffer ->
  exists m' res, GetPrivateRefCountEntrySlow b do_move w = (Ret res, with_me m' w) /\
    prc_inv m' mu /\ prc_frame (me w) m' /\ found_ref m' mu b res.
Proof.
  intros Hinv Hb. pose proof Hinv as [Hcore Hres Hlast].
  unfold GetPrivateRefCountEntrySlow. me_run.
  destruct (scan_keys_spec b (PrivateRefCountArrayKeys (me w)))
    as [[Hnot Hs]|[Hs Hrange]]; [apply Hcore| |].
  2: { destruct (core_key_entry _ _ _ _ _ Hcore _ _ Hs) as (e & He & Heb & _).
    rewrite (proj2 (Z.eqb_neq _ _)) by lia. cbn.
    eexists _, _. split; [reflexivity|].
    split; [split; cbn; [done|done|lia]|]. split; [by split|].
    split; cbn; [by exists e|]. subst b.
    destruct (core_array _ _ _ _ _ Hcore _ _ He Hb) as [-> _]. done. }
  rewrite Hs. cbn.
  assert (mu !! b = None \/ exists d, PrivateRefCountHash (me w) !! b = Some d) as Hcase.
  { destruct (mu !! b) as [d|] eqn:E; [|by left]. right.
    destruct (core_cover _ _ _ _ _ Hcore _ _ E) as [[i Hi]|?]; [|by eexists].
    by destruct (core_not_key _ _ _ _ _ Hcore _ _ _ Hnot Hi). }
  destruct (PrivateRefCountHash (me w) !! b) as [d|] eqn:Hh.
  2: { assert (mu !! b = None) by naive_solver.
    destruct (_ =? 0); cbn; rewrite ?Hh; exists (me w), None; rewrite with_me_id; done. }
  assert (mu !! b = Some d) as Hmu by (by eapply core_hash).
  assert (0 < PrivateRefCountOverflowed (me w)) as Hov.
  { rewrite (core_overflowed _ _ _ _ _ Hcore).
    assert (size (PrivateRefCountHash (me w)) <> 0%nat); [|lia].
    intros E%map_size_empty_inv. rewrite E in Hh. by rewrite lookup_empty in Hh. }
  rewrite (proj2 (Z.eqb_neq _ _)) by lia. cbn. rewrite Hh.
  destruct do_move; cbn.
  2: { exists (me w), (Some (InHash b)). rewrite with_me_id. cbn. rewrite Hh, Hmu.
    by split_and!. }
  apply move_spec with (d := d); auto.
Qed.

Lemma GetEntry_spec w mu b do_move :
  prc_inv (me w) mu -> 0 < b ->
  exists m' res, GetPrivateRefCountEntry b do_move w = (Ret res, with_me m' w) /\
    prc_inv m' mu /\ prc_frame (me w) m' /\ found_ref m' mu b res.
Proof.
  intros Hinv Hb. pose proof Hinv as [Hcore Hres Hlast].
  assert (b <> InvalidBuffer) as Hb' by (unfold InvalidBuffer; lia).
  unfold GetPrivateRefCountEntry, BufferIsValid, BufferIsLocal.
  rewrite (proj2 (Z.eqb_neq b InvalidBuffer) Hb'), (proj2 (Z.ltb_ge b 0)) by lia.
  me_run. cbn. destruct (Z.eqb_spec (PrivateRefCountEntryLast (me w)) (-1)) as [Hl|Hl]; cbn.
  { by apply GetSlow_spec. }
  destruct Hlast as [?|Hlast]; [done|].
  destruct (core_at _ _ _ _ _ Hcore _ Hlast) as (e & He & Hk).
  rewrite He. cbn. destruct (Z.eqb_spec (entry_buffer e) b) as [<-|Hne].
  2: { by apply GetSlow_spec. }
  destruct (core_array _ _ _ _ _ Hcore _ _ He Hb') as [Hmu _].
  eexists (me w), _. rewrite with_me_id. split; [reflexivity|].
  split_and!; [done..|]. cbn. rewrite Hmu. eauto.
Qed.

(** A buffer that is not pinned has no entry, and the search changes nothing. *)
Lemma GetEntry_absent w mu b do_move :
  prc_inv (me w) mu -> 0 < b -> mu !! b = None ->
  GetPrivateRefCountEntry b do_move w = (Ret None, w).
Proof.
  intros [Hcore Hres Hlast] Hb Hmu.
  assert (b <> InvalidBuffer) as Hb' by (unfold InvalidBuffer; lia).
  assert (GetPrivateRefCountEntrySlow b do_move w = (Ret None, w)) as Hslow.
  { unfold GetPrivateRefCountEntrySlow. me_run.
    destruct (scan_keys_spec b (PrivateRefCountArrayKeys (me w)))
      as [[Hnot Hs]|[Hs _]]; [apply Hcore| |].
    2: { destruct (core_key_entry _ _ _ _ _ Hcore _ _ Hs) as (e & He & Heb & _). subst b.
      destruct (core_array _ _ _ _ _ Hcore _ _ He Hb') as [? _]. congruence. }
    rewrite Hs. cbn. destruct (PrivateRefCountHash (me w) !! b) as [d|] eqn:Hh.
    { apply (core_hash _ _ _ _ _ Hcore) in Hh. congruence. }
    by destruct (_ =? 0); cbn; rewrite ?Hh. }
  unfold GetPrivateRefCountEntry, BufferIsValid, BufferIsLocal.
  rewrite (proj2 (Z.eqb_neq b InvalidBuffer) Hb'), (proj2 (Z.ltb_ge b 0)) by lia.
  me_run. cbn. destruct (Z.eqb_spec (PrivateRefCountEntryLast (me w)) (-1)) as [Hl|Hl]; cbn; [done|].
  destruct Hlast as [?|Hlast]; [done|].
  destruct (core_at _ _ _ _ _ Hcore _ Hlast) as (e & He & Hk).
  rewrite He. cbn. destruct (Z.eqb_spec (entry_buffer e) b) as [<-|Hne]; [|done].
  destruct (core_array _ _ _ _ _ Hcore _ _ He Hb') as [? _]. congruence.
Qed.

(** Without [do_move] the entries stay where they are. *)
Lemma GetEntry_nomove w b res w' ref b' :
  GetPrivateRefCountEntry b false w = (Ret res, w') -> ref_ok (me w) ref b' -> ref_ok (me w') ref b'.
Proof.
  intros Hrun Href.
  assert (PrivateRefCountArray (me w') = PrivateRefCountArray (me w) /\
    PrivateRefCountHash (me w') = PrivateRefCountHash (me w)) as [Ha Hh];
    [|destruct ref; cbn in *; by rewrite ?Ha, ?Hh].
  assert (GetPrivateRefCountEntrySlow b false w = (Ret res, w') ->
    PrivateRefCountArray (me w') = PrivateRefCountArray (me w) /\
    PrivateRefCountHash (me w') = PrivateRefCountHash (me w)) as Hslow.
  { unfold GetPrivateRefCountEntrySlow. unfold bind, get_me, gets, ret. cbn.
    repeat case_match; cbn in *; intros; simplify_eq; done. }
  revert Hrun. unfold GetPrivateRefCountEntry, c_assert, array_entry, bind, get_me, gets, ret, trap.
  destruct (BufferIsValid b); [|done]. destruct (BufferIsLocal b); [done|]. cbn.
  repeat case_match; cbn in *; intros; simplify_eq; auto.
Qed.

Lemma ref_data_spec w mu ref b :
  prc_inv (me w) mu -> 0 < b -> ref_ok (me w) ref b ->
  exists d, mu !! b = Some d /\ ref_data ref w = (Ret d, w).
Proof.
  intros [Hcore _ _] Hb. destruct ref as [i|b']; cbn.
  - intros (e & He & <-). exists (entry_data e).
    destruct (core_array _ _ _ _ _ Hcore _ _ He) as [-> _]; [unfold InvalidBuffer; lia|].
    split; [done|]. me_run. by rewrite He.
  - intros [-> [d Hd]]. exists d. split; [by eapply core_hash|].
    me_run. by rewrite Hd.
Qed.

Lemma set_ref_data_spec w mu ref b d :
  prc_inv (me w) mu -> 0 < b -> ref_ok (me w) ref b ->
  exists m', set_ref_data ref d w = (Ret tt, with_me m' w) /\
    prc_inv m' (<[b := d]> mu) /\ prc_frame (me w) m' /\ ref_ok m' ref b.
Proof.
  intros [Hcore Hres Hlast] Hb. assert (b <> InvalidBuffer) as Hb' by (unfold InvalidBuffer; lia).
  destruct ref as [i|b']; cbn.
  - intros (e & He & Heb). me_run. rewrite He. cbn.
    pose proof (core_keys _ _ _ _ _ Hcore _ _ He) as Hk. rewrite Heb in Hk |- *.
    assert (entry_buffer e <> InvalidBuffer) as Hv by congruence.
    assert (lookupZ (insertZ i (mkRefEntry InvalidBuffer no_pin_data)
      (PrivateRefCountArray (me w))) i = Some (mkRefEntry InvalidBuffer no_pin_data)) as Hi.
    { apply lookupZ_insertZ_eq. by apply lookupZ_Some in He. }
    eexists. split; [reflexivity|]. split_and!; [|by split|].
    + split; cbn; [|done|done].
      pose proof (core_put _ _ _ _ _ (core_take _ _ _ _ _ Hcore _ _ no_pin_data He Hv)
        i b d _ Hi eq_refl Hb') as Hc. rewrite Heb in Hc.
      rewrite !insertZ_insertZ, insert_delete_eq, (insertZ_id _ b) in Hc by done.
      apply Hc, lookup_delete_eq.
    + cbn. eexists. split; [apply lookupZ_insertZ_eq; by apply lookupZ_Some in He|done].
  - intros [-> [d' Hd]]. me_run. eexists. split; [reflexivity|].
    split_and!; [|by split|done|cbn; by rewrite lookup_insert_eq].
    split; cbn; [|done|done].
    pose proof (core_hash_put _ _ _ _ _ (core_hash_del _ _ _ _ _ Hcore _ _ Hd) b d Hb'
      (lookup_delete_eq _ _)) as Hc.
    rewrite !insert_delete_eq in Hc. by replace (_ - 1 + 1) with
      (PrivateRefCountOverflowed (me w)) in Hc by lia.
Qed.

Lemma Forget_spec w mu ref b :
  prc_inv (me w) mu -> 0 < b -> ref_ok (me w) ref b -> mu !! b = Some no_pin_data ->
  exists m', ForgetPrivateRefCountEntry ref w = (Ret tt, with_me m' w) /\
    prc_inv m' (delete b mu) /\ prc_frame (me w) m'.
Proof.
  intros Hinv Hb Href Hmu. pose proof Hinv as [Hcore Hres Hlast].
  assert (b <> InvalidBuffer) as Hb' by (unfold InvalidBuffer; lia).
  destruct (ref_data_spec _ _ _ _ Hinv Hb Href) as (d & Hd & Hrun).
  rewrite Hmu in Hd. injection Hd as <-. unfold ForgetPrivateRefCountEntry.
  rewrite (bind_ret _ _ _ _ _ Hrun). rewrite !c_assert_ok by done. destruct ref as [i|b'].
  - destruct Href as (e & He & <-). me_run. cbn. eexists. split; [reflexivity|].
    split; [|by split]. split; cbn; [by apply core_take|right|done].
    apply lookupZ_insertZ_eq. apply lookupZ_Some in He.
    by rewrite (core_len_keys _ _ _ _ _ Hcore), <- (core_len_array _ _ _ _ _ Hcore).
  - destruct Href as [-> [d Hd]]. me_run. cbn.
    pose proof (core_hash_del _ _ _ _ _ Hcore _ _ Hd) as Hdel.
    rewrite (proj2 (Z.ltb_lt _ _)).
    2: { pose proof (core_overflowed _ _ _ _ _ Hdel). lia. }
    eexists. split; [reflexivity|]. split; [|by split]. by split.
Qed.

Lemma GetPrivateRefCount_spec w mu b :
  prc_inv (me w) mu -> 0 < b ->
  exists m', GetPrivateRefCount b w =
      (Ret (match mu !! b with Some d => data_refcount d | None => 0 end), with_me m' w) /\
    prc_inv m' mu /\ prc_frame (me w) m'.
Proof.
  intros Hinv Hb. unfold GetPrivateRefCount, BufferIsValid, BufferIsLocal.
  rewrite (proj2 (Z.eqb_neq b InvalidBuffer)), (proj2 (Z.ltb_ge b 0)) by (unfold InvalidBuffer; lia).
  destruct (GetEntry_spec w mu b false Hinv Hb) as (m' & res & Hrun & Hinv' & Hfr & Hfound).
  exists m'. cbn [negb c_assert]. rewrite !bind_ret_l, (bind_ret _ _ _ _ _ Hrun).
  destruct res as [ref|]; cbn in Hfound; [|by rewrite Hfound].
  destruct Hfound as [Href _].
  destruct (ref_data_spec (with_me m' w) mu ref b) as (d & Hd & Hrun'); [done..|].
  by rewrite (bind_ret _ _ _ _ _ Hrun'), Hd.
Qed.

(** The initial state ([InitBufferManagerAccess]). *)
Lemma prc_init m :
  PrivateRefCountArrayKeys m = replicate 8 InvalidBuffer ->
  PrivateRefCountArray m = replicate 8 (mkRefEntry InvalidBuffer no_pin_data) ->
  PrivateRefCountHash m = ∅ -> PrivateRefCountOverflowed m = 0 ->
  ReservedRefCountSlot m = -1 -> PrivateRefCountEntryLast m = -1 ->
  prc_inv m ∅.
Proof.
  intros Hk Ha Hh Ho Hr Hl. split; [|by left|by left]. rewrite Hk, Ha, Hh, Ho.
  assert (forall i e, lookupZ (replicate 8 (mkRefEntry InvalidBuffer no_pin_data)) i = Some e ->
    e = mkRefEntry InvalidBuffer no_pin_data /\ 0 <= i < 8) as Hrep.
  { intros i e He. pose proof (lookupZ_Some _ _ _ He) as Hi. unfold lookupZ in He.
    case_match; [|done]. apply lookup_replicate in He as [-> _]. done. }
  split; try done.
  - intros i e [-> Hi]%Hrep. unfold lookupZ. rewrite (proj2 (Z.leb_le _ _)) by lia.
    apply lookup_replicate. split; [done|lia].
  - by intros i e [-> _]%Hrep.
  - by intros i j e e' [-> _]%Hrep.
Qed.

(** ** Tracking the first pin of a buffer

    A resource owner is the list of what it will release. *)
Definition ResourceOwnerRememberBuffer (buffer : Z) : M unit :=
  modify_me (fun m => with_owned_pins (buffer :: owned_pins m) m).

Definition ResourceOwnerForgetBuffer (buffer : Z) : M unit :=
  let* pins := get_me owned_pins in
  match remove_one buffer pins with
  | Some pins => modify_me (with_owned_pins pins)
  | None => elog "buffer is not owned by resource owner"
  end.

Definition ResourceOwnerRememberBufferIO (buffer : Z) : M unit :=
  modify_me (fun m => with_owned_ios (buffer :: owned_ios m) m).

Definition ResourceOwnerForgetBufferIO (buffer : Z) : M unit :=
  let* ios := get_me owned_ios in
  match remove_one buffer ios with
  | Some ios => modify_me (with_owned_ios ios)
  | None => elog "buffer I/O is not owned by resource owner"
  end.

Definition TrackNewBufferPin (buf : Z) : M unit :=
  let* ref := NewPrivateRefCountEntry buf in
  let* d := ref_data ref in
  set_ref_data ref (mkRefData (i32 (data_refcount d + 1)) (data_lockmode d)) ;;
  ResourceOwnerRememberBuffer buf.

Definition one_pin : PrivateRefCountData := mkRefData 1 BUFFER_LOCK_UNLOCK.

(** A backend that reserved an entry can track one more buffer. *)
Record can_track (m : Backend) (b : Z) : Prop := {
  ct_map : exists mu, prc_inv m mu /\ mu !! b = None;
  ct_reserved : ReservedRefCountSlot m <> -1
}.

(** The pins of [m'] are those of [m] and one of [b]; nothing else changed. *)
Record tracked (m m' : Backend) (b : Z) : Prop := {
  tr_map : forall mu, prc_inv m mu -> mu !! b = None -> prc_inv m' (<[b := one_pin]> mu);
  tr_pins : owned_pins m' = b :: owned_pins m;
  tr_frame : prc_frame (with_owned_pins (b :: owned_pins m) m) m';
  tr_hash : PrivateRefCountHash m' = PrivateRefCountHash m
}.

(** The map that [m] tracks is unique. *)
Lemma prc_inv_unique m mu mu' : prc_inv m mu -> prc_inv m mu' -> mu = mu'.
Proof.
  intros [H1 _ _] [H2 _ _]. apply map_eq. intros b. apply option_eq. intros d.
  assert (forall mu mu', prc_core (PrivateRefCountArrayKeys m) (PrivateRefCountArray m)
    (PrivateRefCountHash m) (PrivateRefCountOverflowed m) mu ->
    prc_core (PrivateRefCountArrayKeys m) (PrivateRefCountArray m)
    (PrivateRefCountHash m) (PrivateRefCountOverflowed m) mu' ->
    mu !! b = Some d -> mu' !! b = Some d) as Hone; [|by split; eapply Hone].
  clear. intros mu mu' H1 H2 Hd.
  destruct (core_cover _ _ _ _ _ H1 _ _ Hd) as [[i Hi]|Hh]; [|by eapply core_hash].
  destruct (core_array _ _ _ _ _ H2 _ _ Hi) as [? _]; [cbn|done].
  intros ->. rewrite (core_no_invalid _ _ _ _ _ H1) in Hd. done.
Qed.

(** The new entry goes into the array. *)
Lemma TrackNewBufferPin_hash w b w' :
  TrackNewBufferPin b w = (Ret tt, w') -> PrivateRefCountHash (me w') = PrivateRefCountHash (me w).
Proof.
  unfold TrackNewBufferPin, NewPrivateRefCountEntry, ResourceOwnerRememberBuffer, c_assert, set_array_key, set_array_entry,
    array_entry, get_me, gets, modify_me, modify, bind, ret, trap.
  destruct (negb _); [|done]. destruct (lookupZ _ _); [|done]. cbn. unfold bind, array_entry, get_me, gets, bind, ret, trap. cbn.
  destruct (lookupZ _ _); [|done]. cbn. unfold bind. cbn. destruct (lookupZ _ _); [|done]. by intros [= <-].
Qed.

Lemma TrackNewBufferPin_spec w b :
  can_track (me w) b -> 0 < b ->
  exists m', TrackNewBufferPin b w = (Ret tt, with_me m' w) /\ tracked (me w) m' b.
Proof.
  intros [(mu & Hinv & Hmu) Hres] Hb.
  assert (b <> InvalidBuffer) as Hb' by (unfold InvalidBuffer; lia).
  destruct (New_spec w mu b) as (m1 & ref & Hrun1 & Hinv1 & Hfr1 & Href1); [done..|].
  destruct (ref_data_spec (with_me m1 w) _ _ _ Hinv1 Hb Href1) as (d & Hd & Hrun2).
  rewrite lookup_insert_eq in Hd. injection Hd as <-.
  destruct (set_ref_data_spec (with_me m1 w) _ _ _ one_pin Hinv1 Hb Href1)
    as (m2 & Hrun3 & Hinv2 & Hfr2 & _). rewrite insert_insert_eq in Hinv2.
  assert (prc_frame (me w) m2) as Hfr by (by etrans).
  assert (TrackNewBufferPin b w = (Ret tt, with_me (with_owned_pins (b :: owned_pins m2) m2) w)) as Hrun.
  { unfold TrackNewBufferPin. rewrite (bind_ret _ _ _ _ _ Hrun1), (bind_ret _ _ _ _ _ Hrun2).
    change (mkRefData _ _) with one_pin. by rewrite (bind_ret _ _ _ _ _ Hrun3). }
  eexists. split; [exact Hrun|]. split; cbn.
  - intros mu' H' _. rewrite (prc_inv_unique _ _ _ H' Hinv). destruct Hinv2. by split.
  - by rewrite (fr_pins _ _ Hfr).
  - destruct Hfr. split; cbn; congruence.
  - exact (TrackNewBufferPin_hash _ _ _ Hrun).
Qed.
