(* ===== verification/Ring.v ===== *)
(** * Buffer access strategy rings ([freelist.c], lines 1336-1681)

    A scan that would flood the cache re-uses a small ring of buffers.  The
    rings live in the heap of the backend; a [BufferAccessStrategy] is [None]
    (the default strategy) or the address of a ring.  The file also has the pin
    budget of [bufmgr.c] that the size of a ring depends on. *)
From S2P Require Import Prelude BufState BufTag Shmem Concurrency PrivateRefCount.

Definition BLCKSZ : Z := 8192.

(** ** Pin budget ([bufmgr.c]) *)
Definition GetPinLimit : M Z := get_me MaxProportionalPins.

Definition GetAdditionalPinLimit : M Z :=
  let* overflowed := get_me PrivateRefCountOverflowed in
  let* limit := get_me MaxProportionalPins in
  let estimated_pins_held := u32 (overflowed + REFCOUNT_ARRAY_ENTRIES) in
  if limit <? estimated_pins_held then ret 0
  else ret (u32 (limit - estimated_pins_held)).

Definition LimitAdditionalPins (additional_pins : Z) : M Z :=
  if additional_pins <=? 1 then ret additional_pins else
  let* limit := GetAdditionalPinLimit in
  let limit := Z.max limit 1 in
  if limit <? additional_pins then ret limit else ret additional_pins.

(** ** The ring heap *)
Definition BufferAccessStrategy := option Z.

Definition ring (h : Z) : M BufferAccessStrategyData :=
  let* r := get_me (fun m => rings m !! h) in
  match r with
  | Some r => ret r
  | None => trap "access to a freed ring"
  end.
Definition set_ring (h : Z) (r : BufferAccessStrategyData) : M unit :=
  modify_me (fun m => with_rings (<[h := r]> (rings m)) m).

(** [strategy->buffers[strategy->current]] and the assignment to it. *)
Definition ring_current (h : Z) : M Z :=
  let* r := ring h in
  match lookupZ (buffers r) (current r) with
  | Some b => ret b
  | None => trap "ring index out of range"
  end.
Definition set_ring_current (h b : Z) : M unit :=
  ring_current h ;;
  let* r := ring h in
  set_ring h (with_buffers (insertZ (current r) b (buffers r)) r).

(** ** Creating and freeing rings *)
Definition GetAccessStrategyWithSize (bt : BufferAccessStrategyType) (ring_size_kb : Z)
    : M BufferAccessStrategy :=
  c_assert (0 <=? ring_size_kb) "negative ring size" ;;
  let ring_buffers := ring_size_kb / (BLCKSZ / 1024) in
  if ring_buffers =? 0 then ret None else
  let* nb := get_me NBuffers in
  let ring_buffers := Z.min (nb / 8) ring_buffers in
  c_assert (0 <? ring_buffers) "empty ring" ;;
  let* h := get_me (fun m => fresh (dom (rings m) : gset Z)) in
  set_ring h (mkRing bt ring_buffers 0 (replicate (Z.to_nat ring_buffers) InvalidBuffer)) ;;
  ret (Some h).

(** The two GUCs are arguments. *)
Definition GetAccessStrategy (io_combine_limit effective_io_concurrency : Z)
    (bt : BufferAccessStrategyType) : M BufferAccessStrategy :=
  match bt with
  | BAS_NORMAL => ret None
  | BAS_BULKREAD =>
      let ring_size_kb := 256 in
      let* limit := GetPinLimit in
      let ring_max_kb := i32 (u32 (limit * (BLCKSZ / 1024))) in
      let ring_max_kb := Z.max ring_size_kb ring_max_kb in
      let ring_size_kb := i32 (ring_size_kb +
        i32 (i32 (BLCKSZ / 1024 * io_combine_limit) * effective_io_concurrency)) in
      let ring_size_kb := if ring_max_kb <? ring_size_kb then ring_max_kb else ring_size_kb in
      GetAccessStrategyWithSize bt ring_size_kb
  | BAS_BULKWRITE => GetAccessStrategyWithSize bt (16 * 1024)
  | BAS_VACUUM => GetAccessStrategyWithSize bt 2048
  end.

Definition GetAccessStrategyBufferCount (strategy : BufferAccessStrategy) : M Z :=
  match strategy with
  | None => ret 0
  | Some h => let* r := ring h in ret (nbuffers r)
  end.

Definition GetAccessStrategyPinLimit (strategy : BufferAccessStrategy) : M Z :=
  match strategy with
  | None => get_me NBuffers
  | Some h =>
      let* r := ring h in
      match btype r with
      | BAS_BULKREAD => ret (nbuffers r)
      | _ => ret (nbuffers r / 2)
      end
  end.

Definition FreeAccessStrategy (strategy : BufferAccessStrategy) : M unit :=
  match strategy with
  | None => ret tt
  | Some h => ring h ;; modify_me (fun m => with_rings (delete h (rings m)) m)
  end.

(** ** Using a ring *)

(** One round of the swap loop on the state word. *)
Definition ring_round (buf old_buf_state : Z) : M (ctl Z (option (Z * Z))) :=
  let local_buf_state := old_buf_state in
  if negb (BUF_STATE_GET_REFCOUNT local_buf_state =? 0)
     || (1 <? BUF_STATE_GET_USAGECOUNT local_buf_state)
  then ret (Break None)
  else if flag local_buf_state BM_LOCKED
  then let* s := WaitBufHdrUnlocked buf in ret (Continue s)
  else
    let local_buf_state := u64 (local_buf_state + BUF_REFCOUNT_ONE) in
    let* '(ok, seen) := pg_atomic_compare_exchange_u64 buf old_buf_state local_buf_state in
    if ok : bool then
      let* b := BufferDescriptorGetBuffer buf in
      TrackNewBufferPin b ;;
      ret (Break (Some (buf, local_buf_state)))
    else ret (Continue seen).

(** Returns the descriptor and the state word it was pinned with. *)
Definition GetBufferFromRing (strategy : Z) : M (option (Z * Z)) :=
  let* r := ring strategy in
  let cur := i32 (current r + 1) in
  set_ring strategy (with_current (if nbuffers r <=? cur then 0 else cur) r) ;;
  let* bufnum := ring_current strategy in
  if bufnum =? InvalidBuffer then ret None else
  let buf := GetBufferDescriptor (bufnum - 1) in
  let* old_buf_state := pg_atomic_read_u64 buf in
  forever (ring_round buf) old_buf_state.

Definition AddBufferToRing (strategy buf : Z) : M unit :=
  let* b := BufferDescriptorGetBuffer buf in
  set_ring_current strategy b.

Inductive IOContext :=
| IOCONTEXT_BULKREAD | IOCONTEXT_BULKWRITE | IOCONTEXT_INIT | IOCONTEXT_NORMAL | IOCONTEXT_VACUUM.

Definition IOContextForStrategy (strategy : BufferAccessStrategy) : M IOContext :=
  match strategy with
  | None => ret IOCONTEXT_NORMAL
  | Some h =>
      let* r := ring h in
      match btype r with
      | BAS_NORMAL => trap "pg_unreachable"
      | BAS_BULKREAD => ret IOCONTEXT_BULKREAD
      | BAS_BULKWRITE => ret IOCONTEXT_BULKWRITE
      | BAS_VACUUM => ret IOCONTEXT_VACUUM
      end
  end.

(** Only called with a ring. *)
Definition StrategyRejectBuffer (strategy buf : Z) (from_ring : bool) : M bool :=
  let* r := ring strategy in
  if negb (bool_decide (btype r = BAS_BULKREAD)) then ret false else
  if negb from_ring then ret false else
  let* c := ring_current strategy in
  let* b := BufferDescriptorGetBuffer buf in
  if negb (c =? b) then ret false else
  set_ring_current strategy InvalidBuffer ;;
  ret true.

(** What every policy does with the buffer it has just claimed. *)
Definition claim_buffer (strategy : BufferAccessStrategy) (buf : Z) : M unit :=
  (match strategy with
   | Some h => AddBufferToRing h buf
   | None => ret tt
   end) ;;
  let* b := BufferDescriptorGetBuffer buf in
  TrackNewBufferPin b.

(** ** Invariant of a ring *)
Record ring_ok (n : Z) (r : BufferAccessStrategyData) : Prop := {
  ring_size : 0 < nbuffers r < 2 ^ 31;
  ring_len : Z.of_nat (length (buffers r)) = nbuffers r;
  ring_cur : 0 <= current r < nbuffers r;
  ring_elems : forall i b, lookupZ (buffers r) i = Some b -> 0 <= b <= n
}.

Definition ring_ready (n : Z) (strategy : BufferAccessStrategy) (m : Backend) : Prop :=
  match strategy with
  | None => True
  | Some h => exists r, rings m !! h = Some r /\ ring_ok n r
  end.

(** The ring with [b] in its current slot. *)
Definition ring_put (b : Z) (r : BufferAccessStrategyData) : BufferAccessStrategyData :=
  with_buffers (insertZ (current r) b (buffers r)) r.
Definition rings_put (strategy : BufferAccessStrategy) (b : Z)
    (rs : gmap Z BufferAccessStrategyData) : gmap Z BufferAccessStrategyData :=
  match strategy with None => rs | Some h => alter (ring_put b) h rs end.

Lemma ring_put_ok n b r : ring_ok n r -> 0 <= b <= n -> ring_ok n (ring_put b r).
Proof.
  intros [Hs Hl Hc He] Hb. split; cbn; rewrite ?length_insertZ; try done.
  intros i b' [[_ <-]|[_ ?]]%lookupZ_insertZ_Some; [done|by eapply He].
Qed.

Lemma ring_run w h r : rings (me w) !! h = Some r -> ring h w = (Ret r, w).
Proof. intros H. unfold ring, bind, get_me, gets. cbn. by rewrite H. Qed.

Lemma ring_current_run n w h r :
  rings (me w) !! h = Some r -> ring_ok n r ->
  exists b, ring_current h w = (Ret b, w) /\ lookupZ (buffers r) (current r) = Some b.
Proof.
  intros H Hok. destruct (lookupZ_lt (buffers r) (current r)) as [b Hb].
  { rewrite (ring_len _ _ Hok). apply Hok. }
  exists b. split; [|done]. unfold ring_current.
  rewrite (bind_ret _ _ _ _ _ (ring_run _ _ _ H)). by rewrite Hb.
Qed.

Lemma set_ring_current_run n w h r b :
  rings (me w) !! h = Some r -> ring_ok n r ->
  set_ring_current h b w =
    (Ret tt, with_me (with_rings (<[h := ring_put b r]> (rings (me w))) (me w)) w).
Proof.
  intros H Hok. unfold set_ring_current.
  destruct (ring_current_run n w h r H Hok) as (b0 & Hrun & _).
  by rewrite (bind_ret _ _ _ _ _ Hrun), (bind_ret _ _ _ _ _ (ring_run _ _ _ H)).
Qed.

Lemma GetBuffer_run w buf d :
  desc_at w buf d -> BufferDescriptorGetBuffer buf w = (Ret (buf_id d + 1), w).
Proof.
  intros Hd. unfold BufferDescriptorGetBuffer. by rewrite (bind_ret _ _ _ _ _ (deref_run _ _ _ Hd)).
Qed.

Lemma prc_inv_rings m R mu : prc_inv (with_rings R m) mu <-> prc_inv m mu.
Proof. split; intros []; by split. Qed.

Lemma can_track_rings m R b : can_track m b -> can_track (with_rings R m) b.
Proof. intros [(mu & Hi & Hm) Hr]. split; [|done]. exists mu. by rewrite prc_inv_rings. Qed.

Lemma claim_buffer_run n w strategy buf d :
  ring_ready n strategy (me w) -> desc_at w buf d -> buf_id d = buf -> 0 <= buf ->
  can_track (me w) (buf + 1) ->
  exists m', claim_buffer strategy buf w = (Ret tt, with_me m' w) /\
    tracked (with_rings (rings_put strategy (buf + 1) (rings (me w))) (me w)) m' (buf + 1).
Proof.
  intros Hring Hd Hid Hb Hct. unfold claim_buffer, AddBufferToRing.
  set (m1 := with_rings (rings_put strategy (buf + 1) (rings (me w))) (me w)).
  assert ((match strategy with
    | Some h => let* b := BufferDescriptorGetBuffer buf in set_ring_current h b
    | None => ret tt
    end) w = (Ret tt, with_me m1 w)) as Hadd.
  { subst m1. destruct strategy as [h|]; cbn.
    - destruct Hring as (r & Hr & Hok).
      rewrite (bind_ret _ _ _ _ _ (GetBuffer_run _ _ _ Hd)), Hid.
      rewrite (set_ring_current_run n _ _ r) by done. f_equal. f_equal. f_equal.
      rewrite <- (insert_id (rings (me w)) h r Hr) at 2. by rewrite alter_insert_eq.
    - by destruct w as [? [] ?]. }
  rewrite (bind_ret _ _ _ _ _ Hadd).
  rewrite (bind_ret _ _ (with_me m1 w) (buf + 1) (with_me m1 w)).
  2: { rewrite <- Hid at 2. by apply GetBuffer_run. }
  destruct (TrackNewBufferPin_spec (with_me m1 w) (buf + 1)) as (m' & Hrun & Htr).
  { by apply can_track_rings. }
  { lia. }
  by exists m'.
Qed.

(** ** Claiming a buffer under interference *)

(** A backend that may pin one more buffer, and whose pins [pr] accounts for. *)
Definition ready (pr : Proto) (m : Backend) : Prop :=
  ReservedRefCountSlot m <> -1 /\
  exists mu, prc_inv m mu /\ forall b, is_Some (mu !! b) -> is_Some (pr_own pr (b - 1)).

(** In [w1] the buffer had no pin and no header lock; the swap that added our
    pin is the only change of shared memory from [w1] to [w']. *)
Record claimed (pr : Proto) (strategy : BufferAccessStrategy) (buf st : Z) (w1 w' : World)
    : Prop := {
  cl_range : 0 <= buf < pr_n pr;
  cl_free : exists d, desc_at w1 buf d /\ refcount (state d) = 0 /\
    flag (state d) BM_LOCKED = false /\ st = pinned_word (state d) /\
    BufferDescriptors (shm w') = insertZ buf (with_state st d) (BufferDescriptors (shm w1));
  cl_pinned : refcount st = 1;
  cl_tracked : tracked (with_rings (rings_put strategy (buf + 1) (rings (me w1))) (me w1))
    (me w') (buf + 1);
  cl_sched : sched w' = sched w1
}.

Lemma ready_can_track pr m buf :
  ready pr m -> pr_own pr buf = None -> can_track m (buf + 1).
Proof.
  intros [Hr (mu & Hinv & Hp)] Hn. split; [|done]. exists mu. split; [done|].
  destruct (mu !! (buf + 1)) eqn:E; [|done].
  destruct (Hp (buf + 1)) as [P HP]; [by rewrite E|].
  replace (buf + 1 - 1) with buf in HP by lia. congruence.
Qed.

Lemma ready_rings pr m R : ready pr m -> ready pr (with_rings R m).
Proof.
  intros [Hr (mu & Hinv & Hp)]. split; [done|]. exists mu. by rewrite prc_inv_rings.
Qed.

(** The state word after a successful claim. *)
Lemma pinned_free s :
  wf_state s -> refcount s = 0 ->
  wf_state (pinned_word s) /\ refcount (pinned_word s) = 1 /\ usage (pinned_word s) = usage s /\
  forall k, 0 <= k -> flag (pinned_word s) (BUF_DEFINE_FLAG k) = flag s (BUF_DEFINE_FLAG k).
Proof.
  intros Hwf Hr. destruct (pin_word s Hwf) as (Hwf' & Hr' & Hq); [lia|].
  split_and!; [done|lia|by apply usage_quot18|]. intros k Hk. by apply flag_quot18.
Qed.

Lemma claim_buffer_claimed pr strategy w1 buf d mem' :
  env_ok pr w1 -> ready pr (me w1) -> ring_ready (pr_n pr) strategy (me w1) ->
  0 <= buf < pr_n pr -> desc_at w1 buf d -> buf_id d = buf -> wf_state (state d) ->
  own_ok pr buf (state d) ->
  refcount (state d) = 0 -> flag (state d) BM_LOCKED = false ->
  exists w', claim_buffer strategy buf
      (with_mem mem' (set_desc buf (with_state (pinned_word (state d)) d) w1)) = (Ret tt, w') /\
    claimed pr strategy buf (pinned_word (state d)) w1 w' /\
    shm w' = shm (with_mem mem' (set_desc buf (with_state (pinned_word (state d)) d) w1)).
Proof.
  intros Henv Hready Hring Hb Hd Hid Hwf Hpin Hr Hl.
  destruct (pinned_free _ Hwf Hr) as (Hwf' & Hr' & _).
  set (w2 := with_mem mem' (set_desc buf (with_state (pinned_word (state d)) d) w1)).
  destruct (claim_buffer_run (pr_n pr) w2 strategy buf (with_state (pinned_word (state d)) d))
    as (m' & Hrun & Htr); [done| |done|lia| |].
  { apply (desc_at_set_eq w1 _ d). done. }
  { by apply (ready_can_track pr); [|apply (own_free _ _ (state d))]. }
  eexists. split; [exact Hrun|]. split; [|done]. split; try done. by exists d.
Qed.

(** After the claim the world is as sound as with the swap alone. *)
Lemma claimed_env pr strategy buf st w1 w2 w' :
  claimed pr strategy buf st w1 w' -> env_ok pr w2 -> me w2 = me w1 -> sched w2 = sched w1 ->
  shm w' = shm w2 -> env_ok pr w'.
Proof.
  intros [_ _ _ Htr Hs] He Hme Hsch Hshm.
  eapply env_same; [exact He|done|congruence| |]; rewrite Hme.
  - apply (fr_Proc _ _ (tr_frame _ _ _ Htr)).
  - apply (fr_NBuffers _ _ (tr_frame _ _ _ Htr)).
Qed.

(** ** The ring operations under interference *)
Definition next_slot (r : BufferAccessStrategyData) : Z :=
  if nbuffers r <=? current r + 1 then 0 else current r + 1.

Lemma ring_advance_ok n r :
  ring_ok n r ->
  (if nbuffers r <=? i32 (current r + 1) then 0 else i32 (current r + 1)) = next_slot r /\
  ring_ok n (with_current (next_slot r) r).
Proof.
  intros [Hs Hl Hc He]. unfold next_slot. rewrite (i32_small (current r + 1)) by lia.
  split; [done|]. split; cbn; try done. destruct (Z.leb_spec (nbuffers r) (current r + 1)); lia.
Qed.

(** What [GetBufferFromRing] does with the next slot of [r]. *)
Definition from_ring_post (pr : Proto) (h : Z) (r : BufferAccessStrategyData) (w : World)
    (o : outcome (option (Z * Z))) (w' : World) : Prop :=
  let m1 := with_rings (<[h := with_current (next_slot r) r]> (rings (me w))) (me w) in
  match o with
  | Ret None => evolves pr (with_me m1 w) w'
  | Ret (Some (buf, st)) =>
      lookupZ (buffers r) (next_slot r) = Some (buf + 1) /\ usage st <= 1 /\ env_ok pr w' /\
      exists w1, evolves pr (with_me m1 w) w1 /\ claimed pr None buf st w1 w' /\
        StrategyControl (shm w') = StrategyControl (shm w1) /\ mem w' = mem w1
  | Spin => True
  | Elog _ | UB _ => False
  end.

(** The loop over the state word of the buffer in the slot. *)
Lemma ring_loop pr h r w w1 buf :
  let m1 := with_rings (<[h := with_current (next_slot r) r]> (rings (me w))) (me w) in
  ready pr (me w) -> lookupZ (buffers r) (next_slot r) = Some (buf + 1) ->
  0 <= buf < pr_n pr ->
  forall st, evolves pr (with_me m1 w) w1 -> wf_state st ->
  wp (forever (ring_round buf) st) (from_ring_post pr h r w) w1.
Proof.
  intros m1 Hready Hslot Hb st0 Hev0 Hwf0.
  apply (wp_forever_partial (fun st w' => evolves pr (with_me m1 w) w' /\ wf_state st)).
  { done. }
  2: { done. }
  intros st w2 [Hev Hwf]. unfold ring_round. rewrite get_refcount, get_usagecount by apply Hwf.
  destruct (Z.eqb_spec (refcount st) 0) as [Hr|Hr]; cbn [negb orb]; [|by apply wp_ret].
  destruct (Z.ltb_spec 1 (usage st)) as [Hu|Hu]; [by apply wp_ret|].
  destruct (flag st BM_LOCKED) eqn:Hl.
  { apply wp_bind, wp_WaitBufHdrUnlocked with (pr := pr); [apply Hev|done|done|].
    intros w3 d Hev3 Hd Hid Hwf3 Hpin _. cbn [bind_post]. apply wp_ret. cbn.
    split; [by eapply evolves_trans|done]. }
  apply wp_bind, wp_pg_atomic_compare_exchange_u64 with (pr := pr); [apply Hev|done| |].
  2: { intros w3 d Hev3 Hd Hid _ Hwf3 Hpin. cbn [bind_post]. apply wp_ret. cbn.
    split; [by eapply evolves_trans|done]. }
  intros w3 d Hev3 Hd Hid Hst _ Hpin. cbn [bind_post]. subst st.
  assert (evolves pr (with_me m1 w) w3) as Hev' by (by eapply evolves_trans).
  pose proof (evo_env _ _ _ Hev') as Henv3. pose proof (evo_me _ _ _ Hev') as Hme. cbn in Hme.
  destruct (claim_buffer_claimed pr None w3 buf d (mem w3)) as (w4 & Hrun & Hcl & Hshm);
    try done.
  { rewrite Hme. by apply ready_rings. }
  fold (pinned_word (state d)).
  unfold claim_buffer in Hrun. rewrite bind_ret_l in Hrun.
  replace (with_mem (mem w3) _) with (set_desc buf (with_state (pinned_word (state d)) d) w3) in Hrun
    by (by destruct w3 as [[] ? ?]).
  replace (with_mem (mem w3) _) with (set_desc buf (with_state (pinned_word (state d)) d) w3) in Hshm
    by (by destruct w3 as [[] ? ?]).
  assert (BufferDescriptorGetBuffer buf (set_desc buf (with_state (pinned_word (state d)) d) w3) =
    (Ret (buf + 1), set_desc buf (with_state (pinned_word (state d)) d) w3)) as Hget.
  { rewrite (GetBuffer_run _ _ (with_state (pinned_word (state d)) d)); [cbn; by rewrite Hid|].
    by apply (desc_at_set_eq w3 _ d). }
  rewrite (bind_ret _ _ _ _ _ Hget) in Hrun.
  eapply wp_eq; [by rewrite (bind_ret _ _ _ _ _ Hget), (bind_ret _ _ _ _ _ Hrun)|].
  cbn. split; [done|]. destruct (pinned_free _ Hwf Hr) as (Hwf' & Hr' & -> & _). split; [done|].
  split.
  { eapply (claimed_env _ _ _ _ w3 (set_desc buf (with_state (pinned_word (state d)) d) w3)); try done.
    eapply env_set_desc; [done|exact Hd|done|done|]. by eapply own_none, own_free. }
  exists w3. unfold mem. rewrite Hshm. by split_and!.
Qed.

Lemma GetBufferFromRing_post pr h r w :
  env_ok pr w -> ready pr (me w) -> rings (me w) !! h = Some r -> ring_ok (pr_n pr) r ->
  wp (GetBufferFromRing h) (from_ring_post pr h r w) w.
Proof.
  intros Henv Hready Hr Hok. destruct (ring_advance_ok _ _ Hok) as [Hnext Hok'].
  unfold GetBufferFromRing.
  apply wp_bind. eapply wp_eq; [by apply ring_run|]. cbn [bind_post]. rewrite Hnext.
  set (m1 := with_rings (<[h := with_current (next_slot r) r]> (rings (me w))) (me w)).
  apply wp_bind. eapply (wp_eq _ _ _ _ (with_me m1 w)); [done|]. cbn [bind_post].
  assert (rings m1 !! h = Some (with_current (next_slot r) r)) as Hm1 by apply lookup_insert_eq.
  destruct (ring_current_run (pr_n pr) (with_me m1 w) h _ Hm1 Hok') as (b & Hrun & Hb). cbn in Hb.
  apply wp_bind. eapply wp_eq; [exact Hrun|]. cbn [bind_post].
  assert (env_ok pr (with_me m1 w)) as Henv1 by (by apply env_me).
  pose proof (ring_elems _ _ Hok _ _ Hb) as Hrange.
  destruct (Z.eqb_spec b InvalidBuffer) as [->|Hv]; [by apply wp_ret|]. unfold InvalidBuffer in Hv.
  unfold GetBufferDescriptor.
  apply wp_bind, wp_pg_atomic_read_u64 with (pr := pr); [done|lia|].
  intros w1 d Hev Hd Hid Hwf Hpin. cbn [bind_post].
  apply ring_loop; [done| |lia|done|done]. by replace (b - 1 + 1) with b by lia.
Qed.
