(* ===== verification/Sample.v ===== *)
(** * A small buffer pool

    A world of three buffers in which the hypotheses of the theorems about the
    policies can be evaluated: buffer 0 is pinned by another process, buffer 1
    was used twice, buffer 2 was not used.  [other_pin] is an action of another
    process that the rely condition allows. *)
From S2P Require Import Prelude BufState BufTag Shmem Concurrency PrivateRefCount Ring.

Definition sample_desc (i st : Z) : BufferDesc :=
  mkBufferDesc (ClearBufferTag inhabitant) i st (-1) None [].
Definition sample_descs (sts : list Z) : list BufferDesc :=
  zip_with sample_desc (seqZ 0 (Z.of_nat (length sts))) sts.
Definition sample_states : list Z := [1; 2 * 2 ^ 18; 0].

Definition sample_ring : BufferAccessStrategyData := mkRing BAS_BULKREAD 2 0 [0; 3].

Definition sample_local : LocalBuffers := mkLocalBuffers 2 0 [] [] [] 0 None 0 0 0 0 [] ∅ ∅.

(** A backend without pins that has reserved a slot for one. *)
Definition sample_me (n : Z) (p : EvictionVtablePtr) : Backend :=
  mkBackend n (Some p) 7 5000 (replicate 8 InvalidBuffer)
    (replicate 8 (mkRefEntry InvalidBuffer no_pin_data)) ∅ 0 0 0 (-1) [] [] {[ 0 := sample_ring ]} [] 8
    None 0 false (mkAccounting 0 0 0 0 0 0 0 0 false 0 1 2 20 None) [] sample_local
    (mkWritebackContext 2 []) (mkWritebackContext 2 []).

Definition sample_control : BufferStrategyCommon := mkStrategyCommon None EVICTION_CLOCKSWEEP 0 0 (-1).
Definition sample_world (p : EvictionVtablePtr) (m : list Z) (fs : list (Shared -> Shared)) : World :=
  mkWorld (mkShared (sample_descs sample_states) sample_control m ∅ [] [0; 0; 0] ∅ 0)
    (sample_me 3 p) fs.

(** Another process pins buffer [b] unless its count is at the maximum. *)
Definition other_pin (b : Z) (s : Shared) : Shared :=
  match lookupZ (BufferDescriptors s) b with
  | Some d =>
      if refcount (state d) <? 2 ^ 18 - 1
      then with_BufferDescriptors (insertZ b (with_state (pinned_word (state d)) d) (BufferDescriptors s)) s
      else s
  | None => s
  end.

Lemma other_pin_ok pr b : pr_own pr b = None -> other_ok pr (other_pin b).
Proof.
  intros Hown s [[Hlen Hids Hbgw] Hl]. unfold other_pin.
  destruct (lookupZ (BufferDescriptors s) b) as [d|] eqn:Hd; [|done].
  destruct (Z.ltb_spec (refcount (state d)) (2 ^ 18 - 1)) as [Hr|Hr]; [|done].
  destruct (Hids b d Hd) as (Hid & Hwf & Hp). destruct (pin_word (state d) Hwf Hr) as (Hwf' & Hr' & _).
  split; [|done]. split; [|done]. split; cbn; [by rewrite length_insertZ| |done].
  intros i d' [[<- <-]|[_ Hi]]%lookupZ_insertZ_Some; [|by apply Hids].
  split; [done|]. split; [done|]. by apply own_none.
Qed.

Lemma sample_reserved n p : prc_inv (sample_me n p) ∅ /\ ReservedRefCountSlot (sample_me n p) <> -1.
Proof.
  split; [|done]. destruct (prc_init (with_ReservedRefCountSlot (-1) (sample_me n p))) as [Hc _ Hl]; try done.
  split; [done|by right|done].
Qed.

Lemma sample_can_track n p b : can_track (sample_me n p) b.
Proof. destruct (sample_reserved n p). split; [|done]. by exists ∅. Qed.

Lemma sample_ring_ok n : 3 <= n -> ring_ok n sample_ring.
Proof.
  intros Hn. split; try (cbn; lia). intros i b Hb. pose proof (lookupZ_Some _ _ _ Hb) as Hi. cbn in Hi.
  assert (i = 0 \/ i = 1) as [-> | ->] by lia; cbn in Hb; injection Hb as <-; lia.
Qed.

Lemma sample_ring_ready n p : 3 <= n -> ring_ready n (Some 0) (sample_me n p).
Proof. intros Hn. exists sample_ring. split; [done|by apply sample_ring_ok]. Qed.

Lemma sample_desc_at p m fs x :
  0 <= x < 3 -> exists d, sees (sample_world p m fs) x d /\
    (x = 0 <-> refcount (state d) <> 0) /\ (unpinned (sample_world p m fs) x = (refcount (state d) =? 0)).
Proof.
  intros Hx. assert (x = 0 \/ x = 1 \/ x = 2) as [-> | [-> | ->]] by lia; eexists;
    (split; [split; [reflexivity|split; [done|split; [|done]]]|]); try (split; [|done]); vm_compute; try done.
Qed.

Definition sample_proto (inv : list Z -> Prop) (locked : bool) : Proto :=
  mkProto 3 7 (fun _ => None) inv locked.

Lemma sample_descs_ok inv locked p m fs :
  descs_ok (sample_proto inv locked) (shm (sample_world p m fs)).
Proof.
  split; [done| |by left]. intros i d Hd. pose proof (lookupZ_Some _ _ _ Hd) as Hi.
  change (Z.of_nat (length (BufferDescriptors (shm (sample_world p m fs))))) with 3 in Hi.
  destruct (sample_desc_at p m fs i Hi) as (d' & (Hd' & Hid & Hwf & _) & _).
  unfold desc_at in Hd'. rewrite Hd in Hd'. injection Hd' as <-. done.
Qed.

Lemma sample_outside inv locked p m fs :
  inv m -> Forall (other_ok (sample_proto inv locked)) fs ->
  outside (sample_proto inv locked) (sample_me 3 p) (sample_world p m fs).
Proof.
  intros Hm Hfs. split_and!; [|done|done]. split; [|done|done|done].
  split; [apply sample_descs_ok|done].
Qed.

Lemma sample_ready inv locked p : ready (sample_proto inv locked) (sample_me 3 p).
Proof.
  destruct (sample_reserved 3 p) as [Hinv Hr]. split; [done|]. exists ∅. split; [done|].
  intros b [? H]. by rewrite lookup_empty in H.
Qed.
