(* ===== verification/DList.v ===== *)
(** * Doubly linked lists in index arrays

    SIEVE, LRU and every bucket of LFU keep their buffers in a list threaded
    through two index arrays, with a sentinel index whose [Next] is the newest
    element and whose [Prev] is the oldest one.  This file says what such arrays
    represent ([dl]), and proves the three operations the policies share: unlink,
    insertion at the newest end, and the membership test. *)
From S2P Require Import Prelude BufState BufTag Shmem Concurrency.

(** ** Arrays in the strategy memory *)
Definition arr (m : list Z) (base len : Z) (f : Z -> Z) : Prop :=
  forall i, 0 <= i < len -> lookupZ m (base + i) = Some (f i).

Lemma with_mem_mem w : with_mem (mem w) w = w.
Proof. by destruct w as [[] ? ?]. Qed.

Lemma rd_word_run w a v : lookupZ (mem w) a = Some v -> rd_word a w = (Ret v, w).
Proof. intros H. unfold rd_word, bind, gets. cbn. unfold mem in H. by rewrite H. Qed.

Lemma wr_word_run w a v v0 :
  lookupZ (mem w) a = Some v0 ->
  wr_word a v w = (Ret tt, with_mem (insertZ a v (mem w)) w).
Proof. intros H. unfold wr_word. by rewrite (bind_ret _ _ _ _ _ (rd_word_run _ _ _ H)). Qed.

Lemma rd_arr_run w base len f i :
  arr (mem w) base len f -> 0 <= i < len -> rd_arr base len i w = (Ret (f i), w).
Proof.
  intros Ha Hi. unfold rd_arr.
  rewrite (proj2 (Z.leb_le _ _)), (proj2 (Z.ltb_lt _ _)) by lia. by apply rd_word_run, Ha.
Qed.

Lemma wr_arr_run w base len f i v :
  arr (mem w) base len f -> 0 <= i < len ->
  wr_arr base len i v w = (Ret tt, with_mem (insertZ (base + i) v (mem w)) w).
Proof.
  intros Ha Hi. unfold wr_arr.
  rewrite (proj2 (Z.leb_le _ _)), (proj2 (Z.ltb_lt _ _)) by lia.
  by eapply wr_word_run, Ha.
Qed.

Lemma arr_insert_eq m base len f i v :
  arr m base len f -> 0 <= i < len ->
  arr (insertZ (base + i) v m) base len (<[i := v]> f).
Proof.
  intros Ha Hi j Hj. destruct (decide (i = j)) as [<-|Hne].
  - rewrite fn_lookup_insert, lookupZ_insertZ_eq; [done|]. by eapply lookupZ_Some, Ha.
  - rewrite fn_lookup_insert_ne by done. rewrite lookupZ_insertZ_ne by lia. by apply Ha.
Qed.

Lemma arr_insert_ne m base len f a v :
  arr m base len f -> a < base \/ base + len <= a -> arr (insertZ a v m) base len f.
Proof.
  intros Ha Hout j Hj. rewrite lookupZ_insertZ_ne by lia. by apply Ha.
Qed.

(** ** What the arrays represent *)
Section dl.
(** From oldest to newest: [fwd] follows [Next] to the end [z], [bwd] follows
    [Prev] back to the start [p]. *)
Fixpoint fwd (nx : Z -> Z) (l : list Z) (z : Z) : Prop :=
  match l with
  | [] => True
  | x :: l' => nx x = default z (head l') /\ fwd nx l' z
  end.
Fixpoint bwd (pv : Z -> Z) (l : list Z) (p : Z) : Prop :=
  match l with
  | [] => True
  | x :: l' => pv x = p /\ bwd pv l' x
  end.

Record dl (s : Z) (nx pv : Z -> Z) (l : list Z) : Prop := {
  dl_newest : nx s = default s (last l);
  dl_oldest : pv s = default s (head l);
  dl_fwd : fwd nx l s;
  dl_bwd : bwd pv l s;
  dl_nodup : NoDup l;
  dl_sentinel : s ∉ l
}.

Lemma fwd_ext nx nx' l z : (forall x, x ∈ l -> nx' x = nx x) -> fwd nx l z -> fwd nx' l z.
Proof.
  induction l as [|x l IH]; cbn; [done|]. intros Hext [Hx Hl]. split.
  - rewrite Hext; [done|apply list_elem_of_here].
  - apply IH; [|done]. intros y Hy. apply Hext. by apply list_elem_of_further.
Qed.
Lemma bwd_ext pv pv' l p : (forall x, x ∈ l -> pv' x = pv x) -> bwd pv l p -> bwd pv' l p.
Proof.
  revert p. induction l as [|x l IH]; cbn; [done|]. intros p Hext [Hx Hl]. split.
  - rewrite Hext; [done|apply list_elem_of_here].
  - apply IH; [|done]. intros y Hy. apply Hext. by apply list_elem_of_further.
Qed.

Lemma fwd_app nx l1 l2 z :
  fwd nx (l1 ++ l2) z <-> fwd nx l1 (default z (head l2)) /\ fwd nx l2 z.
Proof.
  induction l1 as [|x l1 IH]; cbn; [tauto|]. rewrite IH.
  destruct l1; cbn; tauto.
Qed.
Lemma bwd_app pv l1 l2 p :
  bwd pv (l1 ++ l2) p <-> bwd pv l1 p /\ bwd pv l2 (default p (last l1)).
Proof.
  revert p. induction l1 as [|x l1 IH]; intros p; cbn [bwd app]; [cbn; tauto|].
  rewrite IH, last_cons. destruct (last l1); cbn; tauto.
Qed.

(** A list with another sentinel does not notice writes to this one. *)
Lemma dl_ext s nx pv nx' pv' l :
  (forall x, x = s \/ x ∈ l -> nx' x = nx x /\ pv' x = pv x) ->
  dl s nx pv l -> dl s nx' pv' l.
Proof.
  intros Hext [Hn Ho Hf Hb Hnd Hs]. split; try done.
  - rewrite <- Hn. by apply Hext; left.
  - rewrite <- Ho. by apply Hext; left.
  - eapply fwd_ext; [|done]. intros x Hx. by apply Hext; right.
  - eapply bwd_ext; [|done]. intros x Hx. by apply Hext; right.
Qed.

Lemma dl_head_oldest s nx pv b l : dl s nx pv (b :: l) -> pv b = s.
Proof. by intros [_ _ _ [? _] _ _]. Qed.

(** The neighbours of an element. *)
Lemma dl_next s nx pv l1 b l2 :
  dl s nx pv (l1 ++ b :: l2) -> nx b = default s (head l2).
Proof. by intros [_ _ [_ [? _]]%fwd_app _ _ _]. Qed.
Lemma dl_prev s nx pv l1 b l2 :
  dl s nx pv (l1 ++ b :: l2) -> pv b = default s (last l1).
Proof. by intros [_ _ _ [_ [? _]]%bwd_app _ _]. Qed.

(** Membership is what the [IN_LIST] tests decide: a node outside of the list
    has the sentinel in both links. *)
Lemma dl_in_list s nx pv l b :
  dl s nx pv l -> ((b ∉ l) -> nx b = s /\ pv b = s) -> b <> s ->
  (negb (nx b =? s) || negb (pv b =? s) || (nx s =? b)) = true <-> b ∈ l.
Proof.
  intros Hdl Hout Hbs. split.
  - intros Htest. destruct (decide (b ∈ l)) as [|Hb]; [done|].
    destruct (Hout Hb) as [Hnb Hpb]. rewrite Hnb, Hpb, Z.eqb_refl in Htest. cbn in Htest.
    apply Z.eqb_eq in Htest. rewrite (dl_newest _ _ _ _ Hdl) in Htest.
    destruct (last l) eqn:Hl; cbn in Htest; [|done]. subst.
    by apply last_Some_elem_of in Hl.
  - intros (l1 & l2 & ->)%list_elem_of_split.
    rewrite (dl_next _ _ _ _ _ _ Hdl), (dl_prev _ _ _ _ _ _ Hdl), (dl_newest _ _ _ _ Hdl).
    pose proof (dl_sentinel _ _ _ _ Hdl) as Hs.
    destruct l2 as [|y l2]; cbn.
    + rewrite Z.eqb_refl, last_snoc. cbn. by rewrite Z.eqb_refl, orb_true_r.
    + rewrite (proj2 (Z.eqb_neq y s)); [done|]. set_solver.
Qed.

(** The links after [b] is unlinked; its own links become [nul]. *)
Definition unlink_nx (s nul b : Z) (nx pv : Z -> Z) : Z -> Z :=
  let nx1 := if nx b =? s then <[s := pv b]> nx else nx in
  let nx2 := if pv b =? s then nx1 else <[pv b := nx b]> nx1 in
  <[b := nul]> nx2.
Definition unlink_pv (s nul b : Z) (nx pv : Z -> Z) : Z -> Z :=
  let pv1 := if nx b =? s then pv else <[nx b := pv b]> pv in
  let pv2 := if pv b =? s then <[s := nx b]> pv1 else pv1 in
  <[b := nul]> pv2.

(** The links after [b] became the newest element. *)
Definition push_nx (s b : Z) (nx : Z -> Z) : Z -> Z :=
  let nx1 := <[b := s]> nx in
  let nx2 := if nx s =? s then nx1 else <[nx s := b]> nx1 in
  <[s := b]> nx2.
Definition push_pv (s b : Z) (nx pv : Z -> Z) : Z -> Z :=
  let pv1 := <[b := nx s]> pv in
  if nx s =? s then <[s := b]> pv1 else pv1.
End dl.

(** ** The operations on the links *)
Ltac fn_rw := repeat first
  [ rewrite fn_lookup_insert | rewrite fn_lookup_insert_ne by set_solver ].
Ltac seg_ext := first
  [ eapply fwd_ext; [|eassumption]; intros ? ?; fn_rw; done
  | eapply bwd_ext; [|eassumption]; intros ? ?; fn_rw; done ].

Lemma dl_unlink s nul nx pv l1 b l2 :
  dl s nx pv (l1 ++ b :: l2) ->
  dl s (unlink_nx s nul b nx pv) (unlink_pv s nul b nx pv) (l1 ++ l2).
Proof.
  intros Hdl.
  pose proof (dl_next _ _ _ _ _ _ Hdl) as Hnb. pose proof (dl_prev _ _ _ _ _ _ Hdl) as Hpb.
  destruct Hdl as [Hn Ho Hf Hb Hnd Hs].
  unfold unlink_nx, unlink_pv. rewrite Hnb, Hpb. clear Hnb Hpb.
  assert (NoDup (l1 ++ l2)) as Hnd'.
  { eapply sublist_NoDup; [exact Hnd|]. apply sublist_app; [done|]. by constructor. }
  assert (s ∉ l1 ++ l2) as Hs' by set_solver.
  destruct l2 as [|y l2]; cbn; (destruct l1 as [|x l1 _] using rev_ind; [cbn|rewrite last_snoc; cbn]).
  - rewrite Z.eqb_refl. split; cbn; fn_rw; try done; try constructor.
  - rewrite Z.eqb_refl. rewrite (proj2 (Z.eqb_neq x s)) by set_solver.
    rewrite fwd_app, fwd_app in Hf. rewrite bwd_app, bwd_app in Hb. cbn in *.
    rewrite !NoDup_app, !NoDup_cons in Hnd. 
    rewrite app_nil_r in *. destruct_and!.
    split; try done.
    + fn_rw. rewrite last_snoc. done.
    + fn_rw. rewrite Ho. by destruct l1.
    + rewrite fwd_app. cbn. fn_rw. split_and!; try done. seg_ext.
    + rewrite bwd_app. cbn. fn_rw. split_and!; try done. seg_ext.
  - rewrite (proj2 (Z.eqb_neq y s)) by set_solver. rewrite Z.eqb_refl. cbn in *.
    rewrite !NoDup_cons in Hnd. destruct_and!.
    split; try done; cbn; fn_rw; try done; split_and!; try done; seg_ext.
  - rewrite (proj2 (Z.eqb_neq y s)), (proj2 (Z.eqb_neq x s)) by set_solver.
    rewrite !fwd_app in Hf. rewrite !bwd_app in Hb. cbn in *.
    rewrite !NoDup_app, !NoDup_cons in Hnd. destruct_and!.
    split; try done.
    + fn_rw. rewrite Hn. rewrite !last_app, !last_cons. by destruct (last l2).
    + fn_rw. rewrite Ho. by destruct l1.
    + rewrite !fwd_app. cbn. fn_rw. split_and!; try done; seg_ext.
    + rewrite !bwd_app. cbn. rewrite last_snoc in *. cbn. fn_rw. split_and!; try done; seg_ext.
Qed.

Lemma unlink_at s nul nx pv b :
  unlink_nx s nul b nx pv b = nul /\ unlink_pv s nul b nx pv b = nul.
Proof. unfold unlink_nx, unlink_pv. fn_rw. done. Qed.

(** Only the sentinel, the element and its neighbours are written. *)
Lemma unlink_frame s nul nx pv l1 b l2 x :
  dl s nx pv (l1 ++ b :: l2) -> x <> s -> (x ∉ l1 ++ b :: l2) ->
  unlink_nx s nul b nx pv x = nx x /\ unlink_pv s nul b nx pv x = pv x.
Proof.
  intros Hdl Hxs Hx. unfold unlink_nx, unlink_pv.
  rewrite (dl_next _ _ _ _ _ _ Hdl), (dl_prev _ _ _ _ _ _ Hdl).
  assert (x <> default s (head l2)) by (destruct l2; cbn in *; set_solver).
  assert (x <> default s (last l1)) by (destruct l1 using rev_ind; rewrite ?last_snoc; cbn; set_solver).
  do 2 case_match; fn_rw; done.
Qed.

Lemma dl_push s nx pv l b :
  dl s nx pv l -> (b ∉ l) -> b <> s -> dl s (push_nx s b nx) (push_pv s b nx pv) (l ++ [b]).
Proof.
  intros [Hn Ho Hf Hb Hnd Hs] Hbl Hbs. unfold push_nx, push_pv. rewrite Hn.
  assert (NoDup (l ++ [b])) as Hnd'.
  { apply NoDup_app. split_and!; [done|set_solver|apply NoDup_singleton]. }
  assert (s ∉ l ++ [b]) as Hs' by set_solver.
  destruct l as [|x l _] using rev_ind; cbn.
  - rewrite Z.eqb_refl. split; cbn; fn_rw; done.
  - rewrite last_snoc. cbn. rewrite (proj2 (Z.eqb_neq x s)) by set_solver.
    rewrite fwd_app in Hf. rewrite bwd_app in Hb. rewrite NoDup_app in Hnd. cbn in *. destruct_and!.
    split; try done.
    + fn_rw. by rewrite last_snoc.
    + fn_rw. rewrite Ho. by destruct l.
    + rewrite !fwd_app. cbn. fn_rw. split_and!; try done; seg_ext.
    + rewrite !bwd_app. cbn. rewrite last_snoc. cbn. fn_rw. split_and!; try done; seg_ext.
Qed.

Lemma push_frame s nx pv l b x :
  dl s nx pv l -> x <> s -> x <> b -> (x ∉ l) ->
  push_nx s b nx x = nx x /\ push_pv s b nx pv x = pv x.
Proof.
  intros Hdl Hxs Hxb Hx. unfold push_nx, push_pv. rewrite (dl_newest _ _ _ _ Hdl).
  assert (x <> default s (last l)).
  { destruct l using rev_ind; rewrite ?last_snoc; cbn; set_solver. }
  case_match; fn_rw; done.
Qed.

(** ** The operations in memory

    The code the policies share, on arrays of [len] links that start at the words
    [nb] and [pb]. *)
Section memory.
Context (nb pb len : Z).

Definition stitch (s nul b newer older : Z) : M unit :=
  (if newer =? s then wr_arr nb len s older else wr_arr pb len newer older) ;;
  (if older =? s then wr_arr pb len s newer else wr_arr nb len older newer) ;;
  wr_arr nb len b nul ;;
  wr_arr pb len b nul.

Definition push_newest (s b : Z) : M unit :=
  let* old_head := rd_arr nb len s in
  wr_arr nb len b s ;;
  wr_arr pb len b old_head ;;
  (if old_head =? s then wr_arr pb len s b else wr_arr nb len old_head b) ;;
  wr_arr nb len s b.

Definition links (m : list Z) (nx pv : Z -> Z) : Prop :=
  arr m nb len nx /\ arr m pb len pv.

(** [m'] differs from [m] in the two arrays only. *)
Definition same_outside (m m' : list Z) : Prop :=
  length m' = length m /\
  forall a, a < nb \/ nb + len <= a < pb \/ pb + len <= a -> lookupZ m' a = lookupZ m a.

#[export] Instance same_outside_refl : Reflexive same_outside.
Proof using Type. by split. Qed.
#[export] Instance same_outside_trans : Transitive same_outside.
Proof using Type. intros m1 m2 m3 [Hl1 H1] [Hl2 H2]. split; [congruence|].
  intros a Ha. by rewrite H2, H1. Qed.

Hypothesis Hdisj : nb + len <= pb.

(** [prog] runs to its end and leaves the links [nx'] and [pv'] behind. *)
Definition relinks (prog : M unit) (w : World) (nx' pv' : Z -> Z) : Prop :=
  exists m', prog w = (Ret tt, with_mem m' w) /\ links m' nx' pv' /\ same_outside (mem w) m'.

Lemma relinks_nx w nx pv i v :
  links (mem w) nx pv -> 0 <= i < len ->
  relinks (wr_arr nb len i v) w (<[i := v]> nx) pv.
Proof using Hdisj.
  intros [Hn Hp] Hi. exists (insertZ (nb + i) v (mem w)).
  split; [by eapply wr_arr_run|]. split; [split|split].
  - by apply arr_insert_eq.
  - apply arr_insert_ne; [done|lia].
  - apply length_insertZ.
  - intros a Ha. apply lookupZ_insertZ_ne. lia.
Qed.

Lemma relinks_pv w nx pv i v :
  links (mem w) nx pv -> 0 <= i < len ->
  relinks (wr_arr pb len i v) w nx (<[i := v]> pv).
Proof using Hdisj.
  intros [Hn Hp] Hi. exists (insertZ (pb + i) v (mem w)).
  split; [by eapply wr_arr_run|]. split; [split|split].
  - apply arr_insert_ne; [done|lia].
  - by apply arr_insert_eq.
  - apply length_insertZ.
  - intros a Ha. apply lookupZ_insertZ_ne. lia.
Qed.

Lemma relinks_seq p1 p2 w nx1 pv1 nx2 pv2 :
  relinks p1 w nx1 pv1 ->
  (forall m, links m nx1 pv1 -> relinks p2 (with_mem m w) nx2 pv2) ->
  relinks (p1 ;; p2) w nx2 pv2.
Proof using Type.
  intros (m1 & Hrun1 & Hl1 & Hs1) H2. destruct (H2 _ Hl1) as (m2 & Hrun2 & Hl2 & Hs2).
  exists m2. rewrite (bind_ret _ _ _ _ _ Hrun1). split; [exact Hrun2|].
  split; [done|]. etrans; [exact Hs1|exact Hs2].
Qed.

Lemma relinks_if (c : bool) p1 p2 w nx1 pv1 nx2 pv2 :
  relinks p1 w nx1 pv1 -> relinks p2 w nx2 pv2 ->
  relinks (if c then p1 else p2) w (if c then nx1 else nx2) (if c then pv1 else pv2).
Proof using Type. by destruct c. Qed.

Lemma stitch_relinks w nx pv s nul b :
  links (mem w) nx pv ->
  0 <= s < len -> 0 <= b < len -> 0 <= nx b < len -> 0 <= pv b < len ->
  relinks (stitch s nul b (nx b) (pv b)) w
    (unlink_nx s nul b nx pv) (unlink_pv s nul b nx pv).
Proof using Hdisj.
  intros Hl Hs Hb Hnb Hpb. unfold stitch, unlink_nx, unlink_pv.
  eapply relinks_seq; [apply relinks_if; [by apply relinks_nx|by apply relinks_pv]|].
  intros m1 Hl1.
  eapply relinks_seq; [apply relinks_if; [by apply relinks_pv|by apply relinks_nx]|].
  intros m2 Hl2. eapply relinks_seq; [by apply relinks_nx|].
  intros m3 Hl3. by apply relinks_pv.
Qed.

Lemma push_newest_relinks w nx pv s b :
  links (mem w) nx pv -> 0 <= s < len -> 0 <= b < len -> 0 <= nx s < len ->
  relinks (push_newest s b) w (push_nx s b nx) (push_pv s b nx pv).
Proof using Hdisj.
  intros Hl Hs Hb Hns. unfold push_newest, push_nx, push_pv.
  unfold relinks. rewrite (bind_ret _ _ w (nx s) w) by (by apply rd_arr_run, Hs; apply Hl).
  eapply relinks_seq; [by apply relinks_nx|]. intros m1 Hl1.
  eapply relinks_seq; [by apply relinks_pv|]. intros m2 Hl2.
  eapply relinks_seq; [apply relinks_if; [by apply relinks_pv|by apply relinks_nx]|].
  intros m3 Hl3. by apply relinks_nx.
Qed.
End memory.

(** ** A queue of buffers

    [n] buffers and the sentinel [n], in arrays of [n + 1] links. *)
Section queue.
Context (nb pb n : Z).
Hypothesis Hdisj : nb + (n + 1) <= pb.

Record queue (m : list Z) (l : list Z) : Prop := {
  q_links : exists nx pv, links nb pb (n + 1) m nx pv /\ dl n nx pv l /\
    forall x, 0 <= x < n -> (x ∉ l) -> nx x = n /\ pv x = n;
  q_range : forall x, x ∈ l -> 0 <= x < n
}.

Lemma queue_nodup m l : queue m l -> NoDup l.
Proof using Type. by intros [(nx & pv & _ & [] & _) _]. Qed.

(** A queue has at most [n] elements. *)
Lemma queue_length m l : 0 <= n -> queue m l -> Z.of_nat (length l) <= n.
Proof using Type.
  clear Hdisj.
  intros Hn Hq. pose proof (queue_nodup _ _ Hq) as Hnd.
  assert (l ⊆+ seqZ 0 n) as Hsub%submseteq_length.
  { apply NoDup_submseteq; [done|]. intros x Hx%(q_range _ _ Hq). apply elem_of_seqZ. lia. }
  rewrite length_seqZ in Hsub. lia.
Qed.

Lemma queue_write_outside m l a v : queue m l -> a < nb -> queue (insertZ a v m) l.
Proof using Hdisj.
  intros [(nx & pv & [Hn Hp] & Hdl & Hout) Hr] Ha. split; [|done].
  exists nx, pv. split; [|done]. split; apply arr_insert_ne; try done; [lia|].
  destruct (decide (a < pb)); [lia|]. right.
  destruct (decide (0 <= n)); [lia|]. lia.
Qed.

(** The neighbours of an element. *)
Lemma queue_next w l1 b l2 :
  queue (mem w) (l1 ++ b :: l2) ->
  rd_arr nb (n + 1) b w = (Ret (default n (head l2)), w).
Proof using Type.
  clear Hdisj.
  intros [(nx & pv & [Hn Hp] & Hdl & Hout) Hr].
  rewrite <- (dl_next _ _ _ _ _ _ Hdl). apply rd_arr_run; [done|].
  specialize (Hr b). set_solver by lia.
Qed.
Lemma queue_prev w l1 b l2 :
  queue (mem w) (l1 ++ b :: l2) ->
  rd_arr pb (n + 1) b w = (Ret (default n (last l1)), w).
Proof using Type.
  clear Hdisj.
  intros [(nx & pv & [Hn Hp] & Hdl & Hout) Hr].
  rewrite <- (dl_prev _ _ _ _ _ _ Hdl). apply rd_arr_run; [done|].
  specialize (Hr b). set_solver by lia.
Qed.

(** The two ends. *)
Lemma queue_newest w l :
  0 <= n -> queue (mem w) l -> rd_arr nb (n + 1) n w = (Ret (default n (last l)), w).
Proof using Type.
  clear Hdisj.
  intros H [(nx & pv & [Hn Hp] & Hdl & Hout) Hr].
  rewrite <- (dl_newest _ _ _ _ Hdl). apply rd_arr_run; [done|lia].
Qed.
Lemma queue_oldest w l :
  0 <= n -> queue (mem w) l -> rd_arr pb (n + 1) n w = (Ret (default n (head l)), w).
Proof using Type.
  clear Hdisj.
  intros H [(nx & pv & [Hn Hp] & Hdl & Hout) Hr].
  rewrite <- (dl_oldest _ _ _ _ Hdl). apply rd_arr_run; [done|lia].
Qed.

(** What the three reads of a membership test show. *)
Lemma queue_test w l b :
  queue (mem w) l -> 0 <= b < n ->
  exists x y z,
    rd_arr nb (n + 1) b w = (Ret x, w) /\ rd_arr pb (n + 1) b w = (Ret y, w) /\
    rd_arr nb (n + 1) n w = (Ret z, w) /\
    (negb (x =? n) || negb (y =? n) || (z =? b)) = bool_decide (b ∈ l).
Proof using Type.
  clear Hdisj.
  intros [(nx & pv & [Hn Hp] & Hdl & Hout) Hr] Hb.
  exists (nx b), (pv b), (nx n). split_and!; try (apply rd_arr_run; [done|lia]).
  pose proof (dl_in_list n nx pv l b Hdl (Hout b Hb) ltac:(lia)) as Hin.
  destruct (negb _ || _ || _).
  - symmetry. by apply bool_decide_eq_true, Hin.
  - symmetry. apply bool_decide_eq_false. intros H%Hin. done.
Qed.

Lemma queue_stitch w l1 b l2 :
  queue (mem w) (l1 ++ b :: l2) ->
  exists m', stitch nb pb (n + 1) n n b (default n (head l2)) (default n (last l1)) w =
      (Ret tt, with_mem m' w) /\
    queue m' (l1 ++ l2) /\ same_outside nb pb (n + 1) (mem w) m'.
Proof using Hdisj.
  intros [(nx & pv & Hl & Hdl & Hout) Hr].
  assert (0 <= b < n) as Hb by (apply Hr; set_solver).
  pose proof (dl_next _ _ _ _ _ _ Hdl) as Hnb. pose proof (dl_prev _ _ _ _ _ _ Hdl) as Hpb.
  assert (0 <= nx b < n + 1) as Hnr.
  { rewrite Hnb. destruct l2 as [|y l2]; cbn; [lia|]. specialize (Hr y). set_solver by lia. }
  assert (0 <= pv b < n + 1) as Hpr.
  { rewrite Hpb. destruct l1 as [|x l1 _] using rev_ind; [cbn; lia|]. rewrite last_snoc. cbn.
    specialize (Hr x). set_solver by lia. }
  rewrite <- Hnb, <- Hpb.
  destruct (stitch_relinks nb pb (n + 1) Hdisj w nx pv n n b Hl) as (m' & Hrun & Hl' & Hso);
    [lia..|].
  exists m'. split; [done|]. split; [|done]. split; [|set_solver].
  eexists _, _. split; [done|]. split; [by apply dl_unlink|].
  intros x Hx Hxl. destruct (decide (x = b)) as [->|Hne]; [apply unlink_at|].
  destruct (unlink_frame n n nx pv l1 b l2 x Hdl) as [-> ->]; [lia|set_solver|].
  apply Hout; set_solver.
Qed.

Lemma queue_push w l b :
  queue (mem w) l -> (b ∉ l) -> 0 <= b < n ->
  exists m', push_newest nb pb (n + 1) n b w = (Ret tt, with_mem m' w) /\
    queue m' (l ++ [b]) /\ same_outside nb pb (n + 1) (mem w) m'.
Proof using Hdisj.
  intros [(nx & pv & Hl & Hdl & Hout) Hr] Hbl Hb.
  assert (0 <= nx n < n + 1) as Hnr.
  { rewrite (dl_newest _ _ _ _ Hdl). destruct l as [|x l _] using rev_ind; [cbn; lia|].
    rewrite last_snoc. cbn. specialize (Hr x). set_solver by lia. }
  destruct (push_newest_relinks nb pb (n + 1) Hdisj w nx pv n b Hl) as (m' & Hrun & Hl' & Hso);
    [lia..|].
  exists m'. split; [done|]. split; [|done]. split; [|set_solver by lia].
  eexists _, _. split; [done|]. split; [apply dl_push; [done..|lia]|].
  intros x Hx Hxl.
  destruct (push_frame n nx pv l b x Hdl) as [-> ->]; [lia|set_solver|set_solver|].
  apply Hout; set_solver.
Qed.
End queue.

(** ** Initial queue: every buffer, in the order of the numbers *)
Lemma seqZ_S_end n : 0 < n -> seqZ 0 n = seqZ 0 (n - 1) ++ [n - 1].
Proof.
  intros Hn. replace n with (n - 1 + 1) at 1 by lia. rewrite seqZ_app by lia.
  by f_equal.
Qed.

Section init.
Context (nb pb n : Z).
Hypothesis Hdisj : nb + (n + 1) <= pb.

Definition init_next (i : Z) : Z := if i <? n - 1 then i + 1 else n.
Definition init_prev (i : Z) : Z := if 0 <? i then i - 1 else n.

Definition init_links : M unit :=
  wr_arr nb (n + 1) n (n - 1) ;;
  wr_arr pb (n + 1) n 0 ;;
  for_upto (Z.to_nat n) 0 (fun i =>
    wr_arr nb (n + 1) i (if i <? n - 1 then i + 1 else n) ;;
    wr_arr pb (n + 1) i (if 0 <? i then i - 1 else n)).

(** Memory that is long enough holds some links. *)
Lemma arr_any m base len :
  0 <= base -> base + len <= Z.of_nat (length m) ->
  arr m base len (fun i => default 0 (lookupZ m (base + i))).
Proof using Type.
  intros Hb Hl i Hi. destruct (lookupZ_lt m (base + i)) as [v Hv]; [lia|]. by rewrite Hv.
Qed.

Lemma relinks_ext len prog w nx pv nx' pv' :
  relinks nb pb len prog w nx pv ->
  (forall i, 0 <= i < len -> nx i = nx' i /\ pv i = pv' i) ->
  relinks nb pb len prog w nx' pv'.
Proof using Type.
  intros (m' & Hrun & [Hn Hp] & Hso) Hext. exists m'. split; [done|]. split; [|done].
  split; intros i Hi; destruct (Hext i Hi) as [Hi1 Hi2]; [rewrite <- Hi1|rewrite <- Hi2]; auto.
Qed.

Lemma init_loop k : forall lo w nx pv,
  links nb pb (n + 1) (mem w) nx pv -> 0 <= lo -> lo + Z.of_nat k <= n ->
  relinks nb pb (n + 1) (for_upto k lo (fun i =>
      wr_arr nb (n + 1) i (if i <? n - 1 then i + 1 else n) ;;
      wr_arr pb (n + 1) i (if 0 <? i then i - 1 else n))) w
    (fun x => if (lo <=? x) && (x <? lo + Z.of_nat k) then init_next x else nx x)
    (fun x => if (lo <=? x) && (x <? lo + Z.of_nat k) then init_prev x else pv x).
Proof using Hdisj.
  induction k as [|k IH]; intros lo w nx pv Hl Hlo Hhi.
  - exists (mem w). cbn. rewrite with_mem_mem. split; [done|]. split; [|done].
    destruct Hl as [Hn Hp].
    split; intros i Hi; rewrite ?Hn, ?Hp by done; f_equal;
      destruct (Z.leb_spec lo i), (Z.ltb_spec i (lo + Z.of_nat 0)); cbn; done || lia.
  - cbn [for_upto]. eapply relinks_seq.
    { eapply relinks_seq; [by apply relinks_nx; [lia|done|lia]|].
      intros m1 Hl1. by apply relinks_pv; [lia|done|lia]. }
    intros m2 Hl2. eapply relinks_ext; [apply IH; [done|lia|lia]|].
    intros i Hi. fold (init_next lo). fold (init_prev lo).
    destruct (decide (i = lo)) as [->|Hne].
    + rewrite !fn_lookup_insert. by rewrite (proj2 (Z.leb_gt (lo + 1) lo)), Z.leb_refl,
        (proj2 (Z.ltb_lt lo (lo + Z.of_nat (S k)))) by lia.
    + rewrite !fn_lookup_insert_ne by done.
      replace (lo + 1 <=? i) with (lo <=? i) by lia.
      by replace (lo + 1 + Z.of_nat k) with (lo + Z.of_nat (S k)) by lia.
Qed.

Lemma fwd_init k : forall lo nx, (forall i, lo <= i < n -> nx i = init_next i) ->
  lo + Z.of_nat k = n -> fwd nx (seqZ lo (Z.of_nat k)) n.
Proof using Type.
  clear Hdisj. induction k as [|k IH]; intros lo nx Hnx Hlo; [done|].
  rewrite seqZ_cons by lia. cbn [fwd]. replace (Z.pred _) with (Z.of_nat k) by lia.
  split; [|apply IH; [intros; apply Hnx; lia|lia]].
  rewrite Hnx by lia. unfold init_next. destruct k as [|k].
  - cbn. case_match; [lia|done].
  - rewrite seqZ_cons by lia. cbn. case_match; lia.
Qed.

Lemma bwd_init k : forall lo pv, (forall i, lo <= i < n -> pv i = init_prev i) ->
  0 < lo -> lo + Z.of_nat k = n -> bwd pv (seqZ lo (Z.of_nat k)) (lo - 1).
Proof using Type.
  clear Hdisj. induction k as [|k IH]; intros lo pv Hpv Hpos Hlo; [done|].
  rewrite seqZ_cons by lia. cbn [bwd]. replace (Z.pred _) with (Z.of_nat k) by lia.
  split.
  - rewrite Hpv by lia. unfold init_prev. case_match; lia.
  - replace lo with (Z.succ lo - 1) at 2 by lia. apply IH; [intros; apply Hpv; lia|lia|lia].
Qed.

Lemma init_links_run w :
  0 < n -> 0 <= nb -> pb + (n + 1) <= Z.of_nat (length (mem w)) ->
  exists m', init_links w = (Ret tt, with_mem m' w) /\
    queue nb pb n m' (seqZ 0 n) /\ same_outside nb pb (n + 1) (mem w) m'.
Proof using Hdisj.
  intros Hn Hnb Hlen.
  assert (links nb pb (n + 1) (mem w) _ _) as Hl by (split; apply arr_any; lia).
  destruct (relinks_seq nb pb (n + 1) _ _ _ _ _ _ _
    (relinks_nx nb pb (n + 1) Hdisj w _ _ n (n - 1) Hl ltac:(lia))
    (fun m1 Hl1 => relinks_seq nb pb (n + 1) _ _ _ _ _ _ _
      (relinks_pv nb pb (n + 1) Hdisj (with_mem m1 w) _ _ n 0 Hl1 ltac:(lia))
      (fun m2 Hl2 => init_loop (Z.to_nat n) 0 (with_mem m2 w) _ _ Hl2 ltac:(lia) ltac:(lia))))
    as (m' & Hrun & Hl' & Hso).
  exists m'. split; [exact Hrun|]. split; [|done]. split.
  2: { intros x Hx%elem_of_seqZ. lia. }
  eexists _, _. split; [exact Hl'|]. rewrite Z.add_0_l, Z2Nat.id by lia. split.
  2: { intros x Hx Hn'. destruct Hn'. apply elem_of_seqZ. lia. }
  assert (seqZ 0 n = 0 :: seqZ 1 (n - 1)) as Hcons.
  { rewrite seqZ_cons by lia. do 2 f_equal; lia. }
  assert (((0 <=? n) && (n <? n)) = false) as Hout by lia.
  split.
  - rewrite Hout, fn_lookup_insert. rewrite (seqZ_S_end n) by lia. by rewrite last_snoc.
  - rewrite Hout, fn_lookup_insert, Hcons. done.
  - replace (seqZ 0 n) with (seqZ 0 (Z.of_nat (Z.to_nat n))) by (f_equal; lia).
    apply fwd_init; [|lia].
    intros i Hi. by replace ((0 <=? i) && (i <? n)) with true by lia.
  - rewrite Hcons. cbn [bwd]. split.
    + replace ((0 <=? 0) && (0 <? n)) with true by lia. done.
    + change (bwd ?f ?l 0) with (bwd f l (1 - 1)). 
      replace (seqZ 1 (n - 1)) with (seqZ 1 (Z.of_nat (Z.to_nat (n - 1)))) by (f_equal; lia).
      apply bwd_init; [|lia|lia].
      intros i Hi. by replace ((0 <=? i) && (i <? n)) with true by lia.
  - apply NoDup_seqZ.
  - rewrite elem_of_seqZ. lia.
Qed.
End init.
