(* ===== verification/Sweep.v ===== *)
(** * Passing over buffers

    SIEVE and the clock sweep visit buffers one after the other, change the ones
    they spare, and count the pinned ones they meet. *)
From S2P Require Import Prelude BufState BufTag Shmem Concurrency.

(** ** Buffers that are spared

    [g] is what happens to the descriptor of a buffer that is passed over. *)
Section touch.
Context (g : BufferDesc -> BufferDesc).

Definition touch_at (w : World) (x : Z) : World :=
  match lookupZ (BufferDescriptors (shm w)) x with
  | Some d => set_desc x (g d) w
  | None => w
  end.
Definition touch (xs : list Z) (w : World) : World := foldl touch_at w xs.

Lemma touch_at_eq w x d : desc_at w x d -> touch_at w x = set_desc x (g d) w.
Proof using Type. intros Hd. unfold touch_at, desc_at in *. by rewrite Hd. Qed.

Lemma touch_at_rest w x :
  me (touch_at w x) = me w /\ sched (touch_at w x) = sched w /\ mem (touch_at w x) = mem w /\
  StrategyControl (shm (touch_at w x)) = StrategyControl (shm w).
Proof using Type. unfold touch_at. by case_match. Qed.

Lemma touch_cons x xs w : touch (x :: xs) w = touch xs (touch_at w x).
Proof using Type. done. Qed.

Lemma touch_rest xs : forall w,
  me (touch xs w) = me w /\ sched (touch xs w) = sched w /\ mem (touch xs w) = mem w /\
  StrategyControl (shm (touch xs w)) = StrategyControl (shm w).
Proof using Type.
  induction xs as [|x xs IH]; intros w; [done|]. rewrite touch_cons.
  destruct (IH (touch_at w x)) as (-> & -> & -> & ->). apply touch_at_rest.
Qed.

Lemma touch_out xs x d : forall w, (x ∉ xs) -> desc_at w x d -> desc_at (touch xs w) x d.
Proof using Type.
  induction xs as [|y xs IH]; intros w Hx Hd; [done|]. rewrite touch_cons. apply IH; [set_solver|].
  unfold touch_at. case_match; [|done]. apply desc_at_set_ne; [set_solver|done].
Qed.

Lemma touch_in xs x d : forall w,
  NoDup xs -> x ∈ xs -> desc_at w x d -> desc_at (touch xs w) x (g d).
Proof using Type.
  induction xs as [|y xs IH]; intros w Hnd Hx Hd; [set_solver|]. rewrite touch_cons.
  apply NoDup_cons in Hnd as [Hy Hnd]. destruct (decide (x = y)) as [->|Hne].
  - apply touch_out; [done|]. rewrite (touch_at_eq _ _ _ Hd). by eapply desc_at_set_eq.
  - apply IH; [done|set_solver|]. unfold touch_at. case_match; [|done].
    apply desc_at_set_ne; [done|done].
Qed.

Lemma touch_at_mem w x m : touch_at (with_mem m w) x = with_mem m (touch_at w x).
Proof using Type. unfold touch_at. cbn. by case_match. Qed.
Lemma touch_mem xs m : forall w, touch xs (with_mem m w) = with_mem m (touch xs w).
Proof using Type.
  induction xs as [|x xs IH]; intros w; [done|]. by rewrite !touch_cons, touch_at_mem, IH.
Qed.

Lemma touch_lock xs h : forall w, touch xs (set_lock h w) = set_lock h (touch xs w).
Proof using Type.
  induction xs as [|x xs IH]; intros w; [done|]. rewrite !touch_cons, <- IH. f_equal.
  unfold touch_at. cbn. by case_match.
Qed.
End touch.

(** ** Counting pinned buffers *)

(** The number of pinned buffers among [xs]. *)
Definition npin (w : World) (xs : list Z) : Z :=
  Z.of_nat (length (filter (fun x => unpinned w x = false) xs)).

Lemma npin_cons w x xs : npin w (x :: xs) = (if unpinned w x then 0 else 1) + npin w xs.
Proof. unfold npin. rewrite filter_cons. destruct (unpinned w x); case_decide; cbn; lia || done. Qed.

Lemma npin_ext w w' xs :
  (forall x, x ∈ xs -> unpinned w x = unpinned w' x) -> npin w xs = npin w' xs.
Proof.
  induction xs as [|x xs IH]; intros H; [done|]. rewrite !npin_cons.
  rewrite IH by set_solver. by rewrite (H x) by set_solver.
Qed.

(** What is left of [t] tries after the hand has passed over [xs]. *)
Definition tries (n : Z) (w : World) (t : Z) (xs : list Z) : Z :=
  foldl (fun t x => if unpinned w x then n else t - 1) t xs.

Lemma tries_range n w xs : forall t, t <= n -> t - npin w xs <= tries n w t xs <= n.
Proof.
  unfold tries. induction xs as [|x xs IH]; intros t Ht; cbn [foldl].
  - change (npin w []) with 0. lia.
  - rewrite npin_cons. assert (0 <= npin w xs) by (unfold npin; lia).
    destruct (unpinned w x);
      [specialize (IH n ltac:(lia))|specialize (IH (t - 1) ltac:(lia))]; lia.
Qed.

Lemma tries_ext n w w' xs : forall t,
  (forall x, x ∈ xs -> unpinned w x = unpinned w' x) -> tries n w t xs = tries n w' t xs.
Proof.
  induction xs as [|x xs IH]; intros t H; [done|]. cbn.
  rewrite (H x) by set_solver. apply IH. set_solver.
Qed.

(** The tries do not run out on the way over [xs]. *)
Fixpoint lasts (n : Z) (w : World) (t : Z) (xs : list Z) : Prop :=
  match xs with
  | [] => True
  | x :: xs => if unpinned w x then lasts n w n xs else t <> 1 /\ lasts n w (t - 1) xs
  end.

Lemma lasts_app n w xs ys : forall t,
  lasts n w t (xs ++ ys) <-> lasts n w t xs /\ lasts n w (tries n w t xs) ys.
Proof.
  induction xs as [|x xs IH]; intros t; cbn; [tauto|]. destruct (unpinned w x); rewrite IH; tauto.
Qed.

Lemma lasts_npin n w xs : forall t, npin w xs < t <= n -> lasts n w t xs.
Proof.
  induction xs as [|x xs IH]; intros t Ht; [done|]. rewrite npin_cons in Ht. cbn.
  assert (0 <= npin w xs) by (unfold npin; lia).
  destruct (unpinned w x); [|split; [lia|]]; apply IH; lia.
Qed.

Lemma lasts_split n w xs v ys t :
  unpinned w v = true -> npin w xs < t <= n -> npin w ys < n -> lasts n w t (xs ++ v :: ys).
Proof.
  intros Hv Ht Hys. apply lasts_app. split; [by apply lasts_npin|]. cbn. rewrite Hv.
  apply lasts_npin. lia.
Qed.

Lemma lasts_ext n w w' xs : forall t,
  (forall x, x ∈ xs -> unpinned w x = unpinned w' x) -> lasts n w t xs -> lasts n w' t xs.
Proof.
  induction xs as [|x xs IH]; intros t H; [done|]. cbn. rewrite <- (H x) by set_solver.
  destruct (unpinned w x); [|intros [? Hl]; split; [done|]; revert Hl]; apply IH; set_solver.
Qed.

Lemma npin_le w xs : npin w xs <= Z.of_nat (length xs).
Proof. unfold npin. pose proof (length_filter (fun x => unpinned w x = false) xs). lia. Qed.
Lemma npin_app w xs ys : npin w (xs ++ ys) = npin w xs + npin w ys.
Proof. unfold npin. rewrite filter_app, length_app. lia. Qed.

(** ** Going around *)

(** [r] is the queue [l] in the order in which the hand visits it. *)
Definition rot (l r : list Z) : Prop := exists l1 l2, l = l1 ++ l2 /\ r = l2 ++ l1.

Lemma rot_step l x r : rot l (x :: r) -> rot l (r ++ [x]).
Proof.
  intros (l1 & l2 & -> & Heq). destruct l2 as [|y l2]; cbn in Heq.
  - subst l1. exists [x], r. by rewrite app_nil_r.
  - injection Heq as <- ->. exists (l1 ++ [x]), l2. by rewrite <- !app_assoc.
Qed.

Lemma rot_split l x r : rot l (x :: r) -> exists l1 l2, l = l1 ++ x :: l2 /\ r = l2 ++ l1.
Proof.
  intros (l1 & l2 & -> & Heq). destruct l2 as [|y l2]; cbn in Heq.
  - subst l1. exists [], r. by rewrite !app_nil_r.
  - injection Heq as <- ->. by exists l1, l2.
Qed.

Lemma rot_perm l r : rot l r -> r ≡ₚ l.
Proof. intros (l1 & l2 & -> & ->). apply Permutation_app_comm. Qed.
