(* ===== verification/ClockSweep.v ===== *)
(** * The clock sweep ([freelist.c], lines 236-380)

    A hand moves around all buffers; it decrements the usage count of an unpinned
    buffer that has one and evicts the first unpinned buffer without. *)
From S2P Require Import Prelude BufState BufTag Shmem Concurrency PrivateRefCount Ring Sample DList Sweep.

(** ** Layout: [ClockSweepState] is the word [nextVictimBuffer] *)
Definition nextVictimBuffer : Z := 0.

Definition ClockSweepShmemSize (n_buffers : Z) : Z := 4.

Definition ClockSweepInitialize (found : bool) : M unit :=
  if negb found then wr_word nextVictimBuffer 0 else ret tt.

Definition incr_completePasses : M unit :=
  modify_shm (fun s => with_StrategyControl
    (with_completePasses (u32 (completePasses (StrategyControl s) + 1)) (StrategyControl s)) s).

(** One round of the [while (!success)] loop; the local is [expected]. *)
Definition wrap_round (n expected : Z) : M (ctl Z unit) :=
  SpinLockAcquire ;;
  let wrapped := expected mod n in
  let* '(success, seen) := pg_atomic_compare_exchange_u32 nextVictimBuffer expected wrapped in
  when success incr_completePasses ;;
  SpinLockRelease ;;
  if success : bool then ret (Break tt) else ret (Continue seen).

Definition ClockSweepTick : M Z :=
  let* n := get_me NBuffers in
  let* victim := pg_atomic_fetch_add_u32 nextVictimBuffer 1 in
  if n <=? victim then
    let originalVictim := victim in
    let victim := victim mod n in
    when (victim =? 0)
      (let expected := u32 (originalVictim + 1) in
       forever (wrap_round n) expected) ;;
    ret victim
  else ret victim.

(** How the loop over one buffer ends. *)
Inductive clock_step := Evict (buf st : Z) | MoveOn (trycounter : Z).

(** One round of the inner loop; the locals are [old_buf_state] and [trycounter]. *)
Definition clock_buffer_round (strategy : BufferAccessStrategy) (buf : Z) (s : Z * Z)
    : M (ctl (Z * Z) clock_step) :=
  let '(old_buf_state, trycounter) := s in
  let* n := get_me NBuffers in
  let local_buf_state := old_buf_state in
  if negb (BUF_STATE_GET_REFCOUNT local_buf_state =? 0) then
    let trycounter := trycounter - 1 in
    if trycounter =? 0 then elog "no unpinned buffers available"
    else ret (Break (MoveOn trycounter))
  else if flag local_buf_state BM_LOCKED then
    let* s := WaitBufHdrUnlocked buf in
    ret (Continue (s, trycounter))
  else if negb (BUF_STATE_GET_USAGECOUNT local_buf_state =? 0) then
    let local_buf_state := u64 (local_buf_state - BUF_USAGECOUNT_ONE) in
    let* '(ok, seen) := pg_atomic_compare_exchange_u64 buf old_buf_state local_buf_state in
    if ok : bool then ret (Break (MoveOn n)) else ret (Continue (seen, trycounter))
  else
    let local_buf_state := u64 (local_buf_state + BUF_REFCOUNT_ONE) in
    let* '(ok, seen) := pg_atomic_compare_exchange_u64 buf old_buf_state local_buf_state in
    if ok : bool then
      claim_buffer strategy buf ;;
      ret (Break (Evict buf local_buf_state))
    else ret (Continue (seen, trycounter)).

(** One round of the outer loop; the local is [trycounter]. *)
Definition clock_round (strategy : BufferAccessStrategy) (trycounter : Z) : M (ctl Z (Z * Z)) :=
  let* t := ClockSweepTick in
  let buf := GetBufferDescriptor t in
  let* old_buf_state := pg_atomic_read_u64 buf in
  let* r := forever (clock_buffer_round strategy buf) (old_buf_state, trycounter) in
  match r with
  | Evict buf st => ret (Break (buf, st))
  | MoveOn trycounter => ret (Continue trycounter)
  end.

Definition ClockSweepGetBuffer (strategy : BufferAccessStrategy) : M (Z * Z) :=
  let* n := get_me NBuffers in
  forever (clock_round strategy) n.

(** ** The hand and the passes *)
Definition clock_set (h p : Z) (w : World) : World :=
  upd_shm (fun s => with_StrategyControl (with_completePasses p (StrategyControl s))
    (with_policy_mem (insertZ nextVictimBuffer h (policy_mem s)) s)) w.

(** The hand stands at [h] after [p] completed passes; [h = n] is the moment
    before the next tick counts a pass. *)
Record clock_at (n : Z) (w : World) (h p : Z) : Prop := {
  ca_n : NBuffers (me w) = n;
  ca_range : 2 <= n < 2 ^ 31;
  ca_hand : lookupZ (mem w) nextVictimBuffer = Some h;
  ca_hand_range : 0 <= h <= n;
  ca_passes : completePasses (StrategyControl (shm w)) = p;
  ca_passes_range : 0 <= p < 2 ^ 32;
  ca_lock : lock_of (shm w) = None;
  ca_quiet : quiet w;
  ca_gas : (0 < gas (me w))%nat
}.

(** One tick on hand and passes, and [k] of them. *)
Definition tick1 (n : Z) (hp : Z * Z) : Z * Z := (hp.1 mod n + 1, u32 (hp.2 + hp.1 / n)).
Definition ticks (n : Z) (k : nat) (hp : Z * Z) : Z * Z := Nat.iter k (tick1 n) hp.

Lemma fetch_add_quiet w a v x :
  quiet w -> lookupZ (mem w) a = Some x ->
  pg_atomic_fetch_add_u32 a v w = (Ret x, with_mem (insertZ a (u32 (x + v)) (mem w)) w).
Proof.
  intros Hq Hx. unfold pg_atomic_fetch_add_u32.
  rewrite (bind_ret _ _ _ _ _ (interfere_quiet w Hq)), (bind_ret _ _ _ _ _ (rd_word_run _ _ _ Hx)).
  by rewrite (bind_ret _ _ _ _ _ (wr_word_run _ _ _ _ Hx)).
Qed.

Lemma cas32_quiet w a v x :
  quiet w -> lookupZ (mem w) a = Some x ->
  pg_atomic_compare_exchange_u32 a x v w = (Ret (true, x), with_mem (insertZ a v (mem w)) w).
Proof.
  intros Hq Hx. unfold pg_atomic_compare_exchange_u32.
  rewrite (bind_ret _ _ _ _ _ (interfere_quiet w Hq)), (bind_ret _ _ _ _ _ (rd_word_run _ _ _ Hx)).
  by rewrite Z.eqb_refl, (bind_ret _ _ _ _ _ (wr_word_run _ _ _ _ Hx)).
Qed.

(** The loop that counts a pass, entered with the value the hand has. *)
Lemma wrap_run w n h :
  quiet w -> lock_of (shm w) = None -> (0 < gas (me w))%nat ->
  lookupZ (mem w) nextVictimBuffer = Some h ->
  forever (wrap_round n) h w =
    (Ret tt, clock_set (h mod n) (u32 (completePasses (StrategyControl (shm w)) + 1)) w).
Proof.
  intros Hq Hl Hg Hh. unfold forever. destruct (gas (me w)) as [|k] eqn:Hk; [lia|].
  apply iter_break. unfold wrap_round.
  rewrite (bind_ret _ _ _ _ _ (SpinLockAcquire_quiet w Hq Hl ltac:(lia))).
  set (w1 := set_lock _ w).
  rewrite (bind_ret _ _ _ _ _ (cas32_quiet w1 _ _ _ Hq Hh)).
  unfold lock_of in Hl. destruct w as [[? [] ? ? ? ?] ? ?]. cbn in *. by subst.
Qed.

Lemma ClockSweepTick_run n w h p :
  clock_at n w h p ->
  ClockSweepTick w = (Ret (h mod n),
    clock_set (tick1 n (h, p)).1 (tick1 n (h, p)).2 w).
Proof.
  intros [Hn Hr Hh Hhr Hp Hpr Hl Hq Hg]. unfold ClockSweepTick, tick1. cbn [fst snd].
  rewrite (bind_ret _ _ w n w) by (unfold get_me, gets; by rewrite Hn).
  rewrite (bind_ret _ _ _ _ _ (fetch_add_quiet w _ 1 h Hq Hh)).
  rewrite (u32_small (h + 1)) by lia.
  destruct (Z.leb_spec n h) as [Hge|Hlt].
  - assert (h = n) as -> by lia. rewrite Z.mod_same, Z.div_same by lia. cbn [Z.eqb when].
    set (w1 := with_mem _ w). rewrite (bind_ret _ _ _ _ _ (wrap_run w1 n (n + 1) Hq Hl Hg
      (lookupZ_insertZ_eq _ _ _ (lookupZ_Some _ _ _ Hh)))).
    replace ((n + 1) mod n) with 1.
    2: { rewrite <- (Z.mul_1_l n) at 1. rewrite Z.add_comm, Z.mod_add by lia. by rewrite Z.mod_small by lia. }
    subst w1. unfold ret. f_equal. unfold clock_set, with_mem, upd_shm, mem. cbn -[insertZ].
    rewrite insertZ_insertZ, Hp. done.
  - rewrite Z.mod_small, Z.div_small, Z.add_0_r, (u32_small p) by lia.
    unfold ret. f_equal. subst p. by destruct w as [[? [] ? ? ? ?] ? ?].
Qed.

(** Counted from the start, the hand has made [p * n + h] ticks. *)
Lemma ticks_closed n k h p :
  0 < n -> 0 <= h <= n -> 0 <= p < 2 ^ 32 ->
  ticks n (S k) (h, p) = ((h + Z.of_nat k) mod n + 1, u32 (p + (h + Z.of_nat k) / n)).
Proof.
  intros Hn Hh Hp. induction k as [|k IH]; [by rewrite Z.add_0_r|].
  change (ticks n (S (S k)) (h, p)) with (tick1 n (ticks n (S k) (h, p))). rewrite IH.
  unfold tick1. cbn [fst snd]. set (t := h + Z.of_nat k).
  replace (h + Z.of_nat (S k)) with (t + 1) by lia.
  assert (t + 1 = n * (t / n) + (t mod n + 1)) as E by (pose proof (Z_div_mod_eq_full t n); lia).
  assert ((t + 1) mod n = (t mod n + 1) mod n) as ->.
  { rewrite E, Z.add_comm, Z.mul_comm. by apply Z.mod_add; lia. }
  assert ((t + 1) / n = t / n + (t mod n + 1) / n) as ->.
  { rewrite E, Z.add_comm, Z.mul_comm, Z.div_add by lia. lia. }
  f_equal. unfold u32. rewrite Z.add_mod_idemp_l by done. f_equal. lia.
Qed.

(** ** Safety under interference *)
Definition clock_inv (m : list Z) : Prop :=
  exists h, lookupZ m nextVictimBuffer = Some h /\ 0 <= h < 2 ^ 32.

Lemma clock_inv_insert m h : clock_inv m -> 0 <= h < 2 ^ 32 -> clock_inv (insertZ nextVictimBuffer h m).
Proof.
  intros (h0 & Hh0 & _) Hh. exists h. split; [|done]. by eapply lookupZ_insertZ_eq, lookupZ_Some.
Qed.

Section safety.
Context (pr : Proto) (Hinv : pr_inv pr = clock_inv) (Hlk : pr_locked pr = false).
Abbreviation n := (pr_n pr).

Lemma env_clock w : env_ok pr w -> clock_inv (mem w).
Proof using Hinv Hlk. intros [[_ H] _ _ _]. rewrite <- Hinv. apply H. by left. Qed.

Lemma env_clock_write w h :
  env_ok pr w -> 0 <= h < 2 ^ 32 -> env_ok pr (with_mem (insertZ nextVictimBuffer h (mem w)) w).
Proof using Hinv Hlk.
  intros He Hh. apply env_write; [done|]. rewrite Hinv. by apply clock_inv_insert; [apply env_clock|].
Qed.

Lemma wrap_round_post m0 e w :
  0 < n < 2 ^ 31 -> 0 <= e < 2 ^ 32 -> outside pr m0 w ->
  wp (wrap_round n e) (round_post_partial (fun e w => 0 <= e < 2 ^ 32 /\ outside pr m0 w)
    (fun o w' => match o with Ret _ => outside pr m0 w' | Spin => True | _ => False end)) w.
Proof using Hinv Hlk.
  intros Hn He Hout. unfold wrap_round.
  apply wp_bind, wp_SpinLockAcquire with (pr := pr); [apply Hout|done|].
  intros w1 Hev Hi _ Henv. cbn [bind_post].
  pose proof (outside_evolves _ _ _ _ Hout Hev) as (_ & _ & Hm1).
  set (w2 := set_lock (Some (pr_proc pr)) w1) in *.
  apply wp_bind, wp_bind, wp_interfere with (pr := pr); [done|]. intros w3 Hev3. cbn [bind_post].
  destruct (env_clock w3 (evo_env _ _ _ Hev3)) as (h & Hh & Hhr).
  apply wp_bind. eapply wp_eq; [by apply rd_word_run|]. cbn [bind_post].
  assert (me w3 = m0) as Hm3 by (rewrite (evo_me _ _ _ Hev3); done).
  assert (forall w', env_ok pr w' -> me w' = m0 -> outside pr m0 (set_lock None w')) as Hrel.
  { intros w' He' Hm'. split; [|done]. apply env_release; [done|]. rewrite Hinv. by apply env_clock. }
  assert (0 <= e mod n < 2 ^ 32) as Hmod by (pose proof (Z.mod_pos_bound e n ltac:(lia)); lia).
  destruct (Z.eqb_spec h e) as [->|Hne].
  - eapply wp_eq; [by rewrite (bind_ret _ _ _ _ _ (wr_word_run _ _ _ _ Hh))|]. cbn [bind_post when].
    pose proof (env_clock_write w3 (e mod n) (evo_env _ _ _ Hev3) Hmod) as He4.
    apply wp_bind. eapply wp_eq; [done|]. cbn [bind_post]. apply wp_bind. eapply wp_eq; [done|].
    apply wp_ret. cbn -[insertZ]. apply Hrel; [|done]. destruct He4 as [[[Hlen Hids Hbgw] ?] ? ? ?].
    split; [|done|done|done]. split; [by split|done].
  - apply wp_ret. cbn. split; [done|]. apply Hrel; [apply Hev3|done].
Qed.

Lemma ClockSweepTick_post m0 w :
  0 < n < 2 ^ 31 -> outside pr m0 w ->
  wp ClockSweepTick (fun o w' => match o with
    | Ret v => 0 <= v < n /\ outside pr m0 w'
    | Spin => True
    | Elog _ | UB _ => False
    end) w.
Proof using Hinv Hlk.
  intros Hn Hout. unfold ClockSweepTick. assert (NBuffers (me w) = n) as Hw by apply Hout.
  apply wp_bind. eapply wp_eq; [done|]. cbn [bind_post]. rewrite Hw.
  apply wp_bind, wp_bind, wp_interfere with (pr := pr); [apply Hout|]. intros w1 Hev. cbn [bind_post].
  destruct (env_clock w1 (evo_env _ _ _ Hev)) as (h & Hh & Hhr).
  apply wp_bind. eapply wp_eq; [by apply rd_word_run|]. cbn [bind_post].
  eapply wp_eq; [by rewrite (bind_ret _ _ _ _ _ (wr_word_run _ _ _ _ Hh))|]. cbn [bind_post].
  set (w2 := with_mem _ w1).
  assert (outside pr m0 w2) as Hout2.
  { destruct (outside_evolves _ _ _ _ Hout Hev) as (? & ? & ?). split; [|done].
    apply env_clock_write; [done|]. apply Z.mod_pos_bound; lia. }
  pose proof (Z.mod_pos_bound h n ltac:(lia)) as Hmod.
  destruct (Z.leb_spec n h) as [Hge|Hlt]; [|apply wp_ret; split; [lia|done]].
  destruct (Z.eqb_spec (h mod n) 0) as [_|_]; cbn [when]; [|by apply wp_ret].
  apply wp_bind. eapply wp_mono; [|eapply (wp_forever_partial
    (fun e w => 0 <= e < 2 ^ 32 /\ outside pr m0 w)
    _ (fun o w' => match o with Ret _ => outside pr m0 w' | Spin => True | _ => False end)); [done| |]].
  - by intros [u|e|e|] w'.
  - intros e w' [He Ho]. by apply wrap_round_post.
  - split; [apply Z.mod_pos_bound; lia|done].
Qed.

Definition clock_post (strategy : BufferAccessStrategy) (m0 : Backend)
    (o : outcome (Z * Z)) (w' : World) : Prop :=
  match o with
  | Ret (buf, st) =>
      env_ok pr w' /\ lock_of (shm w') <> Some (pr_proc pr) /\ usage st = 0 /\
      exists w1, me w1 = m0 /\ claimed pr strategy buf st w1 w'
  | Elog _ => outside pr m0 w'
  | Spin => True
  | UB _ => False
  end.

(** The loop over one buffer. *)
Definition clock_step_post (strategy : BufferAccessStrategy) (m0 : Backend)
    (o : outcome clock_step) (w' : World) : Prop :=
  match o with
  | Ret (MoveOn _) => outside pr m0 w'
  | Ret (Evict buf st) => clock_post strategy m0 (Ret (buf, st)) w'
  | Elog e => outside pr m0 w'
  | Spin => True
  | UB _ => False
  end.

Lemma clock_claim strategy m0 w1 buf d :
  ready pr m0 -> ring_ready n strategy m0 -> outside pr m0 w1 ->
  0 <= buf < n -> desc_at w1 buf d -> buf_id d = buf -> wf_state (state d) ->
  own_ok pr buf (state d) ->
  refcount (state d) = 0 -> usage (state d) = 0 -> flag (state d) BM_LOCKED = false ->
  wp (claim_buffer strategy buf ;;
      ret (Break (S := Z * Z) (Evict buf (pinned_word (state d)))))
    (round_post_partial (fun st w => wf_state (fst st) /\ outside pr m0 w) (clock_step_post strategy m0))
    (set_desc buf (with_state (pinned_word (state d)) d) w1).
Proof using Type.
  intros Hready Hring (Henv & Hl1 & Hm1) Hb Hd Hid Hwf Hpin Hr Hu Hl.
  destruct (pinned_free _ Hwf Hr) as (Hwf' & Hr' & Hu' & _).
  assert (env_ok pr (set_desc buf (with_state (pinned_word (state d)) d) w1)) as Henv2.
  { eapply env_set_desc; [done|exact Hd|done|done|]. by eapply own_none, own_free. }
  destruct (claim_buffer_claimed pr strategy w1 buf d (mem w1)) as (w' & Hrun & Hcl & Hshm);
    try done; [by rewrite Hm1..|].
  assert (forall w0, with_mem (mem w1) (set_desc buf w0 w1) = set_desc buf w0 w1) as Hsame
    by (by destruct w1 as [[] ? ?]).
  rewrite Hsame in Hrun, Hshm.
  eapply wp_eq; [by rewrite (bind_ret _ _ _ _ _ Hrun)|]. cbn.
  split_and!; [by eapply claimed_env|by rewrite Hshm|congruence|by exists w1].
Qed.

Lemma clock_buffer_round_post strategy m0 buf st t w :
  ready pr m0 -> ring_ready n strategy m0 -> 0 <= buf < n -> wf_state st -> outside pr m0 w ->
  wp (clock_buffer_round strategy buf (st, t))
    (round_post_partial (fun st w => wf_state (fst st) /\ outside pr m0 w) (clock_step_post strategy m0)) w.
Proof using Type.
  intros Hready Hring Hb Hwf Hout. unfold clock_buffer_round.
  apply wp_bind. eapply wp_eq; [done|]. cbn [bind_post].
  rewrite get_refcount, get_usagecount by apply Hwf.
  destruct (Z.eqb_spec (refcount st) 0) as [Hr|Hr]; cbn [negb].
  2: { destruct (t - 1 =? 0); [by apply wp_elog|by apply wp_ret]. }
  destruct (flag st BM_LOCKED) eqn:Hl.
  { apply wp_bind, wp_WaitBufHdrUnlocked with (pr := pr); [apply Hout|done|done|].
    intros w1 d Hev Hd Hid Hwf1 Hpin _. cbn [bind_post]. apply wp_ret. cbn.
    split; [done|by eapply outside_evolves]. }
  destruct (Z.eqb_spec (usage st) 0) as [Hu|Hu]; cbn [negb];
    (apply wp_bind, wp_pg_atomic_compare_exchange_u64 with (pr := pr); [apply Hout|done| |];
    [|intros w1 d Hev Hd Hid _ Hwf1 _; cbn [bind_post]; apply wp_ret; cbn;
      split; [done|by eapply outside_evolves]]).
  - intros w1 d Hev Hd Hid Hst _ Hpin. cbn [bind_post]. subst st.
    apply clock_claim; try done. by eapply outside_evolves.
  - intros w1 d Hev Hd Hid Hst _ Hpin. cbn [bind_post]. subst st. apply wp_ret. cbn.
    destruct (outside_evolves _ _ _ _ Hout Hev) as (He1 & Hl1 & Hm1).
    pose proof (usage_range (state d)).
    destruct (usage_down_word _ Hwf) as (Hwf' & Hr' & _); [lia|].
    split; [|done]. eapply env_set_desc; [done|exact Hd|done|exact Hwf'|].
    by eapply own_none, own_free.
Qed.

Lemma ClockSweepGetBuffer_post strategy w :
  0 < n < 2 ^ 31 -> ready pr (me w) -> ring_ready n strategy (me w) -> outside pr (me w) w ->
  wp (ClockSweepGetBuffer strategy) (clock_post strategy (me w)) w.
Proof using Hinv Hlk.
  intros Hn Hready Hring Hout. unfold ClockSweepGetBuffer.
  apply wp_bind. eapply wp_eq; [done|]. cbn [bind_post].
  apply (wp_forever_partial (fun _ : Z => outside pr (me w))); [done| |done].
  intros t w1 Hout1. unfold clock_round. apply wp_bind.
  eapply wp_mono; [|by apply ClockSweepTick_post]. intros [v|e|e|] w2; cbn [bind_post]; try done.
  intros [Hv Hout2]. unfold GetBufferDescriptor.
  apply wp_bind, wp_pg_atomic_read_u64 with (pr := pr); [apply Hout2|done|].
  intros w3 d Hev Hd Hid Hwf Hpin. cbn [bind_post]. apply wp_bind.
  eapply wp_mono; [|apply (wp_forever_partial
    (fun st w' => wf_state (fst st) /\ outside pr (me w) w') _ (clock_step_post strategy (me w))); [done| |]].
  - intros [[]|e|e|] w4; cbn [bind_post]; try done; intros H; by apply wp_ret.
  - intros [st t'] w4 [Hwf4 Hout4]. by apply clock_buffer_round_post.
  - split; [done|by eapply outside_evolves].
Qed.
End safety.

(** ** Without interference: which buffer is evicted *)

(** The hand passes over a buffer: an unpinned one loses one of its usage count. *)
Definition dec (d : BufferDesc) : BufferDesc :=
  if refcount (state d) =? 0 then with_state (u64 (state d - BUF_USAGECOUNT_ONE)) d else d.

(** The buffers in the order in which the hand comes by, from [c] on. *)
Definition clock_order (n c : Z) : list Z := seqZ c (n - c) ++ seqZ 0 c.

Lemma clock_order_step n c :
  0 <= c < n -> exists r, clock_order n c = c :: r /\ clock_order n ((c + 1) mod n) = r ++ [c].
Proof.
  intros Hc. exists (seqZ (c + 1) (n - c - 1) ++ seqZ 0 c). unfold clock_order. split.
  - rewrite (seqZ_cons c (n - c)) by lia. cbn. do 2 f_equal; f_equal; lia.
  - assert (seqZ 0 c ++ [c] = seqZ 0 (c + 1)) as Hend.
    { rewrite (seqZ_S_end (c + 1)) by lia. do 2 f_equal; f_equal; lia. }
    rewrite <- app_assoc, Hend. destruct (decide (c + 1 = n)) as [<-|Hne].
    + rewrite Z.mod_same by lia. replace (c + 1 - c - 1) with 0 by lia. rewrite Z.sub_0_r. cbn.
      by rewrite app_nil_r.
    + rewrite Z.mod_small by lia. f_equal. f_equal. lia.
Qed.

Lemma clock_order_perm n c : 0 <= c <= n -> clock_order n c ≡ₚ seqZ 0 n.
Proof.
  intros Hc. unfold clock_order. rewrite Permutation_app_comm.
  replace n with (c + (n - c)) at 2 by lia. by rewrite seqZ_app by lia.
Qed.

Lemma touch_clock g h p xs : forall w,
  touch g xs (clock_set h p w) = clock_set h p (touch g xs w).
Proof.
  induction xs as [|x xs IH]; intros w; [done|]. rewrite !touch_cons, <- IH. f_equal.
  unfold touch_at. cbn. by case_match.
Qed.

Section quiet_rounds.
Context (n : Z) (strategy : BufferAccessStrategy).

(** Between two rounds: the hand is at the head of [r]. *)
Definition at_clock (w : World) (h p : Z) (r : list Z) : Prop :=
  clock_at n w h p /\ r = clock_order n (h mod n).

Lemma at_clock_range w h p r x : at_clock w h p r -> x ∈ r -> 0 <= x < n.
Proof using Type.
  intros [[_ Hn _ Hh] ->]. rewrite (clock_order_perm n (h mod n)).
  - rewrite elem_of_seqZ. lia.
  - pose proof (Z.mod_pos_bound h n ltac:(lia)). lia.
Qed.

Lemma at_clock_nodup w h p r : at_clock w h p r -> NoDup r.
Proof using Type.
  intros [[_ Hn _ Hh] ->]. rewrite (clock_order_perm n (h mod n)); [apply NoDup_seqZ|].
  pose proof (Z.mod_pos_bound h n ltac:(lia)). lia.
Qed.

Lemma at_clock_length w h p r : at_clock w h p r -> length r = Z.to_nat n.
Proof using Type.
  intros [[_ Hn _ Hh] ->]. rewrite (clock_order_perm n (h mod n)); [apply length_seqZ|].
  pose proof (Z.mod_pos_bound h n ltac:(lia)). lia.
Qed.

(** The tick of a round. *)
Lemma at_clock_tick w h p x r :
  at_clock w h p (x :: r) ->
  let hp := tick1 n (h, p) in
  ClockSweepTick w = (Ret x, clock_set hp.1 hp.2 w) /\ at_clock (clock_set hp.1 hp.2 w) hp.1 hp.2 (r ++ [x]).
Proof using Type.
  intros [Hat Hr] hp. rewrite (ClockSweepTick_run n w h p Hat). destruct Hat as [Hn Hrg Hh Hhr Hp Hpr Hl Hq Hg].
  pose proof (Z.mod_pos_bound h n ltac:(lia)) as Hc.
  destruct (clock_order_step n (h mod n) Hc) as (r' & Heq & Hnext). rewrite Heq in Hr.
  injection Hr as -> ->. split; [done|]. split; [|done]. subst hp. unfold tick1. cbn [fst snd].
  split; try done; cbn -[insertZ lookupZ]; [|lia|apply Z.mod_pos_bound; lia].
  by eapply lookupZ_insertZ_eq, lookupZ_Some.
Qed.

Lemma at_clock_set_desc w h p r x d : at_clock w h p r -> at_clock (set_desc x d w) h p r.
Proof using Type. intros [[] ?]. by split. Qed.

(** A round up to the tests of the state word. *)
Lemma clock_round_start w h p x r d t :
  at_clock w h p (x :: r) -> sees w x d ->
  let hp := tick1 n (h, p) in
  clock_round strategy t w =
    (let* r := fun w => iter_fuel (gas (me w)) (clock_buffer_round strategy x) (state d, t) w in
     match r with
     | Evict buf st => ret (Break (buf, st))
     | MoveOn trycounter => ret (Continue trycounter)
     end) (clock_set hp.1 hp.2 w).
Proof using Type.
  intros Hat Hsee hp. destruct (at_clock_tick _ _ _ _ _ Hat) as [Hrun [Hat' _]].
  unfold clock_round. rewrite (bind_ret _ _ _ _ _ Hrun). unfold GetBufferDescriptor.
  by rewrite (bind_ret _ _ _ _ _ (read_quiet _ (ca_quiet _ _ _ _ Hat') x d (proj1 Hsee))).
Qed.

Lemma clock_round_spare w h p x r d t :
  at_clock w h p (x :: r) -> sees w x d ->
  refcount (state d) <> 0 /\ t <> 1 \/ refcount (state d) = 0 /\ usage (state d) <> 0 ->
  let hp := tick1 n (h, p) in
  let w' := clock_set hp.1 hp.2 (touch_at dec w x) in
  clock_round strategy t w =
    (Ret (Continue (if refcount (state d) =? 0 then n else t - 1)), w') /\
  at_clock w' hp.1 hp.2 (r ++ [x]).
Proof using Type.
  intros Hat Hsee Hcase hp w'. rewrite (clock_round_start _ _ _ _ _ _ _ Hat Hsee). cbv zeta. fold hp.
  destruct (at_clock_tick _ _ _ _ _ Hat) as [_ Hat']. fold hp in Hat'.
  set (w1 := clock_set hp.1 hp.2 w) in *. destruct Hsee as (Hd & Hid & Hwf & Hl).
  assert (desc_at w1 x d) as Hd1 by exact Hd.
  assert (w' = touch_at dec w1 x) as ->.
  { symmetry. exact (touch_clock dec hp.1 hp.2 [x] w). }
  rewrite (touch_at_eq dec _ _ _ Hd1). unfold dec.
  pose proof (ca_gas _ _ _ _ (proj1 Hat')) as Hg. destruct (gas (me w1)) as [|k] eqn:Hk; [lia|].
  assert (clock_buffer_round strategy x (state d, t) w1 =
    (Ret (Break (MoveOn (if refcount (state d) =? 0 then n else t - 1))),
     set_desc x (if refcount (state d) =? 0 then with_state (u64 (state d - BUF_USAGECOUNT_ONE)) d else d) w1))
    as Hround.
  { unfold clock_buffer_round.
    rewrite (bind_ret _ _ w1 n w1) by (unfold get_me, gets; by rewrite (ca_n _ _ _ _ (proj1 Hat'))).
    rewrite get_refcount, get_usagecount, Hl by apply Hwf.
    destruct (Z.eqb_spec (refcount (state d)) 0) as [Hr|Hr]; cbn [negb].
    - destruct Hcase as [[? _]|[_ Hu]]; [done|]. rewrite (proj2 (Z.eqb_neq _ _) Hu). cbn [negb].
      by rewrite (bind_ret _ _ _ _ _ (cas_quiet _ (ca_quiet _ _ _ _ (proj1 Hat')) _ _ _ Hd1)).
    - destruct Hcase as [[_ Ht]|[? _]]; [|done]. rewrite (proj2 (Z.eqb_neq (t - 1) 0)) by lia.
      by rewrite (set_desc_id _ _ _ Hd1). }
  split; [|by apply at_clock_set_desc].
  unfold bind at 1. rewrite Hk, (iter_break _ _ _ _ _ _ Hround). done.
Qed.

Lemma clock_round_fail w h p x r d :
  at_clock w h p (x :: r) -> sees w x d -> refcount (state d) <> 0 ->
  let hp := tick1 n (h, p) in
  clock_round strategy 1 w = (Elog "no unpinned buffers available", clock_set hp.1 hp.2 w).
Proof using Type.
  intros Hat Hsee Hr hp. rewrite (clock_round_start _ _ _ _ _ _ _ Hat Hsee). cbv zeta. fold hp.
  destruct (at_clock_tick _ _ _ _ _ Hat) as [_ Hat']. fold hp in Hat'.
  set (w1 := clock_set hp.1 hp.2 w) in *.
  pose proof (ca_gas _ _ _ _ (proj1 Hat')) as Hg. destruct (gas (me w1)) as [|k] eqn:Hk; [lia|].
  unfold bind at 1. rewrite Hk.
  rewrite (iter_elog k _ (state d, 1) w1 "no unpinned buffers available" w1); [done|].
  unfold clock_buffer_round.
  rewrite (bind_ret _ _ w1 n w1) by (unfold get_me, gets; by rewrite (ca_n _ _ _ _ (proj1 Hat'))).
  rewrite get_refcount by apply Hsee. by rewrite (proj2 (Z.eqb_neq _ _) Hr).
Qed.

Lemma clock_round_evict w h p x r d t :
  at_clock w h p (x :: r) -> sees w x d -> refcount (state d) = 0 -> usage (state d) = 0 ->
  ring_ready n strategy (me w) -> can_track (me w) (x + 1) ->
  let hp := tick1 n (h, p) in
  exists m', clock_round strategy t w =
      (Ret (Break (x, pinned_word (state d))),
       with_me m' (clock_set hp.1 hp.2 (set_desc x (with_state (pinned_word (state d)) d) w))) /\
    tracked (with_rings (rings_put strategy (x + 1) (rings (me w))) (me w)) m' (x + 1).
Proof using Type.
  intros Hat Hsee Hr Hu Hring Hct hp. rewrite (clock_round_start _ _ _ _ _ _ _ Hat Hsee). cbv zeta. fold hp.
  pose proof (at_clock_range _ _ _ _ x Hat ltac:(set_solver)) as Hx.
  destruct (at_clock_tick _ _ _ _ _ Hat) as [_ Hat']. fold hp in Hat'.
  set (w1 := clock_set hp.1 hp.2 w) in *. destruct Hsee as (Hd & Hid & Hwf & Hl).
  assert (desc_at w1 x d) as Hd1 by exact Hd.
  set (w2 := set_desc x (with_state (pinned_word (state d)) d) w1).
  destruct (claim_buffer_run n w2 strategy x (with_state (pinned_word (state d)) d)) as (m' & Hrun & Htr);
    [done|by apply (desc_at_set_eq w1 _ d)|done|lia|done|].
  pose proof (ca_gas _ _ _ _ (proj1 Hat')) as Hg. destruct (gas (me w1)) as [|k] eqn:Hk; [lia|].
  exists m'. split; [|done]. unfold bind at 1. rewrite Hk.
  rewrite (iter_break k _ (state d, t) w1 (Evict x (pinned_word (state d))) (with_me m' w2)); [done|].
  unfold clock_buffer_round.
  rewrite (bind_ret _ _ w1 n w1) by (unfold get_me, gets; by rewrite (ca_n _ _ _ _ (proj1 Hat'))).
  rewrite get_refcount, get_usagecount, Hl, Hr, Hu by apply Hwf. cbn [negb Z.eqb].
  rewrite (bind_ret _ _ _ _ _ (cas_quiet _ (ca_quiet _ _ _ _ (proj1 Hat')) _ _ _ Hd1)).
  fold (pinned_word (state d)). fold w2. by rewrite (bind_ret _ _ _ _ _ Hrun).
Qed.

Lemma clock_set_id w h p r : at_clock w h p r -> clock_set h p w = w.
Proof using Type.
  intros [[_ _ Hh _ Hp] _]. subst p. unfold clock_set, upd_shm, mem in *.
  destruct w as [[? [] ? ? ? ?] ? ?]. cbn -[insertZ lookupZ] in *. by rewrite insertZ_id.
Qed.

Lemma clock_set_set h p h' p' w : clock_set h p (clock_set h' p' w) = clock_set h p w.
Proof using Type. unfold clock_set, upd_shm. cbn -[insertZ]. by rewrite insertZ_insertZ. Qed.

Lemma sees_dec w x y d h p :
  x <> y -> sees w y d -> sees (clock_set h p (touch_at dec w x)) y d.
Proof using Type.
  intros Hne (Hd & Hrest). split; [|done]. unfold touch_at. case_match; [|done].
  by apply (desc_at_set_ne w).
Qed.

(** The hand passes over [xs]. *)
Lemma clock_over xs : forall w h p t rest,
  at_clock w h p (xs ++ rest) -> NoDup xs ->
  (forall x, x ∈ xs -> exists d, sees w x d /\ (refcount (state d) <> 0 \/ usage (state d) <> 0)) ->
  lasts n w t xs ->
  let hp := ticks n (length xs) (h, p) in
  let w' := clock_set hp.1 hp.2 (touch dec xs w) in
  (forall k, iter_fuel (length xs + k) (clock_round strategy) t w =
     iter_fuel k (clock_round strategy) (tries n w t xs) w') /\
  at_clock w' hp.1 hp.2 (rest ++ xs).
Proof using Type.
  induction xs as [|x xs IH]; intros w h p t rest Hat Hnd Hall Ht hp w'.
  { subst w'. cbn in *. by rewrite (clock_set_id w h p rest Hat), app_nil_r. }
  apply NoDup_cons in Hnd as [Hx Hnd]. cbn in Ht.
  destruct (Hall x) as (d & Hsee & Hcase); [set_solver|].
  pose proof (unpinned_at _ _ _ (proj1 Hsee)) as Hux. rewrite Hux in Ht.
  destruct (clock_round_spare w h p x (xs ++ rest) d t Hat Hsee) as (Hrun & Hat1).
  { destruct (Z.eqb_spec (refcount (state d)) 0); [right|left]; tauto. }
  set (h1 := (tick1 n (h, p)).1) in *. set (p1 := (tick1 n (h, p)).2) in *.
  rewrite <- app_assoc in Hat1. set (w1 := clock_set h1 p1 (touch_at dec w x)) in *.
  assert (forall y, y ∈ xs -> unpinned w y = unpinned w1 y) as Hsame.
  { intros y Hy. destruct (Hall y) as (dy & Hsy & _); [set_solver|].
    rewrite (unpinned_at _ _ _ (proj1 Hsy)).
    symmetry. apply unpinned_at, (sees_dec w x y dy h1 p1); [set_solver|done]. }
  destruct (IH w1 h1 p1 (if refcount (state d) =? 0 then n else t - 1) _ Hat1 Hnd) as (Hiter & Hat').
  { intros y Hy. destruct (Hall y) as (dy & Hsy & Hcy); [set_solver|].
    exists dy. split; [|done]. apply sees_dec; [set_solver|done]. }
  { apply (lasts_ext _ w); [done|]. case_match; tauto. }
  assert (ticks n (length xs) (h1, p1) = hp) as Hhp.
  { subst hp. unfold ticks. cbn [length]. by rewrite Nat.iter_succ_r. }
  rewrite Hhp in Hiter, Hat'. unfold w1 in Hiter, Hat'. rewrite touch_clock, clock_set_set in Hiter, Hat'.
  rewrite <- touch_cons in Hiter, Hat'. fold w' in Hiter, Hat'. split.
  - intros k. cbn [length Nat.add]. rewrite (iter_continue _ _ _ _ _ _ Hrun), Hiter.
    f_equal. cbn [tries foldl]. rewrite Hux. symmetry. by apply tries_ext.
  - by rewrite <- app_assoc in Hat'.
Qed.

(** Every buffer is pinned: the tries run out. *)
Lemma clock_fail_run t : forall w h p r,
  (0 < t)%nat -> at_clock w h p r ->
  (forall x, 0 <= x < n -> exists d, sees w x d /\ refcount (state d) <> 0) ->
  let hp := ticks n t (h, p) in
  forall k, iter_fuel (t + k) (clock_round strategy) (Z.of_nat t) w =
    (Elog "no unpinned buffers available", clock_set hp.1 hp.2 w).
Proof using Type.
  induction t as [|t IH]; intros w h p r Ht Hat Hall hp k; [lia|].
  assert (exists x r', r = x :: r') as (x & r' & ->).
  { destruct r; [|by eauto]. pose proof (at_clock_length _ _ _ _ Hat) as Hlen.
    pose proof (ca_range _ _ _ _ (proj1 Hat)). cbn in Hlen. lia. }
  destruct (Hall x) as (d & Hsee & Hr); [eapply at_clock_range; [done|set_solver]|].
  destruct t as [|t].
  - apply iter_elog. by apply (clock_round_fail w h p x r' d).
  - destruct (clock_round_spare w h p x r' d (Z.of_nat (S (S t))) Hat Hsee) as (Hrun & Hat1).
    { left. split; [done|lia]. }
    assert (touch_at dec w x = w) as Hsame.
    { rewrite (touch_at_eq dec _ _ _ (proj1 Hsee)). unfold dec.
      rewrite (proj2 (Z.eqb_neq _ _) Hr). apply set_desc_id, Hsee. }
    rewrite Hsame in *. rewrite (proj2 (Z.eqb_neq _ _) Hr) in Hrun.
    change (S (S t) + k)%nat with (S (S t + k)). rewrite (iter_continue _ _ _ _ _ _ Hrun).
    replace (Z.of_nat (S (S t)) - 1) with (Z.of_nat (S t)) by lia.
    rewrite (IH _ _ _ _ ltac:(lia) Hat1); [|done].
    rewrite clock_set_set. subst hp. rewrite <- surjective_pairing.
    unfold ticks. by rewrite (Nat.iter_succ_r (S t)).
Qed.
End quiet_rounds.

(** The least usage count of the unpinned buffers among [xs]. *)
Fixpoint least_usage (w : World) (xs : list Z) : option Z :=
  match xs with
  | [] => None
  | x :: xs =>
      match lookupZ (BufferDescriptors (shm w)) x with
      | Some d =>
          if refcount (state d) =? 0
          then Some (from_option (Z.min (usage (state d))) (usage (state d)) (least_usage w xs))
          else least_usage w xs
      | None => least_usage w xs
      end
  end.

(** The victim, with the number of whole rounds before the one that finds it and
    the buffers passed over in that one: the first unpinned buffer with the
    least usage count. *)
Definition clock_choice (w : World) (r : list Z) : option (Z * list Z * Z) :=
  match least_usage w r with
  | Some u =>
      match first (desc_is (fun s => (refcount s =? 0) && (usage s =? u)) w) r with
      | Some (xs, v) => Some (u, xs, v)
      | None => None
      end
  | None => None
  end.

Lemma least_usage_None w xs :
  least_usage w xs = None -> forall x d, x ∈ xs -> desc_at w x d -> refcount (state d) <> 0.
Proof.
  induction xs as [|y xs IH]; intros Hn x d Hx Hd; [set_solver|]. cbn in Hn.
  apply elem_of_cons in Hx as [->|Hx].
  - rewrite Hd in Hn. by destruct (Z.eqb_spec (refcount (state d)) 0).
  - apply (IH ltac:(by repeat case_match) x d Hx Hd).
Qed.

Lemma least_usage_Some w xs u :
  least_usage w xs = Some u ->
  (forall x d, x ∈ xs -> desc_at w x d -> refcount (state d) = 0 -> u <= usage (state d)) /\
  exists x d, x ∈ xs /\ desc_at w x d /\ refcount (state d) = 0 /\ usage (state d) = u.
Proof.
  revert u. induction xs as [|y xs IH]; intros u Hs; [done|]. cbn in Hs.
  destruct (lookupZ (BufferDescriptors (shm w)) y) as [dy|] eqn:Hy.
  2: { destruct (IH u Hs) as [Hmin (x & d & Hx & Hrest)]. split; [|exists x, d; set_solver].
    intros x' d' [->|Hx']%elem_of_cons Hd'; [unfold desc_at in Hd'; congruence|by eapply Hmin]. }
  destruct (Z.eqb_spec (refcount (state dy)) 0) as [Hr|Hr].
  2: { destruct (IH u Hs) as [Hmin (x & d & Hx & Hrest)]. split; [|exists x, d; set_solver].
    intros x' d' [->|Hx']%elem_of_cons Hd'; [unfold desc_at in Hd'; naive_solver|by eapply Hmin]. }
  destruct (least_usage w xs) as [u'|] eqn:Hl; cbn in Hs; injection Hs as <-.
  - destruct (IH u' eq_refl) as [Hmin (x & d & Hx & Hd & Hr' & Hu)]. split.
    + intros x' d' [->|Hx']%elem_of_cons Hd' Hr''; unfold desc_at in Hd'; [|specialize (Hmin x' d'); naive_solver lia].
      rewrite Hy in Hd'. injection Hd' as <-. lia.
    + destruct (Z.min_spec (usage (state dy)) u') as [[_ ->]|[_ ->]]; [exists y, dy|exists x, d]; set_solver.
  - split; [|exists y, dy; set_solver].
    intros x' d' [->|Hx']%elem_of_cons Hd' Hr'; unfold desc_at in Hd'; [naive_solver|].
    by destruct (least_usage_None _ _ Hl x' d' Hx' Hd').
Qed.

(** ** Whole rounds *)
Lemma dec_iter u : forall d,
  wf_state (state d) -> flag (state d) BM_LOCKED = false ->
  (refcount (state d) = 0 -> Z.of_nat u <= usage (state d)) ->
  let d' := Nat.iter u dec d in
  buf_id d' = buf_id d /\ wf_state (state d') /\ flag (state d') BM_LOCKED = false /\
  refcount (state d') = refcount (state d) /\
  (refcount (state d) = 0 -> usage (state d') = usage (state d) - Z.of_nat u).
Proof.
  induction u as [|u IH]; intros d Hwf Hl Hu d'; [split_and!; try done; cbn; lia|].
  destruct (IH d Hwf Hl) as (Hid & Hwf1 & Hl1 & Hr1 & Hu1); [lia|].
  assert (d' = dec (Nat.iter u dec d)) as -> by done. set (d1 := Nat.iter u dec d) in *.
  clearbody d1. unfold dec. rewrite Hr1. destruct (Z.eqb_spec (refcount (state d)) 0) as [Hr|Hr]; [|done].
  cbn [state buf_id with_state].
  destruct (usage_down_word (state d1) Hwf1) as (Hwf2 & Hr2 & Hu2 & Hq); [lia|].
  split_and!; [done|done| |lia|lia]. rewrite <- Hl1.
  change BM_LOCKED with (BUF_DEFINE_FLAG 0). by apply flag_quot22.
Qed.

Lemma touch_iter_clock g h p r u : forall w,
  Nat.iter u (touch g r) (clock_set h p w) = clock_set h p (Nat.iter u (touch g r) w).
Proof. intros w. induction u as [|u IH]; [done|]. rewrite !Nat.iter_succ. by rewrite IH, touch_clock. Qed.

Lemma touch_iter_in g r x d u : forall w,
  NoDup r -> x ∈ r -> desc_at w x d -> desc_at (Nat.iter u (touch g r) w) x (Nat.iter u g d).
Proof. intros w Hnd Hx Hd. induction u as [|u IH]; [done|]. rewrite !Nat.iter_succ. by apply touch_in. Qed.

Lemma touch_iter_me g r u w : me (Nat.iter u (touch g r) w) = me w.
Proof. induction u as [|u IH]; [done|]. rewrite !Nat.iter_succ. by rewrite (proj1 (touch_rest g r _)). Qed.

Section whole_rounds.
Context (n : Z) (strategy : BufferAccessStrategy) (r ps ys : list Z) (v : Z).
Hypothesis Hr : r = ps ++ v :: ys.

(** Every buffer is seen and has a usage count of at least [u] or a pin. *)
Definition used (u : nat) (w : World) : Prop :=
  forall x, x ∈ r -> exists d, sees w x d /\
    (refcount (state d) = 0 -> Z.of_nat u <= usage (state d)).

Lemma sees_iter u w x d :
  NoDup r -> x ∈ r -> sees w x d -> (refcount (state d) = 0 -> Z.of_nat u <= usage (state d)) ->
  sees (Nat.iter u (touch dec r) w) x (Nat.iter u dec d).
Proof using Type.
  intros Hnd Hx (Hd & Hid & Hwf & Hl) Hu.
  destruct (dec_iter u d Hwf Hl Hu) as (Hid' & Hwf' & Hl' & _).
  split_and!; [by apply touch_iter_in|congruence|done|done].
Qed.

Lemma unpinned_iter u w x :
  NoDup r -> used u w -> x ∈ r -> unpinned w x = unpinned (Nat.iter u (touch dec r) w) x.
Proof using Type.
  intros Hnd Hused Hx. destruct (Hused x Hx) as (d & Hsee & Hu).
  rewrite (unpinned_at _ _ _ (proj1 Hsee)).
  rewrite (unpinned_at _ _ _ (proj1 (sees_iter u w x d Hnd Hx Hsee Hu))).
  destruct Hsee as (_ & _ & Hwf & Hl). by destruct (dec_iter u d Hwf Hl Hu) as (_ & _ & _ & -> & _).
Qed.

Lemma clock_passes u : forall w h p t,
  at_clock n w h p r -> used u w -> unpinned w v = true -> n - npin w ys <= t <= n ->
  let hp := ticks n (u * length r) (h, p) in
  let w' := clock_set hp.1 hp.2 (Nat.iter u (touch dec r) w) in
  exists t', n - npin w ys <= t' <= n /\
    (forall k, iter_fuel (u * length r + k) (clock_round strategy) t w =
       iter_fuel k (clock_round strategy) t' w') /\
    at_clock n w' hp.1 hp.2 r.
Proof using Hr.
  induction u as [|u IH]; intros w h p t Hat Hused Hv Ht hp w'.
  { exists t. subst w' hp. cbn. by rewrite (clock_set_id n w h p r Hat). }
  pose proof (at_clock_nodup _ _ _ _ _ Hat) as Hnd. pose proof (at_clock_length _ _ _ _ _ Hat) as Hlen.
  pose proof (ca_range _ _ _ _ (proj1 Hat)) as Hn.
  assert (npin w ps + npin w ys < n) as Hnp.
  { rewrite Hr, length_app in Hlen. cbn in Hlen.
    pose proof (npin_le w ps). pose proof (npin_le w ys). lia. }
  assert (0 <= npin w ps) by (unfold npin; lia).
  destruct (clock_over n strategy r w h p t []) as (Hiter & Hat1).
  { by rewrite app_nil_r. } { done. }
  { intros x Hx. destruct (Hused x Hx) as (d & Hsee & Hu). exists d. split; [done|]. lia. }
  { rewrite Hr. apply lasts_split; [done|lia|lia]. }
  cbn [app] in Hat1. set (hp1 := ticks n (length r) (h, p)) in *.
  assert (used 1 w) as Hused1.
  { intros x Hx. destruct (Hused x Hx) as (d & Hsee & Hu). exists d. split; [done|lia]. }
  assert (forall x, x ∈ r -> unpinned w x = unpinned (clock_set hp1.1 hp1.2 (touch dec r w)) x) as Hsame.
  { intros x Hx. by apply (unpinned_iter 1). }
  assert (npin w ys = npin (clock_set hp1.1 hp1.2 (touch dec r w)) ys) as Hys.
  { apply npin_ext. intros x Hx. apply Hsame. rewrite Hr. set_solver. }
  destruct (IH _ _ _ (tries n w t r) Hat1) as (t' & Ht' & Hiter' & Hat').
  { intros x Hx. destruct (Hused x Hx) as (d & Hsee & Hu). exists (dec d).
    split; [apply (sees_iter 1); (done || lia)|].
    destruct Hsee as (_ & _ & Hwf & Hl).
    destruct (dec_iter 1 d Hwf Hl ltac:(lia)) as (_ & _ & _ & Hr' & Hu'). cbn in Hr', Hu'. lia. }
  { rewrite <- Hsame; [done|]. rewrite Hr. set_solver. }
  { rewrite <- Hys. unfold tries. rewrite Hr, foldl_app. cbn. rewrite Hv.
    pose proof (tries_range n w ys n). unfold tries in *. lia. }
  assert (ticks n (u * length r) hp1 = hp) as Hhp.
  { subst hp hp1. unfold ticks. rewrite <- Nat.iter_add. f_equal. lia. }
  rewrite <- surjective_pairing, Hhp, touch_iter_clock, clock_set_set in Hiter', Hat'.
  rewrite <- Nat.iter_succ_r in Hiter', Hat'. fold w' in Hiter', Hat'.
  exists t'. split; [lia|]. split; [|done]. intros k.
  replace (S u * length r + k)%nat with (length r + (u * length r + k))%nat by lia.
  by rewrite Hiter, Hiter'.
Qed.
End whole_rounds.

(** What a search does that nobody interferes with and that meets no header
    lock: [u] whole rounds and the buffers [xs] of the last one lose usage
    counts, and [v] gets a pin. *)
Definition clock_result (n : Z) (strategy : BufferAccessStrategy) (h p : Z) (r : list Z) (w : World)
    (res : outcome (Z * Z) * World) : Prop :=
  match clock_choice w r with
  | Some (u, xs, v) =>
      exists d m',
        let w1 := touch dec xs (Nat.iter (Z.to_nat u) (touch dec r) w) in
        let hp := ticks n (Z.to_nat u * Z.to_nat n + length xs + 1) (h, p) in
        desc_at w1 v d /\ refcount (state d) = 0 /\ usage (state d) = 0 /\
        res = (Ret (v, pinned_word (state d)),
          with_me m' (clock_set hp.1 hp.2 (set_desc v (with_state (pinned_word (state d)) d) w1))) /\
        tracked (with_rings (rings_put strategy (v + 1) (rings (me w))) (me w)) m' (v + 1)
  | None =>
      let hp := ticks n (Z.to_nat n) (h, p) in
      res = (Elog "no unpinned buffers available", clock_set hp.1 hp.2 w)
  end.

Section clock_search.
Context (n : Z) (strategy : BufferAccessStrategy) (r : list Z) (w : World) (h p : Z).
Hypothesis Hat : at_clock n w h p r.
Hypothesis Hsees : forall x, x ∈ r -> exists d, sees w x d.
Hypothesis Hring : ring_ready n strategy (me w).
Hypothesis Htrack : forall x, x ∈ r -> unpinned w x = true -> can_track (me w) (x + 1).

Lemma least_used u : least_usage w r = Some u -> used r (Z.to_nat u) w /\ 0 <= u < 16.
Proof using Hsees.
  intros [Hmin (x & d & Hx & Hd & Hr0 & <-)]%least_usage_Some. pose proof (usage_range (state d)).
  split; [|done]. intros y Hy. destruct (Hsees y Hy) as (dy & Hsee). exists dy. split; [done|].
  intros Hr. specialize (Hmin y dy Hy (proj1 Hsee) Hr). lia.
Qed.

(** The victim and the buffers before it, after the whole rounds. *)
Lemma after_rounds u x d :
  least_usage w r = Some u -> x ∈ r -> sees w x d ->
  let d' := Nat.iter (Z.to_nat u) dec d in
  sees (Nat.iter (Z.to_nat u) (touch dec r) w) x d' /\
  refcount (state d') = refcount (state d) /\
  (refcount (state d) = 0 -> usage (state d') = usage (state d) - u).
Proof using Hat Hsees.
  intros Hu Hx Hsee d'. pose proof (at_clock_nodup _ _ _ _ _ Hat) as Hnd.
  destruct (least_used u Hu) as [_ Hur]. destruct (least_usage_Some _ _ _ Hu) as [Hmin _].
  assert (refcount (state d) = 0 -> Z.of_nat (Z.to_nat u) <= usage (state d)) as Hle.
  { intros Hr. specialize (Hmin x d Hx (proj1 Hsee) Hr). lia. }
  split; [by apply sees_iter|]. destruct Hsee as (_ & _ & Hwf & Hl).
  destruct (dec_iter _ d Hwf Hl Hle) as (_ & _ & _ & Hr & Hu'). split; [done|].
  intros H0. specialize (Hu' H0). subst d'. lia.
Qed.

(** The whole rounds and the buffers before the victim. *)
Lemma clock_before u xs v ys :
  least_usage w r = Some u -> r = xs ++ v :: ys ->
  (forall x, x ∈ xs -> desc_is (fun s => (refcount s =? 0) && (usage s =? u)) w x = false) ->
  unpinned w v = true ->
  let w1 := touch dec xs (Nat.iter (Z.to_nat u) (touch dec r) w) in
  let hp := ticks n (Z.to_nat u * Z.to_nat n + length xs) (h, p) in
  exists t, at_clock n (clock_set hp.1 hp.2 w1) hp.1 hp.2 (v :: ys ++ xs) /\
    forall k, iter_fuel (Z.to_nat u * Z.to_nat n + length xs + k) (clock_round strategy) n w =
      iter_fuel k (clock_round strategy) t (clock_set hp.1 hp.2 w1).
Proof using Hat Hsees.
  clear Hring Htrack. intros Hu Hr Hxs Hv w1 hp. destruct (least_used u Hu) as [Hused Hur].
  pose proof (at_clock_nodup _ _ _ _ _ Hat) as Hnd. pose proof (at_clock_length _ _ _ _ _ Hat) as Hlen.
  destruct (first (unpinned w) r) as [[ps v0]|] eqn:Hf.
  2: { assert (v ∈ r) by (rewrite Hr; set_solver). by rewrite (first_None _ _ Hf v) in Hv. }
  apply first_Some in Hf as (ys0 & Hr0 & Hv0 & _).
  assert (0 <= npin w ys0 /\ npin w ps + npin w ys0 < n) as [? Hnp].
  { pose proof Hlen as Hlen'. rewrite Hr0, length_app in Hlen'. cbn in Hlen'.
    pose proof (npin_le w ps). pose proof (npin_le w ys0). unfold npin in *. lia. }
  destruct (clock_passes n strategy r ps ys0 v0 Hr0 _ w h p n Hat Hused Hv0 ltac:(lia))
    as (t & Ht & Hiter1 & Hat1). rewrite Hlen in Hiter1, Hat1.
  set (hp1 := ticks n (Z.to_nat u * Z.to_nat n) (h, p)) in *.
  set (wu := Nat.iter (Z.to_nat u) (touch dec r) w) in *. set (w2 := clock_set hp1.1 hp1.2 wu) in *.
  assert (forall x, x ∈ r -> unpinned w x = unpinned w2 x) as Hsame
    by (intros x Hx; by apply unpinned_iter).
  assert (lasts n w2 t r) as Hlast.
  { apply (lasts_ext n w); [done|]. rewrite Hr0. apply lasts_split; [done|lia|]. unfold npin in *. lia. }
  pose proof Hat1 as Hat1'. rewrite Hr in Hlast, Hat1'. apply lasts_app in Hlast as [Hlast _].
  destruct (clock_over n strategy xs w2 hp1.1 hp1.2 t (v :: ys) Hat1') as (Hiter2 & Hat2).
  { rewrite Hr in Hnd. by apply NoDup_app in Hnd as (? & _). }
  { intros x Hx. assert (x ∈ r) as Hxr by (rewrite Hr; set_solver).
    destruct (Hsees x Hxr) as (d & Hsee).
    destruct (after_rounds u x d Hu Hxr Hsee) as (Hsee' & Hr' & Hu').
    exists (Nat.iter (Z.to_nat u) dec d). split; [exact Hsee'|]. rewrite Hr'.
    specialize (Hxs x Hx). unfold desc_is in Hxs. rewrite (proj1 Hsee) in Hxs.
    apply andb_false_iff in Hxs as [?%Z.eqb_neq|?%Z.eqb_neq]; lia. }
  { done. }
  assert (ticks n (length xs) (hp1.1, hp1.2) = hp) as Hhp.
  { rewrite <- surjective_pairing. subst hp hp1. unfold ticks. rewrite <- Nat.iter_add. f_equal. lia. }
  assert (touch dec xs w2 = clock_set hp1.1 hp1.2 w1) as Htc by apply touch_clock.
  rewrite Hhp, Htc, clock_set_set in Hiter2, Hat2.
  exists (tries n w2 t xs). split; [done|]. intros k. by rewrite <- Nat.add_assoc, Hiter1, Hiter2.
Qed.

(** Every buffer is pinned: one look at each. *)
Lemma all_pinned_run k :
  least_usage w r = None -> (Z.to_nat n < k)%nat ->
  iter_fuel k (clock_round strategy) n w =
    (Elog "no unpinned buffers available", clock_set (ticks n (Z.to_nat n) (h, p)).1 (ticks n (Z.to_nat n) (h, p)).2 w).
Proof using Hat Hsees.
  intros Hu Hk. pose proof (ca_range _ _ _ _ (proj1 Hat)) as Hn.
  replace k with (Z.to_nat n + (k - Z.to_nat n))%nat by lia.
  pose proof (clock_fail_run n strategy (Z.to_nat n) w h p r ltac:(lia) Hat) as Hfail.
  rewrite Z2Nat.id in Hfail by lia. apply Hfail. intros x Hx. assert (x ∈ r) as Hxr.
  { rewrite (proj2 Hat), clock_order_perm, elem_of_seqZ; [lia|].
    pose proof (Z.mod_pos_bound h n). lia. }
  destruct (Hsees x Hxr) as (d & Hsee). exists d. split; [done|].
  by eapply least_usage_None; [done|done|apply Hsee].
Qed.

Lemma ClockSweepGetBuffer_search :
  (16 * Z.to_nat n < gas (me w))%nat ->
  clock_result n strategy h p r w (ClockSweepGetBuffer strategy w).
Proof using Hat Hsees Hring Htrack.
  intros Hgas. unfold ClockSweepGetBuffer.
  rewrite (bind_ret _ _ w n w) by (unfold get_me, gets; by rewrite (ca_n _ _ _ _ (proj1 Hat))).
  unfold forever, clock_result, clock_choice. pose proof (at_clock_length _ _ _ _ _ Hat) as Hlen.
  pose proof (ca_range _ _ _ _ (proj1 Hat)) as Hn.
  destruct (least_usage w r) as [u|] eqn:Hu.
  2: { apply all_pinned_run; [done|lia]. }
  destruct (first _ r) as [[xs v]|] eqn:Hf.
  2: { destruct (least_usage_Some _ _ _ Hu) as [_ (x & d & Hx & Hd & Hr0 & Hu0)].
    pose proof (first_None _ _ Hf x Hx) as H. unfold desc_is in H. rewrite Hd in H.
    by rewrite Hr0, Hu0, !Z.eqb_refl in H. }
  destruct (first_Some _ _ _ _ Hf) as (ys & Hr & Hv & Hxs).
  assert (v ∈ r) as Hvr by (rewrite Hr; set_solver). destruct (Hsees v Hvr) as (d & Hsee).
  unfold desc_is in Hv. rewrite (proj1 Hsee) in Hv. apply andb_true_iff in Hv as [Hr0%Z.eqb_eq Hu0%Z.eqb_eq].
  assert (unpinned w v = true) as Hun by (rewrite (unpinned_at _ _ _ (proj1 Hsee)); by apply Z.eqb_eq).
  destruct (clock_before u xs v ys Hu Hr Hxs Hun) as (t & Hat1 & Hiter).
  destruct (after_rounds u v d Hu Hvr Hsee) as (Hsee' & Hr' & Hu').
  set (hp := ticks n (Z.to_nat u * Z.to_nat n + length xs) (h, p)) in *.
  set (w1 := touch dec xs _) in *.
  assert (me w1 = me w) as Hme.
  { unfold w1. by rewrite (proj1 (touch_rest _ _ _)), touch_iter_me. }
  assert (sees w1 v (Nat.iter (Z.to_nat u) dec d)) as Hsee1.
  { split; [|apply Hsee']. apply touch_out; [|apply Hsee'].
    pose proof (at_clock_nodup _ _ _ _ _ Hat) as Hnd. rewrite Hr in Hnd.
    apply NoDup_app in Hnd as (_ & Hd & _). intros H. apply (Hd v H). set_solver. }
  assert (Z.to_nat u < 16)%nat as Hu16 by (destruct (least_used u Hu); lia).
  assert (length xs < Z.to_nat n)%nat as Hxl.
  { rewrite Hr, length_app in Hlen. cbn in Hlen. lia. }
  assert (Z.to_nat u * Z.to_nat n + length xs < gas (me w))%nat as Hlt by nia.
  destruct (clock_round_evict n strategy _ _ _ v (ys ++ xs) _ t Hat1 Hsee1) as (m' & Hrun & Htr);
    [lia|lia|by cbn; rewrite Hme|by cbn; rewrite Hme; apply Htrack|].
  exists (Nat.iter (Z.to_nat u) dec d), m'. cbn zeta.
  split; [apply Hsee1|]. split; [lia|]. split; [lia|]. change (me (clock_set ?a ?b w1)) with (me w1) in Htr. rewrite Hme in Htr. split; [|done].
  replace (gas (me w)) with (Z.to_nat u * Z.to_nat n + length xs +
    S (gas (me w) - (Z.to_nat u * Z.to_nat n + length xs) - 1))%nat by lia.
  rewrite Hiter. erewrite iter_break by exact Hrun.
  rewrite <- surjective_pairing, Nat.add_1_r. change (ticks n (S ?a) ?b) with (tick1 n (ticks n a b)).
  fold hp. f_equal. f_equal.
  change (set_desc v ?x (clock_set ?a ?b w1)) with (clock_set a b (set_desc v x w1)).
  by rewrite clock_set_set.
Qed.

(** C9. Without interference, and with no header locked, [ClockSweepGetBuffer]
    evicts, of the unpinned buffers with the least usage count [u], the first one
    from the hand on, and pins it for the caller.  The unpinned buffers lose [u]
    of their usage count, those passed over in the last round one more, and hand
    and pass count advance by one tick per buffer looked at.  The error is raised
    exactly when every buffer is pinned, after one look at each.  It returns
    within sixteen rounds, because the usage count has four bits. *)
Theorem ClockSweepGetBuffer_run :
  (16 * Z.to_nat n < gas (me w))%nat ->
  clock_result n strategy h p r w (ClockSweepGetBuffer strategy w).
Proof using Hat Hsees Hring Htrack. apply ClockSweepGetBuffer_search. Qed.
End clock_search.

(** From the start: buffer 0 is pinned, 1 loses one of its usage count, and 2,
    which has none, is the victim. *)
Lemma ClockSweepGetBuffer_run_witness :
  let w := sample_world ClockSweepVtable [0] [] in
  clock_choice w [0; 1; 2] = Some (0, [0; 1], 2) /\
  clock_result 3 None 0 0 [0; 1; 2] w (ClockSweepGetBuffer None w).
Proof.
  cbn zeta. split; [done|].
  apply (ClockSweepGetBuffer_run 3 None [0; 1; 2] (sample_world ClockSweepVtable [0] []) 0 0).
  - split; [|done]. split; try done; vm_compute; lia.
  - intros x Hx. destruct (sample_desc_at ClockSweepVtable [0] [] x) as (d & Hd & _); [|by exists d].
    assert (x = 0 \/ x = 1 \/ x = 2) by set_solver. lia.
  - done.
  - intros x _ _. apply sample_can_track.
  - vm_compute. lia.
Defined.
