(* ===== verification/Sieve.v ===== *)
(** * The SIEVE policy ([freelist.c], lines 388-590)

    Buffers are queued by insertion; a hand moves from the oldest to the newest
    one, spares what was used since it last came by, and evicts the first buffer
    that was not. *)
From S2P Require Import Prelude BufState BufTag Shmem Concurrency PrivateRefCount Ring Sample DList Sweep.

(** ** Layout: [SieveState], then [SieveNext] and [SievePrev] *)
Definition SieveNext_base : Z := 2.
Definition SievePrev_base (n : Z) : Z := SieveNext_base + (n + 1).

Definition sieve_hand : M Z := rd_word 0.
Definition set_sieve_hand (v : Z) : M unit := wr_word 0 v.

(** The arrays start where [SieveInitialize] points them, which depends on
    [NBuffers]. *)
Definition SieveNext (n i : Z) : M Z := rd_arr SieveNext_base (n + 1) i.
Definition set_SieveNext (n i v : Z) : M unit := wr_arr SieveNext_base (n + 1) i v.
Definition SievePrev (n i : Z) : M Z := rd_arr (SievePrev_base n) (n + 1) i.
Definition set_SievePrev (n i v : Z) : M unit := wr_arr (SievePrev_base n) (n + 1) i v.

(** [Size] is 64 bits wide, the product of the two [int]s is not. *)
Definition SieveShmemSize (n_buffers : Z) : Z :=
  u64 (8 + u64 (u64 (i32 (2 * i32 (n_buffers + 1))) * 4)).

Definition SieveInitialize (found : bool) : M unit :=
  if negb found then
    let* n := get_me NBuffers in
    set_sieve_hand 0 ;;
    wr_word 1 0 ;;
    set_SieveNext n n (n - 1) ;;
    set_SievePrev n n 0 ;;
    for_upto (Z.to_nat n) 0 (fun i =>
      set_SieveNext n i (if i <? n - 1 then i + 1 else n) ;;
      set_SievePrev n i (if 0 <? i then i - 1 else n))
  else ret tt.

Definition SieveAdvanceHand : M unit :=
  let* n := get_me NBuffers in
  let* cur := sieve_hand in
  let* next := SieveNext n cur in
  let* next := (if next =? n then SievePrev n n else ret next) in
  set_sieve_hand next.

Definition SieveUnlinkAndAdvance (buf_id : Z) : M unit :=
  let* n := get_me NBuffers in
  let* newer := SieveNext n buf_id in
  let* older := SievePrev n buf_id in
  let* hand := sieve_hand in
  when (hand =? buf_id)
    (let new_hand := newer in
     let new_hand := if new_hand =? n then older else new_hand in
     set_sieve_hand new_hand) ;;
  (if newer =? n then set_SieveNext n n older else set_SievePrev n newer older) ;;
  (if older =? n then set_SievePrev n n newer else set_SieveNext n older newer) ;;
  set_SieveNext n buf_id n ;;
  set_SievePrev n buf_id n.

(** The part of [SieveNotifyInsert] that links the buffer in as the newest. *)
Definition sieve_link_newest (n b : Z) : M unit :=
  let* old_head := SieveNext n n in
  set_SieveNext n b n ;;
  set_SievePrev n b old_head ;;
  (if negb (old_head =? n) then set_SieveNext n old_head b else set_SievePrev n n b) ;;
  set_SieveNext n n b.

(** [SieveNotifyInsert] once it has the strategy lock. *)
Definition sieve_insert_locked (b : Z) : M unit :=
  let* n := get_me NBuffers in
  let* nx := SieveNext n b in
  let* pv := SievePrev n b in
  let* head := SieveNext n n in
  when (negb (nx =? n) || negb (pv =? n) || (head =? b)) (SieveUnlinkAndAdvance b) ;;
  sieve_link_newest n b ;;
  let* hand := sieve_hand in
  when (hand =? n) (set_sieve_hand b) ;;
  SpinLockRelease.

Definition SieveNotifyInsert (buf : Z) : M unit :=
  let* d := deref buf in
  SpinLockAcquire ;;
  sieve_insert_locked (buf_id d).

(** Its body is commented out in the source. *)
Definition SieveNotifyInvalidate (buf : Z) : M unit := ret tt.

(** One round of the search; the local is [trycounter]. *)
Definition sieve_round (strategy : BufferAccessStrategy) (trycounter : Z)
    : M (ctl Z (Z * Z)) :=
  let* n := get_me NBuffers in
  let* hand := sieve_hand in
  if hand =? n then
    SpinLockRelease ;; elog "no buffers in SIEVE eviction queue"
  else
  let* candidate := sieve_hand in
  let buf := GetBufferDescriptor candidate in
  let* old_buf_state := pg_atomic_read_u64 buf in
  if flag old_buf_state BM_LOCKED then
    SieveAdvanceHand ;; ret (Continue trycounter)
  else if negb (BUF_STATE_GET_REFCOUNT old_buf_state =? 0) then
    SieveAdvanceHand ;;
    let trycounter := trycounter - 1 in
    if trycounter =? 0 then
      SpinLockRelease ;; elog "no unpinned buffers available"
    else ret (Continue trycounter)
  else if negb (BUF_STATE_GET_USAGECOUNT old_buf_state =? 0) then
    let new_buf_state := Z.land old_buf_state (not64 BUF_USAGECOUNT_MASK) in
    pg_atomic_compare_exchange_u64 buf old_buf_state new_buf_state ;;
    SieveAdvanceHand ;;
    ret (Continue n)
  else
    let new_buf_state := u64 (old_buf_state + BUF_REFCOUNT_ONE) in
    let* '(ok, _) := pg_atomic_compare_exchange_u64 buf old_buf_state new_buf_state in
    if ok : bool then
      SieveUnlinkAndAdvance candidate ;;
      claim_buffer strategy buf ;;
      SpinLockRelease ;;
      ret (Break (buf, new_buf_state))
    else ret (Continue n).

Definition SieveGetBuffer (strategy : BufferAccessStrategy) : M (Z * Z) :=
  let* n := get_me NBuffers in
  SpinLockAcquire ;;
  forever (sieve_round strategy) n.

(** ** Representation

    The queue [l], oldest first, and the hand. *)
Record sieve_mem (n : Z) (m : list Z) (l : list Z) (hand : Z) : Prop := {
  sm_hand : lookupZ m 0 = Some hand;
  sm_seq : is_Some (lookupZ m 1);
  sm_queue : queue SieveNext_base (SievePrev_base n) n m l;
  sm_hand_in : hand ∈ l \/ (l = [] /\ hand = n)
}.
Definition sieve_inv (n : Z) (m : list Z) : Prop := exists l hand, sieve_mem n m l hand.

Lemma sieve_disj n : SieveNext_base + (n + 1) <= SievePrev_base n.
Proof. unfold SievePrev_base. lia. Qed.
#[export] Hint Resolve sieve_disj : core.

Lemma sieve_hand_run w n l hand :
  sieve_mem n (mem w) l hand -> sieve_hand w = (Ret hand, w).
Proof. intros H. by apply rd_word_run, H. Qed.

(** Writing the hand. *)
Lemma set_sieve_hand_run w n l hand hand' :
  sieve_mem n (mem w) l hand -> hand' ∈ l \/ (l = [] /\ hand' = n) ->
  exists m', set_sieve_hand hand' w = (Ret tt, with_mem m' w) /\ sieve_mem n m' l hand'.
Proof.
  intros [Hh Hs Hq _] Hin. eexists. split; [by eapply wr_word_run|]. split; try done.
  - apply lookupZ_insertZ_eq. by apply lookupZ_Some in Hh.
  - by rewrite lookupZ_insertZ_ne.
  - by apply queue_write_outside.
Qed.

(** The hand goes to the next newer buffer, or back to the oldest one. *)
Lemma SieveAdvanceHand_run w n l1 h l2 :
  0 <= n -> NBuffers (me w) = n -> sieve_mem n (mem w) (l1 ++ h :: l2) h ->
  exists m' h', SieveAdvanceHand w = (Ret tt, with_mem m' w) /\
    sieve_mem n m' (l1 ++ h :: l2) h' /\ head (l2 ++ l1 ++ [h]) = Some h'.
Proof.
  intros Hn Hw Hm. pose proof (sm_queue _ _ _ _ Hm) as Hq.
  set (h' := default h (head (l2 ++ l1))).
  destruct (set_sieve_hand_run w n _ h h' Hm) as (m' & Hset & Hm').
  { left. subst h'. destruct l2; [destruct l1|]; cbn; set_solver. }
  exists m', h'. split; [|split; [done|subst h'; by destruct l2; [destruct l1|]]].
  unfold SieveAdvanceHand, SieveNext, SievePrev.
  rewrite (bind_ret _ _ w n w) by (unfold get_me, gets; by rewrite Hw).
  rewrite (bind_ret _ _ _ _ _ (sieve_hand_run _ _ _ _ Hm)).
  rewrite (bind_ret _ _ _ _ _ (queue_next _ _ _ _ _ _ _ Hq)).
  subst h'. destruct l2 as [|y l2]; cbn.
  - rewrite Z.eqb_refl. rewrite (bind_ret _ _ _ _ _ (queue_oldest _ _ _ _ _ Hn Hq)).
    by destruct l1.
  - rewrite (proj2 (Z.eqb_neq y n)); [done|].
    assert (0 <= y < n); [|lia]. apply (q_range _ _ _ _ _ Hq). set_solver.
Qed.

(** The hand after [b] left the queue [l1 ++ b :: l2]. *)
Definition hand_after (n : Z) (l1 : list Z) (b : Z) (l2 : list Z) (hand : Z) : Z :=
  if hand =? b then default (default n (last l1)) (head l2) else hand.

Lemma hand_after_in n l1 b l2 hand :
  hand ∈ l1 ++ b :: l2 ->
  hand_after n l1 b l2 hand ∈ l1 ++ l2 \/ (l1 ++ l2 = [] /\ hand_after n l1 b l2 hand = n).
Proof.
  intros Hin. unfold hand_after. destruct (Z.eqb_spec hand b) as [->|Hne]; [|set_solver].
  destruct l2 as [|y l2]; cbn; [|set_solver].
  destruct l1 as [|x l1 _] using rev_ind; cbn; [by right|]. rewrite last_snoc. cbn. set_solver.
Qed.

(** [when (hand =? b) (set_sieve_hand v)] before the links are changed. *)
Lemma when_hand_run w c v :
  is_Some (lookupZ (mem w) 0) ->
  exists m', when c (set_sieve_hand v) w = (Ret tt, with_mem m' w) /\
    m' = if c then insertZ 0 v (mem w) else mem w.
Proof.
  intros [v0 H]. destruct c; eexists; (split; [|reflexivity]).
  - by eapply wr_word_run.
  - cbn. by rewrite with_mem_mem.
Qed.

Lemma SieveUnlinkAndAdvance_run w n l1 b l2 hand :
  0 <= n -> NBuffers (me w) = n -> sieve_mem n (mem w) (l1 ++ b :: l2) hand ->
  exists m', SieveUnlinkAndAdvance b w = (Ret tt, with_mem m' w) /\
    sieve_mem n m' (l1 ++ l2) (hand_after n l1 b l2 hand).
Proof.
  intros Hn Hw Hm. pose proof Hm as [Hh Hs Hq Hin].
  unfold SieveUnlinkAndAdvance, SieveNext, SievePrev.
  rewrite (bind_ret _ _ w n w) by (unfold get_me, gets; by rewrite Hw).
  rewrite (bind_ret _ _ _ _ _ (queue_next _ _ _ _ _ _ _ Hq)).
  rewrite (bind_ret _ _ _ _ _ (queue_prev _ _ _ _ _ _ _ Hq)).
  rewrite (bind_ret _ _ _ _ _ (sieve_hand_run _ _ _ _ Hm)). cbv zeta.
  destruct (when_hand_run w (hand =? b)
    (if default n (head l2) =? n then default n (last l1) else default n (head l2)))
    as (m1 & Hrun1 & Hm1); [by rewrite Hh|].
  rewrite (bind_ret _ _ _ _ _ Hrun1).
  assert (queue SieveNext_base (SievePrev_base n) n m1 (l1 ++ b :: l2)) as Hq1.
  { subst m1. destruct (hand =? b); [|done]. by apply queue_write_outside. }
  destruct (queue_stitch _ _ _ (sieve_disj n) (with_mem m1 w) l1 b l2 Hq1)
    as (m2 & Hrun2 & Hq2 & [Hlen Hout]).
  exists m2. split; [exact Hrun2|].
  assert (forall v, lookupZ m1 0 = Some v -> lookupZ m2 0 = Some v) as H0.
  { intros v <-. apply Hout. unfold SieveNext_base. lia. }
  split; [|rewrite Hout by (unfold SieveNext_base; lia)|done|].
  - apply H0. subst m1. unfold hand_after. destruct (Z.eqb_spec hand b) as [->|]; [|done].
    rewrite lookupZ_insertZ_eq by (by apply lookupZ_Some in Hh).
    destruct l2 as [|y l2]; cbn; [by rewrite Z.eqb_refl|].
    rewrite (proj2 (Z.eqb_neq y n)); [done|].
    assert (0 <= y < n); [|lia]. apply (q_range _ _ _ _ _ Hq). set_solver.
  - change (mem (with_mem m1 w)) with m1. subst m1.
    destruct (hand =? b); [by rewrite lookupZ_insertZ_ne|done].
  - apply hand_after_in. destruct Hin as [|[Hnil _]]; [done|]. by destruct l1.
Qed.

(** The queue and the hand after an insertion of [b]. *)
Inductive sieve_inserted (n b : Z) : list Z -> Z -> list Z -> Z -> Prop :=
| ins_new l hand :
    (b ∉ l) -> sieve_inserted n b l hand (l ++ [b]) (if hand =? n then b else hand)
| ins_again l1 l2 hand :
    sieve_inserted n b (l1 ++ b :: l2) hand (l1 ++ l2 ++ [b])
      (let hand' := hand_after n l1 b l2 hand in if hand' =? n then b else hand').

Lemma sieve_link_newest_eq n b w :
  sieve_link_newest n b w = push_newest SieveNext_base (SievePrev_base n) (n + 1) n b w.
Proof.
  apply bind_ext. intros old_head w'. do 2 (apply bind_ext; intros _ ?).
  by destruct (old_head =? n).
Qed.

Lemma sieve_link_newest_run w n l b hand :
  0 <= n -> sieve_mem n (mem w) l hand -> (b ∉ l) -> 0 <= b < n ->
  exists m1 m', sieve_link_newest n b w = (Ret tt, with_mem m1 w) /\
    lookupZ m1 0 = Some hand /\
    when (hand =? n) (set_sieve_hand b) (with_mem m1 w) = (Ret tt, with_mem m' w) /\
    sieve_mem n m' (l ++ [b]) (if hand =? n then b else hand).
Proof.
  intros Hn [Hh Hs Hq Hin] Hbl Hb.
  destruct (queue_push _ _ _ (sieve_disj n) w l b Hq Hbl Hb) as (m1 & Hrun1 & Hq1 & [Hlen Hout]).
  assert (lookupZ m1 0 = Some hand) as Hh1.
  { rewrite Hout; [done|]. unfold SieveNext_base. lia. }
  destruct (when_hand_run (with_mem m1 w) (hand =? n) b) as (m2 & Hrun2 & Hm2); [by exists hand|].
  change (mem (with_mem m1 w)) with m1 in Hm2.
  exists m1, m2. rewrite sieve_link_newest_eq. split_and!; [done..|]. subst m2. split.
  - destruct (hand =? n); [|done]. rewrite lookupZ_insertZ_eq; [done|].
    by apply lookupZ_Some in Hh1.
  - destruct (hand =? n); rewrite ?lookupZ_insertZ_ne, Hout by (done || (unfold SieveNext_base; lia)); done.
  - destruct (hand =? n); [by apply queue_write_outside|done].
  - left. destruct (Z.eqb_spec hand n); [set_solver|]. destruct Hin as [|[_ ?]]; set_solver.
Qed.

(** Unlinking the buffer if it is queued already. *)
Lemma sieve_unlink_if_run w n l b hand :
  0 <= n -> NBuffers (me w) = n -> sieve_mem n (mem w) l hand ->
  exists m1 l1 hand1, when (bool_decide (b ∈ l)) (SieveUnlinkAndAdvance b) w =
      (Ret tt, with_mem m1 w) /\
    sieve_mem n m1 l1 hand1 /\ (b ∉ l1) /\
    sieve_inserted n b l hand (l1 ++ [b]) (if hand1 =? n then b else hand1).
Proof.
  intros Hn Hw Hm. case_bool_decide as Hb; cbn.
  - pose proof Hb as (l1 & l2 & ->)%list_elem_of_split.
    destruct (SieveUnlinkAndAdvance_run w n l1 b l2 hand Hn Hw Hm) as (m' & Hrun & Hm').
    eexists _, _, _. split; [exact Hrun|]. split; [done|]. split.
    + pose proof (queue_nodup _ _ _ _ _ (sm_queue _ _ _ _ Hm)) as Hnd.
      rewrite NoDup_app, NoDup_cons in Hnd. set_solver.
    + rewrite <- app_assoc. apply ins_again.
  - eexists (mem w), _, _. rewrite with_mem_mem. split; [done|]. split; [done|]. split; [done|].
    by apply ins_new.
Qed.

Lemma sieve_insert_locked_run w n l b hand :
  NBuffers (me w) = n -> sieve_mem n (mem w) l hand -> 0 <= b < n ->
  exists m' l' hand', sieve_insert_locked b w = (Ret tt, set_lock None (with_mem m' w)) /\
    sieve_mem n m' l' hand' /\ sieve_inserted n b l hand l' hand'.
Proof.
  intros Hw Hm Hb. assert (0 <= n) as Hn by lia. unfold sieve_insert_locked.
  rewrite (bind_ret _ _ w n w) by (unfold get_me, gets; by rewrite Hw).
  destruct (queue_test _ _ _ w l b (sm_queue _ _ _ _ Hm) Hb) as (x & y & z & Hx & Hy & Hz & Htest).
  unfold SieveNext, SievePrev.
  rewrite (bind_ret _ _ _ _ _ Hx), (bind_ret _ _ _ _ _ Hy), (bind_ret _ _ _ _ _ Hz), Htest.
  destruct (sieve_unlink_if_run w n l b hand Hn Hw Hm) as (m1 & l1 & hand1 & Hrun1 & Hm1 & Hb1 & Hins).
  rewrite (bind_ret _ _ _ _ _ Hrun1).
  destruct (sieve_link_newest_run (with_mem m1 w) n l1 b hand1 Hn Hm1 Hb1 Hb)
    as (m2 & m3 & Hrun2 & Hh2 & Hrun3 & Hm3).
  rewrite (bind_ret _ _ _ _ _ Hrun2).
  rewrite (bind_ret _ _ _ _ _ (rd_word_run (with_mem m2 w) 0 hand1 Hh2)).
  cbn in Hrun3. rewrite (bind_ret _ _ _ _ _ Hrun3).
  exists m3, (l1 ++ [b]), (if hand1 =? n then b else hand1). done.
Qed.

(** Words that the policy needs behind [BufferStrategyCommon]. *)
Definition sieve_words (n : Z) : Z := 2 + 2 * (n + 1).

Lemma SieveInitialize_run w n :
  0 < n -> NBuffers (me w) = n -> sieve_words n <= Z.of_nat (length (mem w)) ->
  exists m', SieveInitialize false w = (Ret tt, with_mem m' w) /\
    sieve_mem n m' (seqZ 0 n) 0 /\ length m' = length (mem w).
Proof.
  intros Hn Hw Hlen. unfold sieve_words in Hlen. unfold SieveInitialize. cbn [negb].
  rewrite (bind_ret _ _ w n w) by (unfold get_me, gets; by rewrite Hw).
  destruct (lookupZ_lt (mem w) 0) as [v0 Hv0]; [lia|].
  destruct (lookupZ_lt (mem w) 1) as [v1 Hv1]; [lia|].
  unfold set_sieve_hand. rewrite (bind_ret _ _ _ _ _ (wr_word_run _ _ 0 _ Hv0)).
  set (w1 := with_mem (insertZ 0 0 (mem w)) w).
  assert (lookupZ (mem w1) 1 = Some v1) as Hv1' by (subst w1; by rewrite mem_with_mem, lookupZ_insertZ_ne).
  rewrite (bind_ret _ _ _ _ _ (wr_word_run _ _ 0 _ Hv1')).
  destruct (init_links_run SieveNext_base (SievePrev_base n) n (sieve_disj n)
    (with_mem (insertZ 1 0 (mem w1)) w1)) as (m' & Hrun & Hq & [Hl Hout]).
  { done. } { done. }
  { subst w1. rewrite !mem_with_mem, !length_insertZ. unfold SievePrev_base, SieveNext_base. lia. }
  exists m'. split; [exact Hrun|]. split.
  2: { rewrite Hl. subst w1. by rewrite !mem_with_mem, !length_insertZ. }
  assert (forall a, a < 2 -> lookupZ m' a = lookupZ (insertZ 1 0 (insertZ 0 0 (mem w))) a) as Hlow.
  { intros a Ha. apply Hout. unfold SieveNext_base. lia. }
  split; try done.
  - rewrite Hlow by done. rewrite lookupZ_insertZ_ne by done. apply lookupZ_insertZ_eq. lia.
  - rewrite Hlow by done. rewrite lookupZ_insertZ_eq by (rewrite length_insertZ; lia). done.
  - left. apply elem_of_seqZ. lia.
Qed.

(** ** Under interference *)
Section safety.
Context (pr : Proto) (Hinv : pr_inv pr = sieve_inv (pr_n pr)) (Hlk : pr_locked pr = true).
Abbreviation n := (pr_n pr).

Lemma sieve_release w m0 l hand :
  held pr m0 w -> sieve_mem n (mem w) l hand -> env_ok pr (set_lock None w).
Proof using Hinv Hlk.
  intros Hh Hm. eapply held_release; [exact Hh|]. rewrite Hinv. by exists l, hand.
Qed.

Definition insert_post (w : World) (b : Z) (o : outcome unit) (w' : World) : Prop :=
  match o with
  | Ret _ =>
      env_ok pr w' /\ lock_of (shm w') = None /\ me w' = me w /\
      exists w1 l hand l' hand', evolves pr w w1 /\ sieve_mem n (mem w1) l hand /\
        sieve_inserted n b l hand l' hand' /\ sieve_mem n (mem w') l' hand'
  | Spin => True
  | Elog _ | UB _ => False
  end.

Lemma SieveNotifyInsert_post w buf :
  env_ok pr w -> 0 <= buf < n -> wp (SieveNotifyInsert buf) (insert_post w buf) w.
Proof using Hinv Hlk.
  intros Henv Hb. destruct (env_desc _ _ _ Henv Hb) as (d & Hd & Hid & _).
  unfold SieveNotifyInsert. apply wp_bind. eapply wp_deref; [exact Hd|]. cbn [bind_post].
  apply wp_bind, wp_SpinLockAcquire with (pr := pr); [done|done|].
  intros w1 Hev Hi Hfree Henv1. cbn [bind_post]. rewrite Hinv in Hi.
  destruct Hi as (l & hand & Hm). rewrite Hid.
  set (w2 := set_lock (Some (pr_proc pr)) w1).
  destruct (sieve_insert_locked_run w2 n l buf hand) as (m' & l' & hand' & Hrun & Hm' & Hins);
    [apply Henv1|done|done|].
  eapply wp_eq; [exact Hrun|]. cbn.
  pose proof (held_with_mem _ _ _ m' (held_acquired _ _ _ Hlk Hev Henv1)) as Hheld.
  split; [by eapply sieve_release|]. split; [done|]. split; [apply Hev|].
  by exists w1, l, hand, l', hand'.
Qed.

(** The queue [l] does not change while the search holds the lock. *)
Definition searching (m0 : Backend) (l : list Z) (w : World) : Prop :=
  held pr m0 w /\ exists hand, sieve_mem n (mem w) l hand.

Definition get_post (strategy : BufferAccessStrategy) (m0 : Backend) (l : list Z)
    (o : outcome (Z * Z)) (w' : World) : Prop :=
  match o with
  | Ret (buf, st) =>
      env_ok pr w' /\ lock_of (shm w') = None /\ usage st = 0 /\
      exists w1 l1 l2, l = l1 ++ buf :: l2 /\ me w1 = m0 /\ claimed pr strategy buf st w1 w' /\
        sieve_mem n (mem w') (l1 ++ l2) (hand_after n l1 buf l2 buf)
  | Elog _ =>
      env_ok pr w' /\ lock_of (shm w') = None /\ me w' = m0 /\
      exists hand, sieve_mem n (mem w') l hand
  | Spin => True
  | UB _ => False
  end.

Lemma searching_elog strategy m0 l w msg :
  searching m0 l w ->
  wp (SpinLockRelease ;; elog msg)
    (round_post_partial (fun _ : Z => searching m0 l) (get_post strategy m0 l)) w.
Proof using Hinv Hlk.
  intros [Hh [hand Hm]]. eapply wp_eq; [done|]. cbn.
  split; [by eapply sieve_release|]. split; [done|]. split; [apply Hh|]. by exists hand.
Qed.

(** The hand moves on and the search goes on. *)
Lemma searching_advance m0 l w h A (k : M A) Q :
  0 <= n -> held pr m0 w -> sieve_mem n (mem w) l h -> h ∈ l ->
  (forall w', searching m0 l w' -> wp k Q w') ->
  wp (SieveAdvanceHand ;; k) Q w.
Proof using Type.
  intros Hn Hh Hm (l1 & l2 & ->)%list_elem_of_split Hk.
  destruct (SieveAdvanceHand_run w n l1 h l2 Hn) as (m' & h' & Hrun & Hm' & _);
    [apply Hh|done|].
  apply wp_bind. eapply wp_eq; [exact Hrun|]. cbn [bind_post]. apply Hk.
  split; [by apply held_with_mem|]. by exists h'.
Qed.

(** The swap that claims the candidate. *)
Lemma sieve_claim strategy m0 l w1 buf d :
  ready pr m0 -> ring_ready n strategy m0 -> held pr m0 w1 -> sieve_mem n (mem w1) l buf ->
  buf ∈ l -> desc_at w1 buf d -> buf_id d = buf -> wf_state (state d) ->
  own_ok pr buf (state d) ->
  refcount (state d) = 0 -> usage (state d) = 0 -> flag (state d) BM_LOCKED = false ->
  wp (SieveUnlinkAndAdvance buf ;;
      claim_buffer strategy buf ;;
      SpinLockRelease ;;
      ret (Break (buf, pinned_word (state d))))
    (round_post_partial (fun _ : Z => searching m0 l) (get_post strategy m0 l))
    (set_desc buf (with_state (pinned_word (state d)) d) w1).
Proof using Hinv Hlk.
  intros Hready Hring Hh Hm Hin Hd Hid Hwf Hpin Hr Hu Hl.
  assert (0 <= buf < n) as Hb by (by eapply q_range; [apply Hm|]).
  destruct (pinned_free _ Hwf Hr) as (Hwf' & Hr' & Hu' & _).
  assert (held pr m0 (set_desc buf (with_state (pinned_word (state d)) d) w1)) as Hh1.
  { eapply held_set_desc; [done|exact Hd|done|done|]. by eapply own_none, own_free. }
  pose proof Hin as (l1 & l2 & ->)%list_elem_of_split.
  destruct (SieveUnlinkAndAdvance_run (set_desc buf (with_state (pinned_word (state d)) d) w1)
    n l1 buf l2 buf) as (m' & Hrun & Hm'); [lia|apply Hh1|exact Hm|].
  destruct (claim_buffer_claimed pr strategy w1 buf d m') as (w' & Hrun' & Hcl & Hshm);
    try done; [apply Hh|by rewrite (held_me _ _ _ Hh)|by rewrite (held_me _ _ _ Hh)|].
  eapply wp_eq; [by rewrite (bind_ret _ _ _ _ _ Hrun), (bind_ret _ _ _ _ _ Hrun')|]. cbn.
  assert (mem w' = m') as Hmem by (unfold mem; by rewrite Hshm).
  pose proof (held_with_mem _ _ _ m' Hh1) as Hh2.
  pose proof (sieve_release _ _ _ _ Hh2 Hm') as Hrel.
  split; [|split; [done|split; [congruence|]]].
  - eapply env_same; [exact Hrel|cbn; by rewrite Hshm|cbn; apply Hcl| |];
      destruct (tr_frame _ _ _ (cl_tracked _ _ _ _ _ _ Hcl)); done.
  - exists w1, l1, l2. split; [done|]. split; [apply Hh|]. split; [|by rewrite <- Hmem in Hm'].
    destruct Hcl. by split.
Qed.

Lemma sieve_round_post strategy m0 l t w :
  ready pr m0 -> ring_ready n strategy m0 -> 0 <= n -> searching m0 l w ->
  wp (sieve_round strategy t)
    (round_post_partial (fun _ : Z => searching m0 l) (get_post strategy m0 l)) w.
Proof using Hinv Hlk.
  intros Hready Hring Hn [Hh [h Hm]]. unfold sieve_round.
  assert (NBuffers (me w) = n) as Hw by apply Hh.
  apply wp_bind. eapply wp_eq; [done|]. cbn [bind_post]. rewrite Hw.
  apply wp_bind. eapply wp_eq; [by eapply sieve_hand_run|]. cbn [bind_post].
  destruct (Z.eqb_spec h n) as [->|Hne].
  { apply searching_elog. split; [done|]. by exists n. }
  apply wp_bind. eapply wp_eq; [by eapply sieve_hand_run|]. cbn [bind_post].
  assert (h ∈ l) as Hin by (destruct (sm_hand_in _ _ _ _ Hm) as [|[_ ?]]; done).
  assert (0 <= h < n) as Hr by (by eapply q_range; [apply Hm|]).
  unfold GetBufferDescriptor.
  apply wp_bind, wp_pg_atomic_read_u64 with (pr := pr); [apply Hh|done|].
  intros w1 d Hev Hd Hid Hwf Hpin. cbn [bind_post].
  destruct (held_evolves _ _ _ _ Hh Hev) as [Hh1 Hmem1]. rewrite <- Hmem1 in Hm.
  rewrite get_refcount, get_usagecount by apply Hwf.
  destruct (flag (state d) BM_LOCKED) eqn:Hl.
  { eapply searching_advance; [done..|]. intros w' Hs. by apply wp_ret. }
  destruct (Z.eqb_spec (refcount (state d)) 0) as [Hr0|Hr0]; cbn [negb].
  2: { eapply searching_advance; [done..|]. intros w' Hs.
    destruct (t - 1 =? 0); [by apply searching_elog|by apply wp_ret]. }
  destruct (Z.eqb_spec (usage (state d)) 0) as [Hu|Hu]; cbn [negb].
  - apply wp_bind, wp_pg_atomic_compare_exchange_u64 with (pr := pr); [apply Hh1|done| |].
    2: { intros w2 d2 Hev2 Hd2 _ _ _ _. cbn [bind_post]. apply wp_ret. cbn.
      destruct (held_evolves _ _ _ _ Hh1 Hev2) as [Hh2 Hmem2].
      split; [done|]. exists h. by rewrite Hmem2. }
    intros w2 d2 Hev2 Hd2 Hid2 Hst _ Hpin2. cbn [bind_post].
    destruct (held_evolves _ _ _ _ Hh1 Hev2) as [Hh2 Hmem2]. rewrite <- Hst.
    apply sieve_claim; try done; rewrite ?Hst; try done. by rewrite Hmem2.
  - apply wp_bind, wp_pg_atomic_compare_exchange_u64 with (pr := pr); [apply Hh1|done| |].
    + intros w2 d2 Hev2 Hd2 Hid2 Hst _ Hpin2. cbn [bind_post].
      destruct (held_evolves _ _ _ _ Hh1 Hev2) as [Hh2 Hmem2].
      destruct (usage_clear_word _ Hwf) as (Hwf' & Hr' & _).
      eapply (searching_advance _ l _ h); [done| |by rewrite <- Hmem2 in Hm|done|].
      * eapply held_set_desc; [done|exact Hd2|done|done|].
        by eapply own_none, own_free.
      * intros w' Hs. by apply wp_ret.
    + intros w2 d2 Hev2 Hd2 _ _ _ _. cbn [bind_post].
      destruct (held_evolves _ _ _ _ Hh1 Hev2) as [Hh2 Hmem2].
      eapply (searching_advance _ l _ h); [done|done|by rewrite Hmem2|done|].
      intros w' Hs. by apply wp_ret.
Qed.

Lemma SieveGetBuffer_post strategy w :
  ready pr (me w) -> ring_ready n strategy (me w) -> 0 <= n -> env_ok pr w ->
  wp (SieveGetBuffer strategy) (fun o w' => exists l, get_post strategy (me w) l o w') w.
Proof using Hinv Hlk.
  intros Hready Hring Hn Henv. unfold SieveGetBuffer.
  apply wp_bind. eapply wp_eq; [done|]. cbn [bind_post].
  apply wp_bind, wp_SpinLockAcquire with (pr := pr); [done|by intros; exists []|].
  intros w1 Hev Hi Hfree Henv1. cbn [bind_post]. rewrite Hinv in Hi.
  destruct Hi as (l & hand & Hm).
  eapply wp_mono; [by intros o w' H; exists l; exact H|].
  apply (wp_forever_partial (fun _ : Z => searching (me w) l)); [done| |].
  - intros t w' Hs. by apply sieve_round_post.
  - split; [by apply held_acquired|]. by exists hand.
Qed.
End safety.

(** ** Without interference: which buffer is evicted *)

(** The hand spares a buffer: a used, unpinned one loses its usage count. *)
Definition spare (d : BufferDesc) : BufferDesc :=
  if refcount (state d) =? 0 then with_state (usage_cleared (state d)) d else d.
Abbreviation spare_at := (touch_at spare).
Abbreviation sweep := (touch spare).

Definition evictable : World -> Z -> bool :=
  desc_is (fun s => (refcount s =? 0) && (usage s =? 0)).

(** The victim, seen from the hand, and the buffers spared before: the first one
    that is neither pinned nor used; failing that, after a whole round that
    clears the usage counts, the first one that is not pinned. *)
Definition sieve_choice (w : World) (r : list Z) : option (list Z * Z) :=
  match first (evictable w) r with
  | Some (xs, v) => Some (xs, v)
  | None =>
      match first (unpinned w) r with
      | Some (_, v) => Some (r, v)
      | None => None
      end
  end.

(** ** The rounds of the search *)
Section quiet_rounds.
Context (n : Z) (strategy : BufferAccessStrategy) (l : list Z).

(** Between two rounds: nobody interferes, [r] is the queue from the hand on. *)
Record at_hand (w : World) (r : list Z) : Prop := {
  ah_quiet : quiet w;
  ah_n : NBuffers (me w) = n;
  ah_mem : exists h, sieve_mem n (mem w) l h /\ head r = Some h;
  ah_rot : rot l r;
  ah_pos : 0 <= n
}.

Lemma at_hand_head w x r : at_hand w (x :: r) -> sieve_mem n (mem w) l x /\ 0 <= x < n.
Proof using Type.
  intros [_ _ (h & Hm & Hh) Hrot _]. cbn in Hh. injection Hh as <-. split; [done|].
  apply (q_range _ _ _ _ _ (sm_queue _ _ _ _ Hm)).
  apply (elem_of_Permutation_proper x _ _ (rot_perm _ _ Hrot)). set_solver.
Qed.

(** The start of a round, up to the tests of the state word. *)
Lemma round_start w x r d t :
  at_hand w (x :: r) -> sees w x d ->
  sieve_round strategy t w =
    (if negb (refcount (state d) =? 0) then
      SieveAdvanceHand ;;
      let trycounter := t - 1 in
      if trycounter =? 0 then
        SpinLockRelease ;; elog "no unpinned buffers available"
      else ret (Continue trycounter)
    else if negb (usage (state d) =? 0) then
      pg_atomic_compare_exchange_u64 x (state d) (usage_cleared (state d)) ;;
      SieveAdvanceHand ;;
      ret (Continue n)
    else
      let* '(ok, _) := pg_atomic_compare_exchange_u64 x (state d) (pinned_word (state d)) in
      if ok : bool then
        SieveUnlinkAndAdvance x ;;
        claim_buffer strategy x ;;
        SpinLockRelease ;;
        ret (Break (x, pinned_word (state d)))
      else ret (Continue n)) w.
Proof using Type.
  intros Hat (Hd & Hid & Hwf & Hl). destruct (at_hand_head _ _ _ Hat) as [Hm Hx].
  unfold sieve_round.
  rewrite (bind_ret _ _ w n w) by (unfold get_me, gets; by rewrite (ah_n _ _ Hat)).
  rewrite (bind_ret _ _ _ _ _ (sieve_hand_run _ _ _ _ Hm)).
  rewrite (proj2 (Z.eqb_neq x n)) by lia.
  rewrite (bind_ret _ _ _ _ _ (sieve_hand_run _ _ _ _ Hm)). unfold GetBufferDescriptor.
  rewrite (bind_ret _ _ _ _ _ (read_quiet _ (ah_quiet _ _ Hat) _ _ Hd)), Hl.
  rewrite get_refcount, get_usagecount by apply Hwf. done.
Qed.

(** Moving the hand on. *)
Lemma at_hand_step w x r :
  at_hand w (x :: r) ->
  exists m', SieveAdvanceHand w = (Ret tt, with_mem m' w) /\ at_hand (with_mem m' w) (r ++ [x]).
Proof using Type.
  intros Hat. destruct (at_hand_head _ _ _ Hat) as [Hm Hx]. destruct Hat as [Hq Hw _ Hrot Hpos].
  pose proof (rot_step _ _ _ Hrot) as Hrot'.
  destruct (rot_split _ _ _ Hrot) as (l1 & l2 & Hl & ->). rewrite Hl in Hm.
  destruct (SieveAdvanceHand_run w n l1 x l2 Hpos Hw Hm) as (m' & h' & Hrun & Hm' & Hh').
  rewrite <- Hl in Hm'. exists m'. split; [done|]. split; [exact Hq|exact Hw| |exact Hrot'|exact Hpos].
  exists h'. by rewrite <- app_assoc.
Qed.

Lemma at_hand_set_desc w r x d : at_hand w r -> at_hand (set_desc x d w) r.
Proof using Type. intros []. by split. Qed.

(** A buffer is spared. *)
Lemma round_spare w x r d t :
  at_hand w (x :: r) -> sees w x d ->
  refcount (state d) <> 0 /\ t <> 1 \/ refcount (state d) = 0 /\ usage (state d) <> 0 ->
  exists m', sieve_round strategy t w =
      (Ret (Continue (if refcount (state d) =? 0 then n else t - 1)),
       with_mem m' (spare_at w x)) /\
    at_hand (with_mem m' (spare_at w x)) (r ++ [x]).
Proof using Type.
  intros Hat Hsee Hcase. rewrite (round_start _ _ _ _ _ Hat Hsee).
  destruct Hsee as (Hd & Hid & Hwf & Hl). rewrite (touch_at_eq spare _ _ _ Hd). unfold spare.
  destruct (Z.eqb_spec (refcount (state d)) 0) as [Hr|Hr]; cbn [negb].
  - destruct Hcase as [[? _]|[_ Hu]]; [done|]. rewrite (proj2 (Z.eqb_neq _ _) Hu). cbn [negb].
    rewrite (bind_ret _ _ _ _ _ (cas_quiet _ (ah_quiet _ _ Hat) _ _ _ Hd)).
    destruct (at_hand_step _ _ _ (at_hand_set_desc _ _ x (with_state (usage_cleared (state d)) d) Hat))
      as (m' & Hrun & Hat').
    exists m'. by rewrite (bind_ret _ _ _ _ _ Hrun).
  - destruct Hcase as [[_ Ht]|[? _]]; [|done].
    destruct (at_hand_step _ _ _ Hat) as (m' & Hrun & Hat').
    exists m'. rewrite (bind_ret _ _ _ _ _ Hrun). cbv zeta.
    rewrite (proj2 (Z.eqb_neq (t - 1) 0)) by lia.
    by rewrite (set_desc_id _ _ _ Hd).
Qed.

(** The last try failed. *)
Lemma round_fail w x r d :
  at_hand w (x :: r) -> sees w x d -> refcount (state d) <> 0 ->
  exists m', sieve_round strategy 1 w =
      (Elog "no unpinned buffers available", set_lock None (with_mem m' w)) /\
    at_hand (with_mem m' w) (r ++ [x]).
Proof using Type.
  intros Hat Hsee Hr. rewrite (round_start _ _ _ _ _ Hat Hsee), (proj2 (Z.eqb_neq _ _) Hr).
  cbn [negb]. destruct (at_hand_step _ _ _ Hat) as (m' & Hrun & Hat').
  exists m'. by rewrite (bind_ret _ _ _ _ _ Hrun).
Qed.

(** The buffer under the hand is evicted. *)
Lemma round_evict w x r d t :
  at_hand w (x :: r) -> sees w x d -> refcount (state d) = 0 -> usage (state d) = 0 ->
  ring_ready n strategy (me w) -> can_track (me w) (x + 1) ->
  exists m' mem' l1 l2,
    sieve_round strategy t w =
      (Ret (Break (x, pinned_word (state d))),
       set_lock None (with_me m' (with_mem mem'
         (set_desc x (with_state (pinned_word (state d)) d) w)))) /\
    l = l1 ++ x :: l2 /\ r = l2 ++ l1 /\
    sieve_mem n mem' (l1 ++ l2) (hand_after n l1 x l2 x) /\
    tracked (with_rings (rings_put strategy (x + 1) (rings (me w))) (me w)) m' (x + 1).
Proof using Type.
  intros Hat Hsee Hr Hu Hring Hct. rewrite (round_start _ _ _ _ _ Hat Hsee), Hr, Hu. cbn [negb Z.eqb].
  destruct (at_hand_head _ _ _ Hat) as [Hm Hx]. destruct Hsee as (Hd & Hid & Hwf & Hl).
  rewrite (bind_ret _ _ _ _ _ (cas_quiet _ (ah_quiet _ _ Hat) _ _ _ Hd)).
  destruct Hat as [Hq Hw _ Hrot Hpos]. destruct (rot_split _ _ _ Hrot) as (l1 & l2 & Hsp & ->).
  rewrite Hsp in Hm. set (w1 := set_desc x (with_state (pinned_word (state d)) d) w).
  destruct (SieveUnlinkAndAdvance_run w1 n l1 x l2 x Hpos Hw Hm) as (mem' & Hrun & Hm').
  rewrite (bind_ret _ _ _ _ _ Hrun).
  destruct (claim_buffer_run n (with_mem mem' w1) strategy x
    (with_state (pinned_word (state d)) d)) as (m' & Hrun' & Htr);
    [done|by apply (desc_at_set_eq w _ d)|done|lia|done|].
  rewrite (bind_ret _ _ _ _ _ Hrun'). by exists m', mem', l1, l2.
Qed.

Lemma sees_spare w x y d m :
  x <> y -> sees w y d -> sees (with_mem m (spare_at w x)) y d.
Proof using Type.
  intros Hne (Hd & Hrest). split; [|done]. unfold touch_at. case_match; [|done].
  by apply (desc_at_set_ne w).
Qed.

(** The hand passes over [xs]. *)
Lemma spare_run xs : forall w t rest,
  at_hand w (xs ++ rest) -> NoDup xs ->
  (forall x, x ∈ xs -> exists d, sees w x d /\ (refcount (state d) <> 0 \/ usage (state d) <> 0)) ->
  npin w xs < t <= n ->
  exists m',
    (forall k, iter_fuel (length xs + k) (sieve_round strategy) t w =
       iter_fuel k (sieve_round strategy) (tries n w t xs) (with_mem m' (sweep xs w))) /\
    at_hand (with_mem m' (sweep xs w)) (rest ++ xs).
Proof using Type.
  induction xs as [|x xs IH]; intros w t rest Hat Hnd Hall Ht.
  { exists (mem w). cbn. by rewrite app_nil_r, with_mem_mem. }
  apply NoDup_cons in Hnd as [Hx Hnd]. rewrite npin_cons in *.
  destruct (Hall x) as (d & Hsee & Hcase); [set_solver|].
  pose proof (unpinned_at _ _ _ (proj1 Hsee)) as Hux. rewrite Hux in Ht.
  assert (0 <= npin w xs) as Hpos by (unfold npin; lia).
  destruct (round_spare w x (xs ++ rest) d t Hat Hsee) as (m1 & Hrun & Hat1).
  { destruct (Z.eqb_spec (refcount (state d)) 0); [right|left]; split; try done; [|lia]. tauto. }
  rewrite <- app_assoc in Hat1.
  assert (forall y, y ∈ xs -> unpinned (with_mem m1 (spare_at w x)) y = unpinned w y) as Hsame.
  { intros y Hy. destruct (Hall y) as (dy & Hsy & _); [set_solver|].
    rewrite (unpinned_at _ _ _ (proj1 Hsy)).
    apply unpinned_at, (sees_spare w x y dy m1); [set_solver|done]. }
  destruct (IH _ (if refcount (state d) =? 0 then n else t - 1) _ Hat1 Hnd) as (m' & Hiter & Hat').
  { intros y Hy. destruct (Hall y) as (dy & Hsy & Hcy); [set_solver|].
    exists dy. split; [|done]. apply sees_spare; [set_solver|done]. }
  { rewrite (npin_ext _ _ _ Hsame). case_match; lia. }
  rewrite (touch_mem spare) in *. exists m'. split.
  - intros k. cbn [length Nat.add]. rewrite (iter_continue _ _ _ _ _ _ Hrun), Hiter.
    cbn [tries foldl]. rewrite Hux. f_equal. by apply tries_ext.
  - rewrite <- app_assoc in Hat'. exact Hat'.
Qed.

(** Every buffer of the queue is pinned: the tries run out. *)
Lemma fail_run t : forall w r,
  (0 < t)%nat -> at_hand w r ->
  (forall x, x ∈ l -> exists d, sees w x d /\ refcount (state d) <> 0) ->
  exists m' r', (forall k, iter_fuel (t + k) (sieve_round strategy) (Z.of_nat t) w =
      (Elog "no unpinned buffers available", set_lock None (with_mem m' w))) /\
    at_hand (with_mem m' w) r'.
Proof using Type.
  induction t as [|t IH]; intros w r Ht Hat Hall; [lia|].
  destruct (ah_mem _ _ Hat) as (h & _ & Hh). destruct r as [|x r]; [done|].
  destruct (Hall x) as (d & Hsee & Hr).
  { apply (elem_of_Permutation_proper x _ _ (rot_perm _ _ (ah_rot _ _ Hat))). set_solver. }
  destruct t as [|t].
  - destruct (round_fail w x r d Hat Hsee Hr) as (m' & Hrun & Hat').
    exists m', (r ++ [x]). split; [|done]. intros k. by apply iter_elog.
  - destruct (round_spare w x r d (Z.of_nat (S (S t))) Hat Hsee) as (m1 & Hrun & Hat1).
    { left. split; [done|lia]. }
    assert (spare_at w x = w) as Hsame.
    { rewrite (touch_at_eq spare _ _ _ (proj1 Hsee)). unfold spare.
      rewrite (proj2 (Z.eqb_neq _ _) Hr). apply set_desc_id, Hsee. }
    rewrite Hsame in *. destruct (IH (with_mem m1 w) (r ++ [x])) as (m' & r' & Hiter & Hat');
      [lia|done|done|].
    exists m', r'. split; [|done]. intros k. rewrite (proj2 (Z.eqb_neq _ _) Hr) in Hrun.
    cbn [Nat.add]. rewrite (iter_continue _ _ _ _ _ _ Hrun).
    replace (Z.of_nat (S (S t)) - 1) with (Z.of_nat (S t)) by lia. apply Hiter.
Qed.
End quiet_rounds.

(** Passing over pinned buffers changes none of them. *)
Lemma sweep_pinned xs : forall w,
  (forall x, x ∈ xs -> exists d, desc_at w x d /\ refcount (state d) <> 0) -> sweep xs w = w.
Proof.
  induction xs as [|x xs IH]; intros w Hall; [done|]. rewrite (touch_cons spare).
  destruct (Hall x) as (d & Hd & Hr); [set_solver|].
  assert (spare_at w x = w) as ->.
  { rewrite (touch_at_eq spare _ _ _ Hd). unfold spare. rewrite (proj2 (Z.eqb_neq _ _) Hr).
    by apply set_desc_id. }
  apply IH. set_solver.
Qed.

Section quiet_search.
Context (n : Z) (strategy : BufferAccessStrategy) (l r : list Z) (w : World).
Hypothesis Hat : at_hand n l w r.
Hypothesis Hsees : forall x, x ∈ l -> exists d, sees w x d.
Hypothesis Hring : ring_ready n strategy (me w).
Hypothesis Htrack : forall x, x ∈ l -> unpinned w x = true -> can_track (me w) (x + 1).

(** The search ends with the eviction of [v]; [xs] were spared. *)
Definition evicts (xs : list Z) (v : Z) (res : outcome (Z * Z) * World) : Prop :=
  exists d m' mem' l1 l2,
    desc_at (sweep xs w) v d /\ refcount (state d) = 0 /\ usage (state d) = 0 /\
    res = (Ret (v, pinned_word (state d)),
      set_lock None (with_me m' (with_mem mem'
        (set_desc v (with_state (pinned_word (state d)) d) (sweep xs w))))) /\
    l = l1 ++ v :: l2 /\ sieve_mem n mem' (l1 ++ l2) (hand_after n l1 v l2 v) /\
    tracked (with_rings (rings_put strategy (v + 1) (rings (me w))) (me w)) m' (v + 1).

Lemma in_queue x : x ∈ r -> x ∈ l.
Proof using Hat. apply (elem_of_Permutation_proper x _ _ (rot_perm _ _ (ah_rot _ _ _ _ Hat))). Qed.

Lemma nodup_rot : NoDup r.
Proof using Hat.
  rewrite (rot_perm _ _ (ah_rot _ _ _ _ Hat)).
  destruct (ah_mem _ _ _ _ Hat) as (h & Hm & _). by eapply queue_nodup, Hm.
Qed.
Lemma length_rot : Z.of_nat (length r) <= n.
Proof using Hat.
  rewrite (rot_perm _ _ (ah_rot _ _ _ _ Hat)).
  destruct (ah_mem _ _ _ _ Hat) as (h & Hm & _). eapply queue_length; [apply Hat|apply Hm].
Qed.

(** The last round, with the hand at [v] after [xs] were spared. *)
Lemma evict_at xs v m1 rest d t k :
  at_hand n l (with_mem m1 (sweep xs w)) (v :: rest) -> v ∈ l ->
  sees (sweep xs w) v d -> refcount (state d) = 0 -> usage (state d) = 0 ->
  unpinned w v = true ->
  evicts xs v (iter_fuel (S k) (sieve_round strategy) t (with_mem m1 (sweep xs w))).
Proof using Hring Htrack.
  intros Hat1 Hv Hsee Hr Hu Hun. destruct (touch_rest spare xs w) as (Hme & _).
  destruct (round_evict n strategy l _ v rest d t Hat1 Hsee Hr Hu)
    as (m' & mem' & l1 & l2 & Hrun & Hl & _ & Hm' & Htr).
  { cbn. by rewrite Hme. }
  { cbn. rewrite Hme. by apply Htrack. }
  exists d, m', mem', l1, l2. cbn in Htr. rewrite Hme in Htr.
  split_and!; try done; [apply Hsee|]. by apply iter_break.
Qed.

Lemma not_evictable x : x ∈ r -> evictable w x = false ->
  exists d, sees w x d /\ (refcount (state d) <> 0 \/ usage (state d) <> 0).
Proof using Hat Hsees.
  intros Hx He. destruct (Hsees x (in_queue x Hx)) as (d & Hsee). exists d. split; [done|].
  unfold evictable, desc_is in He. rewrite (proj1 Hsee) in He.
  apply andb_false_iff in He as [?%Z.eqb_neq|?%Z.eqb_neq]; auto.
Qed.

(** The first round finds a victim. *)
Lemma search_first xs v k :
  first (evictable w) r = Some (xs, v) -> 
  evicts xs v (iter_fuel (length xs + S k) (sieve_round strategy) n w).
Proof using Hat Hsees Hring Htrack.
  intros (ys & Hr & Hv & Hxs)%first_Some. pose proof nodup_rot as Hnd. pose proof length_rot as Hlen.
  rewrite Hr in Hnd, Hlen. rewrite length_app in Hlen. cbn in Hlen.
  apply NoDup_app in Hnd as (Hnd & Hdisj & _).
  destruct (spare_run n strategy l xs w n (v :: ys)) as (m1 & Hiter & Hat1).
  { by rewrite <- Hr. } { done. }
  { intros x Hx. apply not_evictable; [rewrite Hr; set_solver|by apply Hxs]. }
  { pose proof (npin_le w xs). lia. }
  rewrite Hiter. assert (v ∈ l) as Hvl by (apply in_queue; rewrite Hr; set_solver).
  destruct (Hsees v Hvl) as (d & Hsee).
  unfold evictable, desc_is in Hv. pose proof (proj1 Hsee) as Hd. unfold desc_at in Hd.
  rewrite Hd in Hv. apply andb_true_iff in Hv as [Hr0%Z.eqb_eq Hu0%Z.eqb_eq].
  eapply evict_at; [exact Hat1|done| |done|done|].
  - split; [|apply Hsee]. apply (touch_out spare); [set_solver|done].
  - rewrite (unpinned_at _ _ _ (proj1 Hsee)). by apply Z.eqb_eq.
Qed.

(** A pinned buffer looks the same after the sweep. *)
Lemma sees_pinned x d : x ∈ r -> sees w x d -> refcount (state d) <> 0 -> sees (sweep r w) x d.
Proof using Hat.
  intros Hx (Hd & Hrest) Hr. split; [|done].
  pose proof (touch_in spare r x d w nodup_rot Hx Hd) as Hin. unfold spare in Hin.
  by rewrite (proj2 (Z.eqb_neq _ _) Hr) in Hin.
Qed.

(** An unpinned one has lost its usage count. *)
Lemma sees_spared x d :
  x ∈ r -> sees w x d -> refcount (state d) = 0 ->
  sees (sweep r w) x (with_state (usage_cleared (state d)) d) /\
  refcount (usage_cleared (state d)) = 0 /\ usage (usage_cleared (state d)) = 0.
Proof using Hat.
  intros Hx (Hd & Hid & Hwf & Hl) Hr.
  destruct (usage_clear_word _ Hwf) as (Hwf' & Hr' & Hu' & Hf).
  pose proof (touch_in spare r x d w nodup_rot Hx Hd) as Hin. unfold spare in Hin. rewrite Hr in Hin.
  split; [|split; [by rewrite Hr'|done]]. split_and!; [exact Hin|done|done|].
  change (flag (usage_cleared (state d)) (BUF_DEFINE_FLAG 0) = false). by rewrite Hf.
Qed.

(** The second round finds the first unpinned buffer. *)
Lemma search_second ps v k :
  first (evictable w) r = None -> first (unpinned w) r = Some (ps, v) ->
  evicts r v (iter_fuel (length r + (length ps + S k)) (sieve_round strategy) n w).
Proof using Hat Hsees Hring Htrack.
  intros Hnone (ys & Hr & Hv & Hps)%first_Some. pose proof (first_None _ _ Hnone) as Hall.
  pose proof length_rot as Hlen. pose proof nodup_rot as Hnd.
  assert (npin w ps + npin w ys < n) as Hbound.
  { rewrite Hr, length_app in Hlen. cbn in Hlen.
    pose proof (npin_le w ps). pose proof (npin_le w ys). lia. }
  destruct (spare_run n strategy l r w n []) as (m1 & Hiter1 & Hat1).
  { by rewrite app_nil_r. } { done. }
  { intros x Hx. apply not_evictable; [done|by apply Hall]. }
  { rewrite Hr, npin_app, npin_cons, Hv. lia. }
  rewrite Hiter1. cbn [app] in Hat1.
  assert (forall x, x ∈ ps -> exists d, sees (sweep r w) x d /\ refcount (state d) <> 0 /\
    unpinned w x = false) as Hpinned.
  { intros x Hx. assert (x ∈ r) as Hxr by (rewrite Hr; set_solver).
    destruct (Hsees x (in_queue x Hxr)) as (d & Hsee). exists d. pose proof (Hps x Hx) as Hun.
    rewrite (unpinned_at _ _ _ (proj1 Hsee)) in Hun. apply Z.eqb_neq in Hun.
    split_and!; [by apply sees_pinned|done|by apply Hps]. }
  assert (npin (with_mem m1 (sweep r w)) ps = npin w ps) as Hnp.
  { apply npin_ext. intros x Hx. destruct (Hpinned x Hx) as (d & Hsee & Hr0 & ->).
    rewrite (unpinned_at _ _ d) by apply Hsee. by apply Z.eqb_neq. }
  assert (tries n w n r = tries n w n ys) as Ht.
  { rewrite Hr. unfold tries. rewrite foldl_app. cbn. by rewrite Hv. }
  pose proof (tries_range n w ys n ltac:(lia)) as Htr.
  destruct (spare_run n strategy l ps (with_mem m1 (sweep r w)) (tries n w n r) (v :: ys))
    as (m2 & Hiter2 & Hat2).
  { by rewrite <- Hr. }
  { rewrite Hr in Hnd. by apply NoDup_app in Hnd as (? & _). }
  { intros x Hx. destruct (Hpinned x Hx) as (d & Hsee & Hr0 & _). exists d. auto. }
  { lia. }
  assert (sweep ps (with_mem m1 (sweep r w)) = with_mem m1 (sweep r w)) as Hsame.
  { apply sweep_pinned. intros x Hx. destruct (Hpinned x Hx) as (d & Hsee & Hr0 & _).
    exists d. split; [apply Hsee|done]. }
  rewrite Hiter2. rewrite Hsame in *. change (with_mem m2 (with_mem m1 ?u)) with (with_mem m2 u) in *.
  assert (v ∈ r) as Hvr by (rewrite Hr; set_solver).
  destruct (Hsees v (in_queue v Hvr)) as (d & Hsee).
  pose proof Hv as Hr0. rewrite (unpinned_at _ _ _ (proj1 Hsee)) in Hr0. apply Z.eqb_eq in Hr0.
  destruct (sees_spared v d Hvr Hsee Hr0) as (Hsee' & Hr' & Hu').
  eapply (evict_at r v m2 _ _ _ _ Hat2); [by apply in_queue|exact Hsee'|done|done|done].
Qed.
End quiet_search.

Lemma choice_lock w h r : sieve_choice (set_lock h w) r = sieve_choice w r.
Proof. done. Qed.

(** What a search does that nobody interferes with and that meets no header lock. *)
Definition sieve_result (n : Z) (strategy : BufferAccessStrategy) (l r : list Z) (w : World)
    (res : outcome (Z * Z) * World) : Prop :=
  match sieve_choice w r with
  | Some (xs, v) =>
      exists d m' mem' l1 l2,
        desc_at (sweep xs w) v d /\ refcount (state d) = 0 /\ usage (state d) = 0 /\
        res = (Ret (v, pinned_word (state d)),
          set_lock None (with_me m' (with_mem mem'
            (set_desc v (with_state (pinned_word (state d)) d) (sweep xs w))))) /\
        l = l1 ++ v :: l2 /\ sieve_mem n mem' (l1 ++ l2) (hand_after n l1 v l2 v) /\
        tracked (with_rings (rings_put strategy (v + 1) (rings (me w))) (me w)) m' (v + 1)
  | None =>
      exists mem' hand,
        res = (Elog "no unpinned buffers available", set_lock None (with_mem mem' w)) /\
        sieve_mem n mem' l hand
  end.

Lemma SieveGetBuffer_search n strategy l r w hand :
  quiet w -> lock_of (shm w) = None -> NBuffers (me w) = n -> (2 * Z.to_nat n + 1 < gas (me w))%nat ->
  sieve_mem n (mem w) l hand -> rot l r -> head r = Some hand ->
  (forall x, x ∈ l -> exists d, sees w x d) ->
  ring_ready n strategy (me w) ->
  (forall x, x ∈ l -> unpinned w x = true -> can_track (me w) (x + 1)) ->
  sieve_result n strategy l r w (SieveGetBuffer strategy w).
Proof.
  intros Hq Hlock Hn Hgas Hm Hrot Hhead Hsees Hring Htrack.
  assert (0 < n) as Hpos.
  { destruct r as [|x r]; [done|]. cbn in Hhead. injection Hhead as ->.
    assert (0 <= hand < n); [|lia]. apply (q_range _ _ _ _ _ (sm_queue _ _ _ _ Hm)).
    apply (elem_of_Permutation_proper hand _ _ (rot_perm _ _ Hrot)). set_solver. }
  set (p := MyProcNumber (me w)). set (wl := set_lock (Some p) w).
  assert (at_hand n l wl r) as Hat by (split; try done; [by exists hand|lia]).
  pose proof (length_rot n l r wl Hat) as Hlen.
  unfold SieveGetBuffer. rewrite (bind_ret _ _ w n w) by (unfold get_me, gets; by rewrite Hn).
  rewrite (bind_ret _ _ _ _ _ (SpinLockAcquire_quiet w Hq Hlock ltac:(lia))). unfold forever.
  fold p wl. change (gas (me wl)) with (gas (me w)).
  unfold sieve_result, sieve_choice. change (evictable w) with (evictable wl).
  change (unpinned w) with (unpinned wl).
  destruct (first (evictable wl) r) as [[xs v]|] eqn:Hf1; [|destruct (first (unpinned wl) r) as [[ps v]|] eqn:Hf2].
  - pose proof Hf1 as (ys & Hr & _)%first_Some. rewrite Hr, length_app in Hlen. cbn in Hlen.
    replace (gas (me w)) with (length xs + S (gas (me w) - length xs - 1))%nat by lia.
    destruct (search_first n strategy l r wl Hat Hsees Hring Htrack xs v
      (gas (me w) - length xs - 1) Hf1) as (d & m' & mem' & l1 & l2 & Hd & Hr0 & Hu & -> & Hrest).
    unfold wl in Hd |- *. rewrite (touch_lock spare) in *. by exists d, m', mem', l1, l2.
  - pose proof Hf2 as (ys & Hr & _)%first_Some. pose proof Hlen as Hlen'.
    rewrite Hr, length_app in Hlen'. cbn in Hlen'.
    replace (gas (me w)) with (length r + (length ps + S (gas (me w) - length r - length ps - 1)))%nat by lia.
    destruct (search_second n strategy l r wl Hat Hsees Hring Htrack ps v
      (gas (me w) - length r - length ps - 1) Hf1 Hf2)
      as (d & m' & mem' & l1 & l2 & Hd & Hr0 & Hu & -> & Hrest).
    unfold wl in Hd |- *. rewrite (touch_lock spare) in *. by exists d, m', mem', l1, l2.
  - destruct (fail_run n strategy l (Z.to_nat n) wl r) as (m' & r' & Hrun & [_ _ (h & Hm' & _) _ _]).
    { lia. } { done. }
    { intros x Hx. destruct (Hsees x Hx) as (d & Hsee). exists d. split; [done|].
      assert (x ∈ r) as Hxr by (by apply (elem_of_Permutation_proper x _ _ (rot_perm _ _ Hrot))).
      pose proof (first_None _ _ Hf2 x Hxr) as Hun. change (unpinned w x = false) in Hun.
      rewrite (unpinned_at _ _ _ (proj1 Hsee)) in Hun. by apply Z.eqb_neq. }
    rewrite Z2Nat.id in Hrun by lia.
    replace (gas (me w)) with (Z.to_nat n + (gas (me w) - Z.to_nat n))%nat by lia.
    rewrite Hrun. by exists m', h.
Qed.

(** C8. Without interference, and with no header locked, [SieveGetBuffer] evicts the
    first buffer from the hand on that is neither pinned nor used; failing that,
    after one round that clears the usage counts, the first one that is not
    pinned.  Exactly the buffers passed over lose their usage counts, the victim
    is unlinked and pinned and the hand moves on; when all queued buffers are
    pinned it raises the error with the lock released.  It returns within two
    rounds of the queue. *)
Theorem SieveGetBuffer_run n strategy l r w hand :
  quiet w -> lock_of (shm w) = None -> NBuffers (me w) = n -> (2 * Z.to_nat n + 1 < gas (me w))%nat ->
  sieve_mem n (mem w) l hand -> rot l r -> head r = Some hand ->
  (forall x, x ∈ l -> exists d, sees w x d) ->
  ring_ready n strategy (me w) ->
  (forall x, x ∈ l -> unpinned w x = true -> can_track (me w) (x + 1)) ->
  sieve_result n strategy l r w (SieveGetBuffer strategy w).
Proof. apply SieveGetBuffer_search. Qed.

(** A new pool: buffer 0 is pinned, 1 is spared, 2 is evicted. *)
Lemma SieveGetBuffer_run_witness :
  exists m, let w := sample_world SieveVtable m [] in
    sieve_choice w [0; 1; 2] = Some ([0; 1], 2) /\
    sieve_result 3 None [0; 1; 2] [0; 1; 2] w (SieveGetBuffer None w).
Proof.
  destruct (SieveInitialize_run (sample_world SieveVtable (replicate 10 0) []) 3) as (m & _ & Hm & _);
    [lia|done|vm_compute; discriminate|].
  exists m. cbn zeta. split; [done|].
  apply (SieveGetBuffer_run 3 None [0; 1; 2] [0; 1; 2] _ 0); try done.
  - vm_compute. lia.
  - exists [], [0; 1; 2]. done.
  - intros x Hx%(q_range _ _ _ _ _ (sm_queue _ _ _ _ Hm)).
    destruct (sample_desc_at SieveVtable m [] x Hx) as (d & Hd & _). by exists d.
  - intros x _ _. apply sample_can_track.
Defined.
