(* ===== verification/Lru.v ===== *)
(** * The LRU policy ([freelist.c], lines 596-787)

    Buffers are queued by their last use; the least recently used one that is
    not pinned is evicted. *)
From S2P Require Import Prelude BufState BufTag Shmem Concurrency PrivateRefCount Ring Sample DList.

(** ** Layout: [LRUState], then [LRUNext] and [LRUPrev] *)
Definition LRUNext_base : Z := 1.
Definition LRUPrev_base (n : Z) : Z := LRUNext_base + (n + 1).

Definition LRUNext (n i : Z) : M Z := rd_arr LRUNext_base (n + 1) i.
Definition set_LRUNext (n i v : Z) : M unit := wr_arr LRUNext_base (n + 1) i v.
Definition LRUPrev (n i : Z) : M Z := rd_arr (LRUPrev_base n) (n + 1) i.
Definition set_LRUPrev (n i v : Z) : M unit := wr_arr (LRUPrev_base n) (n + 1) i v.

Definition LRUShmemSize (n_buffers : Z) : Z :=
  u64 (4 + u64 (u64 (i32 (2 * i32 (n_buffers + 1))) * 4)).

Definition LRUInitialize (found : bool) : M unit :=
  if negb found then
    let* n := get_me NBuffers in
    wr_word 0 0 ;;
    set_LRUNext n n (n - 1) ;;
    set_LRUPrev n n 0 ;;
    for_upto (Z.to_nat n) 0 (fun i =>
      set_LRUNext n i (if i <? n - 1 then i + 1 else n) ;;
      set_LRUPrev n i (if 0 <? i then i - 1 else n))
  else ret tt.

Definition LRUUnlink (buf_id : Z) : M unit :=
  let* n := get_me NBuffers in
  let* mru_nb := LRUNext n buf_id in
  let* lru_nb := LRUPrev n buf_id in
  (if mru_nb =? n then set_LRUNext n n lru_nb else set_LRUPrev n mru_nb lru_nb) ;;
  (if lru_nb =? n then set_LRUPrev n n mru_nb else set_LRUNext n lru_nb mru_nb) ;;
  set_LRUNext n buf_id n ;;
  set_LRUPrev n buf_id n.

Definition LRUInsertMRU (buf_id : Z) : M unit :=
  let* n := get_me NBuffers in
  let* old_head := LRUNext n n in
  set_LRUNext n buf_id n ;;
  set_LRUPrev n buf_id old_head ;;
  (if old_head =? n then set_LRUPrev n n buf_id else set_LRUNext n old_head buf_id) ;;
  set_LRUNext n n buf_id.

Definition LRU_IN_LIST (buf_id : Z) : M bool :=
  let* n := get_me NBuffers in
  let* nx := LRUNext n buf_id in
  let* pv := LRUPrev n buf_id in
  let* head := LRUNext n n in
  ret (negb (nx =? n) || negb (pv =? n) || (head =? buf_id)).

Definition LRUNotifyHit (buf : Z) : M unit :=
  let* d := deref buf in
  SpinLockAcquire ;;
  let* in_list := LRU_IN_LIST (buf_id d) in
  when in_list (LRUUnlink (buf_id d) ;; LRUInsertMRU (buf_id d)) ;;
  SpinLockRelease.

Definition LRUNotifyInsert (buf : Z) : M unit :=
  let* d := deref buf in
  SpinLockAcquire ;;
  let* in_list := LRU_IN_LIST (buf_id d) in
  when in_list (LRUUnlink (buf_id d)) ;;
  LRUInsertMRU (buf_id d) ;;
  SpinLockRelease.

Definition LRUNotifyInvalidate (buf : Z) : M unit :=
  let* d := deref buf in
  SpinLockAcquire ;;
  let* in_list := LRU_IN_LIST (buf_id d) in
  when in_list (LRUUnlink (buf_id d)) ;;
  SpinLockRelease.

(** One round of the search; the locals are [candidate_id] and [trycounter]. *)
Definition lru_round (strategy : BufferAccessStrategy) (s : Z * Z) : M (ctl (Z * Z) (Z * Z)) :=
  let '(candidate_id, trycounter) := s in
  let* n := get_me NBuffers in
  if candidate_id =? n then
    SpinLockRelease ;; elog "no buffers in LRU queue"
  else
  let buf := GetBufferDescriptor candidate_id in
  let* old_buf_state := pg_atomic_read_u64 buf in
  if flag old_buf_state BM_LOCKED then
    WaitBufHdrUnlocked buf ;; ret (Continue (candidate_id, trycounter))
  else if negb (BUF_STATE_GET_REFCOUNT old_buf_state =? 0) then
    let* candidate_id := LRUNext n candidate_id in
    let* candidate_id := (if candidate_id =? n then LRUPrev n n else ret candidate_id) in
    let trycounter := trycounter - 1 in
    if trycounter =? 0 then
      SpinLockRelease ;; elog "no unpinned buffers"
    else ret (Continue (candidate_id, trycounter))
  else
    let new_buf_state := u64 (old_buf_state + BUF_REFCOUNT_ONE) in
    let* '(ok, _) := pg_atomic_compare_exchange_u64 buf old_buf_state new_buf_state in
    if ok : bool then
      LRUUnlink candidate_id ;;
      claim_buffer strategy buf ;;
      SpinLockRelease ;;
      ret (Break (buf, new_buf_state))
    else ret (Continue (candidate_id, n)).

Definition LRUGetBuffer (strategy : BufferAccessStrategy) : M (Z * Z) :=
  let* n := get_me NBuffers in
  SpinLockAcquire ;;
  let* candidate_id := LRUPrev n n in
  forever (lru_round strategy) (candidate_id, n).

(** ** Representation: the queue [l], least recently used first *)
Record lru_mem (n : Z) (m : list Z) (l : list Z) : Prop := {
  lm_seq : is_Some (lookupZ m 0);
  lm_queue : queue LRUNext_base (LRUPrev_base n) n m l
}.
Definition lru_inv (n : Z) (m : list Z) : Prop := exists l, lru_mem n m l.

(** The operations on the queue alone. *)
Definition lru_hit (b : Z) (l : list Z) : list Z :=
  if bool_decide (b ∈ l) then rm b l ++ [b] else l.
Definition lru_insert (b : Z) (l : list Z) : list Z := rm b l ++ [b].
Definition lru_invalidate (b : Z) (l : list Z) : list Z := rm b l.

Lemma lru_disj n : LRUNext_base + (n + 1) <= LRUPrev_base n.
Proof. unfold LRUPrev_base. lia. Qed.
#[export] Hint Resolve lru_disj : core.

(** [prog] turns the queue [l] into [l']. *)
Definition requeues (n : Z) (prog : M unit) (w : World) (l' : list Z) : Prop :=
  exists m', prog w = (Ret tt, with_mem m' w) /\ lru_mem n m' l'.

Lemma requeues_seq n p1 p2 w l1 l2 :
  requeues n p1 w l1 -> (forall m, lru_mem n m l1 -> requeues n p2 (with_mem m w) l2) ->
  requeues n (p1 ;; p2) w l2.
Proof.
  intros (m1 & Hrun1 & Hm1) H2. destruct (H2 _ Hm1) as (m2 & Hrun2 & Hm2).
  exists m2. by rewrite (bind_ret _ _ _ _ _ Hrun1).
Qed.

Lemma lru_same_outside n m m' l :
  lru_mem n m l -> same_outside LRUNext_base (LRUPrev_base n) (n + 1) m m' ->
  is_Some (lookupZ m' 0).
Proof. intros [Hs _] [_ Hout]. rewrite Hout; [done|]. unfold LRUNext_base. lia. Qed.

Lemma LRUUnlink_run w n l b :
  NBuffers (me w) = n -> lru_mem n (mem w) l -> b ∈ l -> requeues n (LRUUnlink b) w (rm b l).
Proof.
  intros Hw Hm (l1 & l2 & ->)%list_elem_of_split. pose proof (lm_queue _ _ _ Hm) as Hq.
  rewrite rm_split by (by eapply queue_nodup).
  destruct (queue_stitch _ _ _ (lru_disj n) w l1 b l2 Hq) as (m' & Hrun & Hq' & Hso).
  exists m'. split; [|split; [by eapply lru_same_outside|done]].
  unfold LRUUnlink, LRUNext, LRUPrev.
  rewrite (bind_ret _ _ w n w) by (unfold get_me, gets; by rewrite Hw).
  rewrite (bind_ret _ _ _ _ _ (queue_next _ _ _ _ _ _ _ Hq)).
  by rewrite (bind_ret _ _ _ _ _ (queue_prev _ _ _ _ _ _ _ Hq)).
Qed.

Lemma LRUInsertMRU_run w n l b :
  NBuffers (me w) = n -> lru_mem n (mem w) l -> (b ∉ l) -> 0 <= b < n ->
  requeues n (LRUInsertMRU b) w (l ++ [b]).
Proof.
  intros Hw Hm Hbl Hb. pose proof (lm_queue _ _ _ Hm) as Hq.
  destruct (queue_push _ _ _ (lru_disj n) w l b Hq Hbl Hb) as (m' & Hrun & Hq' & Hso).
  exists m'. split; [|split; [by eapply lru_same_outside|done]].
  unfold LRUInsertMRU, LRUNext.
  by rewrite (bind_ret _ _ w n w) by (unfold get_me, gets; by rewrite Hw).
Qed.

Lemma LRU_IN_LIST_run w n l b :
  NBuffers (me w) = n -> lru_mem n (mem w) l -> 0 <= b < n ->
  LRU_IN_LIST b w = (Ret (bool_decide (b ∈ l)), w).
Proof.
  intros Hw Hm Hb. unfold LRU_IN_LIST, LRUNext, LRUPrev.
  rewrite (bind_ret _ _ w n w) by (unfold get_me, gets; by rewrite Hw).
  destruct (queue_test _ _ _ w l b (lm_queue _ _ _ Hm) Hb) as (x & y & z & Hx & Hy & Hz & Htest).
  by rewrite (bind_ret _ _ _ _ _ Hx), (bind_ret _ _ _ _ _ Hy), (bind_ret _ _ _ _ _ Hz), Htest.
Qed.

Lemma rm_gone b l : b ∉ rm b l.
Proof. rewrite elem_of_rm. tauto. Qed.

(** Unlinking a buffer that may be queued. *)
Lemma unlink_if_run w n l b :
  NBuffers (me w) = n -> lru_mem n (mem w) l ->
  requeues n (when (bool_decide (b ∈ l)) (LRUUnlink b)) w (rm b l).
Proof.
  intros Hw Hm. case_bool_decide as Hb; [by apply LRUUnlink_run|].
  exists (mem w). rewrite with_mem_mem, rm_notin by done. done.
Qed.

Lemma LRUInitialize_run w n :
  0 < n -> NBuffers (me w) = n -> 1 + 2 * (n + 1) <= Z.of_nat (length (mem w)) ->
  requeues n (LRUInitialize false) w (seqZ 0 n).
Proof.
  intros Hn Hw Hlen. unfold LRUInitialize, requeues. cbn [negb].
  rewrite (bind_ret _ _ w n w) by (unfold get_me, gets; by rewrite Hw).
  destruct (lookupZ_lt (mem w) 0) as [v0 Hv0]; [lia|].
  rewrite (bind_ret _ _ _ _ _ (wr_word_run _ _ 0 _ Hv0)).
  destruct (init_links_run LRUNext_base (LRUPrev_base n) n (lru_disj n)
    (with_mem (insertZ 0 0 (mem w)) w)) as (m' & Hrun & Hq & [Hl Hout]); [done|done| |].
  { rewrite mem_with_mem, length_insertZ. unfold LRUPrev_base, LRUNext_base. lia. }
  exists m'. split; [exact Hrun|]. split; [|done].
  rewrite Hout by (unfold LRUNext_base; lia). rewrite mem_with_mem, lookupZ_insertZ_eq by lia. done.
Qed.

(** ** The critical sections of the hooks *)
Definition lru_hit_section (b : Z) : M unit :=
  let* in_list := LRU_IN_LIST b in
  when in_list (LRUUnlink b ;; LRUInsertMRU b) ;; SpinLockRelease.
Definition lru_insert_section (b : Z) : M unit :=
  let* in_list := LRU_IN_LIST b in
  when in_list (LRUUnlink b) ;; LRUInsertMRU b ;; SpinLockRelease.
Definition lru_invalidate_section (b : Z) : M unit :=
  let* in_list := LRU_IN_LIST b in
  when in_list (LRUUnlink b) ;; SpinLockRelease.

(** A section turns the queue [l] into [F l] and releases the lock. *)
Definition rewrites (n buf : Z) (F : list Z -> list Z) (body : Z -> M unit) : Prop :=
  forall w l, NBuffers (me w) = n -> lru_mem n (mem w) l ->
    exists m', body buf w = (Ret tt, set_lock None (with_mem m' w)) /\ lru_mem n m' (F l).

Lemma lru_hit_rewrites n buf : 0 <= buf < n -> rewrites n buf (lru_hit buf) lru_hit_section.
Proof.
  intros Hb w l Hw Hm. unfold lru_hit_section. run (LRU_IN_LIST_run w n l buf Hw Hm Hb).
  unfold lru_hit. case_bool_decide as Hin; cbn [when].
  - destruct (requeues_seq n (LRUUnlink buf) (LRUInsertMRU buf) w (rm buf l) (rm buf l ++ [buf]))
      as (m' & Hrun & Hm'); [by apply LRUUnlink_run| |].
    { intros m Hm1. apply LRUInsertMRU_run; [done..|apply rm_gone|done]. }
    exists m'. by run Hrun.
  - exists (mem w). by rewrite with_mem_mem.
Qed.

Lemma lru_insert_rewrites n buf : 0 <= buf < n -> rewrites n buf (lru_insert buf) lru_insert_section.
Proof.
  intros Hb w l Hw Hm. unfold lru_insert_section. run (LRU_IN_LIST_run w n l buf Hw Hm Hb).
  destruct (unlink_if_run w n l buf Hw Hm) as (m1 & Hrun1 & Hm1).
  destruct (LRUInsertMRU_run (with_mem m1 w) n (rm buf l) buf Hw Hm1 (rm_gone _ _) Hb)
    as (m2 & Hrun2 & Hm2).
  exists m2. run Hrun1. by run Hrun2.
Qed.

Lemma lru_invalidate_rewrites n buf :
  0 <= buf < n -> rewrites n buf (lru_invalidate buf) lru_invalidate_section.
Proof.
  intros Hb w l Hw Hm. unfold lru_invalidate_section. run (LRU_IN_LIST_run w n l buf Hw Hm Hb).
  destruct (unlink_if_run w n l buf Hw Hm) as (m1 & Hrun1 & Hm1). exists m1. by run Hrun1.
Qed.

(** ** Notifications under interference *)
Section notify.
Context (pr : Proto) (Hinv : pr_inv pr = lru_inv (pr_n pr)) (Hlk : pr_locked pr = true).
Abbreviation n := (pr_n pr).

(** The queue that was there when the lock was taken is the queue [F] of it
    when the lock is released. *)
Definition lru_notify_post (F : list Z -> list Z) (w : World) (o : outcome unit) (w' : World)
    : Prop :=
  match o with
  | Ret _ =>
      env_ok pr w' /\ lock_of (shm w') = None /\ me w' = me w /\
      exists w1 l, evolves pr w w1 /\ lru_mem n (mem w1) l /\ lru_mem n (mem w') (F l)
  | Spin => True
  | Elog _ | UB _ => False
  end.

Lemma lru_release w m0 l :
  held pr m0 w -> lru_mem n (mem w) l -> env_ok pr (set_lock None w).
Proof using Hinv Hlk.
  intros Hh Hm. eapply held_release; [exact Hh|]. rewrite Hinv. by exists l.
Qed.

(** A critical section that rewrites the queue. *)
Lemma lru_section F w buf (body : Z -> M unit) :
  env_ok pr w -> 0 <= buf < n -> rewrites n buf F body ->
  wp (let* d := deref buf in SpinLockAcquire ;; body (buf_id d)) (lru_notify_post F w) w.
Proof using Hinv Hlk.
  intros Henv Hb Hbody. destruct (env_desc _ _ _ Henv Hb) as (d & Hd & Hid & _).
  apply wp_bind. eapply wp_deref; [exact Hd|]. cbn [bind_post]. rewrite Hid.
  apply wp_bind, wp_SpinLockAcquire with (pr := pr); [done|done|].
  intros w1 Hev Hi Hfree Henv1. cbn [bind_post]. rewrite Hinv in Hi. destruct Hi as (l & Hm).
  destruct (Hbody (set_lock (Some (pr_proc pr)) w1) l) as (m' & Hrun & Hm'); [apply Henv1|done|].
  eapply wp_eq; [exact Hrun|]. cbn.
  pose proof (held_with_mem _ _ _ m' (held_acquired _ _ _ Hlk Hev Henv1)) as Hheld.
  split; [by eapply lru_release|]. split; [done|]. split; [apply Hev|]. by exists w1, l.
Qed.

Lemma LRUNotifyHit_post w buf :
  env_ok pr w -> 0 <= buf < n -> wp (LRUNotifyHit buf) (lru_notify_post (lru_hit buf) w) w.
Proof using Hinv Hlk.
  intros Henv Hb. by apply (lru_section _ _ _ lru_hit_section), lru_hit_rewrites.
Qed.

Lemma LRUNotifyInsert_post w buf :
  env_ok pr w -> 0 <= buf < n -> wp (LRUNotifyInsert buf) (lru_notify_post (lru_insert buf) w) w.
Proof using Hinv Hlk.
  intros Henv Hb. by apply (lru_section _ _ _ lru_insert_section), lru_insert_rewrites.
Qed.

Lemma LRUNotifyInvalidate_post w buf :
  env_ok pr w -> 0 <= buf < n ->
  wp (LRUNotifyInvalidate buf) (lru_notify_post (lru_invalidate buf) w) w.
Proof using Hinv Hlk.
  intros Henv Hb. by apply (lru_section _ _ _ lru_invalidate_section), lru_invalidate_rewrites.
Qed.
End notify.

(** ** The search under interference *)
Section lru_safety.
Context (pr : Proto) (Hinv : pr_inv pr = lru_inv (pr_n pr)) (Hlk : pr_locked pr = true).
Abbreviation n := (pr_n pr).

Definition lru_searching (m0 : Backend) (l : list Z) (s : Z * Z) (w : World) : Prop :=
  held pr m0 w /\ lru_mem n (mem w) l /\ (s.1 ∈ l \/ (l = [] /\ s.1 = n)).

Definition lru_get_post (strategy : BufferAccessStrategy) (m0 : Backend) (l : list Z)
    (o : outcome (Z * Z)) (w' : World) : Prop :=
  match o with
  | Ret (buf, st) =>
      env_ok pr w' /\ lock_of (shm w') = None /\ buf ∈ l /\
      (exists w1, me w1 = m0 /\ claimed pr strategy buf st w1 w') /\
      lru_mem n (mem w') (rm buf l)
  | Elog _ =>
      env_ok pr w' /\ lock_of (shm w') = None /\ me w' = m0 /\ lru_mem n (mem w') l
  | Spin => True
  | UB _ => False
  end.

Lemma lru_elog strategy m0 l s w msg :
  lru_searching m0 l s w ->
  wp (SpinLockRelease ;; elog msg)
    (round_post_partial (lru_searching m0 l) (lru_get_post strategy m0 l)) w.
Proof using Hinv Hlk.
  intros (Hh & Hm & _). eapply wp_eq; [done|]. cbn.
  split; [by eapply lru_release|]. split; [done|]. split; [apply Hh|done].
Qed.

Lemma lru_claim strategy m0 l w1 buf d :
  ready pr m0 -> ring_ready n strategy m0 -> held pr m0 w1 -> lru_mem n (mem w1) l ->
  buf ∈ l -> desc_at w1 buf d -> buf_id d = buf -> wf_state (state d) ->
  own_ok pr buf (state d) ->
  refcount (state d) = 0 -> flag (state d) BM_LOCKED = false ->
  wp (LRUUnlink buf ;;
      claim_buffer strategy buf ;;
      SpinLockRelease ;;
      ret (Break (buf, pinned_word (state d))))
    (round_post_partial (lru_searching m0 l) (lru_get_post strategy m0 l))
    (set_desc buf (with_state (pinned_word (state d)) d) w1).
Proof using Hinv Hlk.
  intros Hready Hring Hh Hm Hin Hd Hid Hwf Hpin Hr Hl.
  assert (0 <= buf < n) as Hb by (by eapply q_range; [apply Hm|]).
  destruct (pinned_free _ Hwf Hr) as (Hwf' & Hr' & _).
  assert (held pr m0 (set_desc buf (with_state (pinned_word (state d)) d) w1)) as Hh1.
  { eapply held_set_desc; [done|exact Hd|done|done|]. by eapply own_none, own_free. }
  destruct (LRUUnlink_run (set_desc buf (with_state (pinned_word (state d)) d) w1) n l buf)
    as (m' & Hrun & Hm'); [apply Hh1|exact Hm|done|].
  destruct (claim_buffer_claimed pr strategy w1 buf d m') as (w' & Hrun' & Hcl & Hshm);
    try done; [apply Hh|by rewrite (held_me _ _ _ Hh)|by rewrite (held_me _ _ _ Hh)|].
  eapply wp_eq; [by rewrite (bind_ret _ _ _ _ _ Hrun), (bind_ret _ _ _ _ _ Hrun')|]. cbn.
  pose proof (lru_release pr Hinv Hlk _ _ _ (held_with_mem _ _ _ m' Hh1) Hm') as Hrel.
  split_and!; [|done|done| |].
  - eapply env_same; [exact Hrel|cbn; by rewrite Hshm|cbn; apply Hcl| |];
      destruct (tr_frame _ _ _ (cl_tracked _ _ _ _ _ _ Hcl)); done.
  - exists w1. split; [apply Hh|]. destruct Hcl. by split.
  - unfold mem. cbn. by rewrite Hshm.
Qed.

(** The next candidate is again an element of the queue. *)
Lemma lru_next m0 l c w A (k : Z -> M A) Q :
  0 <= n -> held pr m0 w -> lru_mem n (mem w) l -> c ∈ l ->
  (forall c', c' ∈ l -> wp (k c') Q w) ->
  wp (let* c := LRUNext n c in
      let* c := (if c =? n then LRUPrev n n else ret c) in k c) Q w.
Proof using Type.
  clear Hinv Hlk. intros Hn Hh Hm (l1 & l2 & ->)%list_elem_of_split Hk. pose proof (lm_queue _ _ _ Hm) as Hq.
  apply wp_bind. eapply wp_eq; [by eapply queue_next|]. cbn [bind_post].
  destruct l2 as [|y l2]; cbn.
  - rewrite Z.eqb_refl. apply wp_bind. eapply wp_eq; [by eapply queue_oldest|]. cbn [bind_post].
    apply Hk. destruct l1; cbn; set_solver.
  - rewrite (proj2 (Z.eqb_neq y n)).
    + apply wp_bind, wp_ret. cbn [bind_post]. apply Hk. set_solver.
    + assert (0 <= y < n); [|lia]. apply (q_range _ _ _ _ _ Hq). set_solver.
Qed.

Lemma lru_round_post strategy m0 l s w :
  ready pr m0 -> ring_ready n strategy m0 -> 0 <= n -> lru_searching m0 l s w ->
  wp (lru_round strategy s)
    (round_post_partial (lru_searching m0 l) (lru_get_post strategy m0 l)) w.
Proof using Hinv Hlk.
  intros Hready Hring Hn Hs. pose proof Hs as (Hh & Hm & Hc). destruct s as [c t]. cbn in Hc.
  unfold lru_round. assert (NBuffers (me w) = n) as Hw by apply Hh.
  apply wp_bind. eapply wp_eq; [done|]. cbn [bind_post]. rewrite Hw.
  destruct (Z.eqb_spec c n) as [->|Hne]; [by eapply lru_elog|].
  destruct Hc as [Hin|[_ ?]]; [|done].
  assert (0 <= c < n) as Hr by (by eapply q_range; [apply Hm|]).
  unfold GetBufferDescriptor.
  apply wp_bind, wp_pg_atomic_read_u64 with (pr := pr); [apply Hh|done|].
  intros w1 d Hev Hd Hid Hwf Hpin. cbn [bind_post].
  destruct (held_evolves _ _ _ _ Hh Hev) as [Hh1 Hmem1]. rewrite <- Hmem1 in Hm.
  rewrite get_refcount by apply Hwf.
  destruct (flag (state d) BM_LOCKED) eqn:Hl.
  { apply wp_bind, wp_WaitBufHdrUnlocked with (pr := pr); [apply Hh1|done|done|].
    intros w2 d2 Hev2 _ _ _ _ _. cbn [bind_post]. apply wp_ret. cbn.
    destruct (held_evolves _ _ _ _ Hh1 Hev2) as [Hh2 Hmem2].
    split; [done|]. rewrite Hmem2. auto. }
  destruct (Z.eqb_spec (refcount (state d)) 0) as [Hr0|Hr0]; cbn [negb].
  2: { eapply lru_next; [done..|]. intros c' Hc'.
    assert (lru_searching m0 l (c', t - 1) w1) as Hs' by (split_and!; auto).
    destruct (t - 1 =? 0); [by eapply lru_elog|by apply wp_ret]. }
  apply wp_bind, wp_pg_atomic_compare_exchange_u64 with (pr := pr); [apply Hh1|done| |].
  2: { intros w2 d2 Hev2 Hd2 _ _ _ _. cbn [bind_post]. apply wp_ret. cbn.
    destruct (held_evolves _ _ _ _ Hh1 Hev2) as [Hh2 Hmem2].
    split; [done|]. rewrite Hmem2. auto. }
  intros w2 d2 Hev2 Hd2 Hid2 Hst _ Hpin2. cbn [bind_post].
  destruct (held_evolves _ _ _ _ Hh1 Hev2) as [Hh2 Hmem2]. rewrite <- Hst.
  apply lru_claim; try done; rewrite ?Hst; try done. by rewrite Hmem2.
Qed.

Lemma LRUGetBuffer_post strategy w :
  ready pr (me w) -> ring_ready n strategy (me w) -> 0 <= n -> env_ok pr w ->
  wp (LRUGetBuffer strategy) (fun o w' => exists l, lru_get_post strategy (me w) l o w') w.
Proof using Hinv Hlk.
  intros Hready Hring Hn Henv. unfold LRUGetBuffer.
  apply wp_bind. eapply wp_eq; [done|]. cbn [bind_post]. rewrite (env_nbuf _ _ Henv).
  apply wp_bind, wp_SpinLockAcquire with (pr := pr); [done|by intros; exists []|].
  intros w1 Hev Hi Hfree Henv1. cbn [bind_post]. rewrite Hinv in Hi. destruct Hi as (l & Hm).
  apply wp_bind. eapply wp_eq; [eapply queue_oldest; [done|exact (lm_queue _ _ _ Hm)]|].
  cbn [bind_post]. eapply wp_mono; [by intros o w' H; exists l; exact H|].
  apply (wp_forever_partial (lru_searching (me w) l)); [done| |].
  - intros s w' Hs. by apply lru_round_post.
  - split; [by apply held_acquired|]. split; [done|]. destruct l; cbn; [by right|left; set_solver].
Qed.
End lru_safety.

(** ** Without interference: which buffer is evicted *)
Section lru_quiet.
Context (n : Z) (strategy : BufferAccessStrategy) (l : list Z) (w : World).
Hypothesis Hq : quiet w.
Hypothesis Hw : NBuffers (me w) = n.
Hypothesis Hm : lru_mem n (mem w) l.
Hypothesis Hsees : forall x, x ∈ l -> exists d, sees w x d.

Lemma lru_round_pinned c t l1 l2 :
  l = l1 ++ c :: l2 -> unpinned w c = false ->
  exists c', lru_round strategy (c, t) w =
      (if t - 1 =? 0 then (Elog "no unpinned buffers", set_lock None w)
       else (Ret (Continue (c', t - 1)), w)) /\
    head (l2 ++ l1 ++ [c]) = Some c'.
Proof using Hq Hw Hm Hsees.
  intros Hl Hpin. pose proof (lm_queue _ _ _ Hm) as Hqu.
  assert (0 <= n) as Hn by (assert (0 <= c < n); [apply (q_range _ _ _ _ _ Hqu); set_solver|lia]).
  destruct (Hsees c) as (d & Hd & Hid & Hwf & Hlk); [set_solver|].
  assert (c <> n) as Hne.
  { assert (0 <= c < n); [apply (q_range _ _ _ _ _ Hqu); set_solver|lia]. }
  rewrite (unpinned_at _ _ _ Hd) in Hpin. unfold lru_round.
  rewrite (bind_ret _ _ w n w) by (unfold get_me, gets; by rewrite Hw).
  rewrite (proj2 (Z.eqb_neq _ _) Hne). unfold GetBufferDescriptor.
  rewrite (bind_ret _ _ _ _ _ (read_quiet _ Hq _ _ Hd)), Hlk.
  rewrite get_refcount, Hpin by apply Hwf. cbn [negb].
  rewrite Hl in Hqu. rewrite (bind_ret _ _ _ _ _ (queue_next _ _ _ _ _ _ _ Hqu)).
  destruct l2 as [|y l2]; cbn.
  - rewrite Z.eqb_refl, (bind_ret _ _ _ _ _ (queue_oldest _ _ _ _ _ Hn Hqu)).
    exists (default n (head (l1 ++ [c]))). split; [by destruct (t - 1 =? 0)|by destruct l1].
  - rewrite (proj2 (Z.eqb_neq y n)).
    2: { assert (0 <= y < n); [|lia]. apply (q_range _ _ _ _ _ Hqu). set_solver. }
    rewrite bind_ret_l. exists y. split; [by destruct (t - 1 =? 0)|done].
Qed.

(** The search passes over the pinned buffers [ps]. *)
Lemma lru_pass ps : forall pre v ys t k,
  l = pre ++ ps ++ v :: ys -> (forall x, x ∈ ps -> unpinned w x = false) ->
  Z.of_nat (length ps) < t ->
  iter_fuel (length ps + k) (lru_round strategy) (default v (head ps), t) w =
    iter_fuel k (lru_round strategy) (v, t - Z.of_nat (length ps)) w.
Proof using Hq Hw Hm Hsees.
  induction ps as [|x ps IH]; intros pre v ys t k Hl Hpin Ht.
  { cbn. by rewrite Z.sub_0_r. }
  change (default v (head (x :: ps))) with x. cbn [length Nat.add].
  destruct (lru_round_pinned x t pre (ps ++ v :: ys) Hl) as (c' & Hrun & Hc'); [set_solver|].
  rewrite (proj2 (Z.eqb_neq (t - 1) 0)) in Hrun by (cbn in Ht; lia).
  rewrite (iter_continue _ _ _ _ _ _ Hrun).
  assert (c' = default v (head ps)) as -> by (by destruct ps; cbn in Hc'; injection Hc').
  rewrite (IH (pre ++ [x]) v ys); [|by rewrite <- app_assoc|set_solver|cbn in Ht; lia].
  do 2 f_equal. cbn. lia.
Qed.

Lemma lru_fail t : forall c k,
  (0 < t)%nat -> c ∈ l -> (forall x, x ∈ l -> unpinned w x = false) ->
  iter_fuel (t + k) (lru_round strategy) (c, Z.of_nat t) w =
    (Elog "no unpinned buffers", set_lock None w).
Proof using Hq Hw Hm Hsees.
  induction t as [|t IH]; intros c k Ht Hc Hall; [lia|].
  pose proof Hc as (l1 & l2 & Hl)%list_elem_of_split.
  destruct (lru_round_pinned c (Z.of_nat (S t)) l1 l2 Hl (Hall c Hc)) as (c' & Hrun & Hc').
  destruct (Z.eqb_spec (Z.of_nat (S t) - 1) 0) as [Hz|Hz].
  - by apply iter_elog.
  - cbn [Nat.add]. rewrite (iter_continue _ _ _ _ _ _ Hrun).
    replace (Z.of_nat (S t) - 1) with (Z.of_nat t) by lia. apply IH; [lia| |done].
    rewrite Hl. apply head_Some_elem_of in Hc'. set_solver.
Qed.

Lemma lru_evict v d t k :
  v ∈ l -> desc_at w v d -> refcount (state d) = 0 ->
  ring_ready n strategy (me w) -> can_track (me w) (v + 1) ->
  exists m' mem',
    iter_fuel (S k) (lru_round strategy) (v, t) w =
      (Ret (v, pinned_word (state d)),
       set_lock None (with_me m' (with_mem mem'
         (set_desc v (with_state (pinned_word (state d)) d) w)))) /\
    lru_mem n mem' (rm v l) /\
    tracked (with_rings (rings_put strategy (v + 1) (rings (me w))) (me w)) m' (v + 1).
Proof using Hq Hw Hm Hsees.
  intros Hv Hd Hr Hring Hct. destruct (Hsees v Hv) as (d' & Hd' & Hid & Hwf & Hlk).
  assert (d' = d) as -> by (unfold desc_at in *; congruence).
  assert (0 <= v < n) as Hvn by (by apply (q_range _ _ _ _ _ (lm_queue _ _ _ Hm))).
  set (w1 := set_desc v (with_state (pinned_word (state d)) d) w).
  destruct (LRUUnlink_run w1 n l v) as (mem' & Hrun & Hm'); [done..|].
  destruct (claim_buffer_run n (with_mem mem' w1) strategy v
    (with_state (pinned_word (state d)) d)) as (m' & Hrun' & Htr);
    [done|by apply (desc_at_set_eq w _ d)|done|lia|done|].
  exists m', mem'. split; [|done]. apply iter_break. unfold lru_round.
  rewrite (bind_ret _ _ w n w) by (unfold get_me, gets; by rewrite Hw).
  rewrite (proj2 (Z.eqb_neq v n)) by lia. unfold GetBufferDescriptor.
  rewrite (bind_ret _ _ _ _ _ (read_quiet _ Hq _ _ Hd)), Hlk.
  rewrite get_refcount, Hr by apply Hwf. cbn [negb Z.eqb].
  rewrite (bind_ret _ _ _ _ _ (cas_quiet _ Hq _ _ _ Hd)). fold (pinned_word (state d)). fold w1.
  by rewrite (bind_ret _ _ _ _ _ Hrun), (bind_ret _ _ _ _ _ Hrun').
Qed.
End lru_quiet.

(** What a search does that nobody interferes with and that meets no header lock. *)
Definition lru_result (n : Z) (strategy : BufferAccessStrategy) (l : list Z) (w : World)
    (res : outcome (Z * Z) * World) : Prop :=
  match first (unpinned w) l with
  | Some (_, v) =>
      exists d m' mem', desc_at w v d /\
        res = (Ret (v, pinned_word (state d)),
          set_lock None (with_me m' (with_mem mem'
            (set_desc v (with_state (pinned_word (state d)) d) w)))) /\
        lru_mem n mem' (rm v l) /\
        tracked (with_rings (rings_put strategy (v + 1) (rings (me w))) (me w)) m' (v + 1)
  | None =>
      res = (Elog (if bool_decide (l = []) then "no buffers in LRU queue" else "no unpinned buffers"),
             set_lock None w)
  end.

Lemma LRUGetBuffer_search n strategy l w :
  quiet w -> lock_of (shm w) = None -> NBuffers (me w) = n -> 0 < n ->
  (Z.to_nat n < gas (me w))%nat -> lru_mem n (mem w) l ->
  (forall x, x ∈ l -> exists d, sees w x d) ->
  ring_ready n strategy (me w) ->
  (forall x, x ∈ l -> unpinned w x = true -> can_track (me w) (x + 1)) ->
  lru_result n strategy l w (LRUGetBuffer strategy w).
Proof.
  intros Hq Hlock Hn Hpos Hgas Hm Hsees Hring Htrack.
  set (p := MyProcNumber (me w)). set (wl := set_lock (Some p) w).
  pose proof (lm_queue _ _ _ Hm) as Hqu.
  pose proof (queue_length _ _ _ _ _ (Z.lt_le_incl _ _ Hpos) Hqu) as Hlen.
  unfold LRUGetBuffer. rewrite (bind_ret _ _ w n w) by (unfold get_me, gets; by rewrite Hn).
  rewrite (bind_ret _ _ _ _ _ (SpinLockAcquire_quiet w Hq Hlock ltac:(lia))). fold p wl.
  unfold LRUPrev. rewrite (bind_ret _ _ _ _ _ (queue_oldest _ _ _ wl _ (Z.lt_le_incl _ _ Hpos) Hqu)).
  unfold forever. change (gas (me wl)) with (gas (me w)). unfold lru_result.
  destruct (first (unpinned w) l) as [[ps v]|] eqn:Hf.
  - apply first_Some in Hf as (ys & Hl & Hv & Hps).
    assert (v ∈ l) as Hvl by (rewrite Hl; set_solver).
    assert (Z.of_nat (length ps) < n) as Hpsn by (rewrite Hl, length_app in Hlen; cbn in Hlen; lia).
    replace (default n (head l)) with (default v (head ps)) by (rewrite Hl; by destruct ps).
    replace (gas (me w)) with (length ps + S (gas (me w) - length ps - 1))%nat by lia.
    rewrite (lru_pass n strategy l wl Hq Hn Hm Hsees ps [] v ys) by done.
    destruct (Hsees v Hvl) as (d & Hd & _). pose proof Hv as Hr.
    rewrite (unpinned_at _ _ _ Hd) in Hr. apply Z.eqb_eq in Hr.
    destruct (lru_evict n strategy l wl Hq Hn Hm Hsees v d (n - Z.of_nat (length ps))
      (gas (me w) - length ps - 1) Hvl Hd Hr Hring (Htrack v Hvl Hv)) as (m' & mem' & -> & Hm' & Htr).
    by exists d, m', mem'.
  - pose proof (first_None _ _ Hf) as Hall. destruct l as [|x l]; cbn [head default from_option].
    + destruct (gas (me w)) as [|g] eqn:Hg; [lia|]. rewrite bool_decide_true by done.
      erewrite iter_elog; [reflexivity|]. unfold lru_round.
      rewrite (bind_ret _ _ wl n wl) by (unfold get_me, gets; cbn; by rewrite Hn).
      cbn [default from_option]. by rewrite Z.eqb_refl.
    + rewrite bool_decide_false by done. change (id x) with x.
      replace (gas (me w)) with (Z.to_nat n + (gas (me w) - Z.to_nat n))%nat by lia.
      pose proof (lru_fail n strategy (x :: l) wl Hq Hn Hm Hsees (Z.to_nat n) x
        (gas (me w) - Z.to_nat n) ltac:(lia) ltac:(set_solver) Hall) as Hfail.
      rewrite Z2Nat.id in Hfail by lia. by rewrite Hfail.
Qed.

(** C10. Without interference, and with no header locked, [LRUGetBuffer] evicts the
    least recently used unpinned buffer of the queue, pins it for the caller and
    takes it out of the queue, the order of the others unchanged; it fails, with
    the lock released and nothing changed, exactly when every queued buffer is
    pinned (or none is queued).  It returns within [NBuffers] rounds. *)
Theorem LRUGetBuffer_run n strategy l w :
  quiet w -> lock_of (shm w) = None -> NBuffers (me w) = n -> 0 < n ->
  (Z.to_nat n < gas (me w))%nat -> lru_mem n (mem w) l ->
  (forall x, x ∈ l -> exists d, sees w x d) ->
  ring_ready n strategy (me w) ->
  (forall x, x ∈ l -> unpinned w x = true -> can_track (me w) (x + 1)) ->
  lru_result n strategy l w (LRUGetBuffer strategy w).
Proof. apply LRUGetBuffer_search. Qed.

(** The queue of a new pool: buffer 1 is the first that is not pinned. *)
Lemma LRUGetBuffer_run_witness :
  exists m, let w := sample_world LRUVtable m [] in
    lru_mem 3 (mem w) [0; 1; 2] /\ lru_result 3 (Some 0) [0; 1; 2] w (LRUGetBuffer (Some 0) w).
Proof.
  destruct (LRUInitialize_run (sample_world LRUVtable (replicate 9 0) []) 3) as (m & _ & Hm);
    [lia|done|vm_compute; discriminate|].
  exists m. cbn zeta. split; [done|]. apply LRUGetBuffer_run; try done.
  - vm_compute. lia.
  - intros x Hx%(q_range _ _ _ _ _ (lm_queue _ _ _ Hm)).
    destruct (sample_desc_at LRUVtable m [] x Hx) as (d & Hd & _). by exists d.
  - by apply sample_ring_ready.
  - intros x _ _. apply sample_can_track.
Defined.
