(* ===== verification/Lfu.v ===== *)
(** * The LFU policy ([freelist.c], lines 26-28 and 799-1026)

    Buffers with the same access frequency form a bucket, ordered by recency;
    the search walks the buckets upwards from [min_freq] and evicts the first
    buffer that is neither pinned nor locked. *)
From S2P Require Import Prelude BufState BufTag Shmem Concurrency PrivateRefCount Ring Sample DList.

Definition LFU_MAX_FREQ : Z := 1024.
Definition LFU_SENTINEL (n f : Z) : Z := n + f - 1.

(** ** Layout: [LFUState], [LFUFreq], [LFUNext], [LFUPrev] *)
Definition LFUFreq_base : Z := 2.
Definition LFUNext_base (n : Z) : Z := LFUFreq_base + n.
Definition LFUPrev_base (n : Z) : Z := LFUNext_base n + (n + LFU_MAX_FREQ).

Definition min_freq : M Z := rd_word 0.
Definition set_min_freq (v : Z) : M unit := wr_word 0 v.
Definition LFUFreq (n i : Z) : M Z := rd_arr LFUFreq_base n i.
Definition set_LFUFreq (n i v : Z) : M unit := wr_arr LFUFreq_base n i v.
Definition LFUNext (n i : Z) : M Z := rd_arr (LFUNext_base n) (n + LFU_MAX_FREQ) i.
Definition set_LFUNext (n i v : Z) : M unit := wr_arr (LFUNext_base n) (n + LFU_MAX_FREQ) i v.
Definition LFUPrev (n i : Z) : M Z := rd_arr (LFUPrev_base n) (n + LFU_MAX_FREQ) i.
Definition set_LFUPrev (n i v : Z) : M unit := wr_arr (LFUPrev_base n) (n + LFU_MAX_FREQ) i v.

Definition LFU_BUCKET_EMPTY (n f : Z) : M bool :=
  let* x := LFUNext n (LFU_SENTINEL n f) in ret (x =? LFU_SENTINEL n f).

Definition LFUShmemSize (n_buffers : Z) : Z :=
  u64 (u64 (8 + u64 (u64 n_buffers * 4))
       + u64 (u64 (i32 (2 * i32 (n_buffers + LFU_MAX_FREQ))) * 4)).

Definition LFUInitialize (found : bool) : M unit :=
  if negb found then
    let* n := get_me NBuffers in
    set_min_freq 1 ;;
    wr_word 1 0 ;;
    for_upto (Z.to_nat LFU_MAX_FREQ) 1 (fun i =>
      let s := LFU_SENTINEL n i in
      set_LFUNext n s s ;;
      set_LFUPrev n s s) ;;
    let s := LFU_SENTINEL n 1 in
    set_LFUNext n s (n - 1) ;;
    set_LFUPrev n s 0 ;;
    for_upto (Z.to_nat n) 0 (fun i =>
      set_LFUFreq n i 1 ;;
      set_LFUNext n i (if i <? n - 1 then i + 1 else s) ;;
      set_LFUPrev n i (if 0 <? i then i - 1 else s))
  else ret tt.

Definition LFUBucketUnlink (buf_id : Z) : M unit :=
  let* n := get_me NBuffers in
  let* f := LFUFreq n buf_id in
  let s := LFU_SENTINEL n f in
  let* next := LFUNext n buf_id in
  let* prev := LFUPrev n buf_id in
  (if next =? s then set_LFUNext n s prev else set_LFUPrev n next prev) ;;
  (if prev =? s then set_LFUPrev n s next else set_LFUNext n prev next) ;;
  set_LFUNext n buf_id n ;;
  set_LFUPrev n buf_id n.

Definition LFUBucketInsertMRU (buf_id freq : Z) : M unit :=
  let* n := get_me NBuffers in
  let s := LFU_SENTINEL n freq in
  let* old_head := LFUNext n s in
  set_LFUNext n buf_id s ;;
  set_LFUPrev n buf_id old_head ;;
  (if old_head =? s then set_LFUPrev n s buf_id else set_LFUNext n old_head buf_id) ;;
  set_LFUNext n s buf_id.

Definition LFUNotifyInsert (buf : Z) : M unit :=
  let* d := deref buf in
  let b := buf_id d in
  SpinLockAcquire ;;
  let* n := get_me NBuffers in
  let* f := LFUFreq n b in
  when (negb (f =? 0)) (LFUBucketUnlink b) ;;
  set_LFUFreq n b 1 ;;
  LFUBucketInsertMRU b 1 ;;
  set_min_freq 1 ;;
  SpinLockRelease.

Definition LFUNotifyHit (buf : Z) : M unit :=
  let* d := deref buf in
  let b := buf_id d in
  SpinLockAcquire ;;
  let* n := get_me NBuffers in
  let* f := LFUFreq n b in
  if f =? 0 then SpinLockRelease else
  let new_f := if f <? LFU_MAX_FREQ then f + 1 else LFU_MAX_FREQ in
  LFUBucketUnlink b ;;
  let* mf := min_freq in
  let* empty := (if f =? mf then LFU_BUCKET_EMPTY n f else ret false) in
  when empty (set_min_freq new_f) ;;
  set_LFUFreq n b new_f ;;
  LFUBucketInsertMRU b new_f ;;
  SpinLockRelease.

Definition LFUNotifyInvalidate (buf : Z) : M unit :=
  let* d := deref buf in
  let b := buf_id d in
  SpinLockAcquire ;;
  let* n := get_me NBuffers in
  let* f := LFUFreq n b in
  when (negb (f =? 0)) (LFUBucketUnlink b ;; set_LFUFreq n b 0) ;;
  SpinLockRelease.

(** How the walk over the buckets ends. *)
Inductive lfu_walk := Claimed (buf st : Z) | CasFailed | Exhausted.

(** One round of the [while] loop over bucket [f]; the local is [candidate]. *)
Definition lfu_candidate_round (strategy : BufferAccessStrategy) (f candidate : Z)
    : M (ctl Z lfu_walk) :=
  let* n := get_me NBuffers in
  let s := LFU_SENTINEL n f in
  if candidate =? s then ret (Break Exhausted) else
  let* next_candidate := LFUNext n candidate in
  let buf := GetBufferDescriptor candidate in
  let* old_state := pg_atomic_read_u64 buf in
  if flag old_state BM_LOCKED || negb (BUF_STATE_GET_REFCOUNT old_state =? 0)
  then ret (Continue next_candidate)
  else
    let new_state := u64 (old_state + BUF_REFCOUNT_ONE) in
    let* '(ok, _) := pg_atomic_compare_exchange_u64 buf old_state new_state in
    if ok : bool then
      LFUBucketUnlink candidate ;;
      set_LFUFreq n candidate 0 ;;
      let* empty := LFU_BUCKET_EMPTY n f in
      when empty (set_min_freq f) ;;
      claim_buffer strategy buf ;;
      SpinLockRelease ;;
      ret (Break (Claimed buf new_state))
    else ret (Break CasFailed).

(** One round of the [for] loop over the frequencies. *)
Definition lfu_bucket_round (strategy : BufferAccessStrategy) (f : Z) : M (ctl Z lfu_walk) :=
  if f <=? LFU_MAX_FREQ then
    let* n := get_me NBuffers in
    let* candidate := LFUPrev n (LFU_SENTINEL n f) in
    let* r := forever (lfu_candidate_round strategy f) candidate in
    match r with
    | Exhausted =>
        let* empty := LFU_BUCKET_EMPTY n f in
        when empty (set_min_freq (f + 1)) ;;
        ret (Continue (f + 1))
    | Claimed _ _ | CasFailed => ret (Break r)
    end
  else ret (Break Exhausted).

(** One round of the outer loop, which is left by [return] or [elog]. *)
Definition lfu_round (strategy : BufferAccessStrategy) (_ : unit) : M (ctl unit (Z * Z)) :=
  let* f := min_freq in
  let* r := forever (lfu_bucket_round strategy) f in
  match r with
  | Claimed buf st => ret (Break (buf, st))
  | CasFailed => ret (Continue tt)
  | Exhausted => SpinLockRelease ;; elog "no unpinned buffers available"
  end.

Definition LFUGetBuffer (strategy : BufferAccessStrategy) : M (Z * Z) :=
  SpinLockAcquire ;;
  forever (lfu_round strategy) tt.

(** ** Buckets

    [B f] is the bucket of frequency [f], least recently used first. *)
Definition freq_ok (f : Z) : Prop := 1 <= f <= LFU_MAX_FREQ.

Record buckets (n : Z) (m : list Z) (B : Z -> list Z) : Prop := {
  bk_links : exists nx pv,
    links (LFUNext_base n) (LFUPrev_base n) (n + LFU_MAX_FREQ) m nx pv /\
    forall f, freq_ok f -> dl (LFU_SENTINEL n f) nx pv (B f);
  bk_range : forall f x, freq_ok f -> x ∈ B f -> 0 <= x < n;
  bk_disjoint : forall f f' x, freq_ok f -> freq_ok f' -> x ∈ B f -> x ∈ B f' -> f = f'
}.

Abbreviation lfu_outside n := (same_outside (LFUNext_base n) (LFUPrev_base n) (n + LFU_MAX_FREQ)).

Lemma lfu_disj n : LFUNext_base n + (n + LFU_MAX_FREQ) <= LFUPrev_base n.
Proof. unfold LFUPrev_base. lia. Qed.

Lemma sentinel_range n f : 0 <= n -> freq_ok f -> n <= LFU_SENTINEL n f < n + LFU_MAX_FREQ.
Proof. unfold freq_ok, LFU_SENTINEL, LFU_MAX_FREQ. lia. Qed.

Section buckets.
Context (n : Z) (Hn : 0 <= n).

(** Ends and neighbours are indices of the link arrays. *)
Lemma bucket_index m B f x :
  buckets n m B -> freq_ok f -> x = LFU_SENTINEL n f \/ x ∈ B f -> 0 <= x < n + LFU_MAX_FREQ.
Proof using Hn.
  intros Hb Hf [->|Hx]; [pose proof (sentinel_range n f Hn Hf); lia|].
  pose proof (bk_range _ _ _ Hb f x Hf Hx). unfold LFU_MAX_FREQ. lia.
Qed.

Lemma bucket_next w B f l1 b l2 :
  buckets n (mem w) B -> freq_ok f -> B f = l1 ++ b :: l2 ->
  LFUNext n b w = (Ret (default (LFU_SENTINEL n f) (head l2)), w).
Proof using Hn.
  intros Hb Hf HB. pose proof Hb as [(nx & pv & [Hnx Hpv] & Hdl) _ _].
  specialize (Hdl f Hf). rewrite HB in Hdl. rewrite <- (dl_next _ _ _ _ _ _ Hdl).
  apply rd_arr_run; [done|]. eapply bucket_index; [done..|]. right. rewrite HB. set_solver.
Qed.
Lemma bucket_prev w B f l1 b l2 :
  buckets n (mem w) B -> freq_ok f -> B f = l1 ++ b :: l2 ->
  LFUPrev n b w = (Ret (default (LFU_SENTINEL n f) (last l1)), w).
Proof using Hn.
  intros Hb Hf HB. pose proof Hb as [(nx & pv & [Hnx Hpv] & Hdl) _ _].
  specialize (Hdl f Hf). rewrite HB in Hdl. rewrite <- (dl_prev _ _ _ _ _ _ Hdl).
  apply rd_arr_run; [done|]. eapply bucket_index; [done..|]. right. rewrite HB. set_solver.
Qed.
Lemma bucket_oldest w B f :
  buckets n (mem w) B -> freq_ok f ->
  LFUPrev n (LFU_SENTINEL n f) w = (Ret (default (LFU_SENTINEL n f) (head (B f))), w).
Proof using Hn.
  intros Hb Hf. pose proof Hb as [(nx & pv & [Hnx Hpv] & Hdl) _ _].
  rewrite <- (dl_oldest _ _ _ _ (Hdl f Hf)).
  apply rd_arr_run; [done|]. eapply bucket_index; [done..|]. by left.
Qed.
Lemma bucket_empty w B f :
  buckets n (mem w) B -> freq_ok f ->
  LFU_BUCKET_EMPTY n f w = (Ret (bool_decide (B f = [])), w).
Proof using Hn.
  intros Hb Hf. pose proof Hb as [(nx & pv & [Hnx Hpv] & Hdl) Hr _].
  pose proof (sentinel_range n f Hn Hf) as Hs.
  unfold LFU_BUCKET_EMPTY, LFUNext.
  rewrite (bind_ret _ _ _ _ _ (rd_arr_run _ _ _ _ (LFU_SENTINEL n f) Hnx ltac:(lia))).
  rewrite (dl_newest _ _ _ _ (Hdl f Hf)). unfold ret. do 2 f_equal.
  destruct (default_last_in (LFU_SENTINEL n f) (B f)) as [He|Hin].
  - rewrite He, Z.eqb_refl. symmetry. apply bool_decide_eq_true.
    destruct (B f) as [|x l _] eqn:E using rev_ind; [done|]. rewrite last_snoc in He. cbn in He.
    subst x. assert (0 <= LFU_SENTINEL n f < n); [|lia]. apply (Hr f); [done|]. rewrite E. set_solver.
  - pose proof (Hr f _ Hf Hin). rewrite (proj2 (Z.eqb_neq _ _)) by lia. symmetry.
    apply bool_decide_eq_false. intros E. rewrite E in Hin. set_solver.
Qed.

Lemma sentinel_inj f f' : LFU_SENTINEL n f = LFU_SENTINEL n f' -> f = f'.
Proof using Type. unfold LFU_SENTINEL. lia. Qed.

(** A node outside of bucket [f] is neither its sentinel nor an element. *)
Lemma other_bucket m B f f' x :
  buckets n m B -> freq_ok f -> freq_ok f' -> f <> f' ->
  x = LFU_SENTINEL n f' \/ x ∈ B f' -> x <> LFU_SENTINEL n f /\ (x ∉ B f).
Proof using Hn.
  intros Hb Hf Hf' Hne [->|Hx].
  - split; [intros E%sentinel_inj; congruence|]. intros Hin.
    pose proof (bk_range _ _ _ Hb f _ Hf Hin). pose proof (sentinel_range n f' Hn Hf'). lia.
  - split; [|intros Hin; by destruct Hne; eapply bk_disjoint].
    pose proof (bk_range _ _ _ Hb f' _ Hf' Hx). pose proof (sentinel_range n f Hn Hf). lia.
Qed.

Lemma bucket_unlink w B f l1 b l2 :
  buckets n (mem w) B -> freq_ok f -> B f = l1 ++ b :: l2 ->
  exists m', stitch (LFUNext_base n) (LFUPrev_base n) (n + LFU_MAX_FREQ) (LFU_SENTINEL n f) n b
      (default (LFU_SENTINEL n f) (head l2)) (default (LFU_SENTINEL n f) (last l1)) w =
      (Ret tt, with_mem m' w) /\
    buckets n m' (<[f := l1 ++ l2]> B) /\ lfu_outside n (mem w) m'.
Proof using Hn.
  intros Hb Hf HB. pose proof Hb as [(nx & pv & Hl & Hdl) Hr Hd].
  pose proof (Hdl f Hf) as Hdlf. rewrite HB in Hdlf.
  assert (forall x, x = LFU_SENTINEL n f \/ x ∈ l1 ++ b :: l2 -> 0 <= x < n + LFU_MAX_FREQ) as Hidx.
  { intros x Hx. eapply bucket_index; [done..|]. by rewrite HB. }
  rewrite <- (dl_next _ _ _ _ _ _ Hdlf), <- (dl_prev _ _ _ _ _ _ Hdlf).
  destruct (stitch_relinks _ _ _ (lfu_disj n) w nx pv (LFU_SENTINEL n f) n b Hl)
    as (m' & Hrun & Hl' & Hso).
  { apply Hidx. by left. } { apply Hidx. set_solver. }
  { rewrite (dl_next _ _ _ _ _ _ Hdlf). apply Hidx.
    destruct (default_head_in (LFU_SENTINEL n f) l2) as [->|?]; set_solver. }
  { rewrite (dl_prev _ _ _ _ _ _ Hdlf). apply Hidx.
    destruct (default_last_in (LFU_SENTINEL n f) l1) as [->|?]; set_solver. }
  exists m'. split; [done|]. split; [|done].
  assert (forall f' x, x ∈ <[f := l1 ++ l2]> B f' -> x ∈ B f') as Hsub.
  { intros f' x. destruct (decide (f = f')) as [<-|Hne].
    - rewrite fn_lookup_insert, HB. set_solver.
    - by rewrite fn_lookup_insert_ne. }
  split.
  - eexists _, _. split; [exact Hl'|]. intros f' Hf'. destruct (decide (f = f')) as [<-|Hne].
    + rewrite fn_lookup_insert. by apply dl_unlink.
    + rewrite fn_lookup_insert_ne by done. eapply dl_ext; [|by apply Hdl].
      intros x Hx. destruct (other_bucket (mem w) B f f' x) as [Hx1 Hx2]; [done..|].
      rewrite HB in Hx2. by eapply unlink_frame.
  - intros f' x Hf' Hx. eapply Hr; [done|by apply Hsub].
  - intros f1 f2 x H1 H2 Hx1 Hx2. eapply Hd; [done..|by apply Hsub|by apply Hsub].
Qed.

Lemma bucket_push w B f b :
  buckets n (mem w) B -> freq_ok f -> 0 <= b < n -> (forall f', freq_ok f' -> b ∉ B f') ->
  exists m', push_newest (LFUNext_base n) (LFUPrev_base n) (n + LFU_MAX_FREQ) (LFU_SENTINEL n f) b w =
      (Ret tt, with_mem m' w) /\
    buckets n m' (<[f := B f ++ [b]]> B) /\ lfu_outside n (mem w) m'.
Proof using Hn.
  intros Hb Hf Hbr Hout. pose proof Hb as [(nx & pv & Hl & Hdl) Hr Hd].
  pose proof (Hdl f Hf) as Hdlf. pose proof (sentinel_range n f Hn Hf) as Hs.
  destruct (push_newest_relinks _ _ _ (lfu_disj n) w nx pv (LFU_SENTINEL n f) b Hl)
    as (m' & Hrun & Hl' & Hso).
  { lia. } { unfold LFU_MAX_FREQ. lia. }
  { rewrite (dl_newest _ _ _ _ Hdlf). eapply bucket_index; [done..|]. apply default_last_in. }
  exists m'. split; [done|]. split; [|done].
  assert (forall f' x, x ∈ <[f := B f ++ [b]]> B f' -> x ∈ B f' \/ (x = b /\ f' = f)) as Hsub.
  { intros f' x. destruct (decide (f = f')) as [<-|Hne].
    - rewrite fn_lookup_insert. set_solver.
    - rewrite fn_lookup_insert_ne by done. by left. }
  split.
  - eexists _, _. split; [exact Hl'|]. intros f' Hf'. destruct (decide (f = f')) as [<-|Hne].
    + rewrite fn_lookup_insert. apply dl_push; [done|by apply Hout|lia].
    + rewrite fn_lookup_insert_ne by done. eapply dl_ext; [|by apply Hdl].
      intros x Hx. destruct (other_bucket (mem w) B f f' x) as [Hx1 Hx2]; [done..|].
      eapply push_frame; [done..| |done]. intros ->. destruct Hx as [->|Hx].
      * pose proof (sentinel_range n f' Hn Hf'). lia.
      * by apply (Hout f').
  - intros f' x Hf' [Hx|[-> _]]%Hsub; [by eapply Hr|done].
  - intros f1 f2 x H1 H2 [Hx1|[-> ->]]%Hsub [Hx2|[? ->]]%Hsub; try done.
    + by eapply Hd.
    + subst. by destruct (Hout f1).
    + by destruct (Hout f2).
Qed.
End buckets.

(** ** Representation: frequencies, buckets and [min_freq] *)
Record lfu_state := mkLfu {
  l_min : Z;
  l_freq : Z -> Z;
  l_bucket : Z -> list Z
}.

Record lfu_mem (n : Z) (m : list Z) (s : lfu_state) : Prop := {
  fm_min : lookupZ m 0 = Some (l_min s);
  fm_seq : is_Some (lookupZ m 1);
  fm_freq : arr m LFUFreq_base n (l_freq s);
  fm_buckets : buckets n m (l_bucket s);
  fm_member : forall f x, freq_ok f -> x ∈ l_bucket s f <-> 0 <= x < n /\ l_freq s x = f;
  fm_freq_range : forall x, 0 <= x < n -> 0 <= l_freq s x <= LFU_MAX_FREQ;
  fm_min_range : 1 <= l_min s <= LFU_MAX_FREQ + 1
}.
Definition lfu_inv (n : Z) (m : list Z) : Prop := exists s, lfu_mem n m s.

(** The counter of the background writer is no part of the representation. *)
Lemma lfu_write_seq n m s v : 0 <= n -> lfu_mem n m s -> lfu_mem n (insertZ 1 v m) s.
Proof.
  intros Hn [Hmin [v0 Hs] Hf [(nx & pv & [Hnx Hpv] & Hdl) Hr Hd] Hmem Hfr Hmr].
  split; try done.
  - by rewrite lookupZ_insertZ_ne.
  - exists v. by eapply lookupZ_insertZ_eq, lookupZ_Some.
  - apply arr_insert_ne; [done|]. left. unfold LFUFreq_base. lia.
  - split; [|done|done]. exists nx, pv. split; [|done].
    unfold LFUPrev_base, LFUNext_base, LFUFreq_base, LFU_MAX_FREQ in *.
    split; apply arr_insert_ne; try done; left; lia.
Qed.

(** The operations on the representation alone. *)
Definition lfu_take (b : Z) (s : lfu_state) : Z -> list Z :=
  if l_freq s b =? 0 then l_bucket s
  else <[l_freq s b := rm b (l_bucket s (l_freq s b))]> (l_bucket s).
Definition lfu_add (b f : Z) (B : Z -> list Z) : Z -> list Z := <[f := B f ++ [b]]> B.

Definition lfu_insert (b : Z) (s : lfu_state) : lfu_state :=
  mkLfu 1 (<[b := 1]> (l_freq s)) (lfu_add b 1 (lfu_take b s)).
Definition lfu_hit (b : Z) (s : lfu_state) : lfu_state :=
  let f := l_freq s b in
  if f =? 0 then s else
  let new_f := Z.min (f + 1) LFU_MAX_FREQ in
  mkLfu (if (f =? l_min s) && bool_decide (rm b (l_bucket s f) = []) then new_f else l_min s)
    (<[b := new_f]> (l_freq s)) (lfu_add b new_f (lfu_take b s)).
Definition lfu_invalidate (b : Z) (s : lfu_state) : lfu_state :=
  if l_freq s b =? 0 then s
  else mkLfu (l_min s) (<[b := 0]> (l_freq s)) (lfu_take b s).

(** The memory between two steps of an operation, when frequencies and buckets
    need not agree. *)
Record lfu_raw (n : Z) (m : list Z) (mf : Z) (freq : Z -> Z) (B : Z -> list Z) : Prop := {
  lr_min : lookupZ m 0 = Some mf;
  lr_seq : is_Some (lookupZ m 1);
  lr_freq : arr m LFUFreq_base n freq;
  lr_buckets : buckets n m B
}.

Section raw.
Context (w : World) (n mf : Z) (freq : Z -> Z) (B : Z -> list Z).
Hypothesis Hn : 0 <= n.
Hypothesis Hw : NBuffers (me w) = n.
Hypothesis Hraw : lfu_raw n (mem w) mf freq B.

Lemma min_freq_run : min_freq w = (Ret mf, w).
Proof using Hraw. apply rd_word_run, Hraw. Qed.
Lemma LFUFreq_run b : 0 <= b < n -> LFUFreq n b w = (Ret (freq b), w).
Proof using Hraw. intros Hb. apply rd_arr_run; [apply Hraw|done]. Qed.

Lemma set_min_freq_raw mf' :
  exists m', set_min_freq mf' w = (Ret tt, with_mem m' w) /\ lfu_raw n m' mf' freq B.
Proof using Hn Hraw.
  destruct Hraw as [H0 H1 Hf [(nx & pv & [Hnx Hpv] & Hdl) Hr Hd]].
  eexists. split; [by eapply wr_word_run|]. split.
  - apply lookupZ_insertZ_eq. by apply lookupZ_Some in H0.
  - by rewrite lookupZ_insertZ_ne.
  - apply arr_insert_ne; [done|]. unfold LFUFreq_base. lia.
  - split; [|done|done]. exists nx, pv. split; [|done].
    unfold LFUPrev_base, LFUNext_base, LFUFreq_base, LFU_MAX_FREQ in *.
    split; apply arr_insert_ne; done || lia.
Qed.

Lemma set_LFUFreq_raw b v :
  0 <= b < n ->
  exists m', set_LFUFreq n b v w = (Ret tt, with_mem m' w) /\ lfu_raw n m' mf (<[b := v]> freq) B.
Proof using Hn Hraw.
  intros Hb. destruct Hraw as [H0 H1 Hf [(nx & pv & [Hnx Hpv] & Hdl) Hr Hd]].
  eexists. split; [by eapply wr_arr_run|]. split.
  - unfold LFUFreq_base. by rewrite lookupZ_insertZ_ne by lia.
  - unfold LFUFreq_base. by rewrite lookupZ_insertZ_ne by lia.
  - by apply arr_insert_eq.
  - split; [|done|done]. exists nx, pv. split; [|done].
    unfold LFUPrev_base, LFUNext_base, LFUFreq_base, LFU_MAX_FREQ in *.
    split; apply arr_insert_ne; done || lia.
Qed.

(** Relinking keeps the words before the links. *)
Lemma lfu_outside_raw m' B' : lfu_outside n (mem w) m' -> buckets n m' B' -> lfu_raw n m' mf freq B'.
Proof using Hn Hraw.
  intros [_ Hout] HB. destruct Hraw as [H0 H1 Hf _]. unfold LFUNext_base, LFUFreq_base in *.
  split; [by rewrite Hout by lia|by rewrite Hout by lia| |done].
  intros i Hi. unfold LFUFreq_base. rewrite Hout by lia. by apply Hf.
Qed.

Lemma LFUBucketUnlink_raw b f :
  freq b = f -> freq_ok f -> b ∈ B f ->
  exists m', LFUBucketUnlink b w = (Ret tt, with_mem m' w) /\
    lfu_raw n m' mf freq (<[f := rm b (B f)]> B).
Proof using Hn Hw Hraw.
  intros Hfb Hf Hb. pose proof (lr_buckets _ _ _ _ _ Hraw) as Hbk.
  assert (0 <= b < n) as Hbn by (by eapply bk_range).
  pose proof Hb as (l1 & l2 & HB)%list_elem_of_split.
  assert (NoDup (B f)) as Hnd by (destruct Hbk as [(? & ? & _ & Hdl) _ _]; apply (Hdl f Hf)).
  rewrite HB in Hnd. rewrite HB, rm_split by done.
  destruct (bucket_unlink n Hn w B f l1 b l2 Hbk Hf HB) as (m' & Hrun & Hbk' & Hso).
  exists m'. split; [|by eapply lfu_outside_raw].
  unfold LFUBucketUnlink.
  rewrite (bind_ret _ _ w n w) by (unfold get_me, gets; by rewrite Hw).
  rewrite (bind_ret _ _ _ _ _ (LFUFreq_run b Hbn)), Hfb. cbv zeta.
  rewrite (bind_ret _ _ _ _ _ (bucket_next n Hn _ _ _ _ _ _ Hbk Hf HB)).
  by rewrite (bind_ret _ _ _ _ _ (bucket_prev n Hn _ _ _ _ _ _ Hbk Hf HB)).
Qed.

Lemma LFUBucketInsertMRU_raw b f :
  freq_ok f -> 0 <= b < n -> (forall f', freq_ok f' -> b ∉ B f') ->
  exists m', LFUBucketInsertMRU b f w = (Ret tt, with_mem m' w) /\
    lfu_raw n m' mf freq (lfu_add b f B).
Proof using Hn Hw Hraw.
  intros Hf Hb Hout. pose proof (lr_buckets _ _ _ _ _ Hraw) as Hbk.
  destruct (bucket_push n Hn w B f b Hbk Hf Hb Hout) as (m' & Hrun & Hbk' & Hso).
  exists m'. split; [|by eapply lfu_outside_raw].
  unfold LFUBucketInsertMRU. by rewrite (bind_ret _ _ w n w) by (unfold get_me, gets; by rewrite Hw).
Qed.
End raw.

Lemma lfu_mem_raw n m s : lfu_mem n m s -> lfu_raw n m (l_min s) (l_freq s) (l_bucket s).
Proof. by intros []. Qed.

(** Taking [b] out of its bucket, if it is in one. *)
Lemma lfu_take_raw w n s b :
  0 <= b < n -> NBuffers (me w) = n -> lfu_mem n (mem w) s ->
  exists m', when (negb (l_freq s b =? 0)) (LFUBucketUnlink b) w = (Ret tt, with_mem m' w) /\
    lfu_raw n m' (l_min s) (l_freq s) (lfu_take b s) /\
    (forall f, freq_ok f -> b ∉ lfu_take b s f).
Proof.
  intros Hb Hw Hm. unfold lfu_take.
  pose proof (fm_freq_range _ _ _ Hm b Hb) as Hfr.
  destruct (Z.eqb_spec (l_freq s b) 0) as [H0|H0]; cbn [negb when].
  - exists (mem w). rewrite with_mem_mem. split; [done|]. split; [by apply lfu_mem_raw|].
    intros f Hf Hin. apply (fm_member _ _ _ Hm) in Hin as [_ Hin]; [|done].
    unfold freq_ok in Hf. lia.
  - assert (freq_ok (l_freq s b)) as Hf by (unfold freq_ok; lia).
    assert (b ∈ l_bucket s (l_freq s b)) as Hin by (by apply (fm_member _ _ _ Hm)).
    destruct (LFUBucketUnlink_raw w n (l_min s) (l_freq s) (l_bucket s) ltac:(lia) Hw
      (lfu_mem_raw _ _ _ Hm) b _ eq_refl Hf Hin) as (m' & Hrun & Hraw).
    exists m'. split; [done|]. split; [done|]. intros f Hf'.
    destruct (decide (l_freq s b = f)) as [<-|Hne].
    + rewrite fn_lookup_insert, elem_of_rm. tauto.
    + rewrite fn_lookup_insert_ne by done. intros Hb'. apply (fm_member _ _ _ Hm) in Hb' as [_ ?]; done.
Qed.

Lemma lfu_take_at s b : l_freq s b <> 0 -> lfu_take b s (l_freq s b) = rm b (l_bucket s (l_freq s b)).
Proof. intros H. unfold lfu_take. rewrite (proj2 (Z.eqb_neq _ _) H). apply fn_lookup_insert. Qed.

Lemma elem_of_take n m s b f x :
  lfu_mem n m s -> 0 <= b < n -> freq_ok f ->
  x ∈ lfu_take b s f <-> 0 <= x < n /\ l_freq s x = f /\ x <> b.
Proof.
  intros Hm Hb Hf. unfold lfu_take. pose proof (fm_member _ _ _ Hm f x Hf) as Hx.
  pose proof (fm_freq_range _ _ _ Hm b Hb) as Hfr.
  destruct (Z.eqb_spec (l_freq s b) 0) as [H0|H0].
  - rewrite Hx. split; [|tauto]. intros [Hxr <-]. split; [done|]. split; [done|]. intros ->.
    unfold freq_ok in Hf. lia.
  - destruct (decide (l_freq s b = f)) as [<-|Hne].
    + rewrite fn_lookup_insert, elem_of_rm, Hx. tauto.
    + rewrite fn_lookup_insert_ne, Hx by done. split; [|tauto]. intros [Hxr <-].
      split; [done|]. split; [done|]. congruence.
Qed.

(** Putting [b] into bucket [f] and setting its frequency. *)
Lemma lfu_readd n m m' s b f mf' :
  lfu_mem n m s -> 0 <= b < n -> freq_ok f -> 1 <= mf' <= LFU_MAX_FREQ + 1 ->
  lfu_raw n m' mf' (<[b := f]> (l_freq s)) (lfu_add b f (lfu_take b s)) ->
  lfu_mem n m' (mkLfu mf' (<[b := f]> (l_freq s)) (lfu_add b f (lfu_take b s))).
Proof.
  intros Hm Hb Hf Hmf [H0 H1 Hfr Hbk]. split; try done; cbn.
  - intros f' x Hf'. unfold lfu_add. pose proof (elem_of_take _ _ _ b f' x Hm Hb Hf') as Hx.
    destruct (decide (x = b)) as [->|Hxb].
    + rewrite fn_lookup_insert. destruct (decide (f = f')) as [<-|Hne].
      * rewrite fn_lookup_insert. set_solver.
      * rewrite fn_lookup_insert_ne by done. rewrite Hx. split; [tauto|]. intros [_ ?]. done.
    + rewrite (fn_lookup_insert_ne _ b x) by done. destruct (decide (f = f')) as [<-|Hne].
      * rewrite fn_lookup_insert, elem_of_app, list_elem_of_singleton, Hx. tauto.
      * rewrite fn_lookup_insert_ne by done. rewrite Hx. tauto.
  - intros x Hx. destruct (decide (x = b)) as [->|Hxb].
    + rewrite fn_lookup_insert. unfold freq_ok in Hf. lia.
    + rewrite fn_lookup_insert_ne by done. by apply (fm_freq_range _ _ _ Hm).
Qed.

Lemma lfu_drop n m m' s b :
  lfu_mem n m s -> 0 <= b < n ->
  lfu_raw n m' (l_min s) (<[b := 0]> (l_freq s)) (lfu_take b s) ->
  lfu_mem n m' (mkLfu (l_min s) (<[b := 0]> (l_freq s)) (lfu_take b s)).
Proof.
  intros Hm Hb [H0 H1 Hfr Hbk]. split; try done; cbn.
  - intros f x Hf. rewrite (elem_of_take _ _ _ b f x Hm Hb Hf).
    destruct (decide (x = b)) as [->|Hxb].
    + rewrite fn_lookup_insert. unfold freq_ok in Hf. split; [tauto|lia].
    + rewrite fn_lookup_insert_ne by done. tauto.
  - intros x Hx. destruct (decide (x = b)) as [->|Hxb].
    + rewrite fn_lookup_insert. unfold LFU_MAX_FREQ. lia.
    + rewrite fn_lookup_insert_ne by done. by apply (fm_freq_range _ _ _ Hm).
  - apply Hm.
Qed.

(** ** Notifications: what they do while they hold the lock *)
Definition lfu_insert_section (b : Z) : M unit :=
  let* n := get_me NBuffers in
  let* f := LFUFreq n b in
  when (negb (f =? 0)) (LFUBucketUnlink b) ;;
  set_LFUFreq n b 1 ;;
  LFUBucketInsertMRU b 1 ;;
  set_min_freq 1 ;;
  SpinLockRelease.
Definition lfu_invalidate_section (b : Z) : M unit :=
  let* n := get_me NBuffers in
  let* f := LFUFreq n b in
  when (negb (f =? 0)) (LFUBucketUnlink b ;; set_LFUFreq n b 0) ;;
  SpinLockRelease.
Definition lfu_hit_section (b : Z) : M unit :=
  let* n := get_me NBuffers in
  let* f := LFUFreq n b in
  if f =? 0 then SpinLockRelease else
  let new_f := if f <? LFU_MAX_FREQ then f + 1 else LFU_MAX_FREQ in
  LFUBucketUnlink b ;;
  let* mf := min_freq in
  let* empty := (if f =? mf then LFU_BUCKET_EMPTY n f else ret false) in
  when empty (set_min_freq new_f) ;;
  set_LFUFreq n b new_f ;;
  LFUBucketInsertMRU b new_f ;;
  SpinLockRelease.

(** A section turns the state [s] into [F s] and releases the lock. *)
Definition lfu_rewrites (n buf : Z) (F : lfu_state -> lfu_state) (body : Z -> M unit) : Prop :=
  forall w s, NBuffers (me w) = n -> lfu_mem n (mem w) s ->
    exists m', body buf w = (Ret tt, set_lock None (with_mem m' w)) /\ lfu_mem n m' (F s).

Lemma lfu_insert_rewrites n buf : 0 <= buf < n -> lfu_rewrites n buf (lfu_insert buf) lfu_insert_section.
Proof.
  intros Hb w s Hw Hm. assert (0 <= n) as Hn by lia. unfold lfu_insert_section.
  rewrite (bind_ret _ _ w n w) by (unfold get_me, gets; by rewrite Hw).
  rewrite (bind_ret _ _ _ _ _ (LFUFreq_run w n _ _ _ (lfu_mem_raw _ _ _ Hm) buf Hb)).
  destruct (lfu_take_raw w n s buf Hb Hw Hm) as (m1 & Hrun1 & Hraw1 & Hout).
  rewrite (bind_ret _ _ _ _ _ Hrun1).
  destruct (set_LFUFreq_raw (with_mem m1 w) n _ _ _ Hn Hraw1 buf 1 Hb) as (m2 & Hrun2 & Hraw2).
  rewrite (bind_ret _ _ _ _ _ Hrun2). cbn [with_mem] in *.
  destruct (LFUBucketInsertMRU_raw (with_mem m2 w) n _ _ _ Hn Hw Hraw2 buf 1) as (m3 & Hrun3 & Hraw3);
    [unfold freq_ok, LFU_MAX_FREQ; lia|done|done|].
  change (with_mem m2 (with_mem m1 w)) with (with_mem m2 w).
  rewrite (bind_ret _ _ _ _ _ Hrun3).
  destruct (set_min_freq_raw (with_mem m3 w) n _ _ _ Hn Hraw3 1) as (m4 & Hrun4 & Hraw4).
  change (with_mem m3 (with_mem m2 w)) with (with_mem m3 w).
  rewrite (bind_ret _ _ _ _ _ Hrun4).
  exists m4. split; [done|]. eapply lfu_readd; [done..| | |done]; unfold freq_ok, LFU_MAX_FREQ; lia.
Qed.

Lemma lfu_invalidate_rewrites n buf : 0 <= buf < n -> lfu_rewrites n buf (lfu_invalidate buf) lfu_invalidate_section.
Proof.
  intros Hb w s Hw Hm. assert (0 <= n) as Hn by lia. unfold lfu_invalidate_section.
  rewrite (bind_ret _ _ w n w) by (unfold get_me, gets; by rewrite Hw).
  rewrite (bind_ret _ _ _ _ _ (LFUFreq_run w n _ _ _ (lfu_mem_raw _ _ _ Hm) buf Hb)).
  destruct (lfu_take_raw w n s buf Hb Hw Hm) as (m1 & Hrun1 & Hraw1 & Hout).
  unfold lfu_invalidate. destruct (l_freq s buf =? 0) eqn:Hf0; cbn [negb when] in *.
  { exists (mem w). by rewrite bind_ret_l, with_mem_mem. }
  destruct (set_LFUFreq_raw (with_mem m1 w) n _ _ _ Hn Hraw1 buf 0 Hb) as (m2 & Hrun2 & Hraw2).
  exists m2. split; [|by apply (lfu_drop n (mem w))].
  rewrite (bind_ret _ _ w tt (with_mem m2 w)); [done|].
  by rewrite (bind_ret _ _ _ _ _ Hrun1), Hrun2.
Qed.

(** The test that advances [min_freq] after the buffer left bucket [f]. *)
Lemma lfu_hit_min_raw n w mf freq B f new_f :
  0 <= n -> freq_ok f -> lfu_raw n (mem w) mf freq B ->
  exists m', (forall K : M unit,
      (let* mf := min_freq in
       let* empty := (if f =? mf then LFU_BUCKET_EMPTY n f else ret false) in
       when empty (set_min_freq new_f) ;; K) w = K (with_mem m' w)) /\
    lfu_raw n m' (if (f =? mf) && bool_decide (B f = []) then new_f else mf) freq B.
Proof.
  intros Hn Hf Hraw. destruct (set_min_freq_raw w n mf _ _ Hn Hraw new_f) as (m' & Hrun & Hraw').
  exists (if (f =? mf) && bool_decide (B f = []) then m' else mem w). split.
  - intros K. rewrite (bind_ret _ _ _ _ _ (min_freq_run w n _ _ _ Hraw)).
    destruct (f =? mf); cbn [andb]; [|by rewrite bind_ret_l, with_mem_mem].
    rewrite (bind_ret _ _ _ _ _ (bucket_empty n Hn _ _ _ (lr_buckets _ _ _ _ _ Hraw) Hf)).
    case_bool_decide; cbn [when]; [by rewrite (bind_ret _ _ _ _ _ Hrun)|].
    by rewrite bind_ret_l, with_mem_mem.
  - by destruct ((f =? mf) && bool_decide (B f = [])).
Qed.

Lemma lfu_hit_rewrites n buf : 0 <= buf < n -> lfu_rewrites n buf (lfu_hit buf) lfu_hit_section.
Proof.
  intros Hb w s Hw Hm. assert (0 <= n) as Hn by lia. unfold lfu_hit_section.
  rewrite (bind_ret _ _ w n w) by (unfold get_me, gets; by rewrite Hw).
  rewrite (bind_ret _ _ _ _ _ (LFUFreq_run w n _ _ _ (lfu_mem_raw _ _ _ Hm) buf Hb)).
  destruct (lfu_take_raw w n s buf Hb Hw Hm) as (m1 & Hrun1 & Hraw1 & Hout).
  pose proof (fm_freq_range _ _ _ Hm buf Hb) as Hfr.
  unfold lfu_hit. cbv zeta. set (f := l_freq s buf) in *.
  destruct (Z.eqb_spec f 0) as [Hf0|Hf0]; cbn [negb when] in *.
  { exists (mem w). by rewrite with_mem_mem. }
  assert (freq_ok f) as Hf by (unfold freq_ok; lia).
  set (new_f := if f <? LFU_MAX_FREQ then f + 1 else LFU_MAX_FREQ).
  assert (Z.min (f + 1) LFU_MAX_FREQ = new_f) as -> by (subst new_f; case_match; lia).
  assert (freq_ok new_f) as Hnew by (subst new_f; unfold freq_ok in *; case_match; lia).
  rewrite (bind_ret _ _ _ _ _ Hrun1).
  destruct (lfu_hit_min_raw n (with_mem m1 w) _ _ _ f new_f Hn Hf Hraw1) as (m2 & Hrun2 & Hraw2).
  rewrite (Hrun2 (set_LFUFreq n buf new_f ;; LFUBucketInsertMRU buf new_f ;; SpinLockRelease)).
  pose proof (lfu_take_at s buf Hf0) as Hat. fold f in Hat. rewrite Hat in Hraw2.
  set (mf' := if (f =? l_min s) && _ then new_f else l_min s) in *.
  change (with_mem m2 (with_mem m1 w)) with (with_mem m2 w).
  destruct (set_LFUFreq_raw (with_mem m2 w) n _ _ _ Hn Hraw2 buf new_f Hb) as (m3 & Hrun3 & Hraw3).
  rewrite (bind_ret _ _ _ _ _ Hrun3). change (with_mem m3 (with_mem m2 w)) with (with_mem m3 w).
  destruct (LFUBucketInsertMRU_raw (with_mem m3 w) n _ _ _ Hn Hw Hraw3 buf new_f Hnew Hb Hout)
    as (m4 & Hrun4 & Hraw4).
  rewrite (bind_ret _ _ _ _ _ Hrun4). exists m4. split; [done|].
  apply (lfu_readd n (mem w)); try done.
  pose proof (fm_min_range _ _ _ Hm). subst mf'. unfold freq_ok in Hnew.
  destruct (_ && _); unfold LFU_MAX_FREQ in *; lia.
Qed.

(** ** Notifications under interference *)
Section lfu_notify.
Context (pr : Proto) (Hinv : pr_inv pr = lfu_inv (pr_n pr)) (Hlk : pr_locked pr = true).
Abbreviation n := (pr_n pr).

Definition lfu_notify_post (F : lfu_state -> lfu_state) (w : World) (o : outcome unit)
    (w' : World) : Prop :=
  match o with
  | Ret _ =>
      env_ok pr w' /\ lock_of (shm w') = None /\ me w' = me w /\
      exists w1 s, evolves pr w w1 /\ lfu_mem n (mem w1) s /\ lfu_mem n (mem w') (F s)
  | Spin => True
  | Elog _ | UB _ => False
  end.

Lemma lfu_release w m0 s :
  held pr m0 w -> lfu_mem n (mem w) s -> env_ok pr (set_lock None w).
Proof using Hinv Hlk.
  intros Hh Hm. eapply held_release; [exact Hh|]. rewrite Hinv. by exists s.
Qed.

Lemma lfu_section F w buf (body : Z -> M unit) :
  env_ok pr w -> 0 <= buf < n ->
  lfu_rewrites n buf F body ->
  wp (let* d := deref buf in SpinLockAcquire ;; body (buf_id d)) (lfu_notify_post F w) w.
Proof using Hinv Hlk.
  intros Henv Hb Hbody. destruct (env_desc _ _ _ Henv Hb) as (d & Hd & Hid & _).
  apply wp_bind. eapply wp_deref; [exact Hd|]. cbn [bind_post]. rewrite Hid.
  apply wp_bind, wp_SpinLockAcquire with (pr := pr); [done|done|].
  intros w1 Hev Hi Hfree Henv1. cbn [bind_post]. rewrite Hinv in Hi. destruct Hi as (s & Hm).
  destruct (Hbody (set_lock (Some (pr_proc pr)) w1) s) as (m' & Hrun & Hm'); [apply Henv1|done|].
  eapply wp_eq; [exact Hrun|]. cbn.
  pose proof (held_with_mem _ _ _ m' (held_acquired _ _ _ Hlk Hev Henv1)) as Hheld.
  split; [by eapply lfu_release|]. split; [done|]. split; [apply Hev|]. by exists w1, s.
Qed.

Lemma LFUNotifyInsert_post w buf :
  env_ok pr w -> 0 <= buf < n -> wp (LFUNotifyInsert buf) (lfu_notify_post (lfu_insert buf) w) w.
Proof using Hinv Hlk. intros Henv Hb. by apply (lfu_section _ _ _ lfu_insert_section), lfu_insert_rewrites. Qed.
Lemma LFUNotifyInvalidate_post w buf :
  env_ok pr w -> 0 <= buf < n -> wp (LFUNotifyInvalidate buf) (lfu_notify_post (lfu_invalidate buf) w) w.
Proof using Hinv Hlk. intros Henv Hb. by apply (lfu_section _ _ _ lfu_invalidate_section), lfu_invalidate_rewrites. Qed.
Lemma LFUNotifyHit_post w buf :
  env_ok pr w -> 0 <= buf < n -> wp (LFUNotifyHit buf) (lfu_notify_post (lfu_hit buf) w) w.
Proof using Hinv Hlk. intros Henv Hb. by apply (lfu_section _ _ _ lfu_hit_section), lfu_hit_rewrites. Qed.
End lfu_notify.

(** ** The search under interference *)
Definition with_min (mf : Z) (s : lfu_state) : lfu_state := mkLfu mf (l_freq s) (l_bucket s).

Lemma lfu_mem_min n m s mf :
  lfu_mem n m s -> 1 <= mf <= LFU_MAX_FREQ + 1 -> forall m',
  lfu_raw n m' mf (l_freq s) (l_bucket s) -> lfu_mem n m' (with_min mf s).
Proof. intros [] Hmf m' []. by split. Qed.

(** Setting [min_freq] if the bucket is empty. *)
Lemma lfu_min_if_empty n s w f mf mf' :
  0 <= n -> freq_ok f -> lfu_raw n (mem w) mf (l_freq s) (l_bucket s) ->
  exists m', (forall A (K : M A),
    (let* empty := LFU_BUCKET_EMPTY n f in when empty (set_min_freq mf') ;; K) w =
      K (with_mem m' w)) /\
    lfu_raw n m' (if bool_decide (l_bucket s f = []) then mf' else mf) (l_freq s) (l_bucket s).
Proof.
  intros Hn Hf Hraw.
  destruct (set_min_freq_raw w n mf _ _ Hn Hraw mf') as (m' & Hrun & Hraw').
  exists (if bool_decide (l_bucket s f = []) then m' else mem w). split.
  - intros A K.
    rewrite (bind_ret _ _ _ _ _ (bucket_empty n Hn _ _ _ (lr_buckets _ _ _ _ _ Hraw) Hf)).
    case_bool_decide; cbn [when]; [by rewrite (bind_ret _ _ _ _ _ Hrun)|].
    by rewrite bind_ret_l, with_mem_mem.
  - by case_bool_decide.
Qed.

(** The steps of an eviction after the swap: unlink, reset, adjust [min_freq]. *)
Lemma lfu_evict_run w n s mf buf f :
  0 <= n -> NBuffers (me w) = n -> lfu_mem n (mem w) (with_min mf s) ->
  freq_ok f -> buf ∈ l_bucket s f ->
  exists m' mf', (forall A (K : M A),
      (LFUBucketUnlink buf ;;
       set_LFUFreq n buf 0 ;;
       let* empty := LFU_BUCKET_EMPTY n f in
       when empty (set_min_freq f) ;; K) w = K (with_mem m' w)) /\
    lfu_mem n m' (mkLfu mf' (<[buf := 0]> (l_freq s)) (lfu_take buf s)) /\
    mf' = if bool_decide (lfu_take buf s f = []) then f else mf.
Proof.
  intros Hn Hw Hm Hf Hin.
  destruct (proj1 (fm_member _ _ _ Hm f buf Hf) Hin) as [Hb Hfb]. cbn in Hfb.
  destruct (lfu_take_raw w n _ buf Hb Hw Hm) as (m1 & Hrun1 & Hraw1 & Hout). cbn in Hrun1, Hraw1.
  rewrite (proj2 (Z.eqb_neq (l_freq s buf) 0)) in Hrun1 by (unfold freq_ok in Hf; lia).
  cbn [negb when] in Hrun1. change (lfu_take buf (with_min mf s)) with (lfu_take buf s) in *.
  destruct (set_LFUFreq_raw (with_mem m1 w) n _ _ _ Hn Hraw1 buf 0 Hb) as (m2 & Hrun2 & Hraw2).
  destruct (lfu_min_if_empty n (mkLfu mf (<[buf:=0]> (l_freq s)) (lfu_take buf s))
    (with_mem m2 w) f mf f Hn Hf Hraw2) as (m3 & Hrun3 & Hraw3). cbn [l_bucket l_freq] in Hraw3.
  exists m3, (if bool_decide (lfu_take buf s f = []) then f else mf). split_and!; [|..|done].
  - intros A K. rewrite (bind_ret _ _ _ _ _ Hrun1), (bind_ret _ _ _ _ _ Hrun2). apply Hrun3.
  - eapply (lfu_mem_min _ _ (mkLfu mf _ _)); [|..|exact Hraw3].
    + eapply (lfu_drop n (mem w) m2 (with_min mf s)); [done..|exact Hraw2].
    + pose proof (fm_min_range _ _ _ Hm) as Hmr. cbn in Hmr. unfold freq_ok in Hf.
      case_bool_decide; lia.
Qed.

Section lfu_safety.
Context (pr : Proto) (Hinv : pr_inv pr = lfu_inv (pr_n pr)) (Hlk : pr_locked pr = true).
Abbreviation n := (pr_n pr).
Context (strategy : BufferAccessStrategy) (m0 : Backend) (s : lfu_state).
Hypothesis Hready : ready pr m0.
Hypothesis Hring : ring_ready (pr_n pr) strategy m0.
Hypothesis Hn : 0 <= pr_n pr.

(** Frequencies and buckets stay as they are while the search holds the lock. *)
Definition lfu_searching (w : World) : Prop :=
  held pr m0 w /\ exists mf, lfu_mem n (mem w) (with_min mf s).

Definition lfu_evicted (buf st : Z) (w' : World) : Prop :=
  env_ok pr w' /\ lock_of (shm w') = None /\
  freq_ok (l_freq s buf) /\
  (exists w1, me w1 = m0 /\ claimed pr strategy buf st w1 w') /\
  exists mf, lfu_mem n (mem w') (mkLfu mf (<[buf := 0]> (l_freq s)) (lfu_take buf s)).

Definition lfu_walk_post (o : outcome lfu_walk) (w' : World) : Prop :=
  match o with
  | Ret (Claimed buf st) => lfu_evicted buf st w'
  | Ret _ => lfu_searching w'
  | Spin => True
  | Elog _ | UB _ => False
  end.

Definition lfu_get_post (o : outcome (Z * Z)) (w' : World) : Prop :=
  match o with
  | Ret (buf, st) => lfu_evicted buf st w'
  | Elog _ =>
      env_ok pr w' /\ lock_of (shm w') = None /\ me w' = m0 /\
      exists mf, lfu_mem n (mem w') (with_min mf s)
  | Spin => True
  | UB _ => False
  end.


Lemma lfu_claim (Inv : Z -> World -> Prop) w1 mf f buf d :
  held pr m0 w1 -> lfu_mem n (mem w1) (with_min mf s) -> freq_ok f -> buf ∈ l_bucket s f ->
  desc_at w1 buf d -> buf_id d = buf -> wf_state (state d) ->
  own_ok pr buf (state d) ->
  refcount (state d) = 0 -> flag (state d) BM_LOCKED = false ->
  wp (LFUBucketUnlink buf ;;
      set_LFUFreq n buf 0 ;;
      let* empty := LFU_BUCKET_EMPTY n f in
      when empty (set_min_freq f) ;;
      claim_buffer strategy buf ;;
      SpinLockRelease ;;
      ret (Break (Claimed buf (pinned_word (state d)))))
    (round_post_partial Inv lfu_walk_post)
    (set_desc buf (with_state (pinned_word (state d)) d) w1).
Proof using Hinv Hlk Hready Hring Hn.
  intros Hh Hm Hf Hin Hd Hid Hwf Hpin Hr Hl.
  destruct (proj1 (fm_member _ _ _ Hm f buf Hf) Hin) as [Hb Hfb]. cbn in Hfb.
  destruct (pinned_free _ Hwf Hr) as (Hwf' & Hr' & _).
  assert (held pr m0 (set_desc buf (with_state (pinned_word (state d)) d) w1)) as Hh1.
  { eapply held_set_desc; [done|exact Hd|done|done|]. by eapply own_none, own_free. }
  destruct (lfu_evict_run (set_desc buf (with_state (pinned_word (state d)) d) w1) n s mf buf f Hn)
    as (m' & mf' & Hrun & Hm' & _); [apply Hh1|done|done|done|].
  destruct (claim_buffer_claimed pr strategy w1 buf d m') as (w' & Hrun' & Hcl & Hshm);
    try done; [apply Hh|by rewrite (held_me _ _ _ Hh)|by rewrite (held_me _ _ _ Hh)|].
  eapply wp_eq; [rewrite Hrun; by rewrite (bind_ret _ _ _ _ _ Hrun')|]. cbn.
  pose proof (lfu_release pr Hinv Hlk _ _ _ (held_with_mem _ _ _ m' Hh1) Hm') as Hrel.
  split_and!; [|done|by rewrite Hfb| |].
  - eapply env_same; [exact Hrel|cbn; by rewrite Hshm|cbn; apply Hcl| |];
      destruct (tr_frame _ _ _ (cl_tracked _ _ _ _ _ _ Hcl)); done.
  - exists w1. split; [apply Hh|]. destruct Hcl. by split.
  - exists mf'. unfold mem. cbn. by rewrite Hshm.
Qed.

Lemma lfu_candidate_post f c w :
  freq_ok f -> lfu_searching w -> c = LFU_SENTINEL n f \/ c ∈ l_bucket s f ->
  wp (lfu_candidate_round strategy f c)
    (round_post_partial (fun c w => lfu_searching w /\ (c = LFU_SENTINEL n f \/ c ∈ l_bucket s f))
      lfu_walk_post) w.
Proof using Hinv Hlk Hready Hring Hn.
  intros Hf [Hh [mf Hm]] Hc. unfold lfu_candidate_round.
  assert (NBuffers (me w) = n) as Hw by apply Hh.
  apply wp_bind. eapply wp_eq; [done|]. cbn [bind_post]. rewrite Hw.
  destruct (Z.eqb_spec c (LFU_SENTINEL n f)) as [->|Hne].
  { apply wp_ret. split; [done|]. by exists mf. }
  destruct Hc as [?|Hin]; [done|].
  destruct (proj1 (fm_member _ _ _ Hm f c Hf) Hin) as [Hb Hfb].
  pose proof Hin as (l1 & l2 & HB)%list_elem_of_split.
  apply wp_bind. eapply wp_eq; [by eapply (bucket_next n Hn w); [apply Hm|..]|]. cbn [bind_post].
  unfold GetBufferDescriptor.
  apply wp_bind, wp_pg_atomic_read_u64 with (pr := pr); [apply Hh|done|].
  intros w1 d Hev Hd Hid Hwf Hpin. cbn [bind_post].
  destruct (held_evolves _ _ _ _ Hh Hev) as [Hh1 Hmem1]. rewrite <- Hmem1 in Hm.
  rewrite get_refcount by apply Hwf.
  destruct (flag (state d) BM_LOCKED) eqn:Hl; cbn [orb].
  { apply wp_ret. cbn. split; [split; [done|by exists mf]|].
    destruct (default_head_in (LFU_SENTINEL n f) l2); [by left|right; rewrite HB; set_solver]. }
  destruct (Z.eqb_spec (refcount (state d)) 0) as [Hr0|Hr0]; cbn [negb].
  2: { apply wp_ret. cbn. split; [split; [done|by exists mf]|].
    destruct (default_head_in (LFU_SENTINEL n f) l2); [by left|right; rewrite HB; set_solver]. }
  apply wp_bind, wp_pg_atomic_compare_exchange_u64 with (pr := pr); [apply Hh1|done| |].
  2: { intros w2 d2 Hev2 Hd2 _ _ _ _. cbn [bind_post]. apply wp_ret. cbn.
    destruct (held_evolves _ _ _ _ Hh1 Hev2) as [Hh2 Hmem2].
    split; [done|]. exists mf. by rewrite Hmem2. }
  intros w2 d2 Hev2 Hd2 Hid2 Hst _ Hpin2. cbn [bind_post].
  destruct (held_evolves _ _ _ _ Hh1 Hev2) as [Hh2 Hmem2]. rewrite <- Hst.
  eapply (lfu_claim _ w2 mf); try done; rewrite ?Hst; try done. by rewrite Hmem2.
Qed.

Lemma lfu_bucket_post f w :
  1 <= f -> lfu_searching w ->
  wp (lfu_bucket_round strategy f)
    (round_post_partial (fun f w => 1 <= f /\ lfu_searching w) lfu_walk_post) w.
Proof using Hinv Hlk Hready Hring Hn.
  intros Hf1 [Hh [mf Hm]]. unfold lfu_bucket_round.
  destruct (Z.leb_spec f LFU_MAX_FREQ) as [Hf2|_].
  2: { apply wp_ret. split; [done|]. by exists mf. }
  assert (freq_ok f) as Hf by done.
  assert (NBuffers (me w) = n) as Hw by apply Hh.
  apply wp_bind. eapply wp_eq; [done|]. cbn [bind_post]. rewrite Hw.
  apply wp_bind. eapply wp_eq; [by eapply (bucket_oldest n Hn w); [apply Hm|]|]. cbn [bind_post].
  apply wp_bind.
  eapply wp_mono; [|apply (wp_forever_partial (fun c w => lfu_searching w /\
    (c = LFU_SENTINEL n f \/ c ∈ l_bucket s f)) _ lfu_walk_post)]; [|done| |].
  2: { intros c w' [Hs Hc]. by apply lfu_candidate_post. }
  2: { split; [split; [done|by exists mf]|]. apply default_head_in. }
  intros [[buf st| |]|e|e|] w'; cbn [bind_post lfu_walk_post]; try done.
  intros [Hh' [mf1 Hm1]].
    destruct (lfu_min_if_empty n s w' f mf1 (f + 1) Hn Hf (lfu_mem_raw _ _ _ Hm1)) as (m' & Hrun & Hraw).
    eapply wp_eq; [apply Hrun|]. cbn. split; [lia|]. split; [by apply held_with_mem|].
    eexists. eapply (lfu_mem_min n _ (with_min mf1 s)); [exact Hm1| |exact Hraw].
    pose proof (fm_min_range _ _ _ Hm1) as Hr. cbn in Hr. unfold freq_ok in Hf.
    case_bool_decide; unfold LFU_MAX_FREQ in *; lia.
Qed.

Lemma lfu_round_post u w :
  lfu_searching w ->
  wp (lfu_round strategy u) (round_post_partial (fun _ : unit => lfu_searching) lfu_get_post) w.
Proof using Hinv Hlk Hready Hring Hn.
  intros Hs. pose proof Hs as [Hh [mf Hm]]. unfold lfu_round.
  apply wp_bind. eapply wp_eq; [by apply (min_freq_run w n _ _ _ (lfu_mem_raw _ _ _ Hm))|].
  cbn [bind_post]. apply wp_bind.
  eapply wp_mono; [|apply (wp_forever_partial (fun f w => 1 <= f /\ lfu_searching w) _ lfu_walk_post)];
    [|done| |].
  2: { intros f w' [Hf Hs']. by apply lfu_bucket_post. }
  2: { split; [|done]. apply (fm_min_range _ _ _ Hm). }
  intros [[buf st| |]|e|e|] w'; cbn [bind_post lfu_walk_post]; try done.
  intros [Hh' [mf1 Hm1]]. eapply wp_eq; [done|]. cbn.
    split; [by eapply lfu_release|]. split; [done|]. split; [apply Hh'|]. by exists mf1.
Qed.
End lfu_safety.

Lemma LFUGetBuffer_post pr strategy w :
  pr_inv pr = lfu_inv (pr_n pr) -> pr_locked pr = true ->
  ready pr (me w) -> ring_ready (pr_n pr) strategy (me w) -> 0 <= pr_n pr -> env_ok pr w ->
  wp (LFUGetBuffer strategy) (fun o w' => exists s, lfu_get_post pr strategy (me w) s o w') w.
Proof.
  intros Hinv Hlk Hready Hring Hn Henv. unfold LFUGetBuffer.
  apply wp_bind, wp_SpinLockAcquire with (pr := pr); [done| |].
  { intros w' _. by exists (mkLfu 1 (fun _ => 0) (fun _ => [])). }
  intros w1 Hev Hi Hfree Henv1. cbn [bind_post]. rewrite Hinv in Hi. destruct Hi as (s & Hm).
  eapply wp_mono; [by intros o w' H; exists s; exact H|].
  apply (wp_forever_partial (fun _ : unit => lfu_searching pr (me w) s)); [done| |].
  - intros u w' Hs. by apply lfu_round_post.
  - split; [by apply held_acquired|]. exists (l_min s). by destruct s.
Qed.

(** ** Without interference: which buffer is evicted *)

(** Neither pinned nor locked. *)
Definition free : World -> Z -> bool :=
  desc_is (fun s => negb (flag s BM_LOCKED || negb (refcount s =? 0))).

(** The frequencies that a search from [mf] visits, and the buffers in that order. *)
Definition lfu_freqs (mf : Z) : list Z := seqZ mf (LFU_MAX_FREQ + 1 - mf).
Definition lfu_order (s : lfu_state) : list Z := mjoin (l_bucket s <$> lfu_freqs (l_min s)).

(** [min_freq] after the buckets [fs] were passed in vain. *)
Definition walk_min (B : Z -> list Z) (mf : Z) (fs : list Z) : Z :=
  foldl (fun mf f => if bool_decide (B f = []) then f + 1 else mf) mf fs.

Section lfu_quiet.
Context (n : Z) (strategy : BufferAccessStrategy) (w0 : World) (s : lfu_state).
Hypothesis Hn : 0 <= n.
Hypothesis Hq : quiet w0.
Hypothesis Hw : NBuffers (me w0) = n.
Hypothesis Hdesc : forall x, 0 <= x < n -> exists d, desc_at w0 x d /\ buf_id d = x /\ wf_state (state d).

(** The search is at [w0] with another [min_freq]. *)
Definition at_min (mf : Z) (w : World) : Prop :=
  exists m, w = with_mem m w0 /\ lfu_mem n m (with_min mf s).

Lemma free_at x d : desc_at w0 x d -> free w0 x = negb (flag (state d) BM_LOCKED || negb (refcount (state d) =? 0)).
Proof using Type. intros Hd. unfold free, desc_is, desc_at in *. by rewrite Hd. Qed.

Lemma lfu_candidate_skip w mf f l1 c l2 :
  at_min mf w -> freq_ok f -> l_bucket s f = l1 ++ c :: l2 -> free w0 c = false ->
  lfu_candidate_round strategy f c w = (Ret (Continue (default (LFU_SENTINEL n f) (head l2))), w).
Proof using Hn Hq Hw Hdesc.
  intros (m & -> & Hm) Hf HB Hfree.
  destruct (proj1 (fm_member _ _ _ Hm f c Hf)) as [Hb _]; [cbn; rewrite HB; set_solver|].
  destruct (Hdesc c Hb) as (d & Hd & Hid & Hwf). rewrite (free_at _ _ Hd) in Hfree.
  apply negb_false_iff in Hfree. unfold lfu_candidate_round.
  rewrite (bind_ret _ _ _ n (with_mem m w0)) by (unfold get_me, gets; cbn; by rewrite Hw).
  cbv zeta. rewrite (proj2 (Z.eqb_neq c (LFU_SENTINEL n f))).
  2: { pose proof (sentinel_range n f Hn Hf). lia. }
  rewrite (bind_ret _ _ _ _ _ (bucket_next n Hn (with_mem m w0) _ f _ _ _ (fm_buckets _ _ _ Hm) Hf HB)).
  unfold GetBufferDescriptor.
  rewrite (bind_ret _ _ _ _ _ (read_quiet (with_mem m w0) Hq c d Hd)).
  by rewrite get_refcount, Hfree by apply Hwf.
Qed.

(** The walk passes over [ps], none of which is free. *)
Lemma lfu_pass w mf f ps : forall pre rest k,
  at_min mf w -> freq_ok f -> l_bucket s f = pre ++ ps ++ rest ->
  (forall x, x ∈ ps -> free w0 x = false) ->
  iter_fuel (length ps + k) (lfu_candidate_round strategy f)
      (default (LFU_SENTINEL n f) (head (ps ++ rest))) w =
    iter_fuel k (lfu_candidate_round strategy f) (default (LFU_SENTINEL n f) (head rest)) w.
Proof using Hn Hq Hw Hdesc.
  induction ps as [|x ps IH]; intros pre rest k Hat Hf HB Hall; [done|].
  change (default _ (head ((x :: ps) ++ rest))) with x. cbn [length Nat.add].
  rewrite (iter_continue _ _ _ _ _ _ (lfu_candidate_skip w mf f pre x (ps ++ rest) Hat Hf HB
    ltac:(apply Hall; set_solver))).
  apply (IH (pre ++ [x])); [done|done|by rewrite <- app_assoc|set_solver].
Qed.

Lemma at_min_gas mf w : at_min mf w -> gas (me w) = gas (me w0).
Proof using Type. by intros (m & -> & _). Qed.

(** A bucket without a free buffer. *)
Lemma lfu_bucket_vain w mf f :
  at_min mf w -> freq_ok f -> (length (l_bucket s f) < gas (me w0))%nat ->
  (forall x, x ∈ l_bucket s f -> free w0 x = false) ->
  exists w', lfu_bucket_round strategy f w = (Ret (Continue (f + 1)), w') /\
    at_min (if bool_decide (l_bucket s f = []) then f + 1 else mf) w'.
Proof using Hn Hq Hw Hdesc.
  intros Hat Hf Hgas Hall. pose proof Hat as (m & -> & Hm). unfold lfu_bucket_round.
  rewrite (proj2 (Z.leb_le f LFU_MAX_FREQ)) by (unfold freq_ok in Hf; lia).
  rewrite (bind_ret _ _ _ n (with_mem m w0)) by (unfold get_me, gets; cbn; by rewrite Hw).
  rewrite (bind_ret _ _ _ _ _ (bucket_oldest n Hn (with_mem m w0) _ _ (fm_buckets _ _ _ Hm) Hf)).
  rewrite (bind_ret _ _ _ Exhausted (with_mem m w0)).
  2: { unfold forever. change (gas (me (with_mem m w0))) with (gas (me w0)).
    replace (gas (me w0)) with (length (l_bucket s f) + S (gas (me w0) - length (l_bucket s f) - 1))%nat by lia.
    pose proof (lfu_pass (with_mem m w0) mf f (l_bucket s f) [] [] (S (gas (me w0) - length (l_bucket s f) - 1))
      Hat Hf) as Hpass. cbn [app] in Hpass. rewrite app_nil_r in Hpass. cbn [l_bucket with_min].
    rewrite Hpass by done. apply iter_break. unfold lfu_candidate_round.
    rewrite (bind_ret _ _ _ n (with_mem m w0)) by (unfold get_me, gets; cbn; by rewrite Hw).
    cbv zeta. change (default (LFU_SENTINEL n f) (head [])) with (LFU_SENTINEL n f).
    by rewrite Z.eqb_refl. }
  destruct (lfu_min_if_empty n s (with_mem m w0) f mf (f + 1) Hn Hf (lfu_mem_raw _ _ _ Hm))
    as (m' & Hrun & Hraw).
  rewrite (Hrun _ (ret (Continue (f + 1)))). eexists. split; [reflexivity|].
  exists m'. split; [done|]. eapply (lfu_mem_min n m (with_min mf s)); [done| |exact Hraw].
  pose proof (fm_min_range _ _ _ Hm) as Hr. cbn in Hr. unfold freq_ok in Hf.
  case_bool_decide; lia.
Qed.

(** Buckets [f], ..., [f + k - 1] without a free buffer. *)
Lemma lfu_buckets_vain k : forall w mf f j,
  at_min mf w -> 1 <= f -> f + Z.of_nat k <= LFU_MAX_FREQ + 1 ->
  (forall f', f <= f' < f + Z.of_nat k ->
    (length (l_bucket s f') < gas (me w0))%nat /\
    forall x, x ∈ l_bucket s f' -> free w0 x = false) ->
  exists w', iter_fuel (k + j) (lfu_bucket_round strategy) f w =
      iter_fuel j (lfu_bucket_round strategy) (f + Z.of_nat k) w' /\
    at_min (walk_min (l_bucket s) mf (seqZ f (Z.of_nat k))) w'.
Proof using Hn Hq Hw Hdesc.
  induction k as [|k IH]; intros w mf f j Hat Hf1 Hf2 Hall.
  { exists w. cbn. by rewrite Z.add_0_r. }
  destruct (lfu_bucket_vain w mf f Hat) as (w1 & Hrun & Hat1).
  { unfold freq_ok. lia. } { apply Hall. lia. } { intros x Hx. by eapply (Hall f); [lia|]. }
  destruct (IH w1 _ (f + 1) j Hat1) as (w' & Hrun' & Hat'); [lia|lia| |].
  { intros f' Hf'. apply Hall. lia. }
  exists w'. cbn [Nat.add]. rewrite (iter_continue _ _ _ _ _ _ Hrun), Hrun'.
  rewrite seqZ_cons by lia. replace (Z.pred (Z.of_nat (S k))) with (Z.of_nat k) by lia.
  replace (f + 1 + Z.of_nat k) with (f + Z.of_nat (S k)) by lia. done.
Qed.

Hypothesis Hring : ring_ready n strategy (me w0).
Hypothesis Htrack : forall x, 0 <= x < n -> free w0 x = true -> can_track (me w0) (x + 1).

(** The final state of a search that evicts [v] from bucket [f]. *)
Definition lfu_evicts (v mf' : Z) (st : Z) (w' : World) : Prop :=
  exists d m' mem', desc_at w0 v d /\ refcount (state d) = 0 /\ st = pinned_word (state d) /\
    w' = set_lock None (with_me m' (with_mem mem'
      (set_desc v (with_state st d) w0))) /\
    lfu_mem n mem' (mkLfu mf' (<[v := 0]> (l_freq s)) (lfu_take v s)) /\
    tracked (with_rings (rings_put strategy (v + 1) (rings (me w0))) (me w0)) m' (v + 1).

Lemma lfu_candidate_claim w mf f v :
  at_min mf w -> freq_ok f -> v ∈ l_bucket s f -> free w0 v = true ->
  exists st w', lfu_candidate_round strategy f v w = (Ret (Break (Claimed v st)), w') /\
    lfu_evicts v (if bool_decide (lfu_take v s f = []) then f else mf) st w'.
Proof using Hn Hq Hw Hdesc Hring Htrack.
  intros (m & -> & Hm) Hf Hin Hfree.
  destruct (proj1 (fm_member _ _ _ Hm f v Hf) Hin) as [Hb Hfb].
  destruct (Hdesc v Hb) as (d & Hd & Hid & Hwf). pose proof (Htrack v Hb Hfree) as Hct.
  rewrite (free_at _ _ Hd) in Hfree. apply negb_true_iff in Hfree.
  pose proof Hfree as [Hl Hr]%orb_false_iff. apply negb_false_iff, Z.eqb_eq in Hr.
  set (w1 := set_desc v (with_state (pinned_word (state d)) d) (with_mem m w0)).
  destruct (lfu_evict_run w1 n s mf v f Hn Hw Hm Hf Hin) as (m' & mf' & Hrun & Hm' & ->).
  destruct (claim_buffer_run n (with_mem m' w1) strategy v
    (with_state (pinned_word (state d)) d)) as (me' & Hrun' & Htr);
    [done|by apply (desc_at_set_eq w0 _ d)|done|lia|done|].
  exists (pinned_word (state d)). eexists. split; [|by exists d, me', m'].
  unfold lfu_candidate_round.
  rewrite (bind_ret _ _ _ n (with_mem m w0)) by (unfold get_me, gets; cbn; by rewrite Hw).
  cbv zeta. rewrite (proj2 (Z.eqb_neq v (LFU_SENTINEL n f))).
  2: { pose proof (sentinel_range n f Hn Hf). lia. }
  pose proof Hin as (l1 & l2 & HB)%list_elem_of_split.
  rewrite (bind_ret _ _ _ _ _ (bucket_next n Hn (with_mem m w0) _ f _ _ _ (fm_buckets _ _ _ Hm) Hf HB)).
  unfold GetBufferDescriptor.
  rewrite (bind_ret _ _ _ _ _ (read_quiet (with_mem m w0) Hq v d Hd)).
  rewrite get_refcount, Hfree by apply Hwf.
  rewrite (bind_ret _ _ _ _ _ (cas_quiet (with_mem m w0) Hq v d _ Hd)).
  fold (pinned_word (state d)). fold w1. rewrite Hrun. by rewrite (bind_ret _ _ _ _ _ Hrun').
Qed.

Lemma lfu_bucket_claim w mf f ps v ys :
  at_min mf w -> freq_ok f -> (length (l_bucket s f) < gas (me w0))%nat ->
  l_bucket s f = ps ++ v :: ys -> (forall x, x ∈ ps -> free w0 x = false) -> free w0 v = true ->
  exists st w', lfu_bucket_round strategy f w = (Ret (Break (Claimed v st)), w') /\
    lfu_evicts v (if bool_decide (lfu_take v s f = []) then f else mf) st w'.
Proof using Hn Hq Hw Hdesc Hring Htrack.
  intros Hat Hf Hgas HB Hps Hv. pose proof Hat as (m & -> & Hm).
  destruct (lfu_candidate_claim _ mf f v Hat Hf) as (st & w' & Hrun & Hev); [rewrite HB; set_solver|done|].
  exists st, w'. split; [|done]. unfold lfu_bucket_round.
  rewrite (proj2 (Z.leb_le f LFU_MAX_FREQ)) by (unfold freq_ok in Hf; lia).
  rewrite (bind_ret _ _ _ n (with_mem m w0)) by (unfold get_me, gets; cbn; by rewrite Hw).
  rewrite (bind_ret _ _ _ _ _ (bucket_oldest n Hn (with_mem m w0) _ _ (fm_buckets _ _ _ Hm) Hf)).
  cbn [with_min l_bucket]. rewrite (bind_ret _ _ _ (Claimed v st) w'); [done|].
  unfold forever. change (gas (me (with_mem m w0))) with (gas (me w0)).
  rewrite HB, length_app in Hgas. cbn in Hgas.
  replace (gas (me w0)) with (length ps + S (gas (me w0) - length ps - 1))%nat by lia.
  rewrite HB. rewrite (lfu_pass _ mf f ps [] (v :: ys)) by done. by apply iter_break.
Qed.
End lfu_quiet.

(** What a search does that nobody interferes with. *)
Definition lfu_result (n : Z) (strategy : BufferAccessStrategy) (s : lfu_state) (w : World)
    (res : outcome (Z * Z) * World) : Prop :=
  match first (free w) (lfu_order s) with
  | Some (_, v) =>
      exists st w' mf', res = (Ret (v, st), w') /\ lfu_evicts n strategy w s v mf' st w' /\
        forall x, x ∈ lfu_order s -> free w x = true -> mf' <= l_freq s x
  | None =>
      exists mem', res = (Elog "no unpinned buffers available", set_lock None (with_mem mem' w)) /\
        lfu_mem n mem' (with_min (walk_min (l_bucket s) (l_min s) (lfu_freqs (l_min s))) s)
  end.

Lemma bucket_length n m s f : 0 <= n -> lfu_mem n m s -> freq_ok f -> Z.of_nat (length (l_bucket s f)) <= n.
Proof.
  intros Hn Hm Hf. destruct (fm_buckets _ _ _ Hm) as [(nx & pv & _ & Hdl) Hr _].
  assert (l_bucket s f ⊆+ seqZ 0 n) as Hsub%submseteq_length.
  { apply NoDup_submseteq; [apply (Hdl f Hf)|]. intros x Hx%Hr; [|done]. apply elem_of_seqZ. lia. }
  rewrite length_seqZ in Hsub. lia.
Qed.

Lemma elem_of_freqs mf f : f ∈ lfu_freqs mf <-> mf <= f <= LFU_MAX_FREQ.
Proof. unfold lfu_freqs. rewrite elem_of_seqZ. lia. Qed.

Lemma walk_min_le B fs : forall mf f, mf <= f -> (forall g, g ∈ fs -> g < f) -> walk_min B mf fs <= f.
Proof.
  induction fs as [|g fs IH]; intros mf f Hmf Hfs; [done|]. cbn. apply IH; [|set_solver].
  case_bool_decide; [|done]. specialize (Hfs g ltac:(set_solver)). lia.
Qed.

Section lfu_search.
Context (n : Z) (strategy : BufferAccessStrategy) (s : lfu_state) (w : World).
Hypothesis Hq : quiet w.
Hypothesis Hlock : lock_of (shm w) = None.
Hypothesis Hw : NBuffers (me w) = n.
Hypothesis Hn : 0 <= n.
Hypothesis Hgas : (Z.to_nat n + 1026 < gas (me w))%nat.
Hypothesis Hm : lfu_mem n (mem w) s.
Hypothesis Hdesc : forall x, 0 <= x < n -> exists d, desc_at w x d /\ buf_id d = x /\ wf_state (state d).
Let wl : World := set_lock (Some (MyProcNumber (me w))) w.

Lemma lfu_fits f : freq_ok f -> (length (l_bucket s f) < gas (me wl))%nat.
Proof using Hn Hgas Hm. intros Hf. pose proof (bucket_length _ _ _ _ Hn Hm Hf). cbn. lia. Qed.
Lemma lfu_at_start : at_min n wl s (l_min s) wl.
Proof using Hm.
  exists (mem w). split; [clear; by unfold wl; destruct w as [[] ? ?]|]. by destruct s.
Qed.

(** The search is one round over the buckets. *)
Lemma lfu_one_round r w' :
  forever (lfu_bucket_round strategy) (l_min s) wl = (Ret r, w') ->
  match r with
  | Claimed buf st => LFUGetBuffer strategy w = (Ret (buf, st), w')
  | CasFailed => True
  | Exhausted => LFUGetBuffer strategy w = (Elog "no unpinned buffers available", set_lock None w')
  end.
Proof using Hq Hlock Hgas Hm.
  intros Hr. assert (lfu_round strategy tt wl =
    match r with
    | Claimed buf st => (Ret (Break (buf, st)), w')
    | CasFailed => (Ret (Continue tt), w')
    | Exhausted => (Elog "no unpinned buffers available", set_lock None w')
    end) as Hround.
  { unfold lfu_round. rewrite (bind_ret _ _ _ _ _ (min_freq_run wl n _ _ _ (lfu_mem_raw _ _ _ Hm))).
    rewrite (bind_ret _ _ _ _ _ Hr). by destruct r. }
  unfold LFUGetBuffer. rewrite (bind_ret _ _ _ _ _ (SpinLockAcquire_quiet w Hq Hlock ltac:(lia))).
  fold wl. unfold forever at 1 2. change (gas (me wl)) with (gas (me w)). destruct (gas (me w)) as [|g]; [lia|].
  destruct r; [by apply iter_break|done|by apply iter_elog].
Qed.

Lemma lfu_search_found f fs1 fs2 ps v ys :
  ring_ready n strategy (me w) -> (forall x, 0 <= x < n -> free w x = true -> can_track (me w) (x + 1)) ->
  lfu_freqs (l_min s) = fs1 ++ f :: fs2 -> l_bucket s f = ps ++ v :: ys -> free w v = true ->
  (forall x, x ∈ ps -> free w x = false) -> (forall f' x, f' ∈ fs1 -> x ∈ l_bucket s f' -> free w x = false) ->
  exists st w' mf', LFUGetBuffer strategy w = (Ret (v, st), w') /\ lfu_evicts n strategy w s v mf' st w' /\ mf' <= f.
Proof using Hq Hlock Hw Hn Hgas Hm Hdesc.
  intros Hring Htrack Hfs HB Hv Hps Hvain. pose proof (fm_min_range _ _ _ Hm) as Hmf. unfold LFU_MAX_FREQ in Hmf.
  apply seqZ_split in Hfs as (Hfeq & Hfs1 & Hlt). unfold LFU_MAX_FREQ in Hlt.
  assert (freq_ok f) as Hfok by (unfold freq_ok, LFU_MAX_FREQ; lia). set (k := length fs1) in *.
  destruct (lfu_buckets_vain n strategy wl s Hn Hq Hw Hdesc k wl (l_min s) (l_min s)
    (S (gas (me w) - k - 1)) lfu_at_start) as (w1 & Hrun1 & Hat1); [lia|unfold LFU_MAX_FREQ; lia| |].
  { intros f' Hf'. split; [apply lfu_fits; unfold freq_ok, LFU_MAX_FREQ; lia|].
    intros x Hx. apply (Hvain f' x); [|done]. rewrite Hfs1. apply elem_of_seqZ. lia. }
  rewrite <- Hfeq in Hrun1.
  destruct (lfu_bucket_claim n strategy wl s Hn Hq Hw Hdesc Hring Htrack w1 _ f ps v ys Hat1 Hfok
    (lfu_fits f Hfok) HB Hps Hv) as (st & w' & Hrun2 & Hev).
  exists st, w'. eexists. split; [apply (lfu_one_round (Claimed v st))|split].
  - unfold forever. change (gas (me wl)) with (gas (me w)).
    replace (gas (me w)) with (k + S (gas (me w) - k - 1))%nat by lia. rewrite Hrun1. by apply iter_break.
  - destruct Hev as (d & m' & mem' & Hd & Hr & Hst & -> & Hrest). by exists d, m', mem'.
  - case_bool_decide; [lia|]. apply walk_min_le; [lia|]. intros g Hg%elem_of_seqZ. lia.
Qed.

Lemma lfu_search_vain :
  (forall x, x ∈ lfu_order s -> free w x = false) ->
  exists mem', LFUGetBuffer strategy w = (Elog "no unpinned buffers available", set_lock None (with_mem mem' w)) /\
    lfu_mem n mem' (with_min (walk_min (l_bucket s) (l_min s) (lfu_freqs (l_min s))) s).
Proof using Hq Hlock Hw Hn Hgas Hm Hdesc.
  intros Hall. pose proof (fm_min_range _ _ _ Hm) as Hmf. unfold LFU_MAX_FREQ in Hmf.
  set (k := Z.to_nat (LFU_MAX_FREQ + 1 - l_min s)).
  destruct (lfu_buckets_vain n strategy wl s Hn Hq Hw Hdesc k wl (l_min s) (l_min s)
    (S (gas (me w) - k - 1)) lfu_at_start) as (w1 & Hrun1 & Hat1); [lia|unfold k, LFU_MAX_FREQ; lia| |].
  { intros f' Hf'. unfold k, LFU_MAX_FREQ in Hf'.
    split; [apply lfu_fits; unfold freq_ok, LFU_MAX_FREQ; lia|].
    intros x Hx. apply Hall. apply list_elem_of_join. exists (l_bucket s f'). split; [done|].
    apply list_elem_of_fmap_2, elem_of_freqs. unfold LFU_MAX_FREQ. lia. }
  replace (Z.of_nat k) with (LFU_MAX_FREQ + 1 - l_min s) in * by (unfold k, LFU_MAX_FREQ; lia).
  destruct Hat1 as (m1 & -> & Hm1). exists m1. split; [|done].
  apply (lfu_one_round Exhausted (with_mem m1 wl)). unfold forever. change (gas (me wl)) with (gas (me w)).
  replace (gas (me w)) with (k + S (gas (me w) - k - 1))%nat by (unfold k, LFU_MAX_FREQ; lia).
  rewrite Hrun1. apply iter_break. unfold lfu_bucket_round. by rewrite (proj2 (Z.leb_gt _ _)) by lia.
Qed.
End lfu_search.

Lemma LFUGetBuffer_search n strategy s w :
  quiet w -> lock_of (shm w) = None -> NBuffers (me w) = n -> 0 <= n ->
  (Z.to_nat n + 1026 < gas (me w))%nat -> lfu_mem n (mem w) s ->
  (forall x, 0 <= x < n -> exists d, desc_at w x d /\ buf_id d = x /\ wf_state (state d)) ->
  ring_ready n strategy (me w) ->
  (forall x, 0 <= x < n -> free w x = true -> can_track (me w) (x + 1)) ->
  lfu_result n strategy s w (LFUGetBuffer strategy w).
Proof.
  intros Hq Hlock Hw Hn Hgas Hm Hdesc Hring Htrack. unfold lfu_result.
  destruct (first (free w) (lfu_order s)) as [[xs v]|] eqn:Hf.
  - apply first_join in Hf as (fs1 & f & fs2 & ps & ys & Hfs & HB & Hv & Hps & Hvain).
    destruct (lfu_search_found n strategy s w Hq Hlock Hw Hn Hgas Hm Hdesc f fs1 fs2 ps v ys Hring Htrack Hfs HB Hv Hps Hvain)
      as (st & w' & mf' & Hrun & Hev & Hle).
    exists st, w', mf'. split; [done|]. split; [done|]. intros x Hin Hfree.
    unfold lfu_order in Hin. apply list_elem_of_join in Hin as (l & Hx & (g & -> & Hg)%list_elem_of_fmap).
    assert (freq_ok g) as Hgok by (apply elem_of_freqs in Hg; pose proof (fm_min_range _ _ _ Hm); unfold freq_ok; lia).
    apply (fm_member _ _ _ Hm g x Hgok) in Hx as Hx'. destruct Hx' as [_ ->].
    apply seqZ_split in Hfs as (Hfeq & Hfs1 & _). destruct (decide (g < f)) as [Hlt|]; [|lia].
    rewrite (Hvain g x) in Hfree; [done| |done]. rewrite Hfs1. apply elem_of_seqZ. apply elem_of_freqs in Hg. lia.
  - apply lfu_search_vain; try done. intros x. by apply first_None.
Qed.

(** C11. Without interference [LFUGetBuffer] evicts the first buffer that is neither
    pinned nor header-locked in the order of increasing frequency from [min_freq]
    on, least recently used first within a frequency; it takes it out of its
    bucket and pins it.  When there is none it raises the error with the lock
    released and the buckets unchanged. *)
Theorem LFUGetBuffer_run n strategy s w :
  quiet w -> lock_of (shm w) = None -> NBuffers (me w) = n -> 0 <= n ->
  (Z.to_nat n + 1026 < gas (me w))%nat -> lfu_mem n (mem w) s ->
  (forall x, 0 <= x < n -> exists d, desc_at w x d /\ buf_id d = x /\ wf_state (state d)) ->
  ring_ready n strategy (me w) ->
  (forall x, 0 <= x < n -> free w x = true -> can_track (me w) (x + 1)) ->
  lfu_result n strategy s w (LFUGetBuffer strategy w).
Proof. apply LFUGetBuffer_search. Qed.

(** ** Initial state *)
Definition lfu_words (n : Z) : Z := 2 + n + 2 * (n + LFU_MAX_FREQ).

Section lfu_init.
Context (n : Z) (Hn : 0 < n).
Abbreviation len := (n + LFU_MAX_FREQ).

(** The three arrays, whatever they hold. *)
Definition arrays (m : list Z) (freq nx pv : Z -> Z) : Prop :=
  arr m LFUFreq_base n freq /\ links (LFUNext_base n) (LFUPrev_base n) len m nx pv.

(** [prog] sets the arrays and leaves the two words before them alone. *)
Definition inits (prog : M unit) (w : World) (freq nx pv : Z -> Z) : Prop :=
  exists m', prog w = (Ret tt, with_mem m' w) /\ arrays m' freq nx pv /\
    lookupZ m' 0 = lookupZ (mem w) 0 /\ lookupZ m' 1 = lookupZ (mem w) 1.

Lemma inits_seq p1 p2 w f1 n1 v1 f2 n2 v2 :
  inits p1 w f1 n1 v1 -> (forall m, arrays m f1 n1 v1 -> inits p2 (with_mem m w) f2 n2 v2) ->
  inits (p1 ;; p2) w f2 n2 v2.
Proof using Type.
  intros (m1 & Hrun1 & Ha1 & H01 & H11) H2. destruct (H2 _ Ha1) as (m2 & Hrun2 & Ha2 & H02 & H12).
  exists m2. rewrite (bind_ret _ _ _ _ _ Hrun1). split_and!; [exact Hrun2|done|..].
  - by rewrite H02, mem_with_mem.
  - by rewrite H12, mem_with_mem.
Qed.

Lemma inits_ext p w f1 n1 v1 f2 n2 v2 :
  inits p w f1 n1 v1 ->
  (forall i, 0 <= i < n -> f1 i = f2 i) ->
  (forall i, 0 <= i < len -> n1 i = n2 i /\ v1 i = v2 i) ->
  inits p w f2 n2 v2.
Proof using Type.
  intros (m & Hrun & (Hf & Hnx & Hpv) & H0 & H1) Hef Hel. exists m. split_and!; try done.
  split; [|split]; intros i Hi.
  - rewrite <- Hef by done. by apply Hf.
  - destruct (Hel i Hi) as [<- _]. by apply Hnx.
  - destruct (Hel i Hi) as [_ <-]. by apply Hpv.
Qed.

Lemma inits_freq w freq nx pv i v :
  arrays (mem w) freq nx pv -> 0 <= i < n -> inits (set_LFUFreq n i v) w (<[i := v]> freq) nx pv.
Proof using Hn.
  intros (Hf & Hnx & Hpv) Hi. unfold LFUPrev_base, LFUNext_base, LFUFreq_base, LFU_MAX_FREQ in *.
  eexists. split; [by eapply wr_arr_run|]. split; [split; [|split]|split].
  - by apply arr_insert_eq.
  - apply arr_insert_ne; [done|]. unfold LFUNext_base, LFUFreq_base. lia.
  - apply arr_insert_ne; [done|].
    unfold LFUPrev_base, LFUNext_base, LFUFreq_base, LFU_MAX_FREQ. lia.
  - apply lookupZ_insertZ_ne. unfold LFUFreq_base. lia.
  - apply lookupZ_insertZ_ne. unfold LFUFreq_base. lia.
Qed.

Lemma inits_relink p w freq nx' pv' :
  arr (mem w) LFUFreq_base n freq ->
  relinks (LFUNext_base n) (LFUPrev_base n) len p w nx' pv' -> inits p w freq nx' pv'.
Proof using Hn.
  intros Hf (m' & Hrun & Hl & [_ Hout]). unfold LFUNext_base in Hout.
  exists m'. split; [done|]. split; [split; [|done]|split].
  - intros i Hi. rewrite Hout by (unfold LFUFreq_base; lia). by apply Hf.
  - apply Hout. unfold LFUFreq_base. lia.
  - apply Hout. unfold LFUFreq_base. lia.
Qed.

Lemma inits_next w freq nx pv i v :
  arrays (mem w) freq nx pv -> 0 <= i < len -> inits (set_LFUNext n i v) w freq (<[i := v]> nx) pv.
Proof using Hn.
  intros (Hf & Hl) Hi. apply inits_relink; [done|]. apply relinks_nx; [apply lfu_disj|done..].
Qed.
Lemma inits_prev w freq nx pv i v :
  arrays (mem w) freq nx pv -> 0 <= i < len -> inits (set_LFUPrev n i v) w freq nx (<[i := v]> pv).
Proof using Hn.
  intros (Hf & Hl) Hi. apply inits_relink; [done|]. apply relinks_pv; [apply lfu_disj|done..].
Qed.

(** Empty buckets. *)
Lemma init_sentinels k : forall lo w freq nx pv,
  arrays (mem w) freq nx pv -> 1 <= lo -> lo + Z.of_nat k <= LFU_MAX_FREQ + 1 ->
  inits (for_upto k lo (fun i =>
      let s := LFU_SENTINEL n i in set_LFUNext n s s ;; set_LFUPrev n s s)) w freq
    (fun x => if in_range (LFU_SENTINEL n lo) (Z.of_nat k) x then x else nx x)
    (fun x => if in_range (LFU_SENTINEL n lo) (Z.of_nat k) x then x else pv x).
Proof using Hn.
  induction k as [|k IH]; intros lo w freq nx pv Ha Hlo Hhi.
  - exists (mem w). cbn [for_upto]. rewrite with_mem_mem. split; [done|]. split; [|done].
    destruct Ha as (Hf & Hnx & Hpv). split; [done|].
    split; intros i Hi; rewrite in_range_nil; auto.
  - cbn [for_upto]. assert (0 <= LFU_SENTINEL n lo < len) as Hs by (unfold LFU_SENTINEL; lia).
    eapply inits_seq.
    { cbv zeta. eapply inits_seq; [by apply inits_next|]. intros m1 Ha1. by apply inits_prev. }
    intros m2 Ha2. eapply inits_ext; [apply IH; [exact Ha2|lia|lia]|done|].
    intros i Hi. cbn beta. rewrite Nat2Z.inj_succ.
    replace (LFU_SENTINEL n (lo + 1)) with (LFU_SENTINEL n lo + 1) by (unfold LFU_SENTINEL; lia).
    destruct (decide (i = LFU_SENTINEL n lo)) as [->|Hne].
    + by rewrite !fn_lookup_insert, in_range_here, in_range_past by lia.
    + by rewrite !fn_lookup_insert_ne, in_range_step by done.
Qed.

(** Bucket 1 with every buffer. *)
Lemma init_bucket k : forall lo w freq nx pv,
  arrays (mem w) freq nx pv -> 0 <= lo -> lo + Z.of_nat k <= n ->
  inits (for_upto k lo (fun i =>
      set_LFUFreq n i 1 ;;
      set_LFUNext n i (if i <? n - 1 then i + 1 else LFU_SENTINEL n 1) ;;
      set_LFUPrev n i (if 0 <? i then i - 1 else LFU_SENTINEL n 1))) w
    (fun x => if in_range lo (Z.of_nat k) x then 1 else freq x)
    (fun x => if in_range lo (Z.of_nat k) x then init_next n x else nx x)
    (fun x => if in_range lo (Z.of_nat k) x then init_prev n x else pv x).
Proof using Hn.
  induction k as [|k IH]; intros lo w freq nx pv Ha Hlo Hhi.
  - exists (mem w). cbn [for_upto]. rewrite with_mem_mem. split; [done|]. split; [|done].
    destruct Ha as (Hf & Hnx & Hpv).
    split; [|split]; intros i Hi; rewrite in_range_nil; auto.
  - cbn [for_upto]. assert (0 <= lo < len) as Hs by (unfold LFU_MAX_FREQ; lia).
    eapply inits_seq.
    { eapply inits_seq; [apply inits_freq; [done|lia]|]. intros m1 Ha1.
      eapply inits_seq; [by apply inits_next|]. intros m2 Ha2. by apply inits_prev. }
    intros m3 Ha3. eapply inits_ext; [apply IH; [exact Ha3|lia|lia]|..];
      intros i Hi; cbn beta; rewrite Nat2Z.inj_succ; destruct (decide (i = lo)) as [->|Hne].
    + by rewrite fn_lookup_insert, in_range_here, in_range_past by lia.
    + by rewrite fn_lookup_insert_ne, in_range_step by done.
    + rewrite !fn_lookup_insert, in_range_here, in_range_past by lia.
      unfold init_next, init_prev, LFU_SENTINEL. by replace (n + 1 - 1) with n by lia.
    + by rewrite !fn_lookup_insert_ne, in_range_step by done.
Qed.
End lfu_init.

(** Every buffer in bucket 1. *)
Definition lfu_start (n : Z) : lfu_state :=
  mkLfu 1 (fun x => if in_range 0 n x then 1 else 0)
    (fun f => if f =? 1 then seqZ 0 n else []).

Lemma start_buckets n m freq nx pv :
  0 < n -> arrays n m freq nx pv ->
  (forall x, 0 <= x < n -> nx x = init_next n x /\ pv x = init_prev n x) ->
  nx n = n - 1 -> pv n = 0 ->
  (forall x, n < x < n + LFU_MAX_FREQ -> nx x = x /\ pv x = x) ->
  buckets n m (l_bucket (lfu_start n)).
Proof.
  intros Hn (_ & Hl) Hin Hnn Hpn Hs. split; cbn.
  - exists nx, pv. split; [done|]. intros f Hf. destruct (Z.eqb_spec f 1) as [->|Hne].
    + replace (LFU_SENTINEL n 1) with n by (unfold LFU_SENTINEL; lia).
      assert (seqZ 0 n = 0 :: seqZ 1 (n - 1)) as Hcons.
      { rewrite seqZ_cons by lia. do 2 f_equal; lia. }
      split.
      * rewrite Hnn, (seqZ_S_end n) by lia. by rewrite last_snoc.
      * by rewrite Hpn, Hcons.
      * replace (seqZ 0 n) with (seqZ 0 (Z.of_nat (Z.to_nat n))) by (f_equal; lia).
        apply fwd_init; [|lia]. intros i Hi. by apply Hin.
      * rewrite Hcons. cbn [bwd]. split; [by rewrite (proj2 (Hin 0 ltac:(lia)))|].
        change (bwd pv (seqZ 1 (n - 1)) (1 - 1)).
        replace (seqZ 1 (n - 1)) with (seqZ 1 (Z.of_nat (Z.to_nat (n - 1)))) by (f_equal; lia).
        apply (bwd_init n); [|lia|lia]. intros i Hi. apply Hin. lia.
      * apply NoDup_seqZ.
      * rewrite elem_of_seqZ. lia.
    + destruct (Hs (LFU_SENTINEL n f)) as [H1 H2]; [unfold LFU_SENTINEL, freq_ok in *; lia|].
      split; try done; [constructor|set_solver].
  - intros f x Hf. case_match; [|set_solver]. rewrite elem_of_seqZ. lia.
  - intros f f' x Hf Hf'. destruct (Z.eqb_spec f 1), (Z.eqb_spec f' 1); set_solver by lia.
Qed.

Lemma lfu_start_mem n m freq nx pv :
  0 < n -> lookupZ m 0 = Some 1 -> lookupZ m 1 = Some 0 -> arrays n m freq nx pv ->
  (forall x, 0 <= x < n -> freq x = 1) -> buckets n m (l_bucket (lfu_start n)) -> lfu_mem n m (lfu_start n).
Proof.
  intros Hn H0 H1 Ha Hf Hb. split; cbn [lfu_start l_min l_freq l_bucket]; [done|done| |done|..].
  - intros i Hi. rewrite (proj1 Ha i Hi), Hf by done. by rewrite in_range_true by lia.
  - intros f x Hfo. destruct (Z.eqb_spec f 1) as [->|Hne].
    + rewrite elem_of_seqZ. split; [intros Hx; split; [lia|by rewrite in_range_true by lia]|lia].
    + split; [by intros Hx%elem_of_nil|]. intros [Hx Hf1]. rewrite in_range_true in Hf1 by lia. done.
  - intros x Hx. rewrite in_range_true by lia. unfold LFU_MAX_FREQ. lia.
  - unfold LFU_MAX_FREQ. lia.
Qed.

Lemma LFUInitialize_run w n :
  0 < n -> NBuffers (me w) = n -> lfu_words n <= Z.of_nat (length (mem w)) ->
  exists m', LFUInitialize false w = (Ret tt, with_mem m' w) /\ lfu_mem n m' (lfu_start n).
Proof.
  intros Hn Hw Hlen. unfold lfu_words, LFU_MAX_FREQ in Hlen. unfold LFUInitialize. cbn [negb].
  rewrite (bind_ret _ _ w n w) by (unfold get_me, gets; by rewrite Hw).
  destruct (lookupZ_lt (mem w) 0) as [v0 Hv0]; [lia|].
  destruct (lookupZ_lt (mem w) 1) as [v1 Hv1]; [lia|].
  unfold set_min_freq. rewrite (bind_ret _ _ _ _ _ (wr_word_run _ _ 1 _ Hv0)).
  set (w1 := with_mem (insertZ 0 1 (mem w)) w).
  assert (lookupZ (mem w1) 1 = Some v1) as Hv1' by (subst w1; by rewrite mem_with_mem, lookupZ_insertZ_ne).
  rewrite (bind_ret _ _ _ _ _ (wr_word_run _ _ 0 _ Hv1')).
  set (w2 := with_mem (insertZ 1 0 (mem w1)) w1). cbv zeta.
  assert (length (mem w2) = length (mem w)) as Hlen2.
  { subst w2 w1. by rewrite !mem_with_mem, !length_insertZ. }
  assert (arrays n (mem w2)
    (fun i => default 0 (lookupZ (mem w2) (LFUFreq_base + i)))
    (fun i => default 0 (lookupZ (mem w2) (LFUNext_base n + i)))
    (fun i => default 0 (lookupZ (mem w2) (LFUPrev_base n + i)))) as Ha.
  { unfold LFUPrev_base, LFUNext_base, LFUFreq_base, LFU_MAX_FREQ.
    split; [|split]; apply arr_any; unfold LFUNext_base, LFUFreq_base, LFU_MAX_FREQ; lia. }
  assert (0 <= LFU_SENTINEL n 1 < n + LFU_MAX_FREQ) as Hs by (unfold LFU_SENTINEL, LFU_MAX_FREQ; lia).
  destruct (inits_seq n _ _ w2 _ _ _ _ _ _
    (init_sentinels n Hn (Z.to_nat LFU_MAX_FREQ) 1 w2 _ _ _ Ha ltac:(lia) ltac:(unfold LFU_MAX_FREQ; lia))
    (fun m3 Ha3 => inits_seq n _ _ (with_mem m3 w2) _ _ _ _ _ _
      (inits_next n Hn (with_mem m3 w2) _ _ _ _ (n - 1) Ha3 Hs)
      (fun m4 Ha4 => inits_seq n _ _ (with_mem m4 w2) _ _ _ _ _ _
        (inits_prev n Hn (with_mem m4 w2) _ _ _ _ 0 Ha4 Hs)
        (fun m5 Ha5 => init_bucket n Hn (Z.to_nat n) 0 (with_mem m5 w2) _ _ _ Ha5 ltac:(lia) ltac:(lia)))))
    as (m' & Hrun & Ha' & H0 & H1).
  exists m'. split; [exact Hrun|]. rewrite !Z2Nat.id in Ha' by (unfold LFU_MAX_FREQ; lia).
  replace (LFU_SENTINEL n 1) with n in Ha' by (unfold LFU_SENTINEL; lia).
  eapply lfu_start_mem; [done| | |exact Ha'|..]; cbn beta.
  - rewrite H0. subst w2 w1. rewrite !mem_with_mem, lookupZ_insertZ_ne by done.
    apply lookupZ_insertZ_eq. lia.
  - rewrite H1. subst w2. rewrite mem_with_mem, lookupZ_insertZ_eq; [done|].
    subst w1. rewrite mem_with_mem, length_insertZ. lia.
  - intros i Hi. by rewrite in_range_true by lia.
  - eapply start_buckets; [done|exact Ha'|..]; cbn beta.
    + intros x Hx. by rewrite in_range_true by lia.
    + rewrite in_range_false by lia. apply fn_lookup_insert.
    + rewrite in_range_false by lia. apply fn_lookup_insert.
    + intros x Hx. rewrite !in_range_false by lia. rewrite !fn_lookup_insert_ne by lia.
      by rewrite in_range_true by lia.
Qed.

(** A new pool: all frequencies are one, buffer 0 is pinned. *)
Lemma LFUGetBuffer_run_witness :
  exists m, let w := sample_world LFUVtable m [] in
    lfu_mem 3 (mem w) (lfu_start 3) /\ lfu_result 3 (Some 0) (lfu_start 3) w (LFUGetBuffer (Some 0) w).
Proof.
  destruct (LFUInitialize_run (sample_world LFUVtable (replicate 2059 0) []) 3) as (m & _ & Hm);
    [lia|done|vm_compute; discriminate|].
  exists m. cbn zeta. split; [done|]. apply LFUGetBuffer_run; try done.
  - apply Nat.ltb_lt. vm_compute. reflexivity.
  - intros x Hx. destruct (sample_desc_at LFUVtable m [] x Hx) as (d & (Hd & Hid & Hwf & _) & _). by exists d.
  - by apply sample_ring_ready.
  - intros x _ _. apply sample_can_track.
Defined.
