(* ===== verification/Policy.v ===== *)
(** * The eviction policies behind their table of functions

    [EvictionVtable] and the four tables of [freelist.c] (lines 107-187), what a
    policy promises to the code that calls it through its table ([PolicyLaws]),
    and that the four policies keep that promise. *)
From S2P Require Import Prelude BufState BufTag Shmem Concurrency PrivateRefCount Ring Sample DList Sweep ClockSweep Sieve Lru Lfu.

Record EvictionVtable := mkEvictionVtable {
  get_buffer : BufferAccessStrategy -> M (Z * Z);
  notify_hit : option (Z -> M unit);
  notify_insert : option (Z -> M unit);
  notify_invalidate : option (Z -> M unit);
  shmem_size : Z -> Z;
  initialize : bool -> M unit
}.

Definition vtable (p : EvictionVtablePtr) : EvictionVtable :=
  match p with
  | ClockSweepVtable =>
      mkEvictionVtable ClockSweepGetBuffer None None None ClockSweepShmemSize ClockSweepInitialize
  | SieveVtable =>
      mkEvictionVtable SieveGetBuffer None (Some SieveNotifyInsert) (Some SieveNotifyInvalidate)
        SieveShmemSize SieveInitialize
  | LFUVtable =>
      mkEvictionVtable LFUGetBuffer (Some LFUNotifyHit) (Some LFUNotifyInsert)
        (Some LFUNotifyInvalidate) LFUShmemSize LFUInitialize
  | LRUVtable =>
      mkEvictionVtable LRUGetBuffer (Some LRUNotifyHit) (Some LRUNotifyInsert)
        (Some LRUNotifyInvalidate) LRUShmemSize LRUInitialize
  end.

(** ** The contract *)

(** A search for a victim: a buffer that nobody had pinned is now pinned by us
    and by nobody else, in shared memory, in our private count, in our resource
    owner and in the ring; or an error that leaves us as we were.  In both cases
    the strategy lock is not ours. *)
Definition policy_get_post (pr : Proto) (strategy : BufferAccessStrategy) (m0 : Backend)
    (o : outcome (Z * Z)) (w' : World) : Prop :=
  match o with
  | Ret (buf, st) =>
      env_ok pr w' /\ lock_of (shm w') <> Some (pr_proc pr) /\
      exists w1, me w1 = m0 /\ claimed pr strategy buf st w1 w'
  | Elog _ => outside pr m0 w'
  | Spin => True
  | UB _ => False
  end.

(** A hook changes nothing but the words of the policy. *)
Definition hook_post (pr : Proto) (m0 : Backend) (o : outcome unit) (w' : World) : Prop :=
  match o with
  | Ret _ => outside pr m0 w'
  | Spin => True
  | Elog _ | UB _ => False
  end.

Definition hook_ok (pr : Proto) (h : option (Z -> M unit)) : Prop :=
  forall f w buf, h = Some f -> outside pr (me w) w -> 0 <= buf < pr_n pr ->
    wp (f buf) (hook_post pr (me w)) w.

(** The word of [bgw_sync_seq]. *)
Definition seq_word (p : EvictionVtablePtr) : option Z :=
  match p with
  | ClockSweepVtable => None
  | SieveVtable | LFUVtable => Some 1
  | LRUVtable => Some 0
  end.

(** Numbers of buffers for which the sizes fit. *)
Definition sized (n : Z) : Prop := 0 < n < 2 ^ 30 - 1024.

Class PolicyLaws (p : EvictionVtablePtr) := {
  pol_inv : Z -> list Z -> Prop;
  pol_locked : bool;
  pol_words : Z -> Z;
  (** The search and the hooks keep the contract. *)
  pol_get : forall pr strategy w,
    pr_inv pr = pol_inv (pr_n pr) -> pr_locked pr = pol_locked -> sized (pr_n pr) ->
    ready pr (me w) -> ring_ready (pr_n pr) strategy (me w) -> outside pr (me w) w ->
    wp (get_buffer (vtable p) strategy) (policy_get_post pr strategy (me w)) w;
  pol_hooks : forall pr h,
    pr_inv pr = pol_inv (pr_n pr) -> pr_locked pr = pol_locked ->
    h = notify_hit (vtable p) \/ h = notify_insert (vtable p) \/ h = notify_invalidate (vtable p) ->
    hook_ok pr h;
  (** Initialisation needs as many words as the size function asks for. *)
  pol_size : forall n, sized n -> shmem_size (vtable p) n = 4 * pol_words n;
  pol_init : forall w n, sized n -> NBuffers (me w) = n -> pol_words n <= Z.of_nat (length (mem w)) ->
    exists m', initialize (vtable p) false w = (Ret tt, with_mem m' w) /\ pol_inv n m';
  (** The counter of the background writer is no part of the invariant. *)
  pol_first : forall n m, pol_inv n m -> is_Some (lookupZ m 0);
  pol_seq : forall n m a, 0 <= n -> pol_inv n m -> seq_word p = Some a ->
    is_Some (lookupZ m a) /\ forall v, pol_inv n (insertZ a v m)
}.
Arguments pol_inv p {_}.
Arguments pol_locked p {_}.
Arguments pol_words p {_}.

Lemma hook_none pr : hook_ok pr None.
Proof. by intros f w buf [=]. Qed.

(** The posts of the policies that hold the lock imply the contract's. *)
Lemma released pr m0 w : env_ok pr w -> lock_of (shm w) = None -> me w = m0 -> outside pr m0 w.
Proof. intros He Hl Hm. split_and!; [done|by rewrite Hl|done]. Qed.

Ltac hook_of post :=
  intros f w buf [= <-] (He & _) Hb; eapply wp_mono; [|by apply post];
  intros [[]|e|e|] w'; cbn; try done; intros (? & ? & ? & _); by apply released.

#[export] Instance clock_laws : PolicyLaws ClockSweepVtable.
Proof.
  refine {| pol_inv := fun _ => clock_inv; pol_locked := false; pol_words := fun _ => 1 |}.
  - intros pr strategy w Hinv Hlk Hn Hready Hring Hout. unfold sized in Hn.
    eapply wp_mono; [|apply ClockSweepGetBuffer_post; try done; lia].
    intros [[buf st]|e|e|] w'; cbn; try done. intros (? & ? & _ & w1 & ?). by eauto.
  - intros pr h _ _ [-> | [-> | ->]]; apply hook_none.
  - done.
  - intros w n _ _ Hlen. destruct (lookupZ_lt (mem w) 0) as [v Hv]; [lia|]. eexists. cbn.
    split; [by apply (wr_word_run _ _ _ v)|]. exists 0. split; [|lia].
    by eapply lookupZ_insertZ_eq, lookupZ_Some.
  - intros n m (h & Hh & _). by exists h.
  - done.
Defined.

#[export] Instance sieve_laws : PolicyLaws SieveVtable.
Proof.
  refine {| pol_inv := sieve_inv; pol_locked := true; pol_words := sieve_words |}.
  - intros pr strategy w Hinv Hlk Hn Hready Hring Hout. unfold sized in Hn.
    eapply wp_mono; [|apply SieveGetBuffer_post; try done; [lia|apply Hout]].
    intros [[buf st]|e|e|] w' [l H]; cbn in *; try done.
    + destruct H as (He & Hl & _ & w1 & _ & _ & _ & Hm & Hcl & _).
      split; [done|]. split; [by rewrite Hl|by eauto].
    + destruct H as (? & ? & ? & _). by apply released.
  - intros pr h Hinv Hlk [-> | [-> | ->]]; [apply hook_none|hook_of SieveNotifyInsert_post|].
    intros f w buf [= <-] Hout Hb. by apply wp_ret.
  - intros n Hn. unfold sized in Hn. cbn. unfold SieveShmemSize, sieve_words.
    rewrite (i32_small (n + 1)), i32_small, (u64_small (2 * (n + 1))) by lia.
    rewrite !u64_small by (rewrite ?u64_small; lia). lia.
  - intros w n Hn Hw Hlen. unfold sized in Hn.
    destruct (SieveInitialize_run w n) as (m' & Hrun & Hm & _); [lia|done|done|].
    exists m'. split; [done|by exists (seqZ 0 n), 0].
  - intros n m (l & h & []). by eexists.
  - intros n m a Hn (l & h & [Hh Hs Hq Hin]) [= <-]. split; [done|]. intros v. exists l, h.
    split; [by rewrite lookupZ_insertZ_ne| |by apply queue_write_outside|done].
    exists v. destruct Hs as [v0 Hv0]. by eapply lookupZ_insertZ_eq, lookupZ_Some.
Defined.

#[export] Instance lru_laws : PolicyLaws LRUVtable.
Proof.
  refine {| pol_inv := lru_inv; pol_locked := true; pol_words := fun n => 1 + 2 * (n + 1) |}.
  - intros pr strategy w Hinv Hlk Hn Hready Hring Hout. unfold sized in Hn.
    eapply wp_mono; [|apply LRUGetBuffer_post; try done; [lia|apply Hout]].
    intros [[buf st]|e|e|] w' [l H]; cbn in *; try done.
    + destruct H as (He & Hl & _ & (w1 & Hm & Hcl) & _).
      split; [done|]. split; [by rewrite Hl|by eauto].
    + destruct H as (? & ? & ? & _). by apply released.
  - intros pr h Hinv Hlk [-> | [-> | ->]];
      [hook_of LRUNotifyHit_post|hook_of LRUNotifyInsert_post|hook_of LRUNotifyInvalidate_post].
  - intros n Hn. unfold sized in Hn. cbn. unfold LRUShmemSize.
    rewrite (i32_small (n + 1)), i32_small, (u64_small (2 * (n + 1))) by lia.
    rewrite !u64_small by (rewrite ?u64_small; lia). lia.
  - intros w n Hn Hw Hlen. unfold sized in Hn.
    destruct (LRUInitialize_run w n) as (m' & Hrun & Hm); [lia|done|done|].
    exists m'. split; [done|by eexists].
  - by intros n m (l & []).
  - intros n m a Hn (l & [Hs Hq]) [= <-]. split; [done|]. intros v. exists l.
    split; [|by apply queue_write_outside].
    exists v. destruct Hs as [v0 Hv0]. by eapply lookupZ_insertZ_eq, lookupZ_Some.
Defined.

#[export] Instance lfu_laws : PolicyLaws LFUVtable.
Proof.
  refine {| pol_inv := lfu_inv; pol_locked := true; pol_words := lfu_words |}.
  - intros pr strategy w Hinv Hlk Hn Hready Hring Hout. unfold sized in Hn.
    eapply wp_mono; [|apply LFUGetBuffer_post; try done; [lia|apply Hout]].
    intros [[buf st]|e|e|] w' [s H]; cbn in *; try done.
    + destruct H as (He & Hl & _ & (w1 & Hm & Hcl) & _).
      split; [done|]. split; [by rewrite Hl|by eauto].
    + destruct H as (? & ? & ? & _). by apply released.
  - intros pr h Hinv Hlk [-> | [-> | ->]];
      [hook_of LFUNotifyHit_post|hook_of LFUNotifyInsert_post|hook_of LFUNotifyInvalidate_post].
  - intros n Hn. unfold sized in Hn. cbn. unfold LFUShmemSize, lfu_words, LFU_MAX_FREQ.
    rewrite (i32_small (n + 1024)), i32_small, (u64_small (2 * (n + 1024))), (u64_small n) by lia.
    rewrite (u64_small (n * 4)), (u64_small (8 + n * 4)), (u64_small (2 * (n + 1024) * 4)), u64_small by lia. lia.
  - intros w n Hn Hw Hlen. unfold sized in Hn.
    destruct (LFUInitialize_run w n) as (m' & Hrun & Hm); [lia|done|done|].
    exists m'. split; [done|by eexists].
  - intros n m (s & []). by eexists.
  - intros n m a Hn (s & Hm) [= <-]. split; [apply Hm|]. intros v. exists s. by apply lfu_write_seq.
Defined.

#[export] Instance policy_laws (p : EvictionVtablePtr) : PolicyLaws p :=
  match p with
  | ClockSweepVtable => clock_laws
  | SieveVtable => sieve_laws
  | LFUVtable => lfu_laws
  | LRUVtable => lru_laws
  end.
