(* ===== verification/BufTable.v ===== *)
(** * The buffer lookup table ([buf_table.c])

    The shared hash table from tags to buffer ids, of fixed capacity.  The hash
    function is a parameter: callers compute the code of a tag once and pass it
    along, and a code that is not the tag's would search the wrong chain. *)
From S2P Require Import Prelude BufState BufTag Shmem.

Definition P_NEW : Z := InvalidBlockNumber.

Section table.
Context (tag_hash : BufferTag -> Z).

Definition BufTableHashCode (tagPtr : BufferTag) : Z := tag_hash tagPtr.

Definition InitBufTable (found : bool) (size : Z) : M unit :=
  if found then ret tt else modify_shm (with_SharedBufHash ∅).

Definition own_code (tagPtr : BufferTag) (hashcode : Z) : M unit :=
  c_assert (hashcode =? tag_hash tagPtr) "hash code of another tag".

Definition BufTableLookup (tagPtr : BufferTag) (hashcode : Z) : M Z :=
  own_code tagPtr hashcode ;;
  let* h := gets (fun w => SharedBufHash (shm w)) in
  ret (default (-1) (h !! tagPtr)).

(** The table is created with room for [NBuffers + NUM_BUFFER_PARTITIONS]
    entries and does not grow. *)
Definition BufTableInsert (tagPtr : BufferTag) (hashcode buf_id : Z) : M Z :=
  c_assert (0 <=? buf_id) "buf_id >= 0" ;;
  c_assert (negb (blockNum tagPtr =? P_NEW)) "tagPtr->blockNum != P_NEW" ;;
  own_code tagPtr hashcode ;;
  let* n := get_me NBuffers in
  let* h := gets (fun w => SharedBufHash (shm w)) in
  match h !! tagPtr with
  | Some id => ret id
  | None =>
      if Z.of_nat (size h) <? n + NUM_BUFFER_PARTITIONS then
        modify_shm (with_SharedBufHash (<[tagPtr := buf_id]> h)) ;;
        ret (-1)
      else elog "out of shared memory"
  end.

Definition BufTableDelete (tagPtr : BufferTag) (hashcode : Z) : M unit :=
  own_code tagPtr hashcode ;;
  let* h := gets (fun w => SharedBufHash (shm w)) in
  match h !! tagPtr with
  | Some _ => modify_shm (with_SharedBufHash (delete tagPtr h))
  | None => elog "shared buffer hash table corrupted"
  end.
End table.
