(* ===== verification/Strategy.v ===== *)
(** * The strategy block ([freelist.c], lines 1044-1322)

    The functions the buffer manager calls: they dispatch to the active policy
    through its table, serve the background writer, and set the block up. *)
From S2P Require Import Prelude BufState BufTag Shmem Concurrency PrivateRefCount Ring Sample DList Sweep ClockSweep Sieve Lru Lfu Policy BufTable.

(** ** Sizes *)
Definition MAXALIGN (z : Z) : Z := Z.land (u64 (z + 7)) (not64 7).

Definition add_size {W} (s1 s2 : Z) : ST W Z :=
  if s1 + s2 <? 2 ^ 64 then ret (s1 + s2) else elog "requested shared memory size overflows size_t".

Definition sizeof_BufferStrategyCommon : Z := 20.

(** The size that [StrategyShmemSize] and [StrategyInitialize] both compute. *)
Definition strategy_block_size (n : Z) : Z :=
  MAXALIGN (u64 (sizeof_BufferStrategyCommon +
    Z.max 4 (Z.max (SieveShmemSize n) (Z.max (LFUShmemSize n) (LRUShmemSize n))))).

(** [hash_estimate_size] is the estimate of the hash table module. *)
Definition StrategyShmemSize (hash_estimate_size : Z -> Z -> Z) : M Z :=
  let* n := get_me NBuffers in
  let* size := add_size 0 (hash_estimate_size (n + NUM_BUFFER_PARTITIONS) 24) in
  add_size size (strategy_block_size n).

(** ** Initialisation *)

(** [ShmemInitStruct] for the strategy block: a new block has unknown contents. *)
Definition init_strategy_block (found : bool) (size : Z) (junk : Z -> Z) : M unit :=
  when (negb found) (modify_shm (with_policy_mem
    (junk <$> seqZ 0 ((size - sizeof_BufferStrategyCommon) / 4)))).

Definition clear_strategy_control (c : BufferStrategyCommon) : BufferStrategyCommon :=
  with_bgwprocno (-1) (with_numBufferAllocs 0 (with_completePasses 0
    (with_buffer_strategy_lock None c))).

(** [policy] is the table that the source assigns to [ActiveEviction]. *)
Definition StrategyInitialize_as (policy : EvictionVtablePtr) (found : bool) (junk : Z -> Z)
    (init : bool) : M unit :=
  let* n := get_me NBuffers in
  InitBufTable found (n + NUM_BUFFER_PARTITIONS) ;;
  modify_me (with_ActiveEviction (Some policy)) ;;
  init_strategy_block found (strategy_block_size n) junk ;;
  (if negb found then
    c_assert init "init" ;;
    modify_shm (fun s => with_StrategyControl (clear_strategy_control (StrategyControl s)) s)
   else c_assert (negb init) "!init") ;;
  initialize (vtable policy) found.

Definition StrategyInitialize : bool -> (Z -> Z) -> bool -> M unit :=
  StrategyInitialize_as ClockSweepVtable.

(** ** Dispatch *)
Definition active_vtable : M EvictionVtable :=
  let* p := get_me ActiveEviction in
  match p with
  | Some p => ret (vtable p)
  | None => trap "ActiveEviction is NULL"
  end.

Definition set_bgwprocno (v : Z) : M unit :=
  modify_shm (fun s => with_StrategyControl (with_bgwprocno v (StrategyControl s)) s).

Definition wake_bgwriter : M unit :=
  interfere ;;
  let* bgwprocno := gets (fun w => bgwprocno (StrategyControl (shm w))) in
  when (negb (bgwprocno =? -1))
    (set_bgwprocno (-1) ;;
     SetLatch bgwprocno).

Definition count_alloc : M unit :=
  interfere ;;
  modify_shm (fun s => with_StrategyControl (with_numBufferAllocs
    (u32 (numBufferAllocs (StrategyControl s) + 1)) (StrategyControl s)) s).

(** Returns the buffer, [*buf_state] and [*from_ring]. *)
Definition StrategyGetBuffer (strategy : BufferAccessStrategy) : M (Z * Z * bool) :=
  let* from_ring :=
    (match strategy with
     | Some h => GetBufferFromRing h
     | None => ret None
     end) in
  match from_ring with
  | Some (buf, st) => ret (buf, st, true)
  | None =>
      wake_bgwriter ;;
      count_alloc ;;
      let* vt := active_vtable in
      let* '(buf, st) := get_buffer vt strategy in
      ret (buf, st, false)
  end.

Definition call_hook (field : EvictionVtable -> option (Z -> M unit)) (buf : Z) : M unit :=
  let* p := get_me ActiveEviction in
  match p with
  | Some p =>
      match field (vtable p) with
      | Some f => f buf
      | None => ret tt
      end
  | None => ret tt
  end.
Definition StrategyNotifyHit (buf : Z) : M unit := call_hook notify_hit buf.
Definition StrategyNotifyInsert (buf : Z) : M unit := call_hook notify_insert buf.
Definition StrategyNotifyInvalidate (buf : Z) : M unit := call_hook notify_invalidate buf.

(** ** The background writer *)
Definition StrategyNotifyBgWriter (bgwprocno : Z) : M unit :=
  SpinLockAcquire ;;
  set_bgwprocno bgwprocno ;;
  SpinLockRelease.

(** [++ctl->bgw_sync_seq], an [int32] at word [a], read as [uint32]. *)
Definition next_seq (a : Z) : M Z :=
  let* v := rd_word a in
  wr_word a (i32 (v + 1)) ;;
  ret (u32 (v + 1)).

(** Returns the buffer to start at and [*complete_passes]. *)
Definition sync_position : M (Z * Z) :=
  let* n := get_me NBuffers in
  pg_atomic_read_u32 nextVictimBuffer ;;
  let* p := get_me ActiveEviction in
  match p with
  | Some SieveVtable => let* seq := next_seq 1 in ret (seq mod n, seq / n)
  | Some LRUVtable => let* seq := next_seq 0 in ret (seq mod n, seq / n)
  | Some LFUVtable => let* seq := next_seq 1 in ret (seq mod n, seq / n)
  | Some ClockSweepVtable | None =>
      let* victim := pg_atomic_read_u32 nextVictimBuffer in
      let* passes := gets (fun w => completePasses (StrategyControl (shm w))) in
      ret (victim mod n, u32 (passes + victim / n))
  end.

(** Returns the buffer to start at, [*complete_passes] and [*num_buf_alloc]. *)
Definition StrategySyncStart : M (Z * Z * Z) :=
  SpinLockAcquire ;;
  let* '(result, complete_passes) := sync_position in
  interfere ;;
  let* num_buf_alloc := gets (fun w => numBufferAllocs (StrategyControl (shm w))) in
  modify_shm (fun s => with_StrategyControl (with_numBufferAllocs 0 (StrategyControl s)) s) ;;
  SpinLockRelease ;;
  ret (result, complete_passes, num_buf_alloc).

(** ** The block is large enough *)
Lemma maxalign_ge z : 0 <= z < 2 ^ 64 - 7 -> z <= MAXALIGN z < z + 8.
Proof.
  intros Hz. unfold MAXALIGN. rewrite u64_small by lia. rewrite land_not64 by (unfold wf_state; lia).
  change 7 with (Z.ones 3) at 2 4. rewrite Z.ldiff_ones_r, Z.shiftr_div_pow2, Z.shiftl_mul_pow2 by lia.
  pose proof (Z_div_mod_eq_full (z + 7) (2 ^ 3)). pose proof (Z.mod_pos_bound (z + 7) (2 ^ 3)). lia.
Qed.
Lemma maxalign_mod z : 0 <= z < 2 ^ 64 - 7 -> MAXALIGN z mod 8 = 0.
Proof.
  intros Hz. unfold MAXALIGN. rewrite u64_small by lia. rewrite land_not64 by (unfold wf_state; lia).
  change 7 with (Z.ones 3) at 2. rewrite Z.ldiff_ones_r, Z.shiftr_div_pow2, Z.shiftl_mul_pow2 by lia.
  apply Z.mod_mul. lia.
Qed.

Lemma strategy_block_bounds n :
  sized n ->
  (forall p, sizeof_BufferStrategyCommon + 4 * pol_words p n <= strategy_block_size n) /\
  strategy_block_size n < sizeof_BufferStrategyCommon + 4 * pol_words LFUVtable n + 8.
Proof.
  intros Hn. unfold strategy_block_size, sizeof_BufferStrategyCommon.
  pose proof (pol_size (p := SieveVtable) n Hn) as Hs. pose proof (pol_size (p := LRUVtable) n Hn) as Hr.
  pose proof (pol_size (p := LFUVtable) n Hn) as Hf. cbn in Hs, Hr, Hf. rewrite Hs, Hr, Hf.
  unfold sized, sieve_words, lfu_words, LFU_MAX_FREQ in *.
  match goal with |- context [u64 ?x] => rewrite (u64_small x) by lia; pose proof (maxalign_ge x ltac:(lia)) as Hm end.
  split; [intros []|]; cbn; unfold sieve_words, lfu_words, LFU_MAX_FREQ; lia.
Qed.

(** ** Setting up *)

(** The steps before the policy's own initialisation. *)
Lemma strategy_setup p w junk :
  let n := NBuffers (me w) in
  StrategyInitialize_as p false junk true w =
    initialize (vtable p) false (mkWorld
      (with_SharedBufHash ∅ (with_policy_mem
        (junk <$> seqZ 0 ((strategy_block_size n - sizeof_BufferStrategyCommon) / 4))
        (with_StrategyControl (clear_strategy_control (StrategyControl (shm w))) (shm w))))
      (with_ActiveEviction (Some p) (me w)) (sched w)).
Proof.
  unfold StrategyInitialize_as. generalize (initialize (vtable p) false). intros init.
  unfold init_strategy_block. generalize strategy_block_size. intros size. by destruct w as [[] [] ?].
Qed.

(** A new strategy block: nobody holds the lock, nobody waits for a
    notification, and the words satisfy the invariant of the policy. *)
Lemma StrategyInitialize_run p w n junk :
  sized n -> NBuffers (me w) = n ->
  exists m', StrategyInitialize_as p false junk true w =
    (Ret tt, mkWorld
      (with_SharedBufHash ∅ (with_policy_mem m'
        (with_StrategyControl (clear_strategy_control (StrategyControl (shm w))) (shm w))))
      (with_ActiveEviction (Some p) (me w)) (sched w)) /\
    pol_inv p n m'.
Proof.
  intros Hn Hw. destruct (strategy_block_bounds n Hn) as [Hsize _]. specialize (Hsize p).
  remember (junk <$> seqZ 0 ((strategy_block_size n - sizeof_BufferStrategyCommon) / 4)) as m0 eqn:Em.
  set (w1 := mkWorld (with_SharedBufHash ∅ (with_policy_mem m0
    (with_StrategyControl (clear_strategy_control (StrategyControl (shm w))) (shm w))))
    (with_ActiveEviction (Some p) (me w)) (sched w)).
  destruct (pol_init (p := p) w1 n Hn Hw) as (m' & Hrun & Hinv).
  { unfold w1, mem. cbn. rewrite Em, length_fmap, length_seqZ.
    assert (pol_words p n <= (strategy_block_size n - sizeof_BufferStrategyCommon) / 4); [|lia].
    apply Z.div_le_lower_bound; lia. }
  exists m'. split; [|done]. rewrite strategy_setup, Hw, <- Em. fold w1. rewrite Hrun.
  by destruct w as [[] [] ?].
Qed.

(** ** Dispatch under interference *)
Section dispatch.
Context (pr : Proto) (p : EvictionVtablePtr).
Hypothesis Hinv : pr_inv pr = pol_inv p (pr_n pr).
Hypothesis Hlk : pr_locked pr = pol_locked p.

Lemma call_hook_post field buf w :
  field = notify_hit \/ field = notify_insert \/ field = notify_invalidate ->
  ActiveEviction (me w) = Some p -> outside pr (me w) w -> 0 <= buf < pr_n pr ->
  wp (call_hook field buf) (hook_post pr (me w)) w.
Proof using Hinv Hlk.
  intros Hf Hp Hout Hb. unfold call_hook. apply wp_bind. eapply wp_eq; [done|]. cbn [bind_post].
  rewrite Hp. destruct (field (vtable p)) as [f|] eqn:He; [|by apply wp_ret].
  assert (field (vtable p) = notify_hit (vtable p) \/ field (vtable p) = notify_insert (vtable p) \/
    field (vtable p) = notify_invalidate (vtable p)) as Hcase by (destruct Hf as [-> | [-> | ->]]; auto).
  exact (pol_hooks (p := p) pr _ Hinv Hlk Hcase f w buf He Hout Hb).
Qed.

(** An update of the control block that leaves the lock alone. *)
Lemma outside_control m0 w f procs :
  outside pr m0 w ->
  buffer_strategy_lock (f (StrategyControl (shm w))) = buffer_strategy_lock (StrategyControl (shm w)) ->
  bgwprocno (f (StrategyControl (shm w))) = -1 \/
    is_Some (lookupZ procs (bgwprocno (f (StrategyControl (shm w))))) ->
  outside pr m0 (upd_shm (fun s => with_allProcs procs (with_StrategyControl (f (StrategyControl s)) s)) w).
Proof using Type.
  intros ([[[Hlen Hids Hbgw] Hl] Hs Hp Hn] & Ho & Hm) Hlock Hb.
  unfold outside, lock_of in *. split_and!; [|cbn; by rewrite Hlock|done].
  split; [|done|done|done]. split; [by split|]. cbn. unfold lock_of. cbn. by rewrite Hlock.
Qed.

Lemma wake_bgwriter_post m0 w :
  outside pr m0 w -> wp wake_bgwriter (hook_post pr m0) w.
Proof using Type.
  intros Hout. unfold wake_bgwriter. apply wp_bind, (wp_interfere pr); [apply Hout|].
  intros w1 Hev. cbn [bind_post]. pose proof (outside_evolves _ _ _ _ Hout Hev) as Hout1.
  apply wp_bind. eapply wp_eq; [done|]. cbn [bind_post].
  pose proof (bgw_valid _ _ (proj1 (env_shared _ _ (proj1 Hout1)))) as Hb.
  destruct (Z.eqb_spec (bgwprocno (StrategyControl (shm w1))) (-1)) as [He|He]; cbn [negb when].
  { by apply wp_ret. }
  destruct Hb as [?|[q Hq]]; [done|]. unfold wp, SetLatch, set_bgwprocno, bind, gets, modify_shm, modify.
  cbn -[lookupZ insertZ]. rewrite Hq. cbn -[lookupZ insertZ].
  apply (outside_control m0 w1 (with_bgwprocno (-1))
    (insertZ (bgwprocno (StrategyControl (shm w1))) (with_procLatch true q) (allProcs (shm w1)))); [done|done|].
  by left.
Qed.

Lemma count_alloc_post m0 w : outside pr m0 w -> wp count_alloc (hook_post pr m0) w.
Proof using Type.
  intros Hout. unfold count_alloc. apply wp_bind, (wp_interfere pr); [apply Hout|].
  intros w1 Hev. cbn [bind_post]. pose proof (outside_evolves _ _ _ _ Hout Hev) as Hout1.
  eapply wp_eq; [done|]. cbn.
  pose proof (bgw_valid _ _ (proj1 (env_shared _ _ (proj1 Hout1)))) as Hb.
  pose proof (outside_control m0 w1 (fun c => with_numBufferAllocs (u32 (numBufferAllocs c + 1)) c)
    (allProcs (shm w1)) Hout1 eq_refl Hb) as H. by destruct w1 as [[] ? ?].
Qed.
End dispatch.

(** The backend after [GetBufferFromRing] has moved on to the next slot. *)
Definition ring_advanced (strategy : BufferAccessStrategy) (m : Backend) : Backend :=
  match strategy with
  | None => m
  | Some h => with_rings (alter (fun r => with_current (next_slot r) r) h (rings m)) m
  end.

Lemma ring_ready_advanced n strategy m :
  ring_ready n strategy m -> ring_ready n strategy (ring_advanced strategy m).
Proof.
  destruct strategy as [h|]; [|done]. intros (r & Hr & Hok).
  exists (with_current (next_slot r) r). split; [|by apply ring_advance_ok].
  cbn. by rewrite lookup_alter_eq, Hr.
Qed.
Lemma ready_advanced pr strategy m : ready pr m -> ready pr (ring_advanced strategy m).
Proof. destruct strategy; [apply ready_rings|done]. Qed.

(** What [StrategyGetBuffer] promises to [GetVictimBuffer]. *)
Definition strategy_post (pr : Proto) (strategy : BufferAccessStrategy) (m0 : Backend)
    (o : outcome (Z * Z * bool)) (w' : World) : Prop :=
  match o with
  | Ret (buf, st, from_ring) =>
      env_ok pr w' /\ lock_of (shm w') <> Some (pr_proc pr) /\
      (from_ring = true -> is_Some strategy) /\
      exists w1, me w1 = ring_advanced strategy m0 /\
        claimed pr (if from_ring : bool then None else strategy) buf st w1 w'
  | Elog _ => outside pr (ring_advanced strategy m0) w'
  | Spin => True
  | UB _ => False
  end.

Section get.
Context (pr : Proto) (p : EvictionVtablePtr).
Hypothesis Hinv : pr_inv pr = pol_inv p (pr_n pr).
Hypothesis Hlk : pr_locked pr = pol_locked p.
Hypothesis Hsize : sized (pr_n pr).

(** The part behind the ring. *)
Lemma get_from_policy strategy m0 w :
  ActiveEviction m0 = Some p -> ready pr m0 -> ring_ready (pr_n pr) strategy m0 -> outside pr m0 w ->
  wp (wake_bgwriter ;; count_alloc ;;
      let* vt := active_vtable in
      let* '(buf, st) := get_buffer vt strategy in
      ret (buf, st, false))
    (fun o w' => match o with
      | Ret (buf, st, from_ring) => from_ring = false /\ policy_get_post pr strategy m0 (Ret (buf, st)) w'
      | Elog _ => outside pr m0 w'
      | Spin => True
      | UB _ => False
      end) w.
Proof using Hinv Hlk Hsize.
  intros Hp Hready Hring Hout.
  apply wp_bind. eapply wp_mono; [|by apply wake_bgwriter_post].
  intros [[]|e|e|] w1; cbn [bind_post hook_post]; try done. intros Hout1.
  apply wp_bind. eapply wp_mono; [|by apply count_alloc_post].
  intros [[]|e|e|] w2; cbn [bind_post hook_post]; try done. intros Hout2.
  assert (me w2 = m0) as Hm by apply Hout2. rewrite <- Hm in *. clear Hm m0 Hout Hout1.
  apply wp_bind. eapply (wp_eq _ _ _ (Ret (vtable p)) w2).
  { unfold active_vtable, bind, get_me, gets. by rewrite Hp. }
  cbn [bind_post]. apply wp_bind. eapply wp_mono; [|by apply (pol_get (p := p))].
  intros [[buf st]|e|e|] w3; cbn [bind_post]; try done.
Qed.

Lemma StrategyGetBuffer_post strategy w :
  ActiveEviction (me w) = Some p -> ready pr (me w) -> ring_ready (pr_n pr) strategy (me w) ->
  outside pr (me w) w ->
  wp (StrategyGetBuffer strategy) (strategy_post pr strategy (me w)) w.
Proof using Hinv Hlk Hsize.
  intros Hp Hready Hring Hout. unfold StrategyGetBuffer.
  assert (forall w', outside pr (ring_advanced strategy (me w)) w' ->
    wp (wake_bgwriter ;; count_alloc ;;
        let* vt := active_vtable in
        let* '(buf, st) := get_buffer vt strategy in
        ret (buf, st, false)) (strategy_post pr strategy (me w)) w') as Hpolicy.
  { intros w' Hout'. eapply wp_mono; [|apply (get_from_policy strategy (ring_advanced strategy (me w)) w'); [|by apply ready_advanced|
      by apply ring_ready_advanced|exact Hout']].
    - intros [[[buf st] fr]|e|e|] w2; cbn; try done.
      intros (-> & He & Hl & w1 & Hw1 & Hcl). split_and!; [done..|]. by exists w1.
    - by destruct strategy. }
  destruct strategy as [h|]; [|by apply Hpolicy].
  destruct Hring as (r & Hr & Hok). apply wp_bind.
  eapply wp_mono; [|apply GetBufferFromRing_post; [apply Hout|done|exact Hr|done]].
  assert (with_rings (<[h := with_current (next_slot r) r]> (rings (me w))) (me w) =
    ring_advanced (Some h) (me w)) as Hadv.
  { cbn. f_equal. rewrite <- (insert_id (rings (me w)) h r Hr) at 2. by rewrite alter_insert_eq. }
  assert (forall w1, evolves pr (with_me (ring_advanced (Some h) (me w)) w) w1 ->
    outside pr (ring_advanced (Some h) (me w)) w1) as Hout1.
  { intros w1. apply outside_evolves. destruct Hout as (He & Hl & _).
    split_and!; [by apply env_me|done|done]. }
  intros [[[buf st]|]|e|e|] w2; cbn [from_ring_post bind_post]; rewrite ?Hadv; try done.
  - intros (_ & _ & He & w1 & Hev & Hcl & Hsc & _). apply wp_ret. destruct (Hout1 _ Hev) as (_ & Hl & Hm).
    cbn [strategy_post]. split_and!; [done|unfold lock_of; by rewrite Hsc|done|by exists w1].
  - intros Hev. by apply Hpolicy, Hout1.
Qed.
End get.

(** ** The background writer *)

(** [T] ticks of the clock are [T / n] passes and a hand at [T mod n]. *)
Lemma SyncStart_clock n w h p :
  clock_at n w h p -> ActiveEviction (me w) = Some ClockSweepVtable ->
  StrategySyncStart w = (Ret (h mod n, u32 (p + h / n), numBufferAllocs (StrategyControl (shm w))),
    upd_shm (fun s => with_StrategyControl (with_numBufferAllocs 0 (StrategyControl s)) s) w).
Proof.
  intros [Hn Hr Hh Hhr Hp Hpr Hl Hq Hg] Hact. unfold StrategySyncStart.
  rewrite (bind_ret _ _ _ _ _ (SpinLockAcquire_quiet w Hq Hl Hg)). set (w1 := set_lock _ w).
  assert (pg_atomic_read_u32 nextVictimBuffer w1 = (Ret h, w1)) as Hread.
  { unfold pg_atomic_read_u32. rewrite (bind_ret _ _ _ _ _ (interfere_quiet w1 Hq)). by apply rd_word_run. }
  assert (sync_position w1 = (Ret (h mod n, u32 (p + h / n)), w1)) as Hpos.
  { unfold sync_position. rewrite (bind_ret _ _ w1 n w1) by (unfold get_me, gets; cbn; by rewrite Hn).
    rewrite (bind_ret _ _ _ _ _ Hread).
    rewrite (bind_ret _ _ w1 (Some ClockSweepVtable) w1) by (unfold get_me, gets; cbn; by rewrite Hact).
    rewrite (bind_ret _ _ _ _ _ Hread). unfold bind, gets, ret. cbn. by rewrite Hp. }
  rewrite (bind_ret _ _ _ _ _ Hpos), (bind_ret _ _ _ _ _ (interfere_quiet w1 Hq)).
  subst w1. unfold lock_of in Hl. destruct w as [[? [] ? ? ? ? ? ?] ? ?]. cbn in *. by subst.
Qed.

(** The other policies count the calls in a word of their own. *)
Lemma SyncStart_seq n w p a v :
  ActiveEviction (me w) = Some p -> seq_word p = Some a -> NBuffers (me w) = n ->
  quiet w -> lock_of (shm w) = None -> (0 < gas (me w))%nat ->
  is_Some (lookupZ (mem w) 0) -> lookupZ (mem w) a = Some v ->
  let seq := u32 (v + 1) in
  StrategySyncStart w = (Ret (seq mod n, seq / n, numBufferAllocs (StrategyControl (shm w))),
    upd_shm (fun s => with_StrategyControl (with_numBufferAllocs 0 (StrategyControl s)) s)
      (with_mem (insertZ a (i32 (v + 1)) (mem w)) w)).
Proof.
  intros Hact Hp Hn Hq Hl Hg [v0 H0] Hv seq. unfold StrategySyncStart.
  rewrite (bind_ret _ _ _ _ _ (SpinLockAcquire_quiet w Hq Hl Hg)). set (w1 := set_lock _ w).
  assert (pg_atomic_read_u32 nextVictimBuffer w1 = (Ret v0, w1)) as Hread.
  { unfold pg_atomic_read_u32. rewrite (bind_ret _ _ _ _ _ (interfere_quiet w1 Hq)). by apply rd_word_run. }
  assert (next_seq a w1 = (Ret seq, with_mem (insertZ a (i32 (v + 1)) (mem w)) w1)) as Hseq.
  { unfold next_seq. rewrite (bind_ret _ _ _ _ _ (rd_word_run w1 a v Hv)).
    by rewrite (bind_ret _ _ _ _ _ (wr_word_run w1 a _ v Hv)). }
  assert (sync_position w1 = (Ret (seq mod n, seq / n), with_mem (insertZ a (i32 (v + 1)) (mem w)) w1)) as Hpos.
  { unfold sync_position. rewrite (bind_ret _ _ w1 n w1) by (unfold get_me, gets; cbn; by rewrite Hn).
    rewrite (bind_ret _ _ _ _ _ Hread).
    rewrite (bind_ret _ _ w1 (Some p) w1) by (unfold get_me, gets; cbn; by rewrite Hact).
    destruct p; try done; injection Hp as <-; by rewrite (bind_ret _ _ _ _ _ Hseq). }
  rewrite (bind_ret _ _ _ _ _ Hpos), (bind_ret _ _ _ _ _ (interfere_quiet (with_mem _ w1) Hq)).
  subst w1. unfold lock_of in Hl. destruct w as [[? [] ? ? ? ? ? ?] ? ?]. cbn in *. by subst.
Qed.

(** Under interference: a position in range, a 32-bit pass count, and no
    trace but the counters. *)
Definition sync_post (pr : Proto) (m0 : Backend) (o : outcome (Z * Z * Z)) (w' : World) : Prop :=
  match o with
  | Ret (result, complete_passes, _) =>
      0 <= result < pr_n pr /\ 0 <= complete_passes < 2 ^ 32 /\ outside pr m0 w'
  | Spin => True
  | Elog _ | UB _ => False
  end.

Section sync.
Context (pr : Proto) (p : EvictionVtablePtr).
Hypothesis Hinv : pr_inv pr = pol_inv p (pr_n pr).
Hypothesis Hlk : pr_locked pr = pol_locked p.
Hypothesis Hsize : sized (pr_n pr).

(** Inside the critical section, with the words of the policy in order. *)
Definition inside (m0 : Backend) (w : World) : Prop :=
  env_ok pr w /\ lock_of (shm w) = Some (pr_proc pr) /\ pr_inv pr (mem w) /\ me w = m0.

Lemma inside_evolves m0 w w' : inside m0 w -> evolves pr w w' -> inside m0 w'.
Proof using Type.
  intros (He & Hl & Hi & Hm) Hev. destruct (inv_evolves pr w w' Hl Hi Hev) as [Hl' Hi'].
  split_and!; [apply Hev|done|done|]. rewrite (evo_me _ _ _ Hev). done.
Qed.

(** Reading the first word. *)
Lemma wp_read_first m0 w Q :
  inside m0 w -> (forall w' v, inside m0 w' -> lookupZ (mem w') 0 = Some v -> Q (Ret v) w') ->
  wp (pg_atomic_read_u32 nextVictimBuffer) Q w.
Proof using Hinv.
  intros Hin HQ. apply wp_bind, (wp_interfere pr); [apply Hin|]. intros w1 Hev. cbn [bind_post].
  pose proof (inside_evolves _ _ _ Hin Hev) as Hin1. pose proof Hin1 as (_ & _ & Hi & _). rewrite Hinv in Hi.
  destruct (pol_first (p := p) _ _ Hi) as [v Hv]. eapply wp_eq; [by apply rd_word_run|]. by apply HQ.
Qed.

Lemma wp_next_seq m0 w Q a :
  inside m0 w -> seq_word p = Some a ->
  (forall w' s, inside m0 w' -> 0 <= s < 2 ^ 32 -> Q (Ret s) w') -> wp (next_seq a) Q w.
Proof using Hinv Hsize.
  intros (He & Hl & Hi & Hm) Ha HQ. pose proof Hi as Hi'. rewrite Hinv in Hi'. unfold sized in Hsize.
  destruct (pol_seq (p := p) (pr_n pr) _ a ltac:(lia) Hi' Ha) as [[v Hv] Hw].
  unfold next_seq. eapply wp_eq.
  { by rewrite (bind_ret _ _ _ _ _ (rd_word_run w a v Hv)),
      (bind_ret _ _ _ _ _ (wr_word_run w a (i32 (v + 1)) v Hv)). }
  apply HQ; [|apply Z.mod_pos_bound; lia].
  assert (pr_inv pr (insertZ a (i32 (v + 1)) (mem w))) as Hi2 by (rewrite Hinv; apply Hw).
  split_and!; [by apply env_write|done|done|done].
Qed.

Lemma seq_split n s : 0 < n -> 0 <= s < 2 ^ 32 -> 0 <= s mod n < n /\ 0 <= s / n < 2 ^ 32.
Proof using Type.
  clear Hinv Hlk Hsize. intros Hn Hs. split; [by apply Z.mod_pos_bound|].
  split; [apply Z.div_pos; lia|]. apply Z.div_lt_upper_bound; nia.
Qed.

Lemma sync_position_post m0 w :
  ActiveEviction m0 = Some p -> inside m0 w ->
  wp sync_position (fun o w' => match o with
    | Ret (r, c) => (0 <= r < pr_n pr /\ 0 <= c < 2 ^ 32) /\ inside m0 w'
    | _ => False
    end) w.
Proof using Hinv Hsize.
  intros Hact Hin. unfold sync_position. pose proof Hin as ([_ _ _ Hn] & _ & _ & Hm).
  unfold sized in Hsize.
  apply wp_bind. eapply wp_eq; [done|]. cbn [bind_post]. rewrite Hn.
  apply wp_bind. eapply wp_read_first; [exact Hin|]. clear Hin Hm Hn w. intros w v Hin _. cbn [bind_post].
  apply wp_bind. eapply wp_eq; [done|]. cbn [bind_post]. pose proof Hin as (_ & _ & _ & Hm). rewrite Hm, Hact.
  assert (forall a, seq_word p = Some a -> wp (let* seq := next_seq a in ret (seq mod pr_n pr, seq / pr_n pr))
    (fun o w' => match o with
      | Ret (r, c) => (0 <= r < pr_n pr /\ 0 <= c < 2 ^ 32) /\ inside m0 w'
      | _ => False
      end) w) as Hseq.
  { intros a Ha. apply wp_bind. eapply wp_next_seq; [exact Hin|done|]. intros w' s Hin' Hs. cbn [bind_post].
    apply wp_ret. split; [apply seq_split; (lia || done)|done]. }
  assert (wp (let* victim := pg_atomic_read_u32 nextVictimBuffer in
      let* passes := gets (fun w => completePasses (StrategyControl (shm w))) in
      ret (victim mod pr_n pr, u32 (passes + victim / pr_n pr)))
    (fun o w' => match o with
      | Ret (r, c) => (0 <= r < pr_n pr /\ 0 <= c < 2 ^ 32) /\ inside m0 w'
      | _ => False
      end) w) as Hclock.
  { apply wp_bind. eapply wp_read_first; [exact Hin|]. intros w' h Hin' Hh. cbn [bind_post].
    apply wp_bind. eapply wp_eq; [done|]. cbn [bind_post]. apply wp_ret.
    split; [|done]. split; apply Z.mod_pos_bound; lia. }
  clear - Hseq Hclock. destruct p; try (by apply Hseq). done.
Qed.

Lemma StrategySyncStart_post w :
  ActiveEviction (me w) = Some p -> outside pr (me w) w ->
  wp StrategySyncStart (sync_post pr (me w)) w.
Proof using Hinv Hsize.
  intros Hact Hout. unfold StrategySyncStart.
  apply wp_bind, wp_SpinLockAcquire with (pr := pr); [apply Hout|done|].
  intros w1 Hev Hi Hfree Henv1. cbn [bind_post].
  apply wp_bind. eapply wp_mono; [|apply (sync_position_post (me w)); [done|]].
  2: { split_and!; [done|done|done|]. cbn. apply Hev. }
  intros [[r c]|e|e|] w2; cbn [bind_post]; try done. intros [[Hr Hc] Hin].
  apply wp_bind, (wp_interfere pr); [apply Hin|]. intros w3 Hev3. cbn [bind_post].
  destruct (inside_evolves _ _ _ Hin Hev3) as (He & Hl & Hi3 & Hm).
  eapply wp_eq; [done|]. cbn [sync_post]. split; [done|]. split; [done|].
  pose proof (env_release _ _ He Hi3) as [[[Hlen Hids Hbgw] Hll] Hs Hp Hn].
  split_and!; [|done|done]. split; [|done|done|done]. split; [by split|done].
Qed.
End sync.

(** ** The contract of [StrategyGetBuffer] *)

(** C6. Whatever the other processes do to the descriptors, to the strategy words
    and to the strategy lock while it runs, and whichever of the four policies is
    active, [StrategyGetBuffer] touches no memory out of bounds and fails no
    assertion.  If it returns, the buffer was unpinned and not header-locked when
    its pin was taken, its shared count is now one, our private count and resource
    owner have exactly that pin added, and we do not hold the strategy lock; if
    it raises an error, we own no pin more than before and do not hold the lock. *)
Theorem StrategyGetBuffer_safe p pr strategy w :
  pr_inv pr = pol_inv p (pr_n pr) -> pr_locked pr = pol_locked p -> sized (pr_n pr) ->
  ActiveEviction (me w) = Some p -> ready pr (me w) -> ring_ready (pr_n pr) strategy (me w) ->
  outside pr (me w) w ->
  match StrategyGetBuffer strategy w with
  | (Ret (buf, st, from_ring), w') =>
      outside pr (me w') w' /\ refcount st = 1 /\
      (exists w1 d, desc_at w1 buf d /\ refcount (state d) = 0 /\ flag (state d) BM_LOCKED = false /\
        st = pinned_word (state d) /\
        BufferDescriptors (shm w') = insertZ buf (with_state st d) (BufferDescriptors (shm w1))) /\
      tracked (with_rings (rings (me w')) (me w)) (me w') (buf + 1)
  | (Elog _, w') => outside pr (ring_advanced strategy (me w)) w'
  | (UB _, _) => False
  | (Spin, _) => True
  end.
Proof.
  intros Hinv Hlk Hsize Hp Hready Hring Hout.
  pose proof (StrategyGetBuffer_post pr p Hinv Hlk Hsize strategy w Hp Hready Hring Hout) as H.
  unfold wp in H. destruct (StrategyGetBuffer strategy w) as [[[[buf st] fr]|e|e|] w']; cbn [fst snd] in H;
    try done.
  destruct H as (He & Hl & _ & w1 & Hm1 & [Hb (d & Hd & Hr & Hlb & Hst & Hds) Hr1 Htr Hsch]).
  split; [done|]. split; [done|]. split; [by exists w1, d|].
  pose proof (fr_rings _ _ (tr_frame _ _ _ Htr)) as Hrings. cbn in Hrings. rewrite Hrings.
  rewrite Hm1 in *. by destruct strategy.
Qed.

(** A pool under SIEVE where another process pins buffer 2 while we search. *)
Lemma StrategyGetBuffer_safe_witness :
  exists m, let pr := sample_proto (pol_inv SieveVtable 3) true in
    let w := sample_world SieveVtable m [id; other_pin 2; id; other_pin 2] in
    outside pr (me w) w /\
    match StrategyGetBuffer (Some 0) w with (UB _, _) => False | _ => True end.
Proof.
  destruct (SieveInitialize_run (sample_world SieveVtable (replicate 10 0) []) 3) as (m & _ & Hm & _);
    [lia|done|vm_compute; discriminate|].
  exists m. cbn zeta. set (pr := sample_proto _ _). set (w := sample_world _ _ _).
  assert (outside pr (me w) w) as Hout.
  { apply sample_outside; [by exists [0; 1; 2], 0|].
    repeat (apply Forall_cons; split); try (by apply other_pin_ok); try by apply Forall_nil. all: by intros s Hs. }
  split; [done|].
  pose proof (StrategyGetBuffer_safe SieveVtable pr (Some 0) w) as H.
  destruct (StrategyGetBuffer (Some 0) w) as [[]  w']; try done.
  apply H; try done; [apply sample_ready|by apply sample_ring_ready].
Defined.
