(* ===== verification/LocalBuf.v ===== *)
(** * Buffers of temporary tables ([src/backend/storage/buffer/localbuf.c])

    A backend keeps the pages of its temporary tables in private buffers with
    negative numbers.  They need no locks; [LocalRefCount] counts the pins, and
    the pin count in the state word stands for "pinned by this backend" plus the
    pin of an asynchronous read. *)
From S2P Require Import Prelude BufState BufTag Shmem Concurrency PrivateRefCount.

(** ** Access to the private arrays *)
Definition get_local {A} (f : LocalBuffers -> A) : M A := get_me (fun m => f (local m)).
Definition modify_local (f : LocalBuffers -> LocalBuffers) : M unit :=
  modify_me (fun m => with_local (f (local m)) m).

Definition GetLocalBufferDescriptor (id : Z) : Z := id.

Definition local_deref (id : Z) : M BufferDesc :=
  let* d := get_local (fun l => lookupZ (LocalBufferDescriptors l) id) in
  match d with
  | Some d => ret d
  | None => trap "local buffer descriptor out of range"
  end.

Definition local_store (id : Z) (d : BufferDesc) : M unit :=
  modify_local (fun l => with_LocalBufferDescriptors (insertZ id d (LocalBufferDescriptors l)) l).

Definition read_local_state (id : Z) : M Z := let* d := local_deref id in ret (state d).
Definition write_local_state (id v : Z) : M unit :=
  let* d := local_deref id in local_store id (with_state v d).

Definition local_refcount (bufid : Z) : M Z :=
  let* n := get_local (fun l => lookupZ (LocalRefCount l) bufid) in
  match n with
  | Some n => ret n
  | None => trap "LocalRefCount index out of range"
  end.

Definition set_local_refcount (bufid v : Z) : M unit :=
  modify_local (fun l => with_LocalRefCount (insertZ bufid v (LocalRefCount l)) l).

(** [LocalBufHdrGetBlock] as a value and as the target of an assignment. *)
Definition LocalBufHdrGetBlock (d : BufferDesc) : M (option (Z * Z)) :=
  let* p := get_local (fun l => lookupZ (LocalBufferBlockPointers l) (- (buf_id d + 2))) in
  match p with
  | Some p => ret p
  | None => trap "LocalBufferBlockPointers index out of range"
  end.

Definition set_LocalBufHdrBlock (d : BufferDesc) (p : Z * Z) : M unit :=
  modify_local (fun l => with_LocalBufferBlockPointers
    (insertZ (- (buf_id d + 2)) (Some p) (LocalBufferBlockPointers l)) l).

Definition read_local_page (d : BufferDesc) : M Z :=
  let* p := LocalBufHdrGetBlock d in
  match p with
  | Some p =>
      let* v := get_local (fun l => local_pages l !! p) in
      match v with Some v => ret v | None => trap "page with undefined contents" end
  | None => trap "NULL block pointer"
  end.

Definition write_local_page (d : BufferDesc) (v : Z) : M unit :=
  let* p := LocalBufHdrGetBlock d in
  match p with
  | Some p => modify_local (fun l => with_local_pages (<[p := v]> (local_pages l)) l)
  | None => trap "NULL block pointer"
  end.

(** ** The storage manager on the files of this backend

    A call may fail; a page can only be overwritten within the file. *)
Definition smgr_call : M unit :=
  let* fs := get_me smgr_faults in
  match fs with
  | [] => ret tt
  | f :: fs => modify_me (with_smgr_faults fs) ;; if f : bool then elog "I/O error" else ret tt
  end.

Definition temp_fork (reln : RelFileLocator) (fork : Z) : M (list Z) :=
  get_local (fun l => default [] (temp_files l !! (reln, fork))).
Definition set_temp_fork (reln : RelFileLocator) (fork : Z) (pages : list Z) : M unit :=
  modify_local (fun l => with_temp_files (<[(reln, fork) := pages]> (temp_files l)) l).

Definition temp_smgrwrite (reln : RelFileLocator) (fork blkno page : Z) : M unit :=
  smgr_call ;;
  let* pages := temp_fork reln fork in
  if (0 <=? blkno) && (blkno <? Z.of_nat (length pages))
  then set_temp_fork reln fork (insertZ blkno page pages)
  else trap "write past the end of the file".

Definition temp_smgrnblocks (reln : RelFileLocator) (fork : Z) : M Z :=
  smgr_call ;;
  let* pages := temp_fork reln fork in ret (Z.of_nat (length pages)).

Definition temp_smgrzeroextend (reln : RelFileLocator) (fork blkno nblocks : Z) : M unit :=
  smgr_call ;;
  let* pages := temp_fork reln fork in
  set_temp_fork reln fork (take (Z.to_nat blkno) pages ++ replicate (Z.to_nat nblocks) 0).

(** ** Pins *)
Definition PinLocalBuffer (buf_hdr : Z) (adjust_usagecount : bool) : M bool :=
  let* d := local_deref buf_hdr in
  let buffer := buf_id d + 1 in
  let bufid := - buffer - 1 in
  let buf_state := state d in
  let* n := local_refcount bufid in
  let* buf_state :=
    if n =? 0 then
      modify_local (fun l => with_NLocalPinnedBuffers (NLocalPinnedBuffers l + 1) l) ;;
      let buf_state := u64 (buf_state + BUF_REFCOUNT_ONE) in
      let buf_state :=
        if adjust_usagecount && (BUF_STATE_GET_USAGECOUNT buf_state <? BM_MAX_USAGE_COUNT)
        then u64 (buf_state + BUF_USAGECOUNT_ONE) else buf_state in
      write_local_state buf_hdr buf_state ;;
      ret buf_state
    else ret buf_state in
  let* n := local_refcount bufid in
  set_local_refcount bufid (i32 (n + 1)) ;;
  ResourceOwnerRememberBuffer buffer ;;
  ret (flag buf_state BM_VALID).

Definition UnpinLocalBufferNoOwner (buffer : Z) : M unit :=
  let buffid := - buffer - 1 in
  c_assert (BufferIsLocal buffer) "buffer is not local" ;;
  let* n := local_refcount buffid in
  c_assert (0 <? n) "local buffer is not pinned" ;;
  let* p := get_local NLocalPinnedBuffers in
  c_assert (0 <? p) "no local buffer is pinned" ;;
  set_local_refcount buffid (n - 1) ;;
  when (n - 1 =? 0)
    (modify_local (fun l => with_NLocalPinnedBuffers (NLocalPinnedBuffers l - 1) l) ;;
     let* buf_state := read_local_state buffid in
     c_assert (0 <? BUF_STATE_GET_REFCOUNT buf_state) "local buffer has no pin count" ;;
     write_local_state buffid (u64 (buf_state - BUF_REFCOUNT_ONE))).

Definition UnpinLocalBuffer (buffer : Z) : M unit :=
  UnpinLocalBufferNoOwner buffer ;;
  ResourceOwnerForgetBuffer buffer.

Definition MarkLocalBufferDirty (buffer : Z) : M unit :=
  c_assert (BufferIsLocal buffer) "buffer is not local" ;;
  let bufid := - buffer - 1 in
  let* n := local_refcount bufid in
  c_assert (0 <? n) "local buffer is not pinned" ;;
  let bufHdr := GetLocalBufferDescriptor bufid in
  let* buf_state := read_local_state bufHdr in
  when (negb (flag buf_state BM_DIRTY))
    (modify_me (fun m => with_accounting
      (with_local_blks_dirtied (local_blks_dirtied (accounting m) + 1) (accounting m)) m)) ;;
  write_local_state bufHdr (Z.lor buf_state BM_DIRTY).

(** ** Pin limits *)
Definition GetLocalPinLimit : M Z := get_local num_temp_buffers.

Definition GetAdditionalLocalPinLimit : M Z :=
  let* n := get_local num_temp_buffers in
  let* p := get_local NLocalPinnedBuffers in
  c_assert (p <=? n) "more local pins than buffers" ;;
  ret (u32 (n - p)).

Definition LimitAdditionalLocalPins (additional_pins : Z) : M Z :=
  if additional_pins <=? 1 then ret additional_pins
  else
    let* n := get_local num_temp_buffers in
    let* p := get_local NLocalPinnedBuffers in
    let max_pins := u32 (n - p) in
    ret (if additional_pins >=? max_pins then max_pins else additional_pins).

(** [source] tells whether the call is only a test. *)
Definition check_temp_buffers (newval : Z) (source_is_test : bool) : M bool :=
  let* n := get_local NLocBuffer in
  ret (negb (negb source_is_test && ztrue n && negb (n =? newval))).

(** ** Storage for page images

    [MemoryContextAllocAligned] hands out allocation number
    [length local_chunks]; a page that was never written has no image. *)
Definition BLCKSZ : Z := 8192.

Definition GetLocalBufferStorage : M (Z * Z) :=
  let* l := get_local id in
  c_assert (total_bufs_allocated l <? NLocBuffer l) "all local buffers are allocated" ;;
  when (next_buf_in_block l >=? num_bufs_in_block l)
    (let num_bufs := Z.max (num_bufs_in_block l * 2) 16 in
     let num_bufs := Z.min num_bufs (NLocBuffer l - total_bufs_allocated l) in
     let num_bufs := Z.min num_bufs (MaxAllocSize / BLCKSZ) in
     modify_local (fun l => with_local_chunks (local_chunks l ++ [num_bufs]) l) ;;
     modify_local (with_next_buf_in_block 0) ;;
     modify_local (with_num_bufs_in_block num_bufs)) ;;
  let* l := get_local id in
  let this_buf := (Z.of_nat (length (local_chunks l)) - 1, next_buf_in_block l) in
  modify_local (fun l => with_next_buf_in_block (next_buf_in_block l + 1) l) ;;
  modify_local (fun l => with_total_bufs_allocated (total_bufs_allocated l + 1) l) ;;
  ret this_buf.

(** ** Start of the local buffer manager *)
Definition init_local_desc (i : Z) : BufferDesc :=
  mkBufferDesc (mkBufferTag 0 0 0 0 0) (- i - 2) 0 0 None [].

Definition InitLocalBuffers : M unit :=
  let* nbufs := get_local num_temp_buffers in
  let* par := get_me IsParallelWorker in
  if par : bool then elog "cannot access temporary tables during a parallel operation"
  else
    let n := Z.to_nat nbufs in
    modify_local (with_LocalBufferDescriptors (init_local_desc <$> seqZ 0 nbufs)) ;;
    modify_local (with_LocalBufferBlockPointers (replicate n None)) ;;
    modify_local (with_LocalRefCount (replicate n 0)) ;;
    modify_local (with_nextFreeLocalBufId 0) ;;
    modify_local (with_LocalBufHash (Some ∅)) ;;
    modify_local (with_NLocBuffer nbufs).

(** [hash_search] on [LocalBufHash]. *)
Definition local_hash : M (gmap BufferTag Z) :=
  let* h := get_local LocalBufHash in
  match h with Some h => ret h | None => trap "LocalBufHash is NULL" end.
Definition set_local_hash (h : gmap BufferTag Z) : M unit :=
  modify_local (with_LocalBufHash (Some h)).

Definition init_once : M unit :=
  let* h := get_local LocalBufHash in
  match h with Some _ => ret tt | None => InitLocalBuffers end.

Section localbuf.
(** Waiting for an asynchronous operation ([aio.c]), the checksum of a page
    ([bufpage.c]) and the read-ahead request of the storage manager. *)
Context (pgaio_wref_wait : Z -> M unit).
Context (PageSetChecksumInplace : Z -> Z -> Z).
Context (smgrprefetch : RelFileLocator -> Z -> Z -> M bool).

(** ** I/O state *)
Definition StartLocalBufferIO (bufHdr : Z) (forInput nowait : bool) : M bool :=
  let* d := local_deref bufHdr in
  let* go_on :=
    match io_wref d with
    | Some iow => if nowait then ret false else pgaio_wref_wait iow ;; ret true
    | None => ret true
    end in
  if go_on : bool then
    let* buf_state := read_local_state bufHdr in
    ret (negb (if forInput then flag buf_state BM_VALID else negb (flag buf_state BM_DIRTY)))
  else ret false.

Definition TerminateLocalBufferIO (bufHdr : Z) (clear_dirty : bool) (set_flag_bits : Z)
    (release_aio : bool) : M unit :=
  let* buf_state := read_local_state bufHdr in
  let buf_state := Z.land buf_state (not64 BM_IO_ERROR) in
  let buf_state := if clear_dirty then Z.land buf_state (not64 BM_DIRTY) else buf_state in
  let* buf_state :=
    if release_aio then
      c_assert (0 <? BUF_STATE_GET_REFCOUNT buf_state) "local buffer has no pin count" ;;
      let* d := local_deref bufHdr in
      local_store bufHdr (with_io_wref None d) ;;
      ret (u64 (buf_state - BUF_REFCOUNT_ONE))
    else ret buf_state in
  write_local_state bufHdr (Z.lor buf_state set_flag_bits).

Definition FlushLocalBuffer (bufHdr : Z) (reln : option RelFileLocator) : M unit :=
  let* d := local_deref bufHdr in
  let* n := local_refcount (- (buf_id d + 1) - 1) in
  c_assert (0 <? n) "local buffer is not pinned" ;;
  let* started := StartLocalBufferIO bufHdr false false in
  if negb started then elog "failed to start write IO on local buffer"
  else
    let* d := local_deref bufHdr in
    let reln := match reln with Some r => r | None => BufTagGetRelFileLocator (tag d) end in
    let* localpage := read_local_page d in
    write_local_page d (PageSetChecksumInplace localpage (blockNum (tag d))) ;;
    let* localpage := read_local_page d in
    temp_smgrwrite reln (BufTagGetForkNum (tag d)) (blockNum (tag d)) localpage ;;
    TerminateLocalBufferIO bufHdr true 0 false ;;
    modify_me (fun m => with_accounting
      (with_local_blks_written (local_blks_written (accounting m) + 1) (accounting m)) m).

Definition InvalidateLocalBuffer (bufHdr : Z) (check_unreferenced : bool) : M unit :=
  let* d := local_deref bufHdr in
  let buffer := buf_id d + 1 in
  let bufid := - buffer - 1 in
  match io_wref d with
  | Some iow =>
      pgaio_wref_wait iow ;;
      let* d := local_deref bufHdr in
      c_assert (bool_decide (io_wref d = None)) "I/O is still in progress"
  | None => ret tt
  end ;;
  let* buf_state := read_local_state bufHdr in
  let* n := local_refcount bufid in
  if check_unreferenced && (negb (n =? 0) || negb (BUF_STATE_GET_REFCOUNT buf_state =? 0))
  then elog "block is still referenced"
  else
    let* d := local_deref bufHdr in
    let* h := local_hash in
    match h !! tag d with
    | None => elog "local buffer hash table corrupted"
    | Some _ =>
        set_local_hash (delete (tag d) h) ;;
        local_store bufHdr (with_tag (ClearBufferTag (tag d)) d) ;;
        let buf_state := Z.land buf_state (not64 BUF_FLAG_MASK) in
        let buf_state := Z.land buf_state (not64 BUF_USAGECOUNT_MASK) in
        write_local_state bufHdr buf_state
    end.

(** ** Victims *)
Definition local_victim_round (trycounter : Z) : M (ctl Z Z) :=
  let* victim_bufid := get_local nextFreeLocalBufId in
  let* nloc := get_local NLocBuffer in
  modify_local (with_nextFreeLocalBufId
    (if victim_bufid + 1 >=? nloc then 0 else victim_bufid + 1)) ;;
  let bufHdr := GetLocalBufferDescriptor victim_bufid in
  let* n := local_refcount victim_bufid in
  if n =? 0 then
    let* buf_state := read_local_state bufHdr in
    if 0 <? BUF_STATE_GET_USAGECOUNT buf_state then
      write_local_state bufHdr (u64 (buf_state - BUF_USAGECOUNT_ONE)) ;;
      ret (Continue nloc)
    else if 0 <? BUF_STATE_GET_REFCOUNT buf_state then ret (Continue trycounter)
    else PinLocalBuffer bufHdr false ;; ret (Break bufHdr)
  else if trycounter - 1 =? 0 then elog "no empty local buffer available"
  else ret (Continue (trycounter - 1)).

Definition local_victim_search : M Z :=
  let* nloc := get_local NLocBuffer in forever local_victim_round nloc.

Definition GetLocalVictimBuffer : M Z :=
  let* bufHdr := local_victim_search in
  let* d := local_deref bufHdr in
  let* p := LocalBufHdrGetBlock d in
  match p with
  | None => let* p := GetLocalBufferStorage in set_LocalBufHdrBlock d p
  | Some _ => ret tt
  end ;;
  let* s := read_local_state bufHdr in
  when (flag s BM_DIRTY) (FlushLocalBuffer bufHdr None) ;;
  let* s := read_local_state bufHdr in
  when (flag s BM_TAG_VALID) (InvalidateLocalBuffer bufHdr false) ;;
  ret (buf_id d + 1).

(** ** Lookup or allocation *)
Definition LocalBufferAlloc (smgr : RelFileLocator) (forkNum blockNum : Z) : M (Z * bool) :=
  let newTag := InitBufferTag (mkBufferTag 0 0 0 0 0) smgr forkNum blockNum in
  init_once ;;
  let* h := local_hash in
  match h !! newTag with
  | Some bufid =>
      let bufHdr := GetLocalBufferDescriptor bufid in
      let* d := local_deref bufHdr in
      c_assert (BufferTagsEqual (tag d) newTag) "buffer has another tag" ;;
      let* found := PinLocalBuffer bufHdr true in
      ret (bufHdr, found)
  | None =>
      let* victim_buffer := GetLocalVictimBuffer in
      let bufid := - victim_buffer - 1 in
      let bufHdr := GetLocalBufferDescriptor bufid in
      let* h := local_hash in
      match h !! newTag with
      | Some _ => elog "local buffer hash table corrupted"
      | None =>
          set_local_hash (<[newTag := bufid]> h) ;;
          let* d := local_deref bufHdr in
          local_store bufHdr (with_tag newTag d) ;;
          let* buf_state := read_local_state bufHdr in
          let buf_state :=
            Z.land buf_state (not64 (Z.lor BUF_FLAG_MASK BUF_USAGECOUNT_MASK)) in
          let buf_state := Z.lor buf_state (Z.lor BM_TAG_VALID BUF_USAGECOUNT_ONE) in
          write_local_state bufHdr buf_state ;;
          ret (bufHdr, false)
      end
  end.

(** The number of a cached copy, and whether a read was started. *)
Definition PrefetchLocalBuffer (direct_data : bool) (smgr : RelFileLocator) (forkNum blockNum : Z)
    : M (Z * bool) :=
  let newTag := InitBufferTag (mkBufferTag 0 0 0 0 0) smgr forkNum blockNum in
  init_once ;;
  let* h := local_hash in
  match h !! newTag with
  | Some id => ret (- id - 1, false)
  | None =>
      if direct_data then ret (InvalidBuffer, false)
      else let* b := smgrprefetch smgr forkNum blockNum in ret (InvalidBuffer, b)
  end.

(** ** Extending a temporary relation *)
Fixpoint extend_local_victims (extend_by : nat) : M (list Z) :=
  match extend_by with
  | O => ret []
  | S n =>
      let* b := GetLocalVictimBuffer in
      let* d := local_deref (- b - 1) in
      write_local_page d 0 ;;
      let* bs := extend_local_victims n in
      ret (b :: bs)
  end.

(** Enters block [first_block + i] and returns the buffer that holds it. *)
Definition extend_local_enter (rel : RelFileLocator) (fork blockno buffer : Z) : M Z :=
  let victim_buf_id := - buffer - 1 in
  let tag := InitBufferTag (mkBufferTag 0 0 0 0 0) rel fork blockno in
  let* h := local_hash in
  match h !! tag with
  | Some id =>
      let* d := local_deref victim_buf_id in
      UnpinLocalBuffer (buf_id d + 1) ;;
      PinLocalBuffer id false ;;
      let* e := local_deref id in
      let buf_state := state e in
      c_assert (flag buf_state BM_TAG_VALID) "tag of existing buffer is not valid" ;;
      c_assert (negb (flag buf_state BM_DIRTY)) "existing buffer is dirty" ;;
      write_local_state id (Z.land buf_state (not64 BM_VALID)) ;;
      StartLocalBufferIO id true false ;;
      ret (buf_id e + 1)
  | None =>
      set_local_hash (<[tag := victim_buf_id]> h) ;;
      let* d := local_deref victim_buf_id in
      let buf_state := state d in
      c_assert (negb (flag buf_state (Z.lor (Z.lor BM_VALID BM_TAG_VALID)
        (Z.lor BM_DIRTY BM_JUST_DIRTIED)))) "victim is in use" ;;
      local_store victim_buf_id (with_tag tag d) ;;
      write_local_state victim_buf_id (Z.lor buf_state (Z.lor BM_TAG_VALID BUF_USAGECOUNT_ONE)) ;;
      StartLocalBufferIO victim_buf_id true false ;;
      ret buffer
  end.

Fixpoint extend_local_enter_all (rel : RelFileLocator) (fork blockno : Z) (bs : list Z)
    : M (list Z) :=
  match bs with
  | [] => ret []
  | b :: bs =>
      let* b := extend_local_enter rel fork (u32 blockno) b in
      let* bs := extend_local_enter_all rel fork (blockno + 1) bs in
      ret (b :: bs)
  end.

Fixpoint extend_local_valid (bs : list Z) : M unit :=
  match bs with
  | [] => ret tt
  | b :: bs =>
      let* buf_state := read_local_state (- b - 1) in
      write_local_state (- b - 1) (Z.lor buf_state BM_VALID) ;;
      extend_local_valid bs
  end.

(** The first new block and the buffers of the new blocks. *)
Definition ExtendBufferedRelLocal (rel : RelFileLocator) (fork extend_by extend_upto : Z)
    : M (Z * list Z) :=
  init_once ;;
  let* extend_by := LimitAdditionalLocalPins extend_by in
  let* buffers := extend_local_victims (Z.to_nat extend_by) in
  let* first_block := temp_smgrnblocks rel fork in
  when (negb (extend_upto =? InvalidBlockNumber))
    (c_assert (first_block <=? extend_upto) "relation is longer than expected" ;;
     c_assert (first_block + extend_by <=? extend_upto) "extension is too long") ;;
  if first_block + extend_by >=? MaxBlockNumber
  then elog "cannot extend relation beyond MaxBlockNumber blocks"
  else
    let* buffers := extend_local_enter_all rel fork first_block buffers in
    temp_smgrzeroextend rel fork first_block extend_by ;;
    extend_local_valid buffers ;;
    modify_me (fun m => with_accounting
      (with_local_blks_written (local_blks_written (accounting m) + extend_by) (accounting m)) m) ;;
    ret (first_block, buffers).

(** ** Dropping buffers *)
Fixpoint in_forks (forkNum firstDelBlock : list Z) (t : BufferTag) : bool :=
  match forkNum, firstDelBlock with
  | f :: fs, b :: bs =>
      if (BufTagGetForkNum t =? f) && (blockNum t >=? b) then true else in_forks fs bs t
  | _, _ => false
  end.

Definition drop_local_if (p : BufferTag -> bool) (i : Z) : M unit :=
  let* d := local_deref (GetLocalBufferDescriptor i) in
  when (flag (state d) BM_TAG_VALID && p (tag d)) (InvalidateLocalBuffer i true).

Definition DropRelationLocalBuffers (rlocator : RelFileLocator) (forkNum firstDelBlock : list Z)
    : M unit :=
  let* n := get_local NLocBuffer in
  for_upto (Z.to_nat n) 0 (drop_local_if (fun t =>
    BufTagMatchesRelFileLocator t rlocator && in_forks forkNum firstDelBlock t)).

Definition DropRelationAllLocalBuffers (rlocator : RelFileLocator) : M unit :=
  let* n := get_local NLocBuffer in
  for_upto (Z.to_nat n) 0 (drop_local_if (fun t => BufTagMatchesRelFileLocator t rlocator)).

(** ** Leaks *)
Definition CheckForLocalBufferLeaks : M unit :=
  let* l := get_local id in
  c_assert (bool_decide (Forall (fun n => n = 0) (take (Z.to_nat (NLocBuffer l)) (LocalRefCount l))))
    "local buffer refcount leak".

Definition AtEOXact_LocalBuffers (isCommit : bool) : M unit := CheckForLocalBufferLeaks.
Definition AtProcExit_LocalBuffers : M unit := CheckForLocalBufferLeaks.
End localbuf.
