(* ===== verification/ContentLock.v ===== *)
(** * The content lock of a buffer ([src/backend/storage/buffer/bufmgr.c])

    Twenty bits of the state word are a lock with the modes share,
    share-exclusive and exclusive.  Waiters queue up on the descriptor under the
    header lock and sleep on their semaphore; the private reference count entry
    remembers the mode this backend holds.  [HOLD_INTERRUPTS] is the counter
    [InterruptHoldoffCount]. *)
From S2P Require Import Prelude BufState BufTag Shmem Concurrency PrivateRefCount LocalBuf.

Definition HOLD_INTERRUPTS : M unit :=
  modify_me (fun m => with_InterruptHoldoffCount (InterruptHoldoffCount m + 1) m).
Definition RESUME_INTERRUPTS : M unit :=
  let* n := get_me InterruptHoldoffCount in
  c_assert (0 <? n) "interrupts are not held off" ;;
  modify_me (with_InterruptHoldoffCount (n - 1)).

(** The entry of a buffer that the caller must have pinned. *)
Definition pinned_entry (buffer : Z) (do_move : bool) : M RefPtr :=
  let* ref := GetPrivateRefCountEntry buffer do_move in
  match ref with
  | Some ref => ret ref
  | None => trap "NULL private reference count entry"
  end.

Definition set_lockmode (ref : RefPtr) (mode : BufferLockMode) : M unit :=
  let* d := ref_data ref in set_ref_data ref (mkRefData (data_refcount d) mode).

(** ** One attempt *)

(** Whether the lock is free for [mode], and the word to swap in. *)
Definition attempt_word (mode : BufferLockMode) (old_state : Z) : bool * Z :=
  match mode with
  | BUFFER_LOCK_EXCLUSIVE =>
      let lock_free := Z.land old_state BM_LOCK_MASK =? 0 in
      (lock_free, if lock_free then u64 (old_state + BM_LOCK_VAL_EXCLUSIVE) else old_state)
  | BUFFER_LOCK_SHARE_EXCLUSIVE =>
      let lock_free :=
        Z.land old_state (Z.lor BM_LOCK_VAL_EXCLUSIVE BM_LOCK_VAL_SHARE_EXCLUSIVE) =? 0 in
      (lock_free, if lock_free then u64 (old_state + BM_LOCK_VAL_SHARE_EXCLUSIVE) else old_state)
  | _ =>
      let lock_free := Z.land old_state BM_LOCK_VAL_EXCLUSIVE =? 0 in
      (lock_free, if lock_free then u64 (old_state + BM_LOCK_VAL_SHARED) else old_state)
  end.

(** The result says whether the caller must wait. *)
Definition BufferLockAttempt (buf_hdr : Z) (mode : BufferLockMode) : M bool :=
  let* old_state := pg_atomic_read_u64 buf_hdr in
  forever (fun old_state =>
    let '(lock_free, desired_state) := attempt_word mode old_state in
    let* '(ok, seen) := pg_atomic_compare_exchange_u64 buf_hdr old_state desired_state in
    if ok then ret (Break (negb lock_free)) else ret (Continue seen)) old_state.

(** ** The queue *)
Definition MyProc : M (option PGPROC) :=
  let* p := get_me MyProcNumber in
  gets (fun w => lookupZ (allProcs (shm w)) p).

Definition BufferLockQueueSelf (buf_hdr : Z) (mode : BufferLockMode) : M unit :=
  let* p := MyProc in
  match p with
  | None => elog "cannot wait without a PGPROC structure"
  | Some p =>
      if negb (bool_decide (lwWaiting p = LW_WS_NOT_WAITING))
      then elog "queueing for lock while waiting on another one"
      else
        LockBufHdr buf_hdr ;;
        pg_atomic_fetch_or_u64 buf_hdr BM_LOCK_HAS_WAITERS ;;
        let* my := get_me MyProcNumber in
        let* p := GetPGProcByNumber my in
        set_proc my (with_lwWaitMode mode (with_lwWaiting LW_WS_WAITING p)) ;;
        let* d := deref buf_hdr in
        store_desc buf_hdr (with_lock_waiters (lock_waiters d ++ [my]) d) ;;
        UnlockBufHdr buf_hdr
  end.

(** Sleeps until somebody has taken us off the queue; returns the number of
    other wake-ups that were absorbed. *)
Definition wait_for_wakeup (extraWaits : Z) : M Z :=
  forever (fun extraWaits =>
    let* my := get_me MyProcNumber in
    PGSemaphoreLock my ;;
    let* p := GetPGProcByNumber my in
    if bool_decide (lwWaiting p = LW_WS_NOT_WAITING) then ret (Break extraWaits)
    else ret (Continue (extraWaits + 1))) extraWaits.

Definition repay_wakeups (extraWaits : Z) : M unit :=
  let* my := get_me MyProcNumber in
  for_upto (Z.to_nat extraWaits) 0 (fun _ => PGSemaphoreUnlock my).

Definition BufferLockDequeueSelf (buf_hdr : Z) : M unit :=
  LockBufHdr buf_hdr ;;
  let* my := get_me MyProcNumber in
  let* p := GetPGProcByNumber my in
  let on_waitlist := bool_decide (lwWaiting p = LW_WS_WAITING) in
  when on_waitlist
    (let* d := deref buf_hdr in
     store_desc buf_hdr (with_lock_waiters (rm my (lock_waiters d)) d)) ;;
  let* d := deref buf_hdr in
  when (bool_decide (lock_waiters d = []))
    (let* s := pg_atomic_read_u64 buf_hdr in
     when (flag s BM_LOCK_HAS_WAITERS)
       (pg_atomic_fetch_and_u64 buf_hdr (not64 BM_LOCK_HAS_WAITERS) ;; ret tt)) ;;
  UnlockBufHdr buf_hdr ;;
  if on_waitlist then
    let* p := GetPGProcByNumber my in
    set_proc my (with_lwWaiting LW_WS_NOT_WAITING p)
  else
    pg_atomic_fetch_and_u64 buf_hdr (not64 BM_LOCK_WAKE_IN_PROGRESS) ;;
    let* extraWaits := wait_for_wakeup 0 in
    repay_wakeups extraWaits.

(** ** Acquiring *)
Definition acquire_round (buf_hdr : Z) (mode : BufferLockMode) (extraWaits : Z) : M (ctl Z Z) :=
  let* mustwait := BufferLockAttempt buf_hdr mode in
  if negb mustwait then ret (Break extraWaits)
  else
    BufferLockQueueSelf buf_hdr mode ;;
    let* mustwait := BufferLockAttempt buf_hdr mode in
    if negb mustwait then BufferLockDequeueSelf buf_hdr ;; ret (Break extraWaits)
    else
      let* extraWaits := wait_for_wakeup extraWaits in
      pg_atomic_fetch_and_u64 buf_hdr (not64 BM_LOCK_WAKE_IN_PROGRESS) ;;
      ret (Continue extraWaits).

Definition BufferLockAcquire (buffer buf_hdr : Z) (mode : BufferLockMode) : M unit :=
  let* entry := pinned_entry buffer true in
  let* d := ref_data entry in
  c_assert (bool_decide (data_lockmode d = BUFFER_LOCK_UNLOCK)) "lock is already held" ;;
  HOLD_INTERRUPTS ;;
  let* extraWaits := forever (acquire_round buf_hdr mode) 0 in
  set_lockmode entry mode ;;
  repay_wakeups extraWaits.

Definition BufferLockConditional (buffer buf_hdr : Z) (mode : BufferLockMode) : M bool :=
  let* entry := pinned_entry buffer true in
  let* d := ref_data entry in
  if negb (bool_decide (data_lockmode d = BUFFER_LOCK_UNLOCK)) then ret false
  else
    HOLD_INTERRUPTS ;;
    let* mustwait := BufferLockAttempt buf_hdr mode in
    (if mustwait : bool then RESUME_INTERRUPTS else set_lockmode entry mode) ;;
    ret (negb mustwait).

(** ** Releasing *)
Definition BufferLockDisownInternal (buffer : Z) : M BufferLockMode :=
  let* ref := GetPrivateRefCountEntry buffer false in
  match ref with
  | None => elog "lock is not held"
  | Some ref =>
      let* d := ref_data ref in
      set_lockmode ref BUFFER_LOCK_UNLOCK ;;
      ret (data_lockmode d)
  end.

Definition BufferLockDisown (buffer : Z) : M unit :=
  BufferLockDisownInternal buffer ;;
  RESUME_INTERRUPTS.

Definition BufferLockReleaseSub (mode : BufferLockMode) : M Z :=
  match mode with
  | BUFFER_LOCK_EXCLUSIVE => ret BM_LOCK_VAL_EXCLUSIVE
  | BUFFER_LOCK_SHARE_EXCLUSIVE => ret BM_LOCK_VAL_SHARE_EXCLUSIVE
  | BUFFER_LOCK_SHARE => ret BM_LOCK_VAL_SHARED
  | BUFFER_LOCK_UNLOCK => trap "release of a lock that is not held"
  end.

(** Takes the waiters that can get the lock now off the queue and returns them. *)
Fixpoint wake_scan (buf_hdr : Z) (iter : list Z) (wake_exclusive wake_share_exclusive : bool)
    : M (list Z) :=
  match iter with
  | [] => ret []
  | cur :: iter =>
      let* waiter := GetPGProcByNumber cur in
      if (negb wake_exclusive && bool_decide (lwWaitMode waiter = BUFFER_LOCK_EXCLUSIVE)) ||
         (negb wake_share_exclusive &&
            bool_decide (lwWaitMode waiter = BUFFER_LOCK_SHARE_EXCLUSIVE))
      then wake_scan buf_hdr iter wake_exclusive wake_share_exclusive
      else
        let* d := deref buf_hdr in
        store_desc buf_hdr (with_lock_waiters (rm cur (lock_waiters d)) d) ;;
        c_assert (bool_decide (lwWaiting waiter = LW_WS_WAITING)) "queued process does not wait" ;;
        set_proc cur (with_lwWaiting LW_WS_PENDING_WAKEUP waiter) ;;
        match lwWaitMode waiter with
        | BUFFER_LOCK_SHARE =>
            let* wakeup := wake_scan buf_hdr iter false wake_share_exclusive in
            ret (cur :: wakeup)
        | BUFFER_LOCK_SHARE_EXCLUSIVE =>
            let* wakeup := wake_scan buf_hdr iter false false in
            ret (cur :: wakeup)
        | BUFFER_LOCK_EXCLUSIVE => ret [cur]
        | BUFFER_LOCK_UNLOCK =>
            let* wakeup := wake_scan buf_hdr iter wake_exclusive wake_share_exclusive in
            ret (cur :: wakeup)
        end
  end.

(** The word that ends the critical section of [BufferLockWakeup]. *)
Definition wakeup_word (new_wake_in_progress queue_empty : bool) (old_state : Z) : Z :=
  let s := if new_wake_in_progress then Z.lor old_state BM_LOCK_WAKE_IN_PROGRESS
           else Z.land old_state (not64 BM_LOCK_WAKE_IN_PROGRESS) in
  let s := if queue_empty then Z.land s (not64 BM_LOCK_HAS_WAITERS) else s in
  Z.land s (not64 BM_LOCKED).

Fixpoint awaken (wakeup : list Z) : M unit :=
  match wakeup with
  | [] => ret tt
  | cur :: wakeup =>
      let* waiter := GetPGProcByNumber cur in
      set_proc cur (with_lwWaiting LW_WS_NOT_WAITING waiter) ;;
      PGSemaphoreUnlock cur ;;
      awaken wakeup
  end.

Definition BufferLockWakeup (buf_hdr : Z) (wake_exclusive : bool) : M unit :=
  LockBufHdr buf_hdr ;;
  let* d := deref buf_hdr in
  let* wakeup := wake_scan buf_hdr (lock_waiters d) wake_exclusive true in
  (if bool_decide (wakeup = []) then ret tt
   else let* s := pg_atomic_read_u64 buf_hdr in
        c_assert (flag s BM_LOCK_HAS_WAITERS) "woke a process without BM_LOCK_HAS_WAITERS") ;;
  let* old_state := pg_atomic_read_u64 buf_hdr in
  forever (fun old_state =>
    let* d := deref buf_hdr in
    let desired_state := wakeup_word (negb (bool_decide (wakeup = [])))
      (bool_decide (lock_waiters d = [])) old_state in
    let* '(ok, seen) := pg_atomic_compare_exchange_u64 buf_hdr old_state desired_state in
    if ok then ret (Break tt) else ret (Continue seen)) old_state ;;
  awaken wakeup.

(** Whether to look through the queue, and whether to wake exclusive waiters. *)
Definition release_check (mode : BufferLockMode) (lockstate : Z) : bool * bool :=
  if flag lockstate BM_LOCK_HAS_WAITERS && negb (flag lockstate BM_LOCK_WAKE_IN_PROGRESS) then
    if Z.land lockstate BM_LOCK_MASK =? 0 then (true, true)
    else if bool_decide (mode = BUFFER_LOCK_SHARE_EXCLUSIVE) then (true, false)
    else (false, false)
  else (false, false).

Definition BufferLockProcessRelease (buf_hdr : Z) (mode : BufferLockMode) (lockstate : Z)
    : M unit :=
  c_assert (negb (flag lockstate BM_LOCK_VAL_EXCLUSIVE)) "exclusive lock is still held" ;;
  let '(check_waiters, wake_exclusive) := release_check mode lockstate in
  when check_waiters (BufferLockWakeup buf_hdr wake_exclusive).

Definition BufferLockUnlock (buffer buf_hdr : Z) : M unit :=
  let* mode := BufferLockDisownInternal buffer in
  let* sub := BufferLockReleaseSub mode in
  let* oldstate := pg_atomic_sub_fetch_u64 buf_hdr sub in
  BufferLockProcessRelease buf_hdr mode oldstate ;;
  RESUME_INTERRUPTS.

(** ** Queries *)
Definition BufferLockHeldByMeInMode (buf_hdr : Z) (mode : BufferLockMode) : M bool :=
  let* b := BufferDescriptorGetBuffer buf_hdr in
  let* entry := GetPrivateRefCountEntry b false in
  match entry with
  | None => ret false
  | Some entry => let* d := ref_data entry in ret (bool_decide (data_lockmode d = mode))
  end.

Definition BufferLockHeldByMe (buf_hdr : Z) : M bool :=
  let* b := BufferDescriptorGetBuffer buf_hdr in
  let* entry := GetPrivateRefCountEntry b false in
  match entry with
  | None => ret false
  | Some entry =>
      let* d := ref_data entry in ret (negb (bool_decide (data_lockmode d = BUFFER_LOCK_UNLOCK)))
  end.

Definition BufferIsPinned (bufnum : Z) : M bool :=
  if negb (BufferIsValid bufnum) then ret false
  else if BufferIsLocal bufnum then let* n := local_refcount (- bufnum - 1) in ret (0 <? n)
  else let* n := GetPrivateRefCount bufnum in ret (0 <? n).

Definition assert_pinned (buffer : Z) : M unit :=
  let* p := BufferIsPinned buffer in c_assert p "buffer is not pinned".

Definition BufferIsLockedByMe (buffer : Z) : M bool :=
  assert_pinned buffer ;;
  if BufferIsLocal buffer then ret true
  else BufferLockHeldByMe (GetBufferDescriptor (buffer - 1)).

Definition BufferIsLockedByMeInMode (buffer : Z) (mode : BufferLockMode) : M bool :=
  assert_pinned buffer ;;
  if BufferIsLocal buffer then ret true
  else BufferLockHeldByMeInMode (GetBufferDescriptor (buffer - 1)) mode.

(** ** The interface for access methods *)
Definition UnlockBuffer (buffer : Z) : M unit :=
  assert_pinned buffer ;;
  if BufferIsLocal buffer then ret tt
  else BufferLockUnlock buffer (GetBufferDescriptor (buffer - 1)).

Definition LockBufferInternal (buffer : Z) (mode : BufferLockMode) : M unit :=
  c_assert (negb (bool_decide (mode = BUFFER_LOCK_UNLOCK))) "unlock mode" ;;
  assert_pinned buffer ;;
  if BufferIsLocal buffer then ret tt
  else
    let buf_hdr := GetBufferDescriptor (buffer - 1) in
    match mode with
    | BUFFER_LOCK_SHARE => BufferLockAcquire buffer buf_hdr BUFFER_LOCK_SHARE
    | BUFFER_LOCK_EXCLUSIVE => BufferLockAcquire buffer buf_hdr BUFFER_LOCK_EXCLUSIVE
    | BUFFER_LOCK_SHARE_EXCLUSIVE => BufferLockAcquire buffer buf_hdr BUFFER_LOCK_SHARE_EXCLUSIVE
    | BUFFER_LOCK_UNLOCK => elog "unrecognized buffer lock mode"
    end.

Definition LockBuffer (buffer : Z) (mode : BufferLockMode) : M unit :=
  if bool_decide (mode = BUFFER_LOCK_UNLOCK) then UnlockBuffer buffer
  else LockBufferInternal buffer mode.

Definition ConditionalLockBuffer (buffer : Z) : M bool :=
  assert_pinned buffer ;;
  if BufferIsLocal buffer then ret true
  else BufferLockConditional buffer (GetBufferDescriptor (buffer - 1)) BUFFER_LOCK_EXCLUSIVE.
