(* ===== verification/LockWord.v ===== *)
(** * The lock bits of the state word

    Bits 34 to 53 of the state word count the holders of the content lock: one
    unit per share lock, bit 52 for a share-exclusive lock, bit 53 for an
    exclusive lock. *)
From S2P Require Import Prelude BufState Shmem ContentLock.

Definition lock_field (s : Z) : Z := field 34 20 s.

(** What one lock adds to the field. *)
Definition lock_unit (mode : BufferLockMode) : Z :=
  match mode with
  | BUFFER_LOCK_EXCLUSIVE => 2 ^ 19
  | BUFFER_LOCK_SHARE_EXCLUSIVE => 2 ^ 18
  | BUFFER_LOCK_SHARE => 1
  | BUFFER_LOCK_UNLOCK => 0
  end.

(** The first value of the field at which the lock is refused. *)
Definition lock_limit (mode : BufferLockMode) : Z :=
  match mode with
  | BUFFER_LOCK_EXCLUSIVE => 1
  | BUFFER_LOCK_SHARE_EXCLUSIVE => 2 ^ 18
  | _ => 2 ^ 19
  end.

Lemma land_field lo len s :
  0 <= lo -> 0 <= len -> Z.land s (Z.shiftl (Z.ones len) lo) = 2 ^ lo * field lo len s.
Proof.
  intros Hlo Hlen. rewrite Z.mul_comm, <- Z.shiftl_mul_pow2 by done.
  apply Z.bits_inj'. intros n Hn. rewrite Z.land_spec, !Z.shiftl_spec by done.
  destruct (decide (n < lo)).
  - rewrite (Z.testbit_neg_r (Z.ones len)), (Z.testbit_neg_r (field lo len s)) by lia.
    apply andb_false_r.
  - rewrite field_testbit, Z.testbit_ones_nonneg by lia. replace (n - lo + lo) with n by lia.
    apply andb_comm.
Qed.

Lemma lock_field_range s : 0 <= lock_field s < 2 ^ 20.
Proof. apply Z.mod_pos_bound. lia. Qed.

(** The word below, in and above the lock bits. *)
Lemma lock_parts s :
  wf_state s -> s = s mod 2 ^ 34 + 2 ^ 34 * lock_field s + 2 ^ 54 * (s / 2 ^ 54) /\
  0 <= s mod 2 ^ 34 < 2 ^ 34 /\ 0 <= s / 2 ^ 54 < 2 ^ 10.
Proof.
  unfold wf_state, lock_field, field. intros Hs.
  pose proof (Z.div_mod s (2 ^ 34) ltac:(lia)) as E1.
  pose proof (Z.div_mod (s / 2 ^ 34) (2 ^ 20) ltac:(lia)) as E2.
  rewrite Z.div_div in E2 by lia. change (2 ^ 34 * 2 ^ 20) with (2 ^ 54) in E2.
  pose proof (Z.mod_pos_bound s (2 ^ 34) ltac:(lia)).
  pose proof (Z.mod_pos_bound (s / 2 ^ 34) (2 ^ 20) ltac:(lia)).
  pose proof (Z.div_pos s (2 ^ 54)). pose proof (Z.div_lt_upper_bound s (2 ^ 54) (2 ^ 10)).
  repeat split; lia.
Qed.

Lemma lock_parts_eq a f h :
  0 <= a < 2 ^ 34 -> 0 <= f < 2 ^ 20 -> 0 <= h < 2 ^ 10 ->
  let s := a + 2 ^ 34 * f + 2 ^ 54 * h in
  wf_state s /\ s mod 2 ^ 34 = a /\ lock_field s = f /\ s / 2 ^ 54 = h.
Proof.
  intros Ha Hf Hh. cbv zeta. unfold wf_state, lock_field, field.
  assert ((a + 2 ^ 34 * f + 2 ^ 54 * h) / 2 ^ 34 = f + 2 ^ 20 * h) as ->.
  { symmetry. apply (Z.div_unique _ _ _ a); lia. }
  repeat split; [lia|lia|..].
  - symmetry. apply (Z.mod_unique _ _ (f + 2 ^ 20 * h)); lia.
  - symmetry. apply (Z.mod_unique _ _ h); lia.
  - symmetry. apply (Z.div_unique _ _ _ (a + 2 ^ 34 * f)); lia.
Qed.

(** Only the lock field changed. *)
Record same_rest (s s' : Z) : Prop := {
  sr_low : s' mod 2 ^ 34 = s mod 2 ^ 34;
  sr_high : s' / 2 ^ 54 = s / 2 ^ 54
}.
#[export] Instance same_rest_refl : Reflexive same_rest.
Proof. by split. Qed.
#[export] Instance same_rest_trans : Transitive same_rest.
Proof. intros ??? [] []. split; congruence. Qed.

Lemma add_field s v :
  wf_state s -> 0 <= lock_field s + v < 2 ^ 20 ->
  let s' := u64 (s + 2 ^ 34 * v) in
  wf_state s' /\ lock_field s' = lock_field s + v /\ same_rest s s'.
Proof.
  intros Hs Hv. cbv zeta. destruct (lock_parts s Hs) as (E & Ha & Hh).
  assert (s + 2 ^ 34 * v = s mod 2 ^ 34 + 2 ^ 34 * (lock_field s + v) + 2 ^ 54 * (s / 2 ^ 54)) as ->
    by lia.
  destruct (lock_parts_eq _ _ _ Ha Hv Hh) as (Hwf & Hl & Hf & Hb).
  rewrite u64_small by apply Hwf. split_and!; [done|done|by split].
Qed.

Lemma lock_val mode : mode <> BUFFER_LOCK_UNLOCK ->
  match mode with
  | BUFFER_LOCK_EXCLUSIVE => BM_LOCK_VAL_EXCLUSIVE
  | BUFFER_LOCK_SHARE_EXCLUSIVE => BM_LOCK_VAL_SHARE_EXCLUSIVE
  | _ => BM_LOCK_VAL_SHARED
  end = 2 ^ 34 * lock_unit mode.
Proof. by destruct mode. Qed.

Lemma lock_mask_0 s : (Z.land s BM_LOCK_MASK =? 0) = (lock_field s =? 0).
Proof.
  change BM_LOCK_MASK with (Z.shiftl (Z.ones 20) 34). rewrite land_field by lia.
  fold (lock_field s). pose proof (lock_field_range s).
  destruct (Z.eqb_spec (lock_field s) 0), (Z.eqb_spec (2 ^ 34 * lock_field s) 0); lia.
Qed.

Lemma field_high lo s :
  0 <= lo <= 20 -> field (34 + lo) (20 - lo) s = lock_field s / 2 ^ lo.
Proof.
  intros Hlo. unfold lock_field. apply Z.bits_inj'. intros n Hn.
  rewrite field_testbit by lia. rewrite <- Z.shiftr_div_pow2, Z.shiftr_spec by lia.
  rewrite field_testbit by lia. replace (n + lo + 34) with (n + (34 + lo)) by lia.
  f_equal. destruct (Z.ltb_spec n (20 - lo)), (Z.ltb_spec (n + lo) 20); lia.
Qed.

Lemma mask_free lo s :
  0 <= lo < 20 -> (Z.land s (Z.shiftl (Z.ones (20 - lo)) (34 + lo)) =? 0) = (lock_field s <? 2 ^ lo).
Proof.
  intros Hlo. rewrite land_field, field_high by lia. pose proof (lock_field_range s).
  assert (0 < 2 ^ (34 + lo)) by (apply Z.pow_pos_nonneg; lia).
  assert (0 < 2 ^ lo) by (apply Z.pow_pos_nonneg; lia).
  destruct (Z.ltb_spec (lock_field s) (2 ^ lo)) as [Hl|Hl].
  - rewrite Z.div_small by lia. by rewrite Z.mul_0_r.
  - apply Z.eqb_neq. assert (0 < lock_field s / 2 ^ lo) by (apply Z.div_str_pos; lia). nia.
Qed.

(** An attempt looks at the field only, and adds its unit if it is below the limit. *)
Lemma attempt_word_spec mode s :
  wf_state s -> mode <> BUFFER_LOCK_UNLOCK ->
  attempt_word mode s =
    (lock_field s <? lock_limit mode,
     if lock_field s <? lock_limit mode then u64 (s + 2 ^ 34 * lock_unit mode) else s).
Proof.
  intros Hs Hm. destruct mode; [done|..]; unfold attempt_word.
  - change BM_LOCK_VAL_EXCLUSIVE with (Z.shiftl (Z.ones (20 - 19)) (34 + 19)).
    by rewrite mask_free by lia.
  - change (Z.lor BM_LOCK_VAL_EXCLUSIVE BM_LOCK_VAL_SHARE_EXCLUSIVE)
      with (Z.shiftl (Z.ones (20 - 18)) (34 + 18)).
    by rewrite mask_free by lia.
  - rewrite lock_mask_0. pose proof (lock_field_range s). cbn [lock_limit].
    assert ((lock_field s =? 0) = (lock_field s <? 1)) as ->; [|done].
    destruct (Z.eqb_spec (lock_field s) 0), (Z.ltb_spec (lock_field s) 1); lia.
Qed.

(** Flags, pins and usage live below the lock field. *)
Lemma same_rest_low s s' k : 0 <= k < 34 -> same_rest s s' -> Z.testbit s' k = Z.testbit s k.
Proof.
  intros Hk [Hl _]. rewrite <- (Z.mod_pow2_bits_low s' 34 k), Hl by lia.
  apply Z.mod_pow2_bits_low. lia.
Qed.

Lemma same_rest_flag {G k} `{!IsBit G k} s s' : k < 34 -> same_rest s s' -> flag s' G = flag s G.
Proof.
  intros Hk Hr. rewrite !flag_bit. destruct (is_bit (F := G)) as [_ ?].
  apply same_rest_low; [lia|done].
Qed.

Lemma mod_mod_pow s a b : 0 <= a <= b -> (s mod 2 ^ b) mod 2 ^ a = s mod 2 ^ a.
Proof.
  intros H. apply Z.bits_inj'. intros n Hn. destruct (decide (n < a)).
  - by rewrite !Z.mod_pow2_bits_low by lia.
  - by rewrite !Z.mod_pow2_bits_high by lia.
Qed.

Lemma same_rest_refcount s s' : same_rest s s' -> refcount s' = refcount s.
Proof.
  intros [Hl _]. unfold refcount. by rewrite <- (mod_mod_pow s' 18 34), Hl, mod_mod_pow by lia.
Qed.

Lemma same_rest_usage s s' : same_rest s s' -> usage s' = usage s.
Proof. intros Hr. rewrite !usage_field. apply field_ext; [lia..|]. intros. by apply same_rest_low; [lia|]. Qed.

Lemma same_rest_wait s s' : same_rest s s' ->
  flag s' BM_LOCK_HAS_WAITERS = flag s BM_LOCK_HAS_WAITERS /\
  flag s' BM_LOCK_WAKE_IN_PROGRESS = flag s BM_LOCK_WAKE_IN_PROGRESS /\
  flag s' BM_LOCKED = flag s BM_LOCKED.
Proof. intros Hr. split_and!; by apply same_rest_flag. Qed.
