(* ===== verification/LockProtocol.v ===== *)
(** * The content lock among all processes

    A transition system whose steps are the atomic pieces of [BufferLockAcquire]
    and [BufferLockUnlock] of any number of processes on one buffer: an attempt,
    queueing, going to sleep, the release, the scan of the queue.  The state is
    the real state word, the real queue and a program counter for each process;
    the steps use the functions of [ContentLock.v] on the word.  Two facts about
    all reachable states: conflicting modes are never held together, and a
    sleeping process is never forgotten. *)
From S2P Require Import Prelude BufState BufTag Shmem ContentLock LockWord.

(** Where a process is in [BufferLockAcquire] or [BufferLockUnlock]. *)
Inductive PC :=
| Idle
| Attempting (mode : BufferLockMode)
| WantQueue (mode : BufferLockMode)
| Queued (mode : BufferLockMode)
| Sleeping (mode : BufferLockMode)
| Dequeueing (mode : BufferLockMode)
| DequeuedByOther (mode : BufferLockMode)
| Holding (mode : BufferLockMode)
| Waking (wake_exclusive : bool).

Record LState := mkLState {
  word : Z;
  queue : list Z;
  pcs : gmap Z PC
}.

(** ** Functions of a program counter *)

(** The mode held; a process that finds itself in the queue after its second
    attempt succeeded holds the lock already. *)
Definition held_mode (pc : PC) : option BufferLockMode :=
  match pc with
  | Holding m | Dequeueing m | DequeuedByOther m => Some m
  | _ => None
  end.
Definition wait_mode (pc : PC) : BufferLockMode :=
  match pc with
  | Attempting m | WantQueue m | Queued m | Sleeping m | Dequeueing m
  | DequeuedByOther m | Holding m => m
  | Idle | Waking _ => BUFFER_LOCK_UNLOCK
  end.
Definition can_queue (pc : PC) : bool :=
  match pc with Queued _ | Sleeping _ | Dequeueing _ => true | _ => false end.
(** Off the queue, it still has to clear [BM_LOCK_WAKE_IN_PROGRESS]. *)
Definition will_clear (pc : PC) : bool :=
  match pc with Queued _ | Sleeping _ | Dequeueing _ | DequeuedByOther _ => true | _ => false end.
(** Off the queue, it will look at the lock again. *)
Definition will_retry (pc : PC) : bool :=
  match pc with Queued _ | Sleeping _ | Attempting _ => true | _ => false end.
Definition good_mode (pc : PC) : Prop :=
  match pc with
  | Idle | Waking _ => True
  | _ => wait_mode pc <> BUFFER_LOCK_UNLOCK
  end.

(** ** Which waiters [BufferLockWakeup] takes off the queue *)
Fixpoint scan (mode_of : Z -> BufferLockMode) (q : list Z) (wake_exclusive wake_share_exclusive : bool)
    : list Z :=
  match q with
  | [] => []
  | cur :: q =>
      match mode_of cur with
      | BUFFER_LOCK_EXCLUSIVE =>
          if wake_exclusive then [cur] else scan mode_of q wake_exclusive wake_share_exclusive
      | BUFFER_LOCK_SHARE_EXCLUSIVE =>
          if wake_share_exclusive then cur :: scan mode_of q false false
          else scan mode_of q wake_exclusive wake_share_exclusive
      | BUFFER_LOCK_SHARE => cur :: scan mode_of q false wake_share_exclusive
      | BUFFER_LOCK_UNLOCK => cur :: scan mode_of q wake_exclusive wake_share_exclusive
      end
  end.

Definition left_over (woken q : list Z) : list Z := filter (fun x => x ∉ woken) q.

(** ** Steps *)
Definition mode_in (st : LState) (p : Z) : BufferLockMode :=
  match pcs st !! p with Some pc => wait_mode pc | None => BUFFER_LOCK_UNLOCK end.

Definition clear_has_waiters (q : list Z) (s : Z) : Z :=
  if bool_decide (q = []) && flag s BM_LOCK_HAS_WAITERS
  then Z.land s (not64 BM_LOCK_HAS_WAITERS) else s.

Definition release_word (mode : BufferLockMode) (s : Z) : Z := u64 (s - 2 ^ 34 * lock_unit mode).

Inductive lstep : LState -> LState -> Prop :=
| step_start s q ps p m :
    ps !! p = Some Idle -> m <> BUFFER_LOCK_UNLOCK ->
    lstep (mkLState s q ps) (mkLState s q (<[p := Attempting m]> ps))
| step_attempt s q ps p m free s' :
    ps !! p = Some (Attempting m) -> attempt_word m s = (free, s') ->
    lstep (mkLState s q ps)
      (mkLState s' q (<[p := if free : bool then Holding m else WantQueue m]> ps))
| step_queue s q ps p m :
    ps !! p = Some (WantQueue m) ->
    lstep (mkLState s q ps)
      (mkLState (Z.lor s BM_LOCK_HAS_WAITERS) (q ++ [p]) (<[p := Queued m]> ps))
| step_attempt_again s q ps p m free s' :
    ps !! p = Some (Queued m) -> attempt_word m s = (free, s') ->
    lstep (mkLState s q ps)
      (mkLState s' q (<[p := if free : bool then Dequeueing m else Sleeping m]> ps))
| step_dequeue s q ps p m :
    ps !! p = Some (Dequeueing m) -> p ∈ q ->
    lstep (mkLState s q ps)
      (mkLState (clear_has_waiters (rm p q) s) (rm p q) (<[p := Holding m]> ps))
| step_dequeued_by_other s q ps p m :
    ps !! p = Some (Dequeueing m) -> p ∉ q ->
    lstep (mkLState s q ps) (mkLState (clear_has_waiters q s) q (<[p := DequeuedByOther m]> ps))
| step_absorb s q ps p m :
    ps !! p = Some (DequeuedByOther m) ->
    lstep (mkLState s q ps)
      (mkLState (Z.land s (not64 BM_LOCK_WAKE_IN_PROGRESS)) q (<[p := Holding m]> ps))
| step_awake s q ps p m :
    ps !! p = Some (Sleeping m) -> p ∉ q ->
    lstep (mkLState s q ps)
      (mkLState (Z.land s (not64 BM_LOCK_WAKE_IN_PROGRESS)) q (<[p := Attempting m]> ps))
| step_release s q ps p m check we :
    ps !! p = Some (Holding m) -> release_check m (release_word m s) = (check, we) ->
    lstep (mkLState s q ps)
      (mkLState (release_word m s) q (<[p := if check : bool then Waking we else Idle]> ps))
| step_wakeup s q ps p we woken :
    ps !! p = Some (Waking we) -> woken = scan (mode_in (mkLState s q ps)) q we true ->
    lstep (mkLState s q ps)
      (mkLState (wakeup_word (negb (bool_decide (woken = []))) (bool_decide (left_over woken q = [])) s)
        (left_over woken q) (<[p := Idle]> ps))
| step_other s q ps s' :
    wf_state s' -> lock_field s' = lock_field s ->
    flag s' BM_LOCK_HAS_WAITERS = flag s BM_LOCK_HAS_WAITERS ->
    flag s' BM_LOCK_WAKE_IN_PROGRESS = flag s BM_LOCK_WAKE_IN_PROGRESS ->
    lstep (mkLState s q ps) (mkLState s' q ps).

(** Nobody uses the lock. *)
Definition linit (st : LState) : Prop :=
  wf_state (word st) /\ lock_field (word st) = 0 /\ queue st = [] /\
  flag (word st) BM_LOCK_WAKE_IN_PROGRESS = false /\
  forall p pc, pcs st !! p = Some pc -> pc = Idle.

Definition lreachable (st : LState) : Prop := exists st0, linit st0 /\ rtc lstep st0 st.

(** ** What the holders add up to *)
Definition unit_of (pc : PC) : Z := from_option lock_unit 0 (held_mode pc).
Definition weight (ps : gmap Z PC) : Z := map_fold (fun _ pc acc => unit_of pc + acc) 0 ps.

Lemma unit_nonneg pc : 0 <= unit_of pc.
Proof. unfold unit_of. destruct (held_mode pc) as [[]|]; cbn; lia. Qed.

Lemma weight_insert ps p pc : ps !! p = None -> weight (<[p := pc]> ps) = unit_of pc + weight ps.
Proof. intros H. unfold weight. rewrite map_fold_insert_L; [done| |done]. intros. lia. Qed.

Lemma weight_delete ps p pc :
  ps !! p = Some pc -> weight ps = unit_of pc + weight (delete p ps).
Proof.
  intros H. rewrite <- (insert_delete_id ps p pc H) at 1. apply weight_insert, lookup_delete_eq.
Qed.

Lemma weight_update ps p pc pc' :
  ps !! p = Some pc -> weight (<[p := pc']> ps) = weight ps - unit_of pc + unit_of pc'.
Proof.
  intros H. rewrite <- insert_delete_eq, weight_insert by apply lookup_delete_eq.
  rewrite (weight_delete _ _ _ H). lia.
Qed.

Lemma weight_nonneg ps : 0 <= weight ps.
Proof.
  induction ps as [|p pc ps Hp IH] using map_ind; [done|].
  rewrite weight_insert by done. pose proof (unit_nonneg pc). lia.
Qed.

Lemma weight_ge ps p pc : ps !! p = Some pc -> unit_of pc <= weight ps.
Proof. intros H. rewrite (weight_delete _ _ _ H). pose proof (weight_nonneg (delete p ps)). lia. Qed.

(** Somebody holds the lock. *)
Definition holder (ps : gmap Z PC) : Prop :=
  exists p pc m, ps !! p = Some pc /\ held_mode pc = Some m.

Lemma weight_holder ps : 0 < weight ps -> holder ps.
Proof.
  induction ps as [|p pc ps Hp IH] using map_ind; [done|]. rewrite weight_insert by done. intros H.
  destruct (held_mode pc) as [m|] eqn:Hh.
  - exists p, pc, m. by rewrite lookup_insert_eq.
  - destruct IH as (p' & pc' & m & Hp' & Hm).
    { unfold unit_of in H. rewrite Hh in H. cbn in H. lia. }
    exists p', pc', m. rewrite lookup_insert_ne by congruence. done.
Qed.

(** ** The lock: the word counts the holders, and they are compatible *)
Definition compatible (m1 m2 : BufferLockMode) : bool :=
  match m1, m2 with
  | BUFFER_LOCK_SHARE, BUFFER_LOCK_SHARE
  | BUFFER_LOCK_SHARE, BUFFER_LOCK_SHARE_EXCLUSIVE
  | BUFFER_LOCK_SHARE_EXCLUSIVE, BUFFER_LOCK_SHARE => true
  | _, _ => false
  end.

Definition all_compatible (ps : gmap Z PC) : Prop :=
  forall p q pc1 pc2 m1 m2, p <> q -> ps !! p = Some pc1 -> ps !! q = Some pc2 ->
    held_mode pc1 = Some m1 -> held_mode pc2 = Some m2 -> compatible m1 m2 = true.

Record lock_inv (st : LState) : Prop := {
  li_wf : wf_state (word st);
  li_field : lock_field (word st) = weight (pcs st);
  li_modes : forall p pc, pcs st !! p = Some pc -> good_mode pc;
  li_compat : all_compatible (pcs st)
}.

Lemma compatible_comm m1 m2 : compatible m1 m2 = compatible m2 m1.
Proof. by destruct m1, m2. Qed.

(** A mode that is granted is compatible with the units that are counted. *)
Lemma limit_compatible m m' :
  m <> BUFFER_LOCK_UNLOCK -> m' <> BUFFER_LOCK_UNLOCK -> lock_unit m' < lock_limit m ->
  compatible m' m = true.
Proof. destruct m, m'; cbn; intros; try done; lia. Qed.

Lemma modes_update (ps : gmap Z PC) p pc :
  (forall p pc, ps !! p = Some pc -> good_mode pc) -> good_mode pc ->
  forall p' pc', <[p := pc]> ps !! p' = Some pc' -> good_mode pc'.
Proof. intros H Hg p' pc' [[<- <-]|[_ Hp]]%lookup_insert_Some; [done|by eapply H]. Qed.

(** Giving a lock up, or moving on with what is held already. *)
Lemma compat_weaken ps p pc pc' :
  all_compatible ps -> ps !! p = Some pc -> held_mode pc' = held_mode pc \/ held_mode pc' = None ->
  all_compatible (<[p := pc']> ps).
Proof.
  intros Hc Hp Hm x y pc1 pc2 m1 m2 Hne
    [[<- <-]|[_ Hx]]%lookup_insert_Some [[<- <-]|[_ Hy]]%lookup_insert_Some H1 H2; try done;
    [rewrite H1 in Hm|rewrite H2 in Hm|by eapply (Hc x y)];
    destruct Hm as [Hm|]; try done; symmetry in Hm; [by eapply (Hc p y)|by eapply (Hc x p)].
Qed.

Lemma compat_grant ps p pc pc' m :
  all_compatible ps -> (forall p pc, ps !! p = Some pc -> good_mode pc) ->
  ps !! p = Some pc -> held_mode pc = None -> held_mode pc' = Some m -> m <> BUFFER_LOCK_UNLOCK ->
  weight ps < lock_limit m -> all_compatible (<[p := pc']> ps).
Proof.
  intros Hc Hg Hp Hn Hm' Hm Hw.
  assert (forall y pc2 m2, ps !! y = Some pc2 -> held_mode pc2 = Some m2 ->
    compatible m2 m = true) as Hone.
  { intros y pc2 m2 Hy H2. apply limit_compatible; [done| |].
    - pose proof (Hg _ _ Hy) as Hgood. destruct pc2; cbn in *; congruence.
    - pose proof (weight_ge _ _ _ Hy) as Hge. unfold unit_of in Hge. rewrite H2 in Hge. cbn in Hge. lia. }
  intros x y pc1 pc2 m1 m2 Hne
    [[<- <-]|[_ Hx]]%lookup_insert_Some [[<- <-]|[_ Hy]]%lookup_insert_Some H1 H2; try done.
  - rewrite compatible_comm. simplify_eq. by eapply Hone.
  - simplify_eq. by eapply Hone.
  - by eapply (Hc x y).
Qed.

(** A flag below the lock bits does not touch the field. *)
Lemma field_set s F : field 34 20 F = 0 -> lock_field (Z.lor s F) = lock_field s.
Proof. intros H. by apply field_lor. Qed.
Lemma field_clear s F :
  wf_state s -> field 34 20 F = 0 -> lock_field (Z.land s (not64 F)) = lock_field s.
Proof. intros Hs H. rewrite land_not64 by done. by apply field_ldiff. Qed.
Lemma wf_clear s F : wf_state s -> wf_state (Z.land s (not64 F)).
Proof. intros Hs. rewrite land_not64 by done. by apply wf_ldiff. Qed.
Lemma wf_set s F : wf_state s -> wf_state F -> wf_state (Z.lor s F).
Proof. apply wf_lor. Qed.

Lemma clear_has_waiters_word q s :
  wf_state s -> wf_state (clear_has_waiters q s) /\ lock_field (clear_has_waiters q s) = lock_field s /\
  flag (clear_has_waiters q s) BM_LOCK_WAKE_IN_PROGRESS = flag s BM_LOCK_WAKE_IN_PROGRESS /\
  (q <> [] -> flag (clear_has_waiters q s) BM_LOCK_HAS_WAITERS = flag s BM_LOCK_HAS_WAITERS).
Proof.
  intros Hs. unfold clear_has_waiters. case_bool_decide; cbn; [|done].
  destruct (flag s BM_LOCK_HAS_WAITERS); [|done].
  split_and!; [by apply wf_clear|by apply field_clear| |done].
  rewrite land_not64 by done. by flags.
Qed.

Lemma wakeup_word_spec wip emp s :
  wf_state s -> wf_state (wakeup_word wip emp s) /\ lock_field (wakeup_word wip emp s) = lock_field s /\
  flag (wakeup_word wip emp s) BM_LOCK_WAKE_IN_PROGRESS = wip /\
  (emp = false -> flag (wakeup_word wip emp s) BM_LOCK_HAS_WAITERS = flag s BM_LOCK_HAS_WAITERS) /\
  flag (wakeup_word wip emp s) BM_LOCKED = false.
Proof.
  intros Hs. assert (wf_state (Z.lor s BM_LOCK_WAKE_IN_PROGRESS)) by (by apply wf_set).
  unfold wakeup_word. destruct wip, emp; rewrite !land_not64 by auto using wf_ldiff, wf_clear;
    (split; [auto using wf_ldiff|]); split_and!; try (by flags);
    unfold lock_field; rewrite ?field_ldiff, ?field_lor by done; done.
Qed.

Lemma release_word_spec m s :
  wf_state s -> lock_unit m <= lock_field s ->
  wf_state (release_word m s) /\ lock_field (release_word m s) = lock_field s - lock_unit m /\
  same_rest s (release_word m s).
Proof.
  intros Hs Hm. pose proof (lock_field_range s).
  assert (0 <= lock_unit m) by (by destruct m). unfold release_word.
  replace (s - 2 ^ 34 * lock_unit m) with (s + 2 ^ 34 * (- lock_unit m)) by lia.
  destruct (add_field s (- lock_unit m)) as (? & ? & ?); [done|lia|]. done.
Qed.

Lemma attempt_step m s free s' :
  wf_state s -> m <> BUFFER_LOCK_UNLOCK -> attempt_word m s = (free, s') ->
  (free = true /\ lock_field s < lock_limit m /\ wf_state s' /\
    lock_field s' = lock_field s + lock_unit m /\ same_rest s s') \/
  (free = false /\ lock_limit m <= lock_field s /\ s' = s).
Proof.
  intros Hs Hm. rewrite attempt_word_spec by done.
  destruct (Z.ltb_spec (lock_field s) (lock_limit m)) as [Hl|Hl]; intros [= <- <-]; [left|by right].
  pose proof (lock_field_range s).
  destruct (add_field s (lock_unit m)) as (? & ? & ?); [done| |done].
  destruct m; cbn in *; lia.
Qed.

Lemma lock_inv_keep s q ps p pc pc' s' q' :
  lock_inv (mkLState s q ps) -> ps !! p = Some pc -> good_mode pc' -> wf_state s' ->
  lock_field s' = lock_field s - unit_of pc + unit_of pc' ->
  held_mode pc' = held_mode pc \/ held_mode pc' = None ->
  lock_inv (mkLState s' q' (<[p := pc']> ps)).
Proof.
  intros [Hwf Hf Hg Hc] Hp Hg' Hwf' Hf' Hh. cbn in *. split; cbn; [done| | |].
  - rewrite (weight_update _ _ _ _ Hp). lia.
  - by apply modes_update.
  - by eapply compat_weaken.
Qed.

Lemma lock_inv_grant s q ps p pc pc' m s' :
  lock_inv (mkLState s q ps) -> ps !! p = Some pc -> held_mode pc = None ->
  held_mode pc' = Some m -> good_mode pc' -> m <> BUFFER_LOCK_UNLOCK ->
  lock_field s < lock_limit m -> wf_state s' -> lock_field s' = lock_field s + lock_unit m ->
  lock_inv (mkLState s' q (<[p := pc']> ps)).
Proof.
  intros [Hwf Hf Hg Hc] Hp Hn Hm Hg' Hne Hl Hwf' Hf'. cbn in *. split; cbn; [done| | |].
  - rewrite (weight_update _ _ _ _ Hp). unfold unit_of. rewrite Hn, Hm. cbn. lia.
  - by apply modes_update.
  - eapply compat_grant; try done. lia.
Qed.

(** One attempt, in either place of [BufferLockAcquire]. *)
Lemma lock_inv_attempt s q ps p pc m free s' yes no :
  lock_inv (mkLState s q ps) -> ps !! p = Some pc -> held_mode pc = None ->
  m <> BUFFER_LOCK_UNLOCK -> attempt_word m s = (free, s') ->
  held_mode yes = Some m -> good_mode yes -> held_mode no = None -> good_mode no ->
  lock_inv (mkLState s' q (<[p := if free : bool then yes else no]> ps)).
Proof.
  intros Hi Hp Hn Hm Ha Hy Hgy Hno Hgn.
  destruct (attempt_step m s free s') as [(-> & Hl & Hwf & Hf & _)|(-> & Hl & ->)];
    [apply Hi|done|done|by eapply lock_inv_grant|].
  eapply lock_inv_keep; [done|done|done|apply Hi| |by right].
  unfold unit_of. rewrite Hn, Hno. cbn. lia.
Qed.

Lemma held_unit ps p pc m s q :
  lock_inv (mkLState s q ps) -> ps !! p = Some pc -> held_mode pc = Some m -> lock_unit m <= lock_field s.
Proof.
  intros Hi Hp Hh. pose proof (li_field _ Hi) as Hf. cbn in Hf. rewrite Hf. pose proof (weight_ge _ _ _ Hp) as H.
  unfold unit_of in H. by rewrite Hh in H.
Qed.

Lemma lock_inv_step st st' : lstep st st' -> lock_inv st -> lock_inv st'.
Proof.
  intros Hs Hi. pose proof (li_wf _ Hi) as Hwf.
  destruct Hs as [s q ps p m Hp Hm|s q ps p m free s' Hp Ha|s q ps p m Hp|s q ps p m free s' Hp Ha
    |s q ps p m Hp Hq|s q ps p m Hp Hq|s q ps p m Hp|s q ps p m Hp Hq|s q ps p m chk we Hp Hc
    |s q ps p we woken Hp Hw|s q ps s' Hwf' Hf' H1 H2]; cbn in Hwf;
    try pose proof (li_modes _ Hi _ _ Hp) as Hg.
  - eapply lock_inv_keep; [done..|cbn; lia|by right].
  - by eapply lock_inv_attempt.
  - eapply lock_inv_keep; [done|done|done|by apply wf_set| |by right].
    rewrite field_set by done. cbn. lia.
  - by eapply lock_inv_attempt.
  - destruct (clear_has_waiters_word (rm p q) s) as (? & Hf & _); [done|].
    eapply lock_inv_keep; [done|done|done|done|rewrite Hf; cbn; lia|by left].
  - destruct (clear_has_waiters_word q s) as (? & Hf & _); [done|].
    eapply lock_inv_keep; [done|done|done|done|rewrite Hf; cbn; lia|by left].
  - eapply lock_inv_keep; [done|done|done|by apply wf_clear| |by left].
    rewrite field_clear by done. cbn. lia.
  - eapply lock_inv_keep; [done|done|done|by apply wf_clear| |by right].
    rewrite field_clear by done. cbn. lia.
  - destruct (release_word_spec m s) as (? & Hf & _); [done|by eapply held_unit|].
    eapply lock_inv_keep; [done|done|by destruct chk|done| |right; by destruct chk].
    rewrite Hf. destruct chk; cbn; lia.
  - destruct (wakeup_word_spec (negb (bool_decide (woken = [])))
      (bool_decide (left_over woken q = [])) s) as (? & Hf & _); [done|].
    eapply lock_inv_keep; [done|done|done|done|rewrite Hf; cbn; lia|by right].
  - destruct Hi. cbn in *. split; cbn; [done|congruence|done|done].
Qed.

Lemma lock_inv_init st : linit st -> lock_inv st.
Proof.
  intros (Hwf & Hf & _ & _ & Hi). split; [done| | |].
  - rewrite Hf. symmetry. destruct (Z.le_gt_cases (weight (pcs st)) 0) as [|Hw].
    { pose proof (weight_nonneg (pcs st)). lia. }
    apply Z.lt_gt, Z.gt_lt, weight_holder in Hw as (p & pc & m & Hp & Hm).
    by rewrite (Hi _ _ Hp) in Hm.
  - by intros p pc ->%Hi.
  - by intros p q pc1 pc2 m1 m2 _ ->%Hi _ [=].
Qed.

Lemma lreachable_ind (P : LState -> Prop) st :
  (forall st, linit st -> P st) -> (forall st st', lstep st st' -> P st -> P st') ->
  lreachable st -> P st.
Proof.
  intros Hi Hs (st0 & H0 & Hr). apply Hi in H0. induction Hr; [done|]. apply IHHr. by eapply Hs.
Qed.

Lemma lock_inv_reachable st : lreachable st -> lock_inv st.
Proof. apply lreachable_ind; [apply lock_inv_init|intros ???; by eapply lock_inv_step]. Qed.

(** ** The queue: sleeping processes are not forgotten *)

(** Somebody will let the queue go on: a holder when it releases the lock, a
    process that was taken off the queue and will try again, or a releaser that
    is about to look through the queue. *)
Definition progress (ps : gmap Z PC) (q : list Z) : Prop :=
  holder ps \/
  (exists p pc, ps !! p = Some pc /\ (p ∉ q) /\ will_retry pc = true) \/
  (exists p, ps !! p = Some (Waking true)).

Record queue_inv (st : LState) : Prop := {
  qi_queue : forall p, p ∈ queue st -> exists pc, pcs st !! p = Some pc /\ can_queue pc = true;
  qi_nodup : NoDup (queue st);
  qi_waiters : queue st <> [] -> flag (word st) BM_LOCK_HAS_WAITERS = true;
  qi_wake : flag (word st) BM_LOCK_WAKE_IN_PROGRESS = true ->
    exists p pc, pcs st !! p = Some pc /\ (p ∉ queue st) /\ will_clear pc = true;
  qi_sleep : forall p m, p ∈ queue st -> pcs st !! p = Some (Sleeping m) ->
    progress (pcs st) (queue st)
}.

Lemma scan_sub mode_of q we wse x : x ∈ scan mode_of q we wse -> x ∈ q.
Proof.
  revert we wse. induction q as [|y q IH]; intros we wse; [done|]. cbn.
  rewrite elem_of_cons. destruct (mode_of y), we, wse; intros H;
    try (apply elem_of_cons in H as [->|H]); try (by left);
    first [by apply not_elem_of_nil in H|right; by eapply IH].
Qed.

Lemma scan_nonempty mode_of x q : scan mode_of (x :: q) true true <> [].
Proof. cbn. by destruct (mode_of x). Qed.

Lemma elem_of_left_over x woken q : x ∈ left_over woken q <-> x ∈ q /\ (x ∉ woken).
Proof. unfold left_over. rewrite list_elem_of_filter. naive_solver. Qed.

Lemma holder_update ps p pc pc' :
  holder ps -> ps !! p = Some pc -> held_mode pc = None -> holder (<[p := pc']> ps).
Proof.
  intros (x & pcx & m & Hx & Hm) Hp Hn. exists x, pcx, m. split; [|done].
  rewrite lookup_insert_ne; [done|]. intros <-. congruence.
Qed.

Lemma holder_here ps p pc m : held_mode pc = Some m -> holder (<[p := pc]> ps).
Proof. intros Hm. exists p, pc, m. by rewrite lookup_insert_eq. Qed.

(** [p] moves on, and others need not rely on it. *)
Lemma progress_update ps q p pc pc' q' :
  progress ps q -> ps !! p = Some pc -> held_mode pc = None -> will_retry pc = false ->
  pc <> Waking true -> (forall x, x <> p -> (x ∉ q) -> x ∉ q') -> progress (<[p := pc']> ps) q'.
Proof.
  intros [Hh|[(x & pcx & Hx & Hxq & Hr)|[x Hx]]] Hp Hn Hw Hk Hq.
  - left. by eapply holder_update.
  - right. left. assert (x <> p) by (intros ->; congruence). exists x, pcx.
    rewrite lookup_insert_ne by congruence. auto.
  - right. right. exists x. rewrite lookup_insert_ne by congruence. done.
Qed.

(** A step of [p] that leaves the queue alone. *)
Lemma queue_inv_keep s q ps p pc pc' s' :
  queue_inv (mkLState s q ps) -> ps !! p = Some pc ->
  (p ∈ q -> can_queue pc' = true) ->
  (q <> [] -> flag s' BM_LOCK_HAS_WAITERS = flag s BM_LOCK_HAS_WAITERS) ->
  flag s' BM_LOCK_WAKE_IN_PROGRESS = false \/
    (flag s' BM_LOCK_WAKE_IN_PROGRESS = flag s BM_LOCK_WAKE_IN_PROGRESS /\
     (will_clear pc = true -> will_clear pc' = true)) ->
  (q <> [] -> progress (<[p := pc']> ps) q) ->
  queue_inv (mkLState s' q (<[p := pc']> ps)).
Proof.
  intros [Hq Hnd Hh Hw Hs] Hp Hcan Hhw Hwip Hprog. cbn in *. split; cbn.
  - intros x Hx. destruct (decide (x = p)) as [->|Hne].
    + exists pc'. rewrite lookup_insert_eq. auto.
    + rewrite lookup_insert_ne by done. auto.
  - done.
  - intros Hne. rewrite Hhw by done. auto.
  - intros Hf. destruct Hwip as [|[Hwip Hcl]]; [congruence|]. rewrite Hwip in Hf.
    destruct (Hw Hf) as (x & pcx & Hx & Hxq & Hc). destruct (decide (x = p)) as [->|Hne].
    + exists p, pc'. rewrite lookup_insert_eq. simplify_eq. auto.
    + exists x, pcx. by rewrite lookup_insert_ne.
  - intros x m Hx _. apply Hprog. by intros ->; apply not_elem_of_nil in Hx.
Qed.

Lemma attempt_flags m s free s' :
  wf_state s -> m <> BUFFER_LOCK_UNLOCK -> attempt_word m s = (free, s') ->
  flag s' BM_LOCK_HAS_WAITERS = flag s BM_LOCK_HAS_WAITERS /\
  flag s' BM_LOCK_WAKE_IN_PROGRESS = flag s BM_LOCK_WAKE_IN_PROGRESS.
Proof.
  intros Hs Hm Ha. destruct (attempt_step m s free s' Hs Hm Ha) as [(_ & _ & _ & _ & Hr)|(_ & _ & ->)];
    [|done]. by split; apply same_rest_flag.
Qed.

(** An attempt is refused only while somebody holds the lock. *)
Lemma attempt_holder s q ps p pc m s' free yes no :
  lock_inv (mkLState s q ps) -> ps !! p = Some pc -> held_mode pc = None ->
  m <> BUFFER_LOCK_UNLOCK -> attempt_word m s = (free, s') -> held_mode yes = Some m ->
  holder (<[p := if free : bool then yes else no]> ps).
Proof.
  intros Hi Hp Hn Hm Ha Hy. destruct (attempt_step m s free s' (li_wf _ Hi) Hm Ha)
    as [(-> & _)|(-> & Hl & _)]; [by eapply holder_here|].
  eapply holder_update; [|done|done]. apply weight_holder.
  pose proof (li_field _ Hi) as Hf. cbn in Hf. rewrite <- Hf. destruct m; cbn in *; try lia; done.
Qed.

Lemma queue_not_in s q ps p pc :
  queue_inv (mkLState s q ps) -> ps !! p = Some pc -> can_queue pc = false -> p ∉ q.
Proof. intros Hi Hp Hc Hin. destruct (qi_queue _ Hi _ Hin) as (pc' & Hp' & Hc'). cbn in *. congruence. Qed.

Lemma release_progress s q ps p m check we :
  lock_inv (mkLState s q ps) -> queue_inv (mkLState s q ps) -> ps !! p = Some (Holding m) ->
  release_check m (release_word m s) = (check, we) -> q <> [] ->
  progress (<[p := if check : bool then Waking we else Idle]> ps) q.
Proof.
  intros Hl Hi Hp Hc Hq.
  destruct (release_word_spec m s) as (Hwf & Hf & Hr); [apply Hl|by eapply held_unit|].
  assert (weight (<[p := if check : bool then Waking we else Idle]> ps) =
    lock_field (release_word m s)) as Hw.
  { rewrite (weight_update _ _ _ _ Hp), Hf. pose proof (li_field _ Hl) as E. cbn in E. rewrite E.
    destruct check; unfold unit_of; cbn; lia. }
  unfold release_check in Hc. rewrite lock_mask_0 in Hc.
  destruct (same_rest_wait _ _ Hr) as (E1 & E2 & _).
  pose proof (qi_waiters _ Hi Hq) as E3. cbn in E3. rewrite E1, E2, E3 in Hc. cbn in Hc.
  destruct (Z.eqb_spec (lock_field (release_word m s)) 0) as [Hz|Hz].
  2: { left. apply weight_holder. pose proof (weight_nonneg (<[p := if check then Waking we else Idle]> ps)). lia. }
  destruct (flag s BM_LOCK_WAKE_IN_PROGRESS) eqn:Hwip; cbn in Hc; injection Hc as <- <-.
  - destruct (qi_wake _ Hi Hwip) as (x & pc & Hx & Hxq & Hcl). cbn in *.
    assert (x <> p) by (intros ->; simplify_eq).
    destruct pc as [| | |m'|m'|m'|m'| |]; try done.
    1,2: right; left; eexists x, _; rewrite lookup_insert_ne by done; done.
    all: left; eexists x, _, m'; rewrite lookup_insert_ne by done; done.
  - right. right. exists p. apply lookup_insert_eq.
Qed.

Lemma queue_inv_wakeup s q ps p we woken :
  wf_state s -> queue_inv (mkLState s q ps) -> ps !! p = Some (Waking we) ->
  woken = scan (mode_in (mkLState s q ps)) q we true ->
  queue_inv (mkLState
    (wakeup_word (negb (bool_decide (woken = []))) (bool_decide (left_over woken q = [])) s)
    (left_over woken q) (<[p := Idle]> ps)).
Proof.
  intros Hwf Hi Hp Hw. destruct (wakeup_word_spec (negb (bool_decide (woken = [])))
    (bool_decide (left_over woken q = [])) s Hwf) as (_ & _ & Hwip & Hhw & _).
  assert (forall x, x ∈ woken -> exists pc, <[p := Idle]> ps !! x = Some pc /\ can_queue pc = true)
    as Hwoken.
  { intros x Hx. rewrite Hw in Hx. apply scan_sub in Hx as Hxq.
    destruct (qi_queue _ Hi _ Hxq) as (pc & Hpc & Hcan). exists pc. split; [|done]. cbn in Hpc.
    rewrite lookup_insert_ne; [done|]. intros ->. by simplify_eq. }
  assert (p ∉ q) as Hpq by (by eapply queue_not_in).
  split; cbn.
  - intros x [Hxq _]%elem_of_left_over. destruct (qi_queue _ Hi _ Hxq) as (pc & Hpc & Hcan).
    exists pc. split; [|done]. rewrite lookup_insert_ne; [done|by intros ->].
  - apply NoDup_filter, Hi.
  - intros Hne. rewrite Hhw by (by apply bool_decide_eq_false). apply (qi_waiters _ Hi).
    cbn. by intros ->.
  - rewrite Hwip. intros Hne%negb_true_iff%bool_decide_eq_false.
    destruct woken as [|x woken]; [done|]. destruct (Hwoken x) as (pc & Hpc & Hcan); [left|].
    exists x, pc. split; [done|]. split; [|by destruct pc].
    rewrite elem_of_left_over. intros [_ H]. apply H. left.
  - intros x m [Hxq Hxw]%elem_of_left_over Hx. destruct we.
    + destruct q as [|y q]; [by apply not_elem_of_nil in Hxq|].
      destruct woken as [|z woken]; [by destruct (scan_nonempty (mode_in (mkLState s (y :: q) ps)) y q)|].
      destruct (Hwoken z) as (pc & Hpc & Hcan); [left|].
      assert (z ∉ left_over (z :: woken) (y :: q)) as Hz.
      { rewrite elem_of_left_over. intros [_ H]. apply H. left. }
      destruct pc as [| | |m'|m'|m'|m'| |]; try done; [right; left; by eexists z, _..|].
      left. by eexists z, _, m'.
    + rewrite lookup_insert_ne in Hx by (by intros ->).
      eapply progress_update; [by eapply (qi_sleep _ Hi)|done..|].
      intros z _ Hz. rewrite elem_of_left_over. by intros [].
Qed.

Lemma queue_inv_enqueue s q ps p m :
  queue_inv (mkLState s q ps) -> ps !! p = Some (WantQueue m) ->
  queue_inv (mkLState (Z.lor s BM_LOCK_HAS_WAITERS) (q ++ [p]) (<[p := Queued m]> ps)).
Proof.
  intros Hi Hp.
  assert (p ∉ q) as Hpq by (by eapply queue_not_in). destruct Hi as [Hq Hnd Hh Hwk Hsl]. cbn in *.
  split; cbn.
  - intros x Hx. destruct (decide (x = p)) as [->|Hne]; [exists (Queued m); by rewrite lookup_insert_eq|].
    rewrite lookup_insert_ne by done. apply Hq. apply elem_of_app in Hx as [?|?%list_elem_of_singleton]; done.
  - apply NoDup_app. split_and!; [done| |apply NoDup_singleton]. intros x Hx ->%list_elem_of_singleton. done.
  - intros _. by flags.
  - flags. intros Hf. destruct (Hwk Hf) as (x & pc & Hx & Hxq & Hcl). exists x, pc.
    assert (x <> p) by (intros ->; simplify_eq). rewrite lookup_insert_ne by done.
    split_and!; [done| |done]. rewrite elem_of_app, list_elem_of_singleton. naive_solver.
  - intros x m' Hx Hxs. assert (x <> p) by (intros ->; rewrite lookup_insert_eq in Hxs; done).
    rewrite lookup_insert_ne in Hxs by done. eapply progress_update; [|done..|].
    + eapply Hsl; [|done]. apply elem_of_app in Hx as [?|?%list_elem_of_singleton]; done.
    + intros y Hy Hyq. rewrite elem_of_app, list_elem_of_singleton. naive_solver.
Qed.

Lemma queue_inv_dequeue s q ps p m :
  wf_state s -> queue_inv (mkLState s q ps) -> ps !! p = Some (Dequeueing m) -> p ∈ q ->
  queue_inv (mkLState (clear_has_waiters (rm p q) s) (rm p q) (<[p := Holding m]> ps)).
Proof.
  intros Hwf Hi Hp Hq.
  destruct (clear_has_waiters_word (rm p q) s) as (_ & _ & Hwip & Hhw); [done|].
  destruct Hi as [Hq' Hnd Hh Hwk Hsl]. cbn in *. split; cbn.
  - intros x [Hx Hne]%elem_of_rm. rewrite lookup_insert_ne by done. auto.
  - by apply NoDup_filter.
  - intros Hne. rewrite Hhw by done. apply Hh. by intros ->.
  - rewrite Hwip. intros Hf. destruct (Hwk Hf) as (x & pc & Hx & Hxq & Hcl). exists x, pc.
    assert (x <> p) by (by intros ->). rewrite lookup_insert_ne by done.
    split_and!; [done| |done]. rewrite elem_of_rm. naive_solver.
  - intros x m' _ _. left. by eapply holder_here.
Qed.

Lemma queue_inv_step st st' : lstep st st' -> lock_inv st -> queue_inv st -> queue_inv st'.
Proof.
  intros Hs Hl Hi. pose proof (li_wf _ Hl) as Hwf.
  destruct Hs as [s q ps p m Hp Hm|s q ps p m free s' Hp Ha|s q ps p m Hp|s q ps p m free s' Hp Ha
    |s q ps p m Hp Hq|s q ps p m Hp Hq|s q ps p m Hp|s q ps p m Hp Hq|s q ps p m chk we Hp Hc
    |s q ps p we woken Hp Hw|s q ps s' Hwf' Hf' H1 H2]; cbn in Hwf;
    try pose proof (li_modes _ Hl _ _ Hp) as Hg.
  - assert (p ∉ q) by (by eapply queue_not_in).
    eapply queue_inv_keep; [done|done|done|done|by right|].
    intros _. right. left. exists p, (Attempting m). by rewrite lookup_insert_eq.
  - destruct (attempt_flags m s free s' Hwf Hg Ha). assert (p ∉ q) by (by eapply queue_not_in).
    eapply queue_inv_keep; [done|done|done|done|by right|].
    intros _. left. by eapply attempt_holder.
  - by apply queue_inv_enqueue.
  - destruct (attempt_flags m s free s' Hwf Hg Ha).
    eapply queue_inv_keep; [done|done|by destruct free|done| |].
    + right. split; [done|by destruct free].
    + intros _. left. by eapply attempt_holder.
  - by apply queue_inv_dequeue.
  - destruct (clear_has_waiters_word q s) as (_ & _ & Hwip & Hhw); [done|].
    eapply queue_inv_keep; [done|done|done|done|by right|]. intros _. left. by eapply holder_here.
  - assert (p ∉ q) by (by eapply queue_not_in). rewrite land_not64 by done.
    eapply queue_inv_keep; [done|done|done|intros _; by flags|left; by flags|].
    intros _. left. by eapply holder_here.
  - rewrite land_not64 by done.
    eapply queue_inv_keep; [done|done|done|intros _; by flags|left; by flags|].
    intros _. right. left. exists p, (Attempting m). by rewrite lookup_insert_eq.
  - assert (p ∉ q) by (by eapply queue_not_in).
    destruct (release_word_spec m s) as (_ & _ & Hr); [done|by eapply held_unit|].
    eapply queue_inv_keep; [done|done|done|intros _; by apply same_rest_flag| |].
    + right. split; [by apply same_rest_flag|done].
    + by eapply release_progress.
  - eapply queue_inv_wakeup; done.
  - destruct Hi as [Hq Hnd Hh Hwk Hsl]. cbn in *. split; cbn; [done|done|by rewrite H1|by rewrite H2|done].
Qed.

Lemma queue_inv_reachable st : lreachable st -> lock_inv st /\ queue_inv st.
Proof.
  apply (lreachable_ind (fun st => lock_inv st /\ queue_inv st)).
  - intros st0 Hi. split; [by apply lock_inv_init|]. destruct Hi as (_ & _ & Hq & Hw & _).
    split; rewrite ?Hq; try done; [by intros ? ?%not_elem_of_nil|apply NoDup_nil_2|by rewrite Hw|].
    by intros ? ? ?%not_elem_of_nil.
  - intros st1 st2 Hs [Hl Hq]. split; [by eapply lock_inv_step|by eapply queue_inv_step].
Qed.

(** ** Precision: with at most [MAX_BACKENDS] processes no carry reaches the
    share-exclusive bit, and an attempt is refused only for a conflict *)
Lemma weight_shares ps :
  (forall p pc, ps !! p = Some pc -> unit_of pc <= 1) -> weight ps <= Z.of_nat (size ps).
Proof.
  induction ps as [|p pc ps Hp IH] using map_ind; [done|]. intros H.
  rewrite weight_insert, map_size_insert_None by done.
  pose proof (H p pc (lookup_insert_eq ps p pc)). rewrite Nat2Z.inj_succ.
  assert (weight ps <= Z.of_nat (size ps)); [|lia]. apply IH. intros q pcq Hq.
  apply (H q). rewrite lookup_insert_ne; [done|]. congruence.
Qed.

Lemma weight_one_sx ps q pc :
  ps !! q = Some pc -> held_mode pc = Some BUFFER_LOCK_SHARE_EXCLUSIVE -> all_compatible ps ->
  weight ps <= 2 ^ 18 + (Z.of_nat (size ps) - 1).
Proof.
  intros Hq Hm Hc. rewrite (weight_delete _ _ _ Hq).
  assert (unit_of pc = 2 ^ 18) as -> by (unfold unit_of; by rewrite Hm).
  assert (weight (delete q ps) <= Z.of_nat (size (delete q ps))) as Hw.
  { apply weight_shares. intros x pcx [Hne Hx]%lookup_delete_Some. unfold unit_of.
    destruct (held_mode pcx) as [m|] eqn:E; cbn; [|lia].
    pose proof (Hc q x pc pcx _ _ Hne Hq Hx Hm E). by destruct m. }
  rewrite (map_size_delete_Some _ _ (mk_is_Some _ _ Hq)) in Hw.
  assert (size ps <> 0%nat); [|lia]. intros E%map_size_empty_iff. by rewrite E in Hq.
Qed.

Lemma granted_if_compatible ps m :
  m <> BUFFER_LOCK_UNLOCK -> Z.of_nat (size ps) <= MAX_BACKENDS -> all_compatible ps ->
  (forall q pc m', ps !! q = Some pc -> held_mode pc = Some m' -> compatible m' m = true) ->
  weight ps < lock_limit m.
Proof.
  intros Hm Hsz Hc Hall. change MAX_BACKENDS with (2 ^ 18 - 1) in Hsz.
  assert (m <> BUFFER_LOCK_EXCLUSIVE -> forall q pc, ps !! q = Some pc -> 1 < unit_of pc ->
    held_mode pc = Some BUFFER_LOCK_SHARE_EXCLUSIVE /\ m = BUFFER_LOCK_SHARE) as Hbig.
  { intros Hne q pc Hq Hu. unfold unit_of in Hu. destruct (held_mode pc) as [m'|] eqn:E; [|done].
    pose proof (Hall _ _ _ Hq E) as H'. by destruct m, m'. }
  assert ((exists q pc, ps !! q = Some pc /\ 1 < unit_of pc) \/
    forall q pc, ps !! q = Some pc -> unit_of pc <= 1) as Hd.
  { destruct (decide (map_Forall (fun _ pc => unit_of pc <= 1) ps)) as [H|H]; [by right|left].
    apply map_not_Forall in H as (q & pc & Hq & Hu); [|apply _]. exists q, pc. split; [done|lia]. }
  assert (m = BUFFER_LOCK_EXCLUSIVE -> weight ps <= 0) as Hex.
  { intros ->. apply Z.le_ngt. intros (q & pc & m' & Hq & Hm')%weight_holder.
    specialize (Hall _ _ _ Hq Hm'). by destruct m'. }
  destruct Hd as [(q & pc & Hq & Hu)|Hall1].
  - destruct (decide (m = BUFFER_LOCK_EXCLUSIVE)) as [->|Hne]; [specialize (Hex eq_refl); cbn; lia|].
    destruct (Hbig Hne _ _ Hq Hu) as [Hsx ->].
    pose proof (weight_one_sx _ _ _ Hq Hsx Hc). cbn. lia.
  - pose proof (weight_shares _ Hall1). destruct m; cbn; try done; try lia.
    specialize (Hex eq_refl). lia.
Qed.

(** ** The theorems *)

(** C18. Mutual exclusion of the content lock: in every state that any number of
    processes can reach by interleaving the atomic pieces of [BufferLockAcquire]
    and [BufferLockUnlock], two processes never hold conflicting modes, and the
    lock bits of the state word are the sum of the modes that are held. *)
Theorem content_lock_exclusion st :
  lreachable st ->
  lock_field (word st) = weight (pcs st) /\
  forall p q pc1 pc2 m1 m2, p <> q -> pcs st !! p = Some pc1 -> pcs st !! q = Some pc2 ->
    held_mode pc1 = Some m1 -> held_mode pc2 = Some m2 -> compatible m1 m2 = true.
Proof. intros Hi%lock_inv_reachable. split; apply Hi. Qed.

(** C19. No lost wake-up: whenever a process sleeps in the queue of a content
    lock, somebody holds the lock, or a process that was taken off the queue is
    going to try again, or a releaser is about to look through the queue for
    waiters of all modes. *)
Theorem content_lock_no_lost_wakeup st p m :
  lreachable st -> p ∈ queue st -> pcs st !! p = Some (Sleeping m) -> progress (pcs st) (queue st).
Proof. intros [_ Hq]%queue_inv_reachable. by apply (qi_sleep _ Hq). Qed.

(** C20. With at most [MAX_BACKENDS] processes [BufferLockAttempt] is exact: it
    gets the lock if and only if no other holder's mode conflicts with it. *)
Theorem content_lock_attempt_exact st m :
  lreachable st -> m <> BUFFER_LOCK_UNLOCK -> Z.of_nat (size (pcs st)) <= MAX_BACKENDS ->
  fst (attempt_word m (word st)) = true <->
  forall q pc m', pcs st !! q = Some pc -> held_mode pc = Some m' -> compatible m' m = true.
Proof.
  intros Hi%lock_inv_reachable Hm Hsz. rewrite attempt_word_spec by (done || apply Hi). cbn.
  rewrite (li_field _ Hi), Z.ltb_lt. split.
  - intros Hl q pc m' Hq Hm'. apply limit_compatible; [done| |].
    + pose proof (li_modes _ Hi _ _ Hq). destruct pc; cbn in *; congruence.
    + pose proof (weight_ge _ _ _ Hq) as Hge. unfold unit_of in Hge. rewrite Hm' in Hge. cbn in Hge. lia.
  - intros Hall. apply granted_if_compatible; try done. apply Hi.
Qed.

(** ** A run: process 1 holds the lock exclusively, process 2 sleeps *)
Definition two_procs (pc1 pc2 : PC) : gmap Z PC := <[1 := pc1]> (<[2 := pc2]> ∅).
Definition sleeping_state : LState :=
  mkLState (Z.lor BM_LOCK_VAL_EXCLUSIVE BM_LOCK_HAS_WAITERS) [2]
    (two_procs (Holding BUFFER_LOCK_EXCLUSIVE) (Sleeping BUFFER_LOCK_SHARE)).

Lemma two_procs_1 pc1 pc2 pc : <[1 := pc]> (two_procs pc1 pc2) = two_procs pc pc2.
Proof. apply insert_insert_eq. Qed.
Lemma two_procs_2 pc1 pc2 pc : <[2 := pc]> (two_procs pc1 pc2) = two_procs pc1 pc.
Proof. unfold two_procs. by rewrite insert_insert_ne, insert_insert_eq. Qed.

Lemma sleeping_reachable : lreachable sleeping_state.
Proof.
  exists (mkLState 0 [] (two_procs Idle Idle)). split.
  { split_and!; try done. intros p pc. cbn. unfold two_procs.
    intros [[<- <-]|[_ [[<- <-]|[_ []%lookup_empty_Some]]%lookup_insert_Some]]%lookup_insert_Some; done. }
  eapply rtc_l; [by apply (step_start _ _ _ 1 BUFFER_LOCK_EXCLUSIVE)|]. rewrite two_procs_1.
  eapply rtc_l; [by apply (step_attempt _ _ _ 1 BUFFER_LOCK_EXCLUSIVE true BM_LOCK_VAL_EXCLUSIVE)|].
  rewrite two_procs_1.
  eapply rtc_l; [by apply (step_start _ _ _ 2 BUFFER_LOCK_SHARE)|]. rewrite two_procs_2.
  eapply rtc_l; [by apply (step_attempt _ _ _ 2 BUFFER_LOCK_SHARE false BM_LOCK_VAL_EXCLUSIVE)|].
  rewrite two_procs_2.
  eapply rtc_l; [by apply (step_queue _ _ _ 2 BUFFER_LOCK_SHARE)|]. rewrite two_procs_2.
  eapply rtc_l; [by apply (step_attempt_again _ _ _ 2 BUFFER_LOCK_SHARE false
    (Z.lor BM_LOCK_VAL_EXCLUSIVE BM_LOCK_HAS_WAITERS))|].
  by rewrite two_procs_2.
Qed.

Lemma content_lock_exclusion_witness :
  lreachable sleeping_state /\ lock_field (word sleeping_state) = 2 ^ 19.
Proof.
  split; [exact sleeping_reachable|].
  destruct (content_lock_exclusion sleeping_state sleeping_reachable) as [Hf _].
  rewrite Hf. vm_compute. reflexivity.
Defined.

Lemma content_lock_no_lost_wakeup_witness : progress (pcs sleeping_state) (queue sleeping_state).
Proof.
  apply (content_lock_no_lost_wakeup sleeping_state 2 BUFFER_LOCK_SHARE).
  - exact sleeping_reachable.
  - by left.
  - vm_compute. reflexivity.
Defined.

Lemma content_lock_attempt_exact_witness :
  fst (attempt_word BUFFER_LOCK_SHARE (word sleeping_state)) = true <->
  forall q pc m', pcs sleeping_state !! q = Some pc -> held_mode pc = Some m' ->
    compatible m' BUFFER_LOCK_SHARE = true.
Proof.
  apply (content_lock_attempt_exact sleeping_state BUFFER_LOCK_SHARE).
  - exact sleeping_reachable.
  - discriminate.
  - vm_compute. discriminate.
Defined.
