(* ===== verification/LockRun.v ===== *)
(** * What the content lock functions do

    [BufferLockAttempt] is one atomic step under any interference.  Without
    interference: acquiring a free lock, releasing it with and without waiters,
    and that the two are inverse. *)
From S2P Require Import Prelude BufState BufTag Shmem Concurrency PrivateRefCount Sample.
From S2P Require Import LocalBuf ContentLock LockWord LockProtocol.

(** ** The backend after an operation that only touched its private counts *)
Definition tracks (m0 m' : Backend) (mu : gmap Z PrivateRefCountData) : Prop :=
  prc_inv m' mu /\ prc_frame m0 m'.

Lemma prc_inv_holdoff m mu v : prc_inv m mu -> prc_inv (with_InterruptHoldoffCount v m) mu.
Proof. intros []. by split. Qed.
Lemma prc_frame_holdoff m m' v :
  prc_frame m m' -> prc_frame (with_InterruptHoldoffCount v m) (with_InterruptHoldoffCount v m').
Proof. intros []. by split. Qed.

Lemma pinned_entry_spec w mu b do_move e :
  prc_inv (me w) mu -> 0 < b -> mu !! b = Some e ->
  exists m' ref, pinned_entry b do_move w = (Ret ref, with_me m' w) /\
    tracks (me w) m' mu /\ ref_ok m' ref b /\ forall w', me w' = m' -> ref_data ref w' = (Ret e, w').
Proof.
  intros Hinv Hb Hmu. destruct (GetEntry_spec w mu b do_move Hinv Hb) as (m' & res & Hrun & Hinv' & Hfr & Hf).
  unfold pinned_entry. exists m'. destruct res as [ref|]; cbn in Hf; [|congruence].
  exists ref. run Hrun. split; [done|]. split; [done|]. split; [by apply Hf|].
  intros w' <-. destruct (ref_data_spec w' mu ref b Hinv' Hb) as (d & Hd & Hr); [by apply Hf|].
  rewrite Hr. congruence.
Qed.

Lemma set_lockmode_spec w mu ref b e mode :
  prc_inv (me w) mu -> 0 < b -> mu !! b = Some e -> ref_ok (me w) ref b ->
  exists m', set_lockmode ref mode w = (Ret tt, with_me m' w) /\
    tracks (me w) m' (<[b := mkRefData (data_refcount e) mode]> mu).
Proof.
  intros Hinv Hb Hmu Href. destruct (ref_data_spec w mu ref b Hinv Hb Href) as (d & Hd & Hr).
  assert (d = e) as -> by congruence.
  destruct (set_ref_data_spec w mu ref b (mkRefData (data_refcount e) mode) Hinv Hb Href)
    as (m' & Hrun & Hinv' & Hfr & _).
  exists m'. unfold set_lockmode. run Hr. done.
Qed.

(** ** One attempt *)

(** What the result says about the moment of the swap. *)
Definition attempt_post (pr : Proto) (buf : Z) (mode : BufferLockMode) (w : World)
    (o : outcome bool) (w' : World) : Prop :=
  match o with
  | Ret mustwait => exists w1 d, evolves pr w w1 /\ desc_at w1 buf d /\
      attempt_word mode (state d) = (negb mustwait, snd (attempt_word mode (state d))) /\
      w' = set_desc buf (with_state (snd (attempt_word mode (state d))) d) w1
  | Spin => True
  | _ => False
  end.

Lemma attempt_loop_post pr buf mode w w1 s :
  0 <= buf < pr_n pr -> evolves pr w w1 ->
  wp (forever (fun old_state =>
    let '(lock_free, desired_state) := attempt_word mode old_state in
    let* '(ok, seen) := pg_atomic_compare_exchange_u64 buf old_state desired_state in
    if ok then ret (Break (negb lock_free)) else ret (Continue seen)) s) (attempt_post pr buf mode w) w1.
Proof.
  intros Hb Hev. apply (wp_forever_partial (fun _ w' => evolves pr w w')); [done| |done].
  clear s w1 Hev. intros s w1 Hev. destruct (attempt_word mode s) as [free s'] eqn:Ha.
  apply wp_bind, (wp_pg_atomic_compare_exchange_u64 pr); [apply Hev|done| |].
  - intros w2 d Hev2 Hd _ <- _ _. cbn [bind_post]. apply wp_ret. cbn.
    exists w2, d. rewrite Ha, negb_involutive. split; [by eapply evolves_trans|done].
  - intros w2 d Hev2 _ _ _ _ _. cbn [bind_post]. apply wp_ret. cbn. by eapply evolves_trans.
Qed.

(** Under any interference that respects what this backend owns,
    [BufferLockAttempt] never runs into undefined behaviour, and when it returns
    there was one moment at which the shared state made the step of the lock
    protocol: the lock was free for the mode and our unit was added, or it was not
    free and nothing changed; the result says which. *)
Theorem BufferLockAttempt_atomic pr buf mode w :
  env_ok pr w -> 0 <= buf < pr_n pr ->
  wp (BufferLockAttempt buf mode) (attempt_post pr buf mode w) w.
Proof.
  intros Henv Hb. unfold BufferLockAttempt. apply wp_bind, (wp_pg_atomic_read_u64 pr); [done..|].
  intros w1 d Hev _ _ _ _. cbn [bind_post]. by apply attempt_loop_post.
Qed.

Lemma BufferLockAttempt_quiet w buf d mode :
  quiet w -> (0 < gas (me w))%nat -> desc_at w buf d ->
  BufferLockAttempt buf mode w = (Ret (negb (fst (attempt_word mode (state d)))),
    set_desc buf (with_state (snd (attempt_word mode (state d))) d) w).
Proof.
  intros Hq Hg Hd. unfold BufferLockAttempt, forever. run (read_quiet _ Hq _ _ Hd).
  destruct (gas (me w)) as [|g]; [lia|]. apply iter_break.
  destruct (attempt_word mode (state d)) as [free s'].
  by run (cas_quiet _ Hq _ _ s' Hd).
Qed.

(** ** A free lock *)

(** This backend has [buf] pinned and does not hold its content lock. *)
Record pinned_free (mu : gmap Z PrivateRefCountData) (buf : Z) (w : World) (d : BufferDesc)
    (e : PrivateRefCountData) : Prop := {
  pf_quiet : quiet w;
  pf_gas : (0 < gas (me w))%nat;
  pf_buf : 0 <= buf;
  pf_desc : desc_at w buf d;
  pf_wf : wf_state (state d);
  pf_prc : prc_inv (me w) mu;
  pf_entry : mu !! (buf + 1) = Some e
}.

Definition holdoff (k : Z) (m : Backend) : Backend :=
  with_InterruptHoldoffCount (InterruptHoldoffCount m + k) m.

Lemma BufferLockAcquire_run mu buf w d e mode :
  pinned_free mu buf w d e -> data_lockmode e = BUFFER_LOCK_UNLOCK -> mode <> BUFFER_LOCK_UNLOCK ->
  lock_field (state d) < lock_limit mode ->
  exists m', BufferLockAcquire (buf + 1) buf mode w =
      (Ret tt, with_me m' (set_desc buf (with_state (u64 (state d + 2 ^ 34 * lock_unit mode)) d) w)) /\
    tracks (holdoff 1 (me w)) m' (<[buf + 1 := mkRefData (data_refcount e) mode]> mu).
Proof.
  intros [Hq Hg Hb Hd Hwf Hinv He] Hun Hm Hl.
  destruct (pinned_entry_spec w mu (buf + 1) true e) as (m1 & ref & Hrun & [Hinv1 Hfr1] & Href & Hdata);
    [done|lia|done|].
  unfold BufferLockAcquire. run Hrun. run (Hdata (with_me m1 w) eq_refl).
  rewrite c_assert_ok by (by rewrite Hun). unfold HOLD_INTERRUPTS, modify_me, modify.
  unfold bind at 1. cbn -[set_lockmode repay_wakeups acquire_round].
  set (w1 := upd_me _ _).
  assert (attempt_word mode (state d) = (true, u64 (state d + 2 ^ 34 * lock_unit mode))) as Ha.
  { rewrite attempt_word_spec by done. by rewrite (proj2 (Z.ltb_lt _ _) Hl). }
  assert (BufferLockAttempt buf mode w1 = (Ret false,
    set_desc buf (with_state (u64 (state d + 2 ^ 34 * lock_unit mode)) d) w1)) as Hatt.
  { rewrite (BufferLockAttempt_quiet w1 buf d mode), Ha; [done|done| |done].
    cbn. by rewrite (fr_gas _ _ Hfr1). }
  assert (forever (acquire_round buf mode) 0 w1 = (Ret 0,
    set_desc buf (with_state (u64 (state d + 2 ^ 34 * lock_unit mode)) d) w1)) as Hloop.
  { unfold forever. cbn. rewrite (fr_gas _ _ Hfr1). destruct (gas (me w)); [lia|].
    apply iter_break. unfold acquire_round. by run Hatt. }
  run Hloop.
  destruct (set_lockmode_spec (set_desc buf (with_state (u64 (state d + 2 ^ 34 * lock_unit mode)) d) w1)
    mu ref (buf + 1) e mode) as (m2 & Hset & Hinv2 & Hfr2);
    [by apply prc_inv_holdoff|lia|done|done|].
  run Hset. exists m2. split; [done|]. split; [done|].
  etrans; [|exact Hfr2]. cbn. unfold holdoff. rewrite (fr_holdoff _ _ Hfr1).
  by apply prc_frame_holdoff.
Qed.

(** ** Waking waiters *)
Definition update_proc (f : PGPROC -> PGPROC) (x : Z) (procs : list PGPROC) : list PGPROC :=
  match lookupZ procs x with Some p => insertZ x (f p) procs | None => procs end.
Definition update_procs (f : PGPROC -> PGPROC) (l : list Z) (procs : list PGPROC) : list PGPROC :=
  foldl (fun procs x => update_proc f x procs) procs l.

Definition proc_mode (procs : list PGPROC) (x : Z) : BufferLockMode :=
  match lookupZ procs x with Some p => lwWaitMode p | None => BUFFER_LOCK_UNLOCK end.

Lemma lookup_update_proc f x procs y :
  lookupZ (update_proc f x procs) y =
    if decide (y = x) then f <$> lookupZ procs y else lookupZ procs y.
Proof.
  unfold update_proc. destruct (lookupZ procs x) as [p|] eqn:Hx; case_decide as Hy; subst.
  - rewrite Hx. cbn. apply lookupZ_insertZ_eq. by apply lookupZ_Some in Hx.
  - by rewrite lookupZ_insertZ_ne.
  - by rewrite Hx.
  - done.
Qed.

Lemma lookup_update_procs f l procs y :
  NoDup l -> lookupZ (update_procs f l procs) y =
    if decide (y ∈ l) then f <$> lookupZ procs y else lookupZ procs y.
Proof.
  revert procs. induction l as [|x l IH]; intros procs Hnd.
  { by destruct (decide _) as [?%not_elem_of_nil|]. }
  apply NoDup_cons in Hnd as [Hx Hnd]. cbn [update_procs foldl]. fold (update_procs f l (update_proc f x procs)).
  rewrite IH, lookup_update_proc by done. destruct (decide (y = x)) as [->|Hne].
  - rewrite decide_False, decide_True by (done || left). done.
  - destruct (decide (y ∈ l)) as [Hl|Hl].
    + by rewrite decide_True by (by right).
    + rewrite decide_False; [done|]. by rewrite elem_of_cons; intros [|].
Qed.

Lemma scan_ext f g q we wse :
  (forall x, x ∈ q -> f x = g x) -> scan f q we wse = scan g q we wse.
Proof.
  revert we wse. induction q as [|x q IH]; intros we wse H; [done|]. cbn.
  rewrite <- (H x) by left. assert (forall y, y ∈ q -> f y = g y) as H' by (intros; apply H; by right).
  destruct (f x), we, wse; rewrite ?IH by done; done.
Qed.

Lemma scan_NoDup f q we wse : NoDup q -> NoDup (scan f q we wse).
Proof.
  revert we wse. induction q as [|x q IH]; intros we wse; [done|]. intros [Hx Hnd]%NoDup_cons. cbn.
  destruct (f x), we, wse; try (by apply NoDup_singleton); try (by apply IH);
    (apply NoDup_cons; split; [by intros ?%scan_sub|by apply IH]).
Qed.

Definition set_procs (procs : list PGPROC) (w : World) : World := upd_shm (with_allProcs procs) w.

(** Every process in [q] is waiting. *)
Definition all_waiting (procs : list PGPROC) (q : list Z) : Prop :=
  forall x, x ∈ q -> exists p, lookupZ procs x = Some p /\ lwWaiting p = LW_WS_WAITING.

Lemma left_over_cons x woken q : left_over (x :: woken) q = left_over woken (rm x q).
Proof.
  unfold left_over, rm. rewrite list_filter_filter. apply list_filter_iff. intros y.
  rewrite elem_of_cons. naive_solver.
Qed.

Lemma left_over_nil q : left_over [] q = q.
Proof. unfold left_over. induction q as [|x q IH]; [done|]. rewrite filter_cons_True by apply not_elem_of_nil. by rewrite IH. Qed.

(** Computes the comparisons of two known modes. *)
Ltac mode_tests :=
  repeat match goal with
  | |- context [@bool_decide (@eq BufferLockMode ?a ?b) ?D] =>
      let v := eval vm_compute in (@bool_decide (@eq BufferLockMode a b) D) in
      change (@bool_decide (@eq BufferLockMode a b) D) with v
  end.

(** Taking [x] off the queue. *)
Definition wake_one_world (buf x : Z) (w : World) (d : BufferDesc) : World :=
  set_procs (update_proc (with_lwWaiting LW_WS_PENDING_WAKEUP) x (allProcs (shm w)))
    (set_desc buf (with_lock_waiters (rm x (lock_waiters d)) d) w).

Lemma wake_one {A} buf x w d p (k : M A) :
  desc_at w buf d -> lookupZ (allProcs (shm w)) x = Some p ->
  (let* d0 := deref buf in
   store_desc buf (with_lock_waiters (rm x (lock_waiters d0)) d0) ;;
   c_assert true "queued process does not wait" ;;
   set_proc x (with_lwWaiting LW_WS_PENDING_WAKEUP p) ;; k) w = k (wake_one_world buf x w d).
Proof.
  intros Hd Hp. run (deref_run _ _ _ Hd). unfold store_desc, modify_shm, modify. unfold bind at 1.
  rewrite c_assert_ok by done. unfold set_proc, modify_shm, modify, bind. cbn.
  unfold wake_one_world, set_procs, update_proc. cbn. by rewrite Hp.
Qed.

Lemma wake_scan_run buf iter we wse : forall w d,
  desc_at w buf d -> NoDup iter -> all_waiting (allProcs (shm w)) iter ->
  let woken := scan (proc_mode (allProcs (shm w))) iter we wse in
  wake_scan buf iter we wse w = (Ret woken,
    set_procs (update_procs (with_lwWaiting LW_WS_PENDING_WAKEUP) woken (allProcs (shm w)))
      (set_desc buf (with_lock_waiters (left_over woken (lock_waiters d)) d) w)).
Proof.
  revert we wse. induction iter as [|x iter IH]; intros we wse w d Hd Hnd Hw.
  { cbn. rewrite left_over_nil. f_equal. replace (with_lock_waiters _ d) with d by (by destruct d).
    rewrite set_desc_id by done. by destruct w as [[] ? ?]. }
  apply NoDup_cons in Hnd as [Hx Hnd]. destruct (Hw x ltac:(left)) as (p & Hp & Hwait).
  assert (all_waiting (allProcs (shm w)) iter) as Hw' by (intros y Hy; apply Hw; by right).
  assert (proc_mode (allProcs (shm w)) x = lwWaitMode p) as Hmode by (unfold proc_mode; by rewrite Hp).
  assert (GetPGProcByNumber x w = (Ret p, w)) as Hget.
  { unfold GetPGProcByNumber, bind, gets. by rewrite Hp. }
  assert (forall (k : M (list Z)), _) as Hwake by (intros k; exact (wake_one buf x w d p k Hd Hp)).
  set (w1 := wake_one_world buf x w d) in *.
  assert (forall we' wse', wake_scan buf iter we' wse' w1 =
    (Ret (scan (proc_mode (allProcs (shm w))) iter we' wse'),
     set_procs (update_procs (with_lwWaiting LW_WS_PENDING_WAKEUP)
         (x :: scan (proc_mode (allProcs (shm w))) iter we' wse') (allProcs (shm w)))
       (set_desc buf (with_lock_waiters
         (left_over (x :: scan (proc_mode (allProcs (shm w))) iter we' wse') (lock_waiters d)) d) w)))
    as Hrest.
  { intros we' wse'. rewrite (IH we' wse' w1 (with_lock_waiters (rm x (lock_waiters d)) d));
      [|by apply (desc_at_set_eq w _ d)|done|].
    - rewrite left_over_cons. cbn.
      rewrite (scan_ext _ (proc_mode (allProcs (shm w)))).
      + f_equal. unfold set_procs, set_desc, upd_shm. cbn. by rewrite insertZ_insertZ.
      + intros y _. unfold proc_mode. rewrite lookup_update_proc. case_decide; [|done].
        by destruct (lookupZ _ y).
    - intros y Hy. destruct (Hw' y Hy) as (py & Hpy & Hyw). exists py. cbn.
      rewrite lookup_update_proc, decide_False by (by intros ->). done. }
  cbn [wake_scan scan]. rewrite Hmode. run Hget.
  rewrite (bool_decide_true (lwWaiting p = LW_WS_WAITING)) by done.
  destruct (lwWaitMode p), we, wse; cbn [negb andb orb];
    mode_tests; cbn [negb andb orb]; cbv zeta;
    try (by rewrite (IH _ _ w d)); (etransitivity; [apply Hwake|]); try (by run (Hrest true true));
    try (by run (Hrest true false)); try (by run (Hrest false true)); try (by run (Hrest false false)).
  all: cbn; unfold w1, wake_one_world; by rewrite left_over_cons, left_over_nil.
Qed.

Definition woken_up (p : PGPROC) : PGPROC := with_sem (sem p + 1) (with_lwWaiting LW_WS_NOT_WAITING p).

Lemma awaken_run l : forall w,
  (forall x, x ∈ l -> is_Some (lookupZ (allProcs (shm w)) x)) ->
  awaken l w = (Ret tt, set_procs (update_procs woken_up l (allProcs (shm w))) w).
Proof.
  induction l as [|x l IH]; intros w Hl; [by destruct w as [[] ? ?]|].
  destruct (Hl x ltac:(left)) as [p Hp].
  assert (forall w', lookupZ (allProcs (shm w')) x = Some p -> GetPGProcByNumber x w' = (Ret p, w')) as Hget.
  { intros w' Hp'. unfold GetPGProcByNumber, bind, gets. by rewrite Hp'. }
  cbn [awaken]. run (Hget _ Hp). unfold set_proc, modify_shm, modify. unfold bind at 1.
  set (w1 := upd_shm _ w).
  assert (lookupZ (allProcs (shm w1)) x = Some (with_lwWaiting LW_WS_NOT_WAITING p)) as Hp1.
  { cbn. apply lookupZ_insertZ_eq. by apply lookupZ_Some in Hp. }
  assert (PGSemaphoreUnlock x w1 = (Ret tt,
    set_procs (update_proc woken_up x (allProcs (shm w))) w)) as Hsem.
  { unfold PGSemaphoreUnlock, GetPGProcByNumber, set_proc, bind, gets. rewrite Hp1. cbn.
    unfold modify_shm, modify, set_procs, update_proc, upd_shm. rewrite Hp. cbn. by rewrite insertZ_insertZ. }
  run Hsem. rewrite IH; [done|]. intros y Hy. cbn. rewrite lookup_update_proc.
  destruct (Hl y) as [py Hpy]; [by right|]. rewrite Hpy. case_decide; done.
Qed.

(** The shared state after [BufferLockWakeup]: the processes that [scan] picks are
    off the queue and awake, the others still wait. *)
Definition wakeup_world (buf : Z) (we : bool) (d : BufferDesc) (w : World) : World :=
  let woken := scan (proc_mode (allProcs (shm w))) (lock_waiters d) we true in
  let rest := left_over woken (lock_waiters d) in
  set_procs (update_procs woken_up woken (allProcs (shm w)))
    (set_desc buf (with_lock_waiters rest (with_state
      (wakeup_word (negb (bool_decide (woken = []))) (bool_decide (rest = [])) (state d)) d)) w).

Lemma wakeup_word_locked wip emp s :
  wf_state s -> wakeup_word wip emp (Z.lor s BM_LOCKED) = wakeup_word wip emp s.
Proof.
  intros Hs. pose proof (wf_locked _ Hs).
  assert (wf_state (Z.lor s BM_LOCK_WAKE_IN_PROGRESS)) by (by apply wf_set).
  assert (wf_state (Z.lor (Z.lor s BM_LOCKED) BM_LOCK_WAKE_IN_PROGRESS)) by (by apply wf_set).
  unfold wakeup_word. apply Z.bits_inj'. intros n Hn.
  destruct wip, emp; rewrite !land_not64 by auto using wf_ldiff, wf_clear;
    rewrite ?Z.ldiff_spec, ?Z.lor_spec, ?Z.ldiff_spec, ?Z.lor_spec;
    destruct (Z.testbit BM_LOCKED n); rewrite ?andb_false_r, ?orb_false_r; done.
Qed.

Lemma update_procs_twice f g l procs :
  NoDup l -> (forall p, g (f p) = g p) -> update_procs g l (update_procs f l procs) = update_procs g l procs.
Proof.
  intros Hnd Hgf.
  assert (forall l1 l2 : list PGPROC, (forall i, lookupZ l1 i = lookupZ l2 i) -> l1 = l2) as Hext.
  { intros l1 l2 H. apply list_eq. intros i. specialize (H (Z.of_nat i)). unfold lookupZ in H.
    rewrite (proj2 (Z.leb_le _ _)), Nat2Z.id in H by lia. done. }
  apply Hext. intros i. rewrite !lookup_update_procs by done.
  case_decide; [|done]. destruct (lookupZ procs i); cbn; [by rewrite Hgf|done].
Qed.

Lemma BufferLockWakeup_run w buf d we :
  quiet w -> (0 < gas (me w))%nat -> desc_at w buf d -> wf_state (state d) ->
  flag (state d) BM_LOCKED = false -> flag (state d) BM_LOCK_HAS_WAITERS = true ->
  NoDup (lock_waiters d) -> all_waiting (allProcs (shm w)) (lock_waiters d) ->
  BufferLockWakeup buf we w = (Ret tt, wakeup_world buf we d w).
Proof.
  intros Hq Hg Hd Hwf Hl Hh Hnd Hw. unfold BufferLockWakeup.
  run (LockBufHdr_quiet w Hq Hg buf d Hd Hl).
  set (d1 := with_state (Z.lor (state d) BM_LOCKED) d). set (w1 := set_desc buf d1 w).
  assert (desc_at w1 buf d1) as Hd1 by (by apply (desc_at_set_eq w _ d)).
  run (deref_run _ _ _ Hd1).
  run (wake_scan_run buf (lock_waiters d1) we true w1 d1 Hd1 Hnd Hw).
  change (allProcs (shm w1)) with (allProcs (shm w)). change (lock_waiters d1) with (lock_waiters d).
  set (woken := scan (proc_mode (allProcs (shm w))) (lock_waiters d) we true).
  set (rest := left_over woken (lock_waiters d)). set (d2 := with_lock_waiters rest d1).
  set (w2 := set_procs _ _).
  assert (desc_at w2 buf d2) as Hd2 by (by apply (desc_at_set_eq w1 _ d1)).
  assert (quiet w2) as Hq2 by done.
  set (s' := wakeup_word (negb (bool_decide (woken = []))) (bool_decide (rest = [])) (state d)).
  assert ((if bool_decide (woken = []) then ret tt
    else let* s := pg_atomic_read_u64 buf in
         c_assert (flag s BM_LOCK_HAS_WAITERS) "woke a process without BM_LOCK_HAS_WAITERS") w2 =
    (Ret tt, w2)) as Hassert.
  { case_bool_decide; [done|]. run (read_quiet _ Hq2 _ _ Hd2).
    assert (flag (state d2) BM_LOCK_HAS_WAITERS = true) as ->; [|done].
    cbn [d2 d1 state with_lock_waiters with_state]. flags. by rewrite Hh. }
  run Hassert. run (read_quiet _ Hq2 _ _ Hd2). rewrite (bind_ret _ _ _ tt (set_desc buf (with_state s' d2) w2)).
  2: { unfold forever. cbn [w2 me set_procs upd_shm with_shm set_desc w1]. destruct (gas (me w)); [lia|].
    apply iter_break. run (deref_run _ _ _ Hd2).
    change (lock_waiters d2) with rest. change (state d2) with (Z.lor (state d) BM_LOCKED) at 2.
    rewrite wakeup_word_locked by done. by run (cas_quiet _ Hq2 _ _ s' Hd2). }
  rewrite awaken_run.
  2: { intros x Hx. apply scan_sub in Hx as Hin. destruct (Hw x Hin) as (p & Hp & _).
    cbn. rewrite lookup_update_procs by (by apply scan_NoDup). rewrite Hp. case_decide; done. }
  f_equal. unfold wakeup_world. fold woken. fold rest. cbn.
  rewrite (update_procs_twice (with_lwWaiting LW_WS_PENDING_WAKEUP)) by (done || by apply scan_NoDup).
  unfold set_procs, set_desc, upd_shm, w2, w1. cbn. by rewrite !insertZ_insertZ.
Qed.

(** ** Releasing *)
Lemma exclusive_bit s : flag s BM_LOCK_VAL_EXCLUSIVE = negb (lock_field s <? 2 ^ 19).
Proof.
  unfold flag, ztrue. change BM_LOCK_VAL_EXCLUSIVE with (Z.shiftl (Z.ones (20 - 19)) (34 + 19)).
  by rewrite mask_free by lia.
Qed.

Lemma ReleaseSub_run mode w :
  mode <> BUFFER_LOCK_UNLOCK -> BufferLockReleaseSub mode w = (Ret (2 ^ 34 * lock_unit mode), w).
Proof. by destruct mode. Qed.

Lemma DisownInternal_run w mu b e :
  prc_inv (me w) mu -> 0 < b -> mu !! b = Some e ->
  exists m', BufferLockDisownInternal b w = (Ret (data_lockmode e), with_me m' w) /\
    tracks (me w) m' (<[b := mkRefData (data_refcount e) BUFFER_LOCK_UNLOCK]> mu).
Proof.
  intros Hinv Hb He. destruct (GetEntry_spec w mu b false Hinv Hb) as (m1 & res & Hrun & Hinv1 & Hfr1 & Hf).
  unfold BufferLockDisownInternal. run Hrun. destruct res as [ref|]; cbn in Hf; [|congruence].
  destruct Hf as [Href _].
  destruct (ref_data_spec (with_me m1 w) mu ref b Hinv1 Hb Href) as (e' & He' & Hdata).
  assert (e' = e) as -> by congruence. run Hdata.
  destruct (set_lockmode_spec (with_me m1 w) mu ref b e BUFFER_LOCK_UNLOCK Hinv1 Hb He Href)
    as (m2 & Hset & Hinv2 & Hfr2). run Hset. exists m2. split; [done|]. split; [done|by etrans].
Qed.

Lemma RESUME_run w : 0 < InterruptHoldoffCount (me w) ->
  RESUME_INTERRUPTS w = (Ret tt, with_me (holdoff (-1) (me w)) w).
Proof.
  intros H. unfold RESUME_INTERRUPTS, get_me, gets, bind. cbn.
  unfold c_assert. by rewrite (proj2 (Z.ltb_lt _ _) H).
Qed.

(** What a release does to shared memory. *)
Definition release_world (buf : Z) (mode : BufferLockMode) (d : BufferDesc) (w : World) : World :=
  let d' := with_state (release_word mode (state d)) d in
  let w' := set_desc buf d' w in
  let '(check, we) := release_check mode (state d') in
  if check then wakeup_world buf we d' w' else w'.

Lemma release_world_me buf mode d m w :
  release_world buf mode d (with_me m w) = with_me m (release_world buf mode d w).
Proof.
  unfold release_world. cbv zeta. destruct (release_check mode _) as [[] ?]; done.
Qed.

Lemma ProcessRelease_run w buf d mode :
  quiet w -> (0 < gas (me w))%nat -> desc_at w buf d -> wf_state (state d) ->
  flag (state d) BM_LOCKED = false -> lock_field (state d) < 2 ^ 19 ->
  NoDup (lock_waiters d) -> all_waiting (allProcs (shm w)) (lock_waiters d) ->
  BufferLockProcessRelease buf mode (state d) w = (Ret tt,
    let '(check, we) := release_check mode (state d) in if check then wakeup_world buf we d w else w).
Proof.
  intros Hq Hg Hd Hwf Hl Hf Hnd Hw. unfold BufferLockProcessRelease.
  rewrite c_assert_ok by (by rewrite exclusive_bit, (proj2 (Z.ltb_lt _ _) Hf)).
  destruct (release_check mode (state d)) as [[] we] eqn:Hc; [|done].
  rewrite when_true by done. apply BufferLockWakeup_run; try done.
  unfold release_check in Hc. by destruct (flag (state d) BM_LOCK_HAS_WAITERS).
Qed.

Lemma BufferLockUnlock_run mu buf w d e :
  pinned_free mu buf w d e -> data_lockmode e <> BUFFER_LOCK_UNLOCK ->
  0 < InterruptHoldoffCount (me w) ->
  0 <= lock_field (state d) - lock_unit (data_lockmode e) < 2 ^ 19 ->
  flag (state d) BM_LOCKED = false -> NoDup (lock_waiters d) ->
  all_waiting (allProcs (shm w)) (lock_waiters d) ->
  exists m', BufferLockUnlock (buf + 1) buf w =
      (Ret tt, with_me m' (release_world buf (data_lockmode e) d w)) /\
    tracks (holdoff (-1) (me w)) m' (<[buf + 1 := mkRefData (data_refcount e) BUFFER_LOCK_UNLOCK]> mu).
Proof.
  intros [Hq Hg Hb Hd Hwf Hinv He] Hm Hho Hf Hl Hnd Hw.
  destruct (DisownInternal_run w mu (buf + 1) e Hinv) as (m1 & Hrun & Hinv1 & Hfr1); [lia|done|].
  unfold BufferLockUnlock. run Hrun. run (ReleaseSub_run _ (with_me m1 w) Hm).
  set (mode := data_lockmode e) in *.
  destruct (release_word_spec mode (state d)) as (Hwf' & Hf' & Hrest); [done|lia|].
  set (d' := with_state (release_word mode (state d)) d).
  assert (pg_atomic_sub_fetch_u64 buf (2 ^ 34 * lock_unit mode) (with_me m1 w) =
    (Ret (state d'), set_desc buf d' (with_me m1 w))) as Hsub.
  { unfold pg_atomic_sub_fetch_u64, pg_atomic_fetch_sub_u64.
    by run (rmw_quiet (with_me m1 w) Hq buf d (fun s => u64 (s - 2 ^ 34 * lock_unit mode)) Hd). }
  run Hsub.
  assert (flag (state d') BM_LOCKED = false) as Hl'.
  { rewrite <- Hl. by apply same_rest_flag. }
  rewrite (bind_ret _ _ _ _ _ (ProcessRelease_run (set_desc buf d' (with_me m1 w)) buf d' mode Hq
    ltac:(cbn; by rewrite (fr_gas _ _ Hfr1)) (desc_at_set_eq w buf d d' Hd) Hwf' Hl' ltac:(cbn; lia) Hnd Hw)).
  change (let '(check, we) := _ in _) with (release_world buf mode d (with_me m1 w)).
  rewrite release_world_me, RESUME_run by (cbn; by rewrite (fr_holdoff _ _ Hfr1)).
  cbn [me with_me]. eexists. split; [reflexivity|]. split.
  - apply prc_inv_holdoff, Hinv1.
  - unfold holdoff. rewrite (fr_holdoff _ _ Hfr1). by apply prc_frame_holdoff.
Qed.

(** ** Which waiters are woken *)
Section scan.
Context (f : Z -> BufferLockMode).
Definition good_modes (q : list Z) : Prop := forall x, x ∈ q -> f x <> BUFFER_LOCK_UNLOCK.

Lemma good_modes_cons x q : good_modes (x :: q) -> f x <> BUFFER_LOCK_UNLOCK /\ good_modes q.
Proof using Type. intros H. split; [apply H; left|]. intros y Hy. apply H. by right. Qed.

(** Without exclusive waiters: all share waiters and at most one share-exclusive one. *)
Lemma scan_shared q wse x :
  good_modes q -> x ∈ scan f q false wse ->
  f x = BUFFER_LOCK_SHARE \/ (f x = BUFFER_LOCK_SHARE_EXCLUSIVE /\ wse = true).
Proof using Type.
  revert wse. induction q as [|y q IH]; intros wse Hg; [by intros ?%not_elem_of_nil|].
  apply good_modes_cons in Hg as [Hy Hg]. cbn. destruct (f y) eqn:E, wse; try done;
    rewrite ?elem_of_cons; intros; destruct_or?; subst; eauto; by destruct (IH _ Hg H) as [|[]]; auto.
Qed.

Lemma scan_pairwise_shared q wse x y :
  good_modes q -> NoDup q -> x ∈ scan f q false wse -> y ∈ scan f q false wse -> x <> y ->
  compatible (f x) (f y) = true.
Proof using Type.
  revert wse. induction q as [|z q IH]; intros wse Hg Hnd; [by intros ?%not_elem_of_nil|].
  apply good_modes_cons in Hg as [Hz Hg]. apply NoDup_cons in Hnd as [_ Hnd]. cbn.
  assert (forall wse u v, f u = f z -> (f z = BUFFER_LOCK_SHARE \/ (f z = BUFFER_LOCK_SHARE_EXCLUSIVE /\ wse = false)) ->
    v ∈ scan f q false wse -> compatible (f u) (f v) = true) as Hhead.
  { intros wse' u v -> Hm Hv%scan_shared; [|done].
    destruct Hm as [->|[-> ->]], Hv as [->|[-> ?]]; done. }
  destruct (f z) eqn:E, wse; try done; rewrite ?elem_of_cons; intros Hx Hy Hne; try (by eapply IH);
    destruct Hx as [->|Hx], Hy as [->|Hy]; try done; try (by eapply IH);
    try (eapply Hhead; [done| |done]; auto); rewrite compatible_comm;
    (eapply Hhead; [done| |done]; auto).
Qed.

Lemma scan_pairwise q x y :
  good_modes q -> NoDup q -> x ∈ scan f q true true -> y ∈ scan f q true true -> x <> y ->
  compatible (f x) (f y) = true.
Proof using Type.
  destruct q as [|z q]; intros Hg Hnd; [by intros ?%not_elem_of_nil|].
  pose proof Hg as [Hz Hg']%good_modes_cons. cbn. destruct (f z) eqn:E; [done| | |].
  - intros Hx Hy. apply (scan_pairwise_shared (z :: q) true); cbn; rewrite ?E; done.
  - intros Hx Hy. apply (scan_pairwise_shared (z :: q) true); cbn; rewrite ?E; done.
  - intros ->%list_elem_of_singleton ->%list_elem_of_singleton. done.
Qed.

(** A waiter that stays conflicts with one that is woken. *)
Lemma scan_rest_shared q wse x :
  good_modes q -> x ∈ q -> (x ∉ scan f q false wse) ->
  f x = BUFFER_LOCK_EXCLUSIVE \/
  (f x = BUFFER_LOCK_SHARE_EXCLUSIVE /\
    (wse = false \/ exists y, y ∈ scan f q false wse /\ f y = BUFFER_LOCK_SHARE_EXCLUSIVE)).
Proof using Type.
  revert wse. induction q as [|z q IH]; intros wse Hg; [by intros ?%not_elem_of_nil|].
  apply good_modes_cons in Hg as [Hz Hg]. cbn. intros Hx Hn.
  assert (x = z \/ x ∈ q) as Hx' by (by apply elem_of_cons). clear Hx.
  destruct (f z) eqn:E; [done| | |].
  - rewrite elem_of_cons in Hn. destruct Hx' as [->|Hx]; [by destruct Hn; left|].
    destruct (IH wse Hg Hx) as [|(Hm & [|(y & Hy & Hym)])]; [naive_solver|by left|by right; auto|].
    right. split; [done|]. right. exists y. split; [by right|done].
  - destruct wse.
    + rewrite elem_of_cons in Hn. destruct Hx' as [->|Hx]; [by destruct Hn; left|].
      destruct (IH false Hg Hx) as [|(Hm & _)]; [naive_solver|by left|].
      right. split; [done|]. right. exists z. split; [by left|done].
    + destruct Hx' as [->|Hx]; [by right; auto|]. by apply IH.
  - destruct Hx' as [->|Hx]; [by left|]. by apply IH.
Qed.

Lemma scan_rest q x :
  good_modes q -> x ∈ q -> (x ∉ scan f q true true) ->
  exists y, y ∈ scan f q true true /\ compatible (f y) (f x) = false.
Proof using Type.
  destruct q as [|z q]; intros Hg; [by intros ?%not_elem_of_nil|].
  pose proof Hg as [Hz Hg']%good_modes_cons. intros Hx Hn.
  assert (f z = BUFFER_LOCK_EXCLUSIVE \/ scan f (z :: q) true true = scan f (z :: q) false true) as [E|E].
  { cbn. destruct (f z) eqn:Ez; auto. congruence. }
  - exists z. cbn. rewrite E. split; [left|by destruct (f x)].
  - rewrite E in *. destruct (scan_rest_shared _ _ _ Hg Hx Hn) as [Hm|(Hm & [|(y & Hy & Hym)])]; [|done|].
    + exists z. rewrite Hm. split; [|by destruct (f z)]. rewrite <- E. cbn. destruct (f z); left.
    + exists y. split; [done|]. by rewrite Hm, Hym.
Qed.
End scan.

(** ** The interface *)
Lemma assert_pinned_run w mu b e :
  prc_inv (me w) mu -> 0 < b -> mu !! b = Some e -> 0 < data_refcount e ->
  exists m', assert_pinned b w = (Ret tt, with_me m' w) /\ tracks (me w) m' mu.
Proof.
  intros Hinv Hb He Hr. destruct (GetPrivateRefCount_spec w mu b Hinv Hb) as (m' & Hrun & Hinv' & Hfr).
  rewrite He in Hrun. exists m'. split; [|done].
  unfold assert_pinned, BufferIsPinned, BufferIsValid, BufferIsLocal.
  rewrite (proj2 (Z.eqb_neq b InvalidBuffer)), (proj2 (Z.ltb_ge b 0)) by (unfold InvalidBuffer; lia).
  cbn [negb]. unfold bind at 1. run Hrun. cbn. by rewrite (proj2 (Z.ltb_lt _ _) Hr).
Qed.

Lemma pinned_free_me mu buf w d e m' :
  pinned_free mu buf w d e -> tracks (me w) m' mu -> pinned_free mu buf (with_me m' w) d e.
Proof. intros [] [? Hfr]. split; try done. cbn. by rewrite (fr_gas _ _ Hfr). Qed.

Lemma tracks_trans m1 m2 m3 mu mu' : tracks m1 m2 mu -> tracks m2 m3 mu' -> tracks m1 m3 mu'.
Proof. intros [_ H1] [H2 H3]. split; [done|by etrans]. Qed.

Lemma tracks_holdoff k m1 m2 m3 mu mu' :
  tracks m1 m2 mu -> tracks (holdoff k m2) m3 mu' -> tracks (holdoff k m1) m3 mu'.
Proof.
  intros [_ H1] [H2 H3]. split; [done|]. etrans; [|exact H3]. unfold holdoff.
  rewrite (fr_holdoff _ _ H1). by apply prc_frame_holdoff.
Qed.

Lemma UnlockBuffer_run mu buf w d e :
  pinned_free mu buf w d e -> 0 < data_refcount e -> data_lockmode e <> BUFFER_LOCK_UNLOCK ->
  0 < InterruptHoldoffCount (me w) ->
  0 <= lock_field (state d) - lock_unit (data_lockmode e) < 2 ^ 19 ->
  flag (state d) BM_LOCKED = false -> NoDup (lock_waiters d) ->
  all_waiting (allProcs (shm w)) (lock_waiters d) ->
  exists m', UnlockBuffer (buf + 1) w = (Ret tt, with_me m' (release_world buf (data_lockmode e) d w)) /\
    tracks (holdoff (-1) (me w)) m' (<[buf + 1 := mkRefData (data_refcount e) BUFFER_LOCK_UNLOCK]> mu).
Proof.
  intros Hp Hr Hm Hho Hf Hl Hnd Hw. pose proof Hp as [_ _ Hb _ _ Hinv He].
  destruct (assert_pinned_run w mu (buf + 1) e) as (m1 & Hrun1 & Ht1); [done|lia|done|done|].
  destruct (BufferLockUnlock_run mu buf (with_me m1 w) d e) as (m2 & Hrun2 & Ht2); try done.
  { by apply pinned_free_me. }
  { cbn. by rewrite (fr_holdoff _ _ (proj2 Ht1)). }
  exists m2. unfold UnlockBuffer. run Hrun1. unfold BufferIsLocal, GetBufferDescriptor.
  rewrite (proj2 (Z.ltb_ge (buf + 1) 0)) by lia. replace (buf + 1 - 1) with buf by lia.
  rewrite Hrun2, release_world_me. split; [done|]. by eapply tracks_holdoff.
Qed.

Lemma LockBuffer_run mu buf w d e mode :
  pinned_free mu buf w d e -> 0 < data_refcount e -> data_lockmode e = BUFFER_LOCK_UNLOCK ->
  mode <> BUFFER_LOCK_UNLOCK -> lock_field (state d) < lock_limit mode ->
  exists m', LockBuffer (buf + 1) mode w =
      (Ret tt, with_me m' (set_desc buf (with_state (u64 (state d + 2 ^ 34 * lock_unit mode)) d) w)) /\
    tracks (holdoff 1 (me w)) m' (<[buf + 1 := mkRefData (data_refcount e) mode]> mu).
Proof.
  intros Hp Hr Hun Hm Hl. pose proof Hp as [_ _ Hb _ _ Hinv He].
  destruct (assert_pinned_run w mu (buf + 1) e) as (m1 & Hrun1 & Ht1); [done|lia|done|done|].
  destruct (BufferLockAcquire_run mu buf (with_me m1 w) d e mode) as (m2 & Hrun2 & Ht2); try done.
  { by apply pinned_free_me. }
  exists m2. unfold LockBuffer, LockBufferInternal. rewrite bool_decide_false by done.
  rewrite c_assert_ok by done. run Hrun1. unfold BufferIsLocal, GetBufferDescriptor.
  rewrite (proj2 (Z.ltb_ge (buf + 1) 0)) by lia. replace (buf + 1 - 1) with buf by lia.
  split; [by destruct mode|]. by eapply tracks_holdoff.
Qed.

(** Locking a buffer that nobody waits for and unlocking it again is the
    identity: shared memory is exactly as before, and this backend tracks the same
    pins and lock modes with interrupts held off as often as before. *)
Theorem LockBuffer_roundtrip mu buf w d e mode :
  pinned_free mu buf w d e -> 0 < data_refcount e -> data_lockmode e = BUFFER_LOCK_UNLOCK ->
  mode <> BUFFER_LOCK_UNLOCK -> lock_field (state d) < lock_limit mode ->
  0 <= InterruptHoldoffCount (me w) -> flag (state d) BM_LOCKED = false ->
  flag (state d) BM_LOCK_HAS_WAITERS = false -> lock_waiters d = [] ->
  exists m', (LockBuffer (buf + 1) mode ;; LockBuffer (buf + 1) BUFFER_LOCK_UNLOCK) w =
      (Ret tt, with_me m' w) /\ tracks (me w) m' mu.
Proof.
  intros Hp Hr Hun Hm Hl Hho Hlk Hhw Hq. pose proof Hp as [Hqu Hg Hb Hd Hwf Hinv He].
  destruct (LockBuffer_run mu buf w d e mode) as (m1 & Hrun1 & Hinv1 & Hfr1); try done.
  set (s1 := u64 (state d + 2 ^ 34 * lock_unit mode)) in *.
  destruct (attempt_step mode (state d) true s1) as [(_ & _ & Hwf1 & Hf1 & Hrest1)|[? _]];
    [done|done|rewrite attempt_word_spec by done; by rewrite (proj2 (Z.ltb_lt _ _) Hl)| |done].
  set (d1 := with_state s1 d) in *. set (w1 := with_me m1 (set_desc buf d1 w)) in *.
  destruct (UnlockBuffer_run (<[buf + 1 := mkRefData (data_refcount e) mode]> mu) buf w1 d1
    (mkRefData (data_refcount e) mode)) as (m2 & Hrun2 & Hinv2 & Hfr2); try done.
  { split; try done; [cbn; by rewrite (fr_gas _ _ Hfr1)|by apply (desc_at_set_eq w _ d)|apply lookup_insert_eq]. }
  { cbn. rewrite (fr_holdoff _ _ Hfr1). cbn. lia. }
  { cbn. rewrite Hf1. pose proof (lock_field_range (state d)). destruct mode; cbn in *; lia. }
  { rewrite <- Hlk. by apply same_rest_flag. }
  { cbn. rewrite Hq. apply NoDup_nil_2. }
  { intros x. cbn. rewrite Hq. by intros ?%not_elem_of_nil. }
  exists m2. run Hrun1. split.
  - unfold LockBuffer. rewrite bool_decide_true, Hrun2 by done. f_equal. unfold release_world. cbv zeta.
    assert (release_word mode s1 = state d) as Hback.
    { unfold release_word, s1, u64. rewrite Zminus_mod_idemp_l.
      replace (state d + _ - _) with (state d) by lia. by apply u64_small. }
    cbn [state d1 with_state data_lockmode]. rewrite Hback. unfold release_check. rewrite Hhw. cbn [andb].
    unfold w1. change (with_state (state d) d1) with (with_state (state d) d). rewrite with_state_id.
    change (set_desc buf d (with_me m1 (set_desc buf d1 w))) with
      (with_me m1 (set_desc buf d (set_desc buf d1 w))).
    by rewrite set_desc_set_desc, set_desc_id.
  - rewrite insert_insert_eq in Hinv2. cbn in Hinv2.
    replace (mkRefData (data_refcount e) BUFFER_LOCK_UNLOCK) with e in Hinv2 by (destruct e; cbn in *; congruence).
    rewrite insert_id in Hinv2 by done. split; [done|].
    etrans; [|exact Hfr2]. cbn. destruct Hfr1. split; cbn in *; try done. rewrite fr_holdoff. lia.
Qed.

(** C21. Releasing the last lock hands it over: if waiters are queued and no
    wake-up is under way, [UnlockBuffer] leaves the lock free, takes a nonempty set
    of waiters off the queue and wakes each of them, and leaves the others waiting
    in the queue; the modes of the woken processes are compatible with each other,
    and every process that keeps waiting conflicts with one that was woken. *)
Theorem UnlockBuffer_handoff mu buf w d e :
  pinned_free mu buf w d e -> 0 < data_refcount e -> data_lockmode e <> BUFFER_LOCK_UNLOCK ->
  0 < InterruptHoldoffCount (me w) -> lock_field (state d) = lock_unit (data_lockmode e) ->
  flag (state d) BM_LOCKED = false -> flag (state d) BM_LOCK_HAS_WAITERS = true ->
  flag (state d) BM_LOCK_WAKE_IN_PROGRESS = false ->
  NoDup (lock_waiters d) -> lock_waiters d <> [] ->
  all_waiting (allProcs (shm w)) (lock_waiters d) ->
  good_modes (proc_mode (allProcs (shm w))) (lock_waiters d) ->
  exists w' d' woken, UnlockBuffer (buf + 1) w = (Ret tt, w') /\ desc_at w' buf d' /\
    lock_field (state d') = 0 /\ flag (state d') BM_LOCK_WAKE_IN_PROGRESS = true /\
    woken <> [] /\ lock_waiters d' = left_over woken (lock_waiters d) /\
    (forall x p, lookupZ (allProcs (shm w)) x = Some p ->
      lookupZ (allProcs (shm w')) x = Some (if decide (x ∈ woken) then woken_up p else p)) /\
    (forall x y, x ∈ woken -> y ∈ woken -> x <> y ->
      compatible (proc_mode (allProcs (shm w)) x) (proc_mode (allProcs (shm w)) y) = true) /\
    (forall x, x ∈ lock_waiters d' -> exists y, y ∈ woken /\
      compatible (proc_mode (allProcs (shm w)) y) (proc_mode (allProcs (shm w)) x) = false).
Proof.
  intros Hp Hr Hm Hho Hf Hl Hhw Hwip Hnd Hne Hw Hg. pose proof Hp as [_ _ _ Hd Hwf _ _].
  destruct (UnlockBuffer_run mu buf w d e) as (m' & Hrun & _); try done.
  { rewrite Hf, Z.sub_diag. done. }
  set (mode := data_lockmode e) in *.
  destruct (release_word_spec mode (state d)) as (Hwf1 & Hf1 & Hrest); [done|lia|].
  assert (release_check mode (release_word mode (state d)) = (true, true)) as Hc.
  { unfold release_check. rewrite lock_mask_0, Hf1, Hf, Z.sub_diag.
    destruct (same_rest_wait _ _ Hrest) as (-> & -> & _). by rewrite Hhw, Hwip. }
  unfold release_world in Hrun. cbn [state with_state] in Hrun. rewrite Hc in Hrun.
  set (woken := scan (proc_mode (allProcs (shm w))) (lock_waiters d) true true).
  destruct (wakeup_word_spec true (bool_decide (left_over woken (lock_waiters d) = []))
    (release_word mode (state d)) Hwf1) as (_ & Hf2 & Hwip2 & _ & _).
  assert (woken <> []) as Hwoken.
  { unfold woken. destruct (lock_waiters d); [done|]. apply scan_nonempty. }
  eexists _, _, woken. split; [exact Hrun|]. unfold wakeup_world.
  cbn [lock_waiters with_state shm set_desc upd_shm with_shm allProcs with_BufferDescriptors].
  fold woken. rewrite (bool_decide_false (woken = [])) by done. cbn [negb].
  split; [by apply (desc_at_set_eq (set_desc buf (with_state (release_word mode (state d)) d) w) buf
    (with_state (release_word mode (state d)) d)), (desc_at_set_eq w _ d)|].
  split; [cbn; rewrite Hf2; lia|]. split; [done|]. split; [done|]. split; [done|]. split.
  { intros x p Hx. cbn. rewrite lookup_update_procs by (by apply scan_NoDup).
    rewrite Hx. by case_decide. }
  split; [intros x y; by apply scan_pairwise|].
  intros x [Hx Hn]%elem_of_left_over. by apply scan_rest.
Qed.

(** ** Concrete worlds *)
Lemma sample_pinned : exists m mu, prc_inv m mu /\ mu !! 2 = Some one_pin /\
  gas m = 5000%nat /\ InterruptHoldoffCount m = 0 /\ MyProcNumber m = 7 /\ NBuffers m = 3.
Proof.
  destruct (TrackNewBufferPin_spec (sample_world ClockSweepVtable [] []) 2) as (m' & _ & [Hmap _ Hfr]);
    [apply sample_can_track|lia|].
  exists m', (<[2 := one_pin]> ∅). split; [apply Hmap; [apply sample_reserved|done]|].
  split; [apply lookup_insert_eq|]. destruct Hfr. cbn in *. done.
Qed.

Definition sample_lock_world (m : Backend) (st : Z) (q : list Z) (procs : list PGPROC) : World :=
  mkWorld (mkShared [sample_desc 0 0; with_lock_waiters q (sample_desc 1 st); sample_desc 2 0]
    sample_control [] ∅ procs [0; 0; 0] ∅ 0) m [].

Lemma LockBuffer_roundtrip_witness :
  exists m m', let w := sample_lock_world m 1 [] [] in
    (LockBuffer 2 BUFFER_LOCK_EXCLUSIVE ;; LockBuffer 2 BUFFER_LOCK_UNLOCK) w = (Ret tt, with_me m' w).
Proof.
  destruct sample_pinned as (m & mu & Hinv & Hmu & Hg & Hh & _). exists m.
  destruct (LockBuffer_roundtrip mu 1 (sample_lock_world m 1 [] []) (sample_desc 1 1) one_pin
    BUFFER_LOCK_EXCLUSIVE) as (m' & Hrun & _); [|done|done|done|vm_compute; reflexivity|
      cbn; lia|vm_compute; reflexivity|vm_compute; reflexivity|done|].
  - split; [done|cbn; lia|lia|done|by split|done|done].
  - exists m'. exact Hrun.
Defined.

Definition waiter (mode : BufferLockMode) : PGPROC := mkPGPROC LW_WS_WAITING mode 0 false.

(** We hold the lock exclusively; a share, an exclusive and a share waiter queue up. *)
Lemma UnlockBuffer_handoff_witness :
  exists m w', let st := word_of 1 0 0 + BM_LOCK_VAL_EXCLUSIVE + BM_LOCK_HAS_WAITERS in
    UnlockBuffer 2 (sample_lock_world m st [2; 0; 1]
      [waiter BUFFER_LOCK_EXCLUSIVE; waiter BUFFER_LOCK_SHARE; waiter BUFFER_LOCK_SHARE]) = (Ret tt, w').
Proof.
  destruct sample_pinned as (m0 & mu & Hinv & Hmu & Hg & Hh & _).
  set (m := with_InterruptHoldoffCount 1 m0).
  destruct (pinned_entry_spec (sample_lock_world m 0 [] []) mu 2 true one_pin) as (m1 & ref & _ & [Hinv1 Hfr1] & Href & _);
    [by apply prc_inv_holdoff|lia|done|].
  destruct (set_lockmode_spec (sample_lock_world m1 0 [] []) mu ref 2 one_pin BUFFER_LOCK_EXCLUSIVE)
    as (m2 & _ & Hinv2 & Hfr2); [done|lia|done|done|].
  exists m2. cbv zeta. set (st := word_of 1 0 0 + BM_LOCK_VAL_EXCLUSIVE + BM_LOCK_HAS_WAITERS).
  set (procs := [waiter _; waiter _; waiter _]).
  destruct (UnlockBuffer_handoff (<[2 := mkRefData 1 BUFFER_LOCK_EXCLUSIVE]> mu) 1
    (sample_lock_world m2 st [2; 0; 1] procs) (with_lock_waiters [2; 0; 1] (sample_desc 1 st))
    (mkRefData 1 BUFFER_LOCK_EXCLUSIVE)) as (w' & d' & woken & Hrun & _).
  - split; [reflexivity| |lia|reflexivity|vm_compute; split; congruence|exact Hinv2|apply lookup_insert_eq].
    cbn. rewrite (fr_gas _ _ Hfr2). cbn. rewrite (fr_gas _ _ Hfr1). cbn. lia.
  - reflexivity.
  - discriminate.
  - cbn. rewrite (fr_holdoff _ _ Hfr2). cbn. rewrite (fr_holdoff _ _ Hfr1). cbn. lia.
  - vm_compute. reflexivity.
  - vm_compute. reflexivity.
  - vm_compute. reflexivity.
  - vm_compute. reflexivity.
  - apply (bool_decide_unpack _). vm_compute. exact I.
  - discriminate.
  - intros x Hx. repeat (apply elem_of_cons in Hx as [->|Hx]); [by eexists..|by apply not_elem_of_nil in Hx].
  - intros x Hx. repeat (apply elem_of_cons in Hx as [->|Hx]); [discriminate..|by apply not_elem_of_nil in Hx].
  - exists w'. exact Hrun.
Defined.

(** Another process pins the buffer between our accesses. *)
Lemma BufferLockAttempt_atomic_witness :
  let pr := sample_proto (fun _ => True) false in
  let w := sample_world ClockSweepVtable [] [id; other_pin 1; other_pin 1] in
  wp (BufferLockAttempt 1 BUFFER_LOCK_SHARE) (attempt_post pr 1 BUFFER_LOCK_SHARE w) w.
Proof.
  cbv zeta. apply BufferLockAttempt_atomic; [|cbn; lia].
  apply sample_outside; [done|].
  repeat (apply Forall_cons; split); try (by apply other_pin_ok); [by intros s Hs|by apply Forall_nil].
Defined.
