(* ===== verification/Pin.v ===== *)
(** * Pins and dirty marks ([src/backend/storage/buffer/bufmgr.c])

    The first pin of a backend is counted in the state word, further ones only
    in the private reference count.  A backend that wants to be the only one with
    a pin announces itself with [BM_PIN_COUNT_WAITER] and is woken by the last
    other backend that unpins. *)
From S2P Require Import Prelude BufState BufTag Shmem Concurrency PrivateRefCount Ring.
From S2P Require Import LocalBuf ContentLock.

Definition count_usage (f : Accounting -> Accounting) : M unit :=
  modify_me (fun m => with_accounting (f (accounting m)) m).

(** ** Pinning *)

(** The word with one more pin and, within the limits of the strategy, one more
    use. *)
Definition pin_state (strategy : BufferAccessStrategy) (old_buf_state : Z) : Z :=
  let buf_state := u64 (old_buf_state + BUF_REFCOUNT_ONE) in
  match strategy with
  | None =>
      if BUF_STATE_GET_USAGECOUNT buf_state <? BM_MAX_USAGE_COUNT
      then u64 (buf_state + BUF_USAGECOUNT_ONE) else buf_state
  | Some _ =>
      if BUF_STATE_GET_USAGECOUNT buf_state =? 0
      then u64 (buf_state + BUF_USAGECOUNT_ONE) else buf_state
  end.

Definition pin_round (buf b : Z) (strategy : BufferAccessStrategy) (skip_if_not_valid : bool)
    (old_buf_state : Z) : M (ctl Z bool) :=
  if skip_if_not_valid && negb (flag old_buf_state BM_VALID) then ret (Break false)
  else
    let* old_buf_state :=
      if flag old_buf_state BM_LOCKED then WaitBufHdrUnlocked buf else ret old_buf_state in
    let buf_state := pin_state strategy old_buf_state in
    let* '(ok, seen) := pg_atomic_compare_exchange_u64 buf old_buf_state buf_state in
    if ok : bool then TrackNewBufferPin b ;; ret (Break (flag buf_state BM_VALID))
    else ret (Continue seen).

Definition PinBuffer (buf : Z) (strategy : BufferAccessStrategy) (skip_if_not_valid : bool)
    : M bool :=
  let* b := BufferDescriptorGetBuffer buf in
  c_assert (negb (BufferIsLocal b)) "local buffer" ;;
  let* r := get_me ReservedRefCountSlot in
  c_assert (negb (r =? -1)) "no reserved refcount slot" ;;
  let* ref := GetPrivateRefCountEntry b true in
  match ref with
  | None =>
      let* old_buf_state := pg_atomic_read_u64 buf in
      forever (pin_round buf b strategy skip_if_not_valid) old_buf_state
  | Some ref =>
      let* s := pg_atomic_read_u64 buf in
      let result := flag s BM_VALID in
      let* d := ref_data ref in
      c_assert (0 <? data_refcount d) "private refcount is not positive" ;;
      set_ref_data ref (mkRefData (i32 (data_refcount d + 1)) (data_lockmode d)) ;;
      ResourceOwnerRememberBuffer b ;;
      ret result
  end.

Definition PinBuffer_Locked (buf : Z) : M unit :=
  let* b := BufferDescriptorGetBuffer buf in
  let* ref := GetPrivateRefCountEntry b false in
  c_assert (match ref with None => true | Some _ => false end) "buffer is already pinned" ;;
  let* old_buf_state := pg_atomic_read_u64 buf in
  UnlockBufHdrExt buf old_buf_state 0 0 1 ;;
  TrackNewBufferPin b.

(** ** Unpinning *)
Definition WakePinCountWaiter (buf : Z) : M unit :=
  let* buf_state := LockBufHdr buf in
  if flag buf_state BM_PIN_COUNT_WAITER && (BUF_STATE_GET_REFCOUNT buf_state =? 1) then
    let* d := deref buf in
    UnlockBufHdrExt buf buf_state 0 BM_PIN_COUNT_WAITER 0 ;;
    ProcSendSignal (wait_backend_pgprocno d)
  else UnlockBufHdr buf.

Definition UnpinBufferNoOwner (buf : Z) : M unit :=
  let* b := BufferDescriptorGetBuffer buf in
  c_assert (negb (BufferIsLocal b)) "local buffer" ;;
  let* ref := GetPrivateRefCountEntry b false in
  match ref with
  | None => trap "buffer is not pinned"
  | Some ref =>
      let* d := ref_data ref in
      c_assert (0 <? data_refcount d) "private refcount is not positive" ;;
      set_ref_data ref (mkRefData (i32 (data_refcount d - 1)) (data_lockmode d)) ;;
      when (i32 (data_refcount d - 1) =? 0)
        (let* locked := BufferLockHeldByMe buf in
         c_assert (negb locked) "content lock is still held" ;;
         let* old_buf_state := pg_atomic_fetch_sub_u64 buf BUF_REFCOUNT_ONE in
         when (flag old_buf_state BM_PIN_COUNT_WAITER) (WakePinCountWaiter buf) ;;
         ForgetPrivateRefCountEntry ref)
  end.

Definition UnpinBuffer (buf : Z) : M unit :=
  let* b := BufferDescriptorGetBuffer buf in
  ResourceOwnerForgetBuffer b ;;
  UnpinBufferNoOwner buf.

Definition ReleaseBuffer (buffer : Z) : M unit :=
  if negb (BufferIsValid buffer) then elog "bad buffer ID"
  else if BufferIsLocal buffer then UnpinLocalBuffer buffer
  else UnpinBuffer (GetBufferDescriptor (buffer - 1)).

Definition UnlockReleaseBuffer (buffer : Z) : M unit :=
  LockBuffer buffer BUFFER_LOCK_UNLOCK ;;
  ReleaseBuffer buffer.

Definition IncrBufferRefCount (buffer : Z) : M unit :=
  assert_pinned buffer ;;
  (if BufferIsLocal buffer then
     let* n := local_refcount (- buffer - 1) in
     set_local_refcount (- buffer - 1) (i32 (n + 1))
   else
     let* ref := pinned_entry buffer true in
     let* d := ref_data ref in
     set_ref_data ref (mkRefData (i32 (data_refcount d + 1)) (data_lockmode d))) ;;
  ResourceOwnerRememberBuffer buffer.

(** ** Dirty pages *)
Definition BufferIsDirty (buffer : Z) : M bool :=
  assert_pinned buffer ;;
  if BufferIsLocal buffer then
    let* s := read_local_state (GetLocalBufferDescriptor (- buffer - 1)) in
    ret (flag s BM_DIRTY)
  else
    let* locked := BufferIsLockedByMeInMode buffer BUFFER_LOCK_EXCLUSIVE in
    c_assert locked "buffer is not locked exclusively" ;;
    let* s := pg_atomic_read_u64 (GetBufferDescriptor (buffer - 1)) in
    ret (flag s BM_DIRTY).

Definition dirty_round (bufHdr old_buf_state : Z) : M (ctl Z Z) :=
  let* old_buf_state :=
    if flag old_buf_state BM_LOCKED then WaitBufHdrUnlocked bufHdr else ret old_buf_state in
  c_assert (0 <? BUF_STATE_GET_REFCOUNT old_buf_state) "buffer has no pins" ;;
  let buf_state := Z.lor old_buf_state (Z.lor BM_DIRTY BM_JUST_DIRTIED) in
  let* '(ok, seen) := pg_atomic_compare_exchange_u64 bufHdr old_buf_state buf_state in
  if ok : bool then ret (Break old_buf_state) else ret (Continue seen).

Definition MarkBufferDirty (buffer : Z) : M unit :=
  if negb (BufferIsValid buffer) then elog "bad buffer ID"
  else if BufferIsLocal buffer then MarkLocalBufferDirty buffer
  else
    let bufHdr := GetBufferDescriptor (buffer - 1) in
    assert_pinned buffer ;;
    let* locked := BufferIsLockedByMeInMode buffer BUFFER_LOCK_EXCLUSIVE in
    c_assert locked "buffer is not locked exclusively" ;;
    let* old_buf_state := pg_atomic_read_u64 bufHdr in
    let* old_buf_state := forever (dirty_round bufHdr) old_buf_state in
    when (negb (flag old_buf_state BM_DIRTY))
      (count_usage (fun a => with_shared_blks_dirtied (shared_blks_dirtied a + 1) a) ;;
       count_usage (fun a =>
         if VacuumCostActive a
         then with_VacuumCostBalance (i32 (VacuumCostBalance a + VacuumCostPageDirty a)) a else a)).

(** ** Looking at a buffer that held the block recently *)
Definition ReadRecentBuffer (rlocator : RelFileLocator) (forkNum blockNum recent_buffer : Z)
    : M bool :=
  c_assert (BufferIsValid recent_buffer) "invalid buffer" ;;
  ReservePrivateRefCountEntry ;;
  let t := InitBufferTag (mkBufferTag 0 0 0 0 0) rlocator forkNum blockNum in
  if BufferIsLocal recent_buffer then
    let bufHdr := GetLocalBufferDescriptor (- recent_buffer - 1) in
    let* d := local_deref bufHdr in
    if flag (state d) BM_VALID && BufferTagsEqual t (tag d) then
      PinLocalBuffer bufHdr true ;;
      count_usage (fun a => with_local_blks_hit (local_blks_hit a + 1) a) ;;
      ret true
    else ret false
  else
    let bufHdr := GetBufferDescriptor (recent_buffer - 1) in
    let* d := deref bufHdr in
    if negb (BufferTagsEqual t (tag d)) then ret false
    else
      let* pinned := PinBuffer bufHdr None true in
      if negb pinned then ret false
      else
        let* d := deref bufHdr in
        if BufferTagsEqual t (tag d) then
          count_usage (fun a => with_shared_blks_hit (shared_blks_hit a + 1) a) ;;
          ret true
        else UnpinBuffer bufHdr ;; ret false.

(** ** Being the only one with a pin *)

(** Cleans up after an error in [LockBufferForCleanup]. *)
Definition UnlockBuffers : M unit :=
  let* buf := get_me PinCountWaitBuf in
  match buf with
  | None => ret tt
  | Some buf =>
      let* buf_state := LockBufHdr buf in
      let* d := deref buf in
      let* my := get_me MyProcNumber in
      let unset_bits :=
        if flag buf_state BM_PIN_COUNT_WAITER && (wait_backend_pgprocno d =? my)
        then BM_PIN_COUNT_WAITER else 0 in
      UnlockBufHdrExt buf buf_state 0 unset_bits 0 ;;
      modify_me (with_PinCountWaitBuf None)
  end.

Definition CheckBufferIsPinnedOnce (buffer : Z) : M unit :=
  if BufferIsLocal buffer then
    let* n := local_refcount (- buffer - 1) in
    if negb (n =? 1) then elog "incorrect local pin count" else ret tt
  else
    let* n := GetPrivateRefCount buffer in
    if negb (n =? 1) then elog "incorrect local pin count" else ret tt.

(** Waits for the latch of this process and resets it. *)
Definition ProcWaitForSignal : M unit :=
  let* my := get_me MyProcNumber in
  forever (fun _ : unit =>
    interfere ;;
    let* p := GetPGProcByNumber my in
    if procLatch p then set_proc my (with_procLatch false p) ;; ret (Break tt)
    else ret (Continue tt)) tt.

Section cleanup.
(** Hot standby: whether the server is in it, how the startup process waits
    ([standby.c]) and the buffer it waits for ([proc.c]). *)
Context (InHotStandby : bool) (ResolveRecoveryConflictWithBufferPin : M unit).
Context (SetStartupBufferPinWaitBufId : Z -> M unit) (GetStartupBufferPinWaitBufId : M Z).

Definition cleanup_round (buffer bufHdr : Z) (_ : unit) : M (ctl unit unit) :=
  LockBuffer buffer BUFFER_LOCK_EXCLUSIVE ;;
  let* buf_state := LockBufHdr bufHdr in
  c_assert (0 <? BUF_STATE_GET_REFCOUNT buf_state) "buffer has no pins" ;;
  if BUF_STATE_GET_REFCOUNT buf_state =? 1 then UnlockBufHdr bufHdr ;; ret (Break tt)
  else if flag buf_state BM_PIN_COUNT_WAITER then
    UnlockBufHdr bufHdr ;;
    LockBuffer buffer BUFFER_LOCK_UNLOCK ;;
    elog "multiple backends attempting to wait for pincount 1"
  else
    let* my := get_me MyProcNumber in
    let* d := deref bufHdr in
    store_desc bufHdr (with_wait_backend_pgprocno my d) ;;
    modify_me (with_PinCountWaitBuf (Some bufHdr)) ;;
    UnlockBufHdrExt bufHdr buf_state BM_PIN_COUNT_WAITER 0 0 ;;
    LockBuffer buffer BUFFER_LOCK_UNLOCK ;;
    (if InHotStandby then
       SetStartupBufferPinWaitBufId (buffer - 1) ;;
       ResolveRecoveryConflictWithBufferPin ;;
       SetStartupBufferPinWaitBufId (-1)
     else ProcWaitForSignal) ;;
    let* buf_state := LockBufHdr bufHdr in
    let* d := deref bufHdr in
    let unset_bits :=
      if flag buf_state BM_PIN_COUNT_WAITER && (wait_backend_pgprocno d =? my)
      then BM_PIN_COUNT_WAITER else 0 in
    UnlockBufHdrExt bufHdr buf_state 0 unset_bits 0 ;;
    modify_me (with_PinCountWaitBuf None) ;;
    ret (Continue tt).

Definition LockBufferForCleanup (buffer : Z) : M unit :=
  assert_pinned buffer ;;
  let* b := get_me PinCountWaitBuf in
  c_assert (bool_decide (b = None)) "already waiting for a pin count" ;;
  CheckBufferIsPinnedOnce buffer ;;
  if BufferIsLocal buffer then ret tt
  else forever (cleanup_round buffer (GetBufferDescriptor (buffer - 1))) tt.

Definition HoldingBufferPinThatDelaysRecovery : M bool :=
  let* bufid := GetStartupBufferPinWaitBufId in
  if bufid <? 0 then ret false
  else let* n := GetPrivateRefCount (bufid + 1) in ret (0 <? n).
End cleanup.

Definition ConditionalLockBufferForCleanup (buffer : Z) : M bool :=
  c_assert (BufferIsValid buffer) "invalid buffer" ;;
  if BufferIsLocal buffer then
    let* n := local_refcount (- buffer - 1) in
    c_assert (0 <? n) "local buffer is not pinned" ;;
    ret (n =? 1)
  else
    let* n := GetPrivateRefCount buffer in
    c_assert (ztrue n) "buffer is not pinned" ;;
    if negb (n =? 1) then ret false
    else
      let* got := ConditionalLockBuffer buffer in
      if negb got then ret false
      else
        let bufHdr := GetBufferDescriptor (buffer - 1) in
        let* buf_state := LockBufHdr bufHdr in
        let refcount := BUF_STATE_GET_REFCOUNT buf_state in
        c_assert (0 <? refcount) "buffer has no pins" ;;
        if refcount =? 1 then UnlockBufHdr bufHdr ;; ret true
        else
          UnlockBufHdr bufHdr ;;
          LockBuffer buffer BUFFER_LOCK_UNLOCK ;;
          ret false.

Definition IsBufferCleanupOK (buffer : Z) : M bool :=
  c_assert (BufferIsValid buffer) "invalid buffer" ;;
  if BufferIsLocal buffer then
    let* n := local_refcount (- buffer - 1) in ret (n =? 1)
  else
    let* n := GetPrivateRefCount buffer in
    if negb (n =? 1) then ret false
    else
      let bufHdr := GetBufferDescriptor (buffer - 1) in
      let* locked := BufferIsLockedByMeInMode buffer BUFFER_LOCK_EXCLUSIVE in
      c_assert locked "buffer is not locked exclusively" ;;
      let* buf_state := LockBufHdr bufHdr in
      c_assert (0 <? BUF_STATE_GET_REFCOUNT buf_state) "buffer has no pins" ;;
      UnlockBufHdr bufHdr ;;
      ret (BUF_STATE_GET_REFCOUNT buf_state =? 1).
