(* ===== verification/Tracking.v ===== *)
(** * Hit tracking ([tracking/atomic_tracking_stats.c])

    The counters of hits and misses behind [AtomicStatsPointer], which the reads of
    [bufmgr.c] feed and [GenAtomicStats] divides. *)
From S2P Require Import Prelude Float BufState Shmem Sample LocalBuf ContentLock Pin.

Definition u64_add (a b : Z) : Z := u64 (a + b).

Definition RecordAtomicCacheHit : M unit :=
  count_usage (fun a => match AtomicStatsPointer a with
    | None => a
    | Some s => with_AtomicStatsPointer (Some (mkAtomicStats (u64_add (atomic_cache_hits s) 1) (atomic_cache_misses s))) a
    end).
Definition RecordAtomicCacheMiss (count : Z) : M unit :=
  count_usage (fun a => match AtomicStatsPointer a with
    | None => a
    | Some s => with_AtomicStatsPointer (Some (mkAtomicStats (atomic_cache_hits s) (u64_add (atomic_cache_misses s) count))) a
    end).

Definition GenAtomicStats : M float8 :=
  let* p := get_me (fun m => AtomicStatsPointer (accounting m)) in
  match p with
  | None => trap "null pointer"
  | Some s =>
      let total := u64_add (atomic_cache_hits s) (atomic_cache_misses s) in
      if total =? 0 then ret float8_zero
      else ret (float8_div (float8_of_int (atomic_cache_hits s)) (float8_of_int total))
  end.

(** ** What is counted *)
Inductive access := Hit | Miss (count : Z).
Fixpoint record_all (l : list access) : M unit :=
  match l with
  | [] => ret tt
  | Hit :: l => RecordAtomicCacheHit ;; record_all l
  | Miss count :: l => RecordAtomicCacheMiss count ;; record_all l
  end.
Definition hits (l : list access) : Z := foldr (fun a n => match a with Hit => 1 + n | Miss _ => n end) 0 l.
Definition misses (l : list access) : Z := foldr (fun a n => match a with Hit => n | Miss count => count + n end) 0 l.

Lemma u64_u64_add a b c : u64 (u64 (a + b) + c) = u64 (a + (b + c)).
Proof. unfold u64. rewrite Z.add_mod_idemp_l by done. f_equal. lia. Qed.

Definition tracked_at (w : World) : option AtomicStats := AtomicStatsPointer (accounting (me w)).

Lemma record_all_counts l : forall w s,
  tracked_at w = Some s -> 0 <= atomic_cache_hits s < 2 ^ 64 -> 0 <= atomic_cache_misses s < 2 ^ 64 ->
  exists w', record_all l w = (Ret tt, w') /\
    tracked_at w' = Some (mkAtomicStats (u64 (atomic_cache_hits s + hits l)) (u64 (atomic_cache_misses s + misses l))).
Proof.
  unfold tracked_at. induction l as [|[|c] l IH]; intros w s Hp Hh Hk; cbn [record_all hits misses foldr].
  - exists w. split; [done|]. rewrite !Z.add_0_r. unfold u64. rewrite !Z.mod_small by done. rewrite Hp. by destruct s.
  - destruct (IH (RecordAtomicCacheHit w).2 (mkAtomicStats (u64_add (atomic_cache_hits s) 1) (atomic_cache_misses s))) as (w' & Hrun & Hp');
      [cbn; by rewrite Hp|apply u64_range|done|].
    exists w'. split; [by erewrite bind_ret by done|]. rewrite Hp'. cbn [atomic_cache_hits atomic_cache_misses]. unfold u64_add. by rewrite u64_u64_add.
  - destruct (IH (RecordAtomicCacheMiss c w).2 (mkAtomicStats (atomic_cache_hits s) (u64_add (atomic_cache_misses s) c))) as (w' & Hrun & Hp');
      [cbn; by rewrite Hp|done|apply u64_range|].
    exists w'. split; [by erewrite bind_ret by done|]. rewrite Hp'. cbn [atomic_cache_hits atomic_cache_misses]. unfold u64_add. by rewrite u64_u64_add.
Qed.

Lemma record_all_null l : forall w,
  tracked_at w = None -> exists w', record_all l w = (Ret tt, w') /\ accounting (me w') = accounting (me w).
Proof.
  unfold tracked_at. induction l as [|a l IH]; intros w Hp; [by exists w|].
  assert (exists w1, (match a with Hit => RecordAtomicCacheHit | Miss c => RecordAtomicCacheMiss c end) w = (Ret tt, w1) /\
    accounting (me w1) = accounting (me w)) as (w1 & Hrun1 & Ha1).
  { destruct a; eexists; (split; [done|]); cbn; by rewrite Hp. }
  destruct (IH w1) as (w2 & Hrun2 & Ha2); [by rewrite Ha1|]. exists w2. split; [|congruence].
  destruct a; cbn [record_all]; by run Hrun1.
Qed.

(** C35. The counters behind [AtomicStatsPointer].  If it points to counters, any
    sequence of recorded hits and misses adds their numbers, modulo 2^64, and
    [GenAtomicStats] returns the double quotient of the hits and the total, or zero
    if the total is zero.  If it is null, as [atomic_tracking_stats.c] initializes
    it and nothing changes, nothing is recorded and [GenAtomicStats] dereferences
    the null pointer. *)
Theorem cache_tracking_exact l w :
  let p := tracked_at w in
  (forall s, p = Some s -> 0 <= atomic_cache_hits s < 2 ^ 64 -> 0 <= atomic_cache_misses s < 2 ^ 64 ->
    let h := u64 (atomic_cache_hits s + hits l) in
    let k := u64 (atomic_cache_misses s + misses l) in
    exists w', record_all l w = (Ret tt, w') /\ tracked_at w' = Some (mkAtomicStats h k) /\
      GenAtomicStats w' = (Ret (if u64 (h + k) =? 0 then float8_zero else float8_div (float8_of_int h) (float8_of_int (u64 (h + k)))), w')) /\
  (p = None -> exists w', record_all l w = (Ret tt, w') /\ accounting (me w') = accounting (me w) /\
    GenAtomicStats w' = (UB "null pointer", w')).
Proof.
  intros p. split.
  - intros s Hp Hh Hk h k. destruct (record_all_counts l w s Hp Hh Hk) as (w' & Hrun & Hp'). exists w'. split; [done|]. split; [done|].
    unfold GenAtomicStats, get_me, gets, bind. unfold tracked_at in Hp'. rewrite Hp'. cbn. by destruct (_ =? 0).
  - intros Hp. destruct (record_all_null l w Hp) as (w' & Hrun & Ha). exists w'. split; [done|]. split; [done|].
    unfold GenAtomicStats, get_me, gets, bind. rewrite Ha. unfold p, tracked_at in Hp. by rewrite Hp.
Qed.

(** One hit and a read of three blocks: a ratio of a quarter, if there are counters. *)
Lemma cache_tracking_exact_witness :
  let w := sample_world SieveVtable [] [] in
  let tracking := upd_me (fun m => with_accounting (with_AtomicStatsPointer (Some (mkAtomicStats 0 0)) (accounting m)) m) w in
  (exists w', record_all [Hit; Miss 3] tracking = (Ret tt, w') /\ tracked_at w' = Some (mkAtomicStats 1 3) /\
    GenAtomicStats w' = (Ret (float8_div (float8_of_int 1) (float8_of_int 4)), w')) /\
  exists w', record_all [Hit; Miss 3] w = (Ret tt, w') /\ GenAtomicStats w' = (UB "null pointer", w').
Proof.
  intros w tracking. split.
  - destruct (proj1 (cache_tracking_exact [Hit; Miss 3] tracking) (mkAtomicStats 0 0)) as (w' & ? & ? & ?); try done. by exists w'.
  - destruct (proj2 (cache_tracking_exact [Hit; Miss 3] w)) as (w' & ? & _ & ?); [done|]. by exists w'.
Defined.
