(* ===== verification/PinRun.v ===== *)
(** * What pinning and unpinning do

    [PinBuffer] under interference is one atomic step on the state word; the
    other functions are stated without interference. *)
From S2P Require Import Prelude BufState BufTag Shmem Concurrency PrivateRefCount Ring Sample.
From S2P Require Import LocalBuf ContentLock LockWord LockProtocol LockRun Pin.

(** ** The word with one more pin *)
Definition next_usage (strategy : BufferAccessStrategy) (u : Z) : Z :=
  match strategy with
  | None => if u <? BM_MAX_USAGE_COUNT then u + 1 else u
  | Some _ => if u =? 0 then 1 else u
  end.

Lemma pin_state_spec strategy s :
  wf_state s -> refcount s < 2 ^ 18 - 1 ->
  wf_state (pin_state strategy s) /\ refcount (pin_state strategy s) = refcount s + 1 /\
  usage (pin_state strategy s) = next_usage strategy (usage s) /\
  pin_state strategy s / 2 ^ 22 = s / 2 ^ 22.
Proof.
  intros Hs Hr. destruct (pin_word s Hs Hr) as (Hwf & Hr1 & Hq). fold (pinned_word s) in *.
  pose proof (usage_quot18 _ _ Hq) as Hu. pose proof (quot18_22 _ _ Hq) as Hq22.
  assert (usage (pinned_word s) < 15 -> let s' := u64 (pinned_word s + BUF_USAGECOUNT_ONE) in
    wf_state s' /\ refcount s' = refcount s + 1 /\ usage s' = usage s + 1 /\ s' / 2 ^ 22 = s / 2 ^ 22) as Hup.
  { intros Hlt. destruct (usage_up_word _ Hwf Hlt) as (H1 & H2 & H3 & H4). cbv zeta. split_and!; [done|lia..]. }
  unfold pin_state. fold (pinned_word s). rewrite get_usagecount by apply Hwf. rewrite Hu in *.
  destruct strategy as [r|]; cbn [next_usage].
  - destruct (Z.eqb_spec (usage s) 0) as [E|E].
    + destruct Hup as (H1 & H2 & H3 & H4); [lia|]. split_and!; [done|done|lia|done].
    + split_and!; done.
  - destruct (Z.ltb_spec (usage s) BM_MAX_USAGE_COUNT) as [E|E].
    + unfold BM_MAX_USAGE_COUNT in E. destruct Hup as (H1 & H2 & H3 & H4); [lia|]. by split_and!.
    + split_and!; done.
Qed.

(** Flags and the content lock are above the counts. *)
Lemma quot22_flag {G k} `{!IsBit G k} s s' : 22 <= k -> s' / 2 ^ 22 = s / 2 ^ 22 -> flag s' G = flag s G.
Proof. apply flag_use. Qed.
Lemma quot22_lock s s' : s' / 2 ^ 22 = s / 2 ^ 22 -> lock_field s' = lock_field s.
Proof. intros H. apply field_ext; [lia..|]. intros n Hn. apply (testbit_quot _ _ 22); [lia|done]. Qed.

(** ** The first pin, under interference *)
Definition pin_post (pr : Proto) (buf : Z) (strategy : BufferAccessStrategy) (skip : bool)
    (w : World) (o : outcome bool) (w' : World) : Prop :=
  match o with
  | Ret r => exists w1 d, evolves pr w w1 /\ desc_at w1 buf d /\ wf_state (state d) /\
      ((skip = true /\ r = false /\ flag (state d) BM_VALID = false /\ w' = w1) \/
       (flag (state d) BM_LOCKED = false /\ r = flag (pin_state strategy (state d)) BM_VALID /\
        shm w' = shm (set_desc buf (with_state (pin_state strategy (state d)) d) w1) /\
        sched w' = sched w1 /\ tracked (me w) (me w') (buf + 1)))
  | Spin => True
  | _ => False
  end.

(** Between two rounds: the word was just read. *)
Definition pin_inv (pr : Proto) (buf : Z) (w : World) (s : Z) (w1 : World) : Prop :=
  evolves pr w w1 /\ exists d, desc_at w1 buf d /\ wf_state (state d) /\ s = state d.

Lemma pin_swap_post pr buf strategy skip w w1 d :
  0 <= buf < pr_n pr -> evolves pr w w1 -> can_track (me w) (buf + 1) ->
  wf_state (state d) -> flag (state d) BM_LOCKED = false ->
  wp (let* '(ok, seen) := pg_atomic_compare_exchange_u64 buf (state d) (pin_state strategy (state d)) in
      if ok : bool then TrackNewBufferPin (buf + 1) ;;
        ret (Break (flag (pin_state strategy (state d)) BM_VALID))
      else ret (Continue seen))
    (round_post_partial (pin_inv pr buf w) (pin_post pr buf strategy skip w)) w1.
Proof.
  intros Hb Hev Hct Hwf Hl.
  apply wp_bind, (wp_pg_atomic_compare_exchange_u64 pr); [apply Hev|done| |].
  - intros w2 d2 Hev2 Hd2 _ Hs _ _. cbn [bind_post].
    assert (evolves pr w w2) as Hev' by (by eapply evolves_trans).
    destruct (TrackNewBufferPin_spec (set_desc buf (with_state (pin_state strategy (state d)) d2) w2)
      (buf + 1)) as (m' & Hrun & Htr); [cbn; by rewrite (evo_me _ _ _ Hev')|lia|].
    eapply wp_eq; [by run Hrun|]. cbn. exists w2, d2. rewrite <- Hs in *.
    split_and!; [done|done|done|]. right. cbn in Htr. rewrite (evo_me _ _ _ Hev') in Htr. by split_and!.
  - intros w2 d2 Hev2 Hd2 _ _ Hwf2 _. cbn [bind_post]. apply wp_ret. cbn.
    split; [by eapply evolves_trans|]. by exists d2.
Qed.

Lemma pin_round_post pr buf strategy skip w s w1 :
  0 <= buf < pr_n pr -> can_track (me w) (buf + 1) -> pin_inv pr buf w s w1 ->
  wp (pin_round buf (buf + 1) strategy skip s)
    (round_post_partial (pin_inv pr buf w) (pin_post pr buf strategy skip w)) w1.
Proof.
  intros Hb Hct (Hev & d & Hd & Hwf & ->). unfold pin_round.
  destruct (skip && negb (flag (state d) BM_VALID)) eqn:Hskip.
  { apply andb_true_iff in Hskip as [-> Hv%negb_true_iff]. apply wp_ret. cbn.
    exists w1, d. split_and!; [done..|]. by left. }
  clear Hskip. apply wp_bind. destruct (flag (state d) BM_LOCKED) eqn:Hl.
  - apply (wp_WaitBufHdrUnlocked pr); [apply Hev|done|done|].
    intros w2 d2 Hev2 Hd2 _ Hwf2 _ Hl2. cbn [bind_post].
    apply pin_swap_post; try done. by eapply evolves_trans.
  - apply wp_ret. cbn [bind_post]. by apply pin_swap_post.
Qed.

(** C22. The first pin of a buffer by a backend, under any interference that
    respects what the backend owns: [PinBuffer] never runs into undefined
    behaviour.  When it returns, either the caller asked to skip invalid buffers
    and the buffer was invalid, and nothing changed; or at one moment the header
    was unlocked, the word got one more pin (and the usage count its strategy
    allows), the backend tracks exactly one more pin, and the result is the valid
    flag of that moment. *)
Theorem PinBuffer_atomic pr buf strategy skip w :
  env_ok pr w -> 0 <= buf < pr_n pr -> can_track (me w) (buf + 1) ->
  wp (PinBuffer buf strategy skip) (pin_post pr buf strategy skip w) w.
Proof.
  intros Henv Hb Hct. destruct (env_desc pr w buf Henv Hb) as (d & Hd & Hid & Hwf & _).
  pose proof Hct as [(mu & Hinv & Hmu) Hres].
  apply (wp_step _ (let* s := pg_atomic_read_u64 buf in forever (pin_round buf (buf + 1) strategy skip) s) _ _ w).
  { unfold PinBuffer. run (GetBuffer_run w buf d Hd). rewrite Hid.
    rewrite c_assert_ok by (unfold BufferIsLocal; by rewrite (proj2 (Z.ltb_ge (buf + 1) 0)) by lia).
    unfold get_me, gets. unfold bind at 1. rewrite c_assert_ok by (by rewrite (proj2 (Z.eqb_neq _ _) Hres)).
    by run (GetEntry_absent w mu (buf + 1) true Hinv ltac:(lia) Hmu). }
  apply wp_bind, (wp_pg_atomic_read_u64 pr); [done..|]. intros w1 d1 Hev Hd1 _ Hwf1 _. cbn [bind_post].
  apply (wp_forever_partial (pin_inv pr buf w)); [done| |].
  - intros s w2. by apply pin_round_post.
  - split; [done|]. by exists d1.
Qed.

(** ** Without interference *)

(** The first pin. *)
Lemma PinBuffer_first_run w buf strategy skip d :
  quiet w -> (0 < gas (me w))%nat -> 0 <= buf -> desc_at w buf d -> buf_id d = buf ->
  wf_state (state d) -> flag (state d) BM_LOCKED = false ->
  (skip = true -> flag (state d) BM_VALID = true) -> can_track (me w) (buf + 1) ->
  exists m', PinBuffer buf strategy skip w = (Ret (flag (pin_state strategy (state d)) BM_VALID),
      with_me m' (set_desc buf (with_state (pin_state strategy (state d)) d) w)) /\
    tracked (me w) m' (buf + 1).
Proof.
  intros Hq Hg Hb Hd Hid Hwf Hl Hskip Hct. pose proof Hct as [(mu & Hinv & Hmu) Hres].
  destruct (TrackNewBufferPin_spec (set_desc buf (with_state (pin_state strategy (state d)) d) w)
    (buf + 1)) as (m' & Hrun & Htr); [done|lia|]. exists m'. split; [|done].
  unfold PinBuffer. run (GetBuffer_run w buf d Hd). rewrite Hid.
  rewrite c_assert_ok by (unfold BufferIsLocal; by rewrite (proj2 (Z.ltb_ge (buf + 1) 0)) by lia).
  unfold get_me, gets. unfold bind at 1. rewrite c_assert_ok by (by rewrite (proj2 (Z.eqb_neq _ _) Hres)).
  run (GetEntry_absent w mu (buf + 1) true Hinv ltac:(lia) Hmu). run (read_quiet w Hq buf d Hd).
  unfold forever. destruct (gas (me w)); [lia|]. apply iter_break. unfold pin_round.
  assert (skip && negb (flag (state d) BM_VALID) = false) as ->.
  { destruct skip; [|done]. by rewrite Hskip. }
  rewrite Hl, bind_ret_l. run (cas_quiet w Hq buf d (pin_state strategy (state d)) Hd). by run Hrun.
Qed.

(** Another pin of a buffer that is pinned already. *)
Lemma PinBuffer_again_run mu w buf strategy skip d e :
  pinned_free mu buf w d e -> buf_id d = buf -> ReservedRefCountSlot (me w) <> -1 ->
  0 < data_refcount e < 2 ^ 31 - 1 ->
  exists m', PinBuffer buf strategy skip w = (Ret (flag (state d) BM_VALID), with_me m' w) /\
    prc_inv m' (<[buf + 1 := mkRefData (data_refcount e + 1) (data_lockmode e)]> mu) /\
    prc_frame (with_owned_pins (buf + 1 :: owned_pins (me w)) (me w)) m'.
Proof.
  intros [Hq Hg Hb Hd Hwf Hinv He] Hid Hres Hr.
  destruct (GetEntry_spec w mu (buf + 1) true Hinv ltac:(lia)) as (m1 & res & Hrun & Hinv1 & Hfr1 & Hf).
  destruct res as [ref|]; cbn in Hf; [|congruence]. destruct Hf as [Href _].
  destruct (ref_data_spec (with_me m1 w) mu ref (buf + 1) Hinv1 ltac:(lia) Href) as (e' & He' & Hdata).
  assert (e' = e) as -> by congruence.
  destruct (set_ref_data_spec (with_me m1 w) mu ref (buf + 1)
    (mkRefData (data_refcount e + 1) (data_lockmode e)) Hinv1 ltac:(lia) Href) as (m2 & Hset & Hinv2 & Hfr2 & _).
  exists (with_owned_pins (buf + 1 :: owned_pins m2) m2). split_and!.
  - unfold PinBuffer. run (GetBuffer_run w buf d Hd). rewrite Hid.
    rewrite c_assert_ok by (unfold BufferIsLocal; by rewrite (proj2 (Z.ltb_ge (buf + 1) 0)) by lia).
    unfold get_me, gets. unfold bind at 1. rewrite c_assert_ok by (by rewrite (proj2 (Z.eqb_neq _ _) Hres)).
    run Hrun. run (read_quiet (with_me m1 w) Hq buf d Hd). run Hdata.
    rewrite c_assert_ok by (apply Z.ltb_lt; lia). rewrite i32_small by lia. by run Hset.
  - destruct Hinv2. by split.
  - destruct Hfr1, Hfr2. split; cbn in *; congruence.
Qed.

(** ** Unpinning *)

(** The shared state after [WakePinCountWaiter]. *)
Definition wake_pin_world (buf : Z) (d : BufferDesc) (w : World) : World :=
  if flag (state d) BM_PIN_COUNT_WAITER && (refcount (state d) =? 1) then
    set_procs (update_proc (with_procLatch true) (wait_backend_pgprocno d) (allProcs (shm w)))
      (set_desc buf (with_state (Z.ldiff (state d) BM_PIN_COUNT_WAITER) d) w)
  else w.

Lemma wake_pin_world_me buf d m w : wake_pin_world buf d (with_me m w) = with_me m (wake_pin_world buf d w).
Proof. unfold wake_pin_world. by destruct (_ && _). Qed.

Lemma unlock_clear s F :
  wf_state s -> flag s BM_LOCKED = false ->
  unlock_word (Z.lor s BM_LOCKED) 0 F 0 = Z.ldiff s F.
Proof.
  intros Hs Hl. unfold unlock_word. cbn [ztrue Z.eqb negb]. rewrite Z.lor_0_r.
  rewrite !land_not64 by auto using wf_ldiff, wf_clear, wf_locked.
  rewrite <- (unlock_lock s Hl) at 2. apply Z.bits_inj'. intros n Hn. rewrite !Z.ldiff_spec.
  by rewrite <- !andb_assoc, (andb_comm (negb _)).
Qed.

Lemma locked_refcount s : refcount (Z.lor s BM_LOCKED) = refcount s.
Proof. rewrite !refcount_field. by apply field_lor. Qed.

Lemma WakePinCountWaiter_run w buf d :
  quiet w -> (0 < gas (me w))%nat -> desc_at w buf d -> wf_state (state d) ->
  flag (state d) BM_LOCKED = false ->
  is_Some (lookupZ (allProcs (shm w)) (wait_backend_pgprocno d)) ->
  WakePinCountWaiter buf w = (Ret tt, wake_pin_world buf d w).
Proof.
  intros Hq Hg Hd Hwf Hl [p Hp]. unfold WakePinCountWaiter.
  run (LockBufHdr_quiet w Hq Hg buf d Hd Hl).
  set (d1 := with_state (Z.lor (state d) BM_LOCKED) d). set (w1 := set_desc buf d1 w).
  assert (desc_at w1 buf d1) as Hd1 by (by apply (desc_at_set_eq w _ d)).
  assert (wf_state (state d1)) as Hwf1 by (by apply wf_locked).
  assert (flag (state d1) BM_LOCKED = true) as Hl1 by apply flag_locked.
  rewrite get_refcount, locked_refcount by apply Hwf1. unfold wake_pin_world.
  assert (flag (Z.lor (state d) BM_LOCKED) BM_PIN_COUNT_WAITER = flag (state d) BM_PIN_COUNT_WAITER) as ->
    by (by flags).
  destruct (flag (state d) BM_PIN_COUNT_WAITER && (refcount (state d) =? 1)).
  - run (deref_run _ _ _ Hd1). cbn [wait_backend_pgprocno d1 with_state].
    assert (quiet w1) as Hq1 by done.
    run (UnlockBufHdrExt_quiet w1 Hq1 Hg buf d1 0 BM_PIN_COUNT_WAITER 0 Hd1 Hl1).
    cbn [state d1 with_state]. rewrite unlock_clear by done. pose proof (lookupZ_Some _ _ _ Hp).
    unfold ProcSendSignal, SetLatch, bind, gets. cbn. rewrite (proj2 (Z.ltb_ge _ _)) by lia.
    rewrite Z.geb_leb, (proj2 (Z.leb_gt _ _)) by lia. cbn. rewrite Hp. unfold modify_shm, modify. f_equal.
    unfold set_procs, update_proc. rewrite Hp. unfold set_desc, upd_shm, w1. cbn. by rewrite !insertZ_insertZ.
  - rewrite (UnlockBufHdr_quiet w1 Hq buf d1 Hd1 Hwf1 Hl1). cbn [state d1 with_state].
    rewrite unlock_lock by done. unfold w1. rewrite set_desc_set_desc. f_equal.
    change (with_state (state d) d1) with (with_state (state d) d). rewrite with_state_id.
    by apply set_desc_id.
Qed.

(** The shared state after the last pin of this backend is gone. *)
Definition unpin_world (buf : Z) (d : BufferDesc) (w : World) : World :=
  let d' := with_state (unpinned_word (state d)) d in
  let w' := set_desc buf d' w in
  if flag (state d) BM_PIN_COUNT_WAITER then wake_pin_world buf d' w' else w'.

Lemma unpin_world_me buf d m w : unpin_world buf d (with_me m w) = with_me m (unpin_world buf d w).
Proof. unfold unpin_world. cbv zeta. destruct (flag _ _); [|done]. by rewrite <- wake_pin_world_me. Qed.

(** A buffer this backend may unpin: one private pin, no lock, owned. *)
Record last_pin (mu : gmap Z PrivateRefCountData) (buf : Z) (w : World) (d : BufferDesc) : Prop := {
  lp_pinned : pinned_free mu buf w d one_pin;
  lp_id : buf_id d = buf;
  lp_count : 0 < refcount (state d);
  lp_unlocked : flag (state d) BM_LOCKED = false;
  lp_waiter : flag (state d) BM_PIN_COUNT_WAITER = true ->
    is_Some (lookupZ (allProcs (shm w)) (wait_backend_pgprocno d))
}.

Lemma BufferLockHeldByMe_run w mu buf d e ref b' :
  prc_inv (me w) mu -> 0 <= buf -> desc_at w buf d -> buf_id d = buf -> mu !! (buf + 1) = Some e ->
  ref_ok (me w) ref b' ->
  exists m', BufferLockHeldByMe buf w =
      (Ret (negb (bool_decide (data_lockmode e = BUFFER_LOCK_UNLOCK))), with_me m' w) /\
    tracks (me w) m' mu /\ ref_ok m' ref b'.
Proof.
  intros Hinv Hb Hd Hid He Href.
  destruct (GetEntry_spec w mu (buf + 1) false Hinv ltac:(lia)) as (m1 & res & Hrun & Hinv1 & Hfr1 & Hf).
  pose proof (GetEntry_nomove _ _ _ _ _ _ Hrun Href) as Href1. cbn in Href1.
  exists m1. split; [|done]. unfold BufferLockHeldByMe. run (GetBuffer_run w buf d Hd). rewrite Hid. run Hrun.
  destruct res as [r|]; cbn in Hf; [|congruence]. destruct Hf as [Hr _].
  destruct (ref_data_spec (with_me m1 w) mu r (buf + 1) Hinv1 ltac:(lia) Hr) as (e' & He' & Hdata).
  run Hdata. by assert (e' = e) as -> by congruence.
Qed.

Lemma UnpinBufferNoOwner_run mu w buf d :
  last_pin mu buf w d ->
  exists m', UnpinBufferNoOwner buf w = (Ret tt, with_me m' (unpin_world buf d w)) /\
    tracks (me w) m' (delete (buf + 1) mu).
Proof.
  intros [[Hq Hg Hb Hd Hwf Hinv He] Hid Hc Hl Hw].
  destruct (GetEntry_spec w mu (buf + 1) false Hinv ltac:(lia)) as (m1 & res & Hrun1 & Hinv1 & Hfr1 & Hf).
  destruct res as [ref|]; cbn in Hf; [|congruence]. destruct Hf as [Href _].
  destruct (ref_data_spec (with_me m1 w) mu ref (buf + 1) Hinv1 ltac:(lia) Href) as (e' & He' & Hdata).
  assert (e' = one_pin) as -> by congruence.
  destruct (set_ref_data_spec (with_me m1 w) mu ref (buf + 1) no_pin_data Hinv1 ltac:(lia) Href)
    as (m2 & Hset & Hinv2 & Hfr2 & Href2).
  destruct (BufferLockHeldByMe_run (with_me m2 w) _ buf d no_pin_data ref (buf + 1) Hinv2)
    as (m3 & Hheld & [Hinv3 Hfr3] & Href3); [lia|done|done|apply lookup_insert_eq|done|].
  destruct (Forget_spec (with_me m3 (unpin_world buf d w)) _ ref (buf + 1) Hinv3 ltac:(lia) Href3)
    as (m4 & Hforget & Hinv4 & Hfr4); [apply lookup_insert_eq|].
  exists m4. rewrite delete_insert_eq in Hinv4. split; [|split; [done|by repeat (etrans; [eassumption|])]].
  unfold UnpinBufferNoOwner. run (GetBuffer_run w buf d Hd). rewrite Hid.
  rewrite c_assert_ok by (unfold BufferIsLocal; by rewrite (proj2 (Z.ltb_ge (buf + 1) 0)) by lia).
  run Hrun1. run Hdata. rewrite c_assert_ok by done. change (mkRefData _ _) with no_pin_data. run Hset.
  rewrite when_true by done. run Hheld. rewrite c_assert_ok by done.
  run (rmw_quiet (with_me m3 w) Hq buf d (fun s => u64 (s - BUF_REFCOUNT_ONE)) Hd).
  fold (unpinned_word (state d)). set (d' := with_state (unpinned_word (state d)) d).
  destruct (unpin_word (state d) Hwf Hc) as (Hwf' & _ & Hq18).
  assert (when (flag (state d) BM_PIN_COUNT_WAITER) (WakePinCountWaiter buf) (set_desc buf d' (with_me m3 w)) =
    (Ret tt, with_me m3 (unpin_world buf d w))) as Hwake.
  { rewrite <- unpin_world_me. unfold unpin_world. cbv zeta. fold d'.
    destruct (flag (state d) BM_PIN_COUNT_WAITER) eqn:Hwt; [|done]. rewrite when_true by done.
    apply WakePinCountWaiter_run; [done| |by apply (desc_at_set_eq w _ d)|done| |by apply Hw].
    - cbn in *. by rewrite (fr_gas _ _ Hfr3), (fr_gas _ _ Hfr2), (fr_gas _ _ Hfr1).
    - cbn. rewrite <- Hl. by apply flag_pin. }
  run Hwake. rewrite Hforget. done.
Qed.

Lemma UnpinBuffer_run mu w buf d rest :
  last_pin mu buf w d -> remove_one (buf + 1) (owned_pins (me w)) = Some rest ->
  exists m', UnpinBuffer buf w = (Ret tt, with_me m' (unpin_world buf d w)) /\
    tracks (with_owned_pins rest (me w)) m' (delete (buf + 1) mu).
Proof.
  intros Hlp Ho. pose proof Hlp as [[Hq Hg Hb Hd Hwf Hinv He] Hid Hc Hl Hw].
  destruct (UnpinBufferNoOwner_run mu (with_me (with_owned_pins rest (me w)) w) buf d) as (m' & Hrun & Ht).
  { split; try done. split; try done. destruct Hinv. by split. }
  exists m'. split; [|done]. unfold UnpinBuffer. run (GetBuffer_run w buf d Hd). rewrite Hid.
  assert (ResourceOwnerForgetBuffer (buf + 1) w = (Ret tt, with_me (with_owned_pins rest (me w)) w)) as Hf.
  { unfold ResourceOwnerForgetBuffer, bind, get_me, gets. by rewrite Ho. }
  run Hf. rewrite Hrun, unpin_world_me. done.
Qed.

(** C23. Pinning a buffer for the first time and unpinning it again, without
    interference and while nobody waits for the buffer's pins to go away
    ([BM_PIN_COUNT_WAITER] is not set, so the unpinning wakes nobody), gives back the
    pin count, all flags and the content lock bits of its state word and all other
    descriptors, and the backend tracks and owns the same pins as before; only the
    usage count has moved, to the value the access strategy allows. *)
Theorem PinBuffer_roundtrip w buf strategy d mu :
  quiet w -> (0 < gas (me w))%nat -> 0 <= buf -> desc_at w buf d -> buf_id d = buf ->
  wf_state (state d) -> refcount (state d) < 2 ^ 18 - 1 -> flag (state d) BM_LOCKED = false ->
  flag (state d) BM_PIN_COUNT_WAITER = false ->
  prc_inv (me w) mu -> mu !! (buf + 1) = None -> ReservedRefCountSlot (me w) <> -1 ->
  exists m' s', (PinBuffer buf strategy false ;; UnpinBuffer buf) w =
      (Ret tt, with_me m' (set_desc buf (with_state s' d) w)) /\
    refcount s' = refcount (state d) /\ usage s' = next_usage strategy (usage (state d)) /\
    s' / 2 ^ 22 = state d / 2 ^ 22 /\ prc_inv m' mu /\ owned_pins m' = owned_pins (me w).
Proof.
  intros Hq Hg Hb Hd Hid Hwf Hr Hl Hwt Hinv Hmu Hres.
  destruct (PinBuffer_first_run w buf strategy false d) as (m1 & Hrun1 & [Hmap Hpins Hfr]); try done.
  { split; [by exists mu|done]. }
  destruct (pin_state_spec strategy (state d) Hwf Hr) as (Hwf1 & Hr1 & Hu1 & Hq1).
  set (s1 := pin_state strategy (state d)) in *. set (d1 := with_state s1 d) in *.
  assert (0 < refcount (state d1)) as Hc1.
  { cbn. rewrite Hr1. pose proof (refcount_range (state d)). lia. }
  destruct (UnpinBuffer_run (<[buf + 1 := one_pin]> mu) (with_me m1 (set_desc buf d1 w)) buf d1
    (owned_pins (me w))) as (m2 & Hrun2 & [Hinv2 Hfr2]).
  { split; [split; try done|done|done|by rewrite (quot22_flag (state d))|].
    - cbn. by rewrite (fr_gas _ _ Hfr).
    - by apply (desc_at_set_eq w _ d).
    - by apply Hmap.
    - apply lookup_insert_eq.
    - cbn. rewrite (quot22_flag (state d)), Hwt by done. done. }
  { cbn. rewrite Hpins. apply remove_one_head. }
  destruct (unpin_word s1 Hwf1) as (_ & Hr2 & Hq2); [done|].
  exists m2, (unpinned_word s1). split_and!.
  - run Hrun1. rewrite Hrun2. f_equal. unfold unpin_world. cbv zeta. cbn [state d1 with_state].
    rewrite (quot22_flag (state d)), Hwt by done.
    unfold set_desc, upd_shm. cbn. by rewrite insertZ_insertZ.
  - lia.
  - rewrite <- Hu1. by apply usage_quot18.
  - rewrite <- Hq1. by apply quot18_22.
  - by rewrite delete_insert_id in Hinv2.
  - by rewrite (fr_pins _ _ Hfr2).
Qed.

(** C24. [ReadRecentBuffer] on a shared buffer that this backend has pinned, that
    still has the tag but is not valid (a read is still under way): it returns
    false, which tells the caller that it got no pin, but the private pin count
    has gone up and the resource owner has one more pin to release. *)
Theorem ReadRecentBuffer_leaks_pin mu w buf d e rlocator forkNum blockNum :
  pinned_free mu buf w d e -> buf_id d = buf -> 0 < data_refcount e < 2 ^ 31 - 1 ->
  flag (state d) BM_VALID = false ->
  tag d = InitBufferTag (mkBufferTag 0 0 0 0 0) rlocator forkNum blockNum ->
  exists m', ReadRecentBuffer rlocator forkNum blockNum (buf + 1) w = (Ret false, with_me m' w) /\
    prc_inv m' (<[buf + 1 := mkRefData (data_refcount e + 1) (data_lockmode e)]> mu) /\
    owned_pins m' = buf + 1 :: owned_pins (me w).
Proof.
  intros Hp Hid Hr Hv Ht. pose proof Hp as [Hq Hg Hb Hd Hwf Hinv He].
  destruct (Reserve_spec w mu Hinv) as (m1 & Hrun1 & Hinv1 & Hfr1 & Hres1 & _).
  destruct (PinBuffer_again_run mu (with_me m1 w) buf None true d e) as (m2 & Hrun2 & Hinv2 & Hfr2); try done.
  { by apply pinned_free_me. }
  exists m2. split_and!; [|done|by rewrite (fr_pins _ _ Hfr2); cbn; rewrite (fr_pins _ _ Hfr1)].
  unfold ReadRecentBuffer, BufferIsValid, BufferIsLocal, GetBufferDescriptor.
  rewrite c_assert_ok by (by rewrite (proj2 (Z.eqb_neq _ _)) by (unfold InvalidBuffer; lia)).
  run Hrun1. rewrite (proj2 (Z.ltb_ge (buf + 1) 0)) by lia. replace (buf + 1 - 1) with buf by lia.
  run (deref_run (with_me m1 w) buf d Hd). rewrite <- Ht, BufferTagsEqual_refl. cbn [negb].
  run Hrun2. by rewrite Hv.
Qed.

(** ** Marking a page dirty, under interference *)
Definition dirty_word (s : Z) : Z := Z.lor s (Z.lor BM_DIRTY BM_JUST_DIRTIED).

Definition dirty_post (pr : Proto) (buf : Z) (w : World) (o : outcome Z) (w' : World) : Prop :=
  match o with
  | Ret s => exists w1 d, evolves pr w w1 /\ desc_at w1 buf d /\ wf_state (state d) /\ s = state d /\
      flag s BM_LOCKED = false /\ w' = set_desc buf (with_state (dirty_word s) d) w1
  | Spin => True
  | _ => False
  end.

(** What we own implies a pin. *)
Definition owns_pin (pr : Proto) (buf : Z) : Prop :=
  exists P, pr_own pr buf = Some P /\ forall s, P s -> refcount s <> 0.

Lemma own_refcount pr buf s : owns_pin pr buf -> own_ok pr buf s -> 0 < refcount s.
Proof.
  intros (P & HP & Hr). unfold own_ok. rewrite HP. intros [Hs _].
  specialize (Hr _ Hs). pose proof (refcount_range s). lia.
Qed.

Lemma dirty_swap_post pr buf w w1 d :
  0 <= buf < pr_n pr -> evolves pr w w1 -> wf_state (state d) -> 0 < refcount (state d) ->
  flag (state d) BM_LOCKED = false ->
  wp (c_assert (0 <? BUF_STATE_GET_REFCOUNT (state d)) "buffer has no pins" ;;
      let* '(ok, seen) := pg_atomic_compare_exchange_u64 buf (state d) (dirty_word (state d)) in
      if ok : bool then ret (Break (state d)) else ret (Continue seen))
    (round_post_partial (fun s w' => evolves pr w w' /\ wf_state s /\ own_ok pr buf s) (dirty_post pr buf w)) w1.
Proof.
  intros Hb Hev Hwf Hr Hl. rewrite get_refcount by apply Hwf. rewrite (proj2 (Z.ltb_lt _ _) Hr).
  apply wp_bind, wp_ret. cbn [bind_post].
  apply wp_bind, (wp_pg_atomic_compare_exchange_u64 pr); [apply Hev|done| |].
  - intros w2 d2 Hev2 Hd2 _ Hs _ _. cbn [bind_post]. apply wp_ret. cbn. exists w2, d2. rewrite <- Hs in *.
    split_and!; try done. by eapply evolves_trans.
  - intros w2 d2 Hev2 _ _ _ Hwf2 Hown. cbn [bind_post]. apply wp_ret. cbn.
    split_and!; [by eapply evolves_trans|done|done].
Qed.

Lemma dirty_loop_post pr buf w w1 s :
  0 <= buf < pr_n pr -> owns_pin pr buf -> evolves pr w w1 -> wf_state s -> own_ok pr buf s ->
  wp (forever (dirty_round buf) s) (dirty_post pr buf w) w1.
Proof.
  intros Hb Hown Hev Hwf Hs.
  apply (wp_forever_partial (fun s w' => evolves pr w w' /\ wf_state s /\ own_ok pr buf s)); [done| |done].
  clear w1 s Hev Hwf Hs. intros s w1 (Hev & Hwf & Hs). unfold dirty_round. apply wp_bind.
  destruct (flag s BM_LOCKED) eqn:Hl.
  - apply (wp_WaitBufHdrUnlocked pr); [apply Hev|done|done|]. intros w2 d2 Hev2 Hd2 _ Hwf2 Hown2 Hl2.
    cbn [bind_post]. apply dirty_swap_post; try done; [by eapply evolves_trans|by eapply own_refcount].
  - apply wp_ret. cbn [bind_post].
    destruct (env_desc pr w1 buf (evo_env _ _ _ Hev) Hb) as (d & _).
    apply (dirty_swap_post pr buf w w1 (with_state s d)); try done. by eapply own_refcount.
Qed.

Lemma BufferIsLockedByMeInMode_run w mu buf d e mode :
  prc_inv (me w) mu -> 0 <= buf -> desc_at w buf d -> buf_id d = buf -> mu !! (buf + 1) = Some e ->
  0 < data_refcount e ->
  exists m', BufferIsLockedByMeInMode (buf + 1) mode w =
      (Ret (bool_decide (data_lockmode e = mode)), with_me m' w) /\ tracks (me w) m' mu.
Proof.
  intros Hinv Hb Hd Hid He Hr.
  destruct (assert_pinned_run w mu (buf + 1) e) as (m1 & Hrun1 & Ht1); [done|lia|done|done|].
  destruct (GetEntry_spec (with_me m1 w) mu (buf + 1) false (proj1 Ht1) ltac:(lia))
    as (m2 & res & Hrun2 & Hinv2 & Hfr2 & Hf).
  exists m2. split; [|split; [done|by etrans; [apply Ht1|]]]. unfold BufferIsLockedByMeInMode. run Hrun1.
  unfold BufferIsLocal, GetBufferDescriptor. rewrite (proj2 (Z.ltb_ge (buf + 1) 0)) by lia.
  replace (buf + 1 - 1) with buf by lia. unfold BufferLockHeldByMeInMode.
  run (GetBuffer_run (with_me m1 w) buf d Hd). rewrite Hid. run Hrun2.
  destruct res as [r|]; cbn in Hf; [|congruence]. destruct Hf as [Hr2 _].
  destruct (ref_data_spec (with_me m2 w) mu r (buf + 1) Hinv2 ltac:(lia) Hr2) as (e' & He' & Hdata).
  run Hdata. by assert (e' = e) as -> by congruence.
Qed.

(** C25. [MarkBufferDirty] by a backend that holds a pin and the exclusive content
    lock, under any interference that respects them: it never runs into undefined
    behaviour, in particular its assertion that the buffer is pinned never fails.
    When it returns, at one moment the header was unlocked and both dirty flags
    were set, and nothing else in shared memory was changed. *)
Theorem MarkBufferDirty_atomic pr buf w mu e :
  env_ok pr w -> 0 <= buf < pr_n pr -> owns_pin pr buf -> prc_inv (me w) mu ->
  mu !! (buf + 1) = Some e -> 0 < data_refcount e -> data_lockmode e = BUFFER_LOCK_EXCLUSIVE ->
  wp (MarkBufferDirty (buf + 1)) (fun o w' =>
    match o with
    | Ret _ => exists w1 d, Rely pr (shm w) (shm w1) /\ desc_at w1 buf d /\
        flag (state d) BM_LOCKED = false /\
        shm w' = shm (set_desc buf (with_state (dirty_word (state d)) d) w1) /\ prc_inv (me w') mu
    | Spin => True
    | _ => False
    end) w.
Proof.
  intros Henv Hb Hown Hinv He Hr Hm.
  destruct (env_desc pr w buf Henv Hb) as (d & Hd & Hid & _).
  destruct (assert_pinned_run w mu (buf + 1) e) as (m1 & Hrun1 & Ht1); [done|lia|done|done|].
  destruct (BufferIsLockedByMeInMode_run (with_me m1 w) mu buf d e BUFFER_LOCK_EXCLUSIVE (proj1 Ht1))
    as (m2 & Hrun2 & Ht2); [lia|done..|].
  assert (env_ok pr (with_me m2 w)) as Henv2.
  { apply env_me; [done|..]; destruct (proj2 Ht1), (proj2 Ht2); cbn in *; congruence. }
  unfold MarkBufferDirty, BufferIsValid, BufferIsLocal, GetBufferDescriptor.
  rewrite (proj2 (Z.eqb_neq _ _)), (proj2 (Z.ltb_ge (buf + 1) 0)) by (unfold InvalidBuffer; lia).
  cbn [negb]. replace (buf + 1 - 1) with buf by lia.
  eapply wp_step; [run Hrun1; run Hrun2; rewrite c_assert_ok by (by rewrite Hm); reflexivity|].
  apply wp_bind, (wp_pg_atomic_read_u64 pr); [done..|]. intros w3 d3 Hev3 _ _ Hwf3 Hown3. cbn [bind_post].
  apply wp_bind. eapply wp_mono; [|by apply (dirty_loop_post pr buf (with_me m2 w))].
  intros [s| | |] w4; cbn [bind_post]; try done. intros (w5 & d5 & Hev5 & Hd5 & Hwf5 & -> & Hl5 & ->).
  assert (prc_inv (me w5) mu) as Hinv5 by (rewrite (evo_me _ _ _ Hev5); apply Ht2).
  unfold wp, when, count_usage, modify_me, modify, bind. cbn.
  destruct (negb (flag (state d5) BM_DIRTY)); cbn; exists w5, d5;
    (split_and!; [apply Hev5|done|done|done|]); [destruct Hinv5; by split|done].
Qed.

(** ** Cleanup locks *)
Lemma tracks_resume m0 m1 m2 mu mu' :
  tracks m0 m1 mu -> tracks (holdoff 1 m1) m2 mu' -> tracks m0 (holdoff (-1) m2) mu'.
Proof.
  intros [_ H1] [H2 H3]. split; [by apply prc_inv_holdoff|].
  destruct H1, H3. split; cbn in *; try congruence. lia.
Qed.

Lemma BufferLockConditional_run mu buf w d e mode :
  pinned_free mu buf w d e -> data_lockmode e = BUFFER_LOCK_UNLOCK -> mode <> BUFFER_LOCK_UNLOCK ->
  0 <= InterruptHoldoffCount (me w) ->
  exists m', if lock_field (state d) <? lock_limit mode
    then BufferLockConditional (buf + 1) buf mode w =
        (Ret true, with_me m' (set_desc buf (with_state (u64 (state d + 2 ^ 34 * lock_unit mode)) d) w)) /\
      tracks (holdoff 1 (me w)) m' (<[buf + 1 := mkRefData (data_refcount e) mode]> mu)
    else BufferLockConditional (buf + 1) buf mode w = (Ret false, with_me m' w) /\ tracks (me w) m' mu.
Proof.
  intros [Hq Hg Hb Hd Hwf Hinv He] Hun Hm Hho.
  destruct (pinned_entry_spec w mu (buf + 1) true e) as (m1 & ref & Hrun & Ht1 & Href & Hdata);
    [done|lia|done|]. pose proof Ht1 as [Hinv1 Hfr1].
  set (w1 := with_me (holdoff 1 m1) w).
  assert (forall k : unit -> M bool, bind HOLD_INTERRUPTS k (with_me m1 w) = k tt w1) as Hhold by done.
  assert (BufferLockAttempt buf mode w1 = (Ret (negb (lock_field (state d) <? lock_limit mode)),
    set_desc buf (with_state (if lock_field (state d) <? lock_limit mode
      then u64 (state d + 2 ^ 34 * lock_unit mode) else state d) d) w1)) as Hatt.
  { rewrite (BufferLockAttempt_quiet w1 buf d mode), attempt_word_spec; try done.
    cbn. by rewrite (fr_gas _ _ Hfr1). }
  unfold BufferLockConditional. destruct (lock_field (state d) <? lock_limit mode) eqn:E.
  - destruct (set_lockmode_spec (set_desc buf (with_state (u64 (state d + 2 ^ 34 * lock_unit mode)) d) w1)
      mu ref (buf + 1) e mode) as (m2 & Hset & Ht2); [by apply prc_inv_holdoff|lia|done|done|].
    exists m2. run Hrun. run (Hdata (with_me m1 w) eq_refl). rewrite bool_decide_true by done. cbn [negb].
    rewrite Hhold. run Hatt. cbn [negb]. run Hset. split; [done|]. by eapply tracks_holdoff.
  - exists (holdoff (-1) (holdoff 1 m1)). run Hrun. run (Hdata (with_me m1 w) eq_refl).
    rewrite bool_decide_true by done. cbn [negb]. rewrite Hhold. run Hatt. cbn [negb].
    rewrite with_state_id, set_desc_id by done.
    assert (0 < InterruptHoldoffCount (me w1)) as Hpos.
    { cbn. rewrite (fr_holdoff _ _ Hfr1). lia. }
    run (RESUME_run w1 Hpos). split; [done|]. eapply tracks_resume; [exact Ht1|].
    split; [by apply prc_inv_holdoff|done].
Qed.

(** Unlocking the header right after locking it. *)
Lemma unlock_back w buf d :
  quiet w -> desc_at w buf d -> wf_state (state d) -> flag (state d) BM_LOCKED = false ->
  UnlockBufHdr buf (set_desc buf (with_state (Z.lor (state d) BM_LOCKED) d) w) = (Ret tt, w).
Proof.
  intros Hq Hd Hwf Hl. set (d1 := with_state (Z.lor (state d) BM_LOCKED) d).
  rewrite (UnlockBufHdr_quiet (set_desc buf d1 w) Hq buf d1); [|by apply (desc_at_set_eq w _ d)|by apply wf_locked|apply flag_locked].
  cbn [state d1 with_state]. rewrite unlock_lock, set_desc_set_desc by done. f_equal.
  change (with_state (state d) d1) with (with_state (state d) d). rewrite with_state_id.
  by apply set_desc_id.
Qed.

Lemma ConditionalLockBuffer_run mu buf w d e :
  pinned_free mu buf w d e -> 0 < data_refcount e -> data_lockmode e = BUFFER_LOCK_UNLOCK ->
  0 <= InterruptHoldoffCount (me w) ->
  exists m', if lock_field (state d) <? 1
    then ConditionalLockBuffer (buf + 1) w =
        (Ret true, with_me m' (set_desc buf (with_state (u64 (state d + BM_LOCK_VAL_EXCLUSIVE)) d) w)) /\
      tracks (holdoff 1 (me w)) m' (<[buf + 1 := mkRefData (data_refcount e) BUFFER_LOCK_EXCLUSIVE]> mu)
    else ConditionalLockBuffer (buf + 1) w = (Ret false, with_me m' w) /\ tracks (me w) m' mu.
Proof.
  intros Hp Hr Hun Hho. pose proof Hp as [_ _ Hb _ _ Hinv He].
  destruct (assert_pinned_run w mu (buf + 1) e) as (m1 & Hrun1 & Ht1); [done|lia|done|done|].
  destruct (BufferLockConditional_run mu buf (with_me m1 w) d e BUFFER_LOCK_EXCLUSIVE) as (m2 & H2); try done.
  { by apply pinned_free_me. }
  { cbn. by rewrite (fr_holdoff _ _ (proj2 Ht1)). }
  exists m2. unfold ConditionalLockBuffer, BufferIsLocal, GetBufferDescriptor.
  cbn [lock_limit] in H2. destruct (lock_field (state d) <? 1); destruct H2 as [Hrun2 Ht2].
  - run Hrun1. rewrite (proj2 (Z.ltb_ge (buf + 1) 0)) by lia. replace (buf + 1 - 1) with buf by lia.
    split; [exact Hrun2|]. by eapply tracks_holdoff.
  - run Hrun1. rewrite (proj2 (Z.ltb_ge (buf + 1) 0)) by lia. replace (buf + 1 - 1) with buf by lia.
    split; [exact Hrun2|]. by eapply tracks_trans.
Qed.

(** Adding and taking away the exclusive lock. *)
Lemma exclusive_word s :
  wf_state s -> lock_field s = 0 -> let s1 := u64 (s + BM_LOCK_VAL_EXCLUSIVE) in
  wf_state s1 /\ lock_field s1 = 2 ^ 19 /\ same_rest s s1 /\ release_word BUFFER_LOCK_EXCLUSIVE s1 = s.
Proof.
  intros Hwf Hf. cbv zeta. change BM_LOCK_VAL_EXCLUSIVE with (2 ^ 34 * 2 ^ 19).
  destruct (add_field s (2 ^ 19)) as (H1 & H2 & H3); [done|lia|].
  split_and!; [done|by rewrite H2, Hf|done|]. unfold release_word, u64. rewrite Zminus_mod_idemp_l.
  cbn [lock_unit]. replace (s + _ - _) with s by lia. by apply u64_small.
Qed.

(** Giving the exclusive lock back. *)
Lemma unlock_exclusive mu buf w d m :
  quiet w -> (0 < gas m)%nat -> 0 <= buf -> desc_at w buf d -> wf_state (state d) ->
  lock_field (state d) = 0 -> flag (state d) BM_LOCKED = false ->
  flag (state d) BM_LOCK_HAS_WAITERS = false -> lock_waiters d = [] ->
  0 < InterruptHoldoffCount m -> prc_inv m (<[buf + 1 := mkRefData 1 BUFFER_LOCK_EXCLUSIVE]> mu) ->
  exists m', LockBuffer (buf + 1) BUFFER_LOCK_UNLOCK
      (with_me m (set_desc buf (with_state (u64 (state d + BM_LOCK_VAL_EXCLUSIVE)) d) w)) =
      (Ret tt, with_me m' w) /\ prc_inv m' (<[buf + 1 := one_pin]> mu).
Proof.
  intros Hqu Hg Hb Hd Hwf Hz Hl Hhw Hq Hho Hinv.
  destruct (exclusive_word (state d) Hwf Hz) as (Hwf1 & Hf1 & Hrest & Hback).
  set (s1 := u64 (state d + BM_LOCK_VAL_EXCLUSIVE)) in *. set (d1 := with_state s1 d).
  set (w1 := with_me m (set_desc buf d1 w)).
  destruct (UnlockBuffer_run (<[buf + 1 := mkRefData 1 BUFFER_LOCK_EXCLUSIVE]> mu) buf w1 d1
    (mkRefData 1 BUFFER_LOCK_EXCLUSIVE)) as (m' & Hrun & Hinv' & _); try done.
  - split; try done; [by apply (desc_at_set_eq w _ d)|apply lookup_insert_eq].
  - cbn. rewrite Hf1. lia.
  - rewrite <- Hl. by apply same_rest_flag.
  - cbn. rewrite Hq. apply NoDup_nil_2.
  - intros x. cbn. rewrite Hq. by intros ?%not_elem_of_nil.
  - exists m'. rewrite insert_insert_eq in Hinv'. split; [|done].
    unfold LockBuffer. rewrite bool_decide_true, Hrun by done. f_equal. unfold release_world. cbv zeta.
    cbn [state d1 with_state data_lockmode]. rewrite Hback. unfold release_check. rewrite Hhw. cbn [andb].
    change (with_state (state d) d1) with (with_state (state d) d). rewrite with_state_id.
    unfold w1. change (set_desc buf d (with_me m (set_desc buf d1 w))) with
      (with_me m (set_desc buf d (set_desc buf d1 w))).
    by rewrite set_desc_set_desc, set_desc_id.
Qed.

(** The part of the function after it got the content lock. *)
Lemma cleanup_check_run mu buf w d m :
  quiet w -> (0 < gas m)%nat -> 0 <= buf -> desc_at w buf d -> wf_state (state d) ->
  lock_field (state d) = 0 -> flag (state d) BM_LOCKED = false ->
  flag (state d) BM_LOCK_HAS_WAITERS = false -> lock_waiters d = [] -> 0 < refcount (state d) ->
  0 < InterruptHoldoffCount m -> prc_inv m (<[buf + 1 := mkRefData 1 BUFFER_LOCK_EXCLUSIVE]> mu) ->
  let w1 := set_desc buf (with_state (u64 (state d + BM_LOCK_VAL_EXCLUSIVE)) d) w in
  let ok := refcount (state d) =? 1 in
  exists m', (let* buf_state := LockBufHdr buf in
      let refcount := BUF_STATE_GET_REFCOUNT buf_state in
      c_assert (0 <? refcount) "buffer has no pins" ;;
      if refcount =? 1 then UnlockBufHdr buf ;; ret true
      else UnlockBufHdr buf ;; LockBuffer (buf + 1) BUFFER_LOCK_UNLOCK ;; ret false) (with_me m w1) =
      (Ret ok, with_me m' (if ok then w1 else w)) /\
    prc_inv m' (<[buf + 1 := if ok then mkRefData 1 BUFFER_LOCK_EXCLUSIVE else one_pin]> mu).
Proof.
  intros Hqu Hg Hb Hd Hwf Hz Hl Hhw Hq Hc Hho Hinv w1 ok.
  destruct (exclusive_word (state d) Hwf Hz) as (Hwf1 & Hf1 & Hrest & _).
  destruct (unlock_exclusive mu buf w d m) as (m' & Hundo & Hinv'); try done. fold w1 in Hundo.
  set (d1 := with_state (u64 (state d + BM_LOCK_VAL_EXCLUSIVE)) d) in *.
  assert (desc_at (with_me m w1) buf d1) as Hd1 by (by apply (desc_at_set_eq w _ d)).
  assert (flag (state d1) BM_LOCKED = false) as Hl1 by (rewrite <- Hl; by apply same_rest_flag).
  assert (refcount (Z.lor (state d1) BM_LOCKED) = refcount (state d)) as Hrc
    by (rewrite locked_refcount; by apply same_rest_refcount).
  pose proof (unlock_back (with_me m w1) buf d1 Hqu Hd1 Hwf1 Hl1) as Hback.
  exists (if ok then m else m'). run (LockBufHdr_quiet (with_me m w1) Hqu Hg buf d1 Hd1 Hl1). cbv zeta.
  rewrite get_refcount, Hrc by (apply wf_locked; done). rewrite c_assert_ok by (by apply Z.ltb_lt).
  fold ok. destruct ok; run Hback; [done|]. by run Hundo.
Qed.

(** [ConditionalLockBufferForCleanup] on a buffer this backend pinned once and
    nobody waits for: it returns true exactly if the content lock was free and ours
    is the only pin, and then this backend holds the lock exclusively; otherwise it
    returns false and leaves shared memory and the tracked pins and locks as they
    were. *)
Theorem ConditionalLockBufferForCleanup_spec mu buf w d :
  pinned_free mu buf w d one_pin -> 0 <= InterruptHoldoffCount (me w) -> 0 < refcount (state d) ->
  flag (state d) BM_LOCKED = false -> flag (state d) BM_LOCK_HAS_WAITERS = false ->
  lock_waiters d = [] ->
  let ok := (lock_field (state d) =? 0) && (refcount (state d) =? 1) in
  exists m' w', ConditionalLockBufferForCleanup (buf + 1) w = (Ret ok, with_me m' w') /\
    w' = (if ok then set_desc buf (with_state (u64 (state d + BM_LOCK_VAL_EXCLUSIVE)) d) w else w) /\
    prc_inv m' (if ok then <[buf + 1 := mkRefData 1 BUFFER_LOCK_EXCLUSIVE]> mu else mu).
Proof.
  intros Hp Hho Hc Hl Hhw Hq ok. pose proof Hp as [Hqu Hg Hb Hd Hwf Hinv He].
  destruct (GetPrivateRefCount_spec w mu (buf + 1) Hinv ltac:(lia)) as (m1 & Hrun1 & Hinv1 & Hfr1).
  rewrite He in Hrun1.
  destruct (ConditionalLockBuffer_run mu buf (with_me m1 w) d one_pin) as (m2 & H2); try done.
  { by apply pinned_free_me. }
  { cbn. by rewrite (fr_holdoff _ _ Hfr1). }
  unfold ConditionalLockBufferForCleanup, BufferIsValid, BufferIsLocal, GetBufferDescriptor.
  pose proof (lock_field_range (state d)).
  assert ((lock_field (state d) <? 1) = (lock_field (state d) =? 0)) as Hfree.
  { destruct (Z.ltb_spec (lock_field (state d)) 1), (Z.eqb_spec (lock_field (state d)) 0); lia. }
  rewrite Hfree in H2. unfold ok.
  destruct (Z.eqb_spec (lock_field (state d)) 0) as [Hz|Hz]; cbn [andb]; destruct H2 as [Hrun2 Ht2].
  2: { exists m2, w. rewrite c_assert_ok by (by rewrite (proj2 (Z.eqb_neq _ _)) by (unfold InvalidBuffer; lia)).
    rewrite (proj2 (Z.ltb_ge (buf + 1) 0)) by lia. run Hrun1. rewrite c_assert_ok by done. cbn [data_refcount one_pin Z.eqb Pos.eqb negb].
    run Hrun2. split_and!; [done|done|apply Ht2]. }
  destruct (cleanup_check_run mu buf w d m2) as (m3 & Hrun3 & Hinv3); try done.
  { cbn in *. by rewrite (fr_gas _ _ (proj2 Ht2)); cbn; rewrite (fr_gas _ _ Hfr1). }
  { rewrite (fr_holdoff _ _ (proj2 Ht2)). cbn. rewrite (fr_holdoff _ _ Hfr1). lia. }
  { apply Ht2. }
  eexists m3, _. split_and!; [|reflexivity|].
  - rewrite c_assert_ok by (by rewrite (proj2 (Z.eqb_neq _ _)) by (unfold InvalidBuffer; lia)).
    rewrite (proj2 (Z.ltb_ge (buf + 1) 0)) by lia. run Hrun1. rewrite c_assert_ok by done.
    cbn [data_refcount one_pin Z.eqb Pos.eqb negb]. run Hrun2. cbn [negb]. replace (buf + 1 - 1) with buf by lia.
    exact Hrun3.
  - destruct (refcount (state d) =? 1); [done|]. by rewrite insert_id in Hinv3.
Qed.

(** ** Concrete inputs *)

(** Other processes pin buffer 2 while we pin it. *)
Lemma PinBuffer_atomic_witness :
  let pr := sample_proto (fun _ => True) false in
  let w := sample_world ClockSweepVtable [] [id; other_pin 2; other_pin 2] in
  wp (PinBuffer 2 None false) (pin_post pr 2 None false w) w.
Proof.
  cbv zeta. apply PinBuffer_atomic; [|cbn; lia|apply sample_can_track].
  apply sample_outside; [done|].
  repeat (apply Forall_cons; split); try (by apply other_pin_ok); [by intros s Hs|by apply Forall_nil].
Defined.

Lemma PinBuffer_roundtrip_witness :
  exists m' s', (PinBuffer 2 None false ;; UnpinBuffer 2) (sample_world ClockSweepVtable [] []) =
    (Ret tt, with_me m' (set_desc 2 (with_state s' (sample_desc 2 0)) (sample_world ClockSweepVtable [] []))) /\
    usage s' = 1.
Proof.
  destruct (PinBuffer_roundtrip (sample_world ClockSweepVtable [] []) 2 None (sample_desc 2 0) ∅)
    as (m' & s' & Hrun & _ & Hu & _).
  - reflexivity.
  - cbn. lia.
  - lia.
  - reflexivity.
  - reflexivity.
  - split; reflexivity || discriminate.
  - reflexivity.
  - reflexivity.
  - reflexivity.
  - apply (sample_reserved 3 ClockSweepVtable).
  - reflexivity.
  - apply (sample_reserved 3 ClockSweepVtable).
  - exists m', s'. split; [exact Hrun|]. rewrite Hu. reflexivity.
Defined.

Lemma sample_pinned_free : exists m mu, pinned_free mu 1 (sample_lock_world m 1 [] []) (sample_desc 1 1) one_pin /\
  InterruptHoldoffCount m = 0.
Proof.
  destruct sample_pinned as (m & mu & Hinv & Hmu & Hg & Hh & _). exists m, mu. split; [|done].
  split; [done|cbn; lia|lia|done|by split|done|done].
Qed.

Lemma ReadRecentBuffer_leaks_pin_witness :
  exists m m', ReadRecentBuffer (BufTagGetRelFileLocator (tag (sample_desc 1 1)))
      (forkNum (tag (sample_desc 1 1))) (blockNum (tag (sample_desc 1 1))) 2 (sample_lock_world m 1 [] []) =
    (Ret false, with_me m' (sample_lock_world m 1 [] [])) /\ owned_pins m' = 2 :: owned_pins m.
Proof.
  destruct sample_pinned_free as (m & mu & Hp & _). exists m.
  destruct (ReadRecentBuffer_leaks_pin mu (sample_lock_world m 1 [] []) 1 (sample_desc 1 1) one_pin
    (BufTagGetRelFileLocator (tag (sample_desc 1 1))) (forkNum (tag (sample_desc 1 1)))
    (blockNum (tag (sample_desc 1 1)))) as (m' & Hrun & _ & Ho).
  - exact Hp.
  - reflexivity.
  - cbn. lia.
  - reflexivity.
  - reflexivity.
  - exists m'. split; [exact Hrun|exact Ho].
Defined.

Lemma ConditionalLockBufferForCleanup_spec_witness :
  exists m w', ConditionalLockBufferForCleanup 2 (sample_lock_world m 1 [] []) = (Ret true, w').
Proof.
  destruct sample_pinned_free as (m & mu & Hp & Hh). exists m.
  destruct (ConditionalLockBufferForCleanup_spec mu 1 (sample_lock_world m 1 [] []) (sample_desc 1 1))
    as (m' & w' & Hrun & _).
  - exact Hp.
  - cbn. lia.
  - reflexivity.
  - reflexivity.
  - reflexivity.
  - reflexivity.
  - eexists. exact Hrun.
Defined.

(** Buffer 1 is ours: pinned and exclusively locked. *)
Definition own_proto : Proto :=
  mkProto 3 7 (fun b => if b =? 1 then Some (fun s => refcount s <> 0) else None) (fun _ => True) false.

Lemma MarkBufferDirty_atomic_witness :
  exists m mu, let w := sample_lock_world m (1 + BM_LOCK_VAL_EXCLUSIVE) [] [] in
    env_ok own_proto (with_sched [other_pin 2; other_pin 0] w) /\
    match MarkBufferDirty 2 (with_sched [other_pin 2; other_pin 0] w) with
    | (Ret _, w') => prc_inv (me w') mu
    | (Spin, _) => True
    | _ => False
    end.
Proof.
  destruct sample_pinned as (m0 & mu0 & Hinv0 & Hmu0 & Hg0 & Hh0 & Hp0 & Hn0).
  destruct (pinned_entry_spec (sample_lock_world m0 0 [] []) mu0 2 true one_pin) as (m1 & ref & _ & [Hinv1 Hfr1] & Href & _);
    [done|lia|done|].
  destruct (set_lockmode_spec (sample_lock_world m1 0 [] []) mu0 ref 2 one_pin BUFFER_LOCK_EXCLUSIVE)
    as (m2 & _ & Hinv2 & Hfr2); [done|lia|done|done|].
  set (mu := <[2 := mkRefData 1 BUFFER_LOCK_EXCLUSIVE]> mu0) in *.
  exists m2, mu. cbv zeta. set (w := with_sched _ _).
  assert (env_ok own_proto w) as Henv.
  { split.
    - split; [|done]. split; [done| |by left]. intros i d Hd.
      destruct (decide (i = 0 \/ i = 1 \/ i = 2)) as [Hi|Hi].
      + assert (own_ok own_proto 1 (1 + BM_LOCK_VAL_EXCLUSIVE)) as Hown.
        { split; [|left]; vm_compute; discriminate. }
        destruct Hi as [->|[->| ->]]; injection Hd as <-; (split; [done|]); (split; [|done]);
          vm_compute; split; congruence.
      + apply lookupZ_Some in Hd. cbn in Hd. lia.
    - repeat (apply Forall_cons; split); try (by apply other_pin_ok). by apply Forall_nil.
    - cbn. rewrite (fr_Proc _ _ Hfr2). cbn. by rewrite (fr_Proc _ _ Hfr1).
    - cbn. rewrite (fr_NBuffers _ _ Hfr2). cbn. by rewrite (fr_NBuffers _ _ Hfr1). }
  split; [exact Henv|].
  pose proof (MarkBufferDirty_atomic own_proto 1 w mu (mkRefData 1 BUFFER_LOCK_EXCLUSIVE)) as H.
  unfold wp in H. change (1 + 1) with 2 in H. destruct (MarkBufferDirty 2 w) as [o w'].
  assert (match o with Ret _ => exists w1 d, Rely own_proto (shm w) (shm w1) /\ desc_at w1 1 d /\
    flag (state d) BM_LOCKED = false /\
    shm w' = shm (set_desc 1 (with_state (dirty_word (state d)) d) w1) /\ prc_inv (me w') mu
    | Spin => True | _ => False end) as H'.
  { apply H; [exact Henv|cbn; lia| |exact Hinv2|apply lookup_insert_eq|reflexivity|reflexivity].
    exists (fun s => refcount s <> 0). split; [reflexivity|]. intros s Hs. exact Hs. }
  clear H. destruct o; [|done..]. destruct H' as (w1 & d & _ & _ & _ & _ & Hp). exact Hp.
Defined.
