(* ===== verification/Reserved.v ===== *)
(** * The reserved entry comes back

    A caller that reserves an entry for a pin, pins a buffer and gives the pin up
    again may pin another buffer without reserving again: [GetVictimBuffer] does so
    when it jumps back to [again].  The entry of the buffer stays in the array all
    the while, so that giving it up leaves its slot reserved. *)
From S2P Require Import Prelude BufState Shmem Concurrency PrivateRefCount Ring ContentLock LockWord LockRun Pin PinRun.

(** ** What a call leaves true of the backend, if it returns *)
Definition hoare {A} (P : Backend -> Prop) (c : M A) (Q : A -> Backend -> Prop) : Prop :=
  forall w a w', P (me w) -> c w = (Ret a, w') -> Q a (me w').
Definition stable {A} (P : Backend -> Prop) (c : M A) : Prop := hoare P c (fun _ => P).

Section rules.
Context (P : Backend -> Prop).

Lemma hoare_bind {A B} (c : M A) (k : A -> M B) R Q :
  hoare P c R -> (forall a, hoare (R a) (k a) Q) -> hoare P (bind c k) Q.
Proof.
  intros Hc Hk w b w' Hw. unfold bind. destruct (c w) as [[a| | |] w1] eqn:E; [|done..].
  by apply Hk, (Hc w).
Qed.
Lemma hoare_after {A B} (c : M A) (k : A -> M B) Q :
  stable P c -> (forall a, hoare P (k a) Q) -> hoare P (bind c k) Q.
Proof. intros Hc Hk. by apply (hoare_bind c k (fun _ => P)). Qed.
Lemma hoare_ret {A} (a : A) (Q : A -> Backend -> Prop) : (forall m, P m -> Q a m) -> hoare P (ret a) Q.
Proof. intros H w b w' Hw [= <- <-]. auto. Qed.
Lemma hoare_trap {A} s (Q : A -> Backend -> Prop) : hoare P (trap s) Q.
Proof. done. Qed.
Lemma hoare_conj {A} (c : M A) (Q R : A -> Backend -> Prop) :
  hoare P c Q -> hoare P c R -> hoare P c (fun a m => Q a m /\ R a m).
Proof. intros H1 H2 w a w' Hw E. split; [by eapply H1|by eapply H2]. Qed.
Lemma hoare_gets {A} (f : World -> A) : stable P (gets f).
Proof. intros w a w' Hw [= <- <-]. done. Qed.
Lemma hoare_get_me {A} (f : Backend -> A) : hoare P (get_me f) (fun a m => P m /\ a = f m).
Proof. intros w a w' Hw [= <- <-]. done. Qed.
Lemma hoare_modify_me (f : Backend -> Backend) (Q : unit -> Backend -> Prop) :
  (forall m, P m -> Q tt (f m)) -> hoare P (modify_me f) Q.
Proof. intros H w a w' Hw [= <- <-]. cbn. auto. Qed.

Lemma stable_bind {A B} (c : M A) (k : A -> M B) : stable P c -> (forall a, stable P (k a)) -> stable P (bind c k).
Proof. intros Hc Hk. by apply (hoare_bind c k (fun _ => P)). Qed.
Lemma stable_ret {A} (a : A) : stable P (ret a).
Proof. by apply hoare_ret. Qed.
Lemma stable_shm f : stable P (modify_shm f).
Proof. intros w a w' Hw [= <- <-]. done. Qed.
Lemma stable_interfere : stable P interfere.
Proof. intros w a w' Hw. unfold interfere. destruct (sched w); intros [= <- <-]; done. Qed.
Lemma stable_iter {S R} (body : S -> M (ctl S R)) :
  (forall s, stable P (body s)) -> forall g s, stable P (iter_fuel g body s).
Proof.
  intros Hb g. induction g as [|g IH]; intros s; [done|]. cbn. apply stable_bind; [apply Hb|].
  intros [s'|r]; [apply IH|apply stable_ret].
Qed.
Lemma stable_forever {S R} (body : S -> M (ctl S R)) s : (forall s, stable P (body s)) -> stable P (forever body s).
Proof. intros Hb w a w' Hw E. unfold forever in E. by eapply stable_iter. Qed.
End rules.

(** Takes a call apart that works on shared memory only. *)
Ltac call_head c := lazymatch c with ?f _ => call_head f | _ => c end.
Ltac stable_step :=
  lazymatch goal with
  | |- stable _ (bind _ _) => apply stable_bind; [|intros ?]
  | |- stable _ (ret _) => apply stable_ret
  | |- stable _ (gets _) => apply hoare_gets
  | |- stable _ (get_me _) => apply hoare_gets
  | |- stable _ (modify_shm _) => apply stable_shm
  | |- stable _ interfere => apply stable_interfere
  | |- stable _ (trap _) => done
  | |- stable _ (elog _) => done
  | |- stable _ (forever _ _) => apply stable_forever; intros ?
  | |- stable _ (let '_ := ?x in _) => destruct x
  | |- stable _ (if ?x then _ else _) => destruct x
  | |- stable _ (match ?x with _ => _ end) => destruct x
  | |- stable _ ?c => let h := call_head c in unfold h
  end.
Ltac stable_shared := repeat stable_step.

Lemma Attempt_stable P buf mode : stable P (BufferLockAttempt buf mode).
Proof. stable_shared. Qed.
Lemma wake_scan_stable P buf q : forall e s, stable P (wake_scan buf q e s).
Proof.
  induction q as [|x q IH]; intros e s; cbn [wake_scan]; [apply stable_ret|].
  repeat first [apply IH | stable_step].
Qed.
Lemma awaken_stable P q : stable P (awaken q).
Proof. induction q as [|x q IH]; cbn [awaken]; [apply stable_ret|]. repeat first [apply IH | stable_step]. Qed.
Lemma ProcessRelease_stable P buf mode s : stable P (BufferLockProcessRelease buf mode s).
Proof. repeat first [apply wake_scan_stable | apply awaken_stable | stable_step]. Qed.

(** ** The entry of a buffer in the array *)
Section home.
Context (b : Z).

(** The entry of [b], if it has one, is not in the hash table. *)
Definition home (m : Backend) : Prop := PrivateRefCountHash m !! b = None.
Definition in_array (ref : RefPtr) : Prop := match ref with InArray _ => True | InHash _ => False end.

Lemma home_me f : (forall m, PrivateRefCountHash (f m) = PrivateRefCountHash m) -> stable home (modify_me f).
Proof using Type. intros Hf. apply hoare_modify_me. intros m. unfold home. by rewrite Hf. Qed.

Lemma GetEntry_home do_move :
  hoare home (GetPrivateRefCountEntry b do_move) (fun res m => home m /\ forall ref, res = Some ref -> in_array ref).
Proof using Type.
  assert (hoare home (GetPrivateRefCountEntrySlow b do_move)
    (fun res m => home m /\ forall ref, res = Some ref -> in_array ref)) as Hslow.
  { unfold GetPrivateRefCountEntrySlow. apply hoare_after; [apply hoare_gets|]. intros keys. destruct (negb _).
    - apply hoare_after; [by apply home_me|]. intros []. apply hoare_ret. intros m Hm. split; [done|]. by intros ? [= <-].
    - apply hoare_after; [apply hoare_gets|]. intros ov. destruct (ov =? 0); [by apply hoare_ret|].
      eapply hoare_bind; [apply hoare_get_me|]. intros res w a w' [Hm ->]. unfold home in Hm. rewrite Hm. by intros [= <- <-]. }
  unfold GetPrivateRefCountEntry. apply hoare_after; [by stable_shared|]. intros _. apply hoare_after; [by stable_shared|]. intros _.
  apply hoare_after; [apply hoare_gets|]. intros last. destruct (negb _); [|done].
  apply hoare_after; [by stable_shared|]. intros e. destruct (_ =? _); [|done].
  apply hoare_ret. intros m Hm. split; [done|]. by intros ? [= <-].
Qed.

Lemma set_data_home ref d : in_array ref -> stable home (set_ref_data ref d).
Proof using Type.
  destruct ref as [i|x]; [intros _|done]. cbn [set_ref_data]. apply stable_bind; [by stable_shared|].
  intros e. by apply home_me.
Qed.
Lemma ref_data_stable P ref : stable P (ref_data ref).
Proof using Type. destruct ref; stable_shared. Qed.

(** A call that looks the entry up and goes on. *)
Lemma with_entry {A} do_move (k : option RefPtr -> M A) Q :
  hoare home (k None) Q -> (forall ref, in_array ref -> hoare home (k (Some ref)) Q) ->
  hoare home (bind (GetPrivateRefCountEntry b do_move) k) Q.
Proof using Type.
  intros Hn Hs. eapply hoare_bind; [apply GetEntry_home|]. intros [ref|] w a w' [Hm Href]; [|by apply Hn].
  apply Hs; auto.
Qed.

Lemma with_pinned_entry {A} do_move (k : RefPtr -> M A) Q :
  (forall ref, in_array ref -> hoare home (k ref) Q) -> hoare home (bind (pinned_entry b do_move) k) Q.
Proof using Type.
  intros Hs. apply (hoare_bind _ _ _ (fun ref m => home m /\ in_array ref)).
  - apply with_entry; [done|]. intros ref Href. by apply hoare_ret.
  - intros ref w a w' [Hm Href]. by apply Hs.
Qed.

Lemma GetPrivateRefCount_home : stable home (GetPrivateRefCount b).
Proof using Type.
  unfold GetPrivateRefCount. apply stable_bind; [by stable_shared|]. intros _. apply stable_bind; [by stable_shared|]. intros _.
  apply with_entry; [apply stable_ret|]. intros ref _. apply stable_bind; [apply ref_data_stable|]. intros d. apply stable_ret.
Qed.
Lemma set_lockmode_home ref mode : in_array ref -> stable home (set_lockmode ref mode).
Proof using Type.
  intros Href. apply stable_bind; [apply ref_data_stable|]. intros d. by apply set_data_home.
Qed.

Lemma interrupts_home : stable home HOLD_INTERRUPTS /\ stable home RESUME_INTERRUPTS.
Proof using Type.
  split; [by apply home_me|]. unfold RESUME_INTERRUPTS. repeat first [by apply home_me | stable_step].
Qed.

Lemma CheckOnce_home : 0 < b -> stable home (CheckBufferIsPinnedOnce b).
Proof using Type.
  intros Hb. unfold CheckBufferIsPinnedOnce, BufferIsLocal. rewrite (proj2 (Z.ltb_ge b 0)) by lia.
  repeat first [apply GetPrivateRefCount_home | stable_step].
Qed.

Lemma Conditional_home buf mode : stable home (BufferLockConditional b buf mode).
Proof using Type.
  apply with_pinned_entry. intros ref Href. apply stable_bind; [apply ref_data_stable|]. intros d.
  destruct (negb _); [apply stable_ret|]. apply stable_bind; [apply interrupts_home|]. intros _.
  apply stable_bind; [apply Attempt_stable|]. intros []; (apply stable_bind; [|intros; apply stable_ret]).
  - apply interrupts_home.
  - by apply set_lockmode_home.
Qed.

Lemma Unlock_home : 0 < b -> stable home (UnlockBuffer b).
Proof using Type.
  intros Hb. unfold UnlockBuffer, assert_pinned, BufferIsPinned, BufferIsLocal. rewrite (proj2 (Z.ltb_ge b 0)) by lia.
  apply stable_bind; [by repeat first [apply GetPrivateRefCount_home | stable_step]|]. intros _.
  unfold BufferLockUnlock. apply stable_bind.
  - apply with_entry; [done|]. intros ref Href. apply stable_bind; [apply ref_data_stable|]. intros d.
    apply stable_bind; [by apply set_lockmode_home|]. intros _. apply stable_ret.
  - intros mode. repeat first [apply ProcessRelease_stable | apply interrupts_home | stable_step].
Qed.

(** Looking up without moving changes no entry. *)
Lemma lookup_stable b' : stable home (GetPrivateRefCountEntry b' false).
Proof using Type.
  unfold GetPrivateRefCountEntry, GetPrivateRefCountEntrySlow. cbn [negb]. repeat first [by apply home_me | stable_step].
Qed.

(** Giving up the last pin. *)
Lemma Forget_reserved ref : in_array ref -> hoare home (ForgetPrivateRefCountEntry ref) (fun _ m => ReservedRefCountSlot m <> -1).
Proof using Type.
  destruct ref as [i|x]; [intros _|done]. unfold ForgetPrivateRefCountEntry, ref_data.
  apply (hoare_bind _ _ _ (fun _ _ => 0 <= i)).
  { apply (hoare_bind _ _ _ (fun _ _ => 0 <= i)); [|by intros a; apply hoare_ret].
    unfold array_entry, get_me, gets, bind, ret. intros w a w' _ E.
    destruct (lookupZ (PrivateRefCountArray (me w)) i) as [e|] eqn:El; [apply lookupZ_Some in El; lia|done]. }
  intros d. do 4 (apply hoare_after; [by repeat first [by apply hoare_modify_me | stable_step]|]; intros ?).
  apply hoare_modify_me. intros m ?. cbn. lia.
Qed.

Lemma unpin_reserved ref d buf :
  in_array ref -> data_refcount d = 1 ->
  hoare home (c_assert (0 <? data_refcount d) "private refcount is not positive" ;;
      set_ref_data ref (mkRefData (i32 (data_refcount d - 1)) (data_lockmode d)) ;;
      when (i32 (data_refcount d - 1) =? 0)
        (let* locked := BufferLockHeldByMe buf in
         c_assert (negb locked) "content lock is still held" ;;
         let* old_buf_state := pg_atomic_fetch_sub_u64 buf BUF_REFCOUNT_ONE in
         when (flag old_buf_state BM_PIN_COUNT_WAITER) (WakePinCountWaiter buf) ;;
         ForgetPrivateRefCountEntry ref)) (fun _ m => ReservedRefCountSlot m <> -1).
Proof using Type.
  intros Href ->. apply hoare_after; [by stable_shared|]. intros _. apply hoare_after; [by apply set_data_home|]. intros _.
  change (i32 (1 - 1) =? 0) with true. cbn [when]. apply hoare_after.
  { unfold BufferLockHeldByMe. repeat first [apply lookup_stable | apply ref_data_stable | stable_step]. }
  intros locked. apply hoare_after; [by stable_shared|]. intros _. apply hoare_after; [by stable_shared|]. intros s.
  apply hoare_after; [by stable_shared|]. intros _. by apply Forget_reserved.
Qed.
End home.

Lemma Unpin_reserved mu buf w d w' :
  last_pin mu buf w d -> home (buf + 1) (me w) -> UnpinBuffer buf w = (Ret tt, w') -> ReservedRefCountSlot (me w') <> -1.
Proof.
  intros [[Hq Hg Hb Hd Hwf Hinv He] Hid _ _ _] Hm. unfold UnpinBuffer. run (GetBuffer_run w buf d Hd). rewrite Hid.
  unfold bind at 1. destruct (ResourceOwnerForgetBuffer (buf + 1) w) as [[[]| | |] w1] eqn:Ef; try done.
  assert (exists rest, w1 = with_me (with_owned_pins rest (me w)) w) as [rest ->].
  { revert Ef. unfold ResourceOwnerForgetBuffer, bind, get_me, gets. destruct (remove_one _ _); [|done].
    intros [= <-]. by eexists. }
  set (w1 := with_me _ w). unfold UnpinBufferNoOwner. run (GetBuffer_run w1 buf d Hd). rewrite Hid.
  rewrite c_assert_ok by (unfold BufferIsLocal; rewrite (proj2 (Z.ltb_ge (buf + 1) 0)) by lia; done).
  destruct (GetEntry_spec w1 mu (buf + 1) false) as (m1 & res & Hrun1 & Hinv1 & Hfr1 & Hf); [by destruct Hinv|lia|].
  destruct res as [ref|]; cbn in Hf; [|congruence]. destruct Hf as [Href _].
  destruct (ref_data_spec (with_me m1 w1) mu ref (buf + 1) Hinv1 ltac:(lia) Href) as (e' & He' & Hdata).
  assert (e' = one_pin) as -> by congruence.
  destruct (GetEntry_home (buf + 1) false w1 (Some ref) _ Hm Hrun1) as [Hm1 Hin].
  run Hrun1. run Hdata. by apply (unpin_reserved (buf + 1) ref one_pin buf); [apply Hin| |].
Qed.
