(* ===== verification/BufIO.v ===== *)
(** * I/O state of a buffer ([src/backend/storage/buffer/bufmgr.c])

    [BM_IO_IN_PROGRESS] is a lock on reading or writing the page.  Waiters sleep
    on a condition variable; a sleep ends when somebody has changed the buffer,
    so it shows here as another round of the loop.  Waiting for an asynchronous
    operation is a parameter. *)
From S2P Require Import Prelude BufState BufTag Shmem Concurrency PrivateRefCount Pin.

Section io.
Context (pgaio_wref_wait : Z -> M unit).

Definition wait_io_round (buf : Z) (_ : unit) : M (ctl unit unit) :=
  let* buf_state := LockBufHdr buf in
  let* d := deref buf in
  UnlockBufHdr buf ;;
  if negb (flag buf_state BM_IO_IN_PROGRESS) then ret (Break tt)
  else
    match io_wref d with
    | Some iow => pgaio_wref_wait iow ;; ret (Continue tt)
    | None => ret (Continue tt)
    end.

Definition WaitIO (buf : Z) : M unit := forever (wait_io_round buf) tt.

(** The state of the locked header once no I/O is active; [None] if the caller
    does not want to wait. *)
Definition start_io_round (buf : Z) (nowait : bool) (_ : unit) : M (ctl unit (option Z)) :=
  let* buf_state := LockBufHdr buf in
  if negb (flag buf_state BM_IO_IN_PROGRESS) then ret (Break (Some buf_state))
  else
    UnlockBufHdr buf ;;
    if nowait then ret (Break None) else WaitIO buf ;; ret (Continue tt).

Definition StartBufferIO (buf : Z) (forInput nowait : bool) : M bool :=
  let* locked := forever (start_io_round buf nowait) tt in
  match locked with
  | None => ret false
  | Some buf_state =>
      if (if forInput then flag buf_state BM_VALID else negb (flag buf_state BM_DIRTY))
      then UnlockBufHdr buf ;; ret false
      else
        UnlockBufHdrExt buf buf_state BM_IO_IN_PROGRESS 0 0 ;;
        let* b := BufferDescriptorGetBuffer buf in
        ResourceOwnerRememberBufferIO b ;;
        ret true
  end.

Definition TerminateBufferIO (buf : Z) (clear_dirty : bool) (set_flag_bits : Z)
    (forget_owner release_aio : bool) : M unit :=
  let* buf_state := LockBufHdr buf in
  c_assert (flag buf_state BM_IO_IN_PROGRESS) "no I/O in progress" ;;
  let unset_flag_bits := Z.lor BM_IO_IN_PROGRESS BM_IO_ERROR in
  let unset_flag_bits :=
    if clear_dirty && negb (flag buf_state BM_JUST_DIRTIED)
    then Z.lor unset_flag_bits (Z.lor BM_DIRTY BM_CHECKPOINT_NEEDED) else unset_flag_bits in
  let* refcount_change :=
    if release_aio then
      c_assert (0 <? BUF_STATE_GET_REFCOUNT buf_state) "buffer has no pins" ;;
      let* d := deref buf in
      store_desc buf (with_io_wref None d) ;;
      ret (-1)
    else ret 0 in
  let* buf_state := UnlockBufHdrExt buf buf_state set_flag_bits unset_flag_bits refcount_change in
  (if forget_owner then
     let* b := BufferDescriptorGetBuffer buf in ResourceOwnerForgetBufferIO b
   else ret tt) ;;
  when (release_aio && flag buf_state BM_PIN_COUNT_WAITER) (WakePinCountWaiter buf).

Definition AbortBufferIO (buffer : Z) : M unit :=
  let buf_hdr := GetBufferDescriptor (buffer - 1) in
  let* buf_state := LockBufHdr buf_hdr in
  c_assert (flag buf_state (Z.lor BM_IO_IN_PROGRESS BM_TAG_VALID)) "buffer has no tag" ;;
  (if negb (flag buf_state BM_VALID) then
     c_assert (negb (flag buf_state BM_DIRTY)) "invalid buffer is dirty" ;;
     UnlockBufHdr buf_hdr
   else
     c_assert (flag buf_state BM_DIRTY) "write of a clean buffer" ;;
     UnlockBufHdr buf_hdr) ;;
  TerminateBufferIO buf_hdr false BM_IO_ERROR false false.
End io.
