(* ===== verification/IORun.v ===== *)
(** * What starting and finishing I/O do to the state word

    Without interference: every branch of [StartBufferIO], the effect of
    [TerminateBufferIO] on each flag, and what becomes of [BM_IO_ERROR]. *)
From S2P Require Import Prelude BufState BufTag Shmem Concurrency PrivateRefCount Ring Sample.
From S2P Require Import LocalBuf ContentLock LockWord LockProtocol LockRun Pin PinRun BufIO.

(** ** The word [UnlockBufHdrExt] leaves *)
Lemma unlock_ext_word s set unset :
  wf_state s -> wf_state set ->
  unlock_word (Z.lor s BM_LOCKED) set unset 0 = Z.ldiff (Z.ldiff (Z.lor (Z.lor s BM_LOCKED) set) unset) BM_LOCKED.
Proof.
  intros Hs Hset. unfold unlock_word. cbn [ztrue Z.eqb negb].
  assert (wf_state (Z.lor (Z.lor s BM_LOCKED) set)) by (by apply wf_lor; [apply wf_locked|]).
  rewrite !land_not64 by auto using wf_ldiff, wf_clear. done.
Qed.

Lemma wf_unlock_ext s set unset :
  wf_state s -> wf_state set -> wf_state (unlock_word (Z.lor s BM_LOCKED) set unset 0).
Proof.
  intros Hs Hset. rewrite unlock_ext_word by done. apply wf_ldiff, wf_ldiff, wf_lor; [by apply wf_locked|done].
Qed.

(** Bits outside of the two masks and the header lock stay. *)
Lemma unlock_ext_flag {G k} `{!IsBit G k} s set unset :
  wf_state s -> wf_state set -> flag BM_LOCKED G = false ->
  flag (unlock_word (Z.lor s BM_LOCKED) set unset 0) G = (flag s G || flag set G) && negb (flag unset G).
Proof.
  intros Hs Hset Hg. rewrite unlock_ext_word by done.
  rewrite !flag_diff, !flag_or, Hg. by rewrite orb_false_r, andb_true_r.
Qed.

Lemma unlock_ext_field lo len s set unset :
  0 <= lo -> 0 <= len -> wf_state s -> wf_state set -> field lo len set = 0 -> field lo len unset = 0 ->
  field lo len BM_LOCKED = 0 ->
  field lo len (unlock_word (Z.lor s BM_LOCKED) set unset 0) = field lo len s.
Proof.
  intros Hlo Hlen Hs Hset H1 H2 H3. rewrite unlock_ext_word by done.
  by rewrite !field_ldiff, !field_lor.
Qed.
Lemma unlock_pin s : wf_state s -> flag s BM_LOCKED = false -> unlock_word (Z.lor s BM_LOCKED) 0 0 1 = pinned_word s.
Proof.
  intros Hs Hl. unfold unlock_word. cbn [ztrue Z.eqb negb]. rewrite Z.lor_0_r.
  rewrite !land_not64 by auto using wf_ldiff, wf_clear, wf_locked. by rewrite Z.ldiff_0_r, unlock_lock, Z.mul_1_r.
Qed.

(** ** Starting *)
Section run.
Context (pgaio_wref_wait : Z -> M unit).

(** A buffer whose header nobody has locked. *)
Record unlocked (w : World) (buf : Z) (d : BufferDesc) : Prop := {
  ul_quiet : quiet w;
  ul_gas : (0 < gas (me w))%nat;
  ul_desc : desc_at w buf d;
  ul_wf : wf_state (state d);
  ul_free : flag (state d) BM_LOCKED = false
}.

Definition io_needed (forInput : bool) (s : Z) : bool :=
  if forInput then negb (flag s BM_VALID) else flag s BM_DIRTY.

Lemma locked_flag {G k} `{!IsBit G k} s : flag BM_LOCKED G = false -> flag (Z.lor s BM_LOCKED) G = flag s G.
Proof using Type. intros H. by rewrite flag_or, H, orb_false_r. Qed.

Lemma StartBufferIO_run w buf d forInput nowait :
  unlocked w buf d -> flag (state d) BM_IO_IN_PROGRESS = false \/ nowait = true ->
  let ok := negb (flag (state d) BM_IO_IN_PROGRESS) && io_needed forInput (state d) in
  exists w', StartBufferIO pgaio_wref_wait buf forInput nowait w = (Ret ok, w') /\
    if ok then exists s', w' = with_me (with_owned_ios (buf_id d + 1 :: owned_ios (me w)) (me w))
          (set_desc buf (with_state s' d) w) /\
        s' = Z.lor (state d) BM_IO_IN_PROGRESS
      else w' = w.
Proof using Type.
  intros [Hq Hg Hd Hwf Hl] Hcase ok.
  pose proof (LockBufHdr_quiet w Hq Hg buf d Hd Hl) as Hlock.
  pose proof (unlock_back w buf d Hq Hd Hwf Hl) as Hback.
  set (d1 := with_state (Z.lor (state d) BM_LOCKED) d) in *. set (w1 := set_desc buf d1 w) in *.
  assert (desc_at w1 buf d1) as Hd1 by (by apply (desc_at_set_eq w _ d)).
  unfold StartBufferIO. destruct (flag (state d) BM_IO_IN_PROGRESS) eqn:Hio.
  { destruct Hcase as [| ->]; [done|]. exists w. split; [|done].
    assert (forever (start_io_round pgaio_wref_wait buf true) tt w = (Ret None, w)) as Hloop; [|by run Hloop].
    unfold forever. destruct (gas (me w)); [lia|]. apply iter_break. unfold start_io_round. run Hlock.
    rewrite locked_flag, Hio by done. cbn [negb]. by run Hback. }
  assert (forever (start_io_round pgaio_wref_wait buf nowait) tt w = (Ret (Some (state d1)), w1)) as Hloop.
  { unfold forever. destruct (gas (me w)); [lia|]. apply iter_break. unfold start_io_round. run Hlock.
    by rewrite locked_flag, Hio by done. }
  assert ((if forInput then flag (state d1) BM_VALID else negb (flag (state d1) BM_DIRTY)) = negb ok) as Hdone.
  { unfold ok, io_needed. cbn [negb andb state d1 with_state]. rewrite !locked_flag by done.
    destruct forInput; by rewrite ?negb_involutive. }
  run Hloop. rewrite Hdone. destruct ok; cbn [negb].
  2: { exists w. by run Hback. }
  assert (unlock_word (state d1) BM_IO_IN_PROGRESS 0 0 = Z.lor (state d) BM_IO_IN_PROGRESS) as Hword.
  { cbn [state d1 with_state]. rewrite unlock_ext_word, Z.ldiff_0_r by done.
    rewrite <- (unlock_lock (Z.lor (state d) BM_IO_IN_PROGRESS)) by (by flags).
    by rewrite <- !Z.lor_assoc, (Z.lor_comm BM_LOCKED). }
  run (UnlockBufHdrExt_quiet w1 Hq Hg buf d1 BM_IO_IN_PROGRESS 0 0 Hd1 (flag_locked _)). rewrite Hword.
  set (d2 := with_state (Z.lor (state d) BM_IO_IN_PROGRESS) d1).
  run (GetBuffer_run (set_desc buf d2 w1) buf d2 (desc_at_set_eq w1 buf d1 _ Hd1)).
  eexists. split; [reflexivity|]. eexists. split; [|reflexivity].
  unfold w1. by rewrite set_desc_set_desc.
Qed.

(** [StartBufferIO] without interference, on every branch that returns: it
    reports true exactly if no I/O is in progress and the work is still to be done
    (an invalid page for a read, a dirty one for a write), and then sets only
    [BM_IO_IN_PROGRESS] and lets the resource owner remember the I/O; otherwise
    nothing changes. *)
Theorem StartBufferIO_spec w buf d forInput nowait :
  unlocked w buf d -> flag (state d) BM_IO_IN_PROGRESS = false \/ nowait = true ->
  let ok := negb (flag (state d) BM_IO_IN_PROGRESS) && io_needed forInput (state d) in
  exists w', StartBufferIO pgaio_wref_wait buf forInput nowait w = (Ret ok, w') /\
    if ok then exists s', w' = with_me (with_owned_ios (buf_id d + 1 :: owned_ios (me w)) (me w))
          (set_desc buf (with_state s' d) w) /\
        s' = Z.lor (state d) BM_IO_IN_PROGRESS
      else w' = w.
Proof using Type. apply StartBufferIO_run. Qed.
End run.

(** ** Finishing *)
Definition io_unset (clear_dirty : bool) (s : Z) : Z :=
  if clear_dirty && negb (flag s BM_JUST_DIRTIED)
  then Z.lor (Z.lor BM_IO_IN_PROGRESS BM_IO_ERROR) (Z.lor BM_DIRTY BM_CHECKPOINT_NEEDED)
  else Z.lor BM_IO_IN_PROGRESS BM_IO_ERROR.

Definition io_done_word (clear_dirty : bool) (set_flag_bits s : Z) : Z :=
  unlock_word (Z.lor s BM_LOCKED) set_flag_bits (io_unset clear_dirty s) 0.

Lemma TerminateBufferIO_run w buf d clear_dirty set_flag_bits forget_owner rest :
  unlocked w buf d -> flag (state d) BM_IO_IN_PROGRESS = true ->
  (if forget_owner : bool then remove_one (buf_id d + 1) (owned_ios (me w)) = Some rest
   else rest = owned_ios (me w)) ->
  TerminateBufferIO buf clear_dirty set_flag_bits forget_owner false w =
    (Ret tt, with_me (with_owned_ios rest (me w))
      (set_desc buf (with_state (io_done_word clear_dirty set_flag_bits (state d)) d) w)).
Proof.
  intros [Hq Hg Hd Hwf Hl] Hio Hrest. unfold TerminateBufferIO.
  run (LockBufHdr_quiet w Hq Hg buf d Hd Hl).
  set (d1 := with_state (Z.lor (state d) BM_LOCKED) d). set (w1 := set_desc buf d1 w).
  assert (desc_at w1 buf d1) as Hd1 by (by apply (desc_at_set_eq w _ d)).
  rewrite c_assert_ok by (by rewrite locked_flag). rewrite locked_flag by done. cbv zeta.
  change (if clear_dirty && negb (flag (state d) BM_JUST_DIRTIED) then _ else _)
    with (io_unset clear_dirty (state d)).
  rewrite bind_ret_l.
  run (UnlockBufHdrExt_quiet w1 Hq Hg buf d1 set_flag_bits (io_unset clear_dirty (state d)) 0 Hd1 (flag_locked _)).
  change (unlock_word (state d1) set_flag_bits (io_unset clear_dirty (state d)) 0)
    with (io_done_word clear_dirty set_flag_bits (state d)).
  set (d2 := with_state (io_done_word clear_dirty set_flag_bits (state d)) d1).
  assert (set_desc buf d2 w1 = set_desc buf (with_state (io_done_word clear_dirty set_flag_bits (state d)) d) w) as ->
    by (unfold w1; by rewrite set_desc_set_desc).
  cbn [andb]. destruct forget_owner.
  - pose proof (GetBuffer_run (set_desc buf d2 w) buf d2 (desc_at_set_eq w buf d _ Hd)) as Hget.
    unfold bind at 1. run Hget. unfold ResourceOwnerForgetBufferIO, get_me, gets, bind. cbn. by rewrite Hrest.
  - rewrite Hrest, bind_ret_l. cbn. f_equal. by destruct w as [? [] ?].
Qed.

(** Only flag bits. *)
Definition flag_bits_only (F : Z) : Prop :=
  wf_state F /\ field 0 18 F = 0 /\ field 18 4 F = 0 /\ field 34 20 F = 0 /\ flag F BM_LOCKED = false.

Lemma io_unset_fields clear_dirty s :
  field 0 18 (io_unset clear_dirty s) = 0 /\ field 18 4 (io_unset clear_dirty s) = 0 /\
  field 34 20 (io_unset clear_dirty s) = 0.
Proof. unfold io_unset. by destruct (_ && _). Qed.

(** The effect of a finished I/O on the state word, flag by flag: the I/O is
    no longer in progress; the page is valid if it was or the caller says so; it
    stays dirty and needed for the checkpoint if it was modified again while it
    was written, or if this was not a write; pins, usage count and content lock
    are untouched, and the resource owner forgets the I/O. *)
Theorem TerminateBufferIO_spec w buf d clear_dirty set_flag_bits rest :
  unlocked w buf d -> flag (state d) BM_IO_IN_PROGRESS = true -> flag_bits_only set_flag_bits ->
  flag set_flag_bits BM_IO_IN_PROGRESS = false ->
  remove_one (buf_id d + 1) (owned_ios (me w)) = Some rest ->
  exists s', TerminateBufferIO buf clear_dirty set_flag_bits true false w =
      (Ret tt, with_me (with_owned_ios rest (me w)) (set_desc buf (with_state s' d) w)) /\
    let keep := negb (clear_dirty && negb (flag (state d) BM_JUST_DIRTIED)) in
    flag s' BM_LOCKED = false /\ flag s' BM_IO_IN_PROGRESS = false /\
    flag s' BM_VALID = flag (state d) BM_VALID || flag set_flag_bits BM_VALID /\
    flag s' BM_DIRTY = (flag (state d) BM_DIRTY || flag set_flag_bits BM_DIRTY) && keep /\
    flag s' BM_CHECKPOINT_NEEDED =
      (flag (state d) BM_CHECKPOINT_NEEDED || flag set_flag_bits BM_CHECKPOINT_NEEDED) && keep /\
    refcount s' = refcount (state d) /\ usage s' = usage (state d) /\
    lock_field s' = lock_field (state d).
Proof.
  intros Hu Hio (Hwf & H1 & H2 & H3 & H4) Hset Hrest. pose proof Hu as [_ _ _ Hwfd Hl].
  exists (io_done_word clear_dirty set_flag_bits (state d)).
  split; [by apply TerminateBufferIO_run|]. cbv zeta. unfold io_done_word.
  destruct (io_unset_fields clear_dirty (state d)) as (U1 & U2 & U3).
  rewrite !refcount_field, !usage_field. unfold lock_field.
  split; [rewrite unlock_ext_word by done; flags; done|].
  rewrite !unlock_ext_field, !unlock_ext_flag by (done || lia).
  unfold io_unset. destruct (clear_dirty && negb (flag (state d) BM_JUST_DIRTIED)); flags; cbn [negb orb];
    rewrite ?andb_true_r, ?andb_false_r; by split_and!.
Qed.

Lemma flag_mask_or s A B : flag s (Z.lor A B) = flag s A || flag s B.
Proof.
  unfold flag, ztrue. rewrite Z.land_lor_distr_r.
  destruct (Z.eqb_spec (Z.lor (Z.land s A) (Z.land s B)) 0) as [E|E].
  - apply Z.lor_eq_0_iff in E as [-> ->]. done.
  - destruct (Z.eqb_spec (Z.land s A) 0) as [E1|], (Z.eqb_spec (Z.land s B) 0) as [E2|]; try done.
    rewrite E1, E2 in E. done.
Qed.

(** C26. What becomes of a failed read or write, without interference:
    [AbortBufferIO] ends the I/O and leaves the page as valid and as dirty as it
    was, dirty after a failed write of a valid page and not valid after a failed
    read, but in both cases [BM_IO_ERROR] is not set afterwards, although it is
    passed as a flag to set: [TerminateBufferIO] also passes it as a flag to clear,
    and [UnlockBufHdrExt] clears after it sets. *)
Theorem AbortBufferIO_drops_error w buf d :
  unlocked w buf d -> 0 <= buf -> flag (state d) BM_IO_IN_PROGRESS = true ->
  flag (state d) BM_DIRTY = flag (state d) BM_VALID ->
  exists s', AbortBufferIO (buf + 1) w = (Ret tt, set_desc buf (with_state s' d) w) /\
    flag s' BM_IO_ERROR = false /\ flag s' BM_IO_IN_PROGRESS = false /\
    flag s' BM_VALID = flag (state d) BM_VALID /\ flag s' BM_DIRTY = flag (state d) BM_VALID.
Proof.
  intros Hu Hb Hio Hdirty. pose proof Hu as [Hq Hg Hd Hwf Hl].
  exists (io_done_word false BM_IO_ERROR (state d)). split.
  - unfold AbortBufferIO, GetBufferDescriptor. replace (buf + 1 - 1) with buf by lia.
    run (LockBufHdr_quiet w Hq Hg buf d Hd Hl).
    pose proof (unlock_back w buf d Hq Hd Hwf Hl) as Hback.
    rewrite c_assert_ok by (by rewrite flag_mask_or, locked_flag, Hio).
    rewrite (locked_flag (G := BM_VALID)) by done.
    assert ((if negb (flag (state d) BM_VALID) then
        c_assert (negb (flag (Z.lor (state d) BM_LOCKED) BM_DIRTY)) "invalid buffer is dirty" ;; UnlockBufHdr buf
      else c_assert (flag (Z.lor (state d) BM_LOCKED) BM_DIRTY) "write of a clean buffer" ;; UnlockBufHdr buf)
      (set_desc buf (with_state (Z.lor (state d) BM_LOCKED) d) w) = (Ret tt, w)) as Hfree.
    { rewrite (locked_flag (G := BM_DIRTY)), Hdirty by done. by destruct (flag (state d) BM_VALID); cbn [negb]; rewrite c_assert_ok. }
    run Hfree.
    rewrite (TerminateBufferIO_run w buf d false BM_IO_ERROR false (owned_ios (me w)) Hu Hio eq_refl).
    by destruct w as [? [] ?].
  - unfold io_done_word, io_unset. cbn [andb]. rewrite !unlock_ext_flag by (done || by vm_compute).
    rewrite Hdirty. flags. by destruct (flag (state d) BM_VALID).
Qed.

(** ** Concrete inputs: buffer 1 of three with the state word [st] *)
Definition io_world (st : Z) (ios : list Z) : World :=
  sample_lock_world (with_owned_ios ios (sample_me 3 ClockSweepVtable)) st [] [].

Lemma io_unlocked st ios :
  wf_state st -> flag st BM_LOCKED = false -> unlocked (io_world st ios) 1 (sample_desc 1 st).
Proof. intros Hwf Hl. split; [done|cbn; lia|done|done|done]. Qed.

Lemma StartBufferIO_spec_witness :
  exists w', StartBufferIO (fun _ => ret tt) 1 true false (io_world 1 []) = (Ret true, w').
Proof.
  destruct (StartBufferIO_spec (fun _ => ret tt) (io_world 1 []) 1 (sample_desc 1 1) true false) as (w' & Hrun & _).
  - apply io_unlocked; [split; reflexivity || discriminate|reflexivity].
  - left. reflexivity.
  - exists w'. exact Hrun.
Defined.

(** A write that finishes after the page was dirtied again. *)
Definition written_word : Z :=
  Z.lor (Z.lor (Z.lor BM_VALID BM_DIRTY) (Z.lor BM_JUST_DIRTIED BM_IO_IN_PROGRESS)) 1.

Lemma TerminateBufferIO_spec_witness :
  exists s', TerminateBufferIO 1 true 0 true false (io_world written_word [2]) =
    (Ret tt, with_me (with_owned_ios [] (me (io_world written_word [2])))
      (set_desc 1 (with_state s' (sample_desc 1 written_word)) (io_world written_word [2]))) /\
    flag s' BM_DIRTY = true.
Proof.
  destruct (TerminateBufferIO_spec (io_world written_word [2]) 1 (sample_desc 1 written_word) true 0 [])
    as (s' & Hrun & _ & _ & _ & Hd & _).
  - apply io_unlocked; vm_compute; [split; congruence|reflexivity].
  - vm_compute. reflexivity.
  - repeat split; vm_compute; congruence.
  - reflexivity.
  - reflexivity.
  - exists s'. split; [exact Hrun|]. rewrite Hd. vm_compute. reflexivity.
Defined.

Definition unread_word : Z := Z.lor (Z.lor BM_TAG_VALID BM_IO_IN_PROGRESS) 1.

(** A write fails, and a read. *)
Lemma AbortBufferIO_drops_error_witness :
  Forall (fun st => exists s', AbortBufferIO 2 (io_world st []) =
    (Ret tt, set_desc 1 (with_state s' (sample_desc 1 st)) (io_world st [])) /\ flag s' BM_IO_ERROR = false) [written_word; unread_word].
Proof.
  repeat (apply Forall_cons; split); [| |by apply Forall_nil].
  - destruct (AbortBufferIO_drops_error (io_world written_word []) 1 (sample_desc 1 written_word))
      as (s' & Hrun & He & _); [apply io_unlocked; vm_compute; [split; congruence|reflexivity]|lia|reflexivity|reflexivity|].
    exists s'. split; [exact Hrun|exact He].
  - destruct (AbortBufferIO_drops_error (io_world unread_word []) 1 (sample_desc 1 unread_word))
      as (s' & Hrun & He & _); [apply io_unlocked; vm_compute; [split; congruence|reflexivity]|lia|reflexivity|reflexivity|].
    exists s'. split; [exact Hrun|exact He].
Defined.
