(* ===== verification/LocalInv.v ===== *)
(** * The invariant of the local buffer manager

    What [localbuf.c] keeps true of its arrays between two calls: the lookup
    table lists the buffers with a valid tag, the pin count of a state word is
    one exactly while [LocalRefCount] is not zero, every buffer has storage of
    its own, and a clean page agrees with the file.  On top of it the contents
    of a temporary table as a caller sees them, whether a page is cached or
    not. *)
From S2P Require Import Prelude BufState BufTag Shmem Concurrency PrivateRefCount LocalBuf.

(** ** Lists of counters *)
Definition nonzero (l : list Z) : Z := Z.of_nat (length (filter (fun c => c <> 0) l)).
Definition one_if (c : Z) : Z := if c =? 0 then 0 else 1.

Lemma nonzero_nonneg l : 0 <= nonzero l.
Proof. unfold nonzero. lia. Qed.
Lemma nonzero_cons c l : nonzero (c :: l) = one_if c + nonzero l.
Proof.
  unfold nonzero, one_if. rewrite filter_cons. destruct (Z.eqb_spec c 0); case_decide; try done.
  cbn [length]. lia.
Qed.
Lemma nonzero_app l k : nonzero (l ++ k) = nonzero l + nonzero k.
Proof. unfold nonzero. rewrite filter_app, length_app. lia. Qed.

Lemma nonzero_insert i c c' l :
  lookupZ l i = Some c -> nonzero (insertZ i c' l) = nonzero l - one_if c + one_if c'.
Proof.
  intros Hc. pose proof (lookupZ_Some _ _ _ Hc) as Hi. unfold lookupZ, insertZ in *.
  replace (0 <=? i) with true in * by lia. rewrite insert_take_drop by lia.
  rewrite <- (take_drop_middle l (Z.to_nat i) c Hc) at 3.
  rewrite !nonzero_app, !nonzero_cons. lia.
Qed.

Lemma nonzero_pos i c l : lookupZ l i = Some c -> c <> 0 -> 0 < nonzero l.
Proof.
  intros Hc Hne. pose proof (nonzero_insert i c 0 l Hc) as E. unfold one_if in E. cbn in E.
  pose proof (nonzero_nonneg (insertZ i 0 l)). destruct (Z.eqb_spec c 0); [done|lia].
Qed.

Lemma nonzero_all l : nonzero l = Z.of_nat (length l) <-> forall c, c ∈ l -> c <> 0.
Proof.
  induction l as [|c l IH]; [by split; [set_solver|]|]. rewrite nonzero_cons. cbn [length].
  assert (nonzero l <= Z.of_nat (length l)) as Hle
    by (unfold nonzero; pose proof (length_filter (fun c => c <> 0) l); lia).
  unfold one_if. destruct (Z.eqb_spec c 0) as [->|Hc]; split; intros H.
  - lia.
  - exfalso. by apply (H 0); [left|].
  - assert (forall x, x ∈ l -> x <> 0) by (apply IH; lia). set_solver.
  - assert (nonzero l = Z.of_nat (length l)); [apply IH; set_solver|lia].
Qed.

(** ** Storage *)
Definition has_storage (p : option (Z * Z)) : Z := match p with Some _ => 1 | None => 0 end.

(** A place inside the part of a chunk that was handed out. *)
Definition handed_out (l : LocalBuffers) (q : Z * Z) : Prop :=
  exists size, lookupZ (local_chunks l) q.1 = Some size /\ 0 <= q.2 < size /\
    (q.1 = Z.of_nat (length (local_chunks l)) - 1 -> q.2 < next_buf_in_block l).

Record storage_ok (l : LocalBuffers) : Prop := {
  st_inj : forall i j q, lookupZ (LocalBufferBlockPointers l) i = Some (Some q) ->
    lookupZ (LocalBufferBlockPointers l) j = Some (Some q) -> i = j;
  st_out : forall i q, lookupZ (LocalBufferBlockPointers l) i = Some (Some q) -> handed_out l q;
  st_total : total_bufs_allocated l = nonzero (has_storage <$> LocalBufferBlockPointers l);
  st_next : 0 <= next_buf_in_block l;
  st_chunk : next_buf_in_block l < num_bufs_in_block l ->
    lookupZ (local_chunks l) (Z.of_nat (length (local_chunks l)) - 1) = Some (num_bufs_in_block l)
}.

(** ** Slots *)
Definition file_page (l : LocalBuffers) (t : BufferTag) : option Z :=
  lookupZ (default [] (temp_files l !! (BufTagGetRelFileLocator t, forkNum t))) (blockNum t).
Definition slot_page (l : LocalBuffers) (p : option (Z * Z)) : option Z :=
  match p with Some q => local_pages l !! q | None => None end.

(** The three arrays at one index. *)
Definition slot (l : LocalBuffers) (i : Z) (d : BufferDesc) (c : Z) (p : option (Z * Z)) : Prop :=
  lookupZ (LocalBufferDescriptors l) i = Some d /\ lookupZ (LocalRefCount l) i = Some c /\
  lookupZ (LocalBufferBlockPointers l) i = Some p.

(** The table entry that belongs to slot [i]. *)
Definition tagged (l : LocalBuffers) (t : BufferTag) (i : Z) : Prop :=
  exists d, lookupZ (LocalBufferDescriptors l) i = Some d /\
    flag (state d) BM_TAG_VALID = true /\ tag d = t.

Section inv.
(** Page images that differ in their checksum only. *)
Context (same_page : Z -> Z -> Prop) `{!Equivalence same_page}.

Record slot_ok (l : LocalBuffers) (i : Z) (d : BufferDesc) (c : Z) (p : option (Z * Z)) : Prop := {
  so_id : buf_id d = - i - 2;
  so_wf : wf_state (state d);
  so_io : io_wref d = None;
  so_count : 0 <= c;
  so_pin : refcount (state d) = one_if c;
  so_usage : usage (state d) <= BM_MAX_USAGE_COUNT;
  so_tag : flag (state d) BM_TAG_VALID = true -> is_Some p;
  so_dirty : flag (state d) BM_DIRTY = true -> flag (state d) BM_VALID = true;
  so_valid : flag (state d) BM_VALID = true ->
    flag (state d) BM_TAG_VALID = true /\
    exists v f, slot_page l p = Some v /\ file_page l (tag d) = Some f /\
      (flag (state d) BM_DIRTY = false -> same_page v f)
}.

Record local_ok (l : LocalBuffers) : Prop := {
  lo_descs : Z.of_nat (length (LocalBufferDescriptors l)) = NLocBuffer l;
  lo_counts : Z.of_nat (length (LocalRefCount l)) = NLocBuffer l;
  lo_ptrs : Z.of_nat (length (LocalBufferBlockPointers l)) = NLocBuffer l;
  lo_next : 0 <= nextFreeLocalBufId l < NLocBuffer l;
  lo_slots : forall i d c p, slot l i d c p -> slot_ok l i d c p;
  lo_hash : exists h, LocalBufHash l = Some h /\ forall t i, h !! t = Some i <-> tagged l t i;
  lo_pins : NLocalPinnedBuffers l = nonzero (LocalRefCount l);
  lo_store : storage_ok l
}.

(** ** What a caller sees

    The cached page if there is a valid one, and the page of the file
    otherwise. *)
Definition view (l : LocalBuffers) (t : BufferTag) : option Z :=
  match default ∅ (LocalBufHash l) !! t with
  | Some i =>
      match lookupZ (LocalBufferDescriptors l) i, lookupZ (LocalBufferBlockPointers l) i with
      | Some d, Some p => if flag (state d) BM_VALID then slot_page l p else file_page l t
      | _, _ => file_page l t
      end
  | None => file_page l t
  end.

Definition same_view (l l' : LocalBuffers) : Prop :=
  forall t, option_Forall2 same_page (view l t) (view l' t).

#[export] Instance same_view_equiv : Equivalence same_view.
Proof using All.
  split.
  - intros l t. reflexivity.
  - intros l l' H t. symmetry. apply H.
  - intros l1 l2 l3 H1 H2 t. etransitivity; [apply H1|apply H2].
Qed.

Lemma slot_at l i : local_ok l -> 0 <= i < NLocBuffer l -> exists d c p, slot l i d c p.
Proof using Type.
  intros [Hd Hc Hp] Hi. destruct (lookupZ_lt (LocalBufferDescriptors l) i) as [d Ed]; [lia|].
  destruct (lookupZ_lt (LocalRefCount l) i) as [c Ec]; [lia|].
  destruct (lookupZ_lt (LocalBufferBlockPointers l) i) as [p Ep]; [lia|]. by exists d, c, p.
Qed.

Lemma slot_range l i d c p : local_ok l -> slot l i d c p -> 0 <= i < NLocBuffer l.
Proof using Type. intros Hok (Hd & _). apply lookupZ_Some in Hd. by rewrite <- (lo_descs _ Hok). Qed.

(** No two buffers hold the same block. *)
Lemma tagged_unique l t i j : local_ok l -> tagged l t i -> tagged l t j -> i = j.
Proof using Type.
  intros Hok Hi Hj. destruct (lo_hash _ Hok) as (h & _ & Hh).
  apply Hh in Hi. apply Hh in Hj. congruence.
Qed.

Lemma view_tagged l i d c p :
  local_ok l -> slot l i d c p -> flag (state d) BM_TAG_VALID = true ->
  view l (tag d) = if flag (state d) BM_VALID then slot_page l p else file_page l (tag d).
Proof using Type.
  intros Hok (Hd & Hc & Hp) Ht. destruct (lo_hash _ Hok) as (h & Eh & Hh). unfold view. rewrite Eh. cbn.
  rewrite (proj2 (Hh (tag d) i)) by (by exists d). by rewrite Hd, Hp.
Qed.

Lemma view_untagged l t : local_ok l -> (forall i, ~ tagged l t i) -> view l t = file_page l t.
Proof using Type.
  intros Hok Hno. destruct (lo_hash _ Hok) as (h & Eh & Hh). unfold view. rewrite Eh. cbn.
  destruct (h !! t) as [i|] eqn:E; [|done]. exfalso. by eapply Hno, Hh.
Qed.

Lemma view_case l t :
  local_ok l ->
  (exists i d c p, slot l i d c p /\ flag (state d) BM_TAG_VALID = true /\ tag d = t) \/
  (forall i, ~ tagged l t i).
Proof using Type.
  intros Hok. destruct (lo_hash _ Hok) as (h & Eh & Hh). destruct (h !! t) as [i|] eqn:E.
  - left. apply Hh in E as (d & Hd & Ht & Htag).
    destruct (slot_at l i Hok) as (d' & c & p & Hs).
    { apply lookupZ_Some in Hd. by rewrite <- (lo_descs _ Hok). }
    exists i, d', c, p. assert (d' = d) as -> by (destruct Hs; congruence). done.
  - right. intros i Hi%Hh. congruence.
Qed.

(** ** Changing one slot *)
Definition put (i : Z) (d : BufferDesc) (c : Z) (h : gmap BufferTag Z) (l : LocalBuffers)
    : LocalBuffers :=
  with_LocalBufferDescriptors (insertZ i d (LocalBufferDescriptors l))
    (with_LocalRefCount (insertZ i c (LocalRefCount l))
      (with_NLocalPinnedBuffers
        (NLocalPinnedBuffers l - one_if (default 0 (lookupZ (LocalRefCount l) i)) + one_if c)
        (with_LocalBufHash (Some h) l))).

Lemma slot_put l i d c p d' c' h j e b q :
  slot l i d c p -> slot (put i d' c' h l) j e b q ->
  (j = i /\ e = d' /\ b = c' /\ q = p) \/ (j <> i /\ slot l j e b q).
Proof using Type.
  intros (_ & _ & Hp) (He & Hb & Hq). cbn in He, Hb, Hq.
  apply lookupZ_insertZ_Some in He as [[<- <-]|[Hne He]].
  - left. apply lookupZ_insertZ_Some in Hb as [[_ <-]|[? _]]; [|done].
    split_and!; [done..|congruence].
  - right. split; [done|]. rewrite lookupZ_insertZ_ne in Hb by done. done.
Qed.

Lemma slot_put_eq l i d c p d' c' h :
  slot l i d c p -> slot (put i d' c' h l) i d' c' p.
Proof using Type.
  intros (Hd & Hc & Hp). apply lookupZ_Some in Hd, Hc.
  split_and!; cbn; [by apply lookupZ_insertZ_eq..|done].
Qed.
Lemma slot_put_ne l i d' c' h j e b q :
  j <> i -> slot l j e b q -> slot (put i d' c' h l) j e b q.
Proof using Type.
  intros Hne (He & Hb & Hq). split_and!; cbn; [by rewrite lookupZ_insertZ_ne..|done].
Qed.

Lemma slot_ok_ext l l' i d c p :
  local_pages l' = local_pages l -> temp_files l' = temp_files l ->
  slot_ok l i d c p -> slot_ok l' i d c p.
Proof using Type.
  intros Hp Hf [Hid Hwf Hio Hc Hpin Hu Ht Hd Hv]. split; try done.
  destruct p; unfold slot_page, file_page in *; by rewrite ?Hp, Hf.
Qed.

Lemma tagged_put l i d c p d' c' h t j :
  slot l i d c p ->
  tagged (put i d' c' h l) t j <->
  (j = i /\ flag (state d') BM_TAG_VALID = true /\ tag d' = t) \/ (j <> i /\ tagged l t j).
Proof using Type.
  intros (Hd & _). pose proof (lookupZ_Some _ _ _ Hd) as Hi. split.
  - intros (e & He & Hv & Ht). cbn in He.
    apply lookupZ_insertZ_Some in He as [[<- <-]|[Hne He]]; [by left|]. right. split; [done|]. by exists e.
  - intros [(-> & Hv & Ht)|[Hne (e & He & Hv & Ht)]].
    + exists d'. split; [|done]. by apply lookupZ_insertZ_eq.
    + exists e. split; [|done]. cbn. by rewrite lookupZ_insertZ_ne.
Qed.

Lemma local_ok_put l i d c p d' c' h :
  local_ok l -> slot l i d c p -> slot_ok l i d' c' p ->
  (forall t j, h !! t = Some j <-> tagged (put i d' c' h l) t j) ->
  local_ok (put i d' c' h l).
Proof using Type.
  intros Hok Hs Hnew Hh. pose proof Hs as (Hd & Hc & Hp).
  destruct Hok as [H1 H2 H3 H4 H5 H6 H7 [S1 S2 S3 S4 S5]].
  split; cbn; rewrite ?length_insertZ; try done.
  - intros j e b q Hj. apply (slot_ok_ext l); [done..|].
    destruct (slot_put _ _ _ _ _ _ _ _ _ _ _ _ Hs Hj) as [(-> & -> & -> & ->)|[_ Hj']]; [done|].
    by apply H5.
  - by exists h.
  - rewrite Hc, (nonzero_insert i c c' _ Hc), H7. cbn. lia.
Qed.

(** The buffer keeps its block. *)
Lemma local_ok_put_same l i d c p d' c' h :
  local_ok l -> slot l i d c p -> slot_ok l i d' c' p -> LocalBufHash l = Some h ->
  tag d' = tag d -> flag (state d') BM_TAG_VALID = flag (state d) BM_TAG_VALID ->
  local_ok (put i d' c' h l).
Proof using Type.
  intros Hok Hs Hnew Eh Ht Hv. eapply local_ok_put; [done..|].
  destruct (lo_hash _ Hok) as (h' & Eh' & Hh). assert (h' = h) as -> by congruence.
  intros t j. rewrite Hh, (tagged_put _ _ _ _ _ _ _ _ _ _ Hs), Ht, Hv. destruct Hs as (Hd & _).
  destruct (decide (j = i)) as [->|Hne].
  - split; [intros (e & He & ?); left; assert (e = d) as -> by congruence; done|].
    intros [(_ & ?)|[? _]]; [|done]. by exists d.
  - naive_solver.
Qed.

(** The buffer loses its block. *)
Lemma local_ok_put_delete l i d c p d' c' h :
  local_ok l -> slot l i d c p -> slot_ok l i d' c' p -> LocalBufHash l = Some h ->
  flag (state d) BM_TAG_VALID = true -> flag (state d') BM_TAG_VALID = false ->
  local_ok (put i d' c' (delete (tag d) h) l).
Proof using Type.
  intros Hok Hs Hnew Eh Ht Hv. eapply local_ok_put; [done..|].
  destruct (lo_hash _ Hok) as (h' & Eh' & Hh). assert (h' = h) as -> by congruence.
  intros t j. rewrite lookup_delete_Some, Hh, (tagged_put _ _ _ _ _ _ _ _ _ _ Hs), Hv.
  assert (tagged l (tag d) i) as Hi by (exists d; by destruct Hs).
  split.
  - intros [Hne Hj]. right. split; [|done]. intros ->. destruct Hj as (e & He & _ & <-).
    destruct Hs as (Hd & _). congruence.
  - intros [(_ & ? & _)|[Hne Hj]]; [done|]. split; [|done]. intros <-.
    by apply Hne, (tagged_unique l (tag d)).
Qed.

(** The buffer gets a block that was not cached. *)
Lemma local_ok_put_insert l i d c p d' c' h :
  local_ok l -> slot l i d c p -> slot_ok l i d' c' p -> LocalBufHash l = Some h ->
  flag (state d) BM_TAG_VALID = false -> flag (state d') BM_TAG_VALID = true ->
  h !! tag d' = None -> local_ok (put i d' c' (<[tag d' := i]> h) l).
Proof using Type.
  intros Hok Hs Hnew Eh Ht Hv Hfree. eapply local_ok_put; [done..|].
  destruct (lo_hash _ Hok) as (h' & Eh' & Hh). assert (h' = h) as -> by congruence.
  intros t j. rewrite lookup_insert_Some, Hh, (tagged_put _ _ _ _ _ _ _ _ _ _ Hs).
  assert (forall t, ~ tagged l t i) as Hno.
  { intros t' (e & He & Ht' & _). destruct Hs as (Hd & _). congruence. }
  split.
  - intros [[<- <-]|[Hne Hj]]; [by left|]. right. split; [|done]. intros ->. by eapply Hno.
  - intros [(-> & _ & <-)|[Hne Hj]]; [by left|]. right. split; [|done]. intros <-.
    apply Hh in Hj. congruence.
Qed.

Lemma same_view_put_same l i d c p d' c' h :
  slot l i d c p -> LocalBufHash l = Some h ->
  flag (state d') BM_VALID = flag (state d) BM_VALID -> same_view l (put i d' c' h l).
Proof using All.
  intros (Hd & _ & Hp) Eh Hv t. unfold view. cbn. rewrite Eh. cbn. destruct (h !! t) as [j|]; [|reflexivity].
  destruct (decide (i = j)) as [<-|Hne].
  - pose proof (lookupZ_Some _ _ _ Hd). rewrite lookupZ_insertZ_eq, Hd, Hp, Hv by done.
    change (slot_page (put _ _ _ _ _)) with (slot_page l).
    change (file_page (put _ _ _ _ _)) with (file_page l). reflexivity.
  - rewrite lookupZ_insertZ_ne by done. reflexivity.
Qed.

(** Forgetting a buffer is not seen through the other blocks, and forgetting a
    clean one is not seen at all. *)
Lemma view_put_delete_ne l i d c p d' c' h t :
  local_ok l -> slot l i d c p -> LocalBufHash l = Some h -> t <> tag d ->
  view (put i d' c' (delete (tag d) h) l) t = view l t.
Proof using Type.
  intros Hok Hs Eh Hne. unfold view. cbn. rewrite Eh. cbn. rewrite lookup_delete_ne by done.
  destruct (h !! t) as [j|] eqn:Ej; [|reflexivity].
  destruct (lo_hash _ Hok) as (h' & Eh' & Hh). assert (h' = h) as -> by congruence.
  assert (i <> j); [|by rewrite lookupZ_insertZ_ne]. intros <-. apply Hh in Ej as (e & He & _ & <-).
  apply Hne. destruct Hs as (Hd & _). congruence.
Qed.

Lemma same_view_put_delete l i d c p d' c' h :
  local_ok l -> slot l i d c p -> LocalBufHash l = Some h -> flag (state d) BM_TAG_VALID = true ->
  flag (state d) BM_DIRTY = false -> same_view l (put i d' c' (delete (tag d) h) l).
Proof using All.
  intros Hok Hs Eh Ht Hdirty t. pose proof (lo_slots _ Hok _ _ _ _ Hs) as Hso.
  destruct (decide (t = tag d)) as [->|Hne].
  - rewrite (view_tagged _ _ _ _ _ Hok Hs Ht). unfold view. cbn. rewrite lookup_delete_eq.
    change (file_page (put _ _ _ _ _)) with (file_page l).
    destruct (flag (state d) BM_VALID) eqn:Hv; [|reflexivity].
    destruct (so_valid _ _ _ _ _ Hso Hv) as (_ & v & f & -> & -> & Hsame). constructor. by apply Hsame.
  - by rewrite (view_put_delete_ne l i d c p).
Qed.

Lemma same_view_put_insert l i d c p d' c' h :
  local_ok l -> slot l i d c p -> LocalBufHash l = Some h -> flag (state d) BM_TAG_VALID = false ->
  h !! tag d' = None -> flag (state d') BM_VALID = false ->
  same_view l (put i d' c' (<[tag d' := i]> h) l).
Proof using All.
  intros Hok (Hd & _ & Hp) Eh Ht Hfree Hv t. unfold view. cbn. rewrite Eh. cbn.
  destruct (decide (tag d' = t)) as [<-|Hne].
  - pose proof (lookupZ_Some _ _ _ Hd). rewrite Hfree, lookup_insert_eq, lookupZ_insertZ_eq, Hp, Hv by done.
    reflexivity.
  - rewrite lookup_insert_ne by done. destruct (h !! t) as [j|] eqn:Ej; [|reflexivity].
    destruct (lo_hash _ Hok) as (h' & Eh' & Hh). assert (h' = h) as -> by congruence.
    assert (i <> j); [|by rewrite lookupZ_insertZ_ne]. intros <-. apply Hh in Ej as (e & He & Ht' & _).
    congruence.
Qed.

(** ** Changing a page image *)
Definition set_page (q : Z * Z) (v : Z) (l : LocalBuffers) : LocalBuffers :=
  with_local_pages (<[q := v]> (local_pages l)) l.

Lemma slot_page_other l i j d c q v e b p :
  local_ok l -> slot l i d c (Some q) -> slot l j e b p -> j <> i ->
  slot_page (set_page q v l) p = slot_page l p.
Proof using Type.
  intros Hok (_ & _ & Hi) (_ & _ & Hj) Hne. destruct p as [q'|]; [|done]. cbn.
  apply lookup_insert_ne. intros <-. by apply Hne, (st_inj _ (lo_store _ Hok) _ _ q).
Qed.

Lemma local_ok_page l i d c q v' :
  local_ok l -> slot l i d c (Some q) ->
  (forall v, flag (state d) BM_VALID = true -> local_pages l !! q = Some v -> same_page v v') ->
  local_ok (set_page q v' l) /\ same_view l (set_page q v' l).
Proof using All.
  intros Hok Hs Hv. split.
  - pose proof Hok as [H1 H2 H3 H4 H5 H6 H7 H8]. split; try done.
    2: { by destruct H8. }
    intros j e b p Hj. destruct (H5 _ _ _ _ Hj) as [? ? ? ? ? ? ? ? Hval]. split; try done.
    intros Hflag. destruct (Hval Hflag) as (Ht & v & f & Hp & Hf & Hsame). split; [done|].
    destruct (decide (j = i)) as [->|Hne].
    + assert (e = d /\ p = Some q) as [-> ->] by (destruct Hs, Hj; naive_solver).
      exists v', f. split_and!; [apply lookup_insert_eq|done|]. intros Hd. rewrite <- (Hv v) by done. auto.
    + exists v, f. split_and!; [|done..]. by rewrite (slot_page_other l i j d c q v' e b p).
  - intros t. destruct (view_case l t Hok) as [(j & e & b & p & Hj & Ht & <-)|Hno].
    2: { unfold view. cbn. destruct (lo_hash _ Hok) as (h & -> & Hh). cbn.
         destruct (h !! t) as [j|] eqn:Ej; [|reflexivity]. apply Hh in Ej. by destruct (Hno j). }
    rewrite (view_tagged l j e b p Hok Hj Ht). unfold view. cbn.
    destruct (lo_hash _ Hok) as (h & -> & Hh). cbn.
    rewrite (proj2 (Hh (tag e) j)) by (exists e; by destruct Hj). destruct Hj as (He & Hb & Hp). rewrite He, Hp.
    destruct (flag (state e) BM_VALID) eqn:Hval; [|reflexivity].
    destruct (decide (j = i)) as [->|Hne].
    + assert (e = d /\ p = Some q) as [-> ->] by (destruct Hs as (? & ? & ?); naive_solver).
      destruct (so_valid _ _ _ _ _ (lo_slots _ Hok _ _ _ _ Hs) Hval) as (_ & v & f & Hp' & _). cbn in *.
      rewrite lookup_insert_eq, Hp'. constructor. by apply Hv.
    + by rewrite (slot_page_other l i j d c q v' e b p).
Qed.

(** ** Writing a page to its file *)
Definition write_file (t : BufferTag) (v : Z) (l : LocalBuffers) : LocalBuffers :=
  let key := (BufTagGetRelFileLocator t, BufTagGetForkNum t) in
  with_temp_files (<[key := insertZ (blockNum t) v (default [] (temp_files l !! key))]> (temp_files l)) l.

Lemma file_page_write l t v t' :
  is_Some (file_page l t) ->
  file_page (write_file t v l) t' = if decide (t' = t) then Some v else file_page l t'.
Proof using Type.
  intros [x Hx]. unfold file_page in *. cbn. unfold Files in *. apply lookupZ_Some in Hx.
  destruct t as [s1 d1 r1 f1 b1], t' as [s2 d2 r2 f2 b2]. unfold BufTagGetRelFileLocator, BufTagGetForkNum in *.
  cbn in *. destruct (decide ((mkRelFileLocator s1 d1 r1, f1) = (mkRelFileLocator s2 d2 r2, f2))) as [He|Hne].
  - injection He as -> -> -> ->. rewrite lookup_insert_eq. cbn. case_decide as Hb.
    + injection Hb as ->. by apply lookupZ_insertZ_eq.
    + apply lookupZ_insertZ_ne. congruence.
  - rewrite lookup_insert_ne by done. case_decide as Hb; [|done]. congruence.
Qed.

Lemma local_ok_write l i d c p v :
  local_ok l -> slot l i d c p -> flag (state d) BM_VALID = true -> slot_page l p = Some v ->
  local_ok (write_file (tag d) v l) /\ same_view l (write_file (tag d) v l).
Proof using All.
  intros Hok Hs Hval Hv. pose proof (lo_slots _ Hok _ _ _ _ Hs) as Hso.
  destruct (so_valid _ _ _ _ _ Hso Hval) as (Htag & v0 & f & Hv0 & Hf & _).
  assert (forall t', file_page (write_file (tag d) v l) t' =
    if decide (t' = tag d) then Some v else file_page l t') as Hfp
    by (intros; apply file_page_write; eauto).
  assert (tagged l (tag d) i) as Hti by (exists d; by destruct Hs).
  split.
  - pose proof Hok as [H1 H2 H3 H4 H5 H6 H7 H8]. split; try done.
    2: { by destruct H8. }
    intros j e b q Hj. change (slot l j e b q) in Hj. destruct (H5 _ _ _ _ Hj) as [? ? ? ? ? ? ? ? Hvalid]. split; try done.
    intros Hflag. destruct (Hvalid Hflag) as (Ht & w & g & Hp & Hg & Hsame). split; [done|].
    rewrite Hfp. case_decide as Hte.
    + assert (j = i) as -> by (eapply tagged_unique; [done| |done]; exists e; by destruct Hj).
      assert (q = p) as -> by (destruct Hs as (? & ? & ?), Hj as (? & ? & ?); congruence).
      exists v, v. done.
    + by exists w, g.
  - intros t. destruct (decide (t = tag d)) as [->|Hne].
    + rewrite (view_tagged l i d c p Hok Hs Htag), Hval. unfold view. cbn.
      destruct (lo_hash _ Hok) as (h & -> & Hh). cbn. rewrite (proj2 (Hh (tag d) i)) by done.
      destruct Hs as (-> & _ & ->). rewrite Hval. reflexivity.
    + unfold view. cbn. rewrite !Hfp, decide_False by done. reflexivity.
Qed.

(** ** Taking storage for a page *)
Definition chunk_size (l : LocalBuffers) : Z :=
  Z.min (Z.min (Z.max (num_bufs_in_block l * 2) 16) (NLocBuffer l - total_bufs_allocated l))
    (MaxAllocSize / BLCKSZ).
Definition grown (l : LocalBuffers) : LocalBuffers :=
  if next_buf_in_block l >=? num_bufs_in_block l then
    with_num_bufs_in_block (chunk_size l) (with_next_buf_in_block 0
      (with_local_chunks (local_chunks l ++ [chunk_size l]) l))
  else l.
Definition grant (i : Z) (l : LocalBuffers) : LocalBuffers :=
  let l := grown l in
  with_LocalBufferBlockPointers
    (insertZ i (Some (Z.of_nat (length (local_chunks l)) - 1, next_buf_in_block l))
      (LocalBufferBlockPointers l))
    (with_total_bufs_allocated (total_bufs_allocated l + 1)
      (with_next_buf_in_block (next_buf_in_block l + 1) l)).

Lemma chunk_size_pos l : total_bufs_allocated l < NLocBuffer l -> 0 < chunk_size l.
Proof using Type. intros H. unfold chunk_size. change (MaxAllocSize / BLCKSZ) with 131071. lia. Qed.

Lemma storage_grown l :
  storage_ok l -> total_bufs_allocated l < NLocBuffer l ->
  storage_ok (grown l) /\ next_buf_in_block (grown l) < num_bufs_in_block (grown l).
Proof using Type.
  intros [S1 S2 S3 S4 S5] Ht. pose proof (chunk_size_pos l Ht) as Hc. unfold grown.
  destruct (next_buf_in_block l >=? num_bufs_in_block l) eqn:E; rewrite Z.geb_leb in E.
  2: { split; [by split|]. apply Z.leb_gt in E. lia. }
  split; [|done]. split; cbn; try done.
  - intros i q (size & Hl & Hr & _)%S2. pose proof (lookupZ_Some _ _ _ Hl) as Hq.
    exists size. cbn. split_and!; [|lia..|].
    + unfold lookupZ in *. case_match; [|done]. by apply lookup_app_l_Some.
    + rewrite length_app. cbn. lia.
  - intros _. unfold lookupZ. rewrite length_app. cbn [length].
    rewrite (proj2 (Z.leb_le _ _)) by lia. apply list_lookup_middle. lia.
Qed.

Lemma storage_left l i : local_ok l ->
  lookupZ (LocalBufferBlockPointers l) i = Some None -> total_bufs_allocated l < NLocBuffer l.
Proof using Type.
  intros Hok Hi. rewrite (st_total _ (lo_store _ Hok)), <- (lo_ptrs _ Hok).
  rewrite <- (length_fmap has_storage). set (ps := has_storage <$> LocalBufferBlockPointers l).
  assert (nonzero ps <= Z.of_nat (length ps)) as Hle
    by (unfold nonzero; pose proof (length_filter (fun c => c <> 0) ps); lia).
  destruct (decide (nonzero ps = Z.of_nat (length ps))) as [He|]; [|lia].
  exfalso. apply (proj1 (nonzero_all ps) He 0); [|done]. apply list_elem_of_fmap. exists None. split; [done|].
  unfold lookupZ in Hi. case_match; [|done]. by eapply list_elem_of_lookup_2.
Qed.

Lemma nonzero_storage ps i q :
  lookupZ ps i = Some None ->
  nonzero (has_storage <$> insertZ i (Some q) ps) = nonzero (has_storage <$> ps) + 1.
Proof using Type.
  intros Hi. assert (has_storage <$> insertZ i (Some q) ps = insertZ i 1 (has_storage <$> ps)) as ->.
  { unfold insertZ. case_match; [|done]. by rewrite list_fmap_insert. }
  rewrite (nonzero_insert i 0); [unfold one_if; cbn; lia|].
  unfold lookupZ in *. case_match; [|done]. by rewrite list_lookup_fmap, Hi.
Qed.

Lemma storage_grant l i :
  storage_ok l -> total_bufs_allocated l < NLocBuffer l ->
  lookupZ (LocalBufferBlockPointers l) i = Some None -> storage_ok (grant i l).
Proof using Type.
  intros Hst Ht Hi. destruct (storage_grown l Hst Ht) as [[S1 S2 S3 S4 S5] Hlt].
  assert (LocalBufferBlockPointers (grown l) = LocalBufferBlockPointers l) as Ep
    by (unfold grown; by case_match).
  unfold grant. set (g := grown l) in *. set (q := (_, next_buf_in_block g)).
  assert (forall j, lookupZ (LocalBufferBlockPointers g) j = Some (Some q) -> False) as Hnew.
  { intros j (size & _ & _ & Hq)%S2. cbn in Hq. lia. }
  split; cbn.
  - intros j k q' Hj Hk.
    apply lookupZ_insertZ_Some in Hj as [[<- [= <-]]|[Hj' Hj]];
    apply lookupZ_insertZ_Some in Hk as [[<- Hq]|[Hk' Hk]]; try done.
    + by edestruct Hnew.
    + injection Hq as <-. by edestruct Hnew.
    + by eapply S1.
  - intros j q' Hj. apply lookupZ_insertZ_Some in Hj as [[<- [= <-]]|[_ Hj]].
    + exists (num_bufs_in_block g). cbn. split_and!; [by apply S5|lia..].
    + destruct (S2 _ _ Hj) as (size & Hl & Hr & Hq). exists size. cbn. split_and!; [done|lia..].
  - rewrite nonzero_storage by (by rewrite Ep). lia.
  - lia.
  - intros _. apply S5. lia.
Qed.

(** The storage counters of a buffer without a page. *)
Lemma local_ok_grant l i d c :
  local_ok l -> slot l i d c None -> local_ok (grant i l) /\ same_view l (grant i l).
Proof using All.
  intros Hok Hs. pose proof (lo_slots _ Hok _ _ _ _ Hs) as Hso. pose proof Hs as (Hd & Hc & Hp).
  assert (flag (state d) BM_VALID = false) as Hv.
  { apply not_true_is_false. intros Hv. destruct (so_valid _ _ _ _ _ Hso Hv) as [Ht _].
    by destruct (so_tag _ _ _ _ _ Hso Ht). }
  pose proof (storage_left l i Hok Hp) as Hleft.
  pose proof (storage_grant l i (lo_store _ Hok) Hleft Hp) as Hst.
  unfold grant in *. assert (exists n m cs, grown l =
    with_num_bufs_in_block n (with_next_buf_in_block m (with_local_chunks cs l))) as (n & m & cs & Eg).
  { unfold grown. case_match; [by repeat eexists|]. exists (num_bufs_in_block l), (next_buf_in_block l), (local_chunks l).
    by destruct l. }
  rewrite Eg in *. set (q := (_, _)) in *. split.
  - pose proof Hok as [H1 H2 H3 H4 H5 H6 H7 _]. split; cbn; rewrite ?length_insertZ; try done.
    intros j e b p (He & Hb & Hj). cbn in He, Hb, Hj.
    apply lookupZ_insertZ_Some in Hj as [[<- <-]|[Hne Hj]].
    + assert (e = d /\ b = c) as [-> ->] by (split; congruence).
      destruct Hso. split; try done. intros Hv'. congruence.
    + by apply (slot_ok_ext l), H5.
  - intros t. unfold view. cbn. destruct (default ∅ (LocalBufHash l) !! t) as [j|]; [|reflexivity].
    destruct (decide (i = j)) as [<-|Hne].
    + rewrite Hd, Hp. pose proof (lookupZ_Some _ _ _ Hp). rewrite lookupZ_insertZ_eq, Hv by done. reflexivity.
    + rewrite lookupZ_insertZ_ne by done. reflexivity.
Qed.
End inv.
