(* ===== verification/LocalRun.v ===== *)
(** * Running the local buffer manager

    What each function of [localbuf.c] does to arrays that satisfy the
    invariant, as an equation, and that the invariant and the visible contents
    of the tables survive it. *)
From S2P Require Import Prelude BufState BufTag Shmem Concurrency PrivateRefCount LocalBuf LocalInv.

(** Only the private state of localbuf.c, the pins of the resource owner, the
    statistics and the source of I/O faults differ. *)
Definition private_only (w w' : World) : Prop :=
  w' = with_me (with_local (local (me w')) (with_accounting (accounting (me w'))
    (with_smgr_faults (smgr_faults (me w')) (with_owned_pins (owned_pins (me w')) (me w))))) w.

#[export] Instance private_only_refl : Reflexive private_only.
Proof. by intros [? []]. Qed.
#[export] Instance private_only_trans : Transitive private_only.
Proof. unfold private_only. intros w1 w2 w3 H1 H2. rewrite H2. cbn. rewrite H1. cbn. done. Qed.

Definition set_local (l : LocalBuffers) (w : World) : World := upd_me (with_local l) w.
Definition set_pins (ps : list Z) (w : World) : World := upd_me (with_owned_pins ps) w.
Definition set_faults (fs : list bool) (w : World) : World := upd_me (with_smgr_faults fs) w.
Definition loc (w : World) : LocalBuffers := local (me w).

Lemma local_deref_run w i d :
  lookupZ (LocalBufferDescriptors (loc w)) i = Some d -> local_deref i w = (Ret d, w).
Proof. unfold loc. intros H. unfold local_deref, get_local, get_me, gets, bind. by rewrite H. Qed.
Lemma local_refcount_run w i c :
  lookupZ (LocalRefCount (loc w)) i = Some c -> local_refcount i w = (Ret c, w).
Proof. unfold loc. intros H. unfold local_refcount, get_local, get_me, gets, bind. by rewrite H. Qed.
Lemma LocalBufHdrGetBlock_run w i d c p :
  slot (loc w) i d c p -> buf_id d = - i - 2 -> LocalBufHdrGetBlock d w = (Ret p, w).
Proof.
  unfold loc. intros (_ & _ & H) Hid. unfold LocalBufHdrGetBlock, get_local, get_me, gets, bind.
  replace (- (buf_id d + 2)) with i by lia. by rewrite H.
Qed.
Lemma read_local_state_run w i d :
  lookupZ (LocalBufferDescriptors (loc w)) i = Some d -> read_local_state i w = (Ret (state d), w).
Proof. intros H. unfold read_local_state. by run (local_deref_run w i d H). Qed.
Lemma write_local_state_run w i d s :
  lookupZ (LocalBufferDescriptors (loc w)) i = Some d ->
  write_local_state i s w = (Ret tt, set_local (with_LocalBufferDescriptors
    (insertZ i (with_state s d) (LocalBufferDescriptors (loc w))) (loc w)) w).
Proof. intros H. unfold write_local_state. by run (local_deref_run w i d H). Qed.

(** Compares two states of the local arrays field by field. *)
Ltac local_eq :=
  unfold put, with_LocalBufferDescriptors, with_LocalRefCount, with_NLocalPinnedBuffers,
    with_LocalBufHash, with_nextFreeLocalBufId; cbn; f_equal.

(** A change of one slot that keeps the table. *)
Lemma put_same_count i d c h l :
  lookupZ (LocalRefCount l) i = Some c -> LocalBufHash l = Some h ->
  put i d c h l = with_LocalBufferDescriptors (insertZ i d (LocalBufferDescriptors l)) l.
Proof.
  intros Hc Hh. unfold put. rewrite Hc, (insertZ_id i c _ Hc). destruct l. cbn in *. subst. local_eq. lia.
Qed.

Lemma flags_same s s' :
  s' / 2 ^ 22 = s / 2 ^ 22 ->
  flag s' BM_TAG_VALID = flag s BM_TAG_VALID /\ flag s' BM_VALID = flag s BM_VALID /\
  flag s' BM_DIRTY = flag s BM_DIRTY.
Proof. intros H. split_and!; by apply flag_use. Qed.

(** ** Pins *)
Definition local_pin_state (c : Z) (adjust_usagecount : bool) (s : Z) : Z :=
  if c =? 0 then
    let s := pinned_word s in
    if adjust_usagecount && (BUF_STATE_GET_USAGECOUNT s <? BM_MAX_USAGE_COUNT)
    then u64 (s + BUF_USAGECOUNT_ONE) else s
  else s.
Definition local_pin (i : Z) (adj : bool) (d : BufferDesc) (c : Z) (h : gmap BufferTag Z)
    (l : LocalBuffers) : LocalBuffers :=
  put i (with_state (local_pin_state c adj (state d)) d) (c + 1) h l.

Lemma local_pin_state_spec c adj s :
  wf_state s -> refcount s = one_if c -> usage s <= BM_MAX_USAGE_COUNT -> 0 <= c ->
  wf_state (local_pin_state c adj s) /\ refcount (local_pin_state c adj s) = 1 /\
  usage s <= usage (local_pin_state c adj s) <= BM_MAX_USAGE_COUNT /\
  local_pin_state c adj s / 2 ^ 22 = s / 2 ^ 22.
Proof.
  intros Hs Hr Hu Hc. unfold local_pin_state, one_if in *. destruct (Z.eqb_spec c 0) as [->|Hne].
  2: { split_and!; try done; lia. }
  destruct (pin_word s Hs ltac:(lia)) as (H1 & H2 & H3).
  pose proof (usage_quot18 _ _ H3) as H4. pose proof (quot18_22 _ _ H3) as H5.
  destruct (adj && _) eqn:E; [|split_and!; try done; lia].
  apply andb_true_iff in E as [_ E%Z.ltb_lt]. rewrite get_usagecount in E by apply H1.
  unfold BM_MAX_USAGE_COUNT in *.
  destruct (usage_up_word _ H1) as (K1 & K2 & K3 & K4); [lia|].
  split_and!; [done|lia..|congruence].
Qed.

Section run.
Context (same_page : Z -> Z -> Prop) `{!Equivalence same_page}.
Local Abbreviation local_ok := (local_ok same_page).
Local Abbreviation slot_ok := (slot_ok same_page).
Local Abbreviation same_view := (same_view same_page).

Lemma hash_of l : local_ok l -> exists h, LocalBufHash l = Some h.
Proof using Type. intros Hok. destruct (lo_hash _ _ Hok) as (h & Hh & _). by exists h. Qed.

Lemma PinLocalBuffer_run w i adj d c p h :
  slot (loc w) i d c p -> slot_ok (loc w) i d c p -> c < 2 ^ 31 - 1 -> LocalBufHash (loc w) = Some h ->
  PinLocalBuffer i adj w = (Ret (flag (state d) BM_VALID),
    set_pins ((- i - 1) :: owned_pins (me w)) (set_local (local_pin i adj d c h (loc w)) w)).
Proof using Type.
  intros (Hd & Hc & Hp) [Hid Hwf _ Hc0 Hpin Hu _ _ _] Hr Hh. unfold PinLocalBuffer.
  run (local_deref_run w i d Hd). replace (- (buf_id d + 1) - 1) with i by lia.
  replace (buf_id d + 1) with (- i - 1) by lia.
  run (local_refcount_run w i c Hc).
  transitivity (@Ret bool (flag (local_pin_state c adj (state d)) BM_VALID),
    set_pins ((- i - 1) :: owned_pins (me w)) (set_local (with_LocalRefCount
      (insertZ i (c + 1) (LocalRefCount (loc w))) (if c =? 0 then with_LocalBufferDescriptors
        (insertZ i (with_state (local_pin_state c adj (state d)) d) (LocalBufferDescriptors (loc w)))
        (with_NLocalPinnedBuffers (NLocalPinnedBuffers (loc w) + 1) (loc w)) else loc w)) w)).
  - unfold bind, local_refcount, write_local_state, local_deref, get_local, get_me, gets, loc, local_pin_state in *.
    destruct (c =? 0); unfold modify_local, modify_me, modify, bind; cbn -[u64 lookupZ insertZ];
      rewrite ?Hd; cbn -[u64 lookupZ insertZ]; rewrite Hc; cbn -[u64 lookupZ insertZ];
      by rewrite (i32_small (c + 1)) by lia.
  - f_equal.
    + f_equal. apply flag_use; [lia|]. by apply local_pin_state_spec.
    + f_equal. f_equal. unfold local_pin, local_pin_state, put. rewrite Hc. change (default 0 (Some c)) with c.
      destruct (Z.eqb_spec c 0) as [->|Hne].
      * destruct (loc w); cbn in *; subst. local_eq. unfold one_if. cbn. by rewrite Z.sub_0_r.
      * assert (with_state (state d) d = d) as -> by (by destruct d). rewrite (insertZ_id i d _ Hd).
        unfold one_if. destruct (Z.eqb_spec c 0), (Z.eqb_spec (c + 1) 0); try lia.
        destruct (loc w); cbn in *; subst. local_eq. lia.
Qed.

Lemma slot_ok_state l i d c p s c' :
  slot_ok l i d c p -> wf_state s -> 0 <= c' -> refcount s = one_if c' ->
  usage s <= BM_MAX_USAGE_COUNT -> s / 2 ^ 22 = state d / 2 ^ 22 ->
  slot_ok l i (with_state s d) c' p.
Proof using Type.
  intros [Hid Hwf Hio Hc Hpin Hu Ht Hdirty Hv] Hs Hc' Hr Hus Hq.
  destruct (flags_same _ _ Hq) as (E1 & E2 & E3).
  split; cbn; rewrite ?E1, ?E2, ?E3; done.
Qed.

(** Pin count and usage count may change, the flags and the block stay. *)
Lemma local_ok_state l i d c p s c' h :
  local_ok l -> slot l i d c p -> LocalBufHash l = Some h -> wf_state s -> 0 <= c' ->
  refcount s = one_if c' -> usage s <= BM_MAX_USAGE_COUNT -> s / 2 ^ 22 = state d / 2 ^ 22 ->
  local_ok (put i (with_state s d) c' h l) /\ same_view l (put i (with_state s d) c' h l).
Proof using Equivalence0.
  intros Hok Hs Hh Hwf Hc Hr Hu Hq. split.
  - eapply local_ok_put_same; [done|done| |done|done|by apply flag_use].
    by eapply slot_ok_state; [by apply Hok|..].
  - eapply same_view_put_same; [done..|by apply flag_use].
Qed.

Lemma local_pin_ok l i adj d c p h :
  local_ok l -> slot l i d c p -> LocalBufHash l = Some h ->
  local_ok (local_pin i adj d c h l) /\ same_view l (local_pin i adj d c h l).
Proof using Equivalence0.
  intros Hok Hs Hh. destruct (lo_slots _ _ Hok _ _ _ _ Hs) as [Hid Hwf _ Hc0 Hpin Hu _ _ _].
  destruct (local_pin_state_spec c adj (state d)) as (H1 & H2 & H3 & H4); [done..|].
  eapply local_ok_state; [done..|lia| |lia|done].
  rewrite H2. unfold one_if. destruct (Z.eqb_spec (c + 1) 0); lia.
Qed.

(** ** Unpins *)
Definition unpin_state (c s : Z) : Z := if c =? 1 then unpinned_word s else s.
Definition local_unpin (i : Z) (d : BufferDesc) (c : Z) (h : gmap BufferTag Z) (l : LocalBuffers)
    : LocalBuffers :=
  put i (with_state (unpin_state c (state d)) d) (c - 1) h l.

Lemma unpin_state_spec c s :
  wf_state s -> refcount s = one_if c -> 0 < c ->
  wf_state (unpin_state c s) /\ refcount (unpin_state c s) = one_if (c - 1) /\
  unpin_state c s / 2 ^ 18 = s / 2 ^ 18.
Proof using Type.
  intros Hs Hr Hc. unfold unpin_state, one_if in *.
  destruct (Z.eqb_spec c 0), (Z.eqb_spec c 1), (Z.eqb_spec (c - 1) 0); try lia; [|done].
  destruct (unpin_word s Hs ltac:(lia)) as (H1 & H2 & H3). split_and!; [done|lia|done].
Qed.

Lemma UnpinLocalBufferNoOwner_run w i d c p h :
  local_ok (loc w) -> slot (loc w) i d c p -> 0 < c -> LocalBufHash (loc w) = Some h ->
  UnpinLocalBufferNoOwner (- i - 1) w = (Ret tt, set_local (local_unpin i d c h (loc w)) w).
Proof using Type.
  intros Hok Hs Hc Hh. pose proof (slot_range _ _ _ _ _ _ Hok Hs) as Hi.
  pose proof (lo_slots _ _ Hok _ _ _ _ Hs) as [_ Hwf _ _ Hpin _ _ _ _]. destruct Hs as (Hd & Hcnt & Hp).
  pose proof (nonzero_pos _ _ _ Hcnt ltac:(lia)) as Hpos. rewrite <- (lo_pins _ _ Hok) in Hpos.
  unfold UnpinLocalBufferNoOwner. replace (- (- i - 1) - 1) with i by lia.
  rewrite c_assert_ok by (unfold BufferIsLocal; lia). run (local_refcount_run w i c Hcnt).
  rewrite c_assert_ok by lia.
  run (eq_refl (get_local NLocalPinnedBuffers w)). rewrite c_assert_ok by (apply Z.ltb_lt; exact Hpos).
  transitivity (@Ret unit tt, set_local (with_LocalRefCount (insertZ i (c - 1) (LocalRefCount (loc w)))
    (if c =? 1 then with_LocalBufferDescriptors
      (insertZ i (with_state (unpinned_word (state d)) d) (LocalBufferDescriptors (loc w)))
      (with_NLocalPinnedBuffers (NLocalPinnedBuffers (loc w) - 1) (loc w)) else loc w)) w).
  - unfold set_local_refcount, write_local_state, read_local_state, local_deref, get_local, get_me, gets,
      modify_local, modify_me, modify, loc, when, c_assert, bind in *.
    destruct (Z.eqb_spec c 1) as [->|Hne]; [|by replace (c - 1 =? 0) with false by lia].
    change (1 - 1 =? 0) with true. cbn -[u64 lookupZ insertZ]. rewrite Hd.
    cbn -[u64 lookupZ insertZ]. rewrite get_refcount, Hpin by apply Hwf. cbn -[u64 lookupZ insertZ].
    by rewrite Hd.
  - f_equal. f_equal. unfold local_unpin, unpin_state, put. rewrite Hcnt. change (default 0 (Some c)) with c.
    unfold one_if. destruct (Z.eqb_spec c 0), (Z.eqb_spec (c - 1) 0), (Z.eqb_spec c 1) as [->|Hne]; try lia.
    + destruct (loc w); cbn in *; subst. local_eq. lia.
    + assert (with_state (state d) d = d) as -> by (by destruct d). rewrite (insertZ_id i d _ Hd).
      destruct (loc w); cbn in *; subst. local_eq. lia.
Qed.

Lemma local_unpin_ok l i d c p h :
  local_ok l -> slot l i d c p -> 0 < c -> LocalBufHash l = Some h ->
  local_ok (local_unpin i d c h l) /\ same_view l (local_unpin i d c h l).
Proof using Equivalence0.
  intros Hok Hs Hc Hh. destruct (lo_slots _ _ Hok _ _ _ _ Hs) as [Hid Hwf _ Hc0 Hpin Hu _ _ _].
  destruct (unpin_state_spec c (state d)) as (H1 & H2 & H3); [done..|].
  eapply local_ok_state; [done..|lia|done|by rewrite (usage_quot18 _ _ H3)|by apply quot18_22].
Qed.

Lemma UnpinLocalBuffer_run w i d c p h ps :
  local_ok (loc w) -> slot (loc w) i d c p -> 0 < c -> LocalBufHash (loc w) = Some h ->
  remove_one (- i - 1) (owned_pins (me w)) = Some ps ->
  UnpinLocalBuffer (- i - 1) w = (Ret tt, set_pins ps (set_local (local_unpin i d c h (loc w)) w)).
Proof using Type.
  intros Hok Hs Hc Hh Hps. unfold UnpinLocalBuffer. run (UnpinLocalBufferNoOwner_run w i d c p h Hok Hs Hc Hh).
  unfold ResourceOwnerForgetBuffer. run (eq_refl (get_me owned_pins (set_local (local_unpin i d c h (loc w)) w))).
  cbn [me set_local upd_me with_me owned_pins with_local]. by rewrite Hps.
Qed.

(** ** Writing a buffer back *)
Section flush.
Context (pgaio_wref_wait : Z -> M unit) (PageSetChecksumInplace : Z -> Z -> Z).
Hypothesis checksum_only : forall page blkno, same_page page (PageSetChecksumInplace page blkno).

Definition clean_word (s : Z) : Z := Z.lor (Z.land (Z.land s (not64 BM_IO_ERROR)) (not64 BM_DIRTY)) 0.

Lemma clean_word_eq s : wf_state s -> clean_word s = Z.ldiff (Z.ldiff s BM_IO_ERROR) BM_DIRTY.
Proof using Type.
  intros Hs. unfold clean_word. rewrite Z.lor_0_r, (land_not64 s) by done. apply land_not64, (wf_ldiff s _ Hs).
Qed.

Lemma clean_word_spec s :
  wf_state s -> wf_state (clean_word s) /\ refcount (clean_word s) = refcount s /\
    usage (clean_word s) = usage s /\ flag (clean_word s) BM_DIRTY = false /\
    flag (clean_word s) BM_VALID = flag s BM_VALID /\
    flag (clean_word s) BM_TAG_VALID = flag s BM_TAG_VALID.
Proof using Type.
  intros Hs. rewrite clean_word_eq by done. split; [by apply wf_ldiff, wf_ldiff|].
  split_and!; try by flags.
  - rewrite !refcount_field. by rewrite !field_ldiff.
  - rewrite !usage_field. by rewrite !field_ldiff.
Qed.

(** The state after the page was written. *)
Definition flushed (i : Z) (d : BufferDesc) (c : Z) (q : Z * Z) (v : Z) (h : gmap BufferTag Z)
    (l : LocalBuffers) : LocalBuffers :=
  put i (with_state (clean_word (state d)) d) c h (write_file (tag d) v (set_page q v l)).

Lemma page_set_ok l i d c q v v' :
  local_ok l -> slot l i d c (Some q) -> local_pages l !! q = Some v -> same_page v v' ->
  local_ok (set_page q v' l) /\ same_view l (set_page q v' l).
Proof using Equivalence0.
  intros Hok Hs Hv Hsame. eapply local_ok_page; [done..|]. intros v0 _ Hv0.
  assert (v0 = v) as -> by congruence. done.
Qed.

Lemma flushed_ok l i d c q v v' h :
  local_ok l -> slot l i d c (Some q) -> flag (state d) BM_DIRTY = true ->
  LocalBufHash l = Some h -> local_pages l !! q = Some v -> same_page v v' ->
  local_ok (flushed i d c q v' h l) /\ same_view l (flushed i d c q v' h l).
Proof using Equivalence0.
  intros Hok Hs Hdirty Hh Hv Hsame. pose proof (lo_slots _ _ Hok _ _ _ _ Hs) as Hso.
  pose proof (so_dirty _ _ _ _ _ _ Hso Hdirty) as Hvalid.
  destruct (page_set_ok l i d c q v v' Hok Hs Hv Hsame) as [Hok1 Hview1].
  assert (slot_page (set_page q v' l) (Some q) = Some v') as Hp by apply lookup_insert_eq.
  destruct (local_ok_write same_page (set_page q v' l) i d c (Some q) v' Hok1 Hs Hvalid Hp) as [Hok2 Hview2].
  destruct (clean_word_spec (state d) (so_wf _ _ _ _ _ _ Hso)) as (H1 & H2 & H3 & H4 & H5 & H6).
  set (l2 := write_file (tag d) v' (set_page q v' l)) in *.
  assert (slot l2 i d c (Some q)) as Hs2 by done.
  pose proof (lo_slots _ _ Hok2 _ _ _ _ Hs2) as [K1 K2 K3 K4 K5 K6 K7 K8 K9].
  destruct (K9 Hvalid) as (Ht & x & f & Hx & Hf & _).
  split.
  - eapply local_ok_put_same; [done|done| |done|done|done]. split; cbn; try done; try congruence.
    intros _. rewrite H6. split; [done|]. exists v', v'. split_and!; [done| |done].
    unfold l2. rewrite file_page_write; [by rewrite decide_True|].
    destruct (so_valid _ _ _ _ _ _ Hso Hvalid) as (_ & ? & g & _ & Hg & _). by exists g.
  - etransitivity; [apply Hview1|]. etransitivity; [apply Hview2|].
    eapply same_view_put_same; [done|done|done|]. cbn. congruence.
Qed.

Lemma read_local_page_run w i d c q v :
  slot (loc w) i d c (Some q) -> buf_id d = - i - 2 -> local_pages (loc w) !! q = Some v ->
  read_local_page d w = (Ret v, w).
Proof using Type.
  intros Hs Hid Hv. unfold read_local_page. run (LocalBufHdrGetBlock_run w i d c (Some q) Hs Hid).
  unfold bind, get_local, get_me, gets. unfold loc in Hv. by rewrite Hv.
Qed.
Lemma write_local_page_run w i d c q v :
  slot (loc w) i d c (Some q) -> buf_id d = - i - 2 ->
  write_local_page d v w = (Ret tt, set_local (set_page q v (loc w)) w).
Proof using Type.
  intros Hs Hid. unfold write_local_page. by run (LocalBufHdrGetBlock_run w i d c (Some q) Hs Hid).
Qed.

Lemma StartLocalBufferIO_run w i d forInput nowait :
  lookupZ (LocalBufferDescriptors (loc w)) i = Some d -> io_wref d = None ->
  StartLocalBufferIO pgaio_wref_wait i forInput nowait w =
    (Ret (if forInput then negb (flag (state d) BM_VALID) else flag (state d) BM_DIRTY), w).
Proof using Type.
  intros Hd Hio. unfold StartLocalBufferIO. run (local_deref_run w i d Hd). rewrite Hio, bind_ret_l.
  cbn iota. run (read_local_state_run w i d Hd). unfold ret. destruct forInput; [done|]. by rewrite negb_involutive.
Qed.

Lemma temp_smgrwrite_run w t v :
  is_Some (file_page (loc w) t) ->
  temp_smgrwrite (BufTagGetRelFileLocator t) (BufTagGetForkNum t) (blockNum t) v w =
  match smgr_faults (me w) with
  | true :: fs => (Elog "I/O error", set_faults fs w)
  | fs => (Ret tt, set_faults (tail fs) (set_local (write_file t v (loc w)) w))
  end.
Proof using Type.
  intros [x Hx]. apply lookupZ_Some in Hx. unfold temp_smgrwrite, smgr_call, bind, get_me, gets.
  assert (forall fs : list bool, (0 <=? blockNum t) && (blockNum t <? Z.of_nat (length (default []
    (temp_files (loc w) !! (BufTagGetRelFileLocator t, BufTagGetForkNum t))))) = true) as Hin.
  { intros _. apply andb_true_iff. split; [apply Z.leb_le|apply Z.ltb_lt]; apply Hx. }
  unfold loc in *. destruct (smgr_faults (me w)) as [|[] fs] eqn:E.
  - unfold temp_fork, get_local, get_me, gets, ret. cbn -[insertZ]. rewrite (Hin []).
    unfold set_temp_fork, modify_local, modify_me, modify. f_equal. unfold set_faults, set_local, upd_me, loc.
    cbn -[insertZ]. unfold write_file. destruct w as [? [] ?]. cbn in *. by subst.
  - done.
  - unfold temp_fork, get_local, get_me, gets, ret, modify_me, modify. cbn -[insertZ]. by rewrite (Hin []).
Qed.

Definition count_written (w : World) : World :=
  upd_me (fun m => with_accounting
    (with_local_blks_written (local_blks_written (accounting m) + 1) (accounting m)) m) w.

Lemma TerminateLocalBufferIO_run w i d c p h :
  slot (loc w) i d c p -> LocalBufHash (loc w) = Some h ->
  TerminateLocalBufferIO i true 0 false w =
    (Ret tt, set_local (put i (with_state (clean_word (state d)) d) c h (loc w)) w).
Proof using Type.
  intros (Hd & Hc & _) Hh. unfold TerminateLocalBufferIO. run (read_local_state_run w i d Hd).
  rewrite bind_ret_l, (put_same_count _ _ _ _ _ Hc Hh). apply (write_local_state_run w i d _ Hd).
Qed.

Lemma FlushLocalBuffer_run w i d c q v h :
  local_ok (loc w) -> slot (loc w) i d c (Some q) -> 0 < c -> flag (state d) BM_DIRTY = true ->
  LocalBufHash (loc w) = Some h -> local_pages (loc w) !! q = Some v ->
  let v' := PageSetChecksumInplace v (blockNum (tag d)) in
  FlushLocalBuffer pgaio_wref_wait PageSetChecksumInplace i None w =
  match smgr_faults (me w) with
  | true :: fs => (Elog "I/O error", set_faults fs (set_local (set_page q v' (loc w)) w))
  | fs => (Ret tt, count_written (set_local (flushed i d c q v' h (loc w)) (set_faults (tail fs) w)))
  end.
Proof using Type.
  intros Hok Hs Hc Hdirty Hh Hv v'. pose proof Hs as (Hd & Hcnt & Hp).
  pose proof (lo_slots _ _ Hok _ _ _ _ Hs) as Hso. pose proof (so_id _ _ _ _ _ _ Hso) as Hid.
  destruct (so_valid _ _ _ _ _ _ Hso (so_dirty _ _ _ _ _ _ Hso Hdirty)) as (_ & _ & f & _ & Hf & _).
  unfold FlushLocalBuffer. run (local_deref_run w i d Hd). replace (- (buf_id d + 1) - 1) with i by lia.
  run (local_refcount_run w i c Hcnt). rewrite c_assert_ok by lia.
  run (StartLocalBufferIO_run w i d false false Hd (so_io _ _ _ _ _ _ Hso)). rewrite Hdirty. cbn [negb].
  run (local_deref_run w i d Hd). run (read_local_page_run w i d c q v Hs Hid Hv). fold v'.
  run (write_local_page_run w i d c q v' Hs Hid). set (w1 := set_local (set_page q v' (loc w)) w).
  assert (local_pages (loc w1) !! q = Some v') as Hv1 by apply lookup_insert_eq.
  run (read_local_page_run w1 i d c q v' Hs Hid Hv1).
  pose proof (temp_smgrwrite_run w1 (tag d) v' ltac:(by exists f)) as Hwr.
  change (smgr_faults (me w1)) with (smgr_faults (me w)) in Hwr.
  destruct (smgr_faults (me w)) as [|[] fs]; [| unfold bind; by rewrite Hwr |];
    run Hwr; set (w2 := set_faults _ _);
    by run (TerminateLocalBufferIO_run w2 i d c (Some q) h Hs Hh).
Qed.
End flush.
End run.
