(* ===== verification/LocalAlloc.v ===== *)
(** * Allocation of local buffers

    The victim search of [GetLocalVictimBuffer] against its definition by the
    usage counts, and [LocalBufferAlloc], [InvalidateLocalBuffer] and the drop
    functions on top of it. *)
From S2P Require Import Prelude BufState BufTag Shmem Concurrency PrivateRefCount LocalBuf LocalInv LocalRun.

(** ** The sweep

    Slot [i] comes up after [hand_dist] rounds and then every [NLocBuffer]
    rounds; each time an unpinned buffer comes up it loses one use. *)
Definition hand_dist (l : LocalBuffers) (i : Z) : Z := (i - nextFreeLocalBufId l) mod NLocBuffer l.
Definition visits (n dist r : Z) : Z := r / n + (if dist <? r mod n then 1 else 0).
Definition lower (k : Z) (d : BufferDesc) : BufferDesc :=
  with_state (state d - k * BUF_USAGECOUNT_ONE) d.
Definition swept_desc (r : Z) (l : LocalBuffers) (i : Z) (d : BufferDesc) : BufferDesc :=
  if default 0 (lookupZ (LocalRefCount l) i) =? 0
  then lower (visits (NLocBuffer l) (hand_dist l i) r) d else d.
Definition swept_descs (r : Z) (l : LocalBuffers) : list BufferDesc :=
  imap (fun k d => swept_desc r l (Z.of_nat k) d) (LocalBufferDescriptors l).
Definition hand_at (r : Z) (l : LocalBuffers) : LocalBuffers :=
  with_nextFreeLocalBufId ((nextFreeLocalBufId l + r) mod NLocBuffer l) l.
(** The arrays after [r] rounds. *)
Definition swept (r : Z) (l : LocalBuffers) : LocalBuffers :=
  with_LocalBufferDescriptors (swept_descs r l) (hand_at r l).

(** The round in which a buffer would be taken. *)
Definition rank (l : LocalBuffers) (i : Z) (d : BufferDesc) : Z :=
  usage (state d) * NLocBuffer l + hand_dist l i.

Lemma div_mod_succ n r : 0 < n -> 0 <= r ->
  (r mod n = n - 1 /\ (r + 1) / n = r / n + 1 /\ (r + 1) mod n = 0) \/
  (r mod n < n - 1 /\ (r + 1) / n = r / n /\ (r + 1) mod n = r mod n + 1).
Proof.
  intros Hn Hr. pose proof (Z.div_mod r n ltac:(lia)) as E. pose proof (Z.mod_pos_bound r n Hn) as B.
  destruct (decide (r mod n = n - 1)) as [He|Hne]; [left|right].
  - split_and!; [done|..].
    + symmetry. apply (Z.div_unique _ _ _ 0); lia.
    + symmetry. apply (Z.mod_unique _ _ (r / n + 1)); lia.
  - split_and!; [lia|..].
    + symmetry. apply (Z.div_unique _ _ _ (r mod n + 1)); lia.
    + symmetry. apply (Z.mod_unique _ _ (r / n)); lia.
Qed.

Lemma visits_succ n dist r : 0 < n -> 0 <= dist < n -> 0 <= r ->
  visits n dist (r + 1) = visits n dist r + (if r mod n =? dist then 1 else 0).
Proof.
  intros Hn Hd Hr. unfold visits. pose proof (Z.mod_pos_bound r n Hn) as B.
  destruct (div_mod_succ n r Hn Hr) as [(E1 & -> & ->)|(E1 & -> & ->)];
    destruct (Z.eqb_spec (r mod n) dist);
    repeat match goal with |- context [?a <? ?b] => destruct (Z.ltb_spec a b) end; lia.
Qed.

Lemma visits_0 n dist : 0 < n -> 0 <= dist -> visits n dist 0 = 0.
Proof.
  intros Hn Hd. unfold visits. rewrite Z.div_0_l, Z.mod_0_l by lia.
  destruct (Z.ltb_spec dist 0); lia.
Qed.

Lemma visits_bound n dist r u : 0 < n -> 0 <= dist < n -> 0 <= r <= u * n + dist ->
  0 <= visits n dist r <= u.
Proof.
  intros Hn Hd Hr. unfold visits. pose proof (Z.div_mod r n ltac:(lia)) as E.
  pose proof (Z.mod_pos_bound r n Hn) as B. pose proof (Z.div_pos r n ltac:(lia) Hn).
  destruct (Z.ltb_spec dist (r mod n)); [assert (r / n < u) by nia|assert (r / n <= u) by nia]; lia.
Qed.

Lemma visits_here n r : 0 < n -> 0 <= r -> visits n (r mod n) r = r / n.
Proof. intros Hn Hr. unfold visits. destruct (Z.ltb_spec (r mod n) (r mod n)); lia. Qed.

Lemma lower_word s k :
  wf_state s -> 0 <= k <= usage s ->
  let s' := s - k * BUF_USAGECOUNT_ONE in
  wf_state s' /\ refcount s' = refcount s /\ usage s' = usage s - k /\ s' / 2 ^ 22 = s / 2 ^ 22.
Proof.
  intros Hs Hk. cbv zeta. destruct (parts_word s Hs) as (E & Hc & Hu & Hh).
  assert (s - k * BUF_USAGECOUNT_ONE = word_of (refcount s) (usage s - k) (s / 2 ^ 22)) as ->.
  { change BUF_USAGECOUNT_ONE with (2 ^ 18). rewrite E at 1. unfold word_of. lia. }
  apply word_of_parts; lia.
Qed.

Lemma lookupZ_ext {A} (l k : list A) : (forall i, lookupZ l i = lookupZ k i) -> l = k.
Proof.
  intros H. apply list_eq. intros i. specialize (H (Z.of_nat i)). unfold lookupZ in H.
  rewrite (proj2 (Z.leb_le 0 _)), Nat2Z.id in H by lia. done.
Qed.

Lemma lookup_swept r l i :
  lookupZ (swept_descs r l) i = swept_desc r l i <$> lookupZ (LocalBufferDescriptors l) i.
Proof.
  unfold lookupZ, swept_descs. destruct (Z.leb_spec 0 i); [|done].
  rewrite list_lookup_imap, Z2Nat.id by done. done.
Qed.

Section sweep.
Context (l : LocalBuffers).
Hypothesis Hn : 0 < NLocBuffer l.
Hypothesis Hnext : 0 <= nextFreeLocalBufId l < NLocBuffer l.
Local Abbreviation n := (NLocBuffer l).
Definition hand (r : Z) : Z := (nextFreeLocalBufId l + r) mod n.

Lemma hand_dist_range i : 0 <= hand_dist l i < n.
Proof using Hn. by apply Z.mod_pos_bound. Qed.

Lemma hand_dist_iff i r : 0 <= i < n -> r mod n = hand_dist l i <-> hand r = i.
Proof using All.
  intros Hi. unfold hand_dist, hand. split.
  - intros E. rewrite <- Z.add_mod_idemp_r, E, Z.add_mod_idemp_r by lia.
    replace (nextFreeLocalBufId l + (i - nextFreeLocalBufId l)) with i by lia. by apply Z.mod_small.
  - intros <-. rewrite Zminus_mod_idemp_l. f_equal. lia.
Qed.

Lemma hand_succ r : 0 <= r -> hand (r + 1) = if hand r + 1 >=? n then 0 else hand r + 1.
Proof using All.
  intros Hr. unfold hand. rewrite Z.geb_leb, Z.add_assoc.
  destruct (div_mod_succ n (nextFreeLocalBufId l + r)) as [(E & _ & ->)|(E & _ & ->)]; [lia..| |];
    destruct (Z.leb_spec n ((nextFreeLocalBufId l + r) mod n + 1)); lia.
Qed.

(** One round on an unpinned and on a pinned buffer. *)
Lemma swept_desc_succ r i d :
  0 <= r -> 0 <= i < n ->
  swept_desc (r + 1) l i d =
    if (default 0 (lookupZ (LocalRefCount l) i) =? 0) && (hand r =? i)
    then lower 1 (swept_desc r l i d) else swept_desc r l i d.
Proof using All.
  intros Hr Hi. unfold swept_desc. destruct (default 0 _ =? 0); [|done]. cbn [andb].
  rewrite visits_succ by (try done; apply hand_dist_range).
  pose proof (hand_dist_iff i r Hi) as Hiff.
  destruct (Z.eqb_spec (r mod n) (hand_dist l i)) as [E|E], (Z.eqb_spec (hand r) i) as [E'|E']; try tauto.
  - unfold lower. cbn. destruct d; cbn. unfold with_state. cbn. f_equal. lia.
  - by rewrite Z.add_0_r.
Qed.

Lemma swept_descs_succ r d :
  0 <= r -> lookupZ (LocalBufferDescriptors l) (hand r) = Some d ->
  Z.of_nat (length (LocalBufferDescriptors l)) = n ->
  swept_descs (r + 1) l =
    if default 0 (lookupZ (LocalRefCount l) (hand r)) =? 0
    then insertZ (hand r) (lower 1 (swept_desc r l (hand r) d)) (swept_descs r l)
    else swept_descs r l.
Proof using All.
  intros Hr Hd Hlen. apply lookupZ_ext. intros i.
  assert (lookupZ (swept_descs r l) (hand r) = Some (swept_desc r l (hand r) d)) as Hh
    by (by rewrite lookup_swept, Hd). apply lookupZ_Some in Hh.
  destruct (lookupZ (LocalBufferDescriptors l) i) as [e|] eqn:Ei.
  - pose proof (lookupZ_Some _ _ _ Ei). rewrite lookup_swept, Ei. cbn. rewrite swept_desc_succ by lia.
    destruct (Z.eqb_spec (hand r) i) as [<-|Hne].
    + rewrite andb_true_r. assert (e = d) as -> by congruence.
      case_match; [by rewrite lookupZ_insertZ_eq|by rewrite lookup_swept, Ei].
    + rewrite andb_false_r. case_match; rewrite ?lookupZ_insertZ_ne by done; by rewrite lookup_swept, Ei.
  - rewrite lookup_swept, Ei. case_match; [|by rewrite lookup_swept, Ei].
    rewrite lookupZ_insertZ_ne by congruence. by rewrite lookup_swept, Ei.
Qed.
End sweep.

Lemma least {A} (f : A -> Z) (xs : list A) : xs = [] \/ exists x, x ∈ xs /\ forall y, y ∈ xs -> f x <= f y.
Proof.
  induction xs as [|x xs [->|(y & Hy & Hmin)]]; [by left|right..].
  - exists x. split; [set_solver|]. intros y ->%list_elem_of_singleton. lia.
  - destruct (Z.le_gt_cases (f x) (f y)) as [Hle|Hgt].
    + exists x. split; [set_solver|]. intros z [->|Hz]%elem_of_cons; [lia|]. specialize (Hmin z Hz). lia.
    + exists y. split; [set_solver|]. intros z [->|Hz]%elem_of_cons; [lia|]. by apply Hmin.
Qed.

Section alloc.
Context (same_page : Z -> Z -> Prop) `{!Equivalence same_page}.
Local Abbreviation local_ok := (local_ok same_page).
Local Abbreviation slot_ok := (slot_ok same_page).
Local Abbreviation same_view := (same_view same_page).
Context (pgaio_wref_wait : Z -> M unit) (PageSetChecksumInplace : Z -> Z -> Z).
Hypothesis checksum_only : forall page blkno, same_page page (PageSetChecksumInplace page blkno).

(** ** Invalidation *)
Definition wiped (s : Z) : Z := Z.land (Z.land s (not64 BUF_FLAG_MASK)) (not64 BUF_USAGECOUNT_MASK).

Lemma wiped_eq s : wf_state s -> wiped s = Z.ldiff (Z.ldiff s BUF_FLAG_MASK) BUF_USAGECOUNT_MASK.
Proof using Type.
  intros Hs. unfold wiped. rewrite (land_not64 s) by done. apply land_not64, (wf_ldiff s _ Hs).
Qed.

Lemma wiped_spec s :
  wf_state s -> wf_state (wiped s) /\ refcount (wiped s) = refcount s /\ usage (wiped s) = 0 /\
    flag (wiped s) BM_DIRTY = false /\ flag (wiped s) BM_VALID = false /\
    flag (wiped s) BM_TAG_VALID = false.
Proof using Type.
  intros Hs. rewrite wiped_eq by done. split; [by apply wf_ldiff, wf_ldiff|].
  split_and!; try by flags.
  - rewrite !refcount_field. by rewrite !field_ldiff.
  - rewrite !usage_field. by apply field_ldiff_all.
Qed.

Definition invalidated (i : Z) (d : BufferDesc) (c : Z) (h : gmap BufferTag Z) (l : LocalBuffers)
    : LocalBuffers :=
  put i (with_state (wiped (state d)) (with_tag (ClearBufferTag (tag d)) d)) c (delete (tag d) h) l.

Lemma invalidated_ok l i d c p h :
  local_ok l -> slot l i d c p -> LocalBufHash l = Some h -> flag (state d) BM_TAG_VALID = true ->
  local_ok (invalidated i d c h l) /\
  (flag (state d) BM_DIRTY = false -> same_view l (invalidated i d c h l)).
Proof using Equivalence0.
  intros Hok Hs Hh Ht. destruct (lo_slots _ _ Hok _ _ _ _ Hs) as [Hid Hwf Hio Hc0 Hpin Hu _ _ _].
  destruct (wiped_spec (state d) Hwf) as (H1 & H2 & H3 & H4 & H5 & H6). split.
  - eapply local_ok_put_delete; [done|done| |done..]. split; cbn; try done; try congruence.
    rewrite H3. by vm_compute.
  - intros Hd. by eapply same_view_put_delete.
Qed.

Lemma InvalidateLocalBuffer_run w i d c p h check :
  slot (loc w) i d c p -> slot_ok (loc w) i d c p -> LocalBufHash (loc w) = Some h ->
  tagged (loc w) (tag d) i -> h !! tag d = Some i ->
  InvalidateLocalBuffer pgaio_wref_wait i check w =
  if check && negb (c =? 0) then (Elog "block is still referenced", w)
  else (Ret tt, set_local (invalidated i d c h (loc w)) w).
Proof using Type.
  intros (Hd & Hcnt & Hp) [Hid Hwf Hio Hc0 Hpin Hu _ _ _] Hh Ht Hi. unfold InvalidateLocalBuffer.
  run (local_deref_run w i d Hd). replace (- (buf_id d + 1) - 1) with i by lia. rewrite Hio, bind_ret_l.
  run (read_local_state_run w i d Hd). run (local_refcount_run w i c Hcnt).
  rewrite get_refcount, Hpin by apply Hwf.
  assert (negb (c =? 0) || negb (one_if c =? 0) = negb (c =? 0)) as ->
    by (unfold one_if; by destruct (c =? 0)).
  destruct (check && negb (c =? 0)); [done|].
  run (local_deref_run w i d Hd). unfold local_hash, bind at 1. unfold get_local, get_me, gets, bind.
  unfold loc in Hh. rewrite Hh. cbn -[insertZ lookupZ]. rewrite Hi.
  unfold set_local_hash, local_store, write_local_state, local_deref, modify_local, modify_me, modify,
    get_local, get_me, gets, bind. cbn -[insertZ lookupZ].
  rewrite lookupZ_insertZ_eq by (by apply lookupZ_Some in Hd). cbn -[insertZ lookupZ].
  unfold local_store, modify_local, modify_me, modify, set_local, upd_me. cbn -[insertZ lookupZ]. rewrite insertZ_insertZ. f_equal.
  unfold with_me. f_equal. unfold with_local. cbn -[insertZ lookupZ]. f_equal. unfold loc, invalidated, put in *.
  rewrite Hcnt, (insertZ_id i c _ Hcnt). change (default 0 (Some c)) with c.
  destruct (local (me w)); cbn in *. local_eq. lia.
Qed.

(** ** The victim search *)
Section search.
Context (l : LocalBuffers) (w : World).
Hypothesis Hok : local_ok l.
Local Abbreviation n := (NLocBuffer l).
Definition at_round (r : Z) : World := set_local (swept r l) w.
Definition hand_moved (r : Z) : World :=
  set_local (with_nextFreeLocalBufId (hand l (r + 1)) (swept r l)) w.

Lemma n_pos : 0 < n.
Proof using Hok. pose proof (lo_next _ _ Hok). lia. Qed.
Lemma hand_range r : 0 <= hand l r < n.
Proof using Hok. apply Z.mod_pos_bound, n_pos. Qed.

Lemma local_round_start t r d c p :
  0 <= r -> slot l (hand l r) d c p ->
  local_victim_round t (at_round r) =
    (if c =? 0 then
       let* buf_state := read_local_state (hand l r) in
       if 0 <? BUF_STATE_GET_USAGECOUNT buf_state then
         write_local_state (hand l r) (u64 (buf_state - BUF_USAGECOUNT_ONE)) ;; ret (Continue n)
       else if 0 <? BUF_STATE_GET_REFCOUNT buf_state then ret (Continue t)
       else PinLocalBuffer (hand l r) false ;; ret (Break (hand l r))
     else if t - 1 =? 0 then elog "no empty local buffer available"
     else ret (Continue (t - 1))) (hand_moved r).
Proof using Hok.
  intros Hr (Hd & Hc & Hp). unfold local_victim_round, GetLocalBufferDescriptor.
  run (eq_refl (get_local nextFreeLocalBufId (at_round r))). run (eq_refl (get_local NLocBuffer (at_round r))).
  change (nextFreeLocalBufId (local (me (at_round r)))) with (hand l r).
  change (NLocBuffer (local (me (at_round r)))) with n.
  rewrite <- (hand_succ l n_pos (lo_next _ _ Hok) r Hr).
  assert (modify_local (with_nextFreeLocalBufId (hand l (r + 1))) (at_round r) = (Ret tt, hand_moved r)) as Hmod
    by done. run Hmod.
  by run (local_refcount_run (hand_moved r) (hand l r) c Hc).
Qed.

Lemma swept_pinned r d c p :
  0 <= r -> slot l (hand l r) d c p -> c <> 0 -> hand_moved r = at_round (r + 1).
Proof using Hok.
  intros Hr (Hd & Hcnt & _) Hc. unfold hand_moved, at_round, swept.
  rewrite (swept_descs_succ l n_pos (lo_next _ _ Hok) r d Hr Hd (lo_descs _ _ Hok)).
  rewrite Hcnt. change (default 0 (Some c)) with c. by replace (c =? 0) with false by lia.
Qed.

Lemma round_pinned t r d c p :
  0 <= r -> slot l (hand l r) d c p -> c <> 0 -> t <> 1 ->
  local_victim_round t (at_round r) = (Ret (Continue (t - 1)), at_round (r + 1)).
Proof using Hok.
  intros Hr Hs Hc Ht. rewrite (local_round_start t r d c p Hr Hs).
  replace (c =? 0) with false by lia. replace (t - 1 =? 0) with false by lia.
  unfold ret. by rewrite (swept_pinned r d c p Hr Hs Hc).
Qed.

Lemma swept_word r i d p :
  slot l i d 0 p -> 0 <= r <= rank l i d ->
  let d' := swept_desc r l i d in let k := visits n (hand_dist l i) r in
  0 <= k <= usage (state d) /\
  wf_state (state d') /\ refcount (state d') = 0 /\ usage (state d') = usage (state d) - k /\
  state d' / 2 ^ 22 = state d / 2 ^ 22.
Proof using Hok.
  intros Hs Hr d' k. pose proof (lo_slots _ _ Hok _ _ _ _ Hs) as [_ Hwf _ _ Hpin _ _ _ _].
  assert (0 <= k <= usage (state d)) as Hk.
  { apply visits_bound; [apply n_pos|apply hand_dist_range, n_pos|]. done. }
  assert (d' = lower k d) as ->.
  { unfold d', swept_desc. destruct Hs as (_ & -> & _). done. }
  destruct (lower_word (state d) k Hwf Hk) as (H1 & H2 & H3 & H4). cbn. by rewrite H2.
Qed.

Lemma visits_at_hand r : 0 <= r -> visits n (hand_dist l (hand l r)) r = r / n.
Proof using Hok.
  intros Hr. rewrite <- (proj2 (hand_dist_iff l n_pos (lo_next _ _ Hok) _ r (hand_range r)) eq_refl).
  apply visits_here; [apply n_pos|done].
Qed.

Lemma hand_moved_desc r i d :
  lookupZ (LocalBufferDescriptors l) i = Some d ->
  lookupZ (LocalBufferDescriptors (loc (hand_moved r))) i = Some (swept_desc r l i d).
Proof using Type. intros Hd. cbn. by rewrite lookup_swept, Hd. Qed.

Lemma round_used t r d p :
  0 <= r -> slot l (hand l r) d 0 p -> r <= rank l (hand l r) d -> r / n < usage (state d) ->
  local_victim_round t (at_round r) = (Ret (Continue n), at_round (r + 1)).
Proof using Hok.
  intros Hr Hs Hrank Hu. rewrite (local_round_start t r d 0 p Hr Hs). cbn iota.
  destruct (swept_word r _ d p Hs (conj Hr Hrank)) as (Hk & H1 & H2 & H3 & H4).
  rewrite visits_at_hand in * by done. destruct Hs as (Hd & Hc & _).
  pose proof (hand_moved_desc r _ _ Hd) as Hd'. set (d' := swept_desc r l (hand l r) d) in *.
  change (0 =? 0) with true. cbn iota. run (read_local_state_run _ _ _ Hd'). rewrite get_usagecount by apply H1.
  replace (0 <? usage (state d')) with true by lia. run (write_local_state_run _ _ _ (u64 (state d' - BUF_USAGECOUNT_ONE)) Hd').
  unfold ret. f_equal. unfold at_round, swept.
  rewrite (swept_descs_succ l n_pos (lo_next _ _ Hok) r d Hr Hd (lo_descs _ _ Hok)), Hc. fold d'.
  change (default 0 (Some 0) =? 0) with true. cbn iota. unfold lower.
  destruct (lower_word (state d') 1 H1 ltac:(lia)) as (W & _). rewrite Z.mul_1_l in *.
  by rewrite (u64_small _ W).
Qed.

(** Nobody would have been taken before round [r]. *)
Definition before_first (r : Z) : Prop := forall i d p, slot l i d 0 p -> r <= rank l i d.
Definition passed (r : Z) : LocalBuffers := with_nextFreeLocalBufId (hand l (r + 1)) (swept r l).

Lemma slot_passed r i e c p :
  slot (passed r) i e c p <-> exists d, slot l i d c p /\ e = swept_desc r l i d.
Proof using Type.
  unfold slot. cbn. rewrite lookup_swept. split.
  - intros (He & Hc & Hp). destruct (lookupZ (LocalBufferDescriptors l) i) as [d|] eqn:Hd; [|done].
    injection He as <-. by exists d.
  - by intros (d & (-> & -> & ->) & ->).
Qed.

Lemma swept_desc_rest r i d c p :
  0 <= r -> before_first r -> slot l i d c p ->
  let d' := swept_desc r l i d in
  slot_ok l i d' c p /\ tag d' = tag d /\ state d' / 2 ^ 22 = state d / 2 ^ 22.
Proof using Hok.
  intros Hr Hb Hs d'. pose proof (lo_slots _ _ Hok _ _ _ _ Hs) as Hso. destruct (Z.eqb_spec c 0) as [->|Hne].
  - destruct (swept_word r i d p Hs (conj Hr (Hb _ _ _ Hs))) as (Hk & H1 & H2 & H3 & H4). fold d' in H1, H2, H3, H4.
    assert (d' = with_state (state d') d) as Ed.
    { unfold d', swept_desc. destruct Hs as (_ & -> & _). done. }
    split_and!; [|by rewrite Ed|done]. rewrite Ed. pose proof (so_usage _ _ _ _ _ _ Hso).
    eapply slot_ok_state; [done|done|done|done|lia|done].
  - assert (d' = d) as ->; [|done]. unfold d', swept_desc. destruct Hs as (_ & -> & _).
    change (default 0 (Some c)) with c. by replace (c =? 0) with false by lia.
Qed.

Lemma tagged_passed r t i : 0 <= r -> before_first r -> tagged (passed r) t i <-> tagged l t i.
Proof using Hok.
  intros Hr Hb. unfold tagged. cbn. rewrite lookup_swept. split.
  - intros (e & He & Hv & Ht). destruct (lookupZ (LocalBufferDescriptors l) i) as [d|] eqn:Hd; [|done].
    injection He as <-. exists d. destruct (slot_at _ l i Hok) as (d' & c & p & Hs).
    { apply lookupZ_Some in Hd. by rewrite <- (lo_descs _ _ Hok). }
    assert (d' = d) as -> by (destruct Hs; congruence).
    destruct (swept_desc_rest r i d c p Hr Hb Hs) as (_ & E1 & E2).
    destruct (flags_same _ _ E2) as (F1 & _). by rewrite <- E1, <- F1.
  - intros (d & Hd & Hv & Ht). rewrite Hd. exists (swept_desc r l i d). split; [done|].
    destruct (slot_at _ l i Hok) as (d' & c & p & Hs).
    { apply lookupZ_Some in Hd. by rewrite <- (lo_descs _ _ Hok). }
    assert (d' = d) as -> by (destruct Hs; congruence).
    destruct (swept_desc_rest r i d c p Hr Hb Hs) as (_ & E1 & E2).
    destruct (flags_same _ _ E2) as (F1 & _). by rewrite E1, F1.
Qed.

Lemma passed_ok r : 0 <= r -> before_first r -> local_ok (passed r) /\ same_view l (passed r).
Proof using Hok Equivalence0.
  intros Hr Hb. split.
  - pose proof Hok as [H1 H2 H3 H4 H5 H6 H7 [S1 S2 S3 S4 S5]]. split; cbn; try done.
    + unfold swept_descs. by rewrite length_imap.
    + apply hand_range.
    + intros i e c p Hs. apply slot_passed in Hs as (d & Hs & ->).
      apply (slot_ok_ext _ l); [done..|]. by apply swept_desc_rest.
    + destruct H6 as (h & Hh & Hmap). exists h. split; [done|]. intros t i.
      change (tagged _ t i) with (tagged (passed r) t i). rewrite tagged_passed by done. apply Hmap.
  - intros t. unfold view. cbn. destruct (default ∅ (LocalBufHash l) !! t) as [i|]; [|reflexivity].
    rewrite lookup_swept. destruct (lookupZ (LocalBufferDescriptors l) i) as [d|] eqn:Hd; [|reflexivity].
    cbn. destruct (lookupZ (LocalBufferBlockPointers l) i) as [p|] eqn:Hp; [|reflexivity].
    destruct (slot_at _ l i Hok) as (d' & c & p' & Hs).
    { apply lookupZ_Some in Hd. by rewrite <- (lo_descs _ _ Hok). }
    assert (d' = d /\ p' = p) as [-> ->] by (destruct Hs as (? & ? & ?); split; congruence).
    destruct (swept_desc_rest r i d c p Hr Hb Hs) as (_ & _ & E2).
    destruct (flags_same _ _ E2) as (_ & -> & _). reflexivity.
Qed.

(** The buffer [k] is claimed in round [r]. *)
Definition taken (h : gmap BufferTag Z) (r k : Z) (d : BufferDesc) : World :=
  set_pins ((- k - 1) :: owned_pins (me w))
    (set_local (local_pin k false (swept_desc r l k d) 0 h (passed r)) w).

Lemma round_take h t r d p :
  0 <= r -> before_first r -> LocalBufHash l = Some h ->
  slot l (hand l r) d 0 p -> usage (state d) = r / n ->
  local_victim_round t (at_round r) = (Ret (Break (hand l r)), taken h r (hand l r) d).
Proof using Hok Equivalence0.
  intros Hr Hb Hh Hs Hu. rewrite (local_round_start t r d 0 p Hr Hs). change (0 =? 0) with true. cbn iota.
  destruct (swept_word r _ d p Hs (conj Hr (Hb _ _ _ Hs))) as (Hk & H1 & H2 & H3 & H4).
  rewrite visits_at_hand in * by done. pose proof Hs as (Hd & Hc & Hp).
  pose proof (hand_moved_desc r _ _ Hd) as Hd'. run (read_local_state_run _ _ _ Hd').
  rewrite get_usagecount, get_refcount, H2, H3, Hu by apply H1. rewrite Z.sub_diag. cbn -[PinLocalBuffer].
  assert (slot (loc (hand_moved r)) (hand l r) (swept_desc r l (hand l r) d) 0 p) as Hs'.
  { apply (slot_passed r). by exists d. }
  pose proof (lo_slots _ _ (proj1 (passed_ok r Hr Hb)) _ _ _ _ Hs') as Hso'.
  by run (PinLocalBuffer_run same_page (hand_moved r) (hand l r) false _ 0 p h Hs' Hso' ltac:(lia) Hh).
Qed.

(** Every buffer is pinned: [NLocBuffer] rounds, then an error. *)
Lemma search_full m : forall t r,
  (forall i d c p, slot l i d c p -> c <> 0) -> 0 <= r -> t = Z.of_nat m + 1 ->
  iter_fuel (S m) local_victim_round t (at_round r) =
    (Elog "no empty local buffer available", at_round (r + t)).
Proof using Hok.
  induction m as [|m IH]; intros t r Hall Hr ->; destruct (slot_at _ l _ Hok (hand_range r)) as (d & c & p & Hs);
    pose proof (Hall _ _ _ _ Hs) as Hc.
  - apply iter_elog. rewrite (local_round_start _ r d c p Hr Hs). replace (c =? 0) with false by lia.
    unfold elog. cbn. by rewrite (swept_pinned r d c p Hr Hs Hc).
  - rewrite (iter_continue _ _ _ _ _ _ (round_pinned (Z.of_nat (S m) + 1) r d c p Hr Hs Hc ltac:(lia))).
    rewrite IH; [|done|lia|lia]. do 2 f_equal. lia.
Qed.

(** The distance to a buffer that is not the next one. *)
Lemma dist_step k r :
  0 <= k < n -> hand l r <> k ->
  0 < (k - nextFreeLocalBufId l - r) mod n /\
  (k - nextFreeLocalBufId l - (r + 1)) mod n = (k - nextFreeLocalBufId l - r) mod n - 1.
Proof using Hok.
  intros Hk Hne. pose proof n_pos as Hn. set (x := k - nextFreeLocalBufId l - r).
  pose proof (Z.mod_pos_bound x n Hn) as Hx. pose proof (Z.div_mod x n ltac:(lia)) as E.
  assert (x mod n <> 0) as H0.
  { intros E0. apply Hne. unfold hand. replace (nextFreeLocalBufId l + r) with (k + (- (x / n)) * n) by lia.
    rewrite Z.mod_add by lia. by apply Z.mod_small. }
  split; [lia|]. replace (k - nextFreeLocalBufId l - (r + 1)) with (x - 1) by lia.
  symmetry. apply (Z.mod_unique _ _ (x / n)); lia.
Qed.

(** The first buffer in the order of [rank] is taken, in its round. *)
Lemma search_loop h k d p m : forall fuel t r,
  LocalBufHash l = Some h -> slot l k d 0 p -> before_first (rank l k d) ->
  0 <= r -> r + Z.of_nat m = rank l k d -> (m < fuel)%nat -> (k - nextFreeLocalBufId l - r) mod n < t <= n ->
  iter_fuel fuel local_victim_round t (at_round r) = (Ret k, taken h (rank l k d) k d).
Proof using Hok Equivalence0.
  induction m as [|m IH]; intros fuel t r Hh Hk Hb Hr Hm Hf Ht; (destruct fuel as [|fuel]; [lia|]);
    pose proof n_pos as Hn; pose proof (slot_range _ _ _ _ _ _ Hok Hk) as Hkr;
    pose proof (hand_dist_range l Hn k) as Hdist.
  - assert (r = rank l k d) as -> by lia.
    assert (hand l (rank l k d) = k) as Hhand.
    { apply hand_dist_iff; [done|by apply Hok|done|]. unfold rank.
      rewrite Z.add_comm, Z.mod_add by lia. by apply Z.mod_small. }
    assert (rank l k d / n = usage (state d)) as Hq.
    { unfold rank. rewrite Z.add_comm, Z.div_add, (Z.div_small (hand_dist l k)) by lia. lia. }
    pose proof (round_take h t (rank l k d) d p Hr Hb Hh) as Htake. rewrite Hhand in Htake.
    apply iter_break, Htake; [done|lia].
  - destruct (slot_at _ l _ Hok (hand_range r)) as (e & c & q & Hs).
    assert (r mod n = hand_dist l (hand l r)) as Hmod
      by (by apply hand_dist_iff; [..|apply hand_range|]; [|apply Hok|]).
    destruct (Z.eqb_spec c 0) as [->|Hne].
    + pose proof (Hb _ _ _ Hs) as Hle. unfold rank in Hle at 2. rewrite <- Hmod in Hle.
      pose proof (Z.div_mod r n ltac:(lia)). assert (r / n < usage (state e)) as Hu by nia.
      rewrite (iter_continue _ _ _ _ _ _ (round_used t r e q Hr Hs ltac:(unfold rank; rewrite <- Hmod; nia) Hu)).
      apply IH; try done; try lia. pose proof (Z.mod_pos_bound (k - nextFreeLocalBufId l - (r + 1)) n Hn). lia.
    + assert (hand l r <> k) as Hnk.
      { intros E. rewrite E in Hs. destruct Hs as (_ & Hc & _), Hk as (_ & Hc' & _). congruence. }
      destruct (dist_step k r) as [Hpos Hnext]; [done..|].
      rewrite (iter_continue _ _ _ _ _ _ (round_pinned t r e c q Hr Hs Hne ltac:(lia))).
      apply IH; try done; lia.
Qed.
End search.

Lemma swept_full l :
  local_ok l -> (forall i d c p, slot l i d c p -> c <> 0) -> swept (NLocBuffer l) l = l.
Proof using Type.
  intros Hok Hall. pose proof (lo_next _ _ Hok) as Hn.
  assert (swept_descs (NLocBuffer l) l = LocalBufferDescriptors l) as Hd.
  { apply lookupZ_ext. intros i. rewrite lookup_swept.
    destruct (lookupZ (LocalBufferDescriptors l) i) as [d|] eqn:Hd; [|done]. cbn. f_equal.
    destruct (slot_at _ l i Hok) as (d' & c & p & Hs).
    { apply lookupZ_Some in Hd. by rewrite <- (lo_descs _ _ Hok). }
    pose proof (Hall _ _ _ _ Hs). destruct Hs as (_ & Hc & _). unfold swept_desc. rewrite Hc.
    change (default 0 (Some c)) with c. by replace (c =? 0) with false by lia. }
  unfold swept, hand_at. rewrite Hd.
  replace (nextFreeLocalBufId l + NLocBuffer l) with (nextFreeLocalBufId l + 1 * NLocBuffer l) by lia.
  rewrite Z.mod_add, Z.mod_small by lia. by destruct l.
Qed.

Lemma swept_start l : local_ok l -> swept 0 l = l.
Proof using Type.
  intros Hok. pose proof (lo_next _ _ Hok) as Hn.
  assert (swept_descs 0 l = LocalBufferDescriptors l) as Hd.
  { apply lookupZ_ext. intros i. rewrite lookup_swept.
    destruct (lookupZ (LocalBufferDescriptors l) i) as [d|]; [|done]. cbn. f_equal.
    unfold swept_desc. case_match; [|done].
    rewrite visits_0 by (try lia; apply hand_dist_range; lia). unfold lower. rewrite Z.mul_0_l, Z.sub_0_r.
    by destruct d. }
  unfold swept, hand_at. rewrite Hd, Z.add_0_r, Z.mod_small by lia. by destruct l.
Qed.

Lemma set_local_id w : set_local (loc w) w = w.
Proof using Type. by destruct w as [? [] ?]. Qed.

(** The rounds that are enough: every count is at most [BM_MAX_USAGE_COUNT]. *)
Definition enough_rounds (w : World) : Prop :=
  (BM_MAX_USAGE_COUNT + 1) * NLocBuffer (loc w) <= Z.of_nat (gas (me w)).

Lemma rank_bound l i d c p :
  local_ok l -> slot l i d c p -> 0 <= rank l i d < (BM_MAX_USAGE_COUNT + 1) * NLocBuffer l.
Proof using Type.
  intros Hok Hs. pose proof (so_usage _ _ _ _ _ _ (lo_slots _ _ Hok _ _ _ _ Hs)) as Hu.
  pose proof (lo_next _ _ Hok). pose proof (hand_dist_range l ltac:(lia) i) as Hd.
  pose proof (usage_range (state d)). unfold rank, BM_MAX_USAGE_COUNT in *. nia.
Qed.

Lemma search_none w :
  local_ok (loc w) -> enough_rounds w -> (forall i d c p, slot (loc w) i d c p -> c <> 0) ->
  local_victim_search w = (Elog "no empty local buffer available", w).
Proof using Type.
  intros Hok Hgas Hall. pose proof (lo_next _ _ Hok) as Hn. unfold local_victim_search.
  run (eq_refl (get_local NLocBuffer w)). change (NLocBuffer (local (me w))) with (NLocBuffer (loc w)).
  assert (forall fuel m t w0 e w1, (S m <= fuel)%nat ->
    iter_fuel (S m) local_victim_round t w0 = (Elog e, w1) ->
    iter_fuel fuel local_victim_round t w0 = (Elog e, w1)) as Hmore.
  { clear. intros fuel m. revert fuel. induction m as [|m IH]; intros fuel t w0 e w1 Hf;
      (destruct fuel as [|fuel]; [lia|]); cbn -[local_victim_round]; unfold bind;
      destruct (local_victim_round t w0) as [[[s|r]|?|?|] ?]; try done. apply (IH fuel). lia. }
  unfold forever. unfold enough_rounds, BM_MAX_USAGE_COUNT in Hgas.
  apply (Hmore _ (Z.to_nat (NLocBuffer (loc w) - 1))); [lia|].
  pose proof (search_full (loc w) w Hok (Z.to_nat (NLocBuffer (loc w) - 1)) (NLocBuffer (loc w)) 0 Hall) as Hrun.
  unfold at_round in Hrun. rewrite (swept_start _ Hok), Z.add_0_l, (swept_full _ Hok Hall), set_local_id in Hrun.
  apply Hrun; lia.
Qed.

Lemma local_search_first w h k d p :
  local_ok (loc w) -> enough_rounds w -> LocalBufHash (loc w) = Some h ->
  slot (loc w) k d 0 p -> before_first (loc w) (rank (loc w) k d) ->
  local_victim_search w = (Ret k, taken (loc w) w h (rank (loc w) k d) k d).
Proof using Equivalence0.
  intros Hok Hgas Hh Hs Hb. pose proof (lo_next _ _ Hok) as Hn. unfold local_victim_search.
  run (eq_refl (get_local NLocBuffer w)). unfold forever.
  pose proof (rank_bound _ _ _ _ _ Hok Hs) as Hr. unfold enough_rounds in Hgas.
  pose proof (search_loop (loc w) w Hok h k d p (Z.to_nat (rank (loc w) k d)) (gas (me w)) (NLocBuffer (loc w)) 0) as Hrun.
  unfold at_round in Hrun. rewrite (swept_start _ Hok), set_local_id in Hrun. apply Hrun; try done; try lia.
  pose proof (Z.mod_pos_bound (k - nextFreeLocalBufId (loc w) - 0) (NLocBuffer (loc w))). lia.
Qed.

(** Either every buffer is pinned or one of them is the first to be taken. *)
Lemma victim_cases l :
  local_ok l ->
  (forall i d c p, slot l i d c p -> c <> 0) \/
  exists k d p, slot l k d 0 p /\ before_first l (rank l k d).
Proof using Type.
  intros Hok.
  set (f i := match lookupZ (LocalBufferDescriptors l) i with Some d => rank l i d | None => 0 end).
  destruct (least f (filter (fun i => lookupZ (LocalRefCount l) i = Some 0) (seqZ 0 (NLocBuffer l))))
    as [Hnil|(k & Hk & Hmin)].
  - left. intros i d c p Hs ->. pose proof (slot_range _ _ _ _ _ _ Hok Hs).
    apply (not_elem_of_nil i). rewrite <- Hnil. apply list_elem_of_filter.
    split; [by destruct Hs as (_ & ? & _)|]. apply elem_of_seqZ. lia.
  - right. apply list_elem_of_filter in Hk as [Hc Hk%elem_of_seqZ].
    destruct (slot_at _ l k Hok ltac:(lia)) as (d & c & p & Hs).
    assert (c = 0) as -> by (destruct Hs as (_ & ? & _); congruence). exists k, d, p. split; [done|].
    intros i e q Hi. specialize (Hmin i). unfold f in Hmin. destruct Hs as (Hd & _), Hi as (He & Hci & ?).
    rewrite Hd, He in Hmin. apply Hmin. apply list_elem_of_filter. split; [done|].
    apply lookupZ_Some in He. apply elem_of_seqZ. pose proof (lo_descs _ _ Hok). lia.
Qed.
End alloc.
