(* ===== verification/LocalCache.v ===== *)
(** * The local buffers as a cache

    [GetLocalVictimBuffer], [LocalBufferAlloc], the pins and the drop functions
    of [localbuf.c]: whatever they do to the buffers, the contents of the
    temporary tables stay what they were. *)
From S2P Require Import Prelude BufState BufTag Shmem Concurrency PrivateRefCount LocalBuf LocalInv LocalRun LocalAlloc.
From S2P Require Import Ring Sample.

(** ** Starting the local buffer manager *)
Definition started (l : LocalBuffers) : LocalBuffers :=
  with_NLocBuffer (num_temp_buffers l) (with_LocalBufHash (Some ∅) (with_nextFreeLocalBufId 0
    (with_LocalRefCount (replicate (Z.to_nat (num_temp_buffers l)) 0)
    (with_LocalBufferBlockPointers (replicate (Z.to_nat (num_temp_buffers l)) None)
    (with_LocalBufferDescriptors (init_local_desc <$> seqZ 0 (num_temp_buffers l)) l))))).
(** The first access starts it. *)
Definition opened (l : LocalBuffers) : LocalBuffers :=
  match LocalBufHash l with Some _ => l | None => started l end.

(** Nothing was used yet. *)
Record fresh (l : LocalBuffers) : Prop := {
  fr_hash : LocalBufHash l = None;
  fr_n : 0 < num_temp_buffers l;
  fr_npins : NLocalPinnedBuffers l = 0;
  fr_total : total_bufs_allocated l = 0;
  fr_next : next_buf_in_block l = 0;
  fr_chunk : num_bufs_in_block l = 0
}.

Lemma init_once_run w :
  IsParallelWorker (me w) = false -> init_once w = (Ret tt, set_local (opened (loc w)) w).
Proof.
  intros Hp. unfold init_once, opened. run (eq_refl (get_local LocalBufHash w)).
  change (LocalBufHash (local (me w))) with (LocalBufHash (loc w)).
  destruct (LocalBufHash (loc w)); [by destruct w as [? [] ?]|].
  unfold InitLocalBuffers, bind, get_local, get_me, gets. rewrite Hp. done.
Qed.

Lemma nonzero_replicate n : nonzero (replicate n 0) = 0.
Proof. induction n as [|n IH]; [done|]. cbn [replicate]. rewrite nonzero_cons, IH. done. Qed.

Lemma lookupZ_replicate {A} n (x y : A) i : lookupZ (replicate n x) i = Some y -> y = x.
Proof. unfold lookupZ. case_match; [|done]. by intros [-> _]%lookup_replicate. Qed.

Lemma lookupZ_seqZ {A} (f : Z -> A) n i x :
  lookupZ (f <$> seqZ 0 n) i = Some x -> x = f i.
Proof.
  unfold lookupZ. destruct (Z.leb_spec 0 i); [|done]. rewrite list_lookup_fmap.
  intros (j & [-> _]%lookup_seqZ & ->)%fmap_Some. f_equal. lia.
Qed.

Lemma started_ok same_page l : fresh l -> local_ok same_page (started l).
Proof.
  intros [H1 H2 H3 H4 H5 H6]. unfold started. split; cbn.
  - rewrite length_fmap, length_seqZ. lia.
  - rewrite length_replicate. lia.
  - rewrite length_replicate. lia.
  - lia.
  - intros i d c p (Hd & Hc & Hp). cbn in Hd, Hc, Hp. apply lookupZ_seqZ in Hd as ->.
    apply lookupZ_replicate in Hc as ->. apply lookupZ_replicate in Hp as ->.
    split; cbn; try done; lia.
  - exists ∅. split; [done|]. intros t i. split; [by rewrite lookup_empty|].
    intros (d & Hd & Hv & _). cbn in Hd. apply lookupZ_seqZ in Hd as ->. done.
  - by rewrite nonzero_replicate.
  - assert (forall i q, ~ lookupZ (replicate (Z.to_nat (num_temp_buffers l)) (@None (Z * Z))) i = Some (Some q)) as Hno
      by (intros i q Hq; apply lookupZ_replicate in Hq; done).
    split; cbn.
    + intros i j q Hq. by apply Hno in Hq.
    + intros i q Hq. by apply Hno in Hq.
    + rewrite fmap_replicate. cbn. by rewrite nonzero_replicate.
    + lia.
    + lia.
Qed.

Section cache.
Context (same_page : Z -> Z -> Prop) `{!Equivalence same_page}.
Local Abbreviation local_ok := (local_ok same_page).
Local Abbreviation slot_ok := (slot_ok same_page).
Local Abbreviation same_view := (same_view same_page).

(** ** Changes around one buffer

    The other buffers keep their blocks and pins, and no table changes. *)
Record around (k : Z) (l l' : LocalBuffers) : Prop := {
  ar_ok : local_ok l';
  ar_view : same_view l l';
  ar_tags : forall t i, i <> k -> tagged l' t i <-> tagged l t i;
  ar_pins : forall i, i <> k -> lookupZ (LocalRefCount l') i = lookupZ (LocalRefCount l) i;
  ar_n : NLocBuffer l' = NLocBuffer l
}.

Lemma around_refl k l : local_ok l -> around k l l.
Proof using Equivalence0. intros Hok. by split. Qed.
Lemma around_trans k l1 l2 l3 : around k l1 l2 -> around k l2 l3 -> around k l1 l3.
Proof using Equivalence0.
  intros [A1 A2 A3 A4 A5] [B1 B2 B3 B4 B5]. split; [done|by etransitivity| | |congruence].
  - intros t i Hi. by rewrite B3, A3.
  - intros i Hi. by rewrite B4, A4.
Qed.

Lemma around_put k l d c p d' c' h :
  slot l k d c p -> local_ok (put k d' c' h l) -> same_view l (put k d' c' h l) ->
  around k l (put k d' c' h l).
Proof using Type.
  intros Hs Hok Hv. split; [done|done| | |done].
  - intros t i Hi. rewrite (tagged_put _ _ _ _ _ _ _ _ _ _ Hs). tauto.
  - intros i Hi. cbn. by rewrite lookupZ_insertZ_ne.
Qed.

Lemma around_passed l k r : local_ok l -> 0 <= r -> before_first l r -> around k l (passed l r).
Proof using Equivalence0.
  intros Hok Hr Hb. destruct (passed_ok same_page l Hok r Hr Hb) as [H1 H2]. split; try done.
  intros t i _. by apply (tagged_passed same_page).
Qed.

Lemma around_grant k l d c :
  local_ok l -> slot l k d c None -> around k l (grant k l).
Proof using Equivalence0.
  intros Hok Hs. destruct (local_ok_grant same_page l k d c Hok Hs) as [H1 H2].
  assert (LocalBufferDescriptors (grant k l) = LocalBufferDescriptors l /\
    LocalRefCount (grant k l) = LocalRefCount l /\ NLocBuffer (grant k l) = NLocBuffer l) as (E1 & E2 & E3)
    by (unfold grant, grown; by case_match).
  split; [done|done| | |done].
  - intros t i _. unfold tagged. by rewrite E1.
  - intros i _. by rewrite E2.
Qed.

(** ** Taking storage *)
Lemma GetLocalBufferStorage_run w :
  total_bufs_allocated (loc w) < NLocBuffer (loc w) ->
  let g := grown (loc w) in
  GetLocalBufferStorage w = (Ret (Z.of_nat (length (local_chunks g)) - 1, next_buf_in_block g),
    set_local (with_total_bufs_allocated (total_bufs_allocated g + 1)
      (with_next_buf_in_block (next_buf_in_block g + 1) g)) w).
Proof using Type.
  intros Ht g. unfold GetLocalBufferStorage. run (eq_refl (get_local id w)).
  rewrite c_assert_ok by (apply Z.ltb_lt; exact Ht).
  unfold g, grown, when, loc. unfold id. unfold bind, modify_local, modify_me, modify, get_local, get_me, gets.
  by destruct (next_buf_in_block (local (me w)) >=? num_bufs_in_block (local (me w))).
Qed.

Lemma new_storage_run w k d c :
  local_ok (loc w) -> slot (loc w) k d c None ->
  (let* p := GetLocalBufferStorage in set_LocalBufHdrBlock d p) w =
    (Ret tt, set_local (grant k (loc w)) w) /\
  exists q, slot (grant k (loc w)) k d c (Some q).
Proof using Type.
  intros Hok Hs. pose proof (so_id _ _ _ _ _ _ (lo_slots _ _ Hok _ _ _ _ Hs)) as Hid.
  destruct Hs as (Hd & Hc & Hp). pose proof (storage_left same_page _ _ Hok Hp) as Hleft. split.
  - run (GetLocalBufferStorage_run w Hleft). unfold set_LocalBufHdrBlock. replace (- (buf_id d + 2)) with k by lia.
    done.
  - unfold grant. eexists. unfold slot. cbn. apply lookupZ_Some in Hp.
    assert (LocalBufferDescriptors (grown (loc w)) = LocalBufferDescriptors (loc w) /\
      LocalRefCount (grown (loc w)) = LocalRefCount (loc w) /\
      LocalBufferBlockPointers (grown (loc w)) = LocalBufferBlockPointers (loc w)) as (-> & -> & ->)
      by (unfold grown; by case_match).
    split_and!; [done..|by apply lookupZ_insertZ_eq].
Qed.

(** ** Victims

    Buffer [k] was claimed since [w0] and its descriptor and storage satisfy
    [P]. *)
Record holding (w0 : World) (k : Z) (P : BufferDesc -> option (Z * Z) -> Prop) (w : World) : Prop := {
  ho_private : private_only w0 w;
  ho_around : around k (loc w0) (loc w);
  ho_pins : owned_pins (me w) = (- k - 1) :: owned_pins (me w0);
  ho_slot : exists d p, slot (loc w) k d 1 p /\ P d p
}.

Lemma claim_holding w h k d p :
  local_ok (loc w) -> enough_rounds w -> LocalBufHash (loc w) = Some h ->
  slot (loc w) k d 0 p -> before_first (loc w) (rank (loc w) k d) ->
  exists w1, local_victim_search w = (Ret k, w1) /\ holding w k (fun _ _ => True) w1 /\
    smgr_faults (me w1) = smgr_faults (me w).
Proof using Equivalence0.
  intros Hok Hgas Hh Hs Hb. pose proof (local_search_first same_page w h k d p Hok Hgas Hh Hs Hb) as Hrun.
  eexists. split; [exact Hrun|]. split; [|done]. set (r := rank (loc w) k d) in *.
  assert (0 <= r) as Hr by (by apply (rank_bound same_page _ _ _ _ _ Hok Hs)).
  pose proof (around_passed (loc w) k r Hok Hr Hb) as Hpass.
  assert (slot (passed (loc w) r) k (swept_desc r (loc w) k d) 0 p) as Hs1 by (apply slot_passed; eauto).
  destruct (local_pin_ok same_page (passed (loc w) r) k false _ 0 p h (ar_ok _ _ _ Hpass) Hs1 Hh) as [Hok2 Hv2].
  split; [done| |done|].
  - eapply around_trans; [done|]. by eapply around_put.
  - eexists _, p. split; [|done]. by eapply slot_put_eq.
Qed.

Section write_back.
Context (pgaio_wref_wait : Z -> M unit) (PageSetChecksumInplace : Z -> Z -> Z).
Hypothesis checksum_only : forall page blkno, same_page page (PageSetChecksumInplace page blkno).

Lemma holding_storage w0 k w d c p :
  holding w0 k (fun _ _ => True) w -> slot (loc w) k d c p ->
  exists w1, (match p with
     | None => let* p := GetLocalBufferStorage in set_LocalBufHdrBlock d p
     | Some _ => ret tt
     end) w = (Ret tt, w1) /\
    holding w0 k (fun d' p' => d' = d /\ is_Some p') w1 /\ smgr_faults (me w1) = smgr_faults (me w).
Proof using Equivalence0.
  intros [H1 H2 H3 (d' & p' & Hs & _)] Hs'.
  assert (d' = d /\ p' = p /\ c = 1) as (-> & -> & ->)
    by (destruct Hs as (? & ? & ?), Hs' as (? & ? & ?); split_and!; congruence).
  destruct p as [q|].
  - exists w. split; [done|]. split; [|done]. split; try done. exists d, (Some q). by eauto.
  - destruct (new_storage_run w k d 1 (ar_ok _ _ _ H2) Hs) as [Hrun [q Hq]].
    eexists. split; [exact Hrun|]. split; [|done]. split.
    + etransitivity; [done|]. by destruct w as [? [] ?].
    + eapply around_trans; [done|]. eapply around_grant; [apply H2|done].
    + done.
    + exists d, (Some q). split; [exact Hq|]. by eauto.
Qed.

(** The victim is written back if it is dirty. *)
Lemma holding_flush w0 k w d q :
  holding w0 k (fun d' p' => d' = d /\ p' = Some q) w ->
  wp (when (flag (state d) BM_DIRTY)
       (FlushLocalBuffer pgaio_wref_wait PageSetChecksumInplace k None))
    (fun o w1 => match o with
     | Ret _ => holding w0 k (fun d' p' => flag (state d') BM_DIRTY = false /\ p' = Some q) w1
     | Elog _ => holding w0 k (fun _ _ => True) w1 /\ head (smgr_faults (me w)) = Some true
     | _ => False
     end) w.
Proof using Equivalence0 checksum_only.
  intros [H1 H2 H3 (d' & p' & Hs & -> & ->)]. pose proof (ar_ok _ _ _ H2) as Hok.
  destruct (flag (state d) BM_DIRTY) eqn:Hdirty; cbn [when].
  2: { apply wp_ret. split; try done. by exists d, (Some q). }
  destruct (lo_hash _ _ Hok) as (h & Hh & _). pose proof (lo_slots _ _ Hok _ _ _ _ Hs) as Hso.
  destruct (so_valid _ _ _ _ _ _ Hso (so_dirty _ _ _ _ _ _ Hso Hdirty)) as (_ & v & f & Hv & _).
  pose proof (FlushLocalBuffer_run same_page pgaio_wref_wait PageSetChecksumInplace w k d 1 q v h
    Hok Hs ltac:(lia) Hdirty Hh Hv) as Hrun. cbv zeta in Hrun.
  pose proof (checksum_only v (blockNum (tag d))) as Hck. set (v' := PageSetChecksumInplace _ _) in *.
  destruct (flushed_ok same_page (loc w) k d 1 q v v' h Hok Hs Hdirty Hh Hv Hck) as [Hok1 Hv1].
  destruct (page_set_ok same_page (loc w) k d 1 q v v' Hok Hs Hv Hck) as [Hok2 Hv2].
  assert (around k (loc w) (flushed k d 1 q v' h (loc w))) as Har.
  { unfold flushed in *. split; [done|done| | |done].
    - intros t i Hi. rewrite (tagged_put _ k d 1 (Some q)) by exact Hs. unfold tagged. cbn. tauto.
    - intros i Hi. cbn. by rewrite lookupZ_insertZ_ne. }
  assert (forall fs, holding w0 k (fun d' p' => flag (state d') BM_DIRTY = false /\ p' = Some q)
    (count_written (set_local (flushed k d 1 q v' h (loc w)) (set_faults fs w)))) as Hgood.
  { intros fs. split; [|..|by rewrite <- H3|].
    - etransitivity; [done|]. by destruct w as [? [] ?].
    - eapply around_trans; [done|exact Har].
    - eexists _, (Some q). split; [by eapply slot_put_eq|]. cbn. split; [|done].
      by apply (clean_word_spec (state d) (so_wf _ _ _ _ _ _ Hso)). }
  destruct (smgr_faults (me w)) as [|[] fs]; (eapply wp_eq; [exact Hrun|]); [apply Hgood| |apply Hgood].
  split; [|done]. split; [|..|done|].
  - etransitivity; [done|]. by destruct w as [? [] ?].
  - eapply around_trans; [done|]. by split.
  - by exists d, (Some q).
Qed.

Lemma holding_invalidate w0 k w d q :
  holding w0 k (fun d' p' => d' = d /\ p' = Some q) w -> flag (state d) BM_DIRTY = false ->
  exists w1, when (flag (state d) BM_TAG_VALID) (InvalidateLocalBuffer pgaio_wref_wait k false) w = (Ret tt, w1) /\
    holding w0 k (fun d' p' => flag (state d') BM_TAG_VALID = false /\ p' = Some q) w1.
Proof using Equivalence0.
  intros [H1 H2 H3 (d' & p' & Hs & -> & ->)] Hclean. pose proof (ar_ok _ _ _ H2) as Hok.
  destruct (flag (state d) BM_TAG_VALID) eqn:Ht; cbn [when].
  2: { exists w. split; [done|]. split; try done. by exists d, (Some q). }
  destruct (lo_hash _ _ Hok) as (h & Hh & Hmap). pose proof (lo_slots _ _ Hok _ _ _ _ Hs) as Hso.
  assert (tagged (loc w) (tag d) k) as Htag by (exists d; by destruct Hs).
  pose proof (InvalidateLocalBuffer_run same_page pgaio_wref_wait w k d 1 (Some q) h false Hs Hso Hh Htag
    (proj2 (Hmap _ _) Htag)) as Hrun. cbn [andb] in Hrun. eexists. split; [exact Hrun|].
  destruct (invalidated_ok same_page (loc w) k d 1 (Some q) h Hok Hs Hh Ht) as [Hok1 Hv1]. split.
  - etransitivity; [done|]. by destruct w as [? [] ?].
  - eapply around_trans; [done|]. by eapply around_put; [done|..|apply Hv1].
  - done.
  - eexists _, (Some q). split; [by eapply slot_put_eq|]. split; [|done]. cbn.
    by apply (wiped_spec (state d) (so_wf _ _ _ _ _ _ Hso)).
Qed.

(** No buffer is free, or the storage manager failed. *)
Definition all_pinned (l : LocalBuffers) : Prop := forall i d c p, slot l i d c p -> c <> 0.

Definition victim_post (w0 : World) (o : outcome Z) (w : World) : Prop :=
  match o with
  | Ret b => exists k d p, b = - k - 1 /\ slot (loc w0) k d 0 p /\
      before_first (loc w0) (rank (loc w0) k d) /\
      holding w0 k (fun d' p' => flag (state d') BM_TAG_VALID = false /\ is_Some p') w
  | Elog _ =>
      (all_pinned (loc w0) /\ w = w0) \/
      (head (smgr_faults (me w0)) = Some true /\ exists k, holding w0 k (fun _ _ => True) w)
  | UB _ | Spin => False
  end.

Lemma GetLocalVictimBuffer_post w :
  local_ok (loc w) -> enough_rounds w ->
  wp (GetLocalVictimBuffer pgaio_wref_wait PageSetChecksumInplace) (victim_post w) w.
Proof using Equivalence0 checksum_only.
  intros Hok Hgas. unfold GetLocalVictimBuffer. destruct (lo_hash _ _ Hok) as (h & Hh & _).
  destruct (victim_cases same_page (loc w) Hok) as [Hall|(k & d0 & p0 & Hs0 & Hb)].
  { eapply wp_eq; [unfold bind; by rewrite (search_none same_page w Hok Hgas Hall)|]. by left. }
  destruct (claim_holding w h k d0 p0 Hok Hgas Hh Hs0 Hb) as (w1 & Hrun1 & Hh1 & Hf1).
  eapply wp_step; [by run Hrun1|]. destruct (ho_slot _ _ _ _ Hh1) as (d & p & Hs & _).
  pose proof (ar_ok _ _ _ (ho_around _ _ _ _ Hh1)) as Hok1.
  pose proof (so_id _ _ _ _ _ _ (lo_slots _ _ Hok1 _ _ _ _ Hs)) as Hid.
  eapply wp_step; [run (local_deref_run w1 k d (proj1 Hs)); by run (LocalBufHdrGetBlock_run w1 k d 1 p Hs Hid)|].
  destruct (holding_storage w k w1 d 1 p Hh1 Hs) as (w2 & Hrun2 & Hh2 & Hf2). eapply wp_step; [by run Hrun2|].
  destruct (ho_slot _ _ _ _ Hh2) as (d2 & p2 & Hs2 & -> & [q ->]).
  eapply wp_step; [by run (read_local_state_run w2 k d (proj1 Hs2))|].
  apply wp_bind. eapply wp_mono; [|apply (holding_flush w k w2 d q)].
  2: { destruct Hh2. split; try done. by exists d, (Some q). }
  intros [[]|e|e|] w3; cbn [bind_post]; try done.
  - intros Hh3. destruct (ho_slot _ _ _ _ Hh3) as (d3 & p3 & Hs3 & Hclean & ->).
    eapply wp_step; [by run (read_local_state_run w3 k d3 (proj1 Hs3))|].
    destruct (holding_invalidate w k w3 d3 q) as (w4 & Hrun4 & Hh4); [|done|].
    { destruct Hh3. split; try done. by exists d3, (Some q). }
    eapply wp_step; [by run Hrun4|]. apply wp_ret. exists k, d0, p0. split_and!; [lia|done..|].
    destruct Hh4 as [? ? ? (d4 & p4 & Hs4 & ? & ->)]. split; try done. exists d4, (Some q). by eauto.
  - intros [Hh3 Hfault]. right. split; [congruence|]. by exists k.
Qed.

(** ** Allocation *)
Definition entered_word (s : Z) : Z :=
  Z.lor (Z.land s (not64 (Z.lor BUF_FLAG_MASK BUF_USAGECOUNT_MASK))) (Z.lor BM_TAG_VALID BUF_USAGECOUNT_ONE).

Lemma entered_word_spec s :
  wf_state s -> wf_state (entered_word s) /\ refcount (entered_word s) = refcount s /\
    usage (entered_word s) = 1 /\ flag (entered_word s) BM_DIRTY = false /\
    flag (entered_word s) BM_VALID = false /\ flag (entered_word s) BM_TAG_VALID = true.
Proof using Type.
  intros Hs. unfold entered_word. rewrite land_not64 by done. split.
  { apply wf_lor; [by apply wf_ldiff|]. by vm_compute. }
  split_and!; try by flags.
  - rewrite !refcount_field, field_lor, field_ldiff; done.
  - rewrite usage_field, Z.lor_comm, field_lor by (done || by apply field_ldiff_all). done.
Qed.

(** Block [t] goes into the claimed buffer [k]. *)
Definition entered (k : Z) (d : BufferDesc) (t : BufferTag) (h : gmap BufferTag Z) (l : LocalBuffers)
    : LocalBuffers :=
  put k (with_state (entered_word (state d)) (with_tag t d)) 1 (<[t := k]> h) l.

Lemma around_entered l k d p t h :
  local_ok l -> slot l k d 1 p -> is_Some p -> LocalBufHash l = Some h ->
  flag (state d) BM_TAG_VALID = false -> h !! t = None ->
  local_ok (entered k d t h l) /\ same_view l (entered k d t h l).
Proof using Equivalence0.
  intros Hok Hs Hp Hh Ht Hfree. destruct (lo_slots _ _ Hok _ _ _ _ Hs) as [Hid Hwf Hio Hc0 Hpin Hu _ _ _].
  destruct (entered_word_spec (state d) Hwf) as (H1 & H2 & H3 & H4 & H5 & H6). split.
  - eapply (local_ok_put_insert same_page); [done|done| |done..].
    split; cbn; try done; try congruence; [by rewrite H2|rewrite H3; by vm_compute].
  - by eapply (same_view_put_insert same_page).
Qed.

(** What [LocalBufferAlloc] promises for block [t]. *)
Definition alloc_post (t : BufferTag) (w0 : World) (o : outcome (Z * bool)) (w : World) : Prop :=
  private_only w0 w /\ local_ok (loc w) /\ same_view (loc w0) (loc w) /\
  match o with
  | Ret (i, found) =>
      owned_pins (me w) = (- i - 1) :: owned_pins (me w0) /\ tagged (loc w) t i /\
      (forall j, j <> i -> lookupZ (LocalRefCount (loc w)) j = lookupZ (LocalRefCount (opened (loc w0))) j) /\
      exists d c p, slot (loc w) i d c p /\ 0 < c /\ is_Some p /\ found = flag (state d) BM_VALID /\
        (found = true -> exists v, slot_page (loc w) p = Some v /\ view (loc w) t = Some v)
  | Elog _ =>
      (forall i, ~ tagged (opened (loc w0)) t i) /\
      (all_pinned (opened (loc w0)) \/ head (smgr_faults (me w0)) = Some true)
  | UB _ | Spin => False
  end.

Lemma same_view_opened l : same_view l (opened l).
Proof using Equivalence0.
  unfold opened. destruct (LocalBufHash l) eqn:E; [reflexivity|]. intros t. unfold view. rewrite E. reflexivity.
Qed.

Lemma alloc_hit w0 w t i h :
  private_only w0 w -> owned_pins (me w) = owned_pins (me w0) -> loc w = opened (loc w0) ->
  local_ok (loc w) -> Forall (fun c => c < 2 ^ 31 - 1) (LocalRefCount (loc w)) ->
  LocalBufHash (loc w) = Some h -> h !! t = Some i ->
  wp (let* d := local_deref i in
      c_assert (BufferTagsEqual (tag d) t) "buffer has another tag" ;;
      let* found := PinLocalBuffer i true in
      ret (i, found)) (alloc_post t w0) w.
Proof using Equivalence0.
  intros Hpr Hpins Hl Hok Hmax Hh Hi. destruct (lo_hash _ _ Hok) as (h' & Hh' & Hmap).
  assert (h' = h) as -> by congruence. pose proof (proj1 (Hmap _ _) Hi) as Htag.
  destruct Htag as (d & Hd & Htv & Ht). destruct (slot_at _ _ i Hok) as (d' & c & p & Hs).
  { apply lookupZ_Some in Hd. by rewrite <- (lo_descs _ _ Hok). }
  assert (d' = d) as -> by (destruct Hs; congruence).
  pose proof (lo_slots _ _ Hok _ _ _ _ Hs) as Hso. pose proof (so_count _ _ _ _ _ _ Hso) as Hc0.
  assert (c < 2 ^ 31 - 1) as Hc.
  { destruct Hs as (_ & Hc & _). rewrite Forall_lookup in Hmax. unfold lookupZ in Hc. case_match; [|done]. eauto. }
  eapply wp_step; [run (local_deref_run w i d Hd); rewrite c_assert_ok by (by apply BufferTagsEqual_spec);
    by run (PinLocalBuffer_run same_page w i true d c p h Hs Hso Hc Hh)|].
  destruct (local_pin_ok same_page (loc w) i true d c p h Hok Hs Hh) as [Hok1 Hv1].
  assert (slot (local_pin i true d c h (loc w)) i (with_state (local_pin_state c true (state d)) d) (c + 1) p) as Hs1
    by (by eapply slot_put_eq).
  destruct (local_pin_state_spec c true (state d)) as (P1 & P2 & P3 & P4); [by apply Hso..|done|].
  destruct (flags_same _ _ P4) as (F1 & F2 & F3).
  apply wp_ret. split; [|split; [done|split]].
  - etransitivity; [done|]. by destruct w as [? [] ?].
  - etransitivity; [apply same_view_opened|]. by rewrite <- Hl.
  - split; [by rewrite <- Hpins|]. split; [|split].
    + exists (with_state (local_pin_state c true (state d)) d). split; [by destruct Hs1|]. cbn. by rewrite F1.
    + intros j Hj. rewrite <- Hl. cbn. by rewrite lookupZ_insertZ_ne.
    + eexists _, (c + 1), p. split; [exact Hs1|]. cbn. rewrite F2. split; [lia|]. split; [by apply Hso|].
      split; [done|]. intros Hvalid. destruct (so_valid _ _ _ _ _ _ Hso Hvalid) as (_ & v & f & Hv & _).
      exists v. split; [done|]. rewrite <- Ht. pose proof (view_tagged same_page _ _ _ _ _ Hok1 Hs1) as Hview.
      cbn in Hview. rewrite F1, F2, Hvalid in Hview. rewrite <- Hv. by apply Hview.
Qed.

Definition enter_block (t : BufferTag) (victim_buffer : Z) : M (Z * bool) :=
  let* h := local_hash in
  match h !! t with
  | Some _ => elog "local buffer hash table corrupted"
  | None =>
      set_local_hash (<[t := - victim_buffer - 1]> h) ;;
      let* d := local_deref (- victim_buffer - 1) in
      local_store (- victim_buffer - 1) (with_tag t d) ;;
      let* buf_state := read_local_state (- victim_buffer - 1) in
      write_local_state (- victim_buffer - 1) (entered_word buf_state) ;;
      ret (- victim_buffer - 1, false)
  end.

Lemma enter_block_run w t k d p h :
  local_ok (loc w) -> slot (loc w) k d 1 p -> LocalBufHash (loc w) = Some h -> h !! t = None ->
  enter_block t (- k - 1) w = (Ret (k, false), set_local (entered k d t h (loc w)) w).
Proof using Type.
  intros Hok (Hd & Hc & Hp) Hh Hfree. unfold enter_block. replace (- (- k - 1) - 1) with k by lia.
  unfold local_hash, set_local_hash, local_store, read_local_state, write_local_state, local_deref,
    modify_local, modify_me, modify, get_local, get_me, gets, bind. unfold loc in *. rewrite Hh.
  unfold ret. cbn -[insertZ lookupZ]. rewrite Hfree, Hd. cbn -[insertZ lookupZ].
  pose proof (lookupZ_Some _ _ _ Hd) as Hk. rewrite !lookupZ_insertZ_eq by done. cbn -[insertZ lookupZ].
  unfold set_local, upd_me, local_store, modify_local, modify_me, modify. cbn -[insertZ lookupZ].
  rewrite !lookupZ_insertZ_eq by done. cbn -[insertZ lookupZ].
  unfold upd_me. cbn -[insertZ lookupZ]. rewrite !insertZ_insertZ. f_equal. unfold with_me. f_equal.
  unfold with_local. cbn -[insertZ lookupZ]. f_equal. unfold entered, put.
  rewrite Hc, (insertZ_id k 1 _ Hc). change (default 0 (Some 1)) with 1.
  destruct (local (me w)); cbn in *. local_eq. lia.
Qed.

Lemma alloc_miss w0 w t h :
  private_only w0 w -> owned_pins (me w) = owned_pins (me w0) -> loc w = opened (loc w0) ->
  smgr_faults (me w) = smgr_faults (me w0) -> local_ok (loc w) -> enough_rounds w ->
  LocalBufHash (loc w) = Some h -> h !! t = None ->
  wp (let* victim_buffer := GetLocalVictimBuffer pgaio_wref_wait PageSetChecksumInplace in
      enter_block t victim_buffer) (alloc_post t w0) w.
Proof using Equivalence0 checksum_only.
  intros Hpr Hpins Hl Hf Hok Hgas Hh Hfree. apply wp_bind.
  eapply wp_mono; [|by apply GetLocalVictimBuffer_post].
  destruct (lo_hash _ _ Hok) as (h' & Hh' & Hmap). assert (h' = h) as -> by congruence.
  assert (forall i, ~ tagged (loc w) t i) as Hno by (intros i Hi%Hmap; congruence).
  assert (same_view (loc w0) (loc w)) as Hv0 by (rewrite Hl; apply same_view_opened).
  intros [b|e|e|] w1; cbn [bind_post]; [|..|done|done].
  - intros (k & d0 & p0 & -> & _ & _ & [K1 K2 K3 (d & p & Hs & Hu & Hp)]).
    pose proof (ar_ok _ _ _ K2) as Hok1. destruct (lo_hash _ _ Hok1) as (h1 & Hh1 & Hmap1).
    assert (h1 !! t = None) as Hfree1.
    { destruct (h1 !! t) as [i|] eqn:E; [|done]. apply Hmap1 in E. destruct (decide (i = k)) as [->|Hne].
      - destruct E as (e & He & Ht & _). destruct Hs as (Hd & _). congruence.
      - exfalso. by apply (Hno i), (ar_tags _ _ _ K2). }
    eapply wp_eq; [by apply (enter_block_run w1 t k d p h1)|].
    destruct (around_entered (loc w1) k d p t h1) as [Hok2 Hv2]; [done..|].
    assert (slot (entered k d t h1 (loc w1)) k (with_state (entered_word (state d)) (with_tag t d)) 1 p) as Hs2
      by (by eapply slot_put_eq).
    destruct (entered_word_spec (state d)) as (_ & _ & _ & _ & E5 & E6).
    { by apply (lo_slots _ _ Hok1 _ _ _ _ Hs). }
    split; [|split; [done|split]].
    + etransitivity; [done|]. etransitivity; [done|]. by destruct w1 as [? [] ?].
    + etransitivity; [done|]. etransitivity; [apply K2|]. done.
    + split; [by rewrite <- Hpins|]. split; [|split].
      * eexists. split; [by destruct Hs2|]. done.
      * intros j Hj. rewrite <- Hl, <- (ar_pins _ _ _ K2) by done. cbn. by rewrite lookupZ_insertZ_ne.
      * eexists _, 1, p. split; [exact Hs2|]. cbn. rewrite E5. done.
  - assert (forall i, ~ tagged (opened (loc w0)) t i) as Hno0 by (by rewrite <- Hl).
    intros [[Hall ->]|[Hfault [k [K1 K2 _ _]]]].
    + split_and!; [done..|]. left. by rewrite <- Hl.
    + split_and!; [by etransitivity|by apply K2|etransitivity; [done|apply K2]|done|]. right. by rewrite <- Hf.
Qed.

(** C27. [LocalBufferAlloc] is a cache lookup that never changes the contents
    of a temporary table.  From any state of the local buffer manager that
    satisfies its invariant (or before its first use), with any number of
    buffers and whatever is pinned, dirty or cached: it returns a buffer that
    holds the requested block, pinned once more and owned by the resource
    owner, with the other pins as they were; the buffer is reported as found
    exactly if its page is valid, and a valid page is the visible one.  The
    invariant holds again, and every block of every table reads as before up
    to page checksums, although a dirty victim was written to its file and
    forgotten.  It fails only if the block is not cached and either every
    buffer is pinned or the storage manager failed, also without changing
    any table, and it always ends within six turns of the sweep. *)
Theorem LocalBufferAlloc_transparent w smgr fork blkno :
  IsParallelWorker (me w) = false -> local_ok (opened (loc w)) ->
  enough_rounds (set_local (opened (loc w)) w) ->
  Forall (fun c => c < 2 ^ 31 - 1) (LocalRefCount (opened (loc w))) ->
  wp (LocalBufferAlloc pgaio_wref_wait PageSetChecksumInplace smgr fork blkno)
    (alloc_post (InitBufferTag (mkBufferTag 0 0 0 0 0) smgr fork blkno) w) w.
Proof using Equivalence0 checksum_only.
  intros Hpar Hok Hgas Hmax. set (w1 := set_local (opened (loc w)) w) in *. unfold LocalBufferAlloc.
  set (t := InitBufferTag _ _ _ _). eapply wp_step; [by run (init_once_run w Hpar)|]. fold w1.
  assert (private_only w w1) as Hpr by (by destruct w as [? [] ?]).
  destruct (lo_hash _ _ Hok) as (h & Hh & _).
  assert (local_hash w1 = (Ret h, w1)) as Hget.
  { unfold local_hash, get_local, get_me, gets, bind. change (local (me w1)) with (opened (loc w)). by rewrite Hh. }
  eapply wp_step; [by run Hget|].
  destruct (h !! t) as [i|] eqn:Hi.
  - by eapply (alloc_hit w w1 t i h).
  - by eapply (alloc_miss w w1 t h).
Qed.
End write_back.

(** ** Pins *)

(** [UnpinLocalBuffer] undoes [PinLocalBuffer]: after the pair the
    descriptor, the private count, the number of pinned buffers, the resource
    owner and everything else are exactly what they were, also for a buffer
    that was pinned before.  The pin reports whether the page is valid. *)
Theorem PinLocalBuffer_roundtrip w i d c p :
  local_ok (loc w) -> slot (loc w) i d c p -> c < 2 ^ 31 - 1 ->
  (let* valid := PinLocalBuffer i false in UnpinLocalBuffer (- i - 1) ;; ret valid) w =
    (Ret (flag (state d) BM_VALID), w).
Proof using Equivalence0.
  intros Hok Hs Hc. destruct (lo_hash _ _ Hok) as (h & Hh & _).
  pose proof (lo_slots _ _ Hok _ _ _ _ Hs) as Hso.
  run (PinLocalBuffer_run same_page w i false d c p h Hs Hso Hc Hh). set (w1 := set_pins _ _).
  destruct (local_pin_ok same_page (loc w) i false d c p h Hok Hs Hh) as [Hok1 _].
  assert (slot (loc w1) i (with_state (local_pin_state c false (state d)) d) (c + 1) p) as Hs1
    by (by eapply slot_put_eq).
  pose proof (so_count _ _ _ _ _ _ Hso) as Hc0.
  run (UnpinLocalBuffer_run same_page w1 i _ (c + 1) p h (owned_pins (me w)) Hok1 Hs1 ltac:(lia) eq_refl
    (remove_one_head _ _)).
  unfold ret. f_equal. unfold w1, local_unpin, unpin_state, local_pin, local_pin_state, set_pins, set_local. cbn [andb].
  assert (with_state (if c + 1 =? 1 then unpinned_word (if c =? 0 then pinned_word (state d) else state d)
    else (if c =? 0 then pinned_word (state d) else state d)) d = d) as Hd.
  { destruct (Z.eqb_spec (c + 1) 1), (Z.eqb_spec c 0) as [->|]; try lia; [|by destruct d].
    assert (unpinned_word (pinned_word (state d)) = state d) as ->; [|by destruct d].
    pose proof (so_wf _ _ _ _ _ _ Hso) as Hwf. pose proof (so_pin _ _ _ _ _ _ Hso) as Hpin. cbn in Hpin.
    unfold unpinned_word, pinned_word, BUF_REFCOUNT_ONE. unfold wf_state, refcount in *.
    rewrite (u64_small (state d + 1)) by zdm. rewrite Z.add_simpl_r. by apply u64_small. }
  destruct Hs as (Hs1' & Hs2 & _). unfold put, upd_me, loc in *. cbn -[insertZ lookupZ one_if].
  rewrite !insertZ_insertZ. change (with_state ?x (with_state ?y d)) with (with_state x d).
  rewrite Hd, Z.add_simpl_r, (insertZ_id _ _ _ Hs1'), (insertZ_id _ _ _ Hs2).
  pose proof (lookupZ_Some _ _ _ Hs2). rewrite lookupZ_insertZ_eq by done. rewrite Hs2.
  change (default 0 (Some ?x)) with x.
  replace (_ - one_if c + one_if (c + 1) - one_if (c + 1) + one_if c)
    with (NLocalPinnedBuffers (local (me w))) by lia.
  destruct w as [? [] ?]. cbn in *. destruct local. cbn in *. by subst.
Qed.

(** ** Dropping *)
Section drop.
Context (p : BufferTag -> bool).

(** The buffers below [lo] are done. *)
Record dropped (l : LocalBuffers) (lo : Z) (l' : LocalBuffers) : Prop := {
  dr_ok : local_ok l';
  dr_n : NLocBuffer l' = NLocBuffer l;
  dr_files : temp_files l' = temp_files l;
  dr_pins : LocalRefCount l' = LocalRefCount l;
  dr_tags : forall t i, tagged l' t i <-> tagged l t i /\ (i < lo -> p t = false);
  dr_view : forall t, p t = false -> view l' t = view l t;
  dr_idle : forall t i, tagged l t i -> p t = true -> i < lo -> lookupZ (LocalRefCount l) i = Some 0
}.

Lemma dropped_0 l : local_ok l -> dropped l 0 l.
Proof using Type.
  intros Hok. assert (forall t i, tagged l t i -> ~ i < 0) as Hpos.
  { intros t i (d & Hd & _). apply lookupZ_Some in Hd. lia. }
  split; try done.
  - intros t i. split; [|tauto]. intros Hi. split; [done|]. by intros ?%(Hpos _ _ Hi).
  - intros t i Hi _ Hlt. by destruct (Hpos _ _ Hi).
Qed.

(** The private count of a buffer whose block matches. *)
Definition busy (l : LocalBuffers) : Prop :=
  exists t i c, tagged l t i /\ p t = true /\ lookupZ (LocalRefCount l) i = Some c /\ c <> 0.

Context (pgaio_wref_wait : Z -> M unit).

Lemma drop_step l lo w :
  dropped l lo (loc w) -> 0 <= lo < NLocBuffer l ->
  wp (drop_local_if pgaio_wref_wait p lo) (fun o w' => private_only w w' /\
    match o with
    | Ret _ => dropped l (lo + 1) (loc w')
    | Elog _ => busy l /\ dropped l lo (loc w')
    | UB _ | Spin => False
    end) w.
Proof using Equivalence0.
  intros Hdr Hlo. pose proof (dr_ok _ _ _ Hdr) as Hok.
  destruct (slot_at _ (loc w) lo Hok) as (d & c & q & Hs); [by rewrite (dr_n _ _ _ Hdr)|].
  unfold drop_local_if, GetLocalBufferDescriptor. eapply wp_step; [by run (local_deref_run w lo d (proj1 Hs))|].
  destruct (flag (state d) BM_TAG_VALID && p (tag d)) eqn:E; cbn [when].
  - apply andb_true_iff in E as [Ht Hp]. destruct (lo_hash _ _ Hok) as (h & Hh & Hmap).
    assert (tagged (loc w) (tag d) lo) as Htag by (exists d; by destruct Hs).
    pose proof (InvalidateLocalBuffer_run same_page pgaio_wref_wait w lo d c q h true Hs (lo_slots _ _ Hok _ _ _ _ Hs)
      Hh Htag (proj2 (Hmap _ _) Htag)) as Hrun. cbn [andb] in Hrun.
    destruct (Z.eqb_spec c 0) as [->|Hne]; cbn [negb] in Hrun; (eapply wp_eq; [exact Hrun|]).
    + split; [by destruct w as [? [] ?]|]. destruct Hdr as [D1 D2 D3 D4 D5 D6 D7].
      destruct (invalidated_ok same_page (loc w) lo d 0 q h Hok Hs Hh Ht) as [Hok1 _].
      change (loc (set_local ?x w)) with x. unfold invalidated in *. split; try done.
      * cbn. rewrite (insertZ_id _ _ _ (proj1 (proj2 Hs))). done.
      * intros t i. rewrite (tagged_put _ _ _ _ _ _ _ _ _ _ Hs). cbn.
        destruct (wiped_spec (state d)) as (_ & _ & _ & _ & _ & ->); [by apply (lo_slots _ _ Hok _ _ _ _ Hs)|].
        rewrite D5. assert (i = lo -> tagged l t i -> t = tag d) as Huniq.
        { intros -> Hi. destruct (proj1 (D5 (tag d) lo) Htag) as [(e & He & _ & <-) _].
          destruct Hi as (e' & He' & _ & <-). congruence. }
        destruct (decide (i = lo)) as [->|Hi].
        2:{ assert (i < lo + 1 <-> i < lo) as -> by lia. clear -Hi. intuition congruence. }
        split; [naive_solver|]. intros [Hi Hpt]. rewrite (Huniq eq_refl Hi) in Hpt.
        rewrite Hpt in Hp by lia. done.
      * intros t Hpt. rewrite <- D6 by done. apply (view_put_delete_ne same_page _ _ _ _ _ _ _ _ _ Hok Hs Hh).
        intros ->. congruence.
      * intros t i Hi Hpt Hlt. destruct (decide (i = lo)) as [->|Hne]; [|apply (D7 t); [done..|lia]].
        rewrite <- D4. by destruct Hs as (_ & ? & _).
    + split; [done|]. split; [|done]. exists (tag d), lo, c. split; [by apply (dr_tags _ _ _ Hdr)|].
      rewrite <- (dr_pins _ _ _ Hdr). by destruct Hs as (_ & ? & _).
  - apply wp_ret. split; [done|]. destruct Hdr as [D1 D2 D3 D4 D5 D6 D7].
    assert (forall t, tagged l t lo -> p t = false) as Hlast.
    { intros t Hti. assert (tagged (loc w) t lo) as (e & He & Hte & <-) by (apply D5; split; [done|lia]).
      destruct Hs as (Hd & _). assert (e = d) as -> by congruence. by rewrite Hte in E. }
    split; try done.
    + intros t i. rewrite D5.
      destruct (decide (i = lo)) as [->|Hi]; [|assert (i < lo + 1 <-> i < lo) by lia; naive_solver].
      split; intros [Hti Hlt]; (split; [done|]); [by intros _; apply Hlast|intros; lia].
    + intros t i Hti Hpt Hlt. destruct (decide (i = lo)) as [->|Hne]; [|apply (D7 t); [done..|lia]].
      rewrite (Hlast t Hti) in Hpt. done.
Qed.

Lemma drop_loop l n : forall lo w,
  dropped l lo (loc w) -> 0 <= lo -> lo + Z.of_nat n = NLocBuffer l ->
  wp (for_upto n lo (drop_local_if pgaio_wref_wait p)) (fun o w' => private_only w w' /\
    match o with
    | Ret _ => dropped l (NLocBuffer l) (loc w')
    | Elog _ => busy l /\ exists k, dropped l k (loc w')
    | UB _ | Spin => False
    end) w.
Proof using Equivalence0.
  induction n as [|n IH]; intros lo w Hdr Hlo Hn; cbn [for_upto].
  - apply wp_ret. replace (NLocBuffer l) with lo by lia. done.
  - apply wp_bind. eapply wp_mono; [|apply (drop_step l lo w Hdr); lia].
    intros [[]|e|e|] w1; cbn [bind_post]; intros [Hpr Hpost]; try done.
    + eapply wp_mono; [|apply (IH (lo + 1) w1); [done|lia..]].
      intros o w2 [Hpr2 Ho]. split; [by etransitivity|]. done.
    + split; [done|]. destruct Hpost. eauto.
Qed.

(** The result of dropping the blocks that satisfy [p]. *)
Definition drop_post (w : World) (o : outcome unit) (w' : World) : Prop :=
  private_only w w' /\ local_ok (loc w') /\ temp_files (loc w') = temp_files (loc w) /\
  (forall t, p t = false -> view (loc w') t = view (loc w) t) /\
  match o with
  | Ret _ => ~ busy (loc w) /\ forall t i, tagged (loc w') t i <-> tagged (loc w) t i /\ p t = false
  | Elog _ => busy (loc w)
  | UB _ | Spin => False
  end.

Lemma drop_all_post w :
  local_ok (loc w) ->
  wp (for_upto (Z.to_nat (NLocBuffer (loc w))) 0 (drop_local_if pgaio_wref_wait p)) (drop_post w) w.
Proof using Equivalence0.
  intros Hok. pose proof (lo_next _ _ Hok) as Hn.
  eapply wp_mono; [|apply (drop_loop (loc w) _ 0 w (dropped_0 _ Hok)); lia].
  intros o w' [Hpr Ho]. destruct o as [[]|e|e|]; try done.
  - destruct Ho as [D1 D2 D3 D4 D5 D6 D7]. split_and!; try done.
    + intros (t & i & c & Hi & Hpt & Hc & Hne). assert (i < NLocBuffer (loc w)) as Hlt.
      { destruct Hi as (d & Hd & _). apply lookupZ_Some in Hd. pose proof (lo_descs _ _ Hok). lia. }
      rewrite (D7 t i) in Hc by done. congruence.
    + intros t i. rewrite D5. split; [|tauto]. intros [Hi Hlt]. split; [done|]. apply Hlt.
      destruct Hi as (d & Hd & _). apply lookupZ_Some in Hd. pose proof (lo_descs _ _ Hok). lia.
  - destruct Ho as [Hb [k [D1 D2 D3 D4 D5 D6 D7]]]. done.
Qed.
End drop.

(** C28. [DropRelationLocalBuffers] forgets exactly the blocks it is meant to:
    those of the relation whose fork is listed, from the first block given for
    that fork on.  They are dropped without being written, and every other
    block stays cached and reads as before; the files are not touched.  It
    fails exactly if one of the blocks to be dropped is still pinned, with the
    invariant intact.  [DropRelationAllLocalBuffers] does the same to all
    blocks of the relation. *)
Theorem DropRelationLocalBuffers_exact pgaio_wref_wait w rlocator forkNum firstDelBlock :
  local_ok (loc w) ->
  wp (DropRelationLocalBuffers pgaio_wref_wait rlocator forkNum firstDelBlock)
    (drop_post (fun t => BufTagMatchesRelFileLocator t rlocator && in_forks forkNum firstDelBlock t) w) w /\
  wp (DropRelationAllLocalBuffers pgaio_wref_wait rlocator)
    (drop_post (fun t => BufTagMatchesRelFileLocator t rlocator) w) w.
Proof using Equivalence0.
  intros Hok. split; by apply (wp_step _ _ _ _ w eq_refl), drop_all_post.
Qed.

(** ** The choice of a victim *)

(** The search of [GetLocalVictimBuffer] takes the buffer with the least
    [rank] among the unpinned ones: the one with the lowest usage count, and
    among those the one that the hand reaches first.  Until then every buffer
    the hand passed lost one use per pass and nothing else changed; the
    claimed buffer is pinned, keeps its usage count of zero and belongs to the
    resource owner.  With every buffer pinned it fails after one turn and
    leaves no trace.  It ends in all cases within six turns. *)
Theorem local_victim_search_exact w h :
  local_ok (loc w) -> enough_rounds w -> LocalBufHash (loc w) = Some h ->
  (all_pinned (loc w) -> local_victim_search w = (Elog "no empty local buffer available", w)) /\
  (~ all_pinned (loc w) -> exists k d p, slot (loc w) k d 0 p /\
    (forall i e q, slot (loc w) i e 0 q -> rank (loc w) k d <= rank (loc w) i e) /\
    local_victim_search w = (Ret k, taken (loc w) w h (rank (loc w) k d) k d)).
Proof using Equivalence0.
  intros Hok Hgas Hh. split; [by apply (search_none same_page)|]. intros Hnot.
  destruct (victim_cases same_page (loc w) Hok) as [Hall|(k & d & p & Hs & Hb)]; [done|].
  exists k, d, p. split; [done|]. split; [exact Hb|]. by eapply (local_search_first same_page).
Qed.
End cache.

(** ** A backend with one buffer, which holds a dirty page

    The low 16 bits of a page image stand for its checksum. *)
Definition sample_same (v v' : Z) : Prop := v / 2 ^ 16 = v' / 2 ^ 16.
Definition sample_checksum (v blkno : Z) : Z := v / 2 ^ 16 * 2 ^ 16 + (blkno + 1) mod 2 ^ 16.
Definition sample_tag : BufferTag := mkBufferTag 1 1 1 0 0.
Definition sample_dirty_state : Z :=
  Z.lor (Z.lor (Z.lor BM_TAG_VALID BM_VALID) BM_DIRTY) BUF_USAGECOUNT_ONE.
Definition sample_dirty : LocalBuffers :=
  mkLocalBuffers 1 1 [mkBufferDesc sample_tag (-2) sample_dirty_state 0 None []] [Some (0, 0)] [0] 0
    (Some {[ sample_tag := 0 ]}) 0 1 1 1 [1] {[ (0, 0) := 5 * 2 ^ 16 ]}
    {[ (mkRelFileLocator 1 1 1, 0) := [3 * 2 ^ 16; 4 * 2 ^ 16] ]}.
Definition sample_temp_world : World := set_local sample_dirty (sample_world ClockSweepVtable [] []).

#[export] Instance sample_same_equiv : Equivalence sample_same.
Proof. unfold sample_same. split; congruence. Qed.

Lemma sample_checksum_only v blkno : sample_same v (sample_checksum v blkno).
Proof.
  unfold sample_same, sample_checksum. rewrite Z.div_add_l by lia.
  rewrite (Z.div_small ((blkno + 1) mod 2 ^ 16)); [lia|]. apply Z.mod_pos_bound. lia.
Qed.

Lemma lookupZ_one {A} (x y : A) i : lookupZ [x] i = Some y -> i = 0 /\ y = x.
Proof.
  intros H. pose proof (lookupZ_Some _ _ _ H) as Hi. cbn in Hi. assert (i = 0) as -> by lia.
  cbn in H. by injection H as <-.
Qed.

Lemma sample_dirty_ok : local_ok sample_same sample_dirty.
Proof.
  split; try done.
  - intros i d c p (Hd & Hc & Hp). apply lookupZ_one in Hd as [-> ->]. apply lookupZ_one in Hc as [_ ->].
    apply lookupZ_one in Hp as [_ ->]. split; [by vm_compute..| | |].
    + intros _. by eexists.
    + intros _. by vm_compute.
    + intros _. split; [by vm_compute|]. exists (5 * 2 ^ 16), (3 * 2 ^ 16).
      split; [apply lookup_singleton_eq|]. split; [by vm_compute|]. intros H. by vm_compute in H.
  - eexists. split; [reflexivity|]. intros t i. rewrite lookup_singleton_Some. split.
    + intros [<- <-]. eexists. split; [reflexivity|]. by vm_compute.
    + intros (d & Hd & _ & <-). apply lookupZ_one in Hd as [-> ->]. done.
  - split; try done.
    + intros i j q Hi Hj. apply lookupZ_one in Hi as [-> _]. by apply lookupZ_one in Hj as [-> _].
    + intros i q Hi. apply lookupZ_one in Hi as [_ [= ->]]. exists 1. by vm_compute.
Qed.

(** Another block is read: the dirty page has to leave its buffer. *)
Lemma LocalBufferAlloc_transparent_witness :
  wp (LocalBufferAlloc (fun _ => ret tt) sample_checksum (mkRelFileLocator 1 1 1) 0 1)
    (alloc_post sample_same (mkBufferTag 1 1 1 0 1) sample_temp_world) sample_temp_world.
Proof.
  apply (LocalBufferAlloc_transparent sample_same (fun _ => ret tt) sample_checksum sample_checksum_only
    sample_temp_world (mkRelFileLocator 1 1 1) 0 1).
  - reflexivity.
  - exact sample_dirty_ok.
  - unfold enough_rounds. vm_compute. discriminate.
  - repeat constructor.
Defined.

Lemma PinLocalBuffer_roundtrip_witness :
  (let* valid := PinLocalBuffer 0 false in UnpinLocalBuffer (-1) ;; ret valid) sample_temp_world =
    (Ret true, sample_temp_world).
Proof.
  refine (PinLocalBuffer_roundtrip sample_same sample_temp_world 0
    (mkBufferDesc sample_tag (-2) sample_dirty_state 0 None []) 0 (Some (0, 0)) sample_dirty_ok _ _).
  - split_and!; reflexivity.
  - lia.
Defined.

Lemma DropRelationLocalBuffers_exact_witness :
  wp (DropRelationLocalBuffers (fun _ => ret tt) (mkRelFileLocator 1 1 1) [0] [0])
    (drop_post sample_same (fun t => BufTagMatchesRelFileLocator t (mkRelFileLocator 1 1 1) && in_forks [0] [0] t)
      sample_temp_world) sample_temp_world.
Proof.
  exact (proj1 (DropRelationLocalBuffers_exact sample_same (fun _ => ret tt) sample_temp_world
    (mkRelFileLocator 1 1 1) [0] [0] sample_dirty_ok)).
Defined.

Lemma local_victim_search_exact_witness :
  exists k d p, slot sample_dirty k d 0 p /\
    local_victim_search sample_temp_world =
      (Ret k, taken sample_dirty sample_temp_world {[ sample_tag := 0 ]} (rank sample_dirty k d) k d).
Proof.
  destruct (local_victim_search_exact sample_same sample_temp_world {[ sample_tag := 0 ]} sample_dirty_ok) as [_ H].
  - unfold enough_rounds. vm_compute. discriminate.
  - reflexivity.
  - destruct H as (k & d & p & Hs & _ & Hrun).
    + intros Hall. apply (Hall 0 (mkBufferDesc sample_tag (-2) sample_dirty_state 0 None []) 0 (Some (0, 0)));
        [split_and!|]; reflexivity.
    + exists k, d, p. split; [exact Hs|exact Hrun].
Defined.
