(* ===== verification/RefCounts.v ===== *)
(** * Private reference counts as a finite map

    The array of eight entries, its key array, the overflow hash table, the
    reserved slot and the one-entry cache of [bufmgr.c] together are an
    implementation of one finite map from buffers to counts.  [count_op] has the
    four ways in which the buffer manager uses them. *)
From S2P Require Import Prelude BufState BufTag Shmem Concurrency PrivateRefCount Ring Sample.

(** How many pins we have; the first pin of a buffer; another one; one less. *)
Inductive count_op := CountOf (b : Z) | FirstPin (b : Z) | PinAgain (b : Z) | Unpin (b : Z).

Definition add_pins (ref : RefPtr) (k : Z) : M Z :=
  let* d := ref_data ref in
  let n := i32 (data_refcount d + k) in
  set_ref_data ref (mkRefData n (data_lockmode d)) ;;
  ret n.

Definition run_count_op (op : count_op) : M Z :=
  match op with
  | CountOf b => GetPrivateRefCount b
  | FirstPin b => ReservePrivateRefCountEntry ;; TrackNewBufferPin b ;; ret 1
  | PinAgain b =>
      let* ref := GetPrivateRefCountEntry b true in
      match ref with
      | Some ref => add_pins ref 1
      | None => trap "buffer is not pinned"
      end
  | Unpin b =>
      let* ref := GetPrivateRefCountEntry b false in
      match ref with
      | Some ref =>
          let* n := add_pins ref (-1) in
          when (n =? 0) (ForgetPrivateRefCountEntry ref) ;;
          ret n
      | None => trap "buffer is not pinned"
      end
  end.

Fixpoint run_count_ops (ops : list count_op) : M (list Z) :=
  match ops with
  | [] => ret []
  | op :: ops => let* n := run_count_op op in let* ns := run_count_ops ops in ret (n :: ns)
  end.

(** The same on the map alone; [None] if the use is not allowed. *)
Definition count_step (cs : gmap Z Z) (op : count_op) : option (Z * gmap Z Z) :=
  match op with
  | CountOf b => if 0 <? b then Some (default 0 (cs !! b), cs) else None
  | FirstPin b =>
      match cs !! b with
      | None => if 0 <? b then Some (1, <[b := 1]> cs) else None
      | Some _ => None
      end
  | PinAgain b =>
      match cs !! b with
      | Some n => if n + 1 <? 2 ^ 31 then Some (n + 1, <[b := n + 1]> cs) else None
      | None => None
      end
  | Unpin b =>
      match cs !! b with
      | Some n => Some (n - 1, if n =? 1 then delete b cs else <[b := n - 1]> cs)
      | None => None
      end
  end.
Fixpoint count_steps (cs : gmap Z Z) (ops : list count_op) : option (list Z * gmap Z Z) :=
  match ops with
  | [] => Some ([], cs)
  | op :: ops =>
      match count_step cs op with
      | Some (n, cs) =>
          match count_steps cs ops with
          | Some (ns, cs) => Some (n :: ns, cs)
          | None => None
          end
      | None => None
      end
  end.

(** ** The two states *)
Definition unlocked_count (n : Z) : PrivateRefCountData := mkRefData n BUFFER_LOCK_UNLOCK.
Record counts (m : Backend) (cs : gmap Z Z) : Prop := {
  co_inv : prc_inv m (unlocked_count <$> cs);
  co_pos : forall b n, cs !! b = Some n -> 0 < b /\ 0 < n < 2 ^ 31
}.

Lemma add_pins_run w cs ref b n k :
  counts (me w) cs -> cs !! b = Some n -> ref_ok (me w) ref b -> - 2 ^ 31 <= n + k < 2 ^ 31 ->
  exists m', add_pins ref k w = (Ret (n + k), with_me m' w) /\
    prc_inv m' (unlocked_count <$> <[b := n + k]> cs) /\ prc_frame (me w) m' /\ ref_ok m' ref b.
Proof.
  intros [Hinv Hpos] Hn Href Hr. destruct (Hpos b n Hn) as [Hb _].
  destruct (ref_data_spec w _ ref b Hinv Hb Href) as (d & Hd & Hrun1).
  rewrite lookup_fmap, Hn in Hd. injection Hd as <-.
  destruct (set_ref_data_spec w _ ref b (unlocked_count (n + k)) Hinv Hb Href) as (m' & Hrun2 & Hinv' & Hfr & Href').
  exists m'. unfold add_pins. run Hrun1. cbn. rewrite i32_small by done. run Hrun2.
  rewrite fmap_insert. done.
Qed.

Lemma get_entry_run w cs b n do_move :
  counts (me w) cs -> cs !! b = Some n ->
  exists m' ref, GetPrivateRefCountEntry b do_move w = (Ret (Some ref), with_me m' w) /\
    counts m' cs /\ prc_frame (me w) m' /\ ref_ok m' ref b.
Proof.
  intros [Hinv Hpos] Hn. destruct (Hpos b n Hn) as [Hb _].
  destruct (GetEntry_spec w _ b do_move Hinv Hb) as (m' & res & Hrun & Hinv' & Hfr & Hres).
  destruct res as [ref|]; cbn in Hres; [|by rewrite lookup_fmap, Hn in Hres].
  exists m', ref. by destruct Hres.
Qed.

Lemma counts_insert m cs b n :
  prc_inv m (unlocked_count <$> <[b := n]> cs) -> (forall b n, cs !! b = Some n -> 0 < b /\ 0 < n < 2 ^ 31) ->
  0 < b -> 0 < n < 2 ^ 31 -> counts m (<[b := n]> cs).
Proof.
  intros Hinv Hpos Hb Hn. split; [done|]. intros b' n' [[<- <-]|[_ H]]%lookup_insert_Some; [done|by apply Hpos].
Qed.

(** One use against one step. *)
Lemma count_op_run w cs op n cs' :
  counts (me w) cs -> count_step cs op = Some (n, cs') ->
  exists w', run_count_op op w = (Ret n, w') /\ counts (me w') cs' /\ shm w' = shm w /\ sched w' = sched w.
Proof.
  intros Hc Hstep. pose proof Hc as [Hinv Hpos]. destruct op as [b|b|b|b]; cbn [count_step run_count_op] in *.
  - destruct (Z.ltb_spec 0 b) as [Hb|]; [|done]. injection Hstep as <- <-.
    destruct (GetPrivateRefCount_spec w _ b Hinv Hb) as (m' & Hrun & Hinv' & _).
    exists (with_me m' w). split; [|done]. rewrite Hrun, lookup_fmap. by destruct (cs !! b).
  - destruct (cs !! b) eqn:Hn; [done|]. destruct (Z.ltb_spec 0 b) as [Hb|]; [|done]. injection Hstep as <- <-.
    destruct (Reserve_spec w _ Hinv) as (m1 & Hrun1 & Hinv1 & _ & Hres & _).
    assert ((unlocked_count <$> cs) !! b = None) as Hfree by (by rewrite lookup_fmap, Hn).
    destruct (TrackNewBufferPin_spec (with_me m1 w) b) as (m2 & Hrun2 & [Htr _ _]); [|done|].
    { split; [by exists (unlocked_count <$> cs)|done]. }
    exists (with_me m2 w). split; [|split; [|done]].
    + run Hrun1. by run Hrun2.
    + apply counts_insert; [|done|done|lia]. rewrite fmap_insert. by apply Htr.
  - destruct (cs !! b) as [k|] eqn:Hn; [|done]. destruct (Z.ltb_spec (k + 1) (2 ^ 31)) as [Hk|]; [|done].
    injection Hstep as <- <-. destruct (Hpos b k Hn) as [Hb Hk0].
    destruct (get_entry_run w cs b k true Hc Hn) as (m1 & ref & Hrun1 & Hc1 & _ & Href).
    destruct (add_pins_run (with_me m1 w) cs ref b k 1 Hc1 Hn Href ltac:(lia)) as (m2 & Hrun2 & Hinv2 & _).
    exists (with_me m2 w). split; [|split; [|done]].
    + run Hrun1. done.
    + apply counts_insert; [done..|lia].
  - destruct (cs !! b) as [k|] eqn:Hn; [|done]. injection Hstep as <- <-. destruct (Hpos b k Hn) as [Hb Hk0].
    destruct (get_entry_run w cs b k false Hc Hn) as (m1 & ref & Hrun1 & Hc1 & _ & Href).
    destruct (add_pins_run (with_me m1 w) cs ref b k (-1) Hc1 Hn Href ltac:(lia)) as (m2 & Hrun2 & Hinv2 & _ & Href2).
    destruct (Z.eqb_spec k 1) as [->|Hk1].
    + destruct (Forget_spec (with_me m2 w) _ ref b Hinv2 Hb Href2) as (m3 & Hrun3 & Hinv3 & _).
      { by rewrite lookup_fmap, lookup_insert_eq. }
      exists (with_me m3 w). split; [|split; [|done]].
      * run Hrun1. run Hrun2. change (1 + -1 =? 0) with true. cbn [when]. by run Hrun3.
      * rewrite fmap_insert, delete_insert_eq, <- fmap_delete in Hinv3. split; [done|].
        intros b' n' [_ H]%lookup_delete_Some. by apply Hpos.
    + exists (with_me m2 w). split; [|split; [|done]].
      * run Hrun1. run Hrun2. replace (k + -1 =? 0) with false by lia. done.
      * apply counts_insert; [done..|lia].
Qed.

(** C29. The private reference counts refine a finite map.  For every sequence of
    uses that is allowed (a count is asked for, a buffer that is not pinned is
    pinned, a pinned buffer is pinned again or unpinned), however many buffers
    are pinned at once and wherever their entries are (in the array, displaced
    to the hash table, moved back), every call returns exactly the count of the
    map, nothing traps, and the entries represent the map again. *)
Theorem private_refcount_refines ops : forall w cs ns cs',
  counts (me w) cs -> count_steps cs ops = Some (ns, cs') ->
  exists w', run_count_ops ops w = (Ret ns, w') /\ counts (me w') cs' /\ shm w' = shm w.
Proof.
  induction ops as [|op ops IH]; intros w cs ns cs' Hc Hsteps; cbn [count_steps run_count_ops] in *.
  - injection Hsteps as <- <-. by exists w.
  - destruct (count_step cs op) as [[n cs1]|] eqn:Hstep; [|done].
    destruct (count_steps cs1 ops) as [[ns1 cs2]|] eqn:Hrest; [|done]. injection Hsteps as <- <-.
    destruct (count_op_run w cs op n cs1 Hc Hstep) as (w1 & Hrun1 & Hc1 & Hs1 & _).
    destruct (IH w1 cs1 ns1 cs2 Hc1 Hrest) as (w2 & Hrun2 & Hc2 & Hs2).
    exists w2. split; [|split; [done|congruence]]. run Hrun1. by run Hrun2.
Qed.

(** Ten buffers are pinned, two more than the array holds, then the first one
    again and twice unpinned. *)
Definition sample_ops : list count_op :=
  (FirstPin <$> [1; 2; 3; 4; 5; 6; 7; 8; 9; 10]) ++ [PinAgain 1; CountOf 1; Unpin 1; Unpin 1; CountOf 1; Unpin 9].

Lemma private_refcount_refines_witness :
  exists w' cs', run_count_ops sample_ops (sample_world ClockSweepVtable [] []) =
    (Ret [1; 1; 1; 1; 1; 1; 1; 1; 1; 1; 2; 2; 1; 0; 0; 0], w') /\ counts (me w') cs'.
Proof.
  destruct (private_refcount_refines sample_ops (sample_world ClockSweepVtable [] []) ∅
    [1; 1; 1; 1; 1; 1; 1; 1; 1; 1; 2; 2; 1; 0; 0; 0]
    (foldr (fun b cs => <[b := 1]> cs) ∅ [10; 8; 7; 6; 5; 4; 3; 2])) as (w' & Hrun & Hc & _).
  - split; [|by intros b n Hb]. rewrite fmap_empty. apply sample_reserved.
  - vm_compute. reflexivity.
  - eexists w', _. split; [exact Hrun|exact Hc].
Defined.
