(* ===== verification/Recency.v ===== *)
(** * The LRU queue is in order of use

    Sequences of notifications that the buffer manager sends through
    [StrategyNotifyHit], [StrategyNotifyInsert] and [StrategyNotifyInvalidate]
    while the LRU policy is active, and the queue that they leave. *)
From S2P Require Import Prelude BufState BufTag Shmem Concurrency PrivateRefCount Ring Sample DList Sweep.
From S2P Require Import ClockSweep Sieve Lru Lfu Policy BufTable Strategy.

(** ** Traces *)
Inductive event := Hit (b : Z) | Insert (b : Z) | Invalidate (b : Z).
Definition event_buf (e : event) : Z := match e with Hit b | Insert b | Invalidate b => b end.

Definition notify (e : event) : M unit :=
  match e with
  | Hit b => StrategyNotifyHit b
  | Insert b => StrategyNotifyInsert b
  | Invalidate b => StrategyNotifyInvalidate b
  end.
Fixpoint notify_all (es : list event) : M unit :=
  match es with
  | [] => ret tt
  | e :: es => notify e ;; notify_all es
  end.

Definition lru_apply (l : list Z) (e : event) : list Z :=
  match e with
  | Hit b => lru_hit b l
  | Insert b => lru_insert b l
  | Invalidate b => lru_invalidate b l
  end.

(** The number of the last event that used [x], and 0 if there was none. *)
Definition uses (e : event) (x : Z) : bool :=
  match e with Hit b | Insert b => b =? x | Invalidate _ => false end.
Fixpoint last_use_from (k : Z) (es : list event) (x : Z) : Z :=
  match es with
  | [] => 0
  | e :: es =>
      let later := last_use_from (k + 1) es x in
      if 0 <? later then later else if uses e x then k else 0
  end.
Definition last_use : list event -> Z -> Z := last_use_from 1.

(** Whether [x] is in the queue that was [l] before the events. *)
Definition queued (l : list Z) (es : list event) (x : Z) : bool :=
  foldl (fun q e => match e with
    | Hit _ => q
    | Insert b => q || (b =? x)
    | Invalidate b => q && negb (b =? x)
    end) (bool_decide (x ∈ l)) es.

Definition precedes (x y : Z) (l : list Z) : Prop := exists l1 l2 l3, l = l1 ++ x :: l2 ++ y :: l3.

(** ** The queue alone *)
Lemma last_use_snoc_from es e x : forall k, 0 < k ->
  last_use_from k (es ++ [e]) x = if uses e x then k + Z.of_nat (length es) else last_use_from k es x.
Proof.
  induction es as [|e' es IH]; intros k Hk; cbn [last_use_from app length].
  - cbn. destruct (uses e x); [lia|done].
  - rewrite IH by lia. destruct (uses e x); [|done].
    rewrite (proj2 (Z.ltb_lt _ _)) by lia. lia.
Qed.
Lemma last_use_snoc es e x :
  last_use (es ++ [e]) x = if uses e x then 1 + Z.of_nat (length es) else last_use es x.
Proof. by apply last_use_snoc_from. Qed.

Lemma last_use_range_from es x : forall k, 0 < k -> 0 <= last_use_from k es x < k + Z.of_nat (length es).
Proof.
  induction es as [|e es IH]; intros k Hk; cbn [last_use_from length]; [lia|].
  specialize (IH (k + 1) ltac:(lia)). destruct (0 <? _); [lia|]. destruct (uses e x); lia.
Qed.
Lemma last_use_range es x : 0 <= last_use es x <= Z.of_nat (length es).
Proof. pose proof (last_use_range_from es x 1 ltac:(lia)). unfold last_use. lia. Qed.

Lemma precedes_rm x y b l : x <> b -> y <> b -> precedes x y l -> precedes x y (rm b l).
Proof.
  intros Hx Hy (l1 & l2 & l3 & ->). exists (rm b l1), (rm b l2), (rm b l3). unfold rm.
  by rewrite filter_app, filter_cons_True, filter_app, filter_cons_True.
Qed.
Lemma precedes_app x y l k : precedes x y l -> precedes x y (l ++ k).
Proof. intros (l1 & l2 & l3 & ->). exists l1, l2, (l3 ++ k). by rewrite <- !app_assoc, <- app_comm_cons, <- app_assoc. Qed.
Lemma precedes_last x y l : x ∈ l -> precedes x y (l ++ [y]).
Proof. intros (l1 & l2 & ->)%list_elem_of_split. exists l1, l2, []. by rewrite <- app_assoc. Qed.

Lemma queued_spec l es x : bool_decide (x ∈ foldl lru_apply l es) = queued l es x.
Proof.
  unfold queued. induction es as [|e es IH] using rev_ind; [done|]. rewrite !foldl_app. cbn.
  rewrite <- IH. set (q := foldl lru_apply l es). destruct e as [b|b|b]; cbn.
  - unfold lru_hit. destruct (bool_decide (b ∈ q)) eqn:Hb; [|done].
    apply bool_decide_eq_true in Hb. apply bool_decide_ext.
    rewrite elem_of_app, elem_of_rm, list_elem_of_singleton. destruct (decide (x = b)) as [->|]; naive_solver.
  - unfold lru_insert. destruct (Z.eqb_spec b x) as [->|Hne].
    + rewrite orb_true_r. apply bool_decide_true. set_solver.
    + rewrite orb_false_r. apply bool_decide_ext. rewrite elem_of_app, elem_of_rm, list_elem_of_singleton. naive_solver.
  - unfold lru_invalidate. destruct (Z.eqb_spec b x) as [->|Hne].
    + rewrite andb_false_r. apply bool_decide_false, rm_gone.
    + rewrite andb_true_r. apply bool_decide_ext. rewrite elem_of_rm. naive_solver.
Qed.

(** Later used is further back. *)
Lemma lru_order l es x y :
  x ∈ foldl lru_apply l es -> y ∈ foldl lru_apply l es -> last_use es x < last_use es y ->
  precedes x y (foldl lru_apply l es).
Proof.
  induction es as [|e es IH] using rev_ind; [cbn; lia|]. rewrite foldl_app, !last_use_snoc. cbn.
  set (q := foldl lru_apply l es) in *. pose proof (last_use_range es x). pose proof (last_use_range es y).
  assert (forall b, x ∈ rm b q ++ [b] -> y ∈ rm b q ++ [b] ->
    (if b =? x then 1 + Z.of_nat (length es) else last_use es x) <
    (if b =? y then 1 + Z.of_nat (length es) else last_use es y) -> precedes x y (rm b q ++ [b])) as Huse.
  { intros b. rewrite !elem_of_app, !elem_of_rm, !list_elem_of_singleton. intros Hx Hy Hlt.
    destruct (Z.eqb_spec b x) as [->|Hbx]; [destruct (x =? y); lia|].
    assert (x ∈ q /\ x <> b) as [Hxq Hxb] by naive_solver.
    destruct (Z.eqb_spec b y) as [->|Hby].
    - apply precedes_last. by apply elem_of_rm.
    - apply precedes_app, precedes_rm; [done|naive_solver|]. apply IH; naive_solver. }
  destruct e as [b|b|b]; cbn.
  - unfold lru_hit. case_bool_decide as Hb; [by apply Huse|].
    intros Hx Hy. destruct (Z.eqb_spec b x) as [->|]; [done|]. destruct (Z.eqb_spec b y) as [->|]; [done|].
    by apply IH.
  - by apply Huse.
  - unfold lru_invalidate. rewrite !elem_of_rm. intros [Hx ?] [Hy ?] Hlt. apply precedes_rm; [done..|]. by apply IH.
Qed.

(** ** The hooks without interference *)
Section quiet_trace.
Context (n : Z).

Record lru_calm (w : World) : Prop := {
  ca_quiet : quiet w;
  ca_lock : lock_of (shm w) = None;
  ca_gas : (0 < gas (me w))%nat;
  ca_policy : ActiveEviction (me w) = Some LRUVtable;
  ca_n : NBuffers (me w) = n;
  ca_descs : forall b, 0 <= b < n -> exists d, desc_at w b d /\ buf_id d = b
}.

Lemma calm_mem w m : lru_calm w -> lru_calm (with_mem m w).
Proof using Type. intros []. by split. Qed.

Lemma section_run w l b F body :
  lru_calm w -> lru_mem n (mem w) l -> 0 <= b < n -> rewrites n b F body ->
  exists m', (let* d := deref b in SpinLockAcquire ;; body (buf_id d)) w = (Ret tt, with_mem m' w) /\
    lru_mem n m' (F l).
Proof using Type.
  intros [H1 H2 H3 H4 H5 H6] Hm Hb Hbody. destruct (H6 b Hb) as (d & Hd & Hid).
  run (deref_run w b d Hd). rewrite Hid. run (SpinLockAcquire_quiet w H1 H2 H3).
  destruct (Hbody (set_lock (Some (MyProcNumber (me w))) w) l) as (m' & Hrun & Hm'); [done..|].
  exists m'. split; [|done]. rewrite Hrun. unfold lock_of in H2.
  destruct w as [[? [] ? ? ? ? ? ?] ? ?]. cbn in *. by subst.
Qed.

Lemma notify_run w l e :
  lru_calm w -> lru_mem n (mem w) l -> 0 <= event_buf e < n ->
  exists m', notify e w = (Ret tt, with_mem m' w) /\ lru_mem n m' (lru_apply l e).
Proof using Type.
  intros Hc Hm Hb. assert (forall field b, call_hook field b w =
    match field (vtable LRUVtable) with Some f => f b w | None => (Ret tt, w) end) as Hcall.
  { intros field b. unfold call_hook, get_me, gets, bind. rewrite (ca_policy _ Hc). by destruct (field _). }
  destruct e as [b|b|b]; cbn [notify event_buf lru_apply] in *;
    unfold StrategyNotifyHit, StrategyNotifyInsert, StrategyNotifyInvalidate; rewrite Hcall.
  - by apply (section_run w l b (lru_hit b) lru_hit_section), lru_hit_rewrites.
  - by apply (section_run w l b (lru_insert b) lru_insert_section), lru_insert_rewrites.
  - by apply (section_run w l b (lru_invalidate b) lru_invalidate_section), lru_invalidate_rewrites.
Qed.

Lemma notify_all_run es : forall w l,
  lru_calm w -> lru_mem n (mem w) l -> Forall (fun e => 0 <= event_buf e < n) es ->
  exists m', notify_all es w = (Ret tt, with_mem m' w) /\ lru_mem n m' (foldl lru_apply l es).
Proof using Type.
  induction es as [|e es IH]; intros w l Hc Hm Hes; cbn [notify_all foldl].
  - exists (mem w). by rewrite with_mem_mem.
  - apply Forall_cons in Hes as [He Hes]. destruct (notify_run w l e Hc Hm He) as (m1 & Hrun1 & Hm1).
    run Hrun1. destruct (IH (with_mem m1 w) _ (calm_mem w m1 Hc) Hm1 Hes) as (m2 & Hrun2 & Hm2).
    exists m2. done.
Qed.
End quiet_trace.

(** C30. With the LRU policy active, any sequence of notifications leaves a well
    linked queue that holds exactly the buffers that were inserted and not
    invalidated since, or were there from the start, and that is in order of
    use: of two queued buffers the one whose last hit or insertion is older
    stands nearer to the end from which [LRUGetBuffer] takes its victims. *)
Theorem LRU_recency n w l es :
  lru_calm n w -> lru_mem n (mem w) l -> Forall (fun e => 0 <= event_buf e < n) es ->
  exists m' l', notify_all es w = (Ret tt, with_mem m' w) /\ lru_mem n m' l' /\
    (forall x, x ∈ l' <-> queued l es x = true) /\
    (forall x y, x ∈ l' -> y ∈ l' -> last_use es x < last_use es y -> precedes x y l').
Proof.
  intros Hc Hm Hes. destruct (notify_all_run n es w l Hc Hm Hes) as (m' & Hrun & Hm').
  exists m', (foldl lru_apply l es). split; [done|]. split; [done|]. split.
  - intros x. rewrite <- queued_spec, bool_decide_eq_true. done.
  - intros x y. apply lru_order.
Qed.

Lemma LRU_recency_witness :
  exists m l', lru_mem 3 m l' /\ precedes 2 0 l' /\ 1 ∉ l'.
Proof.
  destruct (LRUInitialize_run (sample_world LRUVtable (replicate 9 0) []) 3) as (m & _ & Hm);
    [lia|done|vm_compute; discriminate|].
  destruct (LRU_recency 3 (sample_world LRUVtable m []) [0; 1; 2] [Hit 0; Insert 2; Invalidate 1; Hit 0])
    as (m' & l' & _ & Hm' & Hq & Hord).
  - split; try done.
    + vm_compute. lia.
    + intros b Hb. assert (b = 0 \/ b = 1 \/ b = 2) as [-> | [-> | ->]] by lia; eexists; split; reflexivity.
  - done.
  - repeat (apply Forall_cons; split; [cbn; lia|]). by apply Forall_nil.
  - exists m', l'. split; [done|]. split.
    + apply Hord; [apply Hq; reflexivity|apply Hq; reflexivity|vm_compute; reflexivity].
    + rewrite Hq. vm_compute. discriminate.
Defined.
