(* ===== verification/Contracts.v ===== *)
(** * Contracts of the strategy block

    What the rest of the buffer manager relies on beyond the choice of a victim:
    start-up, the position that the background writer is given, the sizes, the
    rings, the order of the comparators, and what a failed LFU search leaves. *)
From S2P Require Import Prelude BufState BufTag Shmem Concurrency PrivateRefCount Ring Sample DList Sweep.
From S2P Require Import ClockSweep Sieve Lru Lfu Policy BufTable Strategy.

(** ** Comparators *)
(** C40. [buffertag_comparator], by which relations and blocks are sorted for
    dropping, writing and write-back, is a total order on tags, and
    [ckpt_buforder_comparator], by which a checkpoint sorts the buffers it will
    write, orders them totally up to the buffer number: every result is -1, 0
    or 1, swapping the arguments changes the sign, and both are transitive. *)
Theorem comparators_total :
  TotalCompare buffertag_comparator /\
  (forall a b, ckpt_buforder_comparator a b = 0 <->
    tsId a = tsId b /\ ckpt_relNumber a = ckpt_relNumber b /\ ckpt_forkNum a = ckpt_forkNum b /\
    ckpt_blockNum a = ckpt_blockNum b) /\
  (forall a b, ckpt_buforder_comparator b a = - ckpt_buforder_comparator a b) /\
  (forall a b c, ckpt_buforder_comparator a b <= 0 -> ckpt_buforder_comparator b c <= 0 ->
    ckpt_buforder_comparator a c <= 0).
Proof.
  split_and!.
  - apply buffertag_comparator_total.
  - intros [] []. unfold ckpt_buforder_comparator. cbn. case_ltb; lia.
  - intros [] []. unfold ckpt_buforder_comparator. cbn. case_ltb; lia.
  - intros [] [] []. unfold ckpt_buforder_comparator. cbn. case_ltb; lia.
Qed.

(** ** Start-up *)

(** [StrategyInitialize] leaves a block on which the active policy can work,
    whichever of the four it is and whatever the new memory contained: the words
    satisfy the invariant of the policy, no process holds the strategy lock, no
    process waits for a notification, the lookup table is empty, and the
    descriptors are untouched. *)
Theorem StrategyInitialize_ready p w n junk :
  sized n -> NBuffers (me w) = n ->
  exists w', StrategyInitialize_as p false junk true w = (Ret tt, w') /\
    pol_inv p n (mem w') /\ lock_of (shm w') = None /\ bgwprocno (StrategyControl (shm w')) = -1 /\
    ActiveEviction (me w') = Some p /\ SharedBufHash (shm w') = ∅ /\
    BufferDescriptors (shm w') = BufferDescriptors (shm w).
Proof.
  intros Hn Hw. destruct (StrategyInitialize_run p w n junk Hn Hw) as (m' & Hrun & Hinv).
  eexists. split; [exact Hrun|]. done.
Qed.

Lemma StrategyInitialize_ready_witness :
  exists w', StrategyInitialize_as SieveVtable false (fun i => i * 7) true (sample_world ClockSweepVtable [] []) =
    (Ret tt, w') /\ pol_inv SieveVtable 3 (mem w').
Proof.
  destruct (StrategyInitialize_ready SieveVtable (sample_world ClockSweepVtable [] []) 3 (fun i => i * 7))
    as (w' & Hrun & Hinv & _).
  - unfold sized. lia.
  - reflexivity.
  - exists w'. split; [exact Hrun|exact Hinv].
Defined.

(** ** Sizes *)

(** C39. Up to [2 ^ 30 - 1025] buffers the sizes are computed without overflow:
    the strategy block has room for the words of every policy and wastes at most
    the difference between the policies and 27 bytes.  With the largest setting
    of [shared_buffers], [2 ^ 30 - 1], the product of two [int]s in
    [SieveShmemSize], [LRUShmemSize] and [LFUShmemSize] is negative and the start
    fails as soon as the lookup table needs four gigabytes, although the active policy is the
    clock sweep, which needs four bytes. *)
Theorem StrategyShmemSize_bounds :
  (forall n, sized n ->
    (forall p, sizeof_BufferStrategyCommon + 4 * pol_words p n <= strategy_block_size n) /\
    strategy_block_size n < sizeof_BufferStrategyCommon + 4 * pol_words LFUVtable n + 8) /\
  (forall hash_estimate_size w, NBuffers (me w) = 2 ^ 30 - 1 ->
    2 ^ 32 <= hash_estimate_size (2 ^ 30 - 1 + NUM_BUFFER_PARTITIONS) 24 < 2 ^ 64 ->
    StrategyShmemSize hash_estimate_size w = (Elog "requested shared memory size overflows size_t", w)).
Proof.
  split.
  - apply strategy_block_bounds.
  - intros est w Hn He. unfold StrategyShmemSize, bind, get_me, gets. rewrite Hn. unfold add_size.
    replace (0 + est (2 ^ 30 - 1 + NUM_BUFFER_PARTITIONS) 24 <? 2 ^ 64) with true by lia. cbn [ret].
    assert (strategy_block_size (2 ^ 30 - 1) = 2 ^ 64 - 2 ^ 32 + 8208) as -> by (vm_compute; reflexivity).
    unfold ret. replace (_ <? 2 ^ 64) with false by lia. done.
Qed.

(** ** Rings *)

(** A ring that is created has buffers, at most an eighth of the pool, all
    empty, and takes no number of another ring. *)
Lemma GetAccessStrategyWithSize_run bt ring_size_kb w :
  8 <= NBuffers (me w) < 2 ^ 31 -> 0 <= ring_size_kb ->
  (ring_size_kb < 8 /\ GetAccessStrategyWithSize bt ring_size_kb w = (Ret None, w)) \/
  exists h r, rings (me w) !! h = None /\ btype r = bt /\ ring_ok (NBuffers (me w)) r /\
    nbuffers r = Z.min (NBuffers (me w) / 8) (ring_size_kb / 8) /\
    buffers r = replicate (Z.to_nat (nbuffers r)) InvalidBuffer /\
    GetAccessStrategyWithSize bt ring_size_kb w =
      (Ret (Some h), upd_me (fun m => with_rings (<[h := r]> (rings m)) m) w).
Proof.
  intros Hn Hk. unfold GetAccessStrategyWithSize. rewrite c_assert_ok by lia.
  change (BLCKSZ / 1024) with 8. pose proof (Z.div_pos ring_size_kb 8 Hk ltac:(lia)).
  destruct (Z.eqb_spec (ring_size_kb / 8) 0) as [E|E].
  { left. split; [|done]. apply Z.div_small_iff in E; lia. }
  right. assert (1 <= NBuffers (me w) / 8) as Hn8 by (apply Z.div_le_lower_bound; lia).
  run (eq_refl (get_me NBuffers w)). set (k := Z.min (NBuffers (me w) / 8) (ring_size_kb / 8)).
  rewrite c_assert_ok by (unfold k; lia).
  exists (fresh (dom (rings (me w)) : gset Z)), (mkRing bt k 0 (replicate (Z.to_nat k) InvalidBuffer)).
  split_and!; try done.
  - apply not_elem_of_dom, is_fresh.
  - assert (NBuffers (me w) / 8 < 2 ^ 31) by (apply Z.div_lt_upper_bound; lia). split; cbn.
    + unfold k. lia.
    + rewrite length_replicate. unfold k. lia.
    + unfold k. lia.
    + intros i b Hb. unfold lookupZ in Hb. case_match; [|done]. apply lookup_replicate in Hb as [-> _].
      unfold InvalidBuffer. lia.
Qed.

(** Every ring that [GetAccessStrategy] creates is usable and small: with the
    settings in their documented ranges it has between one and [NBuffers / 8]
    buffers, whatever the pin limit is, even where the product with the block
    size exceeds an [int]; all slots are empty, the number is new, and nothing
    else of the backend changes.  Only [BAS_NORMAL] has no ring. *)
Theorem GetAccessStrategy_ring bt io_combine_limit effective_io_concurrency w :
  16 <= NBuffers (me w) < 2 ^ 31 -> 1 <= io_combine_limit <= 128 -> 0 <= effective_io_concurrency <= 1000 ->
  match bt with
  | BAS_NORMAL => GetAccessStrategy io_combine_limit effective_io_concurrency bt w = (Ret None, w)
  | _ => exists h r, rings (me w) !! h = None /\ btype r = bt /\ ring_ok (NBuffers (me w)) r /\
      1 <= nbuffers r <= NBuffers (me w) / 8 /\ (forall i b, lookupZ (buffers r) i = Some b -> b = InvalidBuffer) /\
      GetAccessStrategy io_combine_limit effective_io_concurrency bt w =
        (Ret (Some h), upd_me (fun m => with_rings (<[h := r]> (rings m)) m) w)
  end.
Proof.
  intros Hn Hio Heff.
  assert (forall bt kb, 8 <= kb -> exists h r, rings (me w) !! h = None /\ btype r = bt /\ ring_ok (NBuffers (me w)) r /\
      1 <= nbuffers r <= NBuffers (me w) / 8 /\ (forall i b, lookupZ (buffers r) i = Some b -> b = InvalidBuffer) /\
      GetAccessStrategyWithSize bt kb w =
        (Ret (Some h), upd_me (fun m => with_rings (<[h := r]> (rings m)) m) w)) as Hring.
  { intros bt' kb Hkb. destruct (GetAccessStrategyWithSize_run bt' kb w) as [[? _]|(h & r & H1 & H2 & H3 & H4 & H5 & H6)];
      [lia..|].
    exists h, r. assert (1 <= NBuffers (me w) / 8) by (apply Z.div_le_lower_bound; lia).
    assert (1 <= kb / 8) by (apply Z.div_le_lower_bound; lia). split_and!; [done..|lia|lia| |done].
    intros i b. rewrite H5. unfold lookupZ. case_match; [|done]. by intros [-> _]%lookup_replicate. }
  destruct bt; [done| |apply Hring; lia..].
  unfold GetAccessStrategy. run (eq_refl (GetPinLimit w)). change (BLCKSZ / 1024) with 8.
  rewrite (i32_small (8 * io_combine_limit)), (i32_small (8 * io_combine_limit * effective_io_concurrency)) by nia.
  rewrite (i32_small (256 + _)) by nia. apply Hring. case_match; nia.
Qed.

Lemma GetAccessStrategy_ring_witness :
  exists h w', GetAccessStrategy 16 16 BAS_BULKREAD (upd_me (with_NBuffers 1024) (sample_world ClockSweepVtable [] [])) =
    (Ret (Some h), w').
Proof.
  destruct (GetAccessStrategy_ring BAS_BULKREAD 16 16 (upd_me (with_NBuffers 1024) (sample_world ClockSweepVtable [] [])))
    as (h & r & _ & _ & _ & _ & _ & Hrun).
  - cbn. lia.
  - lia.
  - lia.
  - eexists h, _. exact Hrun.
Defined.











