(* ===== verification/Writeback.v ===== *)
(** * Write-back requests ([src/backend/storage/buffer/bufmgr.c])

    Blocks that were written are collected in a [WritebackContext]; when enough
    are pending they are sorted and neighbouring blocks are merged into requests
    to the kernel.  [max_pending] is the value the context's pointer leads to,
    [pending_writebacks] the first [nr_pending] elements of the array. *)
From stdpp Require Import sorting.
From S2P Require Import Prelude BufState BufTag SortTemplate Shmem Concurrency PrivateRefCount Ring Sample.

Definition WRITEBACK_MAX_PENDING_FLUSHES : Z := 256.

(** A [WritebackContext *]: the one of the backend, or the one a process passes
    to [BgBufferSync] or [BufferSync]. *)
Inductive WritebackContextPtr := BackendContext | ProcessContext.

Definition wb_of (c : WritebackContextPtr) (m : Backend) : WritebackContext :=
  match c with
  | BackendContext => BackendWritebackContext m
  | ProcessContext => wb_context m
  end.
Definition with_wb (c : WritebackContextPtr) (x : WritebackContext) (m : Backend) : Backend :=
  match c with
  | BackendContext => with_BackendWritebackContext x m
  | ProcessContext => with_wb_context x m
  end.
Definition set_pending (c : WritebackContextPtr) (l : list BufferTag) : M unit :=
  modify_me (fun m => with_wb c (mkWritebackContext (max_pending (wb_of c m)) l) m).
Definition nr_pending (x : WritebackContext) : Z := Z.of_nat (length (pending_writebacks x)).

Definition WritebackContextInit (c : WritebackContextPtr) (max_pending : Z) : M unit :=
  c_assert (max_pending <=? WRITEBACK_MAX_PENDING_FLUSHES) "too many pending flushes" ;;
  modify_me (with_wb c (mkWritebackContext max_pending [])).

Definition tag_le (a b : BufferTag) : Prop := buffertag_comparator a b <= 0.
#[export] Instance tag_le_dec a b : Decision (tag_le a b).
Proof. unfold tag_le. apply _. Defined.

Definition sort_pending_writebacks : list BufferTag -> list BufferTag := sort_array buffertag_comparator.

(** Looks ahead from a request for [nblocks] blocks whose last one is [cur]:
    the blocks to ask for and the requests that are not part of the run. *)
Fixpoint peek_ahead (currlocator : RelFileLocator) (cur : BufferTag) (nblocks : Z)
    (pending : list BufferTag) : Z * list BufferTag :=
  match pending with
  | [] => (nblocks, [])
  | next :: rest =>
      if negb (bool_decide (currlocator = BufTagGetRelFileLocator next))
         || negb (BufTagGetForkNum cur =? BufTagGetForkNum next) then (nblocks, pending)
      else if blockNum cur =? blockNum next then peek_ahead currlocator cur nblocks rest
      else if negb (u32 (blockNum cur + 1) =? blockNum next) then (nblocks, pending)
      else peek_ahead currlocator next (u64 (nblocks + 1)) rest
  end.

Section writeback.
Context (smgrwriteback : RelFileLocator -> Z -> Z -> Z -> M unit).
Context (io_direct_data enableFsync : bool).

(** The rounds of the outer loop; each one takes at least one request. *)
Fixpoint issue_rounds (n : nat) (pending : list BufferTag) : M unit :=
  match n, pending with
  | S n', tag :: rest =>
      let currlocator := BufTagGetRelFileLocator tag in
      let '(nblocks, rest) := peek_ahead currlocator tag 1 rest in
      smgrwriteback currlocator (BufTagGetForkNum tag) (blockNum tag) nblocks ;;
      issue_rounds n' rest
  | _, _ => ret tt
  end.

Definition IssuePendingWritebacks (c : WritebackContextPtr) : M unit :=
  let* x := get_me (wb_of c) in
  if nr_pending x =? 0 then ret tt
  else
    let pending := sort_pending_writebacks (pending_writebacks x) in
    set_pending c pending ;;
    issue_rounds (length pending) pending ;;
    set_pending c [].

Definition ScheduleBufferTagForWriteback (c : WritebackContextPtr) (tag : BufferTag) : M unit :=
  if io_direct_data || negb enableFsync then ret tt
  else
    let* x := get_me (wb_of c) in
    when (0 <? max_pending x)
      (c_assert (max_pending x <=? WRITEBACK_MAX_PENDING_FLUSHES) "too many pending flushes" ;;
       if nr_pending x <? WRITEBACK_MAX_PENDING_FLUSHES
       then set_pending c (pending_writebacks x ++ [tag])
       else trap "pending_writebacks index out of range") ;;
    let* x := get_me (wb_of c) in
    when (max_pending x <=? nr_pending x) (IssuePendingWritebacks c).
End writeback.

(** ** Requests *)

(** A request: the first block and the number of blocks. *)
Definition request : Type := BufferTag * Z.
Definition same_fork (a b : BufferTag) : Prop :=
  BufTagGetRelFileLocator a = BufTagGetRelFileLocator b /\ BufTagGetForkNum a = BufTagGetForkNum b.
Definition covers (r : request) (t : BufferTag) : Prop :=
  same_fork r.1 t /\ blockNum r.1 <= blockNum t < blockNum r.1 + r.2.

(** The requests of [issue_rounds], in order. *)
Fixpoint requests (n : nat) (pending : list BufferTag) : list request :=
  match n, pending with
  | S n', tag :: rest =>
      let '(nblocks, rest) := peek_ahead (BufTagGetRelFileLocator tag) tag 1 rest in
      (tag, nblocks) :: requests n' rest
  | _, _ => []
  end.

Fixpoint issue (smgrwriteback : RelFileLocator -> Z -> Z -> Z -> M unit) (l : list request) : M unit :=
  match l with
  | [] => ret tt
  | (t, k) :: l =>
      smgrwriteback (BufTagGetRelFileLocator t) (BufTagGetForkNum t) (blockNum t) k ;;
      issue smgrwriteback l
  end.

Lemma issue_rounds_eq sw n : forall l w, issue_rounds sw n l w = issue sw (requests n l) w.
Proof.
  induction n as [|n IH]; intros [|t l] w; try done. cbn.
  destruct (peek_ahead _ _ _ _) as [k rest]. cbn. unfold bind. destruct (sw _ _ _ _ _) as [[] ?]; auto.
Qed.

(** ** Sorting and merging *)
#[export] Instance tag_le_total : Total tag_le.
Proof. intros x y. unfold tag_le. rewrite (buffertag_antisym x y). lia. Qed.
#[export] Instance tag_le_trans : Transitive tag_le.
Proof. intros x y z. apply (cmp_trans (cmp := buffertag_comparator)). Qed.
#[export] Instance tag_le_antisymm : AntiSymm (=) tag_le.
Proof.
  unfold tag_le. intros x y Hx Hy. rewrite (buffertag_antisym x y) in Hy.
  apply (cmp_eq (cmp := buffertag_comparator)). lia.
Qed.

Lemma sort_sorted l : StronglySorted tag_le (sort_pending_writebacks l).
Proof. apply (sort_array_sorted buffertag_comparator). Qed.
Lemma sort_perm l : sort_pending_writebacks l ≡ₚ l.
Proof. apply (sort_array_perm buffertag_comparator). Qed.

(** The order is total and antisymmetric, so every correct sort gives this list. *)
Lemma sort_unique l l' : StronglySorted tag_le l' -> l' ≡ₚ l -> l' = sort_pending_writebacks l.
Proof.
  intros Hs Hp. apply (StronglySorted_unique tag_le); [done|apply sort_sorted|]. by rewrite sort_perm.
Qed.

Lemma tag_le_fork a b : tag_le a b -> same_fork a b -> blockNum a <= blockNum b.
Proof.
  unfold tag_le, buffertag_comparator. intros H [Hl Hf]. rewrite Hl, Hf in H.
  rewrite (proj2 (cmp_eq (TotalCompare := rlocator_comparator_total) _ _) eq_refl) in H. cbn in H.
  revert H. case_ltb; lia.
Qed.

(** In a sorted list the tags of a fork are next to each other. *)
Lemma tag_le_between a b c : tag_le a b -> tag_le b c -> same_fork a c -> same_fork a b.
Proof.
  unfold tag_le, buffertag_comparator. intros H1 H2 [Hl Hf]. rewrite <- Hl, <- Hf in H2.
  set (x := BufTagGetRelFileLocator a) in *. set (y := BufTagGetRelFileLocator b) in *.
  pose proof (cmp_antisym (TotalCompare := rlocator_comparator_total) x y) as Ha.
  pose proof (cmp_eq (TotalCompare := rlocator_comparator_total) x y) as He.
  destruct (Z.eqb_spec (rlocator_comparator x y) 0) as [E|E];
    destruct (Z.eqb_spec (rlocator_comparator y x) 0) as [E'|E']; cbn [negb] in *; try lia.
  split; [by apply He|]. revert H1 H2. case_ltb; lia.
Qed.

Definition valid_block (t : BufferTag) : Prop := 0 <= blockNum t < 2 ^ 32.

Lemma same_block a b : same_fork a b -> blockNum a = blockNum b -> a = b.
Proof. destruct a, b. intros [[= -> -> ->] Hf] Hb. cbn in *. congruence. Qed.
Lemma same_fork_refl a : same_fork a a.
Proof. done. Qed.
Lemma same_fork_trans a b c : same_fork a b -> same_fork b c -> same_fork a c.
Proof. unfold same_fork. intuition congruence. Qed.
Lemma same_fork_sym a b : same_fork a b -> same_fork b a.
Proof. unfold same_fork. intuition congruence. Qed.

Lemma fork_test a b :
  negb (bool_decide (BufTagGetRelFileLocator a = BufTagGetRelFileLocator b))
    || negb (BufTagGetForkNum a =? BufTagGetForkNum b) = false <-> same_fork a b.
Proof. rewrite orb_false_iff, !negb_false_iff, bool_decide_eq_true, Z.eqb_eq. done. Qed.

(** A run: [pre] holds the [j] blocks after [cur], and the next block of the fork,
    if any is pending, is not adjacent. *)
Record run_of (cur : BufferTag) (j : Z) (pre rest : list BufferTag) : Prop := {
  ro_count : 0 <= j <= Z.of_nat (length pre);
  ro_in : forall t, t ∈ cur :: pre <-> same_fork cur t /\ blockNum cur <= blockNum t <= blockNum cur + j;
  ro_gap : forall t, t ∈ rest -> same_fork cur t -> blockNum cur + j + 1 < blockNum t
}.

Lemma run_single cur rest :
  (forall t, t ∈ rest -> same_fork cur t -> blockNum cur + 1 < blockNum t) -> run_of cur 0 [] rest.
Proof.
  intros H. split; [cbn; lia| |intros t Ht Hs; specialize (H t Ht Hs); lia].
  intros t. rewrite list_elem_of_singleton. split; [intros ->; split; [done|lia]|].
  intros [Hs Hb]. symmetry. apply same_block; [done|lia].
Qed.

Lemma run_extend cur next j pre rest :
  same_fork cur next -> blockNum next = blockNum cur + 1 -> run_of next j pre rest ->
  run_of cur (j + 1) (next :: pre) rest.
Proof.
  intros Hs Hb [Hc Hin Hgap]. split; [cbn; lia| |].
  - intros t. rewrite elem_of_cons, Hin. split.
    + intros [->|[Hf Ht]]; [split; [done|lia]|]. split; [by eapply same_fork_trans|lia].
    + intros [Hf Ht]. destruct (decide (blockNum t = blockNum cur)) as [E|E].
      * left. symmetry. by apply same_block.
      * right. split; [eapply same_fork_trans; [apply same_fork_sym|]; done|lia].
  - intros t Ht Hf. specialize (Hgap t Ht). rewrite Hb in Hgap.
    assert (same_fork next t) by (eapply same_fork_trans; [apply same_fork_sym|]; done). intuition lia.
Qed.

Lemma peek_spec pending : forall cur k,
  StronglySorted tag_le (cur :: pending) -> Forall valid_block (cur :: pending) ->
  0 <= k -> k + Z.of_nat (length pending) < 2 ^ 64 ->
  exists j pre rest, peek_ahead (BufTagGetRelFileLocator cur) cur k pending = (k + j, rest) /\
    pending = pre ++ rest /\ run_of cur j pre rest.
Proof.
  induction pending as [|next pending IH]; intros cur k Hs Hv Hk Hlen.
  { exists 0, [], []. split_and!; [cbn; f_equal; lia|done|]. apply run_single. set_solver. }
  apply StronglySorted_cons in Hs as [Hcur Hs]. apply Forall_cons in Hv as [Hvc Hv].
  pose proof Hs as [Hnext _]%StronglySorted_cons. rewrite Forall_forall in Hcur, Hnext.
  assert (tag_le cur next) as Hle by (apply Hcur; set_solver). cbn in Hlen. cbn [peek_ahead].
  destruct (negb _ || negb _) eqn:Hf.
  { exists 0, [], (next :: pending). split_and!; [f_equal; lia|done|]. apply run_single. intros t Ht Hst.
    exfalso. apply not_false_iff_true in Hf. apply Hf, fork_test.
    apply elem_of_cons in Ht as [->|Ht]; [done|]. by apply (tag_le_between _ _ t); [|apply Hnext|]. }
  apply fork_test in Hf. pose proof (tag_le_fork _ _ Hle Hf) as Hblk.
  destruct (Z.eqb_spec (blockNum cur) (blockNum next)) as [E|E].
  { pose proof (same_block _ _ Hf E) as <-.
    destruct (IH cur k) as (j & pre & rest & Hp & -> & [Hc Hin Hgap]); [done..|lia|].
    exists j, (cur :: pre), rest. split_and!; [done|done|]. split; [cbn; lia| |done].
    intros t. rewrite <- Hin. set_solver. }
  pose proof Hv as [Hvn _]%Forall_cons. unfold valid_block in Hvc, Hvn.
  rewrite (u32_small (blockNum cur + 1)) by lia.
  destruct (Z.eqb_spec (blockNum cur + 1) (blockNum next)) as [E1|E1]; cbn [negb].
  - destruct Hf as [Hloc Hfork]. rewrite u64_small, Hloc by lia.
    destruct (IH next (k + 1)) as (j & pre & rest & Hp & -> & Hrun); [done|done|lia|lia|].
    exists (j + 1), (next :: pre), rest. split_and!; [rewrite Hp; f_equal; lia|done|].
    by apply run_extend; [|lia|].
  - exists 0, [], (next :: pending). split_and!; [f_equal; lia|done|]. apply run_single. intros t Ht Hst.
    assert (blockNum next <= blockNum t); [|lia].
    apply elem_of_cons in Ht as [->|Ht]; [lia|]. apply tag_le_fork; [by apply Hnext|].
    eapply same_fork_trans; [apply same_fork_sym|]; done.
Qed.

(** Requests for [pending]: every block is asked for, no other block is, no block
    is asked for twice and no two requests could have been one. *)
Record requests_ok (pending : list BufferTag) (reqs : list request) : Prop := {
  rq_some : forall r, r ∈ reqs -> 0 < r.2;
  rq_exact : forall t, t ∈ pending <-> exists r, r ∈ reqs /\ covers r t;
  rq_apart : forall i j r r', reqs !! i = Some r -> reqs !! j = Some r' -> (i < j)%nat ->
    same_fork r.1 r'.1 -> blockNum r.1 + r.2 < blockNum r'.1
}.

Lemma requests_spec n : forall l,
  (length l <= n)%nat -> Z.of_nat (length l) < 2 ^ 64 -> StronglySorted tag_le l -> Forall valid_block l ->
  requests_ok l (requests n l).
Proof.
  induction n as [|n IH]; intros [|t l] Hn Hlen Hs Hv; cbn in Hn; try lia;
    [split; set_solver..|]. cbn [requests].
  destruct (peek_spec l t 1 Hs Hv) as (j & pre & rest & -> & -> & [Hc Hin Hgap]); [lia|cbn in Hlen; lia|].
  rewrite length_app in Hn. rewrite app_comm_cons in Hs, Hv.
  destruct (IH rest) as [Hsome Hexact Hapart].
  - lia.
  - cbn in Hlen. rewrite length_app in Hlen. lia.
  - by apply StronglySorted_app_1_r in Hs.
  - by apply Forall_app in Hv as [_ ?].
  - split.
    + intros r [->|Hr]%elem_of_cons; [cbn; lia|by apply Hsome].
    + intros t'. rewrite app_comm_cons, elem_of_app, Hin, Hexact. unfold covers.
      setoid_rewrite elem_of_cons. split.
      * intros [[Hf Hb]|(r & Hr & Hcov)]; [|by eauto]. exists (t, 1 + j). cbn. split; [by left|split; [done|lia]].
      * intros (r & [->|Hr] & Hcov); [left|by eauto]. cbn in Hcov. split; [apply Hcov|lia].
    + intros [|i] [|j'] r r' Hi Hj Hij; try lia; cbn in Hi, Hj.
      * injection Hi as <-. cbn. intros Hf. assert (r'.1 ∈ rest) as Hr'; [|specialize (Hgap _ Hr' Hf); lia].
        apply list_elem_of_lookup_2 in Hj. apply Hexact. exists r'. split; [done|].
        specialize (Hsome r' Hj). split; [done|lia].
      * apply (Hapart i j'); [done|done|lia].
Qed.

(** ** The context *)

(** The number of pending requests is below the size of the array, whatever the
    configured limit is at the moment. *)
Definition wb_ok (x : WritebackContext) : Prop :=
  max_pending x <= WRITEBACK_MAX_PENDING_FLUSHES /\ nr_pending x < WRITEBACK_MAX_PENDING_FLUSHES.

Lemma wb_with c x m : wb_of c (with_wb c x m) = x.
Proof. by destruct c. Qed.
Lemma with_wb_id c m : with_wb c (wb_of c m) m = m.
Proof. by destruct c, m. Qed.
Lemma with_wb_with c x y m : with_wb c x (with_wb c y m) = with_wb c x m.
Proof. by destruct c. Qed.

Lemma set_pending_run c l w :
  set_pending c l w = (Ret tt, upd_me (with_wb c (mkWritebackContext (max_pending (wb_of c (me w))) l)) w).
Proof. done. Qed.

Definition any_change : relation (Shared * list (Shared -> Shared)) := fun _ _ => True.
#[export] Instance any_change_preorder : PreOrder any_change.
Proof. by split. Qed.

(** The context after a block was scheduled. *)
Definition scheduled (skip : bool) (tag : BufferTag) (x : WritebackContext) : WritebackContext :=
  if skip then x
  else mkWritebackContext (max_pending x)
         (if nr_pending x + 1 <? max_pending x then pending_writebacks x ++ [tag] else []).

Section laws.
Context (smgrwriteback : RelFileLocator -> Z -> Z -> Z -> M unit).

Lemma Issue_run c w :
  pending_writebacks (wb_of c (me w)) <> [] ->
  Forall valid_block (pending_writebacks (wb_of c (me w))) -> nr_pending (wb_of c (me w)) < 2 ^ 64 ->
  exists reqs, requests_ok (pending_writebacks (wb_of c (me w))) reqs /\
    IssuePendingWritebacks smgrwriteback c w =
      (set_pending c (sort_pending_writebacks (pending_writebacks (wb_of c (me w)))) ;;
       issue smgrwriteback reqs ;; set_pending c []) w.
Proof.
  set (l := pending_writebacks _). intros Hne Hv Hlen. set (l' := sort_pending_writebacks l).
  exists (requests (length l') l'). split.
  - destruct (requests_spec (length l') l') as [H1 H2 H3]; [done| |apply sort_sorted| |].
    + unfold l'. by rewrite sort_perm.
    + unfold l'. by rewrite sort_perm.
    + split; [done| |done]. intros t. rewrite <- H2. unfold l'. by rewrite sort_perm.
  - unfold IssuePendingWritebacks, get_me, gets. rewrite (bind_ret _ _ w (wb_of c (me w)) w) by done.
    destruct (Z.eqb_spec (nr_pending (wb_of c (me w))) 0) as [E|_].
    { unfold nr_pending in E. fold l in E. destruct l; [done|cbn in E; lia]. }
    fold l l'. unfold bind at 1 3. rewrite set_pending_run. unfold bind. by rewrite issue_rounds_eq.
Qed.

(** What others do in the meantime. *)
Context (T : relation (Shared * list (Shared -> Shared))) `{!PreOrder T}.

(** Asking the kernel to write back is a hint: it returns, and leaves the memory
    of the process alone. *)
Definition hint_only : Prop := forall l f b k w, exists s fs,
  smgrwriteback l f b k w = (Ret tt, mkWorld s (me w) fs) /\ T (shm w, sched w) (s, fs).

Lemma issue_hint reqs : hint_only -> forall w, exists s fs,
  issue smgrwriteback reqs w = (Ret tt, mkWorld s (me w) fs) /\ T (shm w, sched w) (s, fs).
Proof using PreOrder0.
  intros Hs. induction reqs as [|[t k] reqs IH]; intros w; cbn.
  { exists (shm w), (sched w). split; [by destruct w|done]. }
  edestruct Hs as (s & fs & Hr & HT). rewrite (bind_ret _ _ _ _ _ Hr).
  destruct (IH (mkWorld s (me w) fs)) as (s' & fs' & -> & HT'). exists s', fs'. split; [done|]. by etrans.
Qed.

Lemma Issue_hint c w :
  hint_only -> exists s fs, IssuePendingWritebacks smgrwriteback c w =
    (Ret tt, mkWorld s (with_wb c (mkWritebackContext (max_pending (wb_of c (me w))) []) (me w)) fs) /\
    T (shm w, sched w) (s, fs).
Proof using PreOrder0.
  intros Hs. unfold IssuePendingWritebacks, get_me, gets. rewrite (bind_ret _ _ w (wb_of c (me w)) w) by done.
  destruct (Z.eqb_spec (nr_pending (wb_of c (me w))) 0) as [E|_].
  - exists (shm w), (sched w). unfold nr_pending in E.
    assert (mkWritebackContext (max_pending (wb_of c (me w))) [] = wb_of c (me w)) as ->.
    { destruct (wb_of c (me w)) as [mp []]; [done|cbn in E; lia]. }
    rewrite with_wb_id. split; [by destruct w|done].
  - rewrite (bind_ret _ _ _ _ _ (set_pending_run _ _ _)). set (w1 := upd_me _ w).
    set (l := sort_pending_writebacks _) in *. unfold bind at 1. rewrite issue_rounds_eq.
    destruct (issue_hint (requests (length l) l) Hs w1) as (s & fs & -> & HT).
    exists s, fs. rewrite set_pending_run. unfold upd_me, w1. cbn. rewrite wb_with, with_wb_with. done.
Qed.

Lemma Schedule_run io_direct_data enableFsync c tag w :
  hint_only -> wb_ok (wb_of c (me w)) ->
  exists s fs, ScheduleBufferTagForWriteback smgrwriteback io_direct_data enableFsync c tag w =
    (Ret tt, mkWorld s (with_wb c (scheduled (io_direct_data || negb enableFsync) tag (wb_of c (me w))) (me w)) fs) /\
    T (shm w, sched w) (s, fs).
Proof using PreOrder0.
  set (x := wb_of c (me w)). intros Hs [Hmax Hnr].
  unfold ScheduleBufferTagForWriteback, scheduled.
  destruct (io_direct_data || negb enableFsync).
  { exists (shm w), (sched w). unfold x. rewrite with_wb_id. split; [by destruct w|done]. }
  unfold get_me at 1, gets at 1. rewrite (bind_ret _ _ w x w) by done.
  assert (0 <= nr_pending x) by (unfold nr_pending; lia).
  destruct (Z.ltb_spec 0 (max_pending x)) as [Hpos|Hpos]; cbn [when].
  - rewrite (bind_ret _ _ w tt (upd_me (with_wb c (mkWritebackContext (max_pending x) (pending_writebacks x ++ [tag]))) w)).
    2:{ rewrite c_assert_ok by lia. by rewrite (proj2 (Z.ltb_lt _ _)) by lia. }
    unfold get_me, gets. erewrite bind_ret by done. cbn [me upd_me with_me]. rewrite wb_with.
    unfold nr_pending at 1. cbn [pending_writebacks max_pending]. rewrite length_app. cbn [length].
    unfold nr_pending. destruct (Z.ltb_spec (Z.of_nat (length (pending_writebacks x)) + 1) (max_pending x)).
    + rewrite (proj2 (Z.leb_gt _ _)) by lia. by exists (shm w), (sched w).
    + rewrite (proj2 (Z.leb_le _ _)) by lia. cbn [when].
      destruct (Issue_hint c (upd_me (with_wb c (mkWritebackContext (max_pending x) (pending_writebacks x ++ [tag]))) w) Hs)
        as (s & fs & -> & HT). exists s, fs. cbn. by rewrite wb_with, with_wb_with.
  - rewrite (bind_ret _ _ w tt w) by done. unfold get_me, gets. rewrite (bind_ret _ _ w x w) by done.
    rewrite (proj2 (Z.leb_le _ _)) by lia. cbn [when]. rewrite (proj2 (Z.ltb_ge _ _)) by lia.
    by apply Issue_hint.
Qed.
End laws.

(** C31. [IssuePendingWritebacks] sorts the pending blocks and asks the kernel for
    runs of consecutive blocks: every pending block is in a request, no other
    block is, requests of a fork do not overlap and are not even adjacent, so
    that nothing more could be merged; afterwards nothing is pending. *)
Theorem IssuePendingWritebacks_exact smgrwriteback c w :
  pending_writebacks (wb_of c (me w)) <> [] -> Forall valid_block (pending_writebacks (wb_of c (me w))) ->
  wb_ok (wb_of c (me w)) ->
  exists reqs, requests_ok (pending_writebacks (wb_of c (me w))) reqs /\
    IssuePendingWritebacks smgrwriteback c w =
      (set_pending c (sort_pending_writebacks (pending_writebacks (wb_of c (me w)))) ;;
       issue smgrwriteback reqs ;; set_pending c []) w.
Proof.
  intros Hne Hv [_ Hn]. apply Issue_run; [done|done|]. unfold WRITEBACK_MAX_PENDING_FLUSHES in Hn. lia.
Qed.

(** C32. [ScheduleBufferTagForWriteback] never writes behind the array of pending
    blocks, also when the configured limit changes between two calls: it
    remembers the block, or issues and forgets all of them when the limit is
    reached or write-back was switched off, and the number that stays pending is
    below the limit. *)
Theorem ScheduleBufferTagForWriteback_bounded smgrwriteback io_direct_data enableFsync c tag w :
  hint_only smgrwriteback any_change -> wb_ok (wb_of c (me w)) ->
  exists w', ScheduleBufferTagForWriteback smgrwriteback io_direct_data enableFsync c tag w = (Ret tt, w') /\
    wb_of c (me w') = scheduled (io_direct_data || negb enableFsync) tag (wb_of c (me w)) /\
    (forall v, v <= WRITEBACK_MAX_PENDING_FLUSHES ->
      wb_ok (mkWritebackContext v (pending_writebacks (wb_of c (me w'))))) /\
    (io_direct_data = false -> enableFsync = true -> 0 < max_pending (wb_of c (me w)) ->
      nr_pending (wb_of c (me w')) < max_pending (wb_of c (me w))).
Proof.
  intros Hs Hok. destruct (Schedule_run _ _ io_direct_data enableFsync c tag w Hs Hok) as (s & fs & -> & _).
  eexists. split; [done|]. cbn [me]. rewrite wb_with. split; [done|]. destruct Hok as [Hm Hn].
  unfold scheduled, wb_ok, nr_pending in *. unfold WRITEBACK_MAX_PENDING_FLUSHES in *. split.
  - intros v Hv. cbn. split; [done|]. destruct (_ || _); [done|]. cbn.
    destruct (Z.ltb_spec (Z.of_nat (length (pending_writebacks (wb_of c (me w)))) + 1) (max_pending (wb_of c (me w))));
      [rewrite length_app; cbn; lia|cbn; lia].
  - intros -> -> Hpos. cbn.
    destruct (Z.ltb_spec (Z.of_nat (length (pending_writebacks (wb_of c (me w)))) + 1) (max_pending (wb_of c (me w))));
      [rewrite length_app; cbn; lia|cbn; lia].
Qed.

(** Blocks 7, 5, 6, 6 and 9 of a fork are pending. *)
Definition sample_block (b : Z) : BufferTag := mkBufferTag 1 1 1 0 b.
Definition sample_writeback (l : list Z) : World :=
  upd_me (with_wb BackendContext (mkWritebackContext 8 (sample_block <$> l)))
    (sample_world ClockSweepVtable [] []).
Definition no_writeback (l : RelFileLocator) (f b k : Z) : M unit := ret tt.

Lemma IssuePendingWritebacks_exact_witness :
  requests 5 (sort_pending_writebacks (sample_block <$> [7; 5; 6; 6; 9])) = [(sample_block 5, 3); (sample_block 9, 1)] /\
  exists reqs, requests_ok (sample_block <$> [7; 5; 6; 6; 9]) reqs.
Proof.
  split; [by vm_compute|].
  edestruct (IssuePendingWritebacks_exact no_writeback BackendContext (sample_writeback [7; 5; 6; 6; 9]))
    as (reqs & Hreqs & _); [done|by repeat constructor|done|].
  exists reqs. exact Hreqs.
Defined.

Lemma ScheduleBufferTagForWriteback_bounded_witness : exists w',
  ScheduleBufferTagForWriteback no_writeback false true BackendContext (sample_block 8) (sample_writeback [7; 5]) =
    (Ret tt, w') /\ pending_writebacks (wb_of BackendContext (me w')) = sample_block <$> [7; 5; 8].
Proof.
  destruct (ScheduleBufferTagForWriteback_bounded no_writeback false true BackendContext (sample_block 8)
    (sample_writeback [7; 5])) as (w' & Hrun & Hpend & _).
  - intros l f b k [s m fs]. by exists s, fs.
  - done.
  - exists w'. split; [done|]. by rewrite Hpend.
Defined.
