(* ===== verification/Eviction.v ===== *)
(** * Allocation and eviction of shared buffers ([src/backend/storage/buffer/bufmgr.c])

    A buffer for a block: the mapping table is searched; if the block is not in a
    buffer, the policy chooses a victim, a dirty victim is written out after the
    log, its old identity is deleted from the table and the new one entered.
    The code around the buffer manager is a [Server]: the hash function, the
    write-ahead log, the page header and the kernel. *)
From S2P Require Import Prelude BufState BufTag Shmem Concurrency PrivateRefCount Ring Policy BufTable Strategy.
From S2P Require Import LocalBuf ContentLock Pin BufIO Writeback.

(** ** The code around the buffer manager

    [XLogFlush] and [XLogNeedsFlush] are of [xlog.c], [PageGetLSN] and
    [PageSetChecksumCopy] of [bufpage.h] and [bufpage.c]; the last two fields
    are the settings that switch write-back off. *)
Class Server := {
  tag_hash : BufferTag -> Z;
  XLogFlush : Z -> M unit;
  XLogNeedsFlush : Z -> M bool;
  PageGetLSN : Z -> Z;
  PageSetChecksumCopy : Z -> Z -> Z;
  pgaio_wref_wait : Z -> M unit;
  smgrwriteback : RelFileLocator -> Z -> Z -> Z -> M unit;
  io_direct_data : bool;
  enableFsync : bool
}.

(** ** Partition locks

    What a backend sees of a lightweight lock: others may act while it waits, a
    lock it holds itself in a conflicting mode is waited for in vain, and the
    locks it holds are remembered, the last one first. *)
Definition MAX_SIMUL_LWLOCKS : Z := 200.
Definition conflicts (lock : Z) (mode : LWLockMode) (l : Z * LWLockMode) : bool :=
  (l.1 =? lock) && (bool_decide (mode = LW_EXCLUSIVE) || bool_decide (l.2 = LW_EXCLUSIVE)).

Definition LWLockAcquire (lock : Z) (mode : LWLockMode) : M unit :=
  let* held := get_me held_lwlocks in
  if MAX_SIMUL_LWLOCKS <=? Z.of_nat (length held) then elog "too many LWLocks taken"
  else
    HOLD_INTERRUPTS ;;
    interfere ;;
    if existsb (conflicts lock mode) held then spin
    else modify_me (with_held_lwlocks ((lock, mode) :: held)).

Fixpoint drop_lock (lock : Z) (held : list (Z * LWLockMode)) : option (list (Z * LWLockMode)) :=
  match held with
  | [] => None
  | l :: held => if l.1 =? lock then Some held else (l ::.) <$> drop_lock lock held
  end.

Definition LWLockRelease (lock : Z) : M unit :=
  let* held := get_me held_lwlocks in
  match drop_lock lock held with
  | None => elog "lock is not held"
  | Some held => modify_me (with_held_lwlocks held) ;; interfere ;; RESUME_INTERRUPTS
  end.

Definition BufMappingPartitionLock (hashcode : Z) : Z := BufTableHashPartition hashcode.

(** ** Pages and files *)
Definition BufHdrGetBlock (buf : Z) : M Z :=
  let* page := gets (fun w => lookupZ (BufferBlocks (shm w)) buf) in
  match page with
  | Some page => ret page
  | None => trap "buffer block out of range"
  end.

Definition smgrwrite (reln : RelFileLocator) (fork blkno page : Z) : M unit :=
  interfere ;;
  smgr_call ;;
  let* pages := gets (fun w => default [] (smgr_disk (shm w) !! (reln, fork))) in
  if (0 <=? blkno) && (blkno <? Z.of_nat (length pages))
  then modify_shm (fun s => with_smgr_disk (<[(reln, fork) := insertZ blkno page pages]> (smgr_disk s)) s)
  else trap "write past the end of the file".

Section bufmgr.
Context `{Server}.

Definition BufferGetLSN (bufHdr : Z) : M Z :=
  let* page := BufHdrGetBlock bufHdr in ret (PageGetLSN page).

(** ** Writing a page *)
Definition FlushBuffer (buf : Z) (reln : option RelFileLocator) : M unit :=
  let* started := StartBufferIO pgaio_wref_wait buf false false in
  if negb started then ret tt
  else
    let* d := deref buf in
    let reln := default (BufTagGetRelFileLocator (tag d)) reln in
    let* buf_state := LockBufHdr buf in
    let* recptr := BufferGetLSN buf in
    UnlockBufHdrExt buf buf_state 0 BM_JUST_DIRTIED 0 ;;
    when (flag buf_state BM_PERMANENT) (XLogFlush recptr) ;;
    let* bufBlock := BufHdrGetBlock buf in
    let* d := deref buf in
    let bufToWrite := PageSetChecksumCopy bufBlock (blockNum (tag d)) in
    smgrwrite reln (BufTagGetForkNum (tag d)) (blockNum (tag d)) bufToWrite ;;
    count_usage (fun a => with_shared_blks_written (shared_blks_written a + 1) a) ;;
    TerminateBufferIO buf true 0 true false.

Definition FlushUnlockedBuffer (buf : Z) (reln : option RelFileLocator) : M unit :=
  let* buffer := BufferDescriptorGetBuffer buf in
  BufferLockAcquire buffer buf BUFFER_LOCK_SHARE ;;
  FlushBuffer buf reln ;;
  BufferLockUnlock buffer buf.

(** ** Giving up an identity *)
Definition invalidate_locked (buf buf_state : Z) (oldTag : BufferTag) (oldHash : Z) : M unit :=
  StrategyNotifyInvalidate buf ;;
  let* d := deref buf in
  store_desc buf (with_tag (ClearBufferTag (tag d)) d) ;;
  UnlockBufHdrExt buf buf_state 0 (Z.lor BUF_FLAG_MASK BUF_USAGECOUNT_MASK) 0 ;;
  when (flag buf_state BM_TAG_VALID) (BufTableDelete tag_hash oldTag oldHash).
Definition invalidate_round (buf : Z) (oldTag : BufferTag) (oldHash : Z) (_ : unit) : M (ctl unit unit) :=
  let oldPartitionLock := BufMappingPartitionLock oldHash in
  LWLockAcquire oldPartitionLock LW_EXCLUSIVE ;;
  let* buf_state := LockBufHdr buf in
  let* d := deref buf in
  if negb (BufferTagsEqual (tag d) oldTag) then
    UnlockBufHdr buf ;;
    LWLockRelease oldPartitionLock ;;
    ret (Break tt)
  else if negb (BUF_STATE_GET_REFCOUNT buf_state =? 0) then
    UnlockBufHdr buf ;;
    LWLockRelease oldPartitionLock ;;
    let* b := BufferDescriptorGetBuffer buf in
    let* n := GetPrivateRefCount b in
    (if 0 <? n then elog "buffer is pinned in InvalidateBuffer" else ret tt) ;;
    WaitIO pgaio_wref_wait buf ;;
    ret (Continue tt)
  else
    c_assert (negb (flag buf_state BM_LOCK_WAKE_IN_PROGRESS)) "wakeup in progress" ;;
    invalidate_locked buf buf_state oldTag oldHash ;;
    LWLockRelease oldPartitionLock ;;
    ret (Break tt).

(** The header lock is held at entry. *)
Definition InvalidateBuffer (buf : Z) : M unit :=
  let* d := deref buf in
  let oldTag := tag d in
  UnlockBufHdr buf ;;
  let oldHash := BufTableHashCode tag_hash oldTag in
  forever (invalidate_round buf oldTag oldHash) tt.

Definition InvalidateVictimBuffer (buf_hdr : Z) : M bool :=
  let* b := BufferDescriptorGetBuffer buf_hdr in
  let* n := GetPrivateRefCount b in
  c_assert (n =? 1) "victim is not pinned once" ;;
  let* d := deref buf_hdr in
  let t := tag d in
  let hash := BufTableHashCode tag_hash t in
  let partition_lock := BufMappingPartitionLock hash in
  LWLockAcquire partition_lock LW_EXCLUSIVE ;;
  let* buf_state := LockBufHdr buf_hdr in
  let* d := deref buf_hdr in
  c_assert (flag buf_state BM_TAG_VALID) "victim has no tag" ;;
  c_assert (0 <? BUF_STATE_GET_REFCOUNT buf_state) "victim has no pin" ;;
  c_assert (BufferTagsEqual (tag d) t) "tag of a pinned buffer changed" ;;
  if negb (BUF_STATE_GET_REFCOUNT buf_state =? 1) || flag buf_state BM_DIRTY then
    UnlockBufHdr buf_hdr ;;
    LWLockRelease partition_lock ;;
    ret false
  else
    c_assert (negb (flag buf_state BM_LOCK_WAKE_IN_PROGRESS)) "wakeup in progress" ;;
    store_desc buf_hdr (with_tag (ClearBufferTag (tag d)) d) ;;
    UnlockBufHdrExt buf_hdr buf_state 0 (Z.lor BUF_FLAG_MASK BUF_USAGECOUNT_MASK) 0 ;;
    BufTableDelete tag_hash t hash ;;
    LWLockRelease partition_lock ;;
    let* buf_state := pg_atomic_read_u64 buf_hdr in
    c_assert (negb (flag buf_state (Z.lor BM_DIRTY (Z.lor BM_VALID BM_TAG_VALID)))) "victim is still valid" ;;
    c_assert (0 <? BUF_STATE_GET_REFCOUNT buf_state) "victim has no pin" ;;
    let* buf_state := pg_atomic_read_u64 buf_hdr in
    c_assert (0 <? BUF_STATE_GET_REFCOUNT buf_state) "victim has no pin" ;;
    ret true.

(** ** Choosing a victim *)

(** Gives a prospective victim back to the policy. *)
Definition give_up_victim (buf_hdr : Z) : M unit :=
  StrategyNotifyInsert buf_hdr ;;
  UnpinBuffer buf_hdr.

(** Whether the strategy would rather not wait for the log; the state word last
    read, and whether the victim is to be given up. *)
Definition judge_victim (strategy : BufferAccessStrategy) (buf_hdr buf_state : Z) (from_ring : bool) : M (Z * bool) :=
  match strategy with
  | None => ret (buf_state, false)
  | Some h =>
      let* buf_state := LockBufHdr buf_hdr in
      let* lsn := BufferGetLSN buf_hdr in
      UnlockBufHdr buf_hdr ;;
      let* needs_flush := XLogNeedsFlush lsn in
      let* rejected := if needs_flush then StrategyRejectBuffer h buf_hdr from_ring else ret false in
      ret (buf_state, rejected)
  end.

(** Writes a dirty victim out; [None] if it is to be given up, otherwise the state
    word last read. *)
Definition flush_victim (strategy : BufferAccessStrategy) (buf_hdr buf buf_state : Z) (from_ring : bool)
    : M (option Z) :=
  c_assert (flag buf_state BM_TAG_VALID) "dirty buffer without a tag" ;;
  c_assert (flag buf_state BM_VALID) "dirty buffer without a page" ;;
  let* locked := BufferLockConditional buf buf_hdr BUFFER_LOCK_SHARE in
  if negb locked then give_up_victim buf_hdr ;; ret None
  else
    let* '(buf_state, rejected) := judge_victim strategy buf_hdr buf_state from_ring in
    if rejected then
      LockBuffer buf BUFFER_LOCK_UNLOCK ;;
      give_up_victim buf_hdr ;;
      ret None
    else
      FlushBuffer buf_hdr None ;;
      LockBuffer buf BUFFER_LOCK_UNLOCK ;;
      let* d := deref buf_hdr in
      ScheduleBufferTagForWriteback smgrwriteback io_direct_data enableFsync BackendContext (tag d) ;;
      ret (Some buf_state).

(** Takes the block of a clean victim away. *)
Definition claim_victim (buf_hdr buf buf_state : Z) : M (ctl unit Z) :=
  let* reusable := if flag buf_state BM_TAG_VALID then InvalidateVictimBuffer buf_hdr else ret true in
  if negb reusable then give_up_victim buf_hdr ;; ret (Continue tt)
  else
    let* buf_state := pg_atomic_read_u64 buf_hdr in
    c_assert (BUF_STATE_GET_REFCOUNT buf_state =? 1) "victim is not pinned once" ;;
    c_assert (negb (flag buf_state (Z.lor BM_TAG_VALID (Z.lor BM_VALID BM_DIRTY)))) "victim is still valid" ;;
    CheckBufferIsPinnedOnce buf ;;
    ret (Break buf).

Definition victim_round (strategy : BufferAccessStrategy) (_ : unit) : M (ctl unit Z) :=
  let* '(buf_hdr, buf_state, from_ring) := StrategyGetBuffer strategy in
  let* buf := BufferDescriptorGetBuffer buf_hdr in
  CheckBufferIsPinnedOnce buf ;;
  let* kept :=
    if flag buf_state BM_DIRTY then flush_victim strategy buf_hdr buf buf_state from_ring
    else ret (Some buf_state) in
  match kept with
  | None => ret (Continue tt)
  | Some buf_state => claim_victim buf_hdr buf buf_state
  end.

Definition GetVictimBuffer (strategy : BufferAccessStrategy) : M Z :=
  ReservePrivateRefCountEntry ;;
  forever (victim_round strategy) tt.

(** ** A buffer for a block *)
Inductive RelPersistence := RELPERSISTENCE_PERMANENT | RELPERSISTENCE_UNLOGGED | RELPERSISTENCE_TEMP.
#[export] Instance RelPersistence_eq_dec : EqDecision RelPersistence.
Proof. solve_decision. Defined.

(** Gives the pinned victim the identity [newTag]; the partition lock is held. *)
Definition enter_victim (victim_buf_hdr : Z) (newTag : BufferTag) (permanent : bool) : M unit :=
  let* victim_buf_state := LockBufHdr victim_buf_hdr in
  c_assert (BUF_STATE_GET_REFCOUNT victim_buf_state =? 1) "victim is not pinned once" ;;
  c_assert (negb (flag victim_buf_state
    (Z.lor BM_TAG_VALID (Z.lor BM_VALID (Z.lor BM_DIRTY BM_IO_IN_PROGRESS))))) "victim is still valid" ;;
  let* d := deref victim_buf_hdr in
  store_desc victim_buf_hdr (with_tag newTag d) ;;
  let set_bits := Z.lor BM_TAG_VALID BUF_USAGECOUNT_ONE in
  let set_bits := if permanent then Z.lor set_bits BM_PERMANENT else set_bits in
  UnlockBufHdrExt victim_buf_hdr victim_buf_state set_bits 0 0 ;;
  ret tt.

(** The victim is pinned and has no block: it gets [newTag], unless another backend
    has entered a buffer for the block in the meantime. *)
Definition adopt_victim (victim_buf_hdr : Z) (newTag : BufferTag) (newHash : Z) (permanent : bool)
    (strategy : BufferAccessStrategy) : M (Z * bool) :=
  let newPartitionLock := BufMappingPartitionLock newHash in
  LWLockAcquire newPartitionLock LW_EXCLUSIVE ;;
  let* d := deref victim_buf_hdr in
  let* existing_buf_id := BufTableInsert tag_hash newTag newHash (buf_id d) in
  if 0 <=? existing_buf_id then
    StrategyNotifyInsert victim_buf_hdr ;;
    UnpinBuffer victim_buf_hdr ;;
    let existing_buf_hdr := GetBufferDescriptor existing_buf_id in
    let* valid := PinBuffer existing_buf_hdr strategy false in
    LWLockRelease newPartitionLock ;;
    ret (existing_buf_hdr, valid)
  else
    enter_victim victim_buf_hdr newTag permanent ;;
    LWLockRelease newPartitionLock ;;
    StrategyNotifyInsert victim_buf_hdr ;;
    ret (victim_buf_hdr, false).

(** Returns the buffer and [*foundPtr]. *)
Definition BufferAlloc (smgr : RelFileLocator) (relpersistence : RelPersistence) (forkNum blockNum : Z)
    (strategy : BufferAccessStrategy) : M (Z * bool) :=
  ReservePrivateRefCountEntry ;;
  let newTag := InitBufferTag (mkBufferTag 0 0 0 0 0) smgr forkNum blockNum in
  let newHash := BufTableHashCode tag_hash newTag in
  let newPartitionLock := BufMappingPartitionLock newHash in
  LWLockAcquire newPartitionLock LW_SHARED ;;
  let* existing_buf_id := BufTableLookup tag_hash newTag newHash in
  if 0 <=? existing_buf_id then
    let buf := GetBufferDescriptor existing_buf_id in
    let* valid := PinBuffer buf strategy false in
    LWLockRelease newPartitionLock ;;
    when valid (StrategyNotifyHit buf) ;;
    ret (buf, valid)
  else
    LWLockRelease newPartitionLock ;;
    let* victim_buffer := GetVictimBuffer strategy in
    adopt_victim (GetBufferDescriptor (victim_buffer - 1)) newTag newHash
      (bool_decide (relpersistence = RELPERSISTENCE_PERMANENT) || (forkNum =? INIT_FORKNUM)) strategy.
End bufmgr.
