(* ===== verification/BSearch.v ===== *)
(** * Searching a list of relations ([src/backend/storage/buffer/bufmgr.c])

    Which relation of a list a buffer belongs to: a walk through a short list, and
    [bsearch] of the C library in a longer one that [qsort] has put in order.
    Both find the same relation. *)
From stdpp Require Import sorting.
From S2P Require Import Prelude BufTag SortTemplate.

Definition RELS_BSEARCH_THRESHOLD : Z := 20.

(** ** [bsearch], on the elements [lo, lo + k) *)
Section bsearch.
Context {A : Type} (cmp : A -> A -> Z).
Fixpoint bsearch_in (fuel : nat) (key : A) (l : list A) (lo k : nat) : option A :=
  match fuel with
  | O => None
  | S fuel =>
      if Nat.eqb k 0 then None
      else
        let half := Nat.div2 k in
        match l !! (lo + half)%nat with
        | None => None
        | Some x =>
            let c := cmp key x in
            if c =? 0 then Some x
            else if c <? 0 then bsearch_in fuel key l lo half
            else bsearch_in fuel key l (lo + half + 1) (k - half - 1)
        end
  end.
Definition bsearch (key : A) (l : list A) : option A := bsearch_in (S (length l)) key l 0 (length l).

(** In an array in order it finds the key exactly if the key is there. *)
Context `{!TotalCompare cmp}.
Definition cmp_le (x y : A) : Prop := cmp x y <= 0.

Lemma cmp_le_refl x : cmp_le x x.
Proof using TotalCompare0. unfold cmp_le. by rewrite (proj2 (cmp_eq x x) eq_refl). Qed.
Lemma sorted_lookup l : StronglySorted cmp_le l -> forall i j x y,
  (i <= j)%nat -> l !! i = Some x -> l !! j = Some y -> cmp_le x y.
Proof using TotalCompare0.
  induction 1 as [|z l Hl IH Hz]; [done|]. intros [|i] [|j] x y Hij Hx Hy; cbn in *; simplify_eq; [apply cmp_le_refl| |lia|].
  - rewrite Forall_forall in Hz. apply Hz. by eapply list_elem_of_lookup_2.
  - by eapply (IH i j); [lia|..].
Qed.

Lemma bsearch_in_spec key l : StronglySorted cmp_le l -> forall fuel lo k,
  (k < fuel)%nat -> (lo + k <= length l)%nat ->
  match bsearch_in fuel key l lo k with
  | Some x => x = key /\ key ∈ l
  | None => forall i, (lo <= i < lo + k)%nat -> l !! i <> Some key
  end.
Proof using TotalCompare0.
  intros Hl. induction fuel as [|fuel IH]; intros lo k Hk Hlen; [lia|]. cbn [bsearch_in].
  destruct (Nat.eqb_spec k 0) as [->|Hk0]; [lia|]. pose proof (Nat.div2_div k) as Hd.
  pose proof (Nat.div_lt k 2 ltac:(lia) ltac:(lia)) as Hh. rewrite <- Hd in Hh. set (half := Nat.div2 k) in *.
  destruct (lookup_lt_is_Some_2 l (lo + half)) as [x Hx]; [lia|]. rewrite Hx.
  pose proof (cmp_range key x) as Hr. pose proof (cmp_antisym key x) as Ha.
  destruct (Z.eqb_spec (cmp key x) 0) as [E|E].
  - apply cmp_eq in E as <-. split; [done|]. by eapply list_elem_of_lookup_2.
  - destruct (Z.ltb_spec (cmp key x) 0) as [Hlt|Hge].
    + specialize (IH lo half ltac:(lia) ltac:(lia)). destruct (bsearch_in fuel key l lo half); [done|].
      intros i Hi Hkey. destruct (decide (i < lo + half)%nat) as [|Hi']; [by apply (IH i); [lia|]|].
      pose proof (sorted_lookup l Hl (lo + half) i x key ltac:(lia) Hx Hkey) as Hle. unfold cmp_le in Hle. lia.
    + specialize (IH (lo + half + 1)%nat (k - half - 1)%nat ltac:(lia) ltac:(lia)).
      destruct (bsearch_in fuel key l (lo + half + 1) (k - half - 1)); [done|].
      intros i Hi Hkey. destruct (decide (lo + half < i)%nat) as [|Hi']; [by apply (IH i); [lia|]|].
      pose proof (sorted_lookup l Hl i (lo + half) key x ltac:(lia) Hkey Hx) as Hle. unfold cmp_le in Hle. lia.
Qed.

Lemma bsearch_found key l x : StronglySorted cmp_le l -> bsearch key l = Some x <-> x = key /\ key ∈ l.
Proof using TotalCompare0.
  intros Hl. pose proof (bsearch_in_spec key l Hl (S (length l)) 0 (length l) ltac:(lia) ltac:(lia)) as Hspec.
  unfold bsearch. destruct (bsearch_in _ key l 0 (length l)) as [y|].
  - destruct Hspec as [-> Hin]. split; [by intros [= ->]|by intros [-> _]].
  - split; [done|]. intros [_ Hin]. apply list_elem_of_lookup_1 in Hin as [i Hi].
    pose proof (lookup_lt_Some _ _ _ Hi). by destruct (Hspec i); [lia|].
Qed.
End bsearch.

(** ** The relation of a buffer *)
Definition sort_locators : list RelFileLocator -> list RelFileLocator := sort_array rlocator_comparator.

Definition find_locator (locators : list RelFileLocator) : BufferTag -> option RelFileLocator :=
  if RELS_BSEARCH_THRESHOLD <? Z.of_nat (length locators)
  then let sorted := sort_locators locators in
       fun t => bsearch rlocator_comparator (BufTagGetRelFileLocator t) sorted
  else fun t => List.find (BufTagMatchesRelFileLocator t) locators.

(** The search gives the relation of the tag, if it is one of the list. *)
Lemma find_locator_spec locators t r :
  find_locator locators t = Some r <-> r = BufTagGetRelFileLocator t /\ r ∈ locators.
Proof.
  unfold find_locator. destruct (_ <? _).
  - rewrite (bsearch_found rlocator_comparator) by apply (sort_array_sorted rlocator_comparator).
    unfold sort_locators. rewrite (sort_array_perm rlocator_comparator locators). naive_solver.
  - induction locators as [|l ls IH]; cbn; [split; [done|]; intros [_ []%not_elem_of_nil]|].
    destruct (BufTagMatchesRelFileLocator t l) eqn:E.
    + apply BufTagMatches_spec in E as <-. rewrite elem_of_cons. split; [by intros [= <-]; auto|by intros [-> _]].
    + rewrite IH, elem_of_cons. assert (BufTagGetRelFileLocator t <> l); [|naive_solver].
      intros Hl. by rewrite (proj2 (BufTagMatches_spec t l) Hl) in E.
Qed.
