(* ===== verification/DropFlush.v ===== *)
(** * Dropping and writing buffers in bulk ([src/backend/storage/buffer/bufmgr.c])

    The functions that go through the pool: those that forget the buffers of
    relations and databases that are dropped or truncated, those that write dirty
    buffers out, for a checkpoint, for the background writer or for a caller that
    copies files, and those that empty or dirty the pool for tests. *)
From S2P Require Import Prelude BufState BufTag Shmem Concurrency PrivateRefCount Ring BufTable.
From S2P Require Import LocalBuf ContentLock Pin BufIO Writeback Eviction BSearch.

Definition INVALID_PROC_NUMBER : Z := -1.
Definition MAX_FORKNUM : Z := INIT_FORKNUM.
Definition BUF_DROP_FULL_SCAN_THRESHOLD (NBuffers : Z) : Z := u64 (Z.quot NBuffers 32).
Definition BUF_WRITTEN : Z := 1.
Definition BUF_REUSABLE : Z := 2.

(** [smgr_rlocator] of an open relation: the locator and the backend that owns a
    temporary relation. *)
Record SMgrRelation := mkSMgrRelation {
  smgr_locator : RelFileLocator;
  smgr_backend : Z
}.
Definition RelFileLocatorBackendIsTemp (r : SMgrRelation) : bool := negb (smgr_backend r =? INVALID_PROC_NUMBER).

Section bulk.
Context `{Server}.
(** The size of a fork as far as it is known without a system call, whether a fork
    has a file, and the checksum put on a page in place. *)
Context (smgrnblocks_cached : SMgrRelation -> Z -> Z) (smgrexists : SMgrRelation -> Z -> M bool).
Context (PageSetChecksumInplace : Z -> Z -> Z).

(** ** Forgetting buffers *)

(** One round of a scan: the header is locked only if a first look at the tag says
    so, which also says how to look again with the header locked. *)
Definition drop_if (look : BufferTag -> option (BufferTag -> bool)) (i : Z) : M unit :=
  let bufHdr := GetBufferDescriptor i in
  let* d := deref bufHdr in
  match look (tag d) with
  | None => ret tt
  | Some again =>
      LockBufHdr bufHdr ;;
      let* d := deref bufHdr in
      if again (tag d) then InvalidateBuffer bufHdr else UnlockBufHdr bufHdr
  end.
Definition scan_buffers (body : Z -> M unit) : M unit :=
  let* n := get_me NBuffers in for_upto (Z.to_nat n) 0 body.

Definition find_and_drop_block (rlocator : RelFileLocator) (forkNum firstDelBlock curBlock : Z) : M unit :=
  let bufTag := InitBufferTag (mkBufferTag 0 0 0 0 0) rlocator forkNum curBlock in
  let bufHash := BufTableHashCode tag_hash bufTag in
  let bufPartitionLock := BufMappingPartitionLock bufHash in
  LWLockAcquire bufPartitionLock LW_SHARED ;;
  let* buf_id := BufTableLookup tag_hash bufTag bufHash in
  LWLockRelease bufPartitionLock ;;
  if buf_id <? 0 then ret tt
  else
    let bufHdr := GetBufferDescriptor buf_id in
    LockBufHdr bufHdr ;;
    let* d := deref bufHdr in
    if BufTagMatchesRelFileLocator (tag d) rlocator && (BufTagGetForkNum (tag d) =? forkNum) &&
       (blockNum (tag d) >=? firstDelBlock)
    then InvalidateBuffer bufHdr
    else UnlockBufHdr bufHdr.
Definition FindAndDropRelationBuffers (rlocator : RelFileLocator) (forkNum nForkBlock firstDelBlock : Z) : M unit :=
  for_upto (Z.to_nat (nForkBlock - firstDelBlock)) firstDelBlock (find_and_drop_block rlocator forkNum firstDelBlock).

(** The sizes of the forks, and how many blocks there are to forget; [None] if a
    size is not known.  The array of sizes has room for [MAX_FORKNUM] forks. *)
Fixpoint fork_sizes (reln : SMgrRelation) (i : Z) (forkNum firstDelBlock : list Z) (nBlocks : Z)
    : M (option (list Z * Z)) :=
  match forkNum, firstDelBlock with
  | f :: fs, b :: bs =>
      if MAX_FORKNUM <=? i then trap "nForkBlock out of range"
      else
        let nForkBlock := smgrnblocks_cached reln f in
        if nForkBlock =? InvalidBlockNumber then ret None
        else
          let* rest := fork_sizes reln (i + 1) fs bs (u64 (nBlocks + u32 (nForkBlock - b))) in
          ret ((fun '(l, n) => (nForkBlock :: l, n)) <$> rest)
  | _, _ => ret (Some ([], nBlocks))
  end.

Fixpoint find_and_drop_forks (rlocator : RelFileLocator) (forkNum nForkBlock firstDelBlock : list Z) : M unit :=
  match forkNum, nForkBlock, firstDelBlock with
  | f :: fs, n :: ns, b :: bs =>
      FindAndDropRelationBuffers rlocator f n b ;; find_and_drop_forks rlocator fs ns bs
  | _, _, _ => ret tt
  end.

Definition DropRelationBuffers (smgr_reln : SMgrRelation) (forkNum firstDelBlock : list Z) : M unit :=
  let rlocator := smgr_locator smgr_reln in
  if RelFileLocatorBackendIsTemp smgr_reln then
    let* my := get_me MyProcNumber in
    when (smgr_backend smgr_reln =? my) (DropRelationLocalBuffers pgaio_wref_wait rlocator forkNum firstDelBlock)
  else
    let* sizes := fork_sizes smgr_reln 0 forkNum firstDelBlock 0 in
    let* n := get_me NBuffers in
    let full_scan := scan_buffers (drop_if (fun t =>
      if BufTagMatchesRelFileLocator t rlocator
      then Some (fun t => BufTagMatchesRelFileLocator t rlocator && in_forks forkNum firstDelBlock t)
      else None)) in
    match sizes with
    | Some (nForkBlock, nBlocksToInvalidate) =>
        if negb (u32 nBlocksToInvalidate =? InvalidBlockNumber) &&
           (nBlocksToInvalidate <? BUF_DROP_FULL_SCAN_THRESHOLD n)
        then find_and_drop_forks rlocator forkNum nForkBlock firstDelBlock
        else full_scan
    | None => full_scan
    end.

(** The local relations of the list are dropped at once, the others remain. *)
Fixpoint drop_local_relations (smgr_reln : list SMgrRelation) : M (list SMgrRelation) :=
  match smgr_reln with
  | [] => ret []
  | r :: rs =>
      if RelFileLocatorBackendIsTemp r then
        let* my := get_me MyProcNumber in
        when (smgr_backend r =? my) (DropRelationAllLocalBuffers pgaio_wref_wait (smgr_locator r)) ;;
        drop_local_relations rs
      else
        let* rels := drop_local_relations rs in ret (r :: rels)
  end.

(** The sizes of all forks of the relations and their sum; [None] if a fork exists
    whose size is not known. *)
Fixpoint all_fork_sizes (reln : SMgrRelation) (k : nat) (j nBlocks : Z) : M (option (list Z * Z)) :=
  match k with
  | O => ret (Some ([], nBlocks))
  | S k =>
      let block := smgrnblocks_cached reln j in
      let next nBlocks :=
        let* rest := all_fork_sizes reln k (j + 1) nBlocks in
        ret ((fun '(l, n) => (block :: l, n)) <$> rest) in
      if block =? InvalidBlockNumber then
        let* e := smgrexists reln j in
        if negb e then next nBlocks else ret None
      else next (u64 (nBlocks + block))
  end.
Fixpoint all_relation_sizes (rels : list SMgrRelation) (nBlocks : Z) : M (option (list (list Z) * Z)) :=
  match rels with
  | [] => ret (Some ([], nBlocks))
  | r :: rs =>
      let* sizes := all_fork_sizes r (Z.to_nat (MAX_FORKNUM + 1)) 0 nBlocks in
      match sizes with
      | None => ret None
      | Some (block, nBlocks) =>
          let* rest := all_relation_sizes rs nBlocks in
          ret ((fun '(l, n) => (block :: l, n)) <$> rest)
      end
  end.

Fixpoint find_and_drop_all (rlocator : RelFileLocator) (j : Z) (block : list Z) : M unit :=
  match block with
  | [] => ret tt
  | b :: bs =>
      (if b =? InvalidBlockNumber then ret tt else FindAndDropRelationBuffers rlocator j b 0) ;;
      find_and_drop_all rlocator (j + 1) bs
  end.
Fixpoint find_and_drop_relations (rels : list SMgrRelation) (block : list (list Z)) : M unit :=
  match rels, block with
  | r :: rs, b :: bs => find_and_drop_all (smgr_locator r) 0 b ;; find_and_drop_relations rs bs
  | _, _ => ret tt
  end.

Definition DropRelationsAllBuffers (smgr_reln : list SMgrRelation) : M unit :=
  let* rels := drop_local_relations smgr_reln in
  if Nat.eqb (length rels) 0 then ret tt
  else
    let* sizes := all_relation_sizes rels 0 in
    let* n := get_me NBuffers in
    let locators := smgr_locator <$> rels in
    let full_scan := scan_buffers (drop_if (fun t =>
      (fun rlocator t => BufTagMatchesRelFileLocator t rlocator) <$> find_locator locators t)) in
    match sizes with
    | Some (block, nBlocksToInvalidate) =>
        if nBlocksToInvalidate <? BUF_DROP_FULL_SCAN_THRESHOLD n
        then find_and_drop_relations rels block
        else full_scan
    | None => full_scan
    end.

Definition DropDatabaseBuffers (dbid : Z) : M unit :=
  scan_buffers (drop_if (fun t => if dbOid t =? dbid then Some (fun t => dbOid t =? dbid) else None)).

(** ** Writing buffers *)

(** A round of a scan that writes dirty buffers; the first look also says through
    which open relation. *)
Definition flush_if (look : BufferTag -> option ((BufferTag -> bool) * option RelFileLocator)) (i : Z) : M unit :=
  let bufHdr := GetBufferDescriptor i in
  let* d := deref bufHdr in
  match look (tag d) with
  | None => ret tt
  | Some (again, reln) =>
      ReservePrivateRefCountEntry ;;
      let* buf_state := LockBufHdr bufHdr in
      let* d := deref bufHdr in
      if again (tag d) && (flag buf_state BM_VALID && flag buf_state BM_DIRTY) then
        PinBuffer_Locked bufHdr ;;
        FlushUnlockedBuffer bufHdr reln ;;
        UnpinBuffer bufHdr
      else UnlockBufHdr bufHdr
  end.

Definition flush_local_if (rlocator : RelFileLocator) (i : Z) : M unit :=
  let bufHdr := GetLocalBufferDescriptor i in
  let* d := local_deref bufHdr in
  if BufTagMatchesRelFileLocator (tag d) rlocator && (flag (state d) BM_VALID && flag (state d) BM_DIRTY) then
    ReservePrivateRefCountEntry ;;
    PinLocalBuffer bufHdr false ;;
    FlushLocalBuffer pgaio_wref_wait PageSetChecksumInplace bufHdr (Some rlocator) ;;
    UnpinLocalBuffer (buf_id d + 1)
  else ret tt.

(** [rel_local] is [RelationUsesLocalBuffers]. *)
Definition FlushRelationBuffers (rel_local : bool) (rd_locator : RelFileLocator) : M unit :=
  if rel_local then
    let* n := get_local NLocBuffer in for_upto (Z.to_nat n) 0 (flush_local_if rd_locator)
  else
    scan_buffers (flush_if (fun t => if BufTagMatchesRelFileLocator t rd_locator
      then Some (fun t => BufTagMatchesRelFileLocator t rd_locator, Some rd_locator) else None)).

Definition FlushRelationsAllBuffers (smgrs : list SMgrRelation) : M unit :=
  if Nat.eqb (length smgrs) 0 then ret tt
  else
    c_assert (forallb (fun r => negb (RelFileLocatorBackendIsTemp r)) smgrs) "temporary relation" ;;
    scan_buffers (flush_if (fun t =>
      (fun rlocator => (fun t => BufTagMatchesRelFileLocator t rlocator, Some rlocator)) <$>
        find_locator (smgr_locator <$> smgrs) t)).

Definition FlushDatabaseBuffers (dbid : Z) : M unit :=
  scan_buffers (flush_if (fun t => if dbOid t =? dbid then Some (fun t => dbOid t =? dbid, None) else None)).

Definition FlushOneBuffer (buffer : Z) : M unit :=
  c_assert (negb (BufferIsLocal buffer)) "local buffer" ;;
  assert_pinned buffer ;;
  let* locked := BufferIsLockedByMe buffer in
  c_assert locked "buffer is not locked" ;;
  FlushBuffer (GetBufferDescriptor (buffer - 1)) None.

(** One buffer for the checkpointer or the background writer. *)
Definition SyncOneBuffer (buf_id : Z) (skip_recently_used : bool) (wb : WritebackContextPtr) : M Z :=
  let bufHdr := GetBufferDescriptor buf_id in
  ReservePrivateRefCountEntry ;;
  let* buf_state := LockBufHdr bufHdr in
  let reusable := (BUF_STATE_GET_REFCOUNT buf_state =? 0) && (BUF_STATE_GET_USAGECOUNT buf_state =? 0) in
  let result := if reusable then BUF_REUSABLE else 0 in
  if negb reusable && skip_recently_used then UnlockBufHdr bufHdr ;; ret result
  else if negb (flag buf_state BM_VALID) || negb (flag buf_state BM_DIRTY) then UnlockBufHdr bufHdr ;; ret result
  else
    PinBuffer_Locked bufHdr ;;
    FlushUnlockedBuffer bufHdr None ;;
    let* d := deref bufHdr in
    UnpinBuffer bufHdr ;;
    ScheduleBufferTagForWriteback smgrwriteback io_direct_data enableFsync wb (tag d) ;;
    ret (Z.lor result BUF_WRITTEN).

(** ** Emptying the pool

    Whether the buffer was evicted, and whether it was written; the header lock is
    held at entry. *)
Definition EvictUnpinnedBufferInternal (desc : Z) : M (bool * bool) :=
  let* buf_state := pg_atomic_read_u64 desc in
  c_assert (flag buf_state BM_LOCKED) "header is not locked" ;;
  if negb (flag buf_state BM_VALID) then UnlockBufHdr desc ;; ret (false, false)
  else if 0 <? BUF_STATE_GET_REFCOUNT buf_state then UnlockBufHdr desc ;; ret (false, false)
  else
    PinBuffer_Locked desc ;;
    when (flag buf_state BM_DIRTY) (FlushUnlockedBuffer desc None) ;;
    let* result := InvalidateVictimBuffer desc in
    UnpinBuffer desc ;;
    ret (result, flag buf_state BM_DIRTY).

Definition EvictUnpinnedBuffer (buf : Z) : M (bool * bool) :=
  let* n := get_me NBuffers in
  c_assert (negb (BufferIsLocal buf) && (0 <? buf) && (buf <=? n)) "bad buffer" ;;
  ReservePrivateRefCountEntry ;;
  let desc := GetBufferDescriptor (buf - 1) in
  LockBufHdr desc ;;
  EvictUnpinnedBufferInternal desc.

(** The counters [buffers_evicted], [buffers_flushed] and [buffers_skipped]. *)
Record EvictionCounts := mkEvictionCounts {
  buffers_evicted : Z;
  buffers_flushed : Z;
  buffers_skipped : Z
}.
Definition count_eviction (r : bool * bool) (c : EvictionCounts) : EvictionCounts :=
  mkEvictionCounts
    (if r.1 then buffers_evicted c + 1 else buffers_evicted c)
    (if r.2 then buffers_flushed c + 1 else buffers_flushed c)
    (if r.1 then buffers_skipped c else buffers_skipped c + 1).
Fixpoint evict_scan (n : nat) (buf : Z) (body : Z -> M (option (bool * bool))) (c : EvictionCounts)
    : M EvictionCounts :=
  match n with
  | O => ret c
  | S n =>
      let* r := body (GetBufferDescriptor (buf - 1)) in
      evict_scan n (buf + 1) body (from_option (fun r => count_eviction r c) c r)
  end.

Definition EvictAllUnpinnedBuffers : M EvictionCounts :=
  let* n := get_me NBuffers in
  evict_scan (Z.to_nat n) 1 (fun desc =>
    let* buf_state := pg_atomic_read_u64 desc in
    if negb (flag buf_state BM_VALID) then ret None
    else
      ReservePrivateRefCountEntry ;;
      LockBufHdr desc ;;
      let* r := EvictUnpinnedBufferInternal desc in
      ret (Some r)) (mkEvictionCounts 0 0 0).

Definition EvictRelUnpinnedBuffers (rel_local : bool) (rd_locator : RelFileLocator) : M EvictionCounts :=
  c_assert (negb rel_local) "local relation" ;;
  let* n := get_me NBuffers in
  evict_scan (Z.to_nat n) 1 (fun desc =>
    let* buf_state := pg_atomic_read_u64 desc in
    let* d := deref desc in
    if negb (flag buf_state BM_VALID) || negb (BufTagMatchesRelFileLocator (tag d) rd_locator) then ret None
    else
      ReservePrivateRefCountEntry ;;
      let* buf_state := LockBufHdr desc in
      let* d := deref desc in
      if negb (flag buf_state BM_VALID) || negb (BufTagMatchesRelFileLocator (tag d) rd_locator)
      then UnlockBufHdr desc ;; ret None
      else
        let* r := EvictUnpinnedBufferInternal desc in
        ret (Some r)) (mkEvictionCounts 0 0 0).

(** ** Dirtying the pool

    Whether the buffer was dirtied, and whether it was dirty already; the header
    lock is held at entry. *)
Definition MarkDirtyUnpinnedBufferInternal (buf desc : Z) : M (bool * bool) :=
  let* buf_state := pg_atomic_read_u64 desc in
  c_assert (flag buf_state BM_LOCKED) "header is not locked" ;;
  if negb (flag buf_state BM_VALID) then UnlockBufHdr desc ;; ret (false, false)
  else if 0 <? BUF_STATE_GET_REFCOUNT buf_state then UnlockBufHdr desc ;; ret (false, false)
  else
    PinBuffer_Locked desc ;;
    when (negb (flag buf_state BM_DIRTY))
      (BufferLockAcquire buf desc BUFFER_LOCK_EXCLUSIVE ;;
       MarkBufferDirty buf ;;
       BufferLockUnlock buf desc) ;;
    UnpinBuffer desc ;;
    ret (negb (flag buf_state BM_DIRTY), flag buf_state BM_DIRTY).

Definition MarkDirtyUnpinnedBuffer (buf : Z) : M (bool * bool) :=
  c_assert (negb (BufferIsLocal buf)) "local buffer" ;;
  ReservePrivateRefCountEntry ;;
  let desc := GetBufferDescriptor (buf - 1) in
  LockBufHdr desc ;;
  let* '(buffer_dirtied, buffer_already_dirty) := MarkDirtyUnpinnedBufferInternal buf desc in
  c_assert (negb (buffer_dirtied && buffer_already_dirty)) "dirtied and already dirty" ;;
  ret (buffer_dirtied, buffer_already_dirty).

(** The counters [buffers_dirtied], [buffers_already_dirty] and [buffers_skipped]. *)
Record DirtyCounts := mkDirtyCounts {
  buffers_dirtied : Z;
  buffers_already_dirty : Z;
  dirty_buffers_skipped : Z
}.
Definition count_dirty (r : bool * bool) (c : DirtyCounts) : DirtyCounts :=
  if r.1 then mkDirtyCounts (buffers_dirtied c + 1) (buffers_already_dirty c) (dirty_buffers_skipped c)
  else if r.2 then mkDirtyCounts (buffers_dirtied c) (buffers_already_dirty c + 1) (dirty_buffers_skipped c)
  else mkDirtyCounts (buffers_dirtied c) (buffers_already_dirty c) (dirty_buffers_skipped c + 1).
Fixpoint dirty_scan (n : nat) (buf : Z) (body : Z -> Z -> M (option (bool * bool))) (c : DirtyCounts) : M DirtyCounts :=
  match n with
  | O => ret c
  | S n =>
      let* r := body buf (GetBufferDescriptor (buf - 1)) in
      dirty_scan n (buf + 1) body (from_option (fun r => count_dirty r c) c r)
  end.

Definition MarkDirtyRelUnpinnedBuffers (rel_local : bool) (rd_locator : RelFileLocator) : M DirtyCounts :=
  c_assert (negb rel_local) "local relation" ;;
  let* n := get_me NBuffers in
  dirty_scan (Z.to_nat n) 1 (fun buf desc =>
    let* buf_state := pg_atomic_read_u64 desc in
    let* d := deref desc in
    if negb (flag buf_state BM_VALID) || negb (BufTagMatchesRelFileLocator (tag d) rd_locator) then ret None
    else
      ReservePrivateRefCountEntry ;;
      let* buf_state := LockBufHdr desc in
      let* d := deref desc in
      if negb (flag buf_state BM_VALID) || negb (BufTagMatchesRelFileLocator (tag d) rd_locator)
      then UnlockBufHdr desc ;; ret None
      else
        let* r := MarkDirtyUnpinnedBufferInternal buf desc in
        ret (Some r)) (mkDirtyCounts 0 0 0).

Definition MarkDirtyAllUnpinnedBuffers : M DirtyCounts :=
  let* n := get_me NBuffers in
  dirty_scan (Z.to_nat n) 1 (fun buf desc =>
    let* buf_state := pg_atomic_read_u64 desc in
    if negb (flag buf_state BM_VALID) then ret None
    else
      ReservePrivateRefCountEntry ;;
      LockBufHdr desc ;;
      let* r := MarkDirtyUnpinnedBufferInternal buf desc in
      ret (Some r)) (mkDirtyCounts 0 0 0).

(** ** Asking about a pinned buffer *)
Definition buffer_tag (buffer : Z) : M BufferTag :=
  assert_pinned buffer ;;
  if BufferIsLocal buffer then let* d := local_deref (GetLocalBufferDescriptor (- buffer - 1)) in ret (tag d)
  else let* d := deref (GetBufferDescriptor (buffer - 1)) in ret (tag d).
Definition BufferGetBlockNumber (buffer : Z) : M Z :=
  let* t := buffer_tag buffer in ret (blockNum t).
Definition BufferGetTag (buffer : Z) : M (RelFileLocator * Z * Z) :=
  let* t := buffer_tag buffer in ret (BufTagGetRelFileLocator t, BufTagGetForkNum t, blockNum t).
Definition BufferIsPermanent (buffer : Z) : M bool :=
  if BufferIsLocal buffer then ret false
  else
    c_assert (BufferIsValid buffer) "invalid buffer" ;;
    assert_pinned buffer ;;
    let* s := pg_atomic_read_u64 (GetBufferDescriptor (buffer - 1)) in
    ret (flag s BM_PERMANENT).
End bulk.
