(* ===== verification/Checkpoint.v ===== *)
(** * Checkpoints ([bufmgr.c], lines 137-159, 3491-3756, 4377-4380, 7279-7291)

    [BufferSync]: the dirty buffers are marked, sorted, and written in an order
    that a heap of tablespaces balances by their progress.  A pointer to the state
    of a tablespace is its index in [per_ts_stat]. *)
From Stdlib Require Import SpecFloat.
From S2P Require Import Prelude Float BufState BufTag SortTemplate BinaryHeap Shmem Concurrency PrivateRefCount Ring Policy Strategy.
From S2P Require Import LocalBuf ContentLock Pin BufIO Writeback Eviction DropFlush.

(** ** The progress of a tablespace *)
Record CkptTsStatus := mkCkptTsStatus {
  ts_tsId : Z;
  progress : float8;
  progress_slice : float8;
  ts_num_to_scan : Z;
  num_scanned : Z;
  ts_index : Z
}.
Definition zero_status : CkptTsStatus := mkCkptTsStatus 0 float8_zero float8_zero 0 0 0.

(** The nodes of the heap are pointers into [per_ts_stat]. *)
Definition ts_ckpt_progress_comparator (per_ts_stat : list CkptTsStatus) (a b : Z) : Z :=
  let sa := default zero_status (lookupZ per_ts_stat a) in
  let sb := default zero_status (lookupZ per_ts_stat b) in
  if SFltb (progress sa) (progress sb) then 1 else if SFeqb (progress sa) (progress sb) then 0 else -1.

(** ** Which buffers *)
Definition CHECKPOINT_IS_SHUTDOWN : Z := 1.
Definition CHECKPOINT_END_OF_RECOVERY : Z := 2.
Definition CHECKPOINT_FLUSH_UNLOGGED : Z := 16.

Definition ckpt_mask (flags : Z) : Z :=
  if Z.land flags (Z.lor (Z.lor CHECKPOINT_IS_SHUTDOWN CHECKPOINT_END_OF_RECOVERY) CHECKPOINT_FLUSH_UNLOGGED) =? 0
  then Z.lor BM_DIRTY BM_PERMANENT else BM_DIRTY.

Definition ckpt_item (buf_id : Z) (t : BufferTag) : CkptSortItem :=
  mkCkptSortItem (spcOid t) (BufTagGetRelNumber t) (BufTagGetForkNum t) (blockNum t) buf_id.

Definition mark_buffer (mask buf_id : Z) (CkptBufferIds : list CkptSortItem) : M (list CkptSortItem) :=
  let bufHdr := GetBufferDescriptor buf_id in
  let* buf_state := LockBufHdr bufHdr in
  if Z.land buf_state mask =? mask then
    let* d := deref bufHdr in
    UnlockBufHdrExt bufHdr buf_state BM_CHECKPOINT_NEEDED 0 0 ;;
    ret (CkptBufferIds ++ [ckpt_item buf_id (tag d)])
  else
    UnlockBufHdrExt bufHdr buf_state 0 0 0 ;;
    ret CkptBufferIds.
Fixpoint mark_buffers (mask : Z) (k : nat) (buf_id : Z) (CkptBufferIds : list CkptSortItem) : M (list CkptSortItem) :=
  match k with
  | O => ret CkptBufferIds
  | S k =>
      let* CkptBufferIds := mark_buffer mask buf_id CkptBufferIds in
      mark_buffers mask k (buf_id + 1) CkptBufferIds
  end.

(** ** One status per tablespace, in the order of the sorted array *)
Definition count_item (item : CkptSortItem) '((i, last_tsid, per_ts_stat) : Z * Z * list CkptTsStatus) : Z * Z * list CkptTsStatus :=
  let cur_tsid := tsId item in
  if (last_tsid =? InvalidOid) || negb (last_tsid =? cur_tsid)
  then (i + 1, cur_tsid, per_ts_stat ++ [mkCkptTsStatus cur_tsid float8_zero float8_zero 1 0 i])
  else
    let s := Z.of_nat (length per_ts_stat) - 1 in
    let st := default zero_status (lookupZ per_ts_stat s) in
    (i + 1, last_tsid, insertZ s (mkCkptTsStatus (ts_tsId st) (progress st) (progress_slice st)
      (ts_num_to_scan st + 1) (num_scanned st) (ts_index st)) per_ts_stat).
Definition ts_statuses (CkptBufferIds : list CkptSortItem) : list CkptTsStatus :=
  (foldl (fun acc item => count_item item acc) (0, InvalidOid, []) CkptBufferIds).2.

Definition set_slice (num_to_scan : Z) (s : CkptTsStatus) : CkptTsStatus :=
  mkCkptTsStatus (ts_tsId s) (progress s) (float8_div (float8_of_int num_to_scan) (float8_of_int (ts_num_to_scan s)))
    (ts_num_to_scan s) (num_scanned s) (ts_index s).
Definition advance (s : CkptTsStatus) : CkptTsStatus :=
  mkCkptTsStatus (ts_tsId s) (float8_add (progress s) (progress_slice s)) (progress_slice s)
    (ts_num_to_scan s) (num_scanned s + 1) (ts_index s + 1).

(** An operation on a heap or an array that belongs to the checkpointer. *)
Definition on {W A} (x : W) (m : ST W A) : M (A * W) :=
  match m x with
  | (Ret a, x') => ret (a, x')
  | (Elog e, _) => elog e
  | (UB e, _) => trap e
  | (Spin, _) => spin
  end.
Definition sort_checkpoint_bufferids (CkptBufferIds : list CkptSortItem) : M (list CkptSortItem) :=
  let* '(_, CkptBufferIds) := on CkptBufferIds (ST_SORT ckpt_buforder_comparator 0 (Z.of_nat (length CkptBufferIds))) in
  ret CkptBufferIds.

(** The heap over the tablespaces. *)
Fixpoint add_nodes (k : nat) (i : Z) : ST binaryheap unit :=
  match k with
  | O => ret tt
  | S k => binaryheap_add_unordered i ;; add_nodes k (i + 1)
  end.
Definition build_ts_heap (junk : Z -> Z) (per_ts_stat : list CkptTsStatus) : M binaryheap :=
  let num_spaces := Z.of_nat (length per_ts_stat) in
  let* h := binaryheap_allocate num_spaces junk in
  let* '(_, h) := on h
    (add_nodes (length per_ts_stat) 0 ;; binaryheap_build (ts_ckpt_progress_comparator per_ts_stat)) in
  ret h.

(** A finished tablespace leaves the heap, another one finds its new place. *)
Definition update_ts_heap (per_ts_stat : list CkptTsStatus) (ptr : Z) (ts_stat : CkptTsStatus) (h : binaryheap) : M binaryheap :=
  let cmp := ts_ckpt_progress_comparator per_ts_stat in
  if num_scanned ts_stat =? ts_num_to_scan ts_stat
  then let* '(_, h) := on h (binaryheap_remove_first cmp) in ret h
  else let* '(_, h) := on h (binaryheap_replace_first cmp ptr) in ret h.

(** ** Writing *)
Section BufferSync.
Context `{Server}.
(** The pause of the checkpointer, between two writes. *)
Context (CheckpointWriteDelay : Z -> float8 -> M unit).

Definition at_index {A} (l : list A) (i : Z) (what : string) : M A :=
  match lookupZ l i with
  | Some x => ret x
  | None => trap what
  end.

Record CkptState := mkCkptState {
  ck_heap : binaryheap;
  ck_stats : list CkptTsStatus;
  num_processed : Z;
  num_written : Z
}.

Definition sync_round (flags : Z) (CkptBufferIds : list CkptSortItem) (s : CkptState) : M (ctl CkptState Z) :=
  let num_to_scan := Z.of_nat (length CkptBufferIds) in
  if binaryheap_empty (ck_heap s) then ret (Break (num_written s))
  else
    let* '(ptr, _) := on (ck_heap s) binaryheap_first in
    let* ts_stat := at_index (ck_stats s) ptr "status out of range" in
    let* item := at_index CkptBufferIds (ts_index ts_stat) "item out of range" in
    let buf_id := ckpt_buf_id item in
    c_assert (negb (buf_id =? -1)) "buf_id != -1" ;;
    let* st := pg_atomic_read_u64 (GetBufferDescriptor buf_id) in
    let* result := (if flag st BM_CHECKPOINT_NEEDED then SyncOneBuffer buf_id false ProcessContext else ret 0) in
    let written := if ztrue (Z.land result BUF_WRITTEN) then num_written s + 1 else num_written s in
    let ts_stat := advance ts_stat in
    let per_ts_stat := insertZ ptr ts_stat (ck_stats s) in
    let* h := update_ts_heap per_ts_stat ptr ts_stat (ck_heap s) in
    CheckpointWriteDelay flags (float8_div (float8_of_int (num_processed s + 1)) (float8_of_int num_to_scan)) ;;
    ret (Continue (mkCkptState h per_ts_stat (num_processed s + 1) written)).

(** The number of buffers written, which goes into the statistics. *)
Definition BufferSync (junk : Z -> Z) (checkpoint_flush_after flags : Z) : M Z :=
  let* n := get_me NBuffers in
  let* CkptBufferIds := mark_buffers (ckpt_mask flags) (Z.to_nat n) 0 [] in
  let num_to_scan := Z.of_nat (length CkptBufferIds) in
  if num_to_scan =? 0 then ret 0
  else
    WritebackContextInit ProcessContext checkpoint_flush_after ;;
    let* CkptBufferIds := sort_checkpoint_bufferids CkptBufferIds in
    let per_ts_stat := ts_statuses CkptBufferIds in
    c_assert (negb (Nat.eqb (length per_ts_stat) 0)) "num_spaces > 0" ;;
    let per_ts_stat := set_slice num_to_scan <$> per_ts_stat in
    let* ts_heap := build_ts_heap junk per_ts_stat in
    let* num_written := forever (sync_round flags CkptBufferIds) (mkCkptState ts_heap per_ts_stat 0 0) in
    IssuePendingWritebacks smgrwriteback ProcessContext ;;
    ret num_written.

Definition CheckPointBuffers (junk : Z -> Z) (checkpoint_flush_after flags : Z) : M Z :=
  BufferSync junk checkpoint_flush_after flags.
End BufferSync.
