(* ===== verification/Extend.v ===== *)
(** * Extending a relation ([bufmgr.c] lines 962-1016 and 2690-2996)

    New blocks get their buffers before the file grows: victims are found and
    zeroed, entered in the lookup table as being read in, the file is extended
    with zeros, and only then are the buffers valid. *)
From S2P Require Import Prelude BufState BufTag Shmem Concurrency PrivateRefCount Ring Policy BufTable Strategy.
From S2P Require Import LocalBuf ContentLock Pin BufIO Writeback Eviction.

(** ** The storage manager

    A file grows when zeros are written at or after its end; a gap is zeros too. *)
Definition smgrnblocks (reln : RelFileLocator) (fork : Z) : M Z :=
  interfere ;;
  smgr_call ;;
  gets (fun w => Z.of_nat (length (default [] (smgr_disk (shm w) !! (reln, fork))))).

Definition zero_pages (blocknum nblocks : nat) (pages : list Z) : list Z :=
  resize blocknum 0 pages ++ replicate nblocks 0 ++ drop (blocknum + nblocks) pages.
Definition smgrzeroextend (reln : RelFileLocator) (fork blocknum nblocks : Z) : M unit :=
  interfere ;;
  smgr_call ;;
  modify_shm (fun s => with_smgr_disk (<[(reln, fork) :=
    zero_pages (Z.to_nat blocknum) (Z.to_nat nblocks) (default [] (smgr_disk s !! (reln, fork)))]> (smgr_disk s)) s).

(** ** Flags *)
Definition EB_SKIP_EXTENSION_LOCK : Z := 1.
Definition EB_CREATE_FORK_IF_NEEDED : Z := 4.
Definition EB_LOCK_FIRST : Z := 8.
Definition EB_LOCK_TARGET : Z := 32.

Section extend.
Context `{Server}.
(** The lock against concurrent extensions of [lmgr.c], the test of [bufpage.h]
    whether a page has never been initialised, and the checksum of [bufpage.c]. *)
Context (LockRelationForExtension UnlockRelationForExtension : RelFileLocator -> M unit).
Context (PageIsNew : Z -> bool) (PageSetChecksumInplace : Z -> Z -> Z).

(** ** Victims *)
Definition zero_block (buf : Z) : M unit :=
  BufHdrGetBlock buf ;;
  modify_shm (fun s => with_BufferBlocks (insertZ buf 0 (BufferBlocks s)) s).

Fixpoint extend_victims (strategy : BufferAccessStrategy) (extend_by : nat) : M (list Z) :=
  match extend_by with
  | O => ret []
  | S k =>
      let* b := GetVictimBuffer strategy in
      zero_block (GetBufferDescriptor (b - 1)) ;;
      let* bs := extend_victims strategy k in
      ret (b :: bs)
  end.

(** Those that turn out not to be needed. *)
Fixpoint release_victims (bs : list Z) : M unit :=
  match bs with
  | [] => ret tt
  | b :: bs => give_up_victim (GetBufferDescriptor (b - 1)) ;; release_victims bs
  end.

(** How many blocks are left to add. *)
Definition limit_extension (first_block extend_by extend_upto : Z) : Z :=
  if extend_upto =? InvalidBlockNumber then extend_by
  else if extend_upto <? first_block then 0
  else if extend_upto <? first_block + extend_by then u32 (extend_upto - first_block)
  else extend_by.

(** ** A buffer for a new block *)

(** The block has a buffer already, which may not be valid while it is re-used. *)
Definition clear_valid_round (existing_hdr : Z) (_ : unit) : M (ctl unit unit) :=
  pg_atomic_fetch_and_u64 existing_hdr (not64 BM_VALID) ;;
  let* started := StartBufferIO pgaio_wref_wait existing_hdr true false in
  ret (if started : bool then Break tt else Continue tt).

Definition extend_existing (existing_hdr victim_buf_hdr partition_lock : Z) (strategy : BufferAccessStrategy) : M Z :=
  let* valid := PinBuffer existing_hdr strategy false in
  LWLockRelease partition_lock ;;
  UnpinBuffer victim_buf_hdr ;;
  let* b := BufferDescriptorGetBuffer existing_hdr in
  let* buf_block := BufHdrGetBlock existing_hdr in
  if valid && negb (PageIsNew buf_block) then elog "unexpected data beyond EOF"
  else
    forever (clear_valid_round existing_hdr) tt ;;
    ret b.

(** The victim becomes the buffer of the block. *)
Definition extend_claim (victim_buf_hdr : Z) (newTag : BufferTag) (permanent : bool) : M unit :=
  let* buf_state := LockBufHdr victim_buf_hdr in
  c_assert (negb (flag buf_state
    (Z.lor BM_VALID (Z.lor BM_TAG_VALID (Z.lor BM_DIRTY BM_JUST_DIRTIED))))) "victim is still valid" ;;
  c_assert (BUF_STATE_GET_REFCOUNT buf_state =? 1) "victim is not pinned once" ;;
  let* d := deref victim_buf_hdr in
  store_desc victim_buf_hdr (with_tag newTag d) ;;
  let set_bits := Z.lor BM_TAG_VALID BUF_USAGECOUNT_ONE in
  let set_bits := if permanent then Z.lor set_bits BM_PERMANENT else set_bits in
  UnlockBufHdrExt victim_buf_hdr buf_state set_bits 0 0 ;;
  ret tt.

Definition extend_enter (reln : RelFileLocator) (relpersistence : RelPersistence) (fork : Z)
    (strategy : BufferAccessStrategy) (blockno victim_buf : Z) : M Z :=
  let victim_buf_hdr := GetBufferDescriptor (victim_buf - 1) in
  ReservePrivateRefCountEntry ;;
  let newTag := InitBufferTag (mkBufferTag 0 0 0 0 0) reln fork blockno in
  let hash := BufTableHashCode tag_hash newTag in
  let partition_lock := BufMappingPartitionLock hash in
  LWLockAcquire partition_lock LW_EXCLUSIVE ;;
  let* d := deref victim_buf_hdr in
  let* existing_id := BufTableInsert tag_hash newTag hash (buf_id d) in
  if 0 <=? existing_id
  then extend_existing (GetBufferDescriptor existing_id) victim_buf_hdr partition_lock strategy
  else
    extend_claim victim_buf_hdr newTag (bool_decide (relpersistence = RELPERSISTENCE_PERMANENT) || (fork =? INIT_FORKNUM)) ;;
    LWLockRelease partition_lock ;;
    StrategyNotifyInsert victim_buf_hdr ;;
    StartBufferIO pgaio_wref_wait victim_buf_hdr true false ;;
    ret victim_buf.

Fixpoint extend_enter_all (reln : RelFileLocator) (relpersistence : RelPersistence) (fork : Z)
    (strategy : BufferAccessStrategy) (blockno : Z) (bs : list Z) : M (list Z) :=
  match bs with
  | [] => ret []
  | b :: bs =>
      let* b := extend_enter reln relpersistence fork strategy (u32 blockno) b in
      let* bs := extend_enter_all reln relpersistence fork strategy (blockno + 1) bs in
      ret (b :: bs)
  end.

(** ** The new blocks are there *)
Definition locks_block (flags first_block extend_upto i : Z) : M bool :=
  if ztrue (Z.land flags EB_LOCK_FIRST) && (i =? 0) then ret true
  else if ztrue (Z.land flags EB_LOCK_TARGET) then
    c_assert (negb (extend_upto =? InvalidBlockNumber)) "extend_upto != InvalidBlockNumber" ;;
    ret (u32 (first_block + i + 1) =? extend_upto)
  else ret false.

Fixpoint extend_finish (flags first_block extend_upto i : Z) (bs : list Z) : M unit :=
  match bs with
  | [] => ret tt
  | b :: bs =>
      let* lock := locks_block flags first_block extend_upto i in
      when lock (LockBuffer b BUFFER_LOCK_EXCLUSIVE) ;;
      TerminateBufferIO (GetBufferDescriptor (b - 1)) false BM_VALID true false ;;
      extend_finish flags first_block extend_upto (i + 1) bs
  end.

(** The first new block and the buffers of the new blocks. *)
Definition ExtendBufferedRelShared (reln : RelFileLocator) (relpersistence : RelPersistence) (fork : Z)
    (strategy : BufferAccessStrategy) (flags extend_by extend_upto : Z) : M (Z * list Z) :=
  let* extend_by := LimitAdditionalPins extend_by in
  let* buffers := extend_victims strategy (Z.to_nat extend_by) in
  let locking := negb (ztrue (Z.land flags EB_SKIP_EXTENSION_LOCK)) in
  when locking (LockRelationForExtension reln) ;;
  let* first_block := smgrnblocks reln fork in
  let orig_extend_by := extend_by in
  let extend_by := limit_extension first_block orig_extend_by extend_upto in
  release_victims (drop (Z.to_nat extend_by) buffers) ;;
  if negb (extend_upto =? InvalidBlockNumber) && (extend_by =? 0) then
    when locking (UnlockRelationForExtension reln) ;;
    ret (first_block, [])
  else if MaxBlockNumber <=? first_block + extend_by then elog "cannot extend relation beyond MaxBlockNumber blocks"
  else
    let* buffers := extend_enter_all reln relpersistence fork strategy first_block (take (Z.to_nat extend_by) buffers) in
    smgrzeroextend reln fork first_block extend_by ;;
    when locking (UnlockRelationForExtension reln) ;;
    extend_finish flags first_block extend_upto 0 buffers ;;
    count_usage (fun a => with_shared_blks_written (shared_blks_written a + extend_by) a) ;;
    ret (first_block, buffers).

Definition ExtendBufferedRelCommon (reln : RelFileLocator) (relpersistence : RelPersistence) (fork : Z)
    (strategy : BufferAccessStrategy) (flags extend_by extend_upto : Z) : M (Z * list Z) :=
  if bool_decide (relpersistence = RELPERSISTENCE_TEMP)
  then ExtendBufferedRelLocal pgaio_wref_wait PageSetChecksumInplace reln fork extend_by extend_upto
  else ExtendBufferedRelShared reln relpersistence fork strategy flags extend_by extend_upto.

Definition ExtendBufferedRelBy (reln : RelFileLocator) (relpersistence : RelPersistence) (fork : Z)
    (strategy : BufferAccessStrategy) (flags extend_by : Z) : M (Z * list Z) :=
  c_assert (0 <? extend_by) "extend_by > 0" ;;
  ExtendBufferedRelCommon reln relpersistence fork strategy flags extend_by InvalidBlockNumber.

Definition ExtendBufferedRel (reln : RelFileLocator) (relpersistence : RelPersistence) (fork : Z)
    (strategy : BufferAccessStrategy) (flags : Z) : M Z :=
  let* '(_, buffers) := ExtendBufferedRelBy reln relpersistence fork strategy flags 1 in
  match buffers with
  | b :: _ => ret b
  | [] => trap "uninitialized buffer"
  end.
End extend.
