(* ===== verification/Readv.v ===== *)
(** * Vectored reads ([bufmgr.c] lines 7890-8552, [md.c] lines 1960-2090 and [aio])

    A read of consecutive blocks is described by a handle.  Before the read the
    handle's callbacks are told that it is staged, after it they get the result,
    from the innermost one ([md.c]) to the outermost one (the buffer manager),
    and may change it.  Handles that are executed by the caller itself are
    modelled in full; handing one to a worker or to the kernel is a parameter. *)
From S2P Require Import Prelude BufState BufTag Shmem Concurrency PrivateRefCount Ring Policy BufTable Strategy.
From S2P Require Import LocalBuf ContentLock Pin BufIO Writeback Eviction Sample.

(** ** Results *)
Inductive PgAioResultStatus := PGAIO_RS_UNKNOWN | PGAIO_RS_OK | PGAIO_RS_PARTIAL | PGAIO_RS_WARNING | PGAIO_RS_ERROR.
#[export] Instance PgAioResultStatus_eq_dec : EqDecision PgAioResultStatus.
Proof. solve_decision. Defined.

Inductive PgAioHandleCallbackID :=
  PGAIO_HCB_INVALID | PGAIO_HCB_MD_READV | PGAIO_HCB_SHARED_BUFFER_READV | PGAIO_HCB_LOCAL_BUFFER_READV.

Record PgAioResult := mkPgAioResult {
  result_id : PgAioHandleCallbackID;
  result_status : PgAioResultStatus;
  error_data : Z;
  result : Z
}.

(** The blocks of a read. *)
Record PgAioTargetData := mkPgAioTargetData {
  td_rlocator : RelFileLocator;
  td_blockNum : Z;
  td_nblocks : Z;
  td_forkNum : Z;
  td_is_temp : bool
}.

Inductive ErrorLevel := DEBUG1 | LOG_SERVER_ONLY | WARNING | ERROR.
#[export] Instance ErrorLevel_eq_dec : EqDecision ErrorLevel.
Proof. solve_decision. Defined.
Definition ereport (elevel : ErrorLevel) (msg : string) : M unit :=
  if bool_decide (elevel = ERROR) then elog msg else ret tt.

(** ** Errors in 23 bits *)
Definition READV_COUNT_BITS : Z := 7.
Definition READV_COUNT_MASK : Z := Z.shiftl 1 READV_COUNT_BITS - 1.
Definition PGAIO_RESULT_ERROR_BITS : Z := 23.

Record readv_error := mkReadvError {
  zeroed_any : bool;
  ignored_any : bool;
  zeroed_or_error_count : Z;
  checkfail_count : Z;
  first_off : Z
}.
#[export] Instance readv_error_eq_dec : EqDecision readv_error.
Proof. solve_decision. Defined.

Definition buffer_readv_decode_error (r : PgAioResult) : readv_error :=
  let rem_error := error_data r in
  let zeroed_any := ztrue (Z.land rem_error 1) in
  let rem_error := Z.shiftr rem_error 1 in
  let ignored_any := ztrue (Z.land rem_error 1) in
  let rem_error := Z.shiftr rem_error 1 in
  let zeroed_or_error_count := Z.land rem_error READV_COUNT_MASK in
  let rem_error := Z.shiftr rem_error READV_COUNT_BITS in
  let checkfail_count := Z.land rem_error READV_COUNT_MASK in
  let rem_error := Z.shiftr rem_error READV_COUNT_BITS in
  let first_off := Z.land rem_error READV_COUNT_MASK in
  mkReadvError zeroed_any ignored_any zeroed_or_error_count checkfail_count first_off.

(** [result->error_data |= v << shift] on the bit field. *)
Definition or_error_data (e v shift : Z) : Z :=
  Z.land (Z.lor e (u32 (Z.shiftl v shift))) (Z.ones PGAIO_RESULT_ERROR_BITS).

Definition buffer_readv_encode_error (r : PgAioResult) (is_temp zeroed_any ignored_any : bool)
    (error_count zeroed_count checkfail_count first_error_off first_zeroed_off first_ignored_off : Z) : M PgAioResult :=
  let zeroed_or_error_count := if 0 <? error_count then error_count else zeroed_count in
  let first_off :=
    if 0 <? error_count then first_error_off
    else if 0 <? zeroed_count then first_zeroed_off
    else first_ignored_off in
  c_assert (negb zeroed_any || (error_count =? 0)) "zeroed pages and errors" ;;
  let e := or_error_data 0 (Z.b2z zeroed_any) 0 in
  let e := or_error_data e (Z.b2z ignored_any) 1 in
  let e := or_error_data e zeroed_or_error_count 2 in
  let e := or_error_data e checkfail_count (2 + READV_COUNT_BITS) in
  let e := or_error_data e first_off (2 + READV_COUNT_BITS + READV_COUNT_BITS) in
  let r := mkPgAioResult (if is_temp then PGAIO_HCB_LOCAL_BUFFER_READV else PGAIO_HCB_SHARED_BUFFER_READV)
    (if 0 <? error_count then PGAIO_RS_ERROR else PGAIO_RS_WARNING) e (result r) in
  c_assert (bool_decide (buffer_readv_decode_error r =
    mkReadvError zeroed_any ignored_any zeroed_or_error_count checkfail_count first_off)) "readv error does not fit" ;;
  ret r.

(** ** Reports *)
Definition md_readv_report (r : PgAioResult) (td : PgAioTargetData) (elevel : ErrorLevel) : M unit :=
  ereport elevel "could not read blocks".

Definition buffer_readv_report (r : PgAioResult) (td : PgAioTargetData) (elevel : ErrorLevel) : M unit :=
  let nblocks := td_nblocks td in
  let e := buffer_readv_decode_error r in
  if zeroed_any e && ignored_any e then
    c_assert (1 <? nblocks) "nblocks > 1" ;;
    c_assert (negb (bool_decide (result_status r = PGAIO_RS_ERROR))) "result.status != PGAIO_RS_ERROR" ;;
    ereport elevel "zeroing page(s) and ignoring checksum failure(s)"
  else if bool_decide (result_status r = PGAIO_RS_ERROR) then
    c_assert (negb (zeroed_any e)) "!zeroed_any" ;;
    ereport elevel (if zeroed_or_error_count e =? 1 then "invalid page in block" else "invalid pages among blocks")
  else if zeroed_any e then
    ereport elevel (if zeroed_or_error_count e =? 1 then "invalid page in block; zeroing out page"
      else "zeroing out invalid pages among blocks")
  else if ignored_any e then
    ereport elevel (if checkfail_count e =? 1 then "ignoring checksum failure in block"
      else "ignoring checksum failures among blocks")
  else trap "pg_unreachable".

Definition pgaio_result_report (r : PgAioResult) (td : PgAioTargetData) (elevel : ErrorLevel) : M unit :=
  c_assert (negb (bool_decide (result_status r = PGAIO_RS_UNKNOWN))) "result.status != PGAIO_RS_UNKNOWN" ;;
  c_assert (negb (bool_decide (result_status r = PGAIO_RS_OK))) "result.status != PGAIO_RS_OK" ;;
  match result_id r with
  | PGAIO_HCB_INVALID => elog "callback does not have report callback"
  | PGAIO_HCB_MD_READV => md_readv_report r td elevel
  | PGAIO_HCB_SHARED_BUFFER_READV | PGAIO_HCB_LOCAL_BUFFER_READV => buffer_readv_report r td elevel
  end.

(** ** From bytes to blocks *)
Definition md_readv_complete (td : PgAioTargetData) (prior_result : PgAioResult) : M PgAioResult :=
  if result prior_result <? 0 then
    let r := mkPgAioResult PGAIO_HCB_MD_READV PGAIO_RS_ERROR
      (Z.land (u32 (- result prior_result)) (Z.ones PGAIO_RESULT_ERROR_BITS)) 0 in
    pgaio_result_report r td LOG_SERVER_ONLY ;;
    ret r
  else
    let blocks := Z.quot (result prior_result) BLCKSZ in
    c_assert (blocks <=? td_nblocks td) "result.result <= td->smgr.nblocks" ;;
    if blocks =? 0 then
      let r := mkPgAioResult PGAIO_HCB_MD_READV PGAIO_RS_ERROR 0 blocks in
      pgaio_result_report r td LOG_SERVER_ONLY ;;
      ret r
    else if negb (bool_decide (result_status prior_result = PGAIO_RS_ERROR)) && (blocks <? td_nblocks td)
    then ret (mkPgAioResult PGAIO_HCB_MD_READV PGAIO_RS_PARTIAL (error_data prior_result) blocks)
    else ret (mkPgAioResult (result_id prior_result) (result_status prior_result) (error_data prior_result) blocks).

(** ** Flags of a read *)
Definition READ_BUFFERS_ZERO_ON_ERROR : Z := 1.
Definition READ_BUFFERS_ISSUE_ADVICE : Z := 2.
Definition READ_BUFFERS_IGNORE_CHECKSUM_FAILURES : Z := 4.
Definition READ_BUFFERS_SYNCHRONOUSLY : Z := 8.
Definition PGAIO_HF_SYNCHRONOUS : Z := 1.
Definition PGAIO_HF_REFERENCES_LOCAL : Z := 2.

(** ** The page of a buffer *)
Definition read_block (buffer : Z) : M Z :=
  c_assert (BufferIsValid buffer) "invalid buffer" ;;
  if BufferIsLocal buffer
  then let* d := local_deref (GetLocalBufferDescriptor (- buffer - 1)) in read_local_page d
  else BufHdrGetBlock (GetBufferDescriptor (buffer - 1)).
Definition write_block (buffer page : Z) : M unit :=
  c_assert (BufferIsValid buffer) "invalid buffer" ;;
  if BufferIsLocal buffer
  then let* d := local_deref (GetLocalBufferDescriptor (- buffer - 1)) in write_local_page d page
  else
    let buf := GetBufferDescriptor (buffer - 1) in
    BufHdrGetBlock buf ;;
    modify_shm (fun s => with_BufferBlocks (insertZ buf page (BufferBlocks s)) s).

(** A handle that has been filled in. *)
Record PgAioHandle := mkPgAioHandle {
  ioh_wref : Z;
  ioh_flags : Z;
  ioh_callbacks : list (PgAioHandleCallbackID * Z);
  handle_data : list Z;
  target_data : PgAioTargetData
}.

(** What a read system call did: the number of bytes or minus the error number,
    and the pages of the buffers that it changed. *)
Record ReadResult := mkReadResult {
  rr_result : Z;
  rr_pages : list (option Z)
}.

(** ** The code around reads

    The handles of [aio.c], which may have to be waited for; I/O that is staged
    in a batch; the method of execution; the system call; the check of a page of
    [bufpage.c], which tells whether the page is acceptable and whether its
    checksum is wrong; and two settings. *)
Class Aio := {
  pgaio_have_staged : M bool;
  pgaio_submit_staged : M unit;
  pgaio_io_acquire_nb : M (option Z);
  pgaio_io_acquire : M Z;
  pgaio_io_release : Z -> M unit;
  method_needs_synchronous_execution : PgAioHandle -> bool;
  pgaio_submit : PgAioHandle -> M unit;
  pgaio_wref_check_done : Z -> M bool;
  pgaio_wref_finish : Z -> M (PgAioResult * PgAioTargetData);
  io_method_sync : bool;
  pg_preadv : World -> PgAioTargetData -> ReadResult;
  PageIsVerified : Z -> Z -> bool -> bool * bool;
  smgrmaxcombine : RelFileLocator -> Z -> Z -> Z;
  zero_damaged_pages : bool;
  ignore_checksum_failure : bool
}.

Section readv.
Context `{Server} `{Aio}.

(** ** Staging

    The read gets a pin of its own on every buffer. *)
Definition io_descriptor (is_temp : bool) (buffer : Z) : M BufferDesc :=
  if is_temp then local_deref (GetLocalBufferDescriptor (- buffer - 1)) else deref (GetBufferDescriptor (buffer - 1)).

Definition stage_buffer (io_ref : Z) (is_write is_temp : bool) (buffer : Z) : M unit :=
  let buf_hdr := if is_temp then GetLocalBufferDescriptor (- buffer - 1) else GetBufferDescriptor (buffer - 1) in
  let* buf_state := if is_temp then read_local_state buf_hdr else LockBufHdr buf_hdr in
  c_assert (flag buf_state BM_TAG_VALID) "buffer has no tag" ;;
  (if is_write then
     c_assert (flag buf_state BM_VALID) "buffer is not valid" ;;
     c_assert (flag buf_state BM_DIRTY) "buffer is not dirty"
   else
     c_assert (negb (flag buf_state BM_VALID)) "buffer is valid" ;;
     c_assert (negb (flag buf_state BM_DIRTY)) "buffer is dirty") ;;
  when (negb is_temp) (c_assert (flag buf_state BM_IO_IN_PROGRESS) "no I/O in progress") ;;
  c_assert (1 <=? BUF_STATE_GET_REFCOUNT buf_state) "buffer has no pins" ;;
  let* d := io_descriptor is_temp buffer in
  (if is_temp then
     local_store buf_hdr (with_io_wref (Some io_ref) d) ;;
     write_local_state buf_hdr (u64 (buf_state + BUF_REFCOUNT_ONE))
   else
     store_desc buf_hdr (with_io_wref (Some io_ref) d) ;;
     UnlockBufHdrExt buf_hdr buf_state 0 0 1 ;;
     ret tt) ;;
  when (is_write && negb is_temp)
    (let* held := BufferLockHeldByMe buf_hdr in
     c_assert held "buffer is not locked" ;;
     BufferLockDisown buffer) ;;
  when (negb is_temp) (ResourceOwnerForgetBufferIO buffer).

Fixpoint stage_buffers (io_ref : Z) (is_write is_temp : bool) (first : option BufferTag) (i : Z) (io_data : list Z) : M unit :=
  match io_data with
  | [] => ret tt
  | buffer :: io_data =>
      let* d := io_descriptor is_temp buffer in
      match first with
      | None => ret tt
      | Some f =>
          c_assert (relNumber (tag d) =? relNumber f) "blocks of different relations" ;;
          c_assert (blockNum (tag d) =? u32 (blockNum f + i)) "blocks are not consecutive"
      end ;;
      stage_buffer io_ref is_write is_temp buffer ;;
      stage_buffers io_ref is_write is_temp (Some (default (tag d) first)) (i + 1) io_data
  end.

Definition buffer_stage_common (ioh : PgAioHandle) (is_write is_temp : bool) : M unit :=
  stage_buffers (ioh_wref ioh) is_write is_temp None 0 (handle_data ioh).

(** ** Completion of one buffer *)
Record readv_one := mkReadvOne {
  buffer_invalid : bool;
  failed_checksum : bool;
  ignored_checksum : bool;
  zeroed_buffer : bool
}.

(** The page has arrived; is it one? *)
Definition check_page (td : PgAioTargetData) (buf_off buffer flags : Z) (is_temp : bool) (blockNum : Z) : M readv_one :=
  let ignore := ztrue (Z.land flags READ_BUFFERS_IGNORE_CHECKSUM_FAILURES) in
  let* bufdata := read_block buffer in
  let '(verified, failed_checksum) := PageIsVerified bufdata blockNum ignore in
  let* one :=
    if negb verified then
      if ztrue (Z.land flags READ_BUFFERS_ZERO_ON_ERROR) then
        write_block buffer 0 ;;
        ret (mkReadvOne false failed_checksum false true)
      else ret (mkReadvOne true failed_checksum false false)
    else ret (mkReadvOne false failed_checksum failed_checksum false) in
  when (buffer_invalid one || failed_checksum || zeroed_buffer one)
    (let* result_one := buffer_readv_encode_error (mkPgAioResult PGAIO_HCB_INVALID PGAIO_RS_UNKNOWN 0 0) is_temp
       (zeroed_buffer one) (ignored_checksum one) (Z.b2z (buffer_invalid one)) (if zeroed_buffer one then 1 else 0)
       (if failed_checksum then 1 else 0) buf_off buf_off buf_off in
     pgaio_result_report result_one td LOG_SERVER_ONLY) ;;
  ret one.

Definition buffer_readv_complete_one (td : PgAioTargetData) (buf_off buffer flags : Z) (failed is_temp : bool) : M readv_one :=
  let buf_hdr := if is_temp then GetLocalBufferDescriptor (- buffer - 1) else GetBufferDescriptor (buffer - 1) in
  let* d := io_descriptor is_temp buffer in
  let buf_state := state d in
  c_assert (flag buf_state BM_TAG_VALID) "buffer has no tag" ;;
  c_assert (negb (flag buf_state BM_VALID)) "buffer is valid" ;;
  when (negb is_temp) (c_assert (flag buf_state BM_IO_IN_PROGRESS) "no I/O in progress") ;;
  c_assert (negb (flag buf_state BM_DIRTY)) "buffer is dirty" ;;
  let* one :=
    if failed then ret (mkReadvOne false false false false)
    else check_page td buf_off buffer flags is_temp (blockNum (tag d)) in
  let failed := failed || buffer_invalid one in
  let set_flag_bits := if failed then BM_IO_ERROR else BM_VALID in
  (if is_temp then TerminateLocalBufferIO buf_hdr false set_flag_bits true
   else TerminateBufferIO buf_hdr false set_flag_bits false true) ;;
  ret one.

(** ** Completion of a read *)
Record readv_counts := mkReadvCounts {
  first_error_off : Z;
  first_zeroed_off : Z;
  first_ignored_off : Z;
  error_count : Z;
  zeroed_count : Z;
  ignored_count : Z;
  checkfails : Z
}.
Definition no_counts : readv_counts := mkReadvCounts 0 0 0 0 0 0 0.

Definition u8 (z : Z) : Z := z mod 2 ^ 8.
Definition count_one (buf_off : Z) (one : readv_one) (c : readv_counts) : readv_counts :=
  let is_error := buffer_invalid one && negb (zeroed_buffer one) in
  mkReadvCounts
    (if is_error && (error_count c =? 0) then buf_off else first_error_off c)
    (if zeroed_buffer one && (zeroed_count c =? 0) then buf_off else first_zeroed_off c)
    (if ignored_checksum one && (ignored_count c =? 0) then buf_off else first_ignored_off c)
    (if is_error then u8 (error_count c + 1) else error_count c)
    (if zeroed_buffer one then u8 (zeroed_count c + 1) else zeroed_count c)
    (if ignored_checksum one then u8 (ignored_count c + 1) else ignored_count c)
    (if failed_checksum one then u8 (checkfails c + 1) else checkfails c).

Fixpoint complete_buffers (td : PgAioTargetData) (prior_result : PgAioResult) (cb_data : Z) (is_temp : bool)
    (buf_off : Z) (io_data : list Z) (c : readv_counts) : M readv_counts :=
  match io_data with
  | [] => ret c
  | buf :: io_data =>
      c_assert (BufferIsValid buf) "invalid buffer" ;;
      let failed := bool_decide (result_status prior_result = PGAIO_RS_ERROR) || (result prior_result <=? buf_off) in
      let* one := buffer_readv_complete_one td buf_off buf cb_data failed is_temp in
      complete_buffers td prior_result cb_data is_temp (buf_off + 1) io_data (count_one buf_off one c)
  end.

Definition buffer_readv_complete (ioh : PgAioHandle) (prior_result : PgAioResult) (cb_data : Z) (is_temp : bool) : M PgAioResult :=
  let td := target_data ioh in
  c_assert (eqb (td_is_temp td) is_temp) "td->smgr.is_temp" ;;
  let* c := complete_buffers td prior_result cb_data is_temp 0 (handle_data ioh) no_counts in
  if negb (bool_decide (result_status prior_result = PGAIO_RS_ERROR)) &&
     ((0 <? error_count c) || (0 <? ignored_count c) || (0 <? zeroed_count c))
  then
    let* r := buffer_readv_encode_error prior_result is_temp (0 <? zeroed_count c) (0 <? ignored_count c)
      (error_count c) (zeroed_count c) (checkfails c) (first_error_off c) (first_zeroed_off c) (first_ignored_off c) in
    pgaio_result_report r td DEBUG1 ;;
    ret r
  else ret prior_result.

(** ** Callbacks *)
Definition shared_buffer_readv_stage (ioh : PgAioHandle) : M unit := buffer_stage_common ioh false false.
Definition local_buffer_readv_stage (ioh : PgAioHandle) : M unit := buffer_stage_common ioh false true.
Definition shared_buffer_readv_complete (ioh : PgAioHandle) (prior_result : PgAioResult) (cb_data : Z) : M PgAioResult :=
  buffer_readv_complete ioh prior_result cb_data false.
Definition local_buffer_readv_complete (ioh : PgAioHandle) (prior_result : PgAioResult) (cb_data : Z) : M PgAioResult :=
  buffer_readv_complete ioh prior_result cb_data true.

Definition call_stage (ioh : PgAioHandle) (cb_id : PgAioHandleCallbackID) : M unit :=
  match cb_id with
  | PGAIO_HCB_SHARED_BUFFER_READV => shared_buffer_readv_stage ioh
  | PGAIO_HCB_LOCAL_BUFFER_READV => local_buffer_readv_stage ioh
  | _ => ret tt
  end.
Definition call_complete_shared (ioh : PgAioHandle) (r : PgAioResult) (cb_id : PgAioHandleCallbackID) (cb_data : Z) : M PgAioResult :=
  match cb_id with
  | PGAIO_HCB_MD_READV => md_readv_complete (target_data ioh) r
  | PGAIO_HCB_SHARED_BUFFER_READV => shared_buffer_readv_complete ioh r cb_data
  | _ => ret r
  end.

(** The callback of shared buffers only reports statistics. *)
Definition call_complete_local (ioh : PgAioHandle) (r : PgAioResult) (cb_id : PgAioHandleCallbackID) (cb_data : Z) : M PgAioResult :=
  match cb_id with
  | PGAIO_HCB_LOCAL_BUFFER_READV => local_buffer_readv_complete ioh r cb_data
  | _ => ret r
  end.

(** The callback registered last comes first. *)
Fixpoint stage_all (ioh : PgAioHandle) (cbs : list (PgAioHandleCallbackID * Z)) : M unit :=
  match cbs with
  | [] => ret tt
  | (cb_id, _) :: cbs => call_stage ioh cb_id ;; stage_all ioh cbs
  end.
Definition pgaio_io_call_stage (ioh : PgAioHandle) : M unit := stage_all ioh (rev (ioh_callbacks ioh)).

Fixpoint complete_all (call : PgAioResult -> PgAioHandleCallbackID -> Z -> M PgAioResult)
    (cbs : list (PgAioHandleCallbackID * Z)) (r : PgAioResult) : M PgAioResult :=
  match cbs with
  | [] => ret r
  | (cb_id, cb_data) :: cbs =>
      let* r := call r cb_id cb_data in
      c_assert (negb (bool_decide (result_status r = PGAIO_RS_UNKNOWN))) "result.status != PGAIO_RS_UNKNOWN" ;;
      complete_all call cbs r
  end.
Definition pgaio_io_call_complete_shared (ioh : PgAioHandle) (raw : Z) : M PgAioResult :=
  complete_all (call_complete_shared ioh) (rev (ioh_callbacks ioh)) (mkPgAioResult PGAIO_HCB_INVALID PGAIO_RS_OK 0 raw).
Definition pgaio_io_call_complete_local (ioh : PgAioHandle) (distilled_result : PgAioResult) : M PgAioResult :=
  c_assert (negb (bool_decide (result_status distilled_result = PGAIO_RS_UNKNOWN))) "result.status != PGAIO_RS_UNKNOWN" ;;
  complete_all (call_complete_local ioh) (rev (ioh_callbacks ioh)) distilled_result.

(** ** Execution by the caller *)
Fixpoint store_pages (bs : list Z) (pages : list (option Z)) : M unit :=
  match bs, pages with
  | b :: bs, page :: pages =>
      match page with Some v => write_block b v | None => ret tt end ;;
      store_pages bs pages
  | _, _ => ret tt
  end.

Definition pgaio_io_process_completion (ioh : PgAioHandle) (raw : Z) : M PgAioResult :=
  let* distilled_result := pgaio_io_call_complete_shared ioh raw in
  pgaio_io_call_complete_local ioh distilled_result.

Definition pgaio_io_perform_synchronously (ioh : PgAioHandle) : M PgAioResult :=
  interfere ;;
  let* r := gets (fun w => pg_preadv w (target_data ioh)) in
  store_pages (handle_data ioh) (rr_pages r) ;;
  pgaio_io_process_completion ioh (rr_result r).

Definition pgaio_io_needs_synchronous_execution (ioh : PgAioHandle) : bool :=
  if ztrue (Z.land (ioh_flags ioh) PGAIO_HF_SYNCHRONOUS) then true else method_needs_synchronous_execution ioh.

(** The result, if it is there already. *)
Definition pgaio_io_stage (ioh : PgAioHandle) : M (option PgAioResult) :=
  pgaio_io_call_stage ioh ;;
  if pgaio_io_needs_synchronous_execution ioh then
    let* r := pgaio_io_perform_synchronously ioh in
    ret (Some r)
  else
    pgaio_submit ioh ;;
    ret None.

(** ** The storage manager *)
(** Blocks of a segment in the default configuration. *)
Definition RELSEG_SIZE : Z := 131072.
Definition mdstartreadv (wref ioh_flags : Z) (callbacks : list (PgAioHandleCallbackID * Z)) (is_temp : bool) (reln : RelFileLocator)
    (forknum blocknum : Z) (buffers : list Z) : M (option PgAioResult * PgAioTargetData) :=
  smgr_call ;;
  let nblocks := Z.of_nat (length buffers) in
  let nblocks_this_segment := Z.min nblocks (RELSEG_SIZE - blocknum mod RELSEG_SIZE) in
  if negb (nblocks_this_segment =? nblocks) then elog "read crossing segment boundary"
  else
    let td := mkPgAioTargetData reln blocknum nblocks forknum is_temp in
    let* r := pgaio_io_stage (mkPgAioHandle wref ioh_flags (callbacks ++ [(PGAIO_HCB_MD_READV, 0)]) buffers td) in
    ret (r, td).
End readv.

(** ** Errors survive in 23 bits *)
Lemma or_error_data_add e v k :
  0 <= k -> 0 <= e < 2 ^ k -> 0 <= v -> e + v * 2 ^ k < 2 ^ 23 -> or_error_data e v k = e + v * 2 ^ k.
Proof.
  intros Hk He Hv Hlt. unfold or_error_data. rewrite Z.shiftl_mul_pow2 by done.
  assert (0 <= v * 2 ^ k) by (apply Z.mul_nonneg_nonneg; lia).
  assert (u32 (v * 2 ^ k) = v * 2 ^ k) as -> by (unfold u32; apply Z.mod_small; lia).
  rewrite lor_disjoint.
  - rewrite Z.land_ones by done. change PGAIO_RESULT_ERROR_BITS with 23. apply Z.mod_small. lia.
  - apply Z.bits_inj'. intros i Hi. rewrite Z.land_spec, Z.bits_0. destruct (Z.lt_ge_cases i k).
    + rewrite Z.mul_pow2_bits_low by done. apply andb_false_r.
    + destruct (decide (e = 0)) as [->|]; [by rewrite Z.testbit_0_l|].
      rewrite Z.bits_above_log2; [done|lia|]. apply Z.lt_le_trans with k; [apply Z.log2_lt_pow2; lia|done].
Qed.

Lemma encode_bits (z i : bool) c k f :
  0 <= c <= READV_COUNT_MASK -> 0 <= k <= READV_COUNT_MASK -> 0 <= f <= READV_COUNT_MASK ->
  or_error_data (or_error_data (or_error_data (or_error_data (or_error_data 0 (Z.b2z z) 0) (Z.b2z i) 1) c 2) k (2 + READV_COUNT_BITS))
    f (2 + READV_COUNT_BITS + READV_COUNT_BITS) = Z.b2z z + Z.b2z i * 2 + c * 4 + k * 512 + f * 65536.
Proof.
  change READV_COUNT_MASK with 127. change (2 + READV_COUNT_BITS) with 9. change (9 + READV_COUNT_BITS) with 16. intros Hc Hk Hf.
  assert (0 <= Z.b2z z <= 1 /\ 0 <= Z.b2z i <= 1) as [Hz Hi] by (by destruct z, i).
  rewrite (or_error_data_add 0 (Z.b2z z) 0), (or_error_data_add _ (Z.b2z i) 1), (or_error_data_add _ c 2), (or_error_data_add _ k 9),
    (or_error_data_add _ f 16); lia.
Qed.

Lemma decode_bits id rs r (z i : bool) c k f :
  0 <= c <= READV_COUNT_MASK -> 0 <= k <= READV_COUNT_MASK -> 0 <= f <= READV_COUNT_MASK ->
  buffer_readv_decode_error (mkPgAioResult id rs (Z.b2z z + Z.b2z i * 2 + c * 4 + k * 512 + f * 65536) r) = mkReadvError z i c k f.
Proof.
  change READV_COUNT_MASK with 127. intros Hc Hk Hf. unfold buffer_readv_decode_error. cbn [error_data]. cbv zeta.
  change READV_COUNT_MASK with (Z.ones 7). change READV_COUNT_BITS with 7. change 1 with (Z.ones 1) at 1 3.
  rewrite !Z.shiftr_div_pow2, !Z.land_ones by done. change (2 ^ 1) with 2. change (2 ^ 7) with 128.
  assert (0 <= Z.b2z z <= 1 /\ 0 <= Z.b2z i <= 1) as [Hz Hi] by (by destruct z, i).
  set (e := Z.b2z z + Z.b2z i * 2 + c * 4 + k * 512 + f * 65536).
  assert (e mod 2 = Z.b2z z /\ (e / 2) mod 2 = Z.b2z i /\ e / 2 / 2 = c + k * 128 + f * 16384) as (-> & -> & ->) by (subst e; zdm).
  assert ((c + k * 128 + f * 16384) mod 128 = c /\ (c + k * 128 + f * 16384) / 128 = k + f * 128) as [-> ->] by zdm.
  assert ((k + f * 128) mod 128 = k /\ (k + f * 128) / 128 = f /\ f mod 128 = f) as (-> & -> & ->) by zdm.
  by destruct z, i.
Qed.

(** What is to be reported of a read. *)
Definition readv_summary (zeroed_any ignored_any : bool)
    (error_count zeroed_count checkfail_count first_error_off first_zeroed_off first_ignored_off : Z) : readv_error :=
  mkReadvError zeroed_any ignored_any (if 0 <? error_count then error_count else zeroed_count) checkfail_count
    (if 0 <? error_count then first_error_off else if 0 <? zeroed_count then first_zeroed_off else first_ignored_off).
Definition readv_fits (e : readv_error) : bool :=
  (zeroed_or_error_count e <=? READV_COUNT_MASK) && (checkfail_count e <=? READV_COUNT_MASK) && (first_off e <=? READV_COUNT_MASK).

Lemma encode_run r is_temp za ia ec zc cc fe fz fi w :
  let e := readv_summary za ia ec zc cc fe fz fi in
  (za = true -> ec = 0) -> 0 <= zeroed_or_error_count e -> 0 <= cc -> 0 <= first_off e ->
  if readv_fits e then
    exists bits, let r' := mkPgAioResult (if is_temp : bool then PGAIO_HCB_LOCAL_BUFFER_READV else PGAIO_HCB_SHARED_BUFFER_READV)
        (if 0 <? ec then PGAIO_RS_ERROR else PGAIO_RS_WARNING) bits (result r) in
      buffer_readv_encode_error r is_temp za ia ec zc cc fe fz fi w = (Ret r', w) /\ buffer_readv_decode_error r' = e
  else buffer_readv_encode_error r is_temp za ia ec zc cc fe fz fi w = (UB "readv error does not fit", w).
Proof.
  intros e Hz Hc Hk Hf. unfold buffer_readv_encode_error. cbv zeta.
  set (c := if 0 <? ec then ec else zc) in *. set (f := if 0 <? ec then fe else if 0 <? zc then fz else fi) in *.
  rewrite c_assert_ok by (destruct za; [rewrite Hz by done; done|done]).
  set (bits := or_error_data _ f _). set (r' := mkPgAioResult _ _ bits _).
  destruct (readv_fits e) eqn:Ef; unfold readv_fits in Ef; cbn [e readv_summary zeroed_or_error_count checkfail_count first_off] in *;
    fold c f in Ef, Hc, Hf |- *.
  - apply andb_true_iff in Ef as [[Ec%Z.leb_le Ek%Z.leb_le]%andb_true_iff Ef%Z.leb_le].
    assert (buffer_readv_decode_error r' = mkReadvError za ia c cc f) as Hd.
    { unfold r', bits. rewrite encode_bits by done. by apply decode_bits. }
    exists bits. fold r'. rewrite c_assert_ok by (by apply bool_decide_eq_true). done.
  - unfold c_assert, bind at 1. rewrite bool_decide_eq_false_2; [done|]. intros Hd.
    assert (forall x, Z.land x READV_COUNT_MASK <= READV_COUNT_MASK) as Hm.
    { intros x. change READV_COUNT_MASK with (Z.ones 7). rewrite Z.land_ones by done. change (Z.ones 7) with 127. zdm. }
    unfold buffer_readv_decode_error in Hd. cbv zeta in Hd. injection Hd as _ _ H1 H2 H3.
    assert (c <= READV_COUNT_MASK /\ cc <= READV_COUNT_MASK /\ f <= READV_COUNT_MASK) as (?%Z.leb_le & ?%Z.leb_le & ?%Z.leb_le)
      by (rewrite <- H1, <- H2, <- H3; auto).
    by destruct (c <=? READV_COUNT_MASK), (cc <=? READV_COUNT_MASK), (f <=? READV_COUNT_MASK).
Qed.

(** C34. The errors of a combined read are packed into 23 bits of its result and
    unpacked again to report them.  What is unpacked is what was packed if the
    number of bad pages, the number of wrong checksums and the first bad page are
    at most 127, and only then: otherwise the check of the encoding fails.  A read
    of [MAX_IO_COMBINE_LIMIT] blocks, all of which are bad, is one that does not
    fit. *)
Theorem readv_error_roundtrip r is_temp za ia ec zc cc fe fz fi w :
  let e := readv_summary za ia ec zc cc fe fz fi in
  (za = true -> ec = 0) -> 0 <= zeroed_or_error_count e -> 0 <= cc -> 0 <= first_off e ->
  (exists r', buffer_readv_encode_error r is_temp za ia ec zc cc fe fz fi w = (Ret r', w) /\
     buffer_readv_decode_error r' = e /\ result r' = result r) <-> readv_fits e = true.
Proof.
  intros e Hz Hc Hk Hf. pose proof (encode_run r is_temp za ia ec zc cc fe fz fi w Hz Hc Hk Hf) as H. cbv zeta in H. fold e in H.
  destruct (readv_fits e); split; try done.
  - intros _. destruct H as (bits & Hrun & Hd). eexists. split_and!; [exact Hrun|exact Hd|done].
  - intros (r' & Hrun & _). congruence.
Qed.

(** 127 bad pages fit, 128 do not. *)
Lemma readv_error_roundtrip_witness :
  let encode k := buffer_readv_encode_error (mkPgAioResult PGAIO_HCB_INVALID PGAIO_RS_OK 0 k) false false false k 0 k 0 0 0 in
  (exists r', encode 127 (sample_world SieveVtable [] []) = (Ret r', sample_world SieveVtable [] []) /\
     buffer_readv_decode_error r' = mkReadvError false false 127 127 0 /\ result r' = 127) /\
  ~ exists r', encode 128 (sample_world SieveVtable [] []) = (Ret r', sample_world SieveVtable [] []) /\
     buffer_readv_decode_error r' = mkReadvError false false 128 128 0 /\ result r' = 128.
Proof.
  split.
  - apply (readv_error_roundtrip (mkPgAioResult PGAIO_HCB_INVALID PGAIO_RS_OK 0 127) false false false 127 0 127 0 0 0
      (sample_world SieveVtable [] [])); vm_compute; done.
  - intros H. apply (readv_error_roundtrip (mkPgAioResult PGAIO_HCB_INVALID PGAIO_RS_OK 0 128) false false false 128 0 128 0 0 0
      (sample_world SieveVtable [] [])) in H; vm_compute in *; done.
Defined.
