(* ===== verification/Read.v ===== *)
(** * Reading blocks ([bufmgr.c] lines 862-960 and 1017-2098)

    A block that is not in a buffer gets one, with [BM_VALID] still unset, and is
    read in.  Reads of neighbouring blocks are combined; what a read leaves
    unread is read again, unless another backend has done so. *)
From S2P Require Import Prelude BufState BufTag Shmem Concurrency PrivateRefCount Ring Policy BufTable Strategy.
From S2P Require Import LocalBuf ContentLock Pin Tracking BufIO Writeback Eviction DropFlush Extend Readv.

Inductive ReadBufferMode :=
  RBM_NORMAL | RBM_ZERO_AND_LOCK | RBM_ZERO_AND_CLEANUP_LOCK | RBM_ZERO_ON_ERROR | RBM_NORMAL_NO_LOG.
#[export] Instance ReadBufferMode_eq_dec : EqDecision ReadBufferMode.
Proof. solve_decision. Defined.

(** What reading needs of a relation of the relation cache. *)
Record Relation := mkRelation {
  rd_locator : RelFileLocator;
  rd_persistence : RelPersistence;
  rd_other_temp : bool
}.

Record ReadBuffersOperation := mkOperation {
  op_smgr : RelFileLocator;
  op_persistence : RelPersistence;
  op_forknum : Z;
  op_strategy : BufferAccessStrategy;
  op_buffers : list Z;
  op_blocknum : Z;
  op_flags : Z;
  op_nblocks : Z;
  op_nblocks_done : Z;
  op_io_wref : option Z;
  op_io_return : PgAioResult * PgAioTargetData
}.
Definition with_op_nblocks (v : Z) (o : ReadBuffersOperation) : ReadBuffersOperation :=
  mkOperation (op_smgr o) (op_persistence o) (op_forknum o) (op_strategy o) (op_buffers o) (op_blocknum o) (op_flags o) v
    (op_nblocks_done o) (op_io_wref o) (op_io_return o).
Definition with_op_nblocks_done (v : Z) (o : ReadBuffersOperation) : ReadBuffersOperation :=
  mkOperation (op_smgr o) (op_persistence o) (op_forknum o) (op_strategy o) (op_buffers o) (op_blocknum o) (op_flags o)
    (op_nblocks o) v (op_io_wref o) (op_io_return o).
Definition with_op_io (wref : option Z) (r : PgAioResult * PgAioTargetData) (o : ReadBuffersOperation) : ReadBuffersOperation :=
  mkOperation (op_smgr o) (op_persistence o) (op_forknum o) (op_strategy o) (op_buffers o) (op_blocknum o) (op_flags o)
    (op_nblocks o) (op_nblocks_done o) wref r.

Definition MAX_IO_COMBINE_LIMIT : Z := 128.
Definition unknown_result : PgAioResult := mkPgAioResult PGAIO_HCB_INVALID PGAIO_RS_UNKNOWN 0 0.

Section read.
Context `{Server} `{Aio}.
Context (LockRelationForExtension UnlockRelationForExtension : RelFileLocator -> M unit).
Context (PageIsNew : Z -> bool) (PageSetChecksumInplace : Z -> Z -> Z).
Context (smgrprefetch : RelFileLocator -> Z -> Z -> Z -> M bool).
(** What waiting for a cleanup lock needs of the startup process. *)
Context (InHotStandby : bool) (ResolveRecoveryConflictWithBufferPin : M unit)
  (SetStartupBufferPinWaitBufId : Z -> M unit).

(** ** Prefetching *)
Definition PrefetchSharedBuffer (smgr_reln : RelFileLocator) (forkNum blockNum : Z) : M (Z * bool) :=
  c_assert (negb (blockNum =? InvalidBlockNumber)) "invalid block number" ;;
  let newTag := InitBufferTag (mkBufferTag 0 0 0 0 0) smgr_reln forkNum blockNum in
  let newHash := BufTableHashCode tag_hash newTag in
  let newPartitionLock := BufMappingPartitionLock newHash in
  LWLockAcquire newPartitionLock LW_SHARED ;;
  let* buf_id := BufTableLookup tag_hash newTag newHash in
  LWLockRelease newPartitionLock ;;
  if buf_id <? 0 then
    if io_direct_data then ret (InvalidBuffer, false)
    else let* b := smgrprefetch smgr_reln forkNum blockNum 1 in ret (InvalidBuffer, b)
  else ret (buf_id + 1, false).

Definition PrefetchBuffer (reln : Relation) (forkNum blockNum : Z) : M (Z * bool) :=
  c_assert (negb (blockNum =? InvalidBlockNumber)) "invalid block number" ;;
  if bool_decide (rd_persistence reln = RELPERSISTENCE_TEMP) then
    if rd_other_temp reln then elog "cannot access temporary tables of other sessions"
    else PrefetchLocalBuffer (fun r f b => smgrprefetch r f b 1) io_direct_data (rd_locator reln) forkNum blockNum
  else PrefetchSharedBuffer (rd_locator reln) forkNum blockNum.

(** ** A buffer for the block *)
Definition count_hit (temp : bool) : M unit :=
  count_usage (fun a => if temp then with_local_blks_hit (local_blks_hit a + 1) a else with_shared_blks_hit (shared_blks_hit a + 1) a).
Definition charge_vacuum (cost : Accounting -> Z) : M unit :=
  count_usage (fun a => if VacuumCostActive a then with_VacuumCostBalance (i32 (VacuumCostBalance a + cost a)) a else a).

Definition PinBufferForBlock (smgr : RelFileLocator) (persistence : RelPersistence) (forkNum blockNum : Z)
    (strategy : BufferAccessStrategy) : M (Z * bool) :=
  c_assert (negb (blockNum =? P_NEW)) "blockNum != P_NEW" ;;
  let temp := bool_decide (persistence = RELPERSISTENCE_TEMP) in
  let* '(b, found) :=
    if temp then
      let* '(bufHdr, found) := LocalBufferAlloc pgaio_wref_wait PageSetChecksumInplace smgr forkNum blockNum in
      let* d := local_deref bufHdr in
      ret (buf_id d + 1, found)
    else
      let* '(bufHdr, found) := BufferAlloc smgr persistence forkNum blockNum strategy in
      let* b := BufferDescriptorGetBuffer bufHdr in
      ret (b, found) in
  when found (count_hit temp ;; RecordAtomicCacheHit ;; charge_vacuum VacuumCostPageHit) ;;
  ret (b, found).

Definition ZeroAndLockBuffer (buffer : Z) (mode : ReadBufferMode) (already_valid : bool) : M unit :=
  let isLocalBuf := BufferIsLocal buffer in
  c_assert (bool_decide (mode = RBM_ZERO_AND_LOCK) || bool_decide (mode = RBM_ZERO_AND_CLEANUP_LOCK)) "bad mode" ;;
  let* need_to_zero :=
    if already_valid then ret false
    else if isLocalBuf then StartLocalBufferIO pgaio_wref_wait (GetLocalBufferDescriptor (- buffer - 1)) true false
    else StartBufferIO pgaio_wref_wait (GetBufferDescriptor (buffer - 1)) true false in
  if need_to_zero : bool then
    write_block buffer 0 ;;
    when (negb isLocalBuf) (LockBuffer buffer BUFFER_LOCK_EXCLUSIVE) ;;
    if isLocalBuf then TerminateLocalBufferIO (GetLocalBufferDescriptor (- buffer - 1)) false BM_VALID false
    else TerminateBufferIO (GetBufferDescriptor (buffer - 1)) false BM_VALID true false
  else if negb isLocalBuf then
    if bool_decide (mode = RBM_ZERO_AND_LOCK) then LockBuffer buffer BUFFER_LOCK_EXCLUSIVE
    else LockBufferForCleanup InHotStandby ResolveRecoveryConflictWithBufferPin SetStartupBufferPinWaitBufId buffer
  else ret tt.

(** ** The state of an operation *)
Definition buffer_state (buffer : Z) : M Z :=
  if BufferIsLocal buffer then read_local_state (GetLocalBufferDescriptor (- buffer - 1))
  else pg_atomic_read_u64 (GetBufferDescriptor (buffer - 1)).

Fixpoint check_buffers (blocknum nblocks_done i : Z) (buffers : list Z) : M unit :=
  match buffers with
  | [] => ret tt
  | buffer :: buffers =>
      let* blk := BufferGetBlockNumber buffer in
      c_assert (blk =? u32 (blocknum + i)) "buffer of another block" ;;
      let* s := buffer_state buffer in
      c_assert (flag s BM_TAG_VALID) "buffer has no tag" ;;
      when (i <? nblocks_done)
        (let* s := buffer_state buffer in c_assert (flag s BM_VALID) "buffer is not valid") ;;
      check_buffers blocknum nblocks_done (i + 1) buffers
  end.

Definition CheckReadBuffersOperation (op : ReadBuffersOperation) (is_complete : bool) : M unit :=
  c_assert (op_nblocks_done op <=? op_nblocks op) "nblocks_done <= nblocks" ;;
  c_assert (negb is_complete || (op_nblocks op =? op_nblocks_done op)) "operation is not complete" ;;
  check_buffers (op_blocknum op) (op_nblocks_done op) 0 (take (Z.to_nat (op_nblocks op)) (op_buffers op)).

(** ** Starting a read *)
Definition ReadBuffersCanStartIOOnce (buffer : Z) (nowait : bool) : M bool :=
  if BufferIsLocal buffer then StartLocalBufferIO pgaio_wref_wait (GetLocalBufferDescriptor (- buffer - 1)) true nowait
  else StartBufferIO pgaio_wref_wait (GetBufferDescriptor (buffer - 1)) true nowait.

Definition ReadBuffersCanStartIO (buffer : Z) (nowait : bool) : M bool :=
  let* staged := if nowait then ret false else pgaio_have_staged in
  if staged : bool then
    let* started := ReadBuffersCanStartIOOnce buffer true in
    if started : bool then ret true
    else pgaio_submit_staged ;; ReadBuffersCanStartIOOnce buffer nowait
  else ReadBuffersCanStartIOOnce buffer nowait.

(** The neighbours that can be read together with [prev]. *)
Fixpoint combine_reads (prev : Z) (buffers : list Z) : M (list Z) :=
  match buffers with
  | [] => ret []
  | b :: buffers =>
      let* can := ReadBuffersCanStartIO b true in
      if negb can then ret []
      else
        let* blk0 := BufferGetBlockNumber prev in
        let* blk1 := BufferGetBlockNumber b in
        c_assert (blk0 =? u32 (blk1 - 1)) "blocks are not consecutive" ;;
        let* bs := combine_reads b buffers in
        ret (b :: bs)
  end.

Definition acquire_handle : M Z :=
  let* ioh := pgaio_io_acquire_nb in
  match ioh with
  | Some ioh => ret ioh
  | None => pgaio_submit_staged ;; pgaio_io_acquire
  end.

Definition read_flags (flags : Z) : Z :=
  let flags := if zero_damaged_pages then Z.lor flags READ_BUFFERS_ZERO_ON_ERROR else flags in
  if ignore_checksum_failure then Z.lor flags READ_BUFFERS_IGNORE_CHECKSUM_FAILURES else flags.

Definition count_read (temp : bool) (n : Z) : M unit :=
  count_usage (fun a => if temp then with_local_blks_read (local_blks_read a + n) a else with_shared_blks_read (shared_blks_read a + n) a).

(** Someone else has read the first block. *)
Definition read_by_other (op : ReadBuffersOperation) (ioh : Z) : M (ReadBuffersOperation * Z * bool) :=
  let op := with_op_nblocks_done (op_nblocks_done op + 1) op in
  pgaio_io_release ioh ;;
  let temp := bool_decide (op_persistence op = RELPERSISTENCE_TEMP) in
  count_hit temp ;;
  when (negb temp) RecordAtomicCacheHit ;;
  charge_vacuum VacuumCostPageHit ;;
  ret (with_op_io None (op_io_return op) op, 1, false).

Definition start_read (op : ReadBuffersOperation) (ioh first : Z) (rest : list Z) : M (ReadBuffersOperation * Z * bool) :=
  let temp := bool_decide (op_persistence op = RELPERSISTENCE_TEMP) in
  let ioh_flags := if ztrue (Z.land (op_flags op) READ_BUFFERS_SYNCHRONOUSLY) then PGAIO_HF_SYNCHRONOUS else 0 in
  let ioh_flags := if temp then Z.lor ioh_flags PGAIO_HF_REFERENCES_LOCAL else ioh_flags in
  let* more := combine_reads first rest in
  let io_buffers := first :: more in
  let io_buffers_len := Z.of_nat (length io_buffers) in
  let* '(r, td) := mdstartreadv ioh ioh_flags
    [(if temp then PGAIO_HCB_LOCAL_BUFFER_READV else PGAIO_HCB_SHARED_BUFFER_READV, read_flags (op_flags op))] temp (op_smgr op)
    (op_forknum op) (u32 (op_blocknum op + op_nblocks_done op)) io_buffers in
  count_read temp io_buffers_len ;;
  when (negb temp) (RecordAtomicCacheMiss io_buffers_len) ;;
  charge_vacuum (fun a => VacuumCostPageMiss a * io_buffers_len) ;;
  let ret_value := match r with Some r => (r, td) | None => op_io_return op end in
  ret (with_op_io (Some ioh) ret_value op, io_buffers_len, true).

(** The operation, the number of blocks dealt with and whether a read was started. *)
Definition AsyncReadBuffers (op : ReadBuffersOperation) : M (ReadBuffersOperation * Z * bool) :=
  let* ioh := acquire_handle in
  let '(r, td) := op_io_return op in
  let op := with_op_io (op_io_wref op) (mkPgAioResult (result_id r) PGAIO_RS_UNKNOWN (error_data r) (result r), td) op in
  match drop (Z.to_nat (op_nblocks_done op)) (take (Z.to_nat (op_nblocks op)) (op_buffers op)) with
  | [] => trap "no buffer left to read"
  | first :: rest =>
      let* can := ReadBuffersCanStartIO first false in
      if negb can then read_by_other op ioh else start_read op ioh first rest
  end.

(** ** Waiting for a read *)
Definition ProcessReadBuffersResult (op : ReadBuffersOperation) : M ReadBuffersOperation :=
  let '(r, td) := op_io_return op in
  let rs := result_status r in
  c_assert (bool_decide (op_io_wref op <> None)) "no read to wait for" ;;
  c_assert (negb (bool_decide (rs = PGAIO_RS_UNKNOWN))) "result.status != PGAIO_RS_UNKNOWN" ;;
  let newly_read_blocks := if bool_decide (rs = PGAIO_RS_ERROR) then 0 else result r in
  (if bool_decide (rs = PGAIO_RS_ERROR) then pgaio_result_report r td ERROR
   else if bool_decide (rs = PGAIO_RS_WARNING) then pgaio_result_report r td WARNING
   else if bool_decide (rs = PGAIO_RS_PARTIAL) then pgaio_result_report r td DEBUG1
   else ret tt) ;;
  c_assert (0 <? newly_read_blocks) "newly_read_blocks > 0" ;;
  c_assert (newly_read_blocks <=? MAX_IO_COMBINE_LIMIT) "newly_read_blocks <= MAX_IO_COMBINE_LIMIT" ;;
  let op := with_op_nblocks_done (op_nblocks_done op + newly_read_blocks) op in
  c_assert (op_nblocks_done op <=? op_nblocks op) "nblocks_done <= nblocks" ;;
  ret op.

(** The result of a read that is complete. *)
Definition wait_result (op : ReadBuffersOperation) (wref : Z) : M ReadBuffersOperation :=
  if bool_decide (result_status (op_io_return op).1 = PGAIO_RS_UNKNOWN) then
    let* r := pgaio_wref_finish wref in
    ret (with_op_io (op_io_wref op) r op)
  else
    let* done := pgaio_wref_check_done wref in
    c_assert done "read is not complete" ;;
    ret op.

Definition wait_round (op : ReadBuffersOperation) : M (ctl ReadBuffersOperation ReadBuffersOperation) :=
  CheckReadBuffersOperation op false ;;
  let* op :=
    match op_io_wref op with
    | Some wref => let* op := wait_result op wref in ProcessReadBuffersResult op
    | None => ret op
    end in
  if op_nblocks_done op =? op_nblocks op then ret (Break op)
  else
    let* '(op, _, _) := AsyncReadBuffers op in
    ret (Continue op).

Definition WaitReadBuffers (op : ReadBuffersOperation) : M ReadBuffersOperation :=
  if bool_decide (op_io_wref op = None) && negb io_method_sync then elog "waiting for read operation that didn't read"
  else
    let* op := forever wait_round op in
    CheckReadBuffersOperation op true ;;
    ret op.

(** ** Starting to read a range of blocks

    A buffer that an earlier call has pinned already. *)
Definition forwarded_found (buffer blk : Z) : M bool :=
  let* n := BufferGetBlockNumber buffer in
  c_assert (n =? u32 blk) "forwarded buffer of another block" ;;
  let* s := buffer_state buffer in
  c_assert (flag s BM_TAG_VALID) "buffer has no tag" ;;
  let* s := buffer_state buffer in
  ret (flag s BM_VALID).

(** The buffers, the number of blocks the operation covers and whether the first
    one needs no read. *)
Fixpoint pin_range (op : ReadBuffersOperation) (allow_forwarding : bool) (blockNum : Z) (k : nat) (i actual_nblocks : Z)
    (buffers : list Z) : M (list Z * Z * bool) :=
  match k with
  | O => ret (buffers, actual_nblocks, false)
  | S k =>
      if negb (i <? actual_nblocks) then ret (buffers, actual_nblocks, false)
      else
        let given := default InvalidBuffer (lookupZ buffers i) in
        let* '(b, found) :=
          if allow_forwarding && negb (given =? InvalidBuffer)
          then let* found := forwarded_found given (blockNum + i) in ret (given, found)
          else PinBufferForBlock (op_smgr op) (op_persistence op) (op_forknum op) (u32 (blockNum + i)) (op_strategy op) in
        let buffers := insertZ i b buffers in
        if found : bool then
          if i =? 0 then ret (buffers, 1, true) else ret (buffers, i, false)
        else
          let actual_nblocks :=
            if (i =? 0) && (1 <? actual_nblocks)
            then Z.min actual_nblocks (smgrmaxcombine (op_smgr op) (op_forknum op) blockNum) else actual_nblocks in
          pin_range op allow_forwarding blockNum k (i + 1) actual_nblocks buffers
  end.

(** What is started at once: with [io_method = sync] nothing but advice. *)
Definition start_range (op : ReadBuffersOperation) (blockNum : Z) : M (ReadBuffersOperation * Z * bool) :=
  if negb io_method_sync then
    let* '(op, nblocks, did_start_io) := AsyncReadBuffers op in
    ret (with_op_nblocks nblocks op, nblocks, did_start_io)
  else
    when (ztrue (Z.land (op_flags op) READ_BUFFERS_ISSUE_ADVICE))
      (smgrprefetch (op_smgr op) (op_forknum op) blockNum (op_nblocks op) ;; ret tt) ;;
    ret (mkOperation (op_smgr op) (op_persistence op) (op_forknum op) (op_strategy op) (op_buffers op) (op_blocknum op)
      (Z.lor (op_flags op) READ_BUFFERS_SYNCHRONOUSLY) (op_nblocks op) (op_nblocks_done op) (op_io_wref op) (op_io_return op),
      op_nblocks op, true).

(** The operation, with the buffers, the number of blocks it covers and whether
    it has to be waited for. *)
Definition StartReadBuffersImpl (op : ReadBuffersOperation) (buffers : list Z) (blockNum nblocks flags : Z)
    (allow_forwarding : bool) : M (ReadBuffersOperation * Z * bool) :=
  c_assert ((nblocks =? 1) || allow_forwarding) "*nblocks == 1 || allow_forwarding" ;;
  c_assert (0 <? nblocks) "*nblocks > 0" ;;
  c_assert (nblocks <=? MAX_IO_COMBINE_LIMIT) "*nblocks <= MAX_IO_COMBINE_LIMIT" ;;
  let* '(buffers, actual_nblocks, hit) := pin_range op allow_forwarding blockNum (Z.to_nat nblocks) 0 nblocks buffers in
  if hit : bool then
    let op := mkOperation (op_smgr op) (op_persistence op) (op_forknum op) (op_strategy op) buffers blockNum (op_flags op) 1 1
      (op_io_wref op) (op_io_return op) in
    CheckReadBuffersOperation op true ;;
    ret (op, 1, false)
  else
    let op := mkOperation (op_smgr op) (op_persistence op) (op_forknum op) (op_strategy op) buffers blockNum flags actual_nblocks 0
      None (op_io_return op) in
    let* '(op, nblocks, did_start_io) := start_range op blockNum in
    CheckReadBuffersOperation op (negb did_start_io) ;;
    ret (op, nblocks, did_start_io).

Definition StartReadBuffers (op : ReadBuffersOperation) (buffers : list Z) (blockNum nblocks flags : Z)
    : M (ReadBuffersOperation * Z * bool) :=
  StartReadBuffersImpl op buffers blockNum nblocks flags true.

Definition StartReadBuffer (op : ReadBuffersOperation) (buffer blocknum flags : Z) : M (ReadBuffersOperation * bool) :=
  let* '(op, nblocks, r) := StartReadBuffersImpl op [buffer] blocknum 1 flags false in
  c_assert (nblocks =? 1) "nblocks == 1" ;;
  ret (op, r).

(** ** Reading one block *)
Definition zero_mode (mode : ReadBufferMode) : bool :=
  bool_decide (mode = RBM_ZERO_AND_LOCK) || bool_decide (mode = RBM_ZERO_AND_CLEANUP_LOCK).

Definition read_one (smgr : RelFileLocator) (persistence : RelPersistence) (forkNum blockNum : Z) (mode : ReadBufferMode)
    (strategy : BufferAccessStrategy) : M Z :=
  let flags := READ_BUFFERS_SYNCHRONOUSLY in
  let flags := if bool_decide (mode = RBM_ZERO_ON_ERROR) then Z.lor flags READ_BUFFERS_ZERO_ON_ERROR else flags in
  let op := mkOperation smgr persistence forkNum strategy [] 0 0 0 0 None
    (unknown_result, mkPgAioTargetData smgr 0 0 0 false) in
  let* '(op, wait) := StartReadBuffer op InvalidBuffer blockNum flags in
  let* op := if wait : bool then WaitReadBuffers op else ret op in
  match op_buffers op with
  | b :: _ => ret b
  | [] => trap "uninitialized buffer"
  end.

Definition ReadBuffer_common (rel : option Relation) (smgr : RelFileLocator) (smgr_persistence : RelPersistence)
    (forkNum blockNum : Z) (mode : ReadBufferMode) (strategy : BufferAccessStrategy) : M Z :=
  if blockNum =? P_NEW then
    match rel with
    | None => trap "extension without a relation"
    | Some rel =>
        let flags := EB_SKIP_EXTENSION_LOCK in
        let flags := if zero_mode mode then Z.lor flags EB_LOCK_FIRST else flags in
        ExtendBufferedRel LockRelationForExtension UnlockRelationForExtension PageIsNew PageSetChecksumInplace
          (rd_locator rel) (rd_persistence rel) forkNum strategy flags
    end
  else
    let persistence := match rel with Some rel => rd_persistence rel | None => smgr_persistence end in
    if zero_mode mode then
      let* '(buffer, found) := PinBufferForBlock smgr persistence forkNum blockNum strategy in
      ZeroAndLockBuffer buffer mode found ;;
      ret buffer
    else read_one smgr persistence forkNum blockNum mode strategy.

Definition ReadBufferExtended (reln : Relation) (forkNum blockNum : Z) (mode : ReadBufferMode) (strategy : BufferAccessStrategy)
    : M Z :=
  if rd_other_temp reln then elog "cannot access temporary tables of other sessions"
  else ReadBuffer_common (Some reln) (rd_locator reln) RELPERSISTENCE_PERMANENT forkNum blockNum mode strategy.

Definition ReadBuffer (reln : Relation) (blockNum : Z) : M Z := ReadBufferExtended reln MAIN_FORKNUM blockNum RBM_NORMAL None.

Definition ReadBufferWithoutRelcache (rlocator : RelFileLocator) (forkNum blockNum : Z) (mode : ReadBufferMode)
    (strategy : BufferAccessStrategy) (permanent : bool) : M Z :=
  ReadBuffer_common None rlocator (if permanent then RELPERSISTENCE_PERMANENT else RELPERSISTENCE_UNLOGGED)
    forkNum blockNum mode strategy.

Definition ReleaseAndReadBuffer (buffer : Z) (relation : Relation) (blockNum : Z) : M Z :=
  let wanted t := (BufTag.blockNum t =? blockNum) && BufTagMatchesRelFileLocator t (rd_locator relation) &&
    (BufTagGetForkNum t =? MAIN_FORKNUM) in
  if BufferIsValid buffer then
    assert_pinned buffer ;;
    let* d := if BufferIsLocal buffer then local_deref (GetLocalBufferDescriptor (- buffer - 1)) else deref (GetBufferDescriptor (buffer - 1)) in
    if wanted (tag d) then ret buffer
    else
      (if BufferIsLocal buffer then UnpinLocalBuffer buffer else UnpinBuffer (GetBufferDescriptor (buffer - 1))) ;;
      ReadBuffer relation blockNum
  else ReadBuffer relation blockNum.

(** ** Extending up to a block *)
Context (smgrexists : RelFileLocator -> Z -> M bool) (smgrcreate : RelFileLocator -> Z -> M unit).

(** What the backend believes the size of the file to be. *)
Context (smgr_cached_nblocks : RelFileLocator -> Z -> Z).

Definition create_fork (reln : RelFileLocator) (fork flags : Z) : M unit :=
  let cached := smgr_cached_nblocks reln fork in
  if ztrue (Z.land flags EB_CREATE_FORK_IF_NEEDED) && ((cached =? 0) || (cached =? InvalidBlockNumber)) then
    let* there := smgrexists reln fork in
    when (negb there)
      (LockRelationForExtension reln ;;
       let* there := smgrexists reln fork in
       when (negb there) (smgrcreate reln fork) ;;
       UnlockRelationForExtension reln)
  else ret tt.

(** All but the block wanted are released. *)
Fixpoint keep_target (first_block extend_to i : Z) (bs : list Z) (buffer : Z) : M Z :=
  match bs with
  | [] => ret buffer
  | b :: bs =>
      let* buffer :=
        if negb (u32 (first_block + i) =? u32 (extend_to - 1)) then ReleaseBuffer b ;; ret buffer else ret b in
      keep_target first_block extend_to (i + 1) bs buffer
  end.

Definition extend_to_round (reln : RelFileLocator) (relpersistence : RelPersistence) (fork : Z) (strategy : BufferAccessStrategy)
    (flags extend_to : Z) '((current_size, extended_by, buffer) : Z * Z * Z) : M (ctl (Z * Z * Z) (Z * Z)) :=
  if negb (current_size <? extend_to) then ret (Break (extended_by, buffer))
  else
    let num_pages := 64 in
    let num_pages := if extend_to <? current_size + num_pages then u32 (extend_to - current_size) else num_pages in
    let* '(first_block, buffers) := ExtendBufferedRelCommon LockRelationForExtension UnlockRelationForExtension PageIsNew
      PageSetChecksumInplace reln relpersistence fork strategy flags num_pages extend_to in
    let extended_by := Z.of_nat (length buffers) in
    let current_size := u32 (first_block + extended_by) in
    c_assert (negb (num_pages =? 0) || (extend_to <=? current_size)) "extension without effect" ;;
    let* buffer := keep_target first_block extend_to 0 buffers buffer in
    ret (Continue (current_size, extended_by, buffer)).

Definition ExtendBufferedRelTo (reln : Relation) (fork : Z) (strategy : BufferAccessStrategy) (flags extend_to : Z)
    (mode : ReadBufferMode) : M Z :=
  c_assert (negb (extend_to =? InvalidBlockNumber) && (0 <? extend_to)) "bad extend_to" ;;
  create_fork (rd_locator reln) fork flags ;;
  let* current_size :=
    if bool_decide (rd_persistence reln = RELPERSISTENCE_TEMP) then temp_smgrnblocks (rd_locator reln) fork
    else smgrnblocks (rd_locator reln) fork in
  let flags := if zero_mode mode then Z.lor flags EB_LOCK_TARGET else flags in
  let* '(extended_by, buffer) := forever (extend_to_round (rd_locator reln) (rd_persistence reln) fork strategy flags extend_to)
    (current_size, 0, InvalidBuffer) in
  if buffer =? InvalidBuffer then
    c_assert (extended_by =? 0) "extended_by == 0" ;;
    ReadBuffer_common (Some reln) (rd_locator reln) (rd_persistence reln) fork (u32 (extend_to - 1)) mode strategy
  else ret buffer.
End read.
