(* ===== verification/PolicyQuiet.v ===== *)
(** * The policies without interference

    What the four policies have in common when no other process acts: a search
    that has a candidate returns one, pinned, and besides changes only usage
    counts, the strategy block and the private bookkeeping of the pin; a
    notification changes only the words of the policy.  The class
    [PolicyQuiet] is the interface through which the allocation of buffers is
    verified for all four at once. *)
From S2P Require Import Prelude BufState BufTag Shmem Concurrency PrivateRefCount Ring Sample DList Sweep.
From S2P Require Import ClockSweep Sieve Lru Lfu Policy Strategy.

(** ** Aging

    The same descriptor but for the usage count. *)
Definition aged_desc (d d' : BufferDesc) : Prop :=
  exists s, d' = with_state s d /\ wf_state s /\ refcount s = refcount (state d) /\
    s / 2 ^ 22 = state d / 2 ^ 22.

Lemma aged_desc_refl d : wf_state (state d) -> aged_desc d d.
Proof. intros Hwf. exists (state d). by rewrite with_state_id. Qed.
Lemma aged_desc_trans d1 d2 d3 : aged_desc d1 d2 -> aged_desc d2 d3 -> aged_desc d1 d3.
Proof.
  intros (s & -> & _ & Hr & Hf) (s' & -> & Hwf & Hr' & Hf'). exists s'. cbn in *.
  split_and!; [done|done|congruence|congruence].
Qed.

Lemma aged_spare d : wf_state (state d) -> aged_desc d (spare d).
Proof.
  intros Hwf. unfold spare. destruct (Z.eqb_spec (refcount (state d)) 0); [|by apply aged_desc_refl].
  eexists. split; [done|]. destruct (usage_clear_word (state d) Hwf) as (Hwf' & Hr & _). split_and!; [done|done|].
  unfold usage_cleared. rewrite land_not64 by done. apply Z.bits_inj'. intros k Hk.
  rewrite !Z.div_pow2_bits, Z.ldiff_spec by lia.
  rewrite (Z.bits_above_log2 BUF_USAGECOUNT_MASK); [apply andb_true_r|done|].
  change (Z.log2 BUF_USAGECOUNT_MASK) with 21. lia.
Qed.

Lemma aged_dec d :
  wf_state (state d) -> (refcount (state d) = 0 -> 0 < usage (state d)) -> aged_desc d (dec d).
Proof.
  intros Hwf Hu. unfold dec. destruct (Z.eqb_spec (refcount (state d)) 0) as [Hr|Hr]; [|by apply aged_desc_refl].
  specialize (Hu Hr). eexists. split; [done|]. unfold wf_state, refcount, usage in *.
  change BUF_USAGECOUNT_ONE with (2 ^ 18). rewrite u64_small by zdm. split_and!; zdm.
Qed.

Lemma aged_dec_iter u : forall d,
  wf_state (state d) -> flag (state d) BM_LOCKED = false ->
  (refcount (state d) = 0 -> Z.of_nat u <= usage (state d)) -> aged_desc d (Nat.iter u dec d).
Proof.
  induction u as [|u IH]; intros d Hwf Hl Hu; [by apply aged_desc_refl|].
  change (Nat.iter (S u) dec d) with (dec (Nat.iter u dec d)).
  assert (refcount (state d) = 0 -> Z.of_nat u <= usage (state d)) as Hu' by lia.
  destruct (dec_iter u d Hwf Hl Hu') as (_ & Hwf' & _ & Hr & Hus).
  eapply aged_desc_trans; [by apply IH|]. apply aged_dec; [done|]. rewrite Hr. intros H0.
  specialize (Hus H0). specialize (Hu H0). lia.
Qed.

(** All descriptors of [w] are there in [w'], aged at most; nothing else differs. *)
Record aged (w w' : World) : Prop := {
  ag_rest : exists ds, w' = upd_shm (with_BufferDescriptors ds) w /\ length ds = length (BufferDescriptors (shm w));
  ag_desc : forall i d, desc_at w i d -> exists d', desc_at w' i d' /\ aged_desc d d'
}.

Lemma aged_refl w : (forall i d, desc_at w i d -> wf_state (state d)) -> aged w w.
Proof.
  intros Hwf. split; [exists (BufferDescriptors (shm w)); split; [by destruct w as [[] ? ?]|done]|].
  intros i d Hd. exists d. split; [done|]. by eapply aged_desc_refl, Hwf.
Qed.

Lemma touch_descs g xs : forall w, exists ds, touch g xs w = upd_shm (with_BufferDescriptors ds) w /\
  length ds = length (BufferDescriptors (shm w)).
Proof.
  induction xs as [|x xs IH]; intros w.
  { exists (BufferDescriptors (shm w)). split; [by destruct w as [[] ? ?]|done]. }
  rewrite touch_cons. destruct (IH (touch_at g w x)) as (ds & -> & Hlen). exists ds. unfold touch_at in *.
  case_match; [|done]. split; [done|]. rewrite Hlen. cbn. apply length_insertZ.
Qed.

Lemma aged_touch g xs w :
  NoDup xs -> (forall i d, desc_at w i d -> wf_state (state d)) ->
  (forall x d, x ∈ xs -> desc_at w x d -> aged_desc d (g d)) -> aged w (touch g xs w).
Proof.
  intros Hnd Hwf Hg. split; [apply touch_descs|]. intros i d Hd. destruct (decide (i ∈ xs)) as [Hi|Hi].
  - exists (g d). split; [by apply touch_in|by eapply Hg].
  - exists d. split; [by apply touch_out|]. by eapply aged_desc_refl, Hwf.
Qed.

Lemma aged_trans w1 w2 w3 : aged w1 w2 -> aged w2 w3 -> aged w1 w3.
Proof.
  intros [(ds & -> & Hl) H1] [(ds' & -> & Hl') H2]. split; [exists ds'; split; [done|by rewrite Hl']|].
  intros i d Hd. destruct (H1 i d Hd) as (d' & Hd' & Ha). destruct (H2 i d' Hd') as (d'' & Hd'' & Ha').
  exists d''. split; [done|by eapply aged_desc_trans].
Qed.

Lemma aged_inv w w' i d' : aged w w' -> desc_at w' i d' -> exists d, desc_at w i d /\ aged_desc d d'.
Proof.
  intros [(ds & -> & Hl) H] Hd'. pose proof (lookupZ_Some _ _ _ Hd') as Hi. cbn in Hi. rewrite Hl in Hi.
  destruct (lookupZ_lt (BufferDescriptors (shm w)) i Hi) as [d Hd]. exists d. split; [done|].
  destruct (H i d Hd) as (d'' & Hd'' & Ha). unfold desc_at in *. congruence.
Qed.

(** ** What a search returns *)
Definition got (strategy : BufferAccessStrategy) (w : World) (v st : Z) (w' : World) : Prop :=
  exists w1 d c m m', aged w w1 /\ desc_at w1 v d /\ refcount (state d) = 0 /\ st = pinned_word (state d) /\
    w' = with_me m' (upd_shm (fun s => with_StrategyControl c (with_policy_mem m s)) (set_desc v (with_state st d) w1)) /\
    buffer_strategy_lock c = None /\ bgwprocno c = bgwprocno (StrategyControl (shm w)) /\
    tracked (with_rings (rings_put strategy (v + 1) (rings (me w))) (me w)) m' (v + 1).

(** Numbers of buffers, and rounds that are enough for a search. *)
Definition pool_sized (n : Z) : Prop := 2 <= n < 2 ^ 30 - 1024.
Definition search_gas (n : Z) : nat := (16 * Z.to_nat n + 1026)%nat.

(** A search can start: nobody holds the strategy lock or a header lock, and the
    pins of the buffers that nobody has pinned could be remembered. *)
Record searchable (n : Z) (strategy : BufferAccessStrategy) (w : World) : Prop := {
  se_quiet : quiet w;
  se_lock : lock_of (shm w) = None;
  se_n : NBuffers (me w) = n;
  se_size : pool_sized n;
  se_len : Z.of_nat (length (BufferDescriptors (shm w))) = n;
  se_gas : (search_gas n < gas (me w))%nat;
  se_wf : forall i d, desc_at w i d -> wf_state (state d);
  se_sees : forall x, 0 <= x < n -> exists d, sees w x d;
  se_ring : ring_ready n strategy (me w);
  se_track : forall x, 0 <= x < n -> unpinned w x = true -> can_track (me w) (x + 1)
}.

(** A notification that rewrites the words of the policy while it has the lock. *)
Definition hook_run (h : option (Z -> M unit)) (n buf : Z) (I J : list Z -> Prop) : Prop :=
  forall w, quiet w -> lock_of (shm w) = None -> NBuffers (me w) = n -> (0 < gas (me w))%nat ->
    (exists d, desc_at w buf d /\ buf_id d = buf) -> I (mem w) ->
    match h with
    | Some f => exists m', f buf w = (Ret tt, with_mem m' w) /\ J m'
    | None => J (mem w)
    end.

Class PolicyQuiet (p : EvictionVtablePtr) := {
  (** The strategy block is in order. *)
  pq_inv : Z -> BufferStrategyCommon -> list Z -> Prop;
  (** The search looks at buffer [x]. *)
  pq_linked : Z -> list Z -> Z -> Prop;
  pq_get : forall n strategy w x,
    searchable n strategy w -> pq_inv n (StrategyControl (shm w)) (mem w) ->
    pq_linked n (mem w) x -> 0 <= x < n -> unpinned w x = true ->
    exists v st w', get_buffer (vtable p) strategy w = (Ret (v, st), w') /\ 0 <= v < n /\
      got strategy w v st w' /\ pq_inv n (StrategyControl (shm w')) (mem w') /\ (x <> v -> pq_linked n (mem w') x);
  pq_insert : forall n c buf, 0 <= buf < n ->
    hook_run (notify_insert (vtable p)) n buf (pq_inv n c) (fun m => pq_inv n c m /\ pq_linked n m buf);
  pq_insert_linked : forall n c buf x, 0 <= buf < n ->
    hook_run (notify_insert (vtable p)) n buf (fun m => pq_inv n c m /\ pq_linked n m x) (fun m => pq_inv n c m /\ pq_linked n m x);
  pq_hit : forall n c buf, 0 <= buf < n -> hook_run (notify_hit (vtable p)) n buf (pq_inv n c) (pq_inv n c);
  pq_hit_linked : forall n c buf x, 0 <= buf < n ->
    hook_run (notify_hit (vtable p)) n buf (fun m => pq_inv n c m /\ pq_linked n m x) (fun m => pq_inv n c m /\ pq_linked n m x);
  pq_invalidate : forall n c buf, 0 <= buf < n ->
    hook_run (notify_invalidate (vtable p)) n buf (pq_inv n c) (pq_inv n c);
  pq_count : forall n c m f, pq_inv n c m ->
    completePasses (f c) = completePasses c -> pq_inv n (f c) m
}.

(** ** Notifications *)
Lemma section_hook (body : Z -> M unit) n buf (I J : list Z -> Prop) :
  (forall w, NBuffers (me w) = n -> I (mem w) ->
    exists m', body buf w = (Ret tt, set_lock None (with_mem m' w)) /\ J m') ->
  hook_run (Some (fun buf => let* d := deref buf in SpinLockAcquire ;; body (buf_id d))) n buf I J.
Proof.
  intros Hbody w Hq Hl Hn Hg (d & Hd & Hid) HI. run (deref_run w buf d Hd). rewrite Hid.
  run (SpinLockAcquire_quiet w Hq Hl Hg).
  destruct (Hbody (set_lock (Some (MyProcNumber (me w))) w)) as (m' & Hrun & HJ); [done|done|].
  exists m'. split; [|done]. rewrite Hrun. f_equal. unfold lock_of in Hl. destruct w as [[? [] ] ? ?]. cbn in *.
  by rewrite Hl.
Qed.

(** ** ClockSweep *)
Definition clock_ready (n : Z) (c : BufferStrategyCommon) (m : list Z) : Prop :=
  exists h, lookupZ m nextVictimBuffer = Some h /\ 0 <= h <= n /\ 0 <= completePasses c < 2 ^ 32.

Lemma iter_descs g r u w : exists ds, Nat.iter u (touch g r) w = upd_shm (with_BufferDescriptors ds) w /\
  length ds = length (BufferDescriptors (shm w)).
Proof.
  induction u as [|u (ds & E & Hl)].
  { exists (BufferDescriptors (shm w)). split; [by destruct w as [[] ? ?]|done]. }
  rewrite Nat.iter_succ, E. destruct (touch_descs g r (upd_shm (with_BufferDescriptors ds) w)) as (ds' & -> & Hl').
  exists ds'. split; [done|]. rewrite Hl'. exact Hl.
Qed.

Lemma clock_in n strategy w h p r i d :
  searchable n strategy w -> at_clock n w h p r -> desc_at w i d -> i ∈ r.
Proof.
  intros Hs [[_ Hn _ Hh _ _ _ _ _] ->] Hd%lookupZ_Some. rewrite (se_len _ _ _ Hs) in Hd.
  rewrite clock_order_perm, elem_of_seqZ; [lia|]. pose proof (Z.mod_pos_bound h n). lia.
Qed.

Lemma clock_aged n strategy w h p r u xs v ys :
  searchable n strategy w -> at_clock n w h p r -> least_usage w r = Some u -> r = xs ++ v :: ys ->
  (forall x, x ∈ xs -> desc_is (fun s => (refcount s =? 0) && (usage s =? u)) w x = false) ->
  aged w (touch dec xs (Nat.iter (Z.to_nat u) (touch dec r) w)).
Proof.
  intros Hs Hat Hu Hr Hxs. pose proof (at_clock_nodup _ _ _ _ _ Hat) as Hnd.
  assert (forall x, x ∈ r -> exists d, sees w x d) as Hsees.
  { intros x Hx. apply (se_sees _ _ _ Hs). by eapply at_clock_range. }
  destruct (least_usage_Some _ _ _ Hu) as [Hmin _]. destruct (least_used r w Hsees u Hu) as [_ Hur].
  assert (forall x d, sees w x d -> x ∈ r -> aged_desc d (Nat.iter (Z.to_nat u) dec d)) as Hage.
  { intros x d (Hd & _ & Hwf & Hl) Hx. apply aged_dec_iter; [done|done|].
    intros H0. specialize (Hmin x d Hx Hd H0). lia. }
  assert (aged w (Nat.iter (Z.to_nat u) (touch dec r) w)) as Hrounds.
  { split; [apply iter_descs|]. intros i d Hd. pose proof (clock_in _ _ _ _ _ _ _ _ Hs Hat Hd) as Hi.
    exists (Nat.iter (Z.to_nat u) dec d). split; [by apply touch_iter_in|].
    destruct (Hsees i Hi) as (d' & Hsee). assert (d' = d) as -> by (destruct Hsee; unfold desc_at in *; congruence).
    by eapply Hage. }
  eapply aged_trans; [exact Hrounds|]. apply aged_touch.
  - rewrite Hr in Hnd. by apply NoDup_app in Hnd as (? & _).
  - intros i d' Hd'. by destruct (aged_inv _ _ _ _ Hrounds Hd') as (d & _ & s & -> & Hwf & _).
  - intros x d' Hx Hd'. assert (x ∈ r) as Hxr by (rewrite Hr; set_solver). destruct (Hsees x Hxr) as (d & Hsee).
    destruct (after_rounds n r w h p Hat Hsees u x d Hu Hxr Hsee) as (Hsee' & Hr' & Hu').
    assert (d' = Nat.iter (Z.to_nat u) dec d) as -> by (destruct Hsee'; unfold desc_at in *; congruence).
    apply aged_dec; [apply Hsee'|]. rewrite Hr'. intros H0. specialize (Hu' H0). specialize (Hxs x Hx).
    unfold desc_is in Hxs. rewrite (proj1 Hsee), H0 in Hxs. cbn in Hxs. apply Z.eqb_neq in Hxs.
    specialize (Hmin x d Hxr (proj1 Hsee) H0). lia.
Qed.

Lemma ticks_range n k h p : 0 < n -> 0 <= h <= n -> 0 <= p < 2 ^ 32 ->
  0 <= (ticks n k (h, p)).1 <= n /\ 0 <= (ticks n k (h, p)).2 < 2 ^ 32.
Proof.
  intros Hn Hh Hp. induction k as [|k IH]; [done|]. unfold ticks in *. rewrite Nat.iter_succ. cbn.
  pose proof (Z.mod_pos_bound (Nat.iter k (tick1 n) (h, p)).1 n Hn). pose proof (u32_range
    ((Nat.iter k (tick1 n) (h, p)).2 + (Nat.iter k (tick1 n) (h, p)).1 / n)). lia.
Qed.

Lemma clock_quiet_get n strategy w x :
  searchable n strategy w -> clock_ready n (StrategyControl (shm w)) (mem w) -> 0 <= x < n ->
  unpinned w x = true ->
  exists v st w', ClockSweepGetBuffer strategy w = (Ret (v, st), w') /\ 0 <= v < n /\
    got strategy w v st w' /\ clock_ready n (StrategyControl (shm w')) (mem w').
Proof.
  intros Hs (h & Hh & Hhr & Hpr) Hx Hun. pose proof (se_size _ _ _ Hs) as Hsz. unfold pool_sized in Hsz.
  pose proof (se_gas _ _ _ Hs) as Hgas. unfold search_gas in Hgas.
  set (p := completePasses (StrategyControl (shm w))). set (r := clock_order n (h mod n)).
  assert (at_clock n w h p r) as Hat by (split; [split; try done; try apply Hs; lia|done]).
  assert (forall y, y ∈ r -> 0 <= y < n) as Hrange by (intros y; by eapply at_clock_range).
  pose proof (ClockSweepGetBuffer_search n strategy r w h p Hat
    (fun y Hy => se_sees _ _ _ Hs y (Hrange y Hy)) (se_ring _ _ _ Hs)
    (fun y Hy => se_track _ _ _ Hs y (Hrange y Hy)) ltac:(lia)) as Hres.
  destruct (se_sees _ _ _ Hs x Hx) as (dx & Hsx). pose proof (clock_in _ _ _ _ _ _ _ _ Hs Hat (proj1 Hsx)) as Hxr.
  rewrite (unpinned_at _ _ _ (proj1 Hsx)) in Hun. apply Z.eqb_eq in Hun.
  unfold clock_result, clock_choice in Hres.
  destruct (least_usage w r) as [u|] eqn:Hu; [|by destruct (least_usage_None _ _ Hu x dx Hxr (proj1 Hsx))].
  destruct (first _ r) as [[xs v]|] eqn:Hf.
  2:{ destruct (least_usage_Some _ _ _ Hu) as [_ (y & d & Hy & Hd & Hr0 & Hu0)].
      pose proof (first_None _ _ Hf y Hy) as H. unfold desc_is in H. rewrite Hd, Hr0, Hu0, !Z.eqb_refl in H. done. }
  destruct Hres as (d & m' & Hd & Hr0 & _ & Hrun & Htr). apply first_Some in Hf as (ys & Hr & _ & Hxs).
  set (hp := ticks _ _ _) in *. eexists v, _, _. split; [exact Hrun|].
  split; [apply Hrange; rewrite Hr; set_solver|]. pose proof (clock_aged _ _ _ _ _ _ _ _ _ _ Hs Hat Hu Hr Hxs) as Hage.
  destruct (ticks_range n (Z.to_nat u * Z.to_nat n + length xs + 1) h p) as [Hh' Hp']; [lia|done|done|].
  split.
  - pose proof (ag_rest _ _ Hage) as (ds & E & _). set (w1 := touch dec xs _) in *.
    eexists w1, d, _, _, m'. split; [done|]. split; [done|]. split; [done|]. split; [done|].
    split; [reflexivity|]. rewrite E. cbn. split; [apply (se_lock _ _ _ Hs)|done].
  - pose proof (ag_rest _ _ Hage) as (ds & E & _). set (w1 := touch dec xs _) in *. rewrite E.
    exists hp.1. split; [|exact (conj Hh' Hp')].
    change (lookupZ (insertZ nextVictimBuffer hp.1 (mem w)) nextVictimBuffer = Some hp.1).
    eapply lookupZ_insertZ_eq, lookupZ_Some, Hh.
Qed.

#[export] Instance clock_quiet : PolicyQuiet ClockSweepVtable.
Proof.
  refine {| pq_inv := clock_ready; pq_linked := fun _ _ _ => True |}.
  - intros n strategy w x Hs Hi _ Hx Hun. destruct (clock_quiet_get n strategy w x Hs Hi Hx Hun) as (v & st & w' & ? & ? & ? & ?).
    by exists v, st, w'.
  - by intros n c buf _ w _ _ _ _ _ HI.
  - by intros n c buf x _ w _ _ _ _ _ HI.
  - by intros n c buf _ w _ _ _ _ _ HI.
  - by intros n c buf x _ w _ _ _ _ _ HI.
  - by intros n c buf _ w _ _ _ _ _ HI.
  - intros n c m f (h & Hh & Hr & Hp) E. exists h. by rewrite E.
Defined.

(** ** The three policies that queue *)

(** A search that held the lock and found [v] in [w1]. *)
Lemma got_locked strategy w w1 v d mem' m' :
  lock_of (shm w) = None -> aged w w1 -> desc_at w1 v d -> refcount (state d) = 0 ->
  tracked (with_rings (rings_put strategy (v + 1) (rings (me w))) (me w)) m' (v + 1) ->
  got strategy w v (pinned_word (state d)) (set_lock None (with_me m' (with_mem mem'
    (set_desc v (with_state (pinned_word (state d)) d) w1)))).
Proof.
  intros Hl Hage Hd Hr Htr. pose proof (ag_rest _ _ Hage) as (ds & E & _).
  eexists w1, d, _, mem', m'. split; [done|]. split; [done|]. split; [done|]. split; [done|].
  split; [reflexivity|]. rewrite E. cbn. done.
Qed.

Lemma aged_start n strategy w : searchable n strategy w -> aged w w.
Proof. intros Hs. apply aged_refl, Hs. Qed.

Definition sieve_linked (n : Z) (m : list Z) (x : Z) : Prop :=
  exists l hand, sieve_mem n m l hand /\ x ∈ l.

Lemma sieve_quiet_get n strategy w x :
  searchable n strategy w -> sieve_linked n (mem w) x -> 0 <= x < n -> unpinned w x = true ->
  exists v st w', SieveGetBuffer strategy w = (Ret (v, st), w') /\ 0 <= v < n /\
    got strategy w v st w' /\ sieve_inv n (mem w') /\ (x <> v -> sieve_linked n (mem w') x).
Proof.
  intros Hs (l & hand & Hm & Hxl) Hx Hun. pose proof (se_gas _ _ _ Hs) as Hgas. unfold search_gas in Hgas.
  pose proof (q_range _ _ _ _ _ (sm_queue _ _ _ _ Hm)) as Hrange.
  assert (exists r, rot l r /\ head r = Some hand) as (r & Hrot & Hhead).
  { destruct (sm_hand_in _ _ _ _ Hm) as [Hin|[-> _]]; [|set_solver].
    apply list_elem_of_split in Hin as (l1 & l2 & ->). exists ((hand :: l2) ++ l1). split; [by exists l1, (hand :: l2)|done]. }
  pose proof (SieveGetBuffer_search n strategy l r w hand (se_quiet _ _ _ Hs) (se_lock _ _ _ Hs) (se_n _ _ _ Hs)
    ltac:(lia) Hm Hrot Hhead (fun y Hy => se_sees _ _ _ Hs y (Hrange y Hy)) (se_ring _ _ _ Hs)
    (fun y Hy => se_track _ _ _ Hs y (Hrange y Hy))) as Hres.
  unfold sieve_result in Hres. destruct (sieve_choice w r) as [[xs v]|] eqn:Hc.
  - destruct Hres as (d & m' & mem' & l1 & l2 & Hd & Hr & _ & Hrun & Hl & Hm' & Htr).
    eexists v, _, _. split; [exact Hrun|]. split; [apply Hrange; rewrite Hl; set_solver|].
    split; [|split; [by exists (l1 ++ l2), (hand_after n l1 v l2 v)|]].
    2: { intros Hne. exists (l1 ++ l2), (hand_after n l1 v l2 v). split; [exact Hm'|]. rewrite Hl in Hxl. set_solver. }
    apply got_locked; [apply Hs| |done|done|done].
    assert (NoDup xs) as Hnd.
    { pose proof (rot_perm _ _ Hrot) as Hp. assert (NoDup r) as Hndr by (rewrite Hp; eapply queue_nodup, (sm_queue _ _ _ _ Hm)).
      unfold sieve_choice in Hc. destruct (first (evictable w) r) as [[]|] eqn:Hf.
      - injection Hc as -> ->. apply first_Some in Hf as (ys & -> & _). by apply NoDup_app in Hndr as (? & _).
      - destruct (first (unpinned w) r) as [[]|]; [|done]. by injection Hc as <- <-. }
    apply aged_touch; [done|apply Hs|]. intros y dy _ Hy. by eapply aged_spare, Hs.
  - exfalso. unfold sieve_choice in Hc. destruct (first (evictable w) r) as [[]|]; [done|].
    destruct (first (unpinned w) r) as [[]|] eqn:Hf; [done|].
    assert (x ∈ r) as Hxr by (by rewrite (rot_perm _ _ Hrot)). by rewrite (first_None _ _ Hf x Hxr) in Hun.
Qed.

#[export] Instance sieve_quiet : PolicyQuiet SieveVtable.
Proof.
  refine {| pq_inv := fun n _ => sieve_inv n; pq_linked := sieve_linked |}.
  - intros n strategy w x Hs _ Hx ? Hun. by eapply sieve_quiet_get.
  - intros n c buf Hb. apply (section_hook sieve_insert_locked). intros w Hw (l & hand & Hm).
    destruct (sieve_insert_locked_run w n l buf hand Hw Hm Hb) as (m' & l' & hand' & Hrun & Hm' & Hin).
    exists m'. split; [done|]. split; [by exists l', hand'|]. exists l', hand'. split; [done|].
    destruct Hin; set_solver.
  - intros n c buf x Hb. apply (section_hook sieve_insert_locked). intros w Hw [_ (l & hand & Hm & Hx)].
    destruct (sieve_insert_locked_run w n l buf hand Hw Hm Hb) as (m' & l' & hand' & Hrun & Hm' & Hin).
    exists m'. split; [done|]. split; [by exists l', hand'|]. exists l', hand'. split; [done|].
    destruct Hin; set_solver.
  - by intros n c buf _ w _ _ _ _ _ HI.
  - by intros n c buf x _ w _ _ _ _ _ HI.
  - intros n c buf _ w _ _ _ _ _ HI. exists (mem w). split; [by destruct w as [[] ? ?]|done].
  - done.
Defined.

Definition lru_linked (n : Z) (m : list Z) (x : Z) : Prop := exists l, lru_mem n m l /\ x ∈ l.

Lemma lru_quiet_get n strategy w x :
  searchable n strategy w -> lru_linked n (mem w) x -> 0 <= x < n -> unpinned w x = true ->
  exists v st w', LRUGetBuffer strategy w = (Ret (v, st), w') /\ 0 <= v < n /\
    got strategy w v st w' /\ lru_inv n (mem w') /\ (x <> v -> lru_linked n (mem w') x).
Proof.
  intros Hs (l & Hm & Hxl) Hx Hun. pose proof (se_gas _ _ _ Hs) as Hgas. unfold search_gas in Hgas.
  pose proof (se_size _ _ _ Hs) as Hsz. unfold pool_sized in Hsz.
  pose proof (q_range _ _ _ _ _ (lm_queue _ _ _ Hm)) as Hrange.
  pose proof (LRUGetBuffer_search n strategy l w (se_quiet _ _ _ Hs) (se_lock _ _ _ Hs) (se_n _ _ _ Hs)
    ltac:(lia) ltac:(lia) Hm (fun y Hy => se_sees _ _ _ Hs y (Hrange y Hy)) (se_ring _ _ _ Hs)
    (fun y Hy => se_track _ _ _ Hs y (Hrange y Hy))) as Hres.
  unfold lru_result in Hres. destruct (first (unpinned w) l) as [[ps v]|] eqn:Hf.
  - destruct Hres as (d & m' & mem' & Hd & Hrun & Hm' & Htr). apply first_Some in Hf as (ys & Hl & Hv & _).
    rewrite (unpinned_at _ _ _ Hd) in Hv. apply Z.eqb_eq in Hv.
    eexists v, _, _. split; [exact Hrun|]. split; [apply Hrange; rewrite Hl; set_solver|].
    split; [|split; [by exists (rm v l)|intros Hne; exists (rm v l); split; [exact Hm'|by apply elem_of_rm]]]. apply got_locked; [apply Hs|by eapply aged_start|done|done|done].
  - by rewrite (first_None _ _ Hf x Hxl) in Hun.
Qed.

Lemma lru_hook F body n buf (J : list Z -> Prop) :
  rewrites n buf F body -> (forall m l, lru_mem n m (F l) -> J m) ->
  hook_run (Some (fun buf => let* d := deref buf in SpinLockAcquire ;; body (buf_id d))) n buf (lru_inv n) J.
Proof.
  intros Hrw HJ. apply section_hook. intros w Hw (l & Hm). destruct (Hrw w l Hw Hm) as (m' & Hrun & Hm').
  exists m'. split; [done|]. by eapply HJ.
Qed.

#[export] Instance lru_quiet : PolicyQuiet LRUVtable.
Proof.
  refine {| pq_inv := fun n _ => lru_inv n; pq_linked := lru_linked |}.
  - intros n strategy w x Hs _ Hx ? Hun. by eapply lru_quiet_get.
  - intros n c buf Hb. apply (lru_hook (lru_insert buf) lru_insert_section); [by apply lru_insert_rewrites|].
    intros m l Hm. split; [by eexists|]. exists (lru_insert buf l). split; [done|]. unfold lru_insert. set_solver.
  - intros n c buf x Hb. apply (section_hook lru_insert_section). intros w Hw [_ (l & Hm & Hx)].
    destruct (lru_insert_rewrites n buf Hb w l Hw Hm) as (m' & Hrun & Hm'). exists m'. split; [done|]. split; [by eexists|].
    exists (lru_insert buf l). split; [done|]. unfold lru_insert.
    rewrite elem_of_app, elem_of_rm, list_elem_of_singleton. destruct (decide (x = buf)); tauto.
  - intros n c buf Hb. apply (lru_hook (lru_hit buf) lru_hit_section); [by apply lru_hit_rewrites|]. by eexists.
  - intros n c buf x Hb. apply (section_hook lru_hit_section). intros w Hw [_ (l & Hm & Hx)].
    destruct (lru_hit_rewrites n buf Hb w l Hw Hm) as (m' & Hrun & Hm'). exists m'. split; [done|]. split; [by eexists|].
    exists (lru_hit buf l). split; [done|]. unfold lru_hit. case_bool_decide; [|done].
    rewrite elem_of_app, elem_of_rm, list_elem_of_singleton. destruct (decide (x = buf)); tauto.
  - intros n c buf Hb. apply (lru_hook (lru_invalidate buf) lru_invalidate_section); [by apply lru_invalidate_rewrites|].
    by eexists.
  - done.
Defined.

Definition lfu_linked (n : Z) (m : list Z) (x : Z) : Prop := exists s, lfu_mem n m s /\ x ∈ lfu_order s.

Lemma free_unpinned w x d : sees w x d -> free w x = unpinned w x.
Proof.
  intros (Hd & _ & _ & Hl). unfold free, unpinned, desc_is. rewrite Hd, Hl. cbn. by rewrite negb_involutive.
Qed.

Lemma elem_of_lfu_order n m s x : lfu_mem n m s -> x ∈ lfu_order s <-> 0 <= x < n /\ l_min s <= l_freq s x.
Proof.
  intros Hm. pose proof (fm_min_range _ _ _ Hm) as Hmin. unfold lfu_order. rewrite list_elem_of_join. split.
  - intros (l & Hx & (f & -> & Hf%elem_of_freqs)%list_elem_of_fmap).
    apply (fm_member _ _ _ Hm) in Hx as [Hr Hf']; [lia|]. unfold freq_ok. lia.
  - intros [Hr Hle]. pose proof (fm_freq_range _ _ _ Hm x Hr) as Hf. exists (l_bucket s (l_freq s x)). split.
    + apply (fm_member _ _ _ Hm); [unfold freq_ok; lia|done].
    + apply list_elem_of_fmap. exists (l_freq s x). split; [done|]. apply elem_of_freqs. lia.
Qed.

Lemma lfu_quiet_get n strategy w x :
  searchable n strategy w -> lfu_linked n (mem w) x -> 0 <= x < n -> unpinned w x = true ->
  exists v st w', LFUGetBuffer strategy w = (Ret (v, st), w') /\ 0 <= v < n /\
    got strategy w v st w' /\ lfu_inv n (mem w') /\ (x <> v -> lfu_linked n (mem w') x).
Proof.
  intros Hs (s & Hm & Hxl) Hx Hun. pose proof (se_gas _ _ _ Hs) as Hgas. unfold search_gas in Hgas.
  pose proof (se_size _ _ _ Hs) as Hsz. unfold pool_sized in Hsz.
  pose proof (LFUGetBuffer_search n strategy s w (se_quiet _ _ _ Hs) (se_lock _ _ _ Hs) (se_n _ _ _ Hs)
    ltac:(lia) ltac:(lia) Hm) as Hres.
  unfold lfu_result in Hres. destruct (first (free w) (lfu_order s)) as [[ps v]|] eqn:Hf.
  - destruct Hres as (st & w' & mf' & Hrun & (d & m' & mem' & Hd & Hr & -> & -> & Hm' & Htr) & Hleast).
    { intros y Hy. destruct (se_sees _ _ _ Hs y Hy) as (d & ? & ? & ? & _). by exists d. }
    { apply Hs. }
    { intros y Hy Hfree. apply Hs; [done|]. destruct (se_sees _ _ _ Hs y Hy) as (d & Hsee).
      by rewrite <- (free_unpinned w y d). }
    eexists v, _, _. split; [exact Hrun|]. pose proof (lookupZ_Some _ _ _ Hd) as Hv. rewrite (se_len _ _ _ Hs) in Hv.
    split; [done|]. split; [|split; [by eexists|]].
    2: { intros Hne. eexists. split; [exact Hm'|]. apply (elem_of_lfu_order n _ _ _ Hm'). split; [done|]. cbn.
      rewrite fn_lookup_insert_ne by done. apply Hleast; [done|]. destruct (se_sees _ _ _ Hs x Hx) as (dx & Hsee).
      by rewrite (free_unpinned w x dx Hsee). }
    apply got_locked; [apply Hs|by eapply aged_start|done|done|done].
  - destruct (se_sees _ _ _ Hs x Hx) as (d & Hsee). rewrite <- (free_unpinned w x d Hsee) in Hun.
    by rewrite (first_None _ _ Hf x Hxl) in Hun.
Qed.

Lemma lfu_hook F body n buf (J : list Z -> Prop) :
  lfu_rewrites n buf F body -> (forall m s, lfu_mem n m (F s) -> J m) ->
  hook_run (Some (fun buf => let* d := deref buf in SpinLockAcquire ;; body (buf_id d))) n buf (lfu_inv n) J.
Proof.
  intros Hrw HJ. apply section_hook. intros w Hw (s & Hm). destruct (Hrw w s Hw Hm) as (m' & Hrun & Hm').
  exists m'. split; [done|]. by eapply HJ.
Qed.

Lemma lfu_inserted n m s b : lfu_mem n m (lfu_insert b s) -> lfu_linked n m b.
Proof.
  intros Hm. exists (lfu_insert b s). split; [done|]. unfold lfu_order. apply list_elem_of_join.
  exists (l_bucket (lfu_insert b s) 1). split.
  - cbn. unfold lfu_add. rewrite fn_lookup_insert. set_solver.
  - apply list_elem_of_fmap. exists 1. split; [done|]. apply elem_of_freqs. cbn. unfold LFU_MAX_FREQ. lia.
Qed.

(** A hit makes no queued buffer unreachable for the search. *)
Lemma lfu_hit_order n m m' s b x :
  lfu_mem n m s -> lfu_mem n m' (lfu_hit b s) -> 0 <= b < n -> x ∈ lfu_order s -> x ∈ lfu_order (lfu_hit b s).
Proof.
  intros Hm Hm' Hb Hx. pose proof (fm_min_range _ _ _ Hm) as Hmin. rewrite (elem_of_lfu_order _ _ _ _ Hm'). split.
  { by apply (elem_of_lfu_order _ _ _ _ Hm) in Hx as [? _]. }
  apply (elem_of_lfu_order _ _ _ _ Hm) in Hx as [Hr Hle]. unfold lfu_hit.
  pose proof (fm_freq_range _ _ _ Hm b Hb) as Hfb. pose proof (fm_freq_range _ _ _ Hm x Hr) as Hfx.
  destruct (Z.eqb_spec (l_freq s b) 0) as [E|E]; [done|]. cbn [l_min l_freq].
  destruct (decide (x = b)) as [->|Hne].
  - rewrite fn_lookup_insert. destruct (_ && _); lia.
  - rewrite fn_lookup_insert_ne by done. destruct (Z.eqb_spec (l_freq s b) (l_min s)) as [E1|E1]; cbn [andb]; [|done].
    case_bool_decide as Hemp; [|done]. destruct (decide (l_freq s x = l_freq s b)) as [E2|E2]; [|lia].
    assert (x ∈ rm b (l_bucket s (l_freq s b))) as Hin; [|rewrite Hemp in Hin; set_solver].
    apply elem_of_rm. split; [|done]. apply (fm_member _ _ _ Hm); [unfold freq_ok; lia|done].
Qed.

#[export] Instance lfu_quiet : PolicyQuiet LFUVtable.
Proof.
  refine {| pq_inv := fun n _ => lfu_inv n; pq_linked := lfu_linked |}.
  - intros n strategy w x Hs _ Hx ? Hun. by eapply lfu_quiet_get.
  - intros n c buf Hb. apply (lfu_hook (lfu_insert buf) lfu_insert_section); [by apply lfu_insert_rewrites|].
    intros m s Hm. split; [by eexists|by eapply lfu_inserted].
  - intros n c buf x Hb. apply (section_hook lfu_insert_section). intros w Hw [_ (s & Hm & Hx)].
    destruct (lfu_insert_rewrites n buf Hb w s Hw Hm) as (m' & Hrun & Hm'). exists m'. split; [done|]. split; [by eexists|].
    destruct (decide (x = buf)) as [->|Hne]; [by eapply lfu_inserted|].
    exists (lfu_insert buf s). split; [done|]. apply (elem_of_lfu_order _ _ _ _ Hm) in Hx as [Hr Hle].
    apply (elem_of_lfu_order _ _ _ _ Hm'). split; [done|]. cbn. rewrite fn_lookup_insert_ne by done.
    pose proof (fm_min_range _ _ _ Hm). lia.
  - intros n c buf Hb. apply (lfu_hook (lfu_hit buf) lfu_hit_section); [by apply lfu_hit_rewrites|]. by eexists.
  - intros n c buf x Hb. apply (section_hook lfu_hit_section). intros w Hw [_ (s & Hm & Hx)].
    destruct (lfu_hit_rewrites n buf Hb w s Hw Hm) as (m' & Hrun & Hm'). exists m'. split; [done|]. split; [by eexists|].
    exists (lfu_hit buf s). split; [done|]. by eapply lfu_hit_order.
  - intros n c buf Hb. apply (lfu_hook (lfu_invalidate buf) lfu_invalidate_section); [by apply lfu_invalidate_rewrites|].
    by eexists.
  - done.
Defined.

#[export] Instance policy_quiet (p : EvictionVtablePtr) : PolicyQuiet p :=
  match p with
  | ClockSweepVtable => clock_quiet
  | SieveVtable => sieve_quiet
  | LFUVtable => lfu_quiet
  | LRUVtable => lru_quiet
  end.
