(* ===== verification/Pool.v ===== *)
(** * The pool of shared buffers as a cache

    What has to hold of the descriptors, the lookup table, the pages in memory
    and on disk and the log between two operations, and which page a reader of a
    block sees.  The updates that the buffer manager makes are shown to keep the
    invariant and what is seen. *)
From S2P Require Import Prelude BufState BufTag Shmem Concurrency PrivateRefCount LockWord PolicyQuiet.

(** ** What is on disk *)
Definition disk_page (s : Shared) (t : BufferTag) : option Z :=
  lookupZ (default [] (smgr_disk s !! (BufTagGetRelFileLocator t, BufTagGetForkNum t))) (blockNum t).

Definition disk_write (t : BufferTag) (page : Z) (s : Shared) : Shared :=
  let k := (BufTagGetRelFileLocator t, BufTagGetForkNum t) in
  with_smgr_disk (<[k := insertZ (blockNum t) page (default [] (smgr_disk s !! k))]> (smgr_disk s)) s.

(** Nobody uses the buffer: no content lock, no I/O, nobody waiting. *)
Record idle (d : BufferDesc) : Prop := {
  id_lock : lock_field (state d) = 0;
  id_io : flag (state d) BM_IO_IN_PROGRESS = false;
  id_waiters : flag (state d) BM_LOCK_HAS_WAITERS = false;
  id_wake : flag (state d) BM_LOCK_WAKE_IN_PROGRESS = false;
  id_pinwait : flag (state d) BM_PIN_COUNT_WAITER = false;
  id_queue : lock_waiters d = []
}.

Definition desc_of (s : Shared) (i : Z) (d : BufferDesc) : Prop := lookupZ (BufferDescriptors s) i = Some d.
Definition redesc (i : Z) (d : BufferDesc) (s : Shared) : Shared :=
  with_BufferDescriptors (insertZ i d (BufferDescriptors s)) s.

Section pool.
Context (same_page : relation Z) `{!Equivalence same_page}.
Context (PageGetLSN : Z -> Z) (permanent : BufferTag -> bool).

(** ** The invariant *)
Record desc_ok (s : Shared) (i : Z) (d : BufferDesc) : Prop := {
  do_id : buf_id d = i;
  do_wf : wf_state (state d);
  do_unlocked : flag (state d) BM_LOCKED = false;
  do_dirty : flag (state d) BM_DIRTY = true -> flag (state d) BM_VALID = true;
  do_valid : flag (state d) BM_VALID = true ->
    flag (state d) BM_TAG_VALID = true /\
    exists v f, lookupZ (BufferBlocks s) i = Some v /\ disk_page s (tag d) = Some f /\
      (flag (state d) BM_DIRTY = false -> same_page v f);
  do_perm : flag (state d) BM_TAG_VALID = true -> flag (state d) BM_PERMANENT = permanent (tag d);
  do_blank : flag (state d) BM_TAG_VALID = false -> flag (state d) BM_PERMANENT = false;
  do_just : flag (state d) BM_TAG_VALID = false -> flag (state d) BM_JUST_DIRTIED = false;
  do_idle : refcount (state d) = 0 -> idle d
}.

(** [pl_wal] is the rule of write-ahead logging: of a permanent relation no page is
    on disk whose changes are not in the durable part of the log; [pl_zero] says that
    a page of zeros has no such changes. *)
Record pool_ok (n : Z) (s : Shared) : Prop := {
  pl_len : Z.of_nat (length (BufferDescriptors s)) = n;
  pl_blocks : Z.of_nat (length (BufferBlocks s)) = n;
  pl_desc : forall i d, desc_of s i d -> desc_ok s i d;
  pl_hash : forall t i, SharedBufHash s !! t = Some i <->
    exists d, desc_of s i d /\ flag (state d) BM_TAG_VALID = true /\ tag d = t;
  pl_wal : forall t v, permanent t = true -> disk_page s t = Some v -> PageGetLSN v <= wal_flushed s;
  pl_zero : PageGetLSN 0 <= wal_flushed s
}.

(** The page in a buffer that holds the block, and the page a reader sees. *)
Definition cached (s : Shared) (t : BufferTag) : option Z :=
  match SharedBufHash s !! t with
  | Some i =>
      match lookupZ (BufferDescriptors s) i with
      | Some d => if flag (state d) BM_VALID then lookupZ (BufferBlocks s) i else None
      | None => None
      end
  | None => None
  end.
Definition page_seen (s : Shared) (t : BufferTag) : option Z :=
  match cached s t with
  | Some v => Some v
  | None => disk_page s t
  end.
Definition same_pages (s s' : Shared) : Prop :=
  forall t, option_Forall2 same_page (page_seen s t) (page_seen s' t).

#[export] Instance same_pages_equiv : Equivalence same_pages.
Proof using Equivalence0.
  split.
  - intros s t. apply (reflexivity (R := option_Forall2 same_page)).
  - intros s s' H t. symmetry. apply H.
  - intros s1 s2 s3 H1 H2 t. etrans; [apply H1|apply H2].
Qed.

(** ** Changes that no reader notices

    The descriptor keeps its identity and the flags that say what its page is. *)
Record alike (d d' : BufferDesc) : Prop := {
  al_tag : tag d' = tag d;
  al_id : buf_id d' = buf_id d;
  al_wf : wf_state (state d');
  al_locked : flag (state d') BM_LOCKED = flag (state d) BM_LOCKED;
  al_dirty : flag (state d') BM_DIRTY = flag (state d) BM_DIRTY;
  al_valid : flag (state d') BM_VALID = flag (state d) BM_VALID;
  al_tagged : flag (state d') BM_TAG_VALID = flag (state d) BM_TAG_VALID;
  al_perm : flag (state d') BM_PERMANENT = flag (state d) BM_PERMANENT;
  al_ckpt : flag (state d') BM_CHECKPOINT_NEEDED = flag (state d) BM_CHECKPOINT_NEEDED;
  al_just : flag (state d') BM_JUST_DIRTIED = true -> flag (state d) BM_JUST_DIRTIED = true
}.

(** The same pool, with descriptors that are alike. *)
Record pool_alike (s s' : Shared) : Prop := {
  pa_len : length (BufferDescriptors s') = length (BufferDescriptors s);
  pa_desc : forall i d, desc_of s i d -> exists d', desc_of s' i d' /\ alike d d' /\
    (refcount (state d') = 0 -> idle d');
  pa_hash : SharedBufHash s' = SharedBufHash s;
  pa_blocks : BufferBlocks s' = BufferBlocks s;
  pa_disk : smgr_disk s' = smgr_disk s;
  pa_wal : wal_flushed s' = wal_flushed s
}.

Lemma pool_alike_inv s s' i d' : pool_alike s s' -> desc_of s' i d' -> exists d, desc_of s i d /\ alike d d' /\
  (refcount (state d') = 0 -> idle d').
Proof using Type.
  intros Ha Hd'. pose proof (lookupZ_Some _ _ _ Hd') as Hi. rewrite (pa_len _ _ Ha) in Hi.
  destruct (lookupZ_lt _ _ Hi) as [d Hd]. exists d. split; [done|].
  destruct (pa_desc _ _ Ha i d Hd) as (d'' & Hd'' & H). unfold desc_of in *. by simplify_eq.
Qed.

Lemma pool_alike_ok n s s' : pool_ok n s -> pool_alike s s' -> pool_ok n s'.
Proof using Type.
  intros [P1 P2 P3 P4 P5 P6] Ha. pose proof Ha as [A1 A2 A3 A4 A5 A6].
  assert (forall t, disk_page s' t = disk_page s t) as Hdisk by (intros t; unfold disk_page; by rewrite A5).
  split; [by rewrite A1|by rewrite A4| | | |by rewrite A6].
  - intros i d' Hd'. destruct (pool_alike_inv s s' i d' Ha Hd') as (d & Hd & [] & Hidle).
    destruct (P3 i d Hd). split; try congruence; try done.
    + intros Hv. rewrite al_valid0. apply do_dirty0. congruence.
    + intros Hv. destruct do_valid0 as (Ht & v & f & Hp & Hf & Hc); [congruence|]. split; [by rewrite al_tagged0|].
      exists v, f. rewrite A4, Hdisk, al_tag0. split_and!; [done|done|]. intros Hdirty. apply Hc. congruence.
    + intros Ht. rewrite al_perm0, al_tag0. apply do_perm0. congruence.
    + intros Ht. rewrite al_perm0. apply do_blank0. congruence.
    + intros Ht. destruct (flag (state d') BM_JUST_DIRTIED); [|done]. rewrite <- do_just0 by congruence. symmetry. by apply al_just0.
  - intros t i. rewrite A3, P4. split.
    + intros (d & Hd & Ht & <-). destruct (A2 i d Hd) as (d' & Hd' & [] & _). exists d'. split_and!; (done || congruence).
    + intros (d' & Hd' & Ht & <-). destruct (pool_alike_inv s s' i d' Ha Hd') as (d & Hd & [] & _).
      exists d. split_and!; (done || congruence).
  - intros t v. rewrite Hdisk, A6. apply P5.
Qed.

Lemma pool_alike_seen n s s' t : pool_ok n s -> pool_alike s s' -> cached s' t = cached s t /\ page_seen s' t = page_seen s t.
Proof using Type.
  intros Hp Ha. pose proof Ha as [A1 A2 A3 A4 A5 A6].
  assert (cached s' t = cached s t) as Hc.
  { unfold cached. rewrite A3, A4. destruct (SharedBufHash s !! t) as [i|] eqn:E; [|done].
    apply (pl_hash _ _ Hp) in E as (d & Hd & _). destruct (A2 i d Hd) as (d' & Hd' & [] & _).
    unfold desc_of in *. rewrite Hd, Hd'. by rewrite al_valid0. }
  split; [done|]. unfold page_seen. rewrite Hc. destruct (cached s t); [done|]. unfold disk_page. by rewrite A5.
Qed.

Lemma alike_refl d : wf_state (state d) -> alike d d.
Proof using Type. intros. by split. Qed.
Lemma alike_trans d1 d2 d3 : alike d1 d2 -> alike d2 d3 -> alike d1 d3.
Proof using Type. intros [] []. split; (done || congruence || auto). Qed.

Lemma pool_alike_refl n s : pool_ok n s -> pool_alike s s.
Proof using Type.
  intros Hp. split; try done. intros i d Hd. exists d. destruct (pl_desc _ _ Hp i d Hd).
  split; [done|]. split; [by apply alike_refl|done].
Qed.
Lemma pool_alike_trans s1 s2 s3 : pool_alike s1 s2 -> pool_alike s2 s3 -> pool_alike s1 s3.
Proof using Type.
  intros [A1 A2 A3 A4 A5 A6] [B1 B2 B3 B4 B5 B6]. split; try congruence.
  intros i d Hd. destruct (A2 i d Hd) as (d' & Hd' & Ha & _). destruct (B2 i d' Hd') as (d'' & Hd'' & Hb & Hi).
  exists d''. split; [done|]. split; [by eapply alike_trans|done].
Qed.

Lemma desc_of_redesc v d' s i x d :
  desc_of s v d -> desc_of (redesc v d' s) i x <-> (i = v /\ x = d') \/ (i <> v /\ desc_of s i x).
Proof using Type.
  intros Hd. unfold desc_of, redesc. cbn. split.
  - intros [[-> <-]|[? H]]%lookupZ_insertZ_Some; [by left|by right].
  - intros [[-> ->]|[Hne H]]; [by eapply lookupZ_insertZ_eq, lookupZ_Some|by rewrite lookupZ_insertZ_ne].
Qed.

Lemma redesc_alike n s v d d' :
  pool_ok n s -> desc_of s v d -> alike d d' -> (refcount (state d') = 0 -> idle d') ->
  pool_alike s (redesc v d' s).
Proof using Type.
  intros Hp Hd Ha Hi. split; try done; [apply length_insertZ|]. intros i x Hx.
  destruct (decide (i = v)) as [->|Hne].
  - exists d'. unfold desc_of in *. simplify_eq. split; [by eapply lookupZ_insertZ_eq, lookupZ_Some|done].
  - exists x. destruct (pl_desc _ _ Hp i x Hx). split; [by apply (desc_of_redesc v d' s i x d); [|right]|].
    split; [by apply alike_refl|done].
Qed.

(** ** A page is written *)
Lemma disk_write_eq t page s f : disk_page s t = Some f -> disk_page (disk_write t page s) t = Some page.
Proof using Type.
  intros Hf. unfold disk_page, disk_write. cbn. unfold Files in *. rewrite lookup_insert_eq. cbn.
  by eapply lookupZ_insertZ_eq, lookupZ_Some.
Qed.
Lemma disk_write_ne t t' page s : t' <> t -> disk_page (disk_write t page s) t' = disk_page s t'.
Proof using Type.
  intros Hne. unfold disk_page, disk_write. cbn. unfold Files in *.
  destruct (decide ((BufTagGetRelFileLocator t, BufTagGetForkNum t) = (BufTagGetRelFileLocator t', BufTagGetForkNum t'))) as [E|E].
  - rewrite <- E, lookup_insert_eq. cbn. apply lookupZ_insertZ_ne. intros Hb. apply Hne.
    destruct t, t'. cbn in *. by simplify_eq.
  - by rewrite lookup_insert_ne.
Qed.

(** Two buffers do not have the same block. *)
Lemma tag_unique n s i j d d' :
  pool_ok n s -> desc_of s i d -> desc_of s j d' -> flag (state d) BM_TAG_VALID = true ->
  flag (state d') BM_TAG_VALID = true -> tag d = tag d' -> i = j.
Proof using Type.
  intros Hp Hd Hd' Ht Ht' E. assert (SharedBufHash s !! tag d = Some i) as Hi by (apply Hp; eauto).
  assert (SharedBufHash s !! tag d = Some j) as Hj by (apply Hp; exists d'; by rewrite E). congruence.
Qed.

(** The page of buffer [v] has been written, the log before it, and the buffer is
    clean. *)
Definition written (v : Z) (t : BufferTag) (page lsn : Z) (d' : BufferDesc) (s : Shared) : Shared :=
  redesc v d' (disk_write t page (with_wal_flushed lsn s)).

Record cleaned (d d' : BufferDesc) : Prop := {
  cl_tag : tag d' = tag d;
  cl_id : buf_id d' = buf_id d;
  cl_wf : wf_state (state d');
  cl_locked : flag (state d') BM_LOCKED = false;
  cl_dirty : flag (state d') BM_DIRTY = false;
  cl_valid : flag (state d') BM_VALID = true;
  cl_tagged : flag (state d') BM_TAG_VALID = true;
  cl_perm : flag (state d') BM_PERMANENT = flag (state d) BM_PERMANENT
}.

Section written.
Context (n : Z) (s : Shared) (v : Z) (d d' : BufferDesc) (page page' lsn : Z).
Hypothesis Hp : pool_ok n s.
Hypothesis Hd : desc_of s v d.
Hypothesis Hv : flag (state d) BM_VALID = true.
Hypothesis Hpage : lookupZ (BufferBlocks s) v = Some page.
Hypothesis Hcl : cleaned d d'.
Local Abbreviation s' := (written v (tag d) page' lsn d' s).

Lemma written_new : disk_page s' (tag d) = Some page'.
Proof using Hp Hd Hv.
  destruct (do_valid _ _ _ (pl_desc _ _ Hp v d Hd) Hv) as (_ & _ & f & _ & Hf & _).
  by apply (disk_write_eq _ _ (with_wal_flushed lsn s) f).
Qed.
Lemma written_old t : t <> tag d -> disk_page s' t = disk_page s t.
Proof using Type. intros Hne. by apply (disk_write_ne _ _ _ (with_wal_flushed lsn s)). Qed.
Lemma written_desc i x : desc_of s' i x <-> (i = v /\ x = d') \/ (i <> v /\ desc_of s i x).
Proof using Hd. by apply (desc_of_redesc v d' (disk_write (tag d) page' (with_wal_flushed lsn s)) i x d). Qed.

Lemma written_seen : same_page page page' -> same_pages s s'.
Proof using Hp Hd Hv Hpage Hcl Equivalence0.
  intros Hsame t. assert (cached s' t = cached s t) as Hc.
  { unfold cached. change (SharedBufHash s') with (SharedBufHash s).
    change (BufferDescriptors s') with (insertZ v d' (BufferDescriptors s)).
    destruct (SharedBufHash s !! t) as [i|] eqn:E; [|done]. destruct (decide (i = v)) as [->|Hne].
    - unfold desc_of in Hd. rewrite Hd, Hv, lookupZ_insertZ_eq by (by eapply lookupZ_Some). by rewrite (cl_valid _ _ Hcl).
    - by rewrite lookupZ_insertZ_ne. }
  unfold page_seen. rewrite Hc. destruct (cached s t) as [x|] eqn:Ec; [by constructor|].
  destruct (decide (t = tag d)) as [->|Hne]; [|by rewrite written_old].
  destruct (do_valid _ _ _ (pl_desc _ _ Hp v d Hd) Hv) as [Ht _].
  exfalso. unfold cached in Ec. assert (SharedBufHash s !! tag d = Some v) as E by (apply Hp; eauto).
  unfold desc_of in Hd. by rewrite E, Hd, Hv, Hpage in Ec.
Qed.

Lemma written_ok :
  same_page page page' -> PageGetLSN page' = PageGetLSN page -> wal_flushed s <= lsn ->
  (permanent (tag d) = true -> PageGetLSN page <= lsn) -> (refcount (state d') = 0 -> idle d') ->
  pool_ok n s'.
Proof using Hp Hd Hv Hpage Hcl.
  intros Hsame Hlsn Hw1 Hw2 Hidle. pose proof Hcl as [E1 E2 Hwf Hl Hdirty Hvalid Htag Hperm].
  pose proof (pl_desc _ _ Hp v d Hd) as Hok. destruct (do_valid _ _ _ Hok Hv) as (Ht & _). split.
  - change (length _) with (length (insertZ v d' (BufferDescriptors s))). rewrite length_insertZ. apply Hp.
  - apply Hp.
  - intros i x [[-> ->]|[Hne Hx]]%written_desc.
    + split; try done; [rewrite E2; apply Hok| | |congruence|congruence].
      * intros _. split; [done|]. exists page, page'. rewrite E1, written_new. by split_and!.
      * intros _. rewrite Hperm, E1. by apply Hok.
    + destruct (pl_desc _ _ Hp i x Hx). split; try done. intros Hxv.
      destruct (do_valid0 Hxv) as (Hxt & a & b & Ha & Hb & Hc). split; [done|]. exists a, b.
      rewrite written_old; [done|]. intros E. apply Hne. by eapply (tag_unique n s i v x d).
  - intros t i. change (SharedBufHash s') with (SharedBufHash s). rewrite (pl_hash _ _ Hp). setoid_rewrite written_desc.
    split; intros (x & Hx & Hxt & Hxe).
    + destruct (decide (i = v)) as [->|Hne]; [|by eauto 10]. exists d'. unfold desc_of in *. simplify_eq.
      split_and!; [by left|done|done].
    + destruct Hx as [[-> ->]|[Hne Hx]]; [|by eauto]. exists d. rewrite <- E1. done.
  - intros t x Hpm Hx. change (wal_flushed s') with lsn. destruct (decide (t = tag d)) as [->|Hne].
    + rewrite written_new in Hx. injection Hx as <-. rewrite Hlsn. by apply Hw2.
    + rewrite written_old in Hx by done. etrans; [|exact Hw1]. by eapply pl_wal.
  - etrans; [apply Hp|exact Hw1].
Qed.
End written.

(** ** A buffer changes its identity *)

(** Buffer [v] no longer has a block. *)
Definition dropped (v : Z) (t : BufferTag) (d' : BufferDesc) (s : Shared) : Shared :=
  with_SharedBufHash (delete t (SharedBufHash s)) (redesc v d' s).

(** A descriptor without a block. *)
Record blank (v : Z) (d : BufferDesc) : Prop := {
  bl_id : buf_id d = v;
  bl_wf : wf_state (state d);
  bl_locked : flag (state d) BM_LOCKED = false;
  bl_dirty : flag (state d) BM_DIRTY = false;
  bl_valid : flag (state d) BM_VALID = false;
  bl_tagged : flag (state d) BM_TAG_VALID = false;
  bl_perm : flag (state d) BM_PERMANENT = false;
  bl_just : flag (state d) BM_JUST_DIRTIED = false;
  bl_idle : idle d
}.

Section dropped.
Context (n : Z) (s : Shared) (v : Z) (d d' : BufferDesc).
Hypothesis Hp : pool_ok n s.
Hypothesis Hd : desc_of s v d.
Hypothesis Ht : flag (state d) BM_TAG_VALID = true.
Hypothesis Hclean : flag (state d) BM_DIRTY = false.
Hypothesis Hbl : blank v d'.
Local Abbreviation s' := (dropped v (tag d) d' s).

Lemma dropped_desc i x : desc_of s' i x <-> (i = v /\ x = d') \/ (i <> v /\ desc_of s i x).
Proof using Hd. by apply (desc_of_redesc v d' s i x d). Qed.

Lemma dropped_ok : pool_ok n s'.
Proof using Hp Hd Ht Hbl.
  pose proof Hbl as [B1 B2 B3 B4 B5 B6 B7 B8]. split.
  - change (length _) with (length (insertZ v d' (BufferDescriptors s))). rewrite length_insertZ. apply Hp.
  - apply Hp.
  - intros i x [[-> ->]|[Hne Hx]]%dropped_desc; [split; (done || congruence)|].
    destruct (pl_desc _ _ Hp i x Hx). by split.
  - intros t i. change (SharedBufHash s') with (delete (tag d) (SharedBufHash s)).
    rewrite lookup_delete_Some, (pl_hash _ _ Hp). setoid_rewrite dropped_desc. split.
    + intros [Hne (x & Hx & Hxt & <-)]. exists x. split_and!; [|done|done]. right. split; [|done].
      intros ->. unfold desc_of in *. simplify_eq.
    + intros (x & [[-> ->]|[Hne Hx]] & Hxt & <-); [congruence|]. split; [|by eauto].
      intros E. apply Hne. by eapply (tag_unique n s i v x d).
  - apply (pl_wal _ _ Hp).
  - apply (pl_zero _ _ Hp).
Qed.

Lemma dropped_seen : same_pages s s'.
Proof using Hp Hd Ht Hclean Equivalence0.
  assert (SharedBufHash s !! tag d = Some v) as Hv by (apply Hp; eauto).
  intros t. unfold page_seen. change (disk_page s' t) with (disk_page s t). unfold cached.
  change (SharedBufHash s') with (delete (tag d) (SharedBufHash s)).
  change (BufferDescriptors s') with (insertZ v d' (BufferDescriptors s)).
  destruct (decide (t = tag d)) as [->|Hne].
  - rewrite lookup_delete_eq, Hv. unfold desc_of in Hd. rewrite Hd.
    destruct (flag (state d) BM_VALID) eqn:E; [|done].
    destruct (do_valid _ _ _ (pl_desc _ _ Hp v d Hd) E) as (_ & a & f & -> & -> & Hc). constructor. by apply Hc.
  - rewrite lookup_delete_ne by done. destruct (SharedBufHash s !! t) as [i|] eqn:E; [|done].
    assert (i <> v) as Hi.
    { intros ->. apply (pl_hash _ _ Hp) in E as (x & Hx & _ & <-). unfold desc_of in *. by simplify_eq. }
    by rewrite lookupZ_insertZ_ne.
Qed.
End dropped.

(** Buffer [v] is to hold block [t], whose page is still to be read. *)
Definition entered (v : Z) (t : BufferTag) (d' : BufferDesc) (s : Shared) : Shared :=
  with_SharedBufHash (<[t := v]> (SharedBufHash s)) (redesc v d' s).

Record fresh_for (v : Z) (t : BufferTag) (d : BufferDesc) : Prop := {
  fr_id : buf_id d = v;
  fr_tag : tag d = t;
  fr_wf : wf_state (state d);
  fr_locked : flag (state d) BM_LOCKED = false;
  fr_dirty : flag (state d) BM_DIRTY = false;
  fr_valid : flag (state d) BM_VALID = false;
  fr_tagged : flag (state d) BM_TAG_VALID = true;
  fr_perm : flag (state d) BM_PERMANENT = permanent t;
  fr_idle : idle d
}.

Section entered.
Context (n : Z) (s : Shared) (v : Z) (t : BufferTag) (d d' : BufferDesc).
Hypothesis Hp : pool_ok n s.
Hypothesis Hd : desc_of s v d.
Hypothesis Ht : flag (state d) BM_TAG_VALID = false.
Hypothesis Hnew : SharedBufHash s !! t = None.
Hypothesis Hfr : fresh_for v t d'.
Local Abbreviation s' := (entered v t d' s).

Lemma entered_ok : pool_ok n s'.
Proof using Hp Hd Ht Hnew Hfr.
  pose proof Hfr as [F1 F2 F3 F4 F5 F6 F7 F8 F9].
  assert (forall i x, desc_of s' i x <-> (i = v /\ x = d') \/ (i <> v /\ desc_of s i x)) as Hdesc
    by (intros i x; by apply (desc_of_redesc v d' s i x d)).
  split.
  - change (length _) with (length (insertZ v d' (BufferDescriptors s))). rewrite length_insertZ. apply Hp.
  - apply Hp.
  - intros i x [[-> ->]|[Hne Hx]]%Hdesc; [split; (done || congruence)|].
    destruct (pl_desc _ _ Hp i x Hx). by split.
  - intros t' i. change (SharedBufHash s') with (<[t := v]> (SharedBufHash s)).
    rewrite lookup_insert_Some, (pl_hash _ _ Hp). setoid_rewrite Hdesc. split.
    + intros [[<- <-]|[Hne (x & Hx & Hxt & <-)]]; [by exists d'; auto|]. exists x. split_and!; [|done|done].
      right. split; [|done]. intros ->. unfold desc_of in *. congruence.
    + intros (x & [[-> ->]|[Hne Hx]] & Hxt & <-); [by left|]. right. split; [|by eauto].
      intros E. assert (SharedBufHash s !! tag x = Some i) by (apply Hp; eauto). congruence.
  - apply (pl_wal _ _ Hp).
  - apply (pl_zero _ _ Hp).
Qed.

Lemma entered_seen t' : page_seen s' t' = page_seen s t'.
Proof using Hp Hd Ht Hnew Hfr.
  unfold page_seen. change (disk_page s' t') with (disk_page s t'). unfold cached.
  change (SharedBufHash s') with (<[t := v]> (SharedBufHash s)).
  change (BufferDescriptors s') with (insertZ v d' (BufferDescriptors s)).
  destruct (decide (t' = t)) as [->|Hne].
  - rewrite lookup_insert_eq, Hnew, lookupZ_insertZ_eq by (by eapply lookupZ_Some). by rewrite (fr_valid _ _ _ Hfr).
  - rewrite lookup_insert_ne by done. destruct (SharedBufHash s !! t') as [i|] eqn:E; [|done].
    assert (i <> v) as Hi.
    { intros ->. apply (pl_hash _ _ Hp) in E as (x & Hx & ? & <-). unfold desc_of in *. congruence. }
    by rewrite lookupZ_insertZ_ne.
Qed.
End entered.

(** The table never has more entries than there are buffers. *)
Lemma table_size n s : pool_ok n s -> Z.of_nat (size (SharedBufHash s)) <= n.
Proof using Type.
  intros Hp. assert (NoDup (map_to_list (SharedBufHash s)).*2) as Hnd.
  { apply NoDup_fmap_2_strong; [|apply NoDup_map_to_list]. intros [t i] [t' i'] H H' E. cbn in E. subst i'.
    apply elem_of_map_to_list, (pl_hash _ _ Hp) in H as (x & Hx & _ & <-).
    apply elem_of_map_to_list, (pl_hash _ _ Hp) in H' as (y & Hy & _ & <-). unfold desc_of in *. by simplify_eq. }
  assert ((map_to_list (SharedBufHash s)).*2 ⊆+ seqZ 0 n) as Hsub.
  { apply NoDup_submseteq; [done|]. intros i ([t j] & -> & H)%list_elem_of_fmap.
    apply elem_of_map_to_list, (pl_hash _ _ Hp) in H as (x & Hx & _). apply lookupZ_Some in Hx.
    rewrite (pl_len _ _ Hp) in Hx. apply elem_of_seqZ. cbn. lia. }
  apply submseteq_length in Hsub. rewrite length_fmap, length_seqZ in Hsub.
  rewrite <- length_map_to_list. pose proof (pl_len _ _ Hp). lia.
Qed.
End pool.
