(* ===== verification/FlushRun.v ===== *)
(** * Writing a page out, without interference

    [FlushBuffer] on every branch: the log is flushed before the page is written,
    the page on disk is the one in the buffer but for its checksum, and the
    buffer is clean afterwards; if the write fails the buffer stays dirty. *)
From S2P Require Import Prelude BufState BufTag Shmem Concurrency PrivateRefCount Ring BufTable.
From S2P Require Import LocalBuf ContentLock LockWord LockProtocol LockRun Pin PinRun BufIO IORun.
From S2P Require Import Writeback Eviction PolicyQuiet Pool.

(** What the buffer manager relies on in the code around it. *)
Class ServerLaws `{Server} (same_page : relation Z) : Prop := {
  (** The log is durable up to the position asked for, and never shrinks. *)
  sl_flush : forall lsn w, exists f, XLogFlush lsn w = (Ret tt, upd_shm (with_wal_flushed f) w) /\
    lsn <= f /\ wal_flushed (shm w) <= f;
  sl_needs : forall lsn w, exists b, XLogNeedsFlush lsn w = (Ret b, w);
  (** Setting the checksum changes neither what the page says nor its position in the log. *)
  sl_checksum : forall v blkno, same_page v (PageSetChecksumCopy v blkno);
  sl_lsn : forall v blkno, PageGetLSN (PageSetChecksumCopy v blkno) = PageGetLSN v;
  (** A write-back request is only a hint to the kernel. *)
  sl_hint : hint_only smgrwriteback eq
}.

(** ** The state words *)

(** While the page is being written, and afterwards. *)
Definition writing_word (s : Z) : Z := Z.ldiff (Z.lor s BM_IO_IN_PROGRESS) BM_JUST_DIRTIED.
Definition flushed_word (s : Z) : Z := io_done_word true 0 (writing_word s).

Lemma writing_word_wf s : wf_state s -> wf_state (writing_word s).
Proof. intros Hs. by apply wf_ldiff, wf_lor. Qed.

Lemma writing_word_fields s :
  refcount (writing_word s) = refcount s /\ usage (writing_word s) = usage s /\
  lock_field (writing_word s) = lock_field s.
Proof.
  unfold writing_word, lock_field. rewrite !refcount_field, !usage_field, !field_ldiff, !field_lor; done.
Qed.

Lemma flushed_word_flag {G k} `{!IsBit G k} s :
  wf_state s -> flag BM_LOCKED G = false ->
  flag (flushed_word s) G = (flag s G || flag BM_IO_IN_PROGRESS G) && negb (flag BM_JUST_DIRTIED G) &&
    negb (flag (Z.lor (Z.lor BM_IO_IN_PROGRESS BM_IO_ERROR) (Z.lor BM_DIRTY BM_CHECKPOINT_NEEDED)) G).
Proof.
  intros Hs Hg. unfold flushed_word, io_done_word. rewrite unlock_ext_flag; [|by apply writing_word_wf|done|done].
  assert (flag (writing_word s) BM_JUST_DIRTIED = false) as Hj by (unfold writing_word; by flags).
  unfold io_unset. rewrite Hj. cbn [andb negb]. rewrite (flag_0 (G := G)), orb_false_r.
  unfold writing_word. by rewrite (flag_diff (G := G)), (flag_or (G := G)).
Qed.

Lemma flushed_word_fields s :
  wf_state s -> wf_state (flushed_word s) /\ flag (flushed_word s) BM_LOCKED = false /\
  refcount (flushed_word s) = refcount s /\ lock_field (flushed_word s) = lock_field s.
Proof.
  intros Hs. pose proof (writing_word_wf s Hs) as Hw. destruct (writing_word_fields s) as (R & _ & L).
  destruct (io_unset_fields true (writing_word s)) as (U1 & _ & U3). unfold flushed_word, io_done_word. split_and!.
  - by apply wf_unlock_ext.
  - rewrite unlock_ext_word by done. by flags.
  - rewrite <- R, !refcount_field. by apply unlock_ext_field.
  - rewrite <- L. unfold lock_field. by apply unlock_ext_field.
Qed.

(** In all, four marks are taken off. *)
Lemma flushed_word_exact s :
  wf_state s -> flag s BM_LOCKED = false -> flag s BM_IO_IN_PROGRESS = false ->
  flushed_word s = Z.ldiff s (Z.lor (Z.lor BM_DIRTY BM_JUST_DIRTIED) (Z.lor BM_CHECKPOINT_NEEDED BM_IO_ERROR)).
Proof.
  intros Hs Hl Hio. unfold flushed_word, io_done_word. rewrite unlock_ext_word by (done || by apply writing_word_wf).
  assert (flag (writing_word s) BM_JUST_DIRTIED = false) as Hj by (unfold writing_word; by flags).
  unfold io_unset. rewrite Hj. cbn [andb negb]. unfold writing_word. apply negb_false_iff, Z.eqb_eq in Hl, Hio.
  apply Z.bits_inj'. intros i Hi. apply (f_equal (fun x => Z.testbit x i)) in Hl, Hio. rewrite Z.land_spec, Z.bits_0 in Hl, Hio.
  rewrite !Z.ldiff_spec, !Z.lor_spec, !Z.ldiff_spec, !Z.lor_spec, Z.bits_0.
  destruct (Z.testbit s i), (Z.testbit BM_LOCKED i), (Z.testbit BM_IO_IN_PROGRESS i), (Z.testbit BM_JUST_DIRTIED i); try done;
    by destruct (Z.testbit BM_IO_ERROR i), (Z.testbit BM_DIRTY i), (Z.testbit BM_CHECKPOINT_NEEDED i).
Qed.

(** ** [FlushBuffer] *)
Section flush.
Context (same_page : relation Z) `{ServerLaws same_page}.

Lemma BufHdrGetBlock_run w v page :
  lookupZ (BufferBlocks (shm w)) v = Some page -> BufHdrGetBlock v w = (Ret page, w).
Proof using Type. intros Hp. unfold BufHdrGetBlock, bind, gets. by rewrite Hp. Qed.

(** The header is locked to read the position of the page, and the mark that the
    page was modified again is taken off. *)
Lemma look_at_lsn {A} w v d page (k : Z -> Z -> M A) :
  unlocked w v d -> lookupZ (BufferBlocks (shm w)) v = Some page ->
  (let* buf_state := LockBufHdr v in
   let* recptr := BufferGetLSN v in
   UnlockBufHdrExt v buf_state 0 BM_JUST_DIRTIED 0 ;; k buf_state recptr) w =
  k (Z.lor (state d) BM_LOCKED) (PageGetLSN page)
    (set_desc v (with_state (Z.ldiff (state d) BM_JUST_DIRTIED) d) w).
Proof using Type.
  intros [Hq Hg Hd Hwf Hl] Hp. run (LockBufHdr_quiet w Hq Hg v d Hd Hl).
  set (d1 := with_state (Z.lor (state d) BM_LOCKED) d). set (w1 := set_desc v d1 w).
  assert (desc_at w1 v d1) as Hd1 by (by apply (desc_at_set_eq w _ d)).
  rewrite (bind_ret _ _ w1 (PageGetLSN page) w1).
  2:{ unfold BufferGetLSN. by run (BufHdrGetBlock_run w1 v page Hp). }
  run (UnlockBufHdrExt_quiet w1 Hq Hg v d1 0 BM_JUST_DIRTIED 0 Hd1 (flag_locked _)).
  change (state d1) with (Z.lor (state d) BM_LOCKED). rewrite unlock_clear by done.
  unfold w1. by rewrite set_desc_set_desc.
Qed.

Lemma XLogFlush_if b lsn w :
  exists f, when b (XLogFlush lsn) w = (Ret tt, upd_shm (with_wal_flushed f) w) /\
    wal_flushed (shm w) <= f /\ (b = true -> lsn <= f).
Proof using Type*.
  destruct b; cbn [when].
  - destruct (sl_flush lsn w) as (f & -> & H1 & H2). by exists f.
  - exists (wal_flushed (shm w)). split; [unfold ret; by destruct w as [[] ? ?]|done].
Qed.

Lemma smgr_call_run w :
  smgr_call w =
    match smgr_faults (me w) with
    | true :: fs => (Elog "I/O error", with_me (with_smgr_faults fs (me w)) w)
    | fs => (Ret tt, with_me (with_smgr_faults (tail fs) (me w)) w)
    end.
Proof using Type.
  unfold smgr_call, get_me, gets, bind. destruct w as [? [] ?]. cbn. by destruct smgr_faults as [|[] fs].
Qed.

Lemma smgrwrite_run w t page f :
  quiet w -> disk_page (shm w) t = Some f ->
  smgrwrite (BufTagGetRelFileLocator t) (BufTagGetForkNum t) (blockNum t) page w =
    match smgr_faults (me w) with
    | true :: fs => (Elog "I/O error", with_me (with_smgr_faults fs (me w)) w)
    | fs => (Ret tt, with_me (with_smgr_faults (tail fs) (me w)) (upd_shm (disk_write t page) w))
    end.
Proof using Type.
  intros Hq Hf. pose proof (lookupZ_Some _ _ _ Hf) as Hr. unfold smgrwrite. run (interfere_quiet w Hq).
  pose proof (smgr_call_run w) as Hc.
  assert (forall m, (smgr_call w = (Ret tt, with_me m w)) ->
    (smgr_call ;;
     let* pages := gets (fun w => default [] (smgr_disk (shm w) !! (BufTagGetRelFileLocator t, BufTagGetForkNum t))) in
     if (0 <=? blockNum t) && (blockNum t <? Z.of_nat (length pages))
     then modify_shm (fun s => with_smgr_disk (<[(BufTagGetRelFileLocator t, BufTagGetForkNum t) :=
            insertZ (blockNum t) page pages]> (smgr_disk s)) s)
     else trap "write past the end of the file") w = (Ret tt, with_me m (upd_shm (disk_write t page) w))) as Hw.
  { intros m E. run E. unfold bind, gets. rewrite (proj2 (Z.leb_le _ _)), (proj2 (Z.ltb_lt _ _)) by (cbn; lia). done. }
  destruct (smgr_faults (me w)) as [|[] fs]; [by apply Hw| |by apply Hw].
  unfold bind at 1. by rewrite Hc.
Qed.

(** The backend after a page was written. *)
Definition wrote (m : Backend) : Backend :=
  with_accounting (with_shared_blks_written (shared_blks_written (accounting m) + 1) (accounting m))
    (with_smgr_faults (tail (smgr_faults m)) m).

(** The end of a write that succeeded. *)
Lemma flush_end w v d page lsn :
  unlocked w v d -> buf_id d = v ->
  let d2 := with_state (writing_word (state d)) d in
  let m1 := with_owned_ios (v + 1 :: owned_ios (me w)) (me w) in
  let w4 := with_me (with_smgr_faults (tail (smgr_faults (me w))) m1)
    (upd_shm (disk_write (tag d) page) (upd_shm (with_wal_flushed lsn) (set_desc v d2 w))) in
  (count_usage (fun a => with_shared_blks_written (shared_blks_written a + 1) a) ;;
   TerminateBufferIO v true 0 true false) w4 =
  (Ret tt, with_me (wrote (me w)) (upd_shm (written v (tag d) page lsn (with_state (flushed_word (state d)) d)) w)).
Proof using Type.
  intros [Hq Hg Hd Hwf Hl] Hid d2 m1 w4. set (w5 := with_me (with_accounting (with_shared_blks_written
    (shared_blks_written (accounting (me w)) + 1) (accounting (me w))) (me w4)) w4).
  rewrite (bind_ret _ _ w4 tt w5) by done.
  rewrite (TerminateBufferIO_run w5 v d2 true 0 true (owned_ios (me w))).
  - f_equal. unfold w5, w4, set_desc, upd_shm, with_me, written, redesc, disk_write, wrote, m1. cbn.
    rewrite !insertZ_insertZ. by destruct w as [[] [] ?].
  - split; [done|done|by apply (desc_at_set_eq w _ d)|by apply writing_word_wf|]. cbn. unfold writing_word. by flags.
  - cbn. unfold writing_word. by flags.
  - cbn. rewrite Hid. apply remove_one_head.
Qed.

Lemma FlushBuffer_run w v d page f0 reln :
  default (BufTagGetRelFileLocator (tag d)) reln = BufTagGetRelFileLocator (tag d) ->
  unlocked w v d -> buf_id d = v -> flag (state d) BM_DIRTY = true -> flag (state d) BM_IO_IN_PROGRESS = false ->
  lookupZ (BufferBlocks (shm w)) v = Some page -> disk_page (shm w) (tag d) = Some f0 ->
  exists lsn, wal_flushed (shm w) <= lsn /\ (flag (state d) BM_PERMANENT = true -> PageGetLSN page <= lsn) /\
    FlushBuffer v reln w =
      match smgr_faults (me w) with
      | true :: fs => (Elog "I/O error",
          with_me (with_smgr_faults fs (with_owned_ios (v + 1 :: owned_ios (me w)) (me w)))
            (upd_shm (fun s => redesc v (with_state (writing_word (state d)) d) (with_wal_flushed lsn s)) w))
      | _ => (Ret tt, with_me (wrote (me w)) (upd_shm (written v (tag d) (PageSetChecksumCopy page (blockNum (tag d))) lsn
          (with_state (flushed_word (state d)) d)) w))
      end.
Proof using Type*.
  intros Hreln Hu Hid Hdirty Hio Hp Hf. pose proof Hu as [Hq Hg Hd Hwf Hl].
  destruct (StartBufferIO_run pgaio_wref_wait w v d false false Hu (or_introl Hio)) as (w' & Hrun & Hw').
  rewrite Hio in Hrun, Hw'. cbn [negb andb io_needed] in Hrun, Hw'. rewrite Hdirty in Hrun, Hw'.
  destruct Hw' as (s' & -> & ->). rewrite Hid in Hrun.
  set (d1 := with_state (Z.lor (state d) BM_IO_IN_PROGRESS) d) in *.
  set (m1 := with_owned_ios (v + 1 :: owned_ios (me w)) (me w)) in *. set (w1 := with_me m1 (set_desc v d1 w)) in *.
  assert (desc_at w1 v d1) as Hd1 by (by apply (desc_at_set_eq w _ d)).
  assert (unlocked w1 v d1) as Hu1 by (split; [done|done|done|by apply wf_lor|by cbn; flags]).
  set (d2 := with_state (writing_word (state d)) d). set (w2 := set_desc v d2 w1).
  assert (desc_at w2 v d2) as Hd2 by (by apply (desc_at_set_eq w1 _ d1)).
  destruct (XLogFlush_if (flag (Z.lor (state d1) BM_LOCKED) BM_PERMANENT) (PageGetLSN page) w2) as (lsn & Hxlog & Hw1 & Hw2).
  set (w3 := upd_shm (with_wal_flushed lsn) w2) in *.
  assert (desc_at w3 v d2) as Hd3 by done.
  exists lsn. split; [done|]. split.
  { intros Hpm. apply Hw2. change (state d1) with (Z.lor (state d) BM_IO_IN_PROGRESS). flags. done. }
  unfold FlushBuffer. run Hrun. cbn [negb]. run (deref_run w1 v d1 Hd1).
  rewrite (look_at_lsn w1 v d1 page _ Hu1 Hp). fold (writing_word (state d)).
  change (set_desc v _ w1) with w2. run Hxlog. run (BufHdrGetBlock_run w3 v page Hp). run (deref_run w3 v d2 Hd3).
  change (tag d2) with (tag d). change (tag d1) with (tag d). rewrite Hreln.
  pose proof (smgrwrite_run w3 (tag d) (PageSetChecksumCopy page (blockNum (tag d))) f0 Hq Hf) as Hwr.
  change (smgr_faults (me w3)) with (smgr_faults (me w)) in Hwr.
  pose proof (flush_end w v d (PageSetChecksumCopy page (blockNum (tag d))) lsn Hu Hid) as Hend. cbv zeta in Hend.
  assert (w3 = with_me m1 (upd_shm (with_wal_flushed lsn) (set_desc v d2 w))) as E3.
  { unfold w3, w2, w1, set_desc, upd_shm, with_me. cbn. by rewrite insertZ_insertZ. }
  rewrite E3 in Hwr |- *. destruct (smgr_faults (me w)) as [|[] fs] eqn:E.
  - run Hwr. exact Hend.
  - unfold bind at 1. rewrite Hwr. done.
  - run Hwr. exact Hend.
Qed.
End flush.
