(* ===== verification/EvictRun.v ===== *)
(** * Allocation and eviction without interference: the steps

    A backend at work on the pool: what the functions that [BufferAlloc] calls do
    to the pool and to the bookkeeping of the backend when no other process acts,
    for every policy. *)
From S2P Require Import Prelude BufState BufTag Shmem Concurrency PrivateRefCount Ring Policy BufTable Strategy.
From S2P Require Import LocalBuf ContentLock LockWord LockProtocol LockRun Pin PinRun Reserved BufIO IORun.
From S2P Require Import Writeback Eviction PolicyQuiet Pool.

(** ** The backend *)

(** What an allocation leaves as it was. *)
Record keeps (m m' : Backend) : Prop := {
  kp_n : NBuffers m' = NBuffers m;
  kp_active : ActiveEviction m' = ActiveEviction m;
  kp_proc : MyProcNumber m' = MyProcNumber m;
  kp_gas : gas m' = gas m;
  kp_ios : owned_ios m' = owned_ios m;
  kp_lwlocks : held_lwlocks m' = held_lwlocks m;
  kp_maxpins : MaxProportionalPins m' = MaxProportionalPins m;
  kp_waitbuf : PinCountWaitBuf m' = PinCountWaitBuf m;
  kp_holdoff : InterruptHoldoffCount m' = InterruptHoldoffCount m;
  kp_parallel : IsParallelWorker m' = IsParallelWorker m;
  kp_local : local m' = local m;
  kp_wb : wb_context m' = wb_context m
}.

#[export] Instance keeps_equiv : Equivalence keeps.
Proof.
  split; [by split| |].
  - intros m m' []. by split.
  - intros m1 m2 m3 [] []. split; congruence.
Qed.

Lemma keeps_frame m m' : prc_frame m m' -> keeps m m'.
Proof. intros []. by split. Qed.
Lemma keeps_holdoff k m m' : keeps m m' -> keeps (holdoff k m) (holdoff k m').
Proof. intros []. split; try done. cbn. congruence. Qed.

(** Holding one partition lock. *)
Definition hold (lock : Z) (mode : LWLockMode) (m : Backend) : Backend :=
  with_held_lwlocks [(lock, mode)] (holdoff 1 m).
Lemma keeps_hold l k m m' : keeps m m' -> keeps (hold l k m) (hold l k m').
Proof. intros []. split; try done. cbn. congruence. Qed.

Lemma keeps_tracked R m m' b : tracked (with_rings R m) m' b -> keeps m m'.
Proof. intros [_ _ []]. by split. Qed.

Section work.
Context (same_page : relation Z) `{!Equivalence same_page}.
Context `{Server} (permanent : BufferTag -> bool).
Context (n : Z) (p : EvictionVtablePtr) (strategy : BufferAccessStrategy).
(** How many other backends have each buffer pinned. *)
Context (others : Z -> Z).

(** A backend that may allocate a buffer. *)
Record backend_ready (m : Backend) : Prop := {
  br_n : NBuffers m = n;
  br_size : pool_sized n;
  br_gas : (search_gas n < gas m)%nat;
  br_active : ActiveEviction m = Some p;
  br_holdoff : 0 <= InterruptHoldoffCount m
}.

(** The shared part: the pool is in order, the policy can work, the strategy lock
    is free and the process to wake, if any, exists. *)
Record shared_ready (s : Shared) : Prop := {
  sr_pool : pool_ok same_page PageGetLSN permanent n s;
  sr_policy : pq_inv (p := p) n (StrategyControl s) (policy_mem s);
  sr_lock : lock_of s = None;
  sr_bgw : bgwprocno (StrategyControl s) = -1 \/
    0 <= bgwprocno (StrategyControl s) < Z.of_nat (length (allProcs s))
}.

(** The pins [mu] of this backend and those of the others are counted in shared
    memory, and the counts leave room for one more. *)
Definition held (mu : gmap Z PrivateRefCountData) (x : Z) : Z :=
  match mu !! (x + 1) with Some _ => 1 | None => 0 end.
Record pins_shared (s : Shared) (mu : gmap Z PrivateRefCountData) : Prop := {
  ps_count : forall x d, desc_of s x d -> refcount (state d) = others x + held mu x;
  ps_others : forall x, 0 <= others x < 2 ^ 18 - 1
}.

Lemma held_range mu x : 0 <= held mu x <= 1.
Proof using Type. unfold held. case_match; lia. Qed.
Lemma ps_free s mu x d : pins_shared s mu -> desc_of s x d -> refcount (state d) = 0 -> mu !! (x + 1) = None.
Proof using Type.
  intros [Hc Ho] Hd H0. specialize (Hc x d Hd). specialize (Ho x). unfold held in Hc. case_match; [lia|done].
Qed.
Lemma ps_room s mu x d : pins_shared s mu -> desc_of s x d -> mu !! (x + 1) = None -> refcount (state d) < 2 ^ 18 - 1.
Proof using Type.
  intros [Hc Ho] Hd H0. specialize (Hc x d Hd). specialize (Ho x). unfold held in Hc. rewrite H0 in Hc. lia.
Qed.

Record at_work (m0 : Backend) (mu : gmap Z PrivateRefCountData) (pins : list Z) (w : World) : Prop := {
  aw_quiet : quiet w;
  aw_ready : backend_ready m0;
  aw_keeps : keeps m0 (me w);
  aw_prc : prc_inv (me w) mu;
  aw_pins : owned_pins (me w) = pins;
  aw_wb : wb_ok (BackendWritebackContext (me w));
  aw_ring : ring_ready n strategy (me w);
  aw_shared : shared_ready (shm w);
  aw_counts : pins_shared (shm w) mu;
  aw_faults : smgr_faults (me w) `suffix_of` smgr_faults m0
}.

Lemma aw_gas m0 mu pins w : at_work m0 mu pins w -> (search_gas n < gas (me w))%nat.
Proof using Type. intros Hw. rewrite (kp_gas _ _ (aw_keeps _ _ _ _ Hw)). apply Hw. Qed.
Lemma aw_pos m0 mu pins w : at_work m0 mu pins w -> (0 < gas (me w))%nat.
Proof using Type. intros Hw. pose proof (aw_gas _ _ _ _ Hw). lia. Qed.
Lemma aw_n m0 mu pins w : at_work m0 mu pins w -> NBuffers (me w) = n.
Proof using Type. intros Hw. rewrite (kp_n _ _ (aw_keeps _ _ _ _ Hw)). apply Hw. Qed.
Lemma aw_active m0 mu pins w : at_work m0 mu pins w -> ActiveEviction (me w) = Some p.
Proof using Type. intros Hw. rewrite (kp_active _ _ (aw_keeps _ _ _ _ Hw)). apply Hw. Qed.
Lemma aw_pool m0 mu pins w : at_work m0 mu pins w -> pool_ok same_page PageGetLSN permanent n (shm w).
Proof using Type. intros Hw. apply Hw. Qed.
Lemma aw_desc m0 mu pins w x d :
  at_work m0 mu pins w -> desc_at w x d -> desc_ok same_page permanent (shm w) x d.
Proof using Type. intros Hw. apply (pl_desc _ _ _ _ _ (aw_pool _ _ _ _ Hw)). Qed.
Lemma aw_at m0 mu pins w x : at_work m0 mu pins w -> 0 <= x < n -> exists d, desc_at w x d.
Proof using Type. intros Hw Hx. apply lookupZ_lt. by rewrite (pl_len _ _ _ _ _ (aw_pool _ _ _ _ Hw)). Qed.
Lemma aw_range m0 mu pins w x d : at_work m0 mu pins w -> desc_at w x d -> 0 <= x < n.
Proof using Type. intros Hw Hd%lookupZ_Some. by rewrite (pl_len _ _ _ _ _ (aw_pool _ _ _ _ Hw)) in Hd. Qed.

(** Only the private counts changed. *)
Lemma aw_track m0 mu pins w m' : at_work m0 mu pins w -> tracks (me w) m' mu -> at_work m0 mu pins (with_me m' w).
Proof using Type.
  intros [H1 H2 H3 H4 H5 H6 H7 H8 H9 H10] [Hinv Hfr]. split; try done; cbn.
  - etrans; [done|by apply keeps_frame].
  - by rewrite (fr_pins _ _ Hfr).
  - by rewrite (fr_backend_wb _ _ Hfr).
  - destruct strategy; [|done]. cbn in *. by rewrite (fr_rings _ _ Hfr).
  - by rewrite (fr_faults _ _ Hfr).
Qed.

(** ** Counts in the state word *)

(** Flags and content lock of the word are the same. *)
Definition same_flags (d d' : BufferDesc) : Prop :=
  d' = with_state (state d') d /\ wf_state (state d') /\ state d' / 2 ^ 22 = state d / 2 ^ 22.

Lemma same_flags_alike d d' : same_flags d d' -> alike d d'.
Proof using Type.
  intros (E & Hwf & Hf). split; [by rewrite E|by rewrite E|done|by apply quot22_flag..|].
  by rewrite (quot22_flag (state d) (state d') (G := BM_JUST_DIRTIED)).
Qed.
Lemma same_flags_idle d d' : same_flags d d' -> idle d -> idle d'.
Proof using Type.
  intros (E & Hwf & Hf) []. split.
  - by rewrite (quot22_lock _ _ Hf).
  - etrans; [by apply quot22_flag|done].
  - etrans; [by apply quot22_flag|done].
  - etrans; [by apply quot22_flag|done].
  - etrans; [by apply quot22_flag|done].
  - by rewrite E.
Qed.
Lemma same_flags_aged d d' : aged_desc d d' -> same_flags d d'.
Proof using Type. by intros (s & -> & Hwf & _ & Hf). Qed.
Lemma same_flags_trans d1 d2 d3 : same_flags d1 d2 -> same_flags d2 d3 -> same_flags d1 d3.
Proof using Type.
  intros (E & Hwf & Hf) (E' & Hwf' & Hf'). split_and!; [by rewrite E', E|done|congruence].
Qed.
Lemma same_flags_pinned d :
  wf_state (state d) -> refcount (state d) < 2 ^ 18 - 1 -> same_flags d (with_state (pinned_word (state d)) d).
Proof using Type.
  intros Hwf Hr. destruct (pin_word (state d) Hwf Hr) as (Hwf' & _ & Hq). split_and!; [done|done|by apply quot18_22].
Qed.
Lemma same_flags_unpinned d :
  wf_state (state d) -> 0 < refcount (state d) -> same_flags d (with_state (unpinned_word (state d)) d).
Proof using Type.
  intros Hwf Hr. destruct (unpin_word (state d) Hwf Hr) as (Hwf' & _ & Hq). split_and!; [done|done|by apply quot18_22].
Qed.

(** The pool after counts changed: buffer [x] has [delta x] more pins, and a
    buffer that lost its last pin was idle. *)
Record recounted (delta : Z -> Z) (s s' : Shared) : Prop := {
  rc_len : length (BufferDescriptors s') = length (BufferDescriptors s);
  rc_desc : forall i d, desc_of s i d -> exists d', desc_of s' i d' /\ same_flags d d' /\
    refcount (state d') = refcount (state d) + delta i /\ (delta i < 0 -> idle d);
  rc_hash : SharedBufHash s' = SharedBufHash s;
  rc_blocks : BufferBlocks s' = BufferBlocks s;
  rc_disk : smgr_disk s' = smgr_disk s;
  rc_wal : wal_flushed s' = wal_flushed s
}.

Local Abbreviation pool := (pool_ok same_page PageGetLSN permanent n).

Lemma recounted_alike delta s s' : pool s -> recounted delta s s' -> pool_alike s s'.
Proof using Type.
  intros Hp [R1 R2 R3 R4 R5 R6]. split; try done. intros i d Hd.
  destruct (R2 i d Hd) as (d' & Hd' & Hf & Hr & Hi). exists d'. split; [done|].
  split; [by apply same_flags_alike|]. intros H0. eapply same_flags_idle; [done|].
  destruct (Z.ltb_spec (delta i) 0) as [Hlt|Hge]; [by apply Hi|].
  destruct (pl_desc _ _ _ _ _ Hp i d Hd). apply do_idle. pose proof (refcount_range (state d)). lia.
Qed.

Definition bump (v k i : Z) : Z := if i =? v then k else 0.
Lemma bump_eq v k : bump v k v = k.
Proof using Type. unfold bump. by rewrite Z.eqb_refl. Qed.
Lemma bump_ne v k i : i <> v -> bump v k i = 0.
Proof using Type. intros Hne. unfold bump. by rewrite (proj2 (Z.eqb_neq _ _) Hne). Qed.

Lemma same_flags_refl d : wf_state (state d) -> same_flags d d.
Proof using Type. intros Hwf. split_and!; [by rewrite with_state_id|done|done]. Qed.

Lemma recounted_redesc v k d d' s :
  pool s -> desc_of s v d -> same_flags d d' -> refcount (state d') = refcount (state d) + k ->
  (k < 0 -> idle d) -> recounted (bump v k) s (redesc v d' s).
Proof using Type.
  intros Hp Hd Hf Hr Hi. split; try done; [apply length_insertZ|]. intros i x Hx.
  destruct (decide (i = v)) as [->|Hne].
  - exists d'. rewrite bump_eq. unfold desc_of in *. simplify_eq.
    split; [by eapply lookupZ_insertZ_eq, lookupZ_Some|done].
  - exists x. rewrite bump_ne by done. split; [by apply (desc_of_redesc v d' s i x d); [|right]|].
    split; [by eapply same_flags_refl, (pl_desc _ _ _ _ _ Hp i x)|]. split; [lia|lia].
Qed.

Lemma recounted_zero s s' :
  pool s -> BufferDescriptors s' = BufferDescriptors s -> SharedBufHash s' = SharedBufHash s ->
  BufferBlocks s' = BufferBlocks s -> smgr_disk s' = smgr_disk s -> wal_flushed s' = wal_flushed s ->
  recounted (fun _ => 0) s s'.
Proof using Type.
  intros Hp E1 E2 E3 E4 E5. split; try done; [by rewrite E1|]. intros i d Hd. exists d.
  split; [unfold desc_of; by rewrite E1|]. split; [by eapply same_flags_refl, (pl_desc _ _ _ _ _ Hp i d)|lia].
Qed.

Lemma same_flags_idle_rev d d' : same_flags d d' -> idle d' -> idle d.
Proof using Type.
  intros (E & Hwf & Hf) []. symmetry in Hf. split; try (etrans; [by apply quot22_flag|done]).
  - by rewrite (quot22_lock _ _ Hf).
  - by rewrite E in id_queue.
Qed.

Lemma recounted_trans f g s1 s2 s3 :
  recounted f s1 s2 -> recounted g s2 s3 -> recounted (fun i => f i + g i) s1 s3.
Proof using Type.
  intros [A1 A2 A3 A4 A5 A6] [B1 B2 B3 B4 B5 B6]. split; try congruence.
  intros i d Hd. destruct (A2 i d Hd) as (d' & Hd' & Hf & Hr & Hi). destruct (B2 i d' Hd') as (d'' & Hd'' & Hf' & Hr' & Hi').
  exists d''. split; [done|]. split; [by eapply same_flags_trans|]. split; [lia|]. intros Hlt.
  destruct (Z.ltb_spec (f i) 0); [by apply Hi|]. eapply same_flags_idle_rev; [done|]. apply Hi'. lia.
Qed.
Lemma recounted_ext f g s s' : (forall i, f i = g i) -> recounted f s s' -> recounted g s s'.
Proof using Type.
  intros E [A1 A2 A3 A4 A5 A6]. split; try done. intros i d Hd. rewrite <- E. by apply A2.
Qed.

(** ** Pins and counts *)
Lemma recounted_inv delta s s' i d' : recounted delta s s' -> desc_of s' i d' -> exists d, desc_of s i d /\
  same_flags d d' /\ refcount (state d') = refcount (state d) + delta i.
Proof using Type.
  intros Hr Hd'. pose proof (lookupZ_Some _ _ _ Hd') as Hi. rewrite (rc_len _ _ _ Hr) in Hi.
  destruct (lookupZ_lt _ _ Hi) as [d Hd]. exists d. split; [done|].
  destruct (rc_desc _ _ _ Hr i d Hd) as (d'' & Hd'' & Hf & Hc & _). unfold desc_of in *. by simplify_eq.
Qed.

Lemma pins_shared_move delta s s' mu mu' :
  recounted delta s s' -> (forall x, held mu' x = held mu x + delta x) -> pins_shared s mu -> pins_shared s' mu'.
Proof using Type.
  intros Hr Hm [Hc Ho]. split; [|done]. intros x d' Hd'.
  destruct (recounted_inv _ _ _ _ _ Hr Hd') as (d & Hd & _ & E). rewrite E, Hm, (Hc x d Hd). lia.
Qed.
Lemma pins_shared_same s s' mu : recounted (fun _ => 0) s s' -> pins_shared s mu -> pins_shared s' mu.
Proof using Type. intros Hr. eapply pins_shared_move; [done|]. intros x. cbv beta. lia. Qed.
Lemma pins_shared_pin s s' mu v e :
  recounted (bump v 1) s s' -> mu !! (v + 1) = None -> pins_shared s mu -> pins_shared s' (<[v + 1 := e]> mu).
Proof using Type.
  intros Hr Hmu. eapply pins_shared_move; [done|]. intros x. unfold held.
  destruct (decide (x = v)) as [->|Hne]; [by rewrite bump_eq, lookup_insert_eq, Hmu|].
  rewrite bump_ne, lookup_insert_ne by lia. lia.
Qed.
Lemma pins_shared_unpin s s' mu v e :
  recounted (bump v (-1)) s s' -> mu !! (v + 1) = Some e -> pins_shared s mu -> pins_shared s' (delete (v + 1) mu).
Proof using Type.
  intros Hr Hmu. eapply pins_shared_move; [done|]. intros x. unfold held.
  destruct (decide (x = v)) as [->|Hne]; [by rewrite bump_eq, lookup_delete_eq, Hmu|].
  rewrite bump_ne, lookup_delete_ne by lia. lia.
Qed.

(** ** The strategy *)
Lemma searchable_at_work m0 mu pins w :
  at_work m0 mu pins w -> ReservedRefCountSlot (me w) <> -1 -> searchable n strategy w.
Proof using Type.
  intros Hw Hres. split.
  - apply Hw.
  - apply Hw.
  - by eapply aw_n.
  - apply Hw.
  - apply (pl_len _ _ _ _ _ (aw_pool _ _ _ _ Hw)).
  - by eapply aw_gas.
  - intros i d Hd. apply (aw_desc _ _ _ _ _ _ Hw Hd).
  - intros x Hx. destruct (aw_at _ _ _ _ _ Hw Hx) as (d & Hd). exists d.
    destruct (aw_desc _ _ _ _ _ _ Hw Hd). by split_and!.
  - apply Hw.
  - intros x Hx Hun. destruct (aw_at _ _ _ _ _ Hw Hx) as (d & Hd). rewrite (unpinned_at _ _ _ Hd) in Hun.
    apply Z.eqb_eq in Hun. split; [|done]. exists mu. split; [apply Hw|]. by apply (ps_free _ _ x d (aw_counts _ _ _ _ Hw)).
Qed.

(** The slot that the ring offers next. *)
Definition offered (h : Z) (r : BufferAccessStrategyData) (m : Backend) : Backend :=
  with_rings (<[h := with_current (next_slot r) r]> (rings m)) m.

Lemma ring_get_run m0 mu pins w h r :
  at_work m0 mu pins w -> ReservedRefCountSlot (me w) <> -1 -> rings (me w) !! h = Some r -> ring_ok n r ->
  GetBufferFromRing h w = (Ret None, with_me (offered h r (me w)) w) \/
  exists v d m', GetBufferFromRing h w = (Ret (Some (v, pinned_word (state d))),
      with_me m' (set_desc v (with_state (pinned_word (state d)) d) w)) /\
    desc_at w v d /\ refcount (state d) = 0 /\ lookupZ (buffers r) (next_slot r) = Some (v + 1) /\
    tracked (offered h r (me w)) m' (v + 1).
Proof using Type.
  intros Hw Hres Hr Hok. destruct (ring_advance_ok n r Hok) as [E Hok1].
  unfold GetBufferFromRing. run (ring_run w h r Hr). rewrite E.
  set (w1 := with_me (offered h r (me w)) w).
  rewrite (bind_ret _ _ w tt w1) by done.
  destruct (ring_current_run n w1 h (with_current (next_slot r) r)) as (b & Hcur & Hb);
    [cbn; by rewrite lookup_insert_eq|done|].
  run Hcur. cbn in Hb. pose proof (ring_elems _ _ Hok _ _ Hb) as Hrange.
  destruct (Z.eqb_spec b InvalidBuffer) as [->|Hne]; [by left|]. unfold InvalidBuffer in Hne.
  unfold GetBufferDescriptor. destruct (aw_at _ _ _ _ (b - 1) Hw) as (d & Hd); [lia|].
  pose proof (aw_desc _ _ _ _ _ _ Hw Hd) as [D1 D2 D3 _ _ _ _ _].
  assert (desc_at w1 (b - 1) d) as Hd1 by done. assert (quiet w1) as Hq1 by apply Hw.
  run (read_quiet w1 Hq1 _ _ Hd1). unfold forever. change (gas (me w1)) with (gas (me w)).
  pose proof (aw_pos _ _ _ _ Hw) as Hg. destruct (gas (me w)) as [|g]; [lia|].
  destruct (negb (refcount (state d) =? 0) || (1 <? usage (state d))) eqn:Ec.
  { left. apply iter_break. unfold ring_round. by rewrite get_refcount, get_usagecount, Ec by apply D2. }
  apply orb_false_iff in Ec as [Ec Eu]. apply negb_false_iff, Z.eqb_eq in Ec. right.
  set (d' := with_state (pinned_word (state d)) d). set (w2 := set_desc (b - 1) d' w1).
  destruct (TrackNewBufferPin_spec w2 b) as (m' & Htrk & Htr); [|lia|].
  { split; [|done]. exists mu. split; [by apply prc_inv_rings, Hw|].
    pose proof (ps_free _ _ _ _ (aw_counts _ _ _ _ Hw) Hd Ec) as H1. by replace (b - 1 + 1) with b in H1 by lia. }
  exists (b - 1), d, m'. replace (b - 1 + 1) with b by lia. split_and!; [|done|done|done|done].
  apply iter_break. unfold ring_round. rewrite get_refcount, get_usagecount, Ec by apply D2.
  rewrite Eu, D3. cbn [Z.eqb negb orb]. fold (pinned_word (state d)).
  run (cas_quiet w1 Hq1 _ d (pinned_word (state d)) Hd1). fold d' w2.
  assert (desc_at w2 (b - 1) d') as Hd2 by (by apply (desc_at_set_eq w1 _ d)).
  run (GetBuffer_run w2 (b - 1) d' Hd2). cbn [buf_id d' with_state]. rewrite D1. replace (b - 1 + 1) with b by lia.
  by run Htrk.
Qed.

(** Before a search: the background writer is woken and the allocation counted. *)
Lemma announce_run m0 mu pins w :
  at_work m0 mu pins w ->
  exists s', (wake_bgwriter ;; count_alloc) w = (Ret tt, with_shm s' w) /\ at_work m0 mu pins (with_shm s' w) /\
    recounted (fun _ => 0) (shm w) s' /\ policy_mem s' = policy_mem (shm w) /\
    BufferDescriptors s' = BufferDescriptors (shm w).
Proof using Type.
  intros Hw. pose proof Hw as [Hq Hrd Hk Hprc Hpins Hwb Hring [Hpool Hpol Hlock Hbgw] Hcnt Hflt].
  set (c := StrategyControl (shm w)) in *.
  set (procs := if bgwprocno c =? -1 then allProcs (shm w)
    else insertZ (bgwprocno c) (with_procLatch true (default (mkPGPROC LW_WS_NOT_WAITING BUFFER_LOCK_UNLOCK 0 true)
           (lookupZ (allProcs (shm w)) (bgwprocno c)))) (allProcs (shm w))).
  set (c' := with_numBufferAllocs (u32 (numBufferAllocs c + 1)) (with_bgwprocno (-1) c)).
  exists (with_StrategyControl c' (with_allProcs procs (shm w))).
  assert (recounted (fun _ => 0) (shm w) (with_StrategyControl c' (with_allProcs procs (shm w)))) as Hrc
    by (by apply recounted_zero).
  split_and!; [|split; try done; [split|]|done|done|done].
  - assert (wake_bgwriter w = (Ret tt, upd_shm (fun s => with_StrategyControl (with_bgwprocno (-1) c)
      (with_allProcs procs s)) w)) as Hwake.
    { unfold wake_bgwriter. run (interfere_quiet w Hq). unfold gets, bind at 1. fold c. unfold procs.
      destruct (Z.eqb_spec (bgwprocno c) (-1)) as [E|E]; cbn [negb when].
      - unfold ret. f_equal. destruct w as [[? [] ] ? ?]. cbn in *. by subst.
      - destruct Hbgw as [|Hbgw]; [done|]. destruct (lookupZ_lt _ _ Hbgw) as [pr Hpr].
        unfold set_bgwprocno, SetLatch, modify_shm, modify, bind, gets, upd_shm. cbn. by rewrite Hpr. }
    run Hwake. set (w1 := upd_shm _ w). unfold count_alloc. by run (interfere_quiet w1 Hq).
  - by eapply pool_alike_ok, recounted_alike.
  - apply (pq_count n c (policy_mem (shm w)) (fun _ => c')); [done|done].
  - done.
  - by left.
  - by eapply pins_shared_same.
Qed.

(** A buffer that this backend had not pinned has been pinned. *)
Lemma aw_tracked m0 mu pins w w' v R :
  at_work m0 mu pins w -> mu !! (v + 1) = None -> recounted (bump v 1) (shm w) (shm w') ->
  quiet w' -> tracked (with_rings R (me w)) (me w') (v + 1) -> ring_ready n strategy (with_rings R (me w)) ->
  shared_ready (shm w') ->
  home (v + 1) (me w') /\ at_work m0 (<[v + 1 := one_pin]> mu) (v + 1 :: pins) w'.
Proof using Type.
  intros [Hq Hrd Hk Hprc Hpins Hwb Hring _ Hcnt Hflt] Hmu Hrc Hq' Htr Hring' Hsh.
  pose proof (tr_frame _ _ _ Htr) as Hfr. split.
  { unfold home. rewrite (tr_hash _ _ _ Htr). cbn. destruct (PrivateRefCountHash (me w) !! (v + 1)) as [e|] eqn:E; [|done].
    apply (core_hash _ _ _ _ _ (prc_is_core _ _ Hprc)) in E. congruence. }
  split; try done.
  - etrans; [exact Hk|]. by eapply keeps_tracked.
  - apply (tr_map _ _ _ Htr); [by apply prc_inv_rings|done].
  - rewrite (tr_pins _ _ _ Htr). cbn. by rewrite Hpins.
  - by rewrite (fr_backend_wb _ _ Hfr).
  - destruct strategy; [|done]. cbn in *. by rewrite (fr_rings _ _ Hfr).
  - by eapply pins_shared_pin.
  - by rewrite (fr_faults _ _ Hfr).
Qed.
(** Of one that nobody had pinned. *)
Lemma aw_claimed m0 mu pins w w' v d R :
  at_work m0 mu pins w -> desc_at w v d -> refcount (state d) = 0 -> recounted (bump v 1) (shm w) (shm w') ->
  quiet w' -> tracked (with_rings R (me w)) (me w') (v + 1) -> ring_ready n strategy (with_rings R (me w)) ->
  shared_ready (shm w') ->
  mu !! (v + 1) = None /\ home (v + 1) (me w') /\ at_work m0 (<[v + 1 := one_pin]> mu) (v + 1 :: pins) w'.
Proof using Type.
  intros Hw Hd H0 Hrc Hq' Htr Hring Hsh. pose proof (ps_free _ _ v d (aw_counts _ _ _ _ Hw) Hd H0) as Hmu.
  split; [done|]. by eapply aw_tracked.
Qed.

Definition candidate (w : World) : Prop :=
  exists x, pq_linked (p := p) n (mem w) x /\ 0 <= x < n /\ unpinned w x = true.

(** The policy still knows of the other buffers that it could have chosen. *)
Definition still_linked (v : Z) (w w' : World) : Prop := forall x,
  x <> v -> 0 <= x < n -> unpinned w x = true -> pq_linked (p := p) n (mem w) x -> pq_linked (p := p) n (mem w') x.

Record chose (m0 : Backend) (mu : gmap Z PrivateRefCountData) (pins : list Z) (w : World) (v st : Z)
    (from_ring : bool) (w' : World) : Prop := {
  ch_work : at_work m0 (<[v + 1 := one_pin]> mu) (v + 1 :: pins) w';
  ch_new : mu !! (v + 1) = None;
  ch_home : home (v + 1) (me w');
  ch_counts : recounted (bump v 1) (shm w) (shm w');
  ch_desc : exists d, desc_at w' v d /\ state d = st /\ refcount st = 1 /\ idle d;
  ch_ring : from_ring = true -> exists h r, strategy = Some h /\ rings (me w) !! h = Some r /\
    rings (me w') = <[h := with_current (next_slot r) r]> (rings (me w)) /\
    lookupZ (buffers r) (next_slot r) = Some (v + 1);
  ch_linked : still_linked v w w'
}.

(** The pinned descriptor. *)
Lemma pinned_desc d d' :
  same_flags d d' -> refcount (state d') = 0 -> idle d ->
  let d'' := with_state (pinned_word (state d')) d' in
  same_flags d d'' /\ refcount (state d'') = 1 /\ idle d''.
Proof using Type.
  intros Hf H0 Hi d''. destruct (pin_word (state d')) as (Hwf & Hr & Hq); [apply Hf|lia|].
  assert (same_flags d d'') as Hf'' by (eapply same_flags_trans; [done|apply same_flags_pinned; [apply Hf|lia]]).
  split; [done|]. split; [cbn; lia|]. by eapply same_flags_idle.
Qed.

Lemma got_chose m0 mu pins w v st w' :
  at_work m0 mu pins w -> 0 <= v < n -> got strategy w v st w' -> pq_inv (p := p) n (StrategyControl (shm w')) (mem w') ->
  still_linked v w w' -> chose m0 mu pins w v st false w'.
Proof using Type.
  intros Hw Hv (w1 & d & c & m & m' & [(ds & -> & Hlen) Hage] & Hd & H0 & -> & -> & Hl & Hb & Htr) Hpol Hstill.
  destruct (aw_at _ _ _ _ _ Hw Hv) as (d0 & Hd0). pose proof (aw_desc _ _ _ _ _ _ Hw Hd0) as Hok0.
  assert (aged_desc d0 d) as Ha.
  { destruct (Hage v d0 Hd0) as (d1 & Hd1 & Ha). unfold desc_at in *. by simplify_eq. }
  pose proof Ha as (s & -> & Hwf & Hr & Hq). change (refcount s = 0) in H0.
  assert (refcount (state d0) = 0) as H00 by lia.
  destruct (pinned_desc d0 (with_state s d0)) as (Hf & Hr1 & Hi); [by apply same_flags_aged|done|by apply Hok0|].
  set (d'' := with_state (pinned_word s) (with_state s d0)) in *. set (w' := with_me m' _).
  assert (recounted (bump v 1) (shm w) (shm w')) as Hrc.
  { split; try done.
    - change (length (insertZ v d'' ds) = length (BufferDescriptors (shm w))). by rewrite length_insertZ.
    - intros i x Hx. destruct (decide (i = v)) as [->|Hne].
      + exists d''. assert (x = d0) as -> by (unfold desc_of, desc_at in *; congruence). rewrite bump_eq.
        split; [eapply lookupZ_insertZ_eq, lookupZ_Some, Hd|]. split; [done|]. split; [by rewrite H00|lia].
      + destruct (Hage i x Hx) as (x' & Hx' & Hax). exists x'. rewrite bump_ne by done.
        split; [change (lookupZ (insertZ v d'' ds) i = Some x'); by rewrite lookupZ_insertZ_ne|].
        split; [by apply same_flags_aged|]. destruct Hax as (s' & -> & _ & E & _). split; [|lia].
        change (refcount s' = refcount (state x) + 0). lia. }
  assert (quiet w') as Hq' by apply Hw.
  destruct (aw_claimed m0 mu pins w w' v d0 _ Hw Hd0 H00 Hrc Hq' Htr) as (Hmu & Hhome & Hw').
  { pose proof (aw_ring _ _ _ _ Hw) as Hring. destruct strategy as [h|]; [|done]. destruct Hring as (r & Hrr & Hok).
    exists (ring_put (v + 1) r). cbn. rewrite lookup_alter_eq, Hrr. split; [done|]. apply ring_put_ok; [done|lia]. }
  { split; [|done|done|]; [|change (bgwprocno (StrategyControl (shm w'))) with (bgwprocno c); rewrite Hb; apply Hw].
    eapply pool_alike_ok, recounted_alike; [by eapply aw_pool..|done]. }
  split; [done|done|done|done| |done|done]. exists d''. split; [|done]. eapply lookupZ_insertZ_eq, lookupZ_Some, Hd.
Qed.

Lemma ring_chose m0 mu pins w h r v d m' :
  at_work m0 mu pins w -> strategy = Some h -> rings (me w) !! h = Some r -> ring_ok n r -> desc_at w v d ->
  refcount (state d) = 0 -> lookupZ (buffers r) (next_slot r) = Some (v + 1) -> tracked (offered h r (me w)) m' (v + 1) ->
  chose m0 mu pins w v (pinned_word (state d)) true (with_me m' (set_desc v (with_state (pinned_word (state d)) d) w)).
Proof using Type.
  intros Hw Hstr Hr Hok Hd H0 Hslot Htr. pose proof (aw_desc _ _ _ _ _ _ Hw Hd) as Hdok.
  destruct (pinned_desc d d) as (Hf & Hr1 & Hi); [by apply same_flags_refl, Hdok|done|by apply Hdok|].
  set (d' := with_state (pinned_word (state d)) d) in *. set (w' := with_me m' _).
  assert (recounted (bump v 1) (shm w) (shm w')) as Hrc.
  { apply (recounted_redesc v 1 d d'); [by eapply aw_pool|done|done|lia|lia]. }
  destruct (aw_claimed m0 mu pins w w' v d _ Hw Hd H0 Hrc (aw_quiet _ _ _ _ Hw) Htr) as (Hmu & Hhome & Hw').
  { rewrite Hstr. exists (with_current (next_slot r) r). cbn. rewrite lookup_insert_eq.
    split; [done|by apply ring_advance_ok]. }
  { destruct (aw_shared _ _ _ _ Hw). split; try done. eapply pool_alike_ok, recounted_alike; done. }
  split; [done|done|done|done| | |by intros x].
  - exists d'. split; [by apply (desc_at_set_eq w _ d)|done].
  - intros _. exists h, r. split_and!; try done. exact (fr_rings _ _ (tr_frame _ _ _ Htr)).
Qed.

Lemma search_run m0 mu pins w :
  at_work m0 mu pins w -> ReservedRefCountSlot (me w) <> -1 -> candidate w ->
  exists v st w', (wake_bgwriter ;; count_alloc ;; let* vt := active_vtable in
      let* '(buf, st) := get_buffer vt strategy in ret (buf, st, false)) w = (Ret (v, st, false), w') /\
    chose m0 mu pins w v st false w'.
Proof using Type.
  intros Hw Hres (x & Hx & Hxr & Hun). destruct (announce_run m0 mu pins w Hw) as (s2 & Hrun & Hw2 & Hrc & Hmem & Hdesc).
  set (w2 := with_shm s2 w) in *.
  assert (forall y, 0 <= y < n -> unpinned w y = true -> pq_linked (p := p) n (mem w) y ->
    exists v st w', get_buffer (vtable p) strategy w2 = (Ret (v, st), w') /\ 0 <= v < n /\ got strategy w2 v st w' /\
      pq_inv (p := p) n (StrategyControl (shm w')) (mem w') /\ (y <> v -> pq_linked (p := p) n (mem w') y)) as Hany.
  { intros y Hy Hyu Hyl. apply (pq_get (p := p) n strategy w2 y); [by eapply searchable_at_work|apply Hw2| |done|].
    - change (mem w2) with (policy_mem s2). by rewrite Hmem.
    - unfold unpinned, desc_is in *. change (BufferDescriptors (shm w2)) with (BufferDescriptors s2). by rewrite Hdesc. }
  destruct (Hany x Hxr Hun Hx) as (v & st & w' & Hget & Hv & Hgot & Hpol & _).
  assert (still_linked v w w') as Hstill.
  { intros y Hne Hy Hyu Hyl. destruct (Hany y Hy Hyu Hyl) as (v2 & st2 & w2' & Hget2 & _ & _ & _ & Hl).
    rewrite Hget in Hget2. injection Hget2 as <- <- <-. by apply Hl. }
  exists v, st, w'. split.
  - rewrite <- bind_assoc. run Hrun. rewrite (bind_ret active_vtable _ w2 (vtable p) w2).
    + by run Hget.
    + unfold active_vtable, get_me, gets, bind. by rewrite (aw_active _ _ _ _ Hw2).
  - destruct (got_chose m0 mu pins w2 v st w' Hw2 Hv Hgot Hpol) as [C1 C2 C3 C4 C5 C6 C7]; [|split; try done].
    { intros y Hne Hy Hyu Hyl. apply Hstill; [done|done| |].
      - unfold unpinned, desc_is in *. change (BufferDescriptors (shm w2)) with (BufferDescriptors s2) in Hyu. by rewrite <- Hdesc.
      - change (mem w2) with (policy_mem s2) in Hyl. by rewrite Hmem in Hyl. }
    eapply recounted_ext; [|by eapply recounted_trans]. done.
Qed.

(** [StrategyGetBuffer] returns a buffer if there is a candidate. *)
Lemma StrategyGetBuffer_run m0 mu pins w :
  at_work m0 mu pins w -> ReservedRefCountSlot (me w) <> -1 -> candidate w ->
  exists v st from_ring w', StrategyGetBuffer strategy w = (Ret (v, st, from_ring), w') /\
    chose m0 mu pins w v st from_ring w'.
Proof using Type.
  intros Hw Hres Hcand. unfold StrategyGetBuffer. pose proof (aw_ring _ _ _ _ Hw) as Hring.
  destruct strategy as [h|] eqn:Hstr.
  - destruct Hring as (r & Hr & Hok).
    destruct (ring_get_run m0 mu pins w h r Hw Hres Hr Hok) as [Hnone|(v & d & m' & Hget & Hd & H0 & Hslot & Htr)].
    + run Hnone. set (w1 := with_me (offered h r (me w)) w).
      assert (at_work m0 mu pins w1) as Hw1.
      { destruct Hw as [A1 A2 A3 A4 A5 A6 A7 A8 A9 A10]. split; try done; cbn.
        - etrans; [exact A3|by split].
        - by apply prc_inv_rings.
        - rewrite Hstr. exists (with_current (next_slot r) r). cbn. rewrite lookup_insert_eq.
          split; [done|by apply ring_advance_ok]. }
      destruct (search_run m0 mu pins w1 Hw1 Hres Hcand) as (v & st & w' & Hrun & [C1 C2 C3 C4 C5 C6 C7]).
      exists v, st, false, w'. rewrite <- Hstr. split; [done|]. by split.
    + exists v, (pinned_word (state d)), true. eexists. run Hget. split; [done|]. by eapply ring_chose.
  - destruct (search_run m0 mu pins w Hw Hres Hcand) as (v & st & w' & Hrun & Hch).
    exists v, st, false, w'. rewrite bind_ret_l. by rewrite <- Hstr.
Qed.

(** ** Partition locks *)
Lemma LWLockAcquire_run m0 mu pins w lock mode :
  at_work m0 mu pins w -> held_lwlocks m0 = [] ->
  exists w', LWLockAcquire lock mode w = (Ret tt, w') /\ shm w' = shm w /\ rings (me w') = rings (me w) /\
    ReservedRefCountSlot (me w') = ReservedRefCountSlot (me w) /\ at_work (hold lock mode m0) mu pins w'.
Proof using Type.
  intros Hw Hl. pose proof Hw as [A1 A2 A3 A4 A5 A6 A7 A8 A9 A10]. exists (with_me (hold lock mode (me w)) w).
  assert (held_lwlocks (me w) = []) as Hl' by (by rewrite (kp_lwlocks _ _ A3)). split_and!; try done.
  - unfold LWLockAcquire, get_me, gets. rewrite (bind_ret _ _ w [] w) by (by rewrite Hl').
    change (MAX_SIMUL_LWLOCKS <=? Z.of_nat (length [])) with false. cbn match.
    set (w1 := with_me (holdoff 1 (me w)) w). rewrite (bind_ret _ _ w tt w1) by done. by run (interfere_quiet w1 A1).
  - destruct A2. split; try done; cbn.
    + split; try done. cbn. lia.
    + by apply keeps_hold.
    + destruct A4. by split.
Qed.

Lemma LWLockRelease_run m0 mu pins w lock mode :
  at_work (hold lock mode m0) mu pins w -> held_lwlocks m0 = [] -> backend_ready m0 ->
  exists w', LWLockRelease lock w = (Ret tt, w') /\ shm w' = shm w /\ rings (me w') = rings (me w) /\
    ReservedRefCountSlot (me w') = ReservedRefCountSlot (me w) /\ at_work m0 mu pins w'.
Proof using Type.
  intros Hw Hl Hrd. pose proof Hw as [A1 A2 A3 A4 A5 A6 A7 A8 A9 A10].
  exists (with_me (holdoff (-1) (with_held_lwlocks [] (me w))) w).
  assert (held_lwlocks (me w) = [(lock, mode)]) as Hl' by (by rewrite (kp_lwlocks _ _ A3)).
  assert (InterruptHoldoffCount (me w) = InterruptHoldoffCount m0 + 1) as Hh by (by rewrite (kp_holdoff _ _ A3)).
  pose proof (br_holdoff _ Hrd). split_and!; try done.
  - unfold LWLockRelease, get_me, gets. rewrite (bind_ret _ _ w [(lock, mode)] w) by (by rewrite Hl').
    cbn [drop_lock fst]. rewrite Z.eqb_refl. set (w1 := with_me (with_held_lwlocks [] (me w)) w).
    rewrite (bind_ret _ _ w tt w1) by done. run (interfere_quiet w1 A1). rewrite RESUME_run by (cbn; lia). done.
  - split; try done; cbn; [destruct A3; split; cbn in *; (done || lia || congruence)|destruct A4; by split].
Qed.

(** ** Notifications *)
Lemma hook_work m0 mu pins w m' :
  at_work m0 mu pins w -> pq_inv (p := p) n (StrategyControl (shm w)) m' -> at_work m0 mu pins (with_mem m' w).
Proof using Type.
  intros [A1 A2 A3 A4 A5 A6 A7 [S1 S2 S3 S4] A9 A10] Hi.
  assert (recounted (fun _ => 0) (shm w) (shm (with_mem m' w))) as Hrc by (by apply recounted_zero).
  split; try done; [|by eapply pins_shared_same]. split; try done. by eapply pool_alike_ok, recounted_alike.
Qed.

Lemma call_hook_run m0 mu pins w v h (I J : list Z -> Prop) :
  at_work m0 mu pins w -> 0 <= v < n -> hook_run (h (vtable p)) n v I J -> I (mem w) ->
  exists m', call_hook h v w = (Ret tt, with_mem m' w) /\ J m'.
Proof using Type.
  intros Hw Hv Hh HI. destruct (aw_at _ _ _ _ _ Hw Hv) as (d & Hd).
  specialize (Hh w (aw_quiet _ _ _ _ Hw) (sr_lock _ (aw_shared _ _ _ _ Hw)) (aw_n _ _ _ _ Hw) (aw_pos _ _ _ _ Hw)).
  destruct (aw_desc _ _ _ _ _ _ Hw Hd). unfold call_hook, get_me, gets.
  rewrite (bind_ret _ _ w (Some p) w) by (by rewrite (aw_active _ _ _ _ Hw)).
  destruct (h (vtable p)) as [f|].
  - apply Hh; [by exists d|done].
  - exists (mem w). split; [unfold ret; by destruct w as [[] ? ?]|]. apply Hh; [by exists d|done].
Qed.

Lemma NotifyInsert_run m0 mu pins w v :
  at_work m0 mu pins w -> 0 <= v < n ->
  exists m', StrategyNotifyInsert v w = (Ret tt, with_mem m' w) /\ at_work m0 mu pins (with_mem m' w) /\
    pq_linked (p := p) n m' v /\ forall x, pq_linked (p := p) n (mem w) x -> pq_linked (p := p) n m' x.
Proof using Type.
  intros Hw Hv. assert (pq_inv (p := p) n (StrategyControl (shm w)) (mem w)) as Hi0 by apply Hw.
  destruct (call_hook_run m0 mu pins w v notify_insert _ _ Hw Hv (pq_insert n _ v Hv) Hi0) as (m' & Hrun & Hi & Hl).
  exists m'. split; [done|]. split; [by apply hook_work|]. split; [done|]. intros x Hx.
  destruct (call_hook_run m0 mu pins w v notify_insert _ _ Hw Hv (pq_insert_linked n _ v x Hv) (conj Hi0 Hx)) as (m2 & Hrun2 & _ & Hl2).
  unfold StrategyNotifyInsert in Hrun. rewrite Hrun in Hrun2. by injection Hrun2 as ->.
Qed.
Lemma NotifyHit_run m0 mu pins w v :
  at_work m0 mu pins w -> 0 <= v < n ->
  exists m', StrategyNotifyHit v w = (Ret tt, with_mem m' w) /\ at_work m0 mu pins (with_mem m' w) /\
    forall x, pq_linked (p := p) n (mem w) x -> pq_linked (p := p) n m' x.
Proof using Type.
  intros Hw Hv. assert (pq_inv (p := p) n (StrategyControl (shm w)) (mem w)) as Hi0 by apply Hw.
  destruct (call_hook_run m0 mu pins w v notify_hit _ _ Hw Hv (pq_hit n _ v Hv) Hi0) as (m' & Hrun & Hi).
  exists m'. split; [done|]. split; [by apply hook_work|]. intros x Hx.
  destruct (call_hook_run m0 mu pins w v notify_hit _ _ Hw Hv (pq_hit_linked n _ v x Hv) (conj Hi0 Hx)) as (m2 & Hrun2 & _ & Hl).
  unfold StrategyNotifyHit in Hrun. rewrite Hrun in Hrun2. by injection Hrun2 as ->.
Qed.

(** ** Pins *)
Lemma pinned_once_run m0 mu pins w v :
  at_work m0 mu pins w -> 0 <= v -> mu !! (v + 1) = Some one_pin ->
  exists m', CheckBufferIsPinnedOnce (v + 1) w = (Ret tt, with_me m' w) /\ tracks (me w) m' mu.
Proof using Type.
  intros Hw Hv Hmu. destruct (GetPrivateRefCount_spec w mu (v + 1)) as (m' & Hrun & Hinv & Hfr); [apply Hw|lia|].
  exists m'. split; [|done]. unfold CheckBufferIsPinnedOnce, BufferIsLocal.
  rewrite (proj2 (Z.ltb_ge (v + 1) 0)) by lia. rewrite Hmu in Hrun. by run Hrun.
Qed.

Lemma Unpin_any_run m0 mu pins0 pins w v d :
  at_work m0 mu pins0 w -> remove_one (v + 1) pins0 = Some pins -> mu !! (v + 1) = Some one_pin -> desc_at w v d -> 0 < refcount (state d) -> idle d ->
  exists w', UnpinBuffer v w = (Ret tt, w') /\ at_work m0 (delete (v + 1) mu) pins w' /\
    recounted (bump v (-1)) (shm w) (shm w') /\ mem w' = mem w /\ rings (me w') = rings (me w) /\
    (home (v + 1) (me w) -> ReservedRefCountSlot (me w') <> -1) /\
    BufferDescriptors (shm w') = insertZ v (with_state (unpinned_word (state d)) d) (BufferDescriptors (shm w)).
Proof using Type.
  intros Hw Hrm Hmu Hd Hr Hi. pose proof (aw_desc _ _ _ _ _ _ Hw Hd) as Hok. pose proof (aw_range _ _ _ _ _ _ Hw Hd) as Hv.
  assert (last_pin mu v w d) as Hlp.
  { split; [|apply Hok|done|apply Hok|by rewrite (id_pinwait _ Hi)].
    split; [apply Hw|by eapply aw_pos|lia|done|apply Hok|apply Hw|done]. }
  destruct (UnpinBuffer_run mu w v d pins Hlp) as (m' & Hrun & Hinv & Hfr).
  { by rewrite (aw_pins _ _ _ _ Hw). }
  unfold unpin_world in Hrun. cbv zeta in Hrun. rewrite (id_pinwait _ Hi) in Hrun.
  set (d' := with_state (unpinned_word (state d)) d) in *. eexists. split; [exact Hrun|].
  assert (recounted (bump v (-1)) (shm w) (shm (set_desc v d' w))) as Hrc.
  { destruct (unpin_word (state d) (do_wf _ _ _ _ _ Hok) Hr) as (_ & Hr' & _).
    apply (recounted_redesc v (-1) d d'); [by eapply aw_pool|done|by apply same_flags_unpinned; [apply Hok|]|cbn; lia|done]. }
  split; [|split; [done|split; [done|split; [exact (fr_rings _ _ Hfr)|split; [|done]]]]].
  2:{ intros Hm. by eapply Unpin_reserved. }
  destruct Hw as [A1 A2 A3 A4 A5 A6 A7 [S1 S2 S3 S4] A9 A10]. split; try done; cbn [me with_me].
  - etrans; [exact A3|]. destruct Hfr. by split.
  - exact (fr_pins _ _ Hfr).
  - by rewrite (fr_backend_wb _ _ Hfr).
  - destruct strategy; [|done]. cbn in *. by rewrite (fr_rings _ _ Hfr).
  - split; try done. by eapply pool_alike_ok, recounted_alike.
  - by eapply pins_shared_unpin.
  - by rewrite (fr_faults _ _ Hfr).
Qed.
Lemma Unpin_run m0 mu pins w v d :
  at_work m0 mu (v + 1 :: pins) w -> mu !! (v + 1) = Some one_pin -> desc_at w v d -> 0 < refcount (state d) -> idle d ->
  exists w', UnpinBuffer v w = (Ret tt, w') /\ at_work m0 (delete (v + 1) mu) pins w' /\
    recounted (bump v (-1)) (shm w) (shm w') /\ mem w' = mem w /\ rings (me w') = rings (me w) /\
    (home (v + 1) (me w) -> ReservedRefCountSlot (me w') <> -1) /\
    BufferDescriptors (shm w') = insertZ v (with_state (unpinned_word (state d)) d) (BufferDescriptors (shm w)).
Proof using Type. intros Hw. apply (Unpin_any_run m0 mu (v + 1 :: pins)); [done|apply remove_one_head]. Qed.
End work.
