(* ===== verification/VictimRun.v ===== *)
(** * Choosing a victim without interference

    [GetVictimBuffer] on every branch: a clean victim, a dirty one that is written
    out first, one that its ring gives up, and a failed write.  It returns a pinned
    buffer without a block, and no reader notices: the pages seen are the same. *)
From S2P Require Import Prelude BufState BufTag Shmem Concurrency PrivateRefCount Ring Policy BufTable Strategy.
From S2P Require Import LocalBuf ContentLock LockWord LockProtocol LockRun Pin PinRun Reserved BufIO IORun.
From S2P Require Import Writeback Eviction PolicyQuiet Pool FlushRun EvictRun.

(** Everything but the content lock is the same in the two descriptors. *)
Definition relocked (d d' : BufferDesc) : Prop :=
  d' = with_state (state d') d /\ wf_state (state d') /\ same_rest (state d) (state d').

Lemma relocked_alike d d' : relocked d d' -> alike d d'.
Proof.
  intros (E & Hwf & Hs). split; [by rewrite E|by rewrite E|done|by apply same_rest_flag..|].
  by rewrite (same_rest_flag (state d) (state d') (G := BM_JUST_DIRTIED)).
Qed.
Lemma relocked_count d d' : relocked d d' -> refcount (state d') = refcount (state d).
Proof. intros (_ & _ & Hs). by apply same_rest_refcount. Qed.
Lemma relocked_idle d d' : relocked d d' -> idle d -> lock_field (state d') = 0 -> idle d'.
Proof.
  intros (E & Hwf & Hs) [] Hl. split; [done|..|by rewrite E]; by (etrans; [by apply same_rest_flag|]).
Qed.

(** The policy's part of shared memory is the same. *)
Record same_policy (s s' : Shared) : Prop := {
  sp_control : StrategyControl s' = StrategyControl s;
  sp_mem : policy_mem s' = policy_mem s;
  sp_lock : lock_of s' = lock_of s;
  sp_procs : allProcs s' = allProcs s
}.
Definition same_counts (s s' : Shared) : Prop :=
  forall i d', desc_of s' i d' -> exists d, desc_of s i d /\ refcount (state d') = refcount (state d).

Lemma redesc_counts v d d' s :
  desc_of s v d -> refcount (state d') = refcount (state d) -> same_counts s (redesc v d' s).
Proof.
  intros Hd Hr i x [[-> ->]|[Hne Hx]]%(desc_of_redesc v d' s i x d); [by exists d|by exists x|done].
Qed.

(** The other descriptors and all pages are the same. *)
Definition only_desc (v : Z) (s s' : Shared) : Prop :=
  BufferBlocks s' = BufferBlocks s /\ forall x, x <> v -> lookupZ (BufferDescriptors s') x = lookupZ (BufferDescriptors s) x.

#[export] Instance only_desc_trans v : PreOrder (only_desc v).
Proof.
  split; [by split|]. intros s1 s2 s3 [A1 A2] [B1 B2]. split; [congruence|]. intros x Hx. by rewrite B2, A2.
Qed.
Lemma only_insert v d s s' :
  BufferBlocks s' = BufferBlocks s -> BufferDescriptors s' = insertZ v d (BufferDescriptors s) -> only_desc v s s'.
Proof. intros Hb Hd. split; [done|]. intros x Hx. by rewrite Hd, lookupZ_insertZ_ne. Qed.

Lemma filter_put i b l :
  lookupZ l i = Some b -> b <> InvalidBuffer ->
  (length (filter (fun b => b <> InvalidBuffer) (insertZ i InvalidBuffer l)) <
   length (filter (fun b => b <> InvalidBuffer) l))%nat.
Proof.
  intros Hb Hne. pose proof (lookupZ_Some _ _ _ Hb) as Hi. unfold lookupZ, insertZ in *.
  rewrite (proj2 (Z.leb_le 0 i)) in * by lia. rewrite <- (take_drop_middle _ _ _ Hb) at 2. rewrite insert_take_drop by lia.
  rewrite !filter_app, !filter_cons, (decide_False (P := InvalidBuffer <> InvalidBuffer)), (decide_True (P := b <> InvalidBuffer)) by tauto. rewrite !length_app. cbn. lia.
Qed.

Section victim.
Context (same_page : relation Z) `{!Equivalence same_page} `{!Server} `{!ServerLaws same_page}.
Context (permanent : BufferTag -> bool).
Context (n : Z) (p : EvictionVtablePtr) (strategy : BufferAccessStrategy).
Context (others : Z -> Z).
Local Abbreviation pool := (pool_ok same_page PageGetLSN permanent n).
Local Abbreviation at_work := (at_work same_page permanent n p strategy others).
Local Abbreviation seen := (same_pages same_page).

Lemma aw_change m0 m1 mu mu' pins w s' m' :
  at_work m0 mu pins w -> backend_ready n p m1 -> keeps m1 m' -> prc_inv m' mu' ->
  (forall b, mu' !! b = None <-> mu !! b = None) -> owned_pins m' = pins -> wb_ok (BackendWritebackContext m') ->
  ring_ready n strategy m' -> pool s' -> same_policy (shm w) s' -> same_counts (shm w) s' ->
  smgr_faults m' `suffix_of` smgr_faults m1 -> at_work m1 mu' pins (with_me m' (with_shm s' w)).
Proof using Type.
  intros [A1 A2 A3 A4 A5 A6 A7 [S1 S2 S3 S4] [C1 C2] A10] Hrd Hk Hprc Hmu Hpins Hwb Hring Hpool [P1 P2 P3 P4] Hc Hflt.
  split; try done.
  - split; cbn; [done|by rewrite P1, P2|congruence|by rewrite P1, P4].
  - split; [|done]. intros x d' Hd'. destruct (Hc x d' Hd') as (d & Hd & E). rewrite E, (C1 x d Hd). f_equal.
    specialize (Hmu (x + 1)). unfold held. destruct (mu !! (x + 1)), (mu' !! (x + 1)), Hmu as [H1 H2]; try done;
      [by specialize (H1 eq_refl)|by specialize (H2 eq_refl)].
Qed.

(** ** The content lock of the victim *)
Definition share_pin : PrivateRefCountData := mkRefData 1 BUFFER_LOCK_SHARE.

Lemma ready_holdoff k m : 0 <= k -> backend_ready n p m -> backend_ready n p (holdoff k m).
Proof using Type. intros Hk []. split; try done. cbn. lia. Qed.

Lemma swap_pin (mu : gmap Z PrivateRefCountData) b x y :
  mu !! b = Some x -> forall c, <[b := y]> mu !! c = None <-> mu !! c = None.
Proof using Type.
  intros Hb c. destruct (decide (c = b)) as [->|Hne]; [rewrite lookup_insert_eq, Hb|rewrite lookup_insert_ne]; done.
Qed.

(** The state word changed in a way that leaves readers alone. *)
Lemma redesc_work m0 m1 mu mu' pins w v d d' m' :
  at_work m0 mu pins w -> desc_at w v d -> alike d d' -> refcount (state d') = refcount (state d) ->
  0 < refcount (state d) -> backend_ready n p m1 -> keeps m1 m' -> prc_inv m' mu' ->
  (forall b, mu' !! b = None <-> mu !! b = None) -> owned_pins m' = pins ->
  BackendWritebackContext m' = BackendWritebackContext (me w) -> rings m' = rings (me w) ->
  smgr_faults m' = smgr_faults (me w) -> smgr_faults m1 = smgr_faults m0 ->
  at_work m1 mu' pins (with_me m' (set_desc v d' w)) /\ pool_alike (shm w) (redesc v d' (shm w)).
Proof using Type.
  intros Hw Hd Ha Hr Hpos Hrd Hk Hprc Hmu Hpins Hwb Hrings Hf1 Hf2.
  assert (pool_alike (shm w) (redesc v d' (shm w))) as Hal.
  { eapply redesc_alike; [by eapply aw_pool|done|done|lia]. }
  split; [|done]. apply (aw_change m0 m1 mu mu' pins w (redesc v d' (shm w)) m'); try done.
  - rewrite Hwb. apply Hw.
  - pose proof (aw_ring _ _ _ _ _ _ _ _ _ _ Hw) as Hring. destruct strategy; [|done]. cbn in *. by rewrite Hrings.
  - eapply pool_alike_ok; [by eapply aw_pool|done].
  - by apply (redesc_counts v d).
  - rewrite Hf1, Hf2. apply Hw.
Qed.

(** The content lock is free and this backend takes it for sharing, one way or the
    other; and it gives it back. *)
Record shared_to (m0 : Backend) (mu : gmap Z PrivateRefCountData) (pins : list Z) (w : World) (v : Z) (d : BufferDesc)
    (w' : World) (d' : BufferDesc) (k : Z) : Prop := {
  st_work : at_work m0 mu pins w';
  st_desc : desc_at w' v d';
  st_relocked : relocked d d';
  st_lock : lock_field (state d') = k;
  st_alike : pool_alike (shm w) (shm w');
  st_policy : same_policy (shm w) (shm w');
  st_rings : rings (me w') = rings (me w);
  st_descs : BufferDescriptors (shm w') = insertZ v d' (BufferDescriptors (shm w))
}.

Lemma lock_with {A} (prog : M A) mode r m0 mu pins w v d m' :
  at_work m0 mu pins w -> mu !! (v + 1) = Some one_pin -> desc_at w v d -> 0 < refcount (state d) ->
  lock_field (state d) = 0 -> mode <> BUFFER_LOCK_UNLOCK ->
  prog w = (Ret r, with_me m' (set_desc v (with_state (u64 (state d + 2 ^ 34 * lock_unit mode)) d) w)) ->
  tracks (holdoff 1 (me w)) m' (<[v + 1 := (mkRefData 1 mode)]> mu) ->
  exists w' d', prog w = (Ret r, w') /\ shared_to (holdoff 1 m0) (<[v + 1 := (mkRefData 1 mode)]> mu) pins w v d w' d' (lock_unit mode).
Proof using Type.
  intros Hw Hmu Hd Hr Hl Hmode Hrun [Hinv Hfr]. pose proof (aw_desc _ _ _ _ _ _ _ _ _ _ _ _ Hw Hd) as Hok.
  pose proof Hw as [A1 A2 A3 A4 A5 A6 A7 A8 A9 A10].
  set (s' := u64 (state d + 2 ^ 34 * lock_unit mode)) in *.
  destruct (attempt_step mode (state d) true s') as [(_ & _ & Hwf & Hf & Hrest)|[? _]];
    [apply Hok|done| | |done].
  { rewrite attempt_word_spec, Hl by (done || apply Hok). by destruct mode. }
  assert (relocked d (with_state s' d)) as Hrl by (by split_and!).
  edestruct (redesc_work m0 (holdoff 1 m0) mu (<[v + 1 := (mkRefData 1 mode)]> mu) pins w v d (with_state s' d) m') as [Hw' Hal];
    [done|done|by apply relocked_alike|by apply relocked_count|done|by apply ready_holdoff| |done|by eapply swap_pin|..].
  { etrans; [by apply keeps_holdoff|by apply keeps_frame]. }
  { rewrite (fr_pins _ _ Hfr). done. }
  { rewrite (fr_backend_wb _ _ Hfr). done. }
  { rewrite (fr_rings _ _ Hfr). done. }
  { rewrite (fr_faults _ _ Hfr). done. }
  { done. }
  exists (with_me m' (set_desc v (with_state s' d) w)), (with_state s' d). split; [done|].
  split; [done|by apply (desc_at_set_eq w _ d)|done| |done|done|exact (fr_rings _ _ Hfr)|done].
  cbn. rewrite Hf, Hl. lia.
Qed.

Lemma aw_pinned_free m0 mu pins w v d e :
  at_work m0 mu pins w -> mu !! (v + 1) = Some e -> desc_at w v d -> pinned_free mu v w d e.
Proof using Type.
  intros Hw Hmu Hd. pose proof (aw_desc _ _ _ _ _ _ _ _ _ _ _ _ Hw Hd) as Hok.
  pose proof (aw_range _ _ _ _ _ _ _ _ _ _ _ _ Hw Hd). split; [apply Hw|by eapply aw_pos|lia|done|apply Hok|apply Hw|done].
Qed.

Lemma share_run m0 mu pins w v d :
  at_work m0 mu pins w -> mu !! (v + 1) = Some one_pin -> desc_at w v d -> 0 < refcount (state d) ->
  lock_field (state d) = 0 ->
  exists w' d', BufferLockConditional (v + 1) v BUFFER_LOCK_SHARE w = (Ret true, w') /\
    shared_to (holdoff 1 m0) (<[v + 1 := share_pin]> mu) pins w v d w' d' 1.
Proof using Type.
  intros Hw Hmu Hd Hr Hl.
  destruct (BufferLockConditional_run mu v w d one_pin BUFFER_LOCK_SHARE) as (m' & Hrun); try done; [by eapply aw_pinned_free| |].
  { rewrite (kp_holdoff _ _ (aw_keeps _ _ _ _ _ _ _ _ _ _ Hw)). apply Hw. }
  rewrite Hl in Hrun. destruct Hrun as [Hrun Htr]. by apply (lock_with _ BUFFER_LOCK_SHARE true m0 mu pins w v d m').
Qed.
Lemma acquire_share_run m0 mu pins w v d :
  at_work m0 mu pins w -> mu !! (v + 1) = Some one_pin -> desc_at w v d -> 0 < refcount (state d) ->
  lock_field (state d) = 0 ->
  exists w' d', BufferLockAcquire (v + 1) v BUFFER_LOCK_SHARE w = (Ret tt, w') /\
    shared_to (holdoff 1 m0) (<[v + 1 := share_pin]> mu) pins w v d w' d' 1.
Proof using Type.
  intros Hw Hmu Hd Hr Hl.
  destruct (BufferLockAcquire_run mu v w d one_pin BUFFER_LOCK_SHARE) as (m' & Hrun & Htr); try done;
    [by eapply aw_pinned_free|by rewrite Hl|]. by apply (lock_with _ BUFFER_LOCK_SHARE tt m0 mu pins w v d m').
Qed.

Lemma unshare_with (prog : M unit) m0 mu pins w v d m' :
  at_work (holdoff 1 m0) mu pins w -> backend_ready n p m0 -> mu !! (v + 1) = Some share_pin -> desc_at w v d ->
  0 < refcount (state d) -> lock_field (state d) = 1 -> flag (state d) BM_LOCK_HAS_WAITERS = false ->
  prog w = (Ret tt, with_me m' (release_world v BUFFER_LOCK_SHARE d w)) ->
  tracks (holdoff (-1) (me w)) m' (<[v + 1 := one_pin]> mu) ->
  exists w' d', prog w = (Ret tt, w') /\ shared_to m0 (<[v + 1 := one_pin]> mu) pins w v d w' d' 0.
Proof using Type.
  intros Hw Hrd Hmu Hd Hr Hl Hhw Hrun [Hinv Hfr]. pose proof (aw_desc _ _ _ _ _ _ _ _ _ _ _ _ Hw Hd) as Hok.
  pose proof Hw as [A1 A2 A3 A4 A5 A6 A7 A8 A9 A10]. set (s' := release_word BUFFER_LOCK_SHARE (state d)).
  destruct (release_word_spec BUFFER_LOCK_SHARE (state d)) as (Hwf & Hf & Hrest); [apply Hok|cbn; lia|]. fold s' in Hwf, Hf, Hrest.
  assert (relocked d (with_state s' d)) as Hrl by (by split_and!).
  assert (release_world v BUFFER_LOCK_SHARE d w = set_desc v (with_state s' d) w) as Hrel.
  { unfold release_world. cbv zeta. fold s'. unfold release_check. cbn [state with_state].
    destruct (same_rest_wait _ _ Hrest) as (-> & _). by rewrite Hhw. }
  rewrite Hrel in Hrun.
  edestruct (redesc_work (holdoff 1 m0) m0 mu (<[v + 1 := one_pin]> mu) pins w v d (with_state s' d) m') as [Hw' Hal];
    [done|done|by apply relocked_alike|by apply relocked_count|done|done| |done|by eapply swap_pin|..].
  { pose proof (keeps_frame _ _ Hfr) as []. destruct A3. split; cbn in *; congruence || lia. }
  { rewrite (fr_pins _ _ Hfr). done. }
  { rewrite (fr_backend_wb _ _ Hfr). done. }
  { rewrite (fr_rings _ _ Hfr). done. }
  { rewrite (fr_faults _ _ Hfr). done. }
  { done. }
  exists (with_me m' (set_desc v (with_state s' d) w)), (with_state s' d). split; [done|].
  split; [done|by apply (desc_at_set_eq w _ d)|done| |done|done|exact (fr_rings _ _ Hfr)|done].
  cbn. rewrite Hf, Hl. done.
Qed.

Section unshare.
Context (m0 : Backend) (mu : gmap Z PrivateRefCountData) (pins : list Z) (w : World) (v : Z) (d : BufferDesc).
Hypothesis Hw : at_work (holdoff 1 m0) mu pins w.
Hypothesis Hrd : backend_ready n p m0.
Hypothesis Hmu : mu !! (v + 1) = Some share_pin.
Hypothesis Hd : desc_at w v d.
Hypothesis Hr : 0 < refcount (state d).
Hypothesis Hl : lock_field (state d) = 1.
Hypothesis Hhw : flag (state d) BM_LOCK_HAS_WAITERS = false.
Hypothesis Hq : lock_waiters d = [].

Lemma unshare_ready :
  0 < InterruptHoldoffCount (me w) /\ 0 <= lock_field (state d) - lock_unit (data_lockmode share_pin) < 2 ^ 19 /\
  flag (state d) BM_LOCKED = false /\ NoDup (lock_waiters d) /\ all_waiting (allProcs (shm w)) (lock_waiters d).
Proof using Hw Hrd Hd Hl Hq.
  split_and!.
  - rewrite (kp_holdoff _ _ (aw_keeps _ _ _ _ _ _ _ _ _ _ Hw)). cbn. pose proof (br_holdoff _ _ _ Hrd). lia.
  - rewrite Hl. cbn. lia.
  - rewrite Hl. cbn. lia.
  - apply (aw_desc _ _ _ _ _ _ _ _ _ _ _ _ Hw Hd).
  - rewrite Hq. apply NoDup_nil_2.
  - intros x. rewrite Hq. by intros ?%not_elem_of_nil.
Qed.

Lemma unshare_run :
  exists w' d', LockBuffer (v + 1) BUFFER_LOCK_UNLOCK w = (Ret tt, w') /\
    shared_to m0 (<[v + 1 := one_pin]> mu) pins w v d w' d' 0.
Proof using Hw Hrd Hmu Hd Hr Hl Hhw Hq.
  destruct unshare_ready as (H1 & H2 & H3 & H4 & H5).
  destruct (UnlockBuffer_run mu v w d share_pin) as (m' & Hrun & Htr); try done; [by eapply aw_pinned_free|].
  by apply (unshare_with _ m0 mu pins w v d m').
Qed.
Lemma release_share_run :
  exists w' d', BufferLockUnlock (v + 1) v w = (Ret tt, w') /\
    shared_to m0 (<[v + 1 := one_pin]> mu) pins w v d w' d' 0.
Proof using Hw Hrd Hmu Hd Hr Hl Hhw Hq.
  destruct unshare_ready as (H1 & H2 & H3 & H4 & H5).
  destruct (BufferLockUnlock_run mu v w d share_pin) as (m' & Hrun & Htr); try done; [by eapply aw_pinned_free|].
  by apply (unshare_with _ m0 mu pins w v d m').
Qed.
End unshare.

(** ** Writing the victim out *)

(** The slots of the ring that hold a buffer. *)
Definition live_slots (m : Backend) : nat :=
  match strategy with
  | Some h => match rings m !! h with
              | Some r => length (filter (fun b => b <> InvalidBuffer) (buffers r))
              | None => 0
              end
  | None => 0
  end.

(** A buffer that came from the ring was taken out of it. *)
Definition rejection (from_ring : bool) (m m' : Backend) : Prop :=
  from_ring = true /\ (live_slots m' < live_slots m)%nat.

(** The ring gives up the buffer in its current slot. *)
Lemma reject_run m0 mu pins w h v d from_ring :
  at_work m0 mu pins w -> strategy = Some h -> desc_at w v d ->
  exists rejected w', StrategyRejectBuffer h v from_ring w = (Ret rejected, w') /\
    at_work m0 mu pins w' /\ shm w' = shm w /\ PrivateRefCountHash (me w') = PrivateRefCountHash (me w) /\
    if rejected then rejection from_ring (me w) (me w') else w' = w.
Proof using Type.
  intros Hw Hstr Hd. pose proof (aw_ring _ _ _ _ _ _ _ _ _ _ Hw) as Hring. rewrite Hstr in Hring. destruct Hring as (r & Hr & Hok).
  assert (exists rejected w', (Ret false, w) = (Ret rejected, w') /\
    at_work m0 mu pins w' /\ shm w' = shm w /\ PrivateRefCountHash (me w') = PrivateRefCountHash (me w) /\
    if rejected then rejection from_ring (me w) (me w') else w' = w) as Hno by (by exists false, w).
  unfold StrategyRejectBuffer. run (ring_run w h r Hr). destruct (negb (bool_decide _)); [done|].
  destruct from_ring; cbn [negb]; [|done]. destruct (ring_current_run n w h r Hr Hok) as (b & Hcur & Hb). run Hcur.
  run (GetBuffer_run w v d Hd). destruct (Z.eqb_spec b (buf_id d + 1)) as [->|Hne]; cbn [negb]; [clear Hno|done].
  pose proof (do_id _ _ _ _ _ (aw_desc _ _ _ _ _ _ _ _ _ _ _ _ Hw Hd)) as Hid.
  pose proof (aw_range _ _ _ _ _ _ _ _ _ _ _ _ Hw Hd) as Hv. run (set_ring_current_run n w h r InvalidBuffer Hr Hok).
  exists true. eexists. split; [done|]. pose proof Hw as [A1 A2 A3 A4 A5 A6 A7 A8 A9 A10]. split_and!; try done.
  - split; try done; cbn; [etrans; [exact A3|by split]|by apply prc_inv_rings|]. rewrite Hstr.
    exists (ring_put InvalidBuffer r). cbn. rewrite lookup_insert_eq. split; [done|]. apply ring_put_ok; [done|].
    unfold InvalidBuffer. lia.
  - split; [done|]. unfold live_slots. rewrite Hstr. cbn. rewrite lookup_insert_eq, Hr. cbn. eapply filter_put; [done|].
    unfold InvalidBuffer. lia.
Qed.

Lemma judge_run m0 mu pins w v d page st from_ring :
  at_work m0 mu pins w -> desc_at w v d -> lookupZ (BufferBlocks (shm w)) v = Some page ->
  flag st BM_TAG_VALID = flag (state d) BM_TAG_VALID ->
  exists st' rejected w', judge_victim strategy v st from_ring w = (Ret (st', rejected), w') /\
    flag st' BM_TAG_VALID = flag (state d) BM_TAG_VALID /\ at_work m0 mu pins w' /\ shm w' = shm w /\
    PrivateRefCountHash (me w') = PrivateRefCountHash (me w) /\
    if rejected then rejection from_ring (me w) (me w') else w' = w.
Proof using Type*.
  intros Hw Hd Hp Hst. pose proof (aw_desc _ _ _ _ _ _ _ _ _ _ _ _ Hw Hd) as Hok.
  pose proof (aw_pos _ _ _ _ _ _ _ _ _ _ Hw) as Hg. pose proof (aw_quiet _ _ _ _ _ _ _ _ _ _ Hw) as Hq.
  destruct (decide (strategy = None)) as [Hstr|Hstr].
  { exists st, false, w. unfold judge_victim. split; [by rewrite Hstr|by split_and!]. }
  assert (exists h, strategy = Some h) as [h Hh] by (destruct strategy; eauto; done).
  pose proof (reject_run m0 mu pins w h v d from_ring Hw Hh Hd) as Hrej.
  destruct (sl_needs (PageGetLSN page) w) as (b & Hb).
  exists (Z.lor (state d) BM_LOCKED).
  assert (exists rejected w', (let* rejected := if b then StrategyRejectBuffer h v from_ring else ret false in
      ret (Z.lor (state d) BM_LOCKED, rejected)) w = (Ret (Z.lor (state d) BM_LOCKED, rejected), w') /\
    at_work m0 mu pins w' /\ shm w' = shm w /\ PrivateRefCountHash (me w') = PrivateRefCountHash (me w) /\
    if rejected then rejection from_ring (me w) (me w') else w' = w) as (rejected & w' & Hrun & Hpost).
  { destruct b; [|by exists false, w]. destruct Hrej as (rejected & w' & Hrun & Hpost). exists rejected, w'. by run Hrun. }
  exists rejected, w'. split; [|split; [by rewrite locked_flag|done]]. rewrite <- Hrun. unfold judge_victim. rewrite Hh.
  run (LockBufHdr_quiet w Hq Hg v d Hd (do_unlocked _ _ _ _ _ Hok)). set (w1 := set_desc v _ w).
  rewrite (bind_ret _ _ w1 (PageGetLSN page) w1) by (unfold BufferGetLSN; by run (BufHdrGetBlock_run w1 v page Hp)).
  run (unlock_back w v d Hq Hd (do_wf _ _ _ _ _ Hok) (do_unlocked _ _ _ _ _ Hok)). by run Hb.
Qed.

Lemma wal_advance s lsn : pool s -> wal_flushed s <= lsn -> pool (with_wal_flushed lsn s) /\ seen s (with_wal_flushed lsn s).
Proof using Equivalence0.
  intros [P1 P2 P3 P4 P5 P6] Hw. split.
  - split; [done|done|intros i d Hd; by destruct (P3 i d Hd)|done| |by etrans]. intros t v Hp Hv. cbn. etrans; [by eapply P5|done].
  - intros t. change (page_seen (with_wal_flushed lsn s) t) with (page_seen s t). by apply reflexivity.
Qed.

Lemma writing_alike d : wf_state (state d) -> alike d (with_state (writing_word (state d)) d).
Proof using Type.
  intros Hwf. split; [done|done|by apply writing_word_wf|..]; cbn [state with_state]; unfold writing_word; flags; try done.
Qed.

(** What a written page leaves of its descriptor. *)
Record flushed (d d' : BufferDesc) : Prop := {
  fl_clean : cleaned d d';
  fl_count : refcount (state d') = refcount (state d);
  fl_lock : lock_field (state d') = lock_field (state d);
  fl_io : flag (state d') BM_IO_IN_PROGRESS = false;
  fl_waiters : flag (state d') BM_LOCK_HAS_WAITERS = flag (state d) BM_LOCK_HAS_WAITERS;
  fl_wake : flag (state d') BM_LOCK_WAKE_IN_PROGRESS = flag (state d) BM_LOCK_WAKE_IN_PROGRESS;
  fl_pinwait : flag (state d') BM_PIN_COUNT_WAITER = flag (state d) BM_PIN_COUNT_WAITER;
  fl_queue : lock_waiters d' = lock_waiters d
}.

Lemma flushed_desc d :
  wf_state (state d) -> flag (state d) BM_VALID = true -> flag (state d) BM_TAG_VALID = true ->
  flushed d (with_state (flushed_word (state d)) d).
Proof using Type.
  intros Hwf Hv Ht. destruct (flushed_word_fields (state d) Hwf) as (F1 & F2 & F3 & F4).
  assert (forall b1 b2 b3 b4 b : bool, b = b4 -> b1 = false -> b2 = false -> b3 = false ->
    (b || b1) && negb b2 && negb b3 = b4) as Hb.
  { intros [] [] [] [] []; done. }
  split; [split|..]; try done; cbn [state with_state]; rewrite flushed_word_flag by done;
    first [by apply Hb | apply andb_false_r].
Qed.

Lemma flush_work m0 mu pins w v d reln :
  default (BufTagGetRelFileLocator (tag d)) reln = BufTagGetRelFileLocator (tag d) ->
  at_work m0 mu pins w -> desc_at w v d -> flag (state d) BM_DIRTY = true -> flag (state d) BM_IO_IN_PROGRESS = false ->
  0 < refcount (state d) ->
  (exists w', FlushBuffer v reln w = (Elog "I/O error", w') /\ true ∈ smgr_faults m0 /\
     pool (shm w') /\ seen (shm w) (shm w')) \/
  exists w' d', FlushBuffer v reln w = (Ret tt, w') /\ at_work m0 mu pins w' /\ desc_at w' v d' /\ flushed d d' /\
    seen (shm w) (shm w') /\ SharedBufHash (shm w') = SharedBufHash (shm w) /\ same_policy (shm w) (shm w') /\
    BufferDescriptors (shm w') = insertZ v d' (BufferDescriptors (shm w)) /\ BufferBlocks (shm w') = BufferBlocks (shm w).
Proof using Type*.
  intros Hreln Hw Hd Hdirty Hio Hr. pose proof (aw_desc _ _ _ _ _ _ _ _ _ _ _ _ Hw Hd) as Hok. pose proof Hok as [D1 D2 D3 D4 D5 D6 D7 DJ D8].
  pose proof (D4 Hdirty) as Hv. destruct (D5 Hv) as (Ht & page & f & Hp & Hf & _). pose proof (aw_pool _ _ _ _ _ _ _ _ _ _ Hw) as Hpool.
  destruct (FlushBuffer_run same_page w v d page f reln) as (lsn & Hl1 & Hl2 & Hrun); try done.
  { split; [apply Hw|by eapply aw_pos|done|done|done]. }
  pose proof (wal_advance (shm w) lsn Hpool Hl1) as [Hpool1 Hseen1].
  destruct (decide (head (smgr_faults (me w)) = Some true)) as [Hfs|Hfs]; [left|right].
  - destruct (smgr_faults (me w)) as [|[] fs] eqn:Ef; try done. eexists. split; [exact Hrun|]. split.
    { destruct (aw_faults _ _ _ _ _ _ _ _ _ _ Hw) as [l ->]. rewrite Ef. set_solver. }
    cbn.
    assert (pool_alike (with_wal_flushed lsn (shm w)) (redesc v (with_state (writing_word (state d)) d) (with_wal_flushed lsn (shm w)))) as Hal.
    { eapply redesc_alike; [done|done|by apply writing_alike|]. cbn. destruct (writing_word_fields (state d)) as (E & _). lia. }
    split; [by eapply pool_alike_ok|]. intros t. etrans; [apply Hseen1|].
    destruct (pool_alike_seen _ _ _ _ _ _ t Hpool1 Hal) as [_ ->]. by apply reflexivity.
  - set (page' := PageSetChecksumCopy page (blockNum (tag d))) in *. set (d' := with_state (flushed_word (state d)) d) in *.
    pose proof (flushed_desc d D2 Hv Ht) as Hfl. fold d' in Hfl.
    exists (with_me (wrote (me w)) (with_shm (written v (tag d) page' lsn d' (shm w)) w)), d'. split_and!; try done.
    + rewrite Hrun. by destruct (smgr_faults (me w)) as [|[] fs].
    + pose proof Hw as [A1 A2 A3 A4 A5 A6 A7 A8 A9 A10].
      apply (aw_change m0 m0 mu mu pins w (written v (tag d) page' lsn d' (shm w)) (wrote (me w))); try done.
      * etrans; [exact A3|by split].
      * by destruct A4.
      * eapply (written_ok same_page PageGetLSN permanent n (shm w) v d d' page page' lsn); try done.
        -- apply Hfl.
        -- apply sl_checksum.
        -- apply sl_lsn.
        -- intros Hperm. apply Hl2. by rewrite D6.
        -- rewrite (fl_count _ _ Hfl). lia.
      * intros i x. change (desc_of (written v (tag d) page' lsn d' (shm w)) i x) with
          (desc_of (redesc v d' (shm w)) i x). apply (redesc_counts v d); [done|apply Hfl].
      * cbn. etrans; [|exact A10]. destruct (smgr_faults (me w)) as [|x fs]; [done|by exists [x]].
    + eapply lookupZ_insertZ_eq, lookupZ_Some, Hd.
    + eapply written_seen; try done; [apply Hfl|apply sl_checksum].
Qed.

Lemma scheduled_ok skip t x : wb_ok x -> wb_ok (scheduled skip t x).
Proof using Type.
  intros [Hm Hn]. unfold scheduled. destruct skip; [done|]. split; [done|]. unfold nr_pending in *. cbn.
  destruct (Z.ltb_spec (Z.of_nat (length (pending_writebacks x)) + 1) (max_pending x)); cbn; [|done].
  rewrite length_app. cbn. lia.
Qed.

Lemma schedule_work m0 mu pins w t :
  at_work m0 mu pins w ->
  exists w', ScheduleBufferTagForWriteback smgrwriteback io_direct_data enableFsync BackendContext t w = (Ret tt, w') /\
    at_work m0 mu pins w' /\ shm w' = shm w.
Proof using Type*.
  intros Hw. pose proof Hw as [A1 A2 A3 A4 A5 A6 A7 A8 A9 A10].
  destruct (Schedule_run smgrwriteback eq io_direct_data enableFsync BackendContext t w sl_hint A6)
    as (s & fs & Hrun & [= <- <-]).
  eexists. split; [exact Hrun|]. split; [|done]. split; try done; cbn.
  - etrans; [exact A3|by split].
  - by destruct A4.
  - by apply scheduled_ok.
Qed.

(** ** A victim that is given up *)
Local Abbreviation candidate := (candidate n p).

(** The policy knows of [v] and of all that it knew of. *)
Definition relinked (v : Z) (w w' : World) : Prop :=
  pq_linked (p := p) n (mem w') v /\ forall x, pq_linked (p := p) n (mem w) x -> pq_linked (p := p) n (mem w') x.

Lemma give_up_run m0 mu pins w v d :
  at_work m0 mu (v + 1 :: pins) w -> mu !! (v + 1) = Some one_pin -> home (v + 1) (me w) -> desc_at w v d ->
  refcount (state d) = 1 -> idle d ->
  exists w', give_up_victim v w = (Ret tt, w') /\ at_work m0 (delete (v + 1) mu) pins w' /\ candidate w' /\
    pool_alike (shm w) (shm w') /\ ReservedRefCountSlot (me w') <> -1 /\ rings (me w') = rings (me w) /\ relinked v w w' /\
    only_desc v (shm w) (shm w').
Proof using Type.
  intros Hw Hmu Hm Hd Hr Hi. pose proof (aw_range _ _ _ _ _ _ _ _ _ _ _ _ Hw Hd) as Hv.
  destruct (NotifyInsert_run _ _ _ _ _ _ _ _ _ w v Hw Hv) as (m1 & Hrun1 & Hw1 & Hl1).
  pose proof (proj1 Hl1) as Hlv.
  destruct (Unpin_run _ _ _ _ _ _ m0 mu pins (with_mem m1 w) v d Hw1 Hmu Hd) as (w' & Hrun & Hw' & Hrc & Hmem & Hrings & Hres & Hds);
    [lia|done|].
  exists w'. unfold give_up_victim. run Hrun1. rewrite Hrun. split; [done|]. split; [done|].
  split; [|split; [|split; [by auto|split; [done|split; [unfold relinked; by rewrite Hmem|]]]]].
  3: { by eapply only_insert; [rewrite (rc_blocks _ _ _ Hrc)|exact Hds]. }
  - exists v. rewrite Hmem. split; [done|]. split; [done|].
    destruct (rc_desc _ _ _ Hrc v d Hd) as (d' & Hd' & _ & E & _). rewrite bump_eq in E.
    rewrite (unpinned_at _ _ _ Hd'). apply Z.eqb_eq. lia.
  - eapply pool_alike_trans; [|by eapply recounted_alike, Hrc; eapply aw_pool].
    eapply recounted_alike; [by eapply aw_pool|]. eapply recounted_zero; [by eapply aw_pool|done..].
Qed.

(** ** A victim in hand *)
Record victim (m0 : Backend) (mu : gmap Z PrivateRefCountData) (pins : list Z) (w : World) (v : Z) (d : BufferDesc)
    : Prop := {
  vi_work : at_work m0 mu (v + 1 :: pins) w;
  vi_pin : mu !! (v + 1) = Some one_pin;
  vi_desc : desc_at w v d;
  vi_count : refcount (state d) = 1;
  vi_idle : idle d
}.

(** Readers see the same pages, and the same blocks have buffers. *)
Definition same_cache (s s' : Shared) : Prop := seen s s' /\ SharedBufHash s' = SharedBufHash s.
Lemma same_cache_trans s1 s2 s3 : same_cache s1 s2 -> same_cache s2 s3 -> same_cache s1 s3.
Proof using Equivalence0. intros [A1 A2] [B1 B2]. split; [by etrans|congruence]. Qed.
Lemma alike_cache s s' : pool s -> pool_alike s s' -> same_cache s s'.
Proof using Equivalence0.
  intros Hp Ha. split; [|by apply Ha]. intros t. destruct (pool_alike_seen _ _ _ _ _ _ t Hp Ha) as [_ ->].
  by apply reflexivity.
Qed.

(** The search goes on: one more candidate, one slot of the ring less. *)
Record gave_up (m0 : Backend) (mu : gmap Z PrivateRefCountData) (pins : list Z) (w w' : World) : Prop := {
  gu_work : at_work m0 mu pins w';
  gu_candidate : candidate w';
  gu_reserved : ReservedRefCountSlot (me w') <> -1;
  gu_ring : (live_slots (me w') < live_slots (me w))%nat;
  gu_cache : same_cache (shm w) (shm w')
}.

(** A page could not be written. *)
Definition write_failed (m0 : Backend) (s s' : Shared) : Prop := true ∈ smgr_faults m0 /\ pool s' /\ seen s s'.

Lemma live_slots_rings m m' : rings m' = rings m -> live_slots m' = live_slots m.
Proof using Type. intros E. unfold live_slots. by rewrite E. Qed.

Definition flush_victim_post (m0 : Backend) (mu : gmap Z PrivateRefCountData) (pins : list Z) (w : World) (v : Z)
    (from_ring : bool) (o : outcome (option Z)) (w' : World) : Prop :=
  match o with
  | Ret None => from_ring = true /\ gave_up m0 (delete (v + 1) mu) pins w w' /\ relinked v w w' /\ only_desc v (shm w) (shm w')
  | Ret (Some st') => only_desc v (shm w) (shm w') /\ mem w' = mem w /\ flag st' BM_TAG_VALID = true /\ same_cache (shm w) (shm w') /\
      exists d', victim m0 mu pins w' v d' /\ flag (state d') BM_DIRTY = false /\ flag (state d') BM_TAG_VALID = true
  | Elog _ => write_failed m0 (shm w) (shm w')
  | _ => False
  end.

(** The victim while its content is locked for sharing. *)
Record shared_victim (m0 : Backend) (mu : gmap Z PrivateRefCountData) (pins : list Z) (w : World) (v : Z)
    (d : BufferDesc) : Prop := {
  sv_ready : backend_ready n p m0;
  sv_work : at_work (holdoff 1 m0) (<[v + 1 := share_pin]> mu) (v + 1 :: pins) w;
  sv_pin : mu !! (v + 1) = Some one_pin;
  sv_desc : desc_at w v d;
  sv_lock : lock_field (state d) = 1;
  sv_count : refcount (state d) = 1;
  sv_io : flag (state d) BM_IO_IN_PROGRESS = false;
  sv_waiters : flag (state d) BM_LOCK_HAS_WAITERS = false;
  sv_wake : flag (state d) BM_LOCK_WAKE_IN_PROGRESS = false;
  sv_pinwait : flag (state d) BM_PIN_COUNT_WAITER = false;
  sv_queue : lock_waiters d = []
}.

Lemma unshared_victim m0 mu pins w v d w' d' :
  shared_victim m0 mu pins w v d -> shared_to m0 (<[v + 1 := one_pin]> (<[v + 1 := share_pin]> mu)) (v + 1 :: pins) w v d w' d' 0 ->
  victim m0 mu pins w' v d' /\ alike d d'.
Proof using Type.
  intros [H1 H2 H3 H4 H5 H6 H7 H8 H9 H10 H11] [Hw' Hd' Hrl Hl Hal _ Hring].
  rewrite insert_insert_eq, insert_id in Hw' by done. pose proof (relocked_count _ _ Hrl) as Hc.
  split; [|by apply relocked_alike]. split; try done; [lia|]. destruct Hrl as (E & Hwf & Hs).
  split; [done|..|by rewrite E]; by (etrans; [by apply same_rest_flag|]).
Qed.

Lemma unshare_victim m0 mu pins w v d :
  shared_victim m0 mu pins w v d ->
  exists w' d', LockBuffer (v + 1) BUFFER_LOCK_UNLOCK w = (Ret tt, w') /\ victim m0 mu pins w' v d' /\
    alike d d' /\ pool_alike (shm w) (shm w') /\ rings (me w') = rings (me w) /\ mem w' = mem w /\
    only_desc v (shm w) (shm w') /\ (home (v + 1) (me w) -> home (v + 1) (me w')).
Proof using Type.
  intros Hs. pose proof Hs as [H1 H2 H3 H4 H5 H6 H7 H8 H9 H10 H11]. pose proof (aw_range _ _ _ _ _ _ _ _ _ _ _ _ H2 H4) as Hv.
  destruct (unshare_run m0 _ _ w v d H2 H1 (lookup_insert_eq _ _ _) H4) as (w' & d' & Hrun & Hst); [lia|done|done|done|].
  exists w', d'. destruct (unshared_victim _ _ _ _ _ _ _ _ Hs Hst) as [Hvi Ha]. destruct Hst as [_ _ _ _ Hal Hsp Hring Hds].
  split_and!; try done; [apply Hsp|by eapply only_insert; [apply Hal|]|]. intros Hm. eapply (Unlock_home (v + 1)); [lia|exact Hm|exact Hrun].
Qed.

Lemma reject_victim_run m0 mu pins w v d :
  shared_victim m0 mu pins w v d -> home (v + 1) (me w) ->
  exists w', (LockBuffer (v + 1) BUFFER_LOCK_UNLOCK ;; give_up_victim v ;; ret (None : option Z)) w = (Ret None, w') /\
    at_work m0 (delete (v + 1) mu) pins w' /\ candidate w' /\ ReservedRefCountSlot (me w') <> -1 /\
    rings (me w') = rings (me w) /\ pool_alike (shm w) (shm w') /\ relinked v w w' /\
    only_desc v (shm w) (shm w').
Proof using Type.
  intros Hs Hm. destruct (unshare_victim m0 mu pins w v d Hs) as (w1 & d1 & Hrun1 & [Hw1 Hmu Hd1 Hr1 Hi1] & Ha1 & Hal1 & Hring1 & Hmem1 & Ho1 & Hm1).
  destruct (give_up_run m0 mu pins w1 v d1) as (w2 & Hrun2 & Hw2 & Hc2 & Hal2 & Hres2 & Hring2 & Hli2 & Ho2); try done; [by apply Hm1|].
  exists w2. run Hrun1. run Hrun2. split; [done|]. split; [done|]. split; [done|]. split; [done|].
  split; [congruence|]. split; [by eapply pool_alike_trans|]. split; [|by etrans]. unfold relinked in *. by rewrite <- Hmem1.
Qed.

Lemma write_victim_run m0 mu pins w v d st from_ring :
  shared_victim m0 mu pins w v d -> flag (state d) BM_DIRTY = true -> flag st BM_TAG_VALID = true ->
  wp (FlushBuffer v None ;; LockBuffer (v + 1) BUFFER_LOCK_UNLOCK ;; let* d := deref v in
      ScheduleBufferTagForWriteback smgrwriteback io_direct_data enableFsync BackendContext (tag d) ;;
      ret (Some st)) (flush_victim_post m0 mu pins w v from_ring) w.
Proof using Type*.
  intros Hs Hdirty Hst. pose proof Hs as [H1 H2 H3 H4 H5 H6 H7 H8 H9 H10 H11].
  destruct (flush_work _ _ _ w v d None eq_refl H2 H4 Hdirty H7) as [(w1 & Hrun & Hfs & Hp & Hse)|(w1 & d1 & Hrun1 & Hw1 & Hd1 & Hfl & Hse & Hha & Hsp1 & Hds1 & Hbl1)];
    [lia|by eapply wp_bind, wp_eq|].
  eapply wp_step; [run Hrun1; reflexivity|]. destruct Hfl as [F0 F1 F2 F3 F4 F5 F6 F7].
  destruct (unshare_victim m0 mu pins w1 v d1) as (w2 & d2 & Hrun2 & Hvi & Ha2 & Hal2 & _ & Hmem2 & Ho2 & _); [split; try done; congruence|].
  pose proof Hvi as [Hw2 _ Hd2 Hr2 Hi2]. eapply wp_step; [run Hrun2; reflexivity|].
  eapply wp_step; [run (deref_run w2 v d2 Hd2); reflexivity|].
  destruct (schedule_work m0 mu (v + 1 :: pins) w2 (tag d2) Hw2) as (w3 & Hrun3 & Hw3 & Hs3).
  eapply wp_step; [run Hrun3; reflexivity|]. eapply wp_eq; [done|]. cbn. split.
  { rewrite Hs3. etrans; [by eapply only_insert|exact Ho2]. }
  split.
  { unfold mem. rewrite Hs3. etrans; [exact Hmem2|apply Hsp1]. }
  split; [done|]. rewrite Hs3. split.
  - eapply same_cache_trans; [by split|]. apply alike_cache; [by eapply aw_pool|done].
  - exists d2. split; [|by rewrite (al_dirty _ _ Ha2), (al_tagged _ _ Ha2); destruct F0].
    split; try done. unfold desc_at. by rewrite Hs3.
Qed.

Lemma flush_victim_run m0 mu pins w v d from_ring :
  victim m0 mu pins w v d -> home (v + 1) (me w) -> flag (state d) BM_DIRTY = true ->
  wp (flush_victim strategy v (v + 1) (state d) from_ring) (flush_victim_post m0 mu pins w v from_ring) w.
Proof using Type*.
  intros [Hw Hmu Hd Hr Hi] Hm Hdirty. pose proof (aw_desc _ _ _ _ _ _ _ _ _ _ _ _ Hw Hd) as Hok.
  pose proof (do_dirty _ _ _ _ _ Hok Hdirty) as Hv. destruct (do_valid _ _ _ _ _ Hok Hv) as (Ht & page & f & Hp & Hf & _).
  unfold flush_victim. rewrite !Ht, !Hv. eapply wp_step; [rewrite c_assert_ok, c_assert_ok by done; reflexivity|].
  destruct (share_run m0 mu (v + 1 :: pins) w v d) as (w1 & d1 & Hrun1 & [Hw1 Hd1 Hrl1 Hl1 Hal1 Hsp1 Hring1 Hds1]);
    [done|done|done|lia|apply Hi|].
  assert (only_desc v (shm w) (shm w1)) as Ho1 by (by eapply only_insert; [apply Hal1|]).
  eapply wp_step; [run Hrun1; reflexivity|]. cbn [negb].
  pose proof (relocked_alike _ _ Hrl1) as Hal. pose proof (relocked_count _ _ Hrl1) as Hr1.
  assert (home (v + 1) (me w1)) as Hm1 by (by eapply (Conditional_home (v + 1))).
  destruct (judge_run (holdoff 1 m0) _ _ w1 v d1 page (state d) from_ring Hw1 Hd1) as
    (st' & rejected & w2 & Hrun2 & Hst' & Hw2 & Hs2 & Hh2 & Hrej).
  { by rewrite (pa_blocks _ _ Hal1). }
  { by rewrite (al_tagged _ _ Hal). }
  eapply wp_step; [run Hrun2; reflexivity|].
  assert (desc_at w2 v d1) as Hd2 by (unfold desc_at in *; by rewrite Hs2).
  assert (home (v + 1) (me w2)) as Hm2 by (unfold home in *; by rewrite Hh2).
  assert (shared_victim m0 mu pins w2 v d1) as Hs.
  { destruct Hrl1 as (E & _ & Hs), Hi. split; try done; [by eapply aw_ready|congruence|..|by rewrite E];
      by (etrans; [by apply same_rest_flag|]). }
  destruct rejected; [|subst w2].
  - destruct (reject_victim_run m0 mu pins w2 v d1 Hs Hm2) as (w3 & Hrun3 & Hw3 & Hc3 & Hres3 & Hring3 & Hal3 & Hli3 & Ho3).
    assert (mem w2 = mem w) as Hmem2 by (unfold mem; rewrite Hs2; apply Hsp1).
    destruct Hrej as [Hfrom Hlt]. eapply wp_eq; [exact Hrun3|]. split; [done|].
    split; [|split; [unfold relinked in *; by rewrite <- Hmem2|etrans; [exact Ho1|by rewrite <- Hs2]]]. split; try done.
    + by rewrite (live_slots_rings _ _ Hring3), <- (live_slots_rings _ _ Hring1).
    + eapply same_cache_trans; [apply alike_cache; [by eapply aw_pool|done]|]. rewrite <- Hs2.
      apply alike_cache; [by eapply aw_pool|done].
  - eapply wp_mono; [|apply (write_victim_run m0 mu pins w1 v d1 st' from_ring Hs)].
    + assert (same_cache (shm w) (shm w1)) as Hc1 by (apply alike_cache; [by eapply aw_pool|done]).
      intros [[st|]|e|e|] w3; cbn; try done.
      * intros (Ho & Hmem & ? & Hc & ?). split; [by etrans|]. split; [rewrite Hmem; apply Hsp1|]. split; [done|]. split; [by eapply same_cache_trans|done].
      * intros (Hfrom & [G1 G2 G3 G4 G5] & Hli & Ho). assert (mem w1 = mem w) as Hmem1 by apply Hsp1. split; [done|].
        split; [|split; [unfold relinked in *; by rewrite <- Hmem1|by etrans]].
        split; try done; [by rewrite <- (live_slots_rings _ _ Hring1)|by eapply same_cache_trans].
      * intros (? & ? & ?). split; [done|]. split; [done|]. etrans; [apply Hc1|done].
    + by rewrite (al_dirty _ _ Hal).
    + by rewrite Hst', (al_tagged _ _ Hal).
Qed.

(** ** Taking its block away *)
Lemma BufTableLookup_run w t :
  BufTableLookup tag_hash t (BufTableHashCode tag_hash t) w = (Ret (default (-1) (SharedBufHash (shm w) !! t)), w).
Proof using Type. unfold BufTableLookup, own_code. by rewrite c_assert_ok by apply Z.eqb_refl. Qed.
Lemma BufTableDelete_run w t v :
  SharedBufHash (shm w) !! t = Some v ->
  BufTableDelete tag_hash t (BufTableHashCode tag_hash t) w =
    (Ret tt, upd_shm (fun s => with_SharedBufHash (delete t (SharedBufHash s)) s) w).
Proof using Type.
  intros Ht. unfold BufTableDelete, own_code. rewrite c_assert_ok by apply Z.eqb_refl. unfold bind, gets. by rewrite Ht.
Qed.

Definition blank_mask : Z := Z.lor BUF_FLAG_MASK BUF_USAGECOUNT_MASK.
Definition blank_desc (d : BufferDesc) : BufferDesc :=
  with_state (Z.ldiff (state d) blank_mask) (with_tag (ClearBufferTag (tag d)) d).

Lemma blank_flag {G k} `{!IsBit G k} s : flag blank_mask G = true -> flag (Z.ldiff s blank_mask) G = false.
Proof using Type. intros Hg. rewrite (flag_diff (G := G)), Hg. apply andb_false_r. Qed.

Lemma blank_desc_ok v d : buf_id d = v -> wf_state (state d) -> idle d ->
  blank v (blank_desc d) /\ refcount (state (blank_desc d)) = refcount (state d).
Proof using Type.
  intros Hid Hwf []. split; [|cbn; rewrite !refcount_field; by rewrite field_ldiff].
  assert (lock_field (Z.ldiff (state d) blank_mask) = 0) as Hl by (rewrite <- id_lock; unfold lock_field; by rewrite field_ldiff).
  split; [done|by apply wf_ldiff|by apply blank_flag..|]. split; [done|by apply blank_flag..|done].
Qed.

(** The steps under the partition lock. *)
Lemma drop_run w v d (k : M bool) :
  quiet w -> (0 < gas (me w))%nat -> desc_at w v d -> wf_state (state d) -> flag (state d) BM_LOCKED = false ->
  flag (state d) BM_TAG_VALID = true -> flag (state d) BM_DIRTY = false -> refcount (state d) = 1 ->
  flag (state d) BM_LOCK_WAKE_IN_PROGRESS = false -> SharedBufHash (shm w) !! tag d = Some v ->
  (let* buf_state := LockBufHdr v in
   let* d' := deref v in
   c_assert (flag buf_state BM_TAG_VALID) "victim has no tag" ;;
   c_assert (0 <? BUF_STATE_GET_REFCOUNT buf_state) "victim has no pin" ;;
   c_assert (BufferTagsEqual (tag d') (tag d)) "tag of a pinned buffer changed" ;;
   if negb (BUF_STATE_GET_REFCOUNT buf_state =? 1) || flag buf_state BM_DIRTY then
     UnlockBufHdr v ;; LWLockRelease (BufMappingPartitionLock (BufTableHashCode tag_hash (tag d))) ;; ret false
   else
     c_assert (negb (flag buf_state BM_LOCK_WAKE_IN_PROGRESS)) "wakeup in progress" ;;
     store_desc v (with_tag (ClearBufferTag (tag d')) d') ;;
     UnlockBufHdrExt v buf_state 0 (Z.lor BUF_FLAG_MASK BUF_USAGECOUNT_MASK) 0 ;;
     BufTableDelete tag_hash (tag d) (BufTableHashCode tag_hash (tag d)) ;; k) w =
  k (upd_shm (dropped v (tag d) (blank_desc d)) w).
Proof using Type.
  intros Hq Hg Hd Hwf Hl Ht Hdirty Hr Hwake Hhash. run (LockBufHdr_quiet w Hq Hg v d Hd Hl).
  set (d1 := with_state (Z.lor (state d) BM_LOCKED) d). set (w1 := set_desc v d1 w).
  assert (desc_at w1 v d1) as Hd1 by (by apply (desc_at_set_eq w _ d)). run (deref_run w1 v d1 Hd1).
  assert (BUF_STATE_GET_REFCOUNT (Z.lor (state d) BM_LOCKED) = 1) as Hr1.
  { rewrite get_refcount by (by apply wf_locked). rewrite <- Hr, !refcount_field. by rewrite field_lor. }
  rewrite Hr1, !locked_flag, Ht, Hdirty, Hwake by done.
  rewrite !c_assert_ok by (done || by apply BufferTagsEqual_refl). cbn [Z.eqb Pos.eqb negb orb]. rewrite c_assert_ok by done.
  set (d2 := with_tag (ClearBufferTag (tag d1)) d1). set (w2 := set_desc v d2 w1).
  rewrite (bind_ret _ _ w1 tt w2) by done.
  assert (desc_at w2 v d2) as Hd2 by (by apply (desc_at_set_eq w1 _ d1)).
  run (UnlockBufHdrExt_quiet w2 Hq Hg v d2 0 blank_mask 0 Hd2 (flag_locked _)).
  change (state d2) with (Z.lor (state d) BM_LOCKED). rewrite unlock_clear by done.
  run (BufTableDelete_run (set_desc v (with_state (Z.ldiff (state d) blank_mask) d2) w2) (tag d) v Hhash).
  f_equal. unfold w2, w1, set_desc, upd_shm, dropped, redesc. cbn. by rewrite !insertZ_insertZ.
Qed.

Lemma InvalidateVictim_run m0 mu pins w v d :
  victim m0 mu pins w v d -> held_lwlocks m0 = [] -> flag (state d) BM_DIRTY = false -> flag (state d) BM_TAG_VALID = true ->
  exists w', InvalidateVictimBuffer v w = (Ret true, w') /\ victim m0 mu pins w' v (blank_desc d) /\ blank v (blank_desc d) /\
    seen (shm w) (shm w') /\ SharedBufHash (shm w') = delete (tag d) (SharedBufHash (shm w)) /\ mem w' = mem w /\
    only_desc v (shm w) (shm w').
Proof using Type*.
  intros [Hw Hmu Hd Hr Hi] Hl Hdirty Ht. pose proof (aw_desc _ _ _ _ _ _ _ _ _ _ _ _ Hw Hd) as Hok.
  pose proof (aw_range _ _ _ _ _ _ _ _ _ _ _ _ Hw Hd) as Hv.
  destruct (blank_desc_ok v d (do_id _ _ _ _ _ Hok) (do_wf _ _ _ _ _ Hok) Hi) as [Hbl Hbr].
  destruct (GetPrivateRefCount_spec w mu (v + 1)) as (m1 & Hrun1 & Htr); [apply Hw|lia|]. rewrite Hmu in Hrun1.
  pose proof (aw_track _ _ _ _ _ _ _ _ _ w m1 Hw Htr) as Hw1. set (w1 := with_me m1 w) in *.
  set (lock := BufMappingPartitionLock (BufTableHashCode tag_hash (tag d))).
  destruct (LWLockAcquire_run _ _ _ _ _ _ m0 mu (v + 1 :: pins) w1 lock LW_EXCLUSIVE Hw1 Hl) as (w2 & Hrun2 & Hs2 & _ & _ & Hw2).
  assert (desc_at w2 v d) as Hd2 by (unfold desc_at; by rewrite Hs2).
  assert (SharedBufHash (shm w2) !! tag d = Some v) as Hhash.
  { apply (pl_hash _ _ _ _ _ (aw_pool _ _ _ _ _ _ _ _ _ _ Hw2)). by exists d. }
  set (w3 := upd_shm (dropped v (tag d) (blank_desc d)) w2).
  assert (at_work (hold lock LW_EXCLUSIVE m0) mu (v + 1 :: pins) w3) as Hw3.
  { pose proof Hw2 as [B1 B2 B3 B4 B5 B6 B7 B8 B9 B10].
    apply (aw_change (hold lock LW_EXCLUSIVE m0) (hold lock LW_EXCLUSIVE m0) mu mu _ w2 (dropped v (tag d) (blank_desc d) (shm w2)) (me w2)); try done.
    - by eapply dropped_ok; [eapply aw_pool| | |].
    - by apply (redesc_counts v d). }
  destruct (LWLockRelease_run _ _ _ _ _ _ m0 mu (v + 1 :: pins) w3 lock LW_EXCLUSIVE Hw3 Hl) as (w4 & Hrun4 & Hs4 & _ & _ & Hw4);
    [by eapply aw_ready|].
  assert (desc_at w4 v (blank_desc d)) as Hd4.
  { unfold desc_at. rewrite Hs4. eapply lookupZ_insertZ_eq, lookupZ_Some, Hd2. }
  exists w4. split_and!.
  - unfold InvalidateVictimBuffer. run (GetBuffer_run w v d Hd). rewrite (do_id _ _ _ _ _ Hok). run Hrun1. cbn [data_refcount one_pin].
    rewrite c_assert_ok by done. run (deref_run w1 v d Hd). fold lock. run Hrun2.
    rewrite (drop_run w2 v d); try done;
      [|by eapply aw_quiet|by eapply aw_pos|apply Hok|apply Hok|apply Hi]. fold w3. run Hrun4.
    pose proof (read_quiet w4 (aw_quiet _ _ _ _ _ _ _ _ _ _ Hw4) _ _ Hd4) as Hread. run Hread.
    rewrite !flag_mask_or, (bl_dirty _ _ Hbl), (bl_valid _ _ Hbl), (bl_tagged _ _ Hbl), get_refcount, Hbr, Hr by apply Hbl.
    rewrite !c_assert_ok by done. run Hread. rewrite get_refcount, Hbr, Hr by apply Hbl. by rewrite c_assert_ok.
  - split; try done; [lia|apply Hbl].
  - done.
  - rewrite Hs4. change (shm w1) with (shm w) in Hs2. cbn. rewrite Hs2.
    eapply dropped_seen; try done. by eapply aw_pool.
  - rewrite Hs4. cbn. by rewrite Hs2.
  - unfold mem. rewrite Hs4. cbn. by rewrite Hs2.
  - rewrite Hs4. by eapply only_insert; cbn; rewrite Hs2.
Qed.
End victim.
