(* ===== verification/AllocRun.v ===== *)
(** * Allocating a shared buffer without interference

    [GetVictimBuffer] and [BufferAlloc], for every policy: the loop over victims
    ends, and the pool remains a cache of the same pages. *)
From S2P Require Import Prelude BufState BufTag Shmem Concurrency PrivateRefCount Ring Policy BufTable Strategy.
From S2P Require Import LocalBuf ContentLock LockWord LockProtocol LockRun Pin PinRun Reserved BufIO IORun.
From S2P Require Import Writeback Eviction PolicyQuiet Pool FlushRun EvictRun VictimRun.

Section alloc.
Context (same_page : relation Z) `{!Equivalence same_page} `{!Server} `{!ServerLaws same_page}.
Context (permanent : BufferTag -> bool).
Context (n : Z) (p : EvictionVtablePtr) (strategy : BufferAccessStrategy).
Context (others : Z -> Z).
Local Abbreviation pool := (pool_ok same_page PageGetLSN permanent n).
Local Abbreviation at_work := (at_work same_page permanent n p strategy others).
Local Abbreviation seen := (same_pages same_page).
Local Abbreviation same_cache := (same_cache same_page).
Local Abbreviation candidate := (candidate n p).
Local Abbreviation victim := (victim same_page permanent n p strategy others).
Local Abbreviation gave_up := (gave_up same_page permanent n p strategy others).
Local Abbreviation write_failed := (write_failed same_page permanent n).
Local Abbreviation live_slots := (live_slots strategy).

(** ** One round *)

(** The pages are the same, and so are the descriptors of the buffers that this
    backend has pinned. *)
Definition mine_kept (mu : gmap Z PrivateRefCountData) (s s' : Shared) : Prop :=
  BufferBlocks s' = BufferBlocks s /\ forall x d, mu !! (x + 1) <> None -> desc_of s x d ->
    exists d', desc_of s' x d' /\ same_flags d d' /\ refcount (state d') = refcount (state d).

Lemma mine_trans mu s1 s2 s3 : mine_kept mu s1 s2 -> mine_kept mu s2 s3 -> mine_kept mu s1 s3.
Proof using Type.
  intros [A1 A2] [B1 B2]. split; [congruence|]. intros x d Hx Hd. destruct (A2 x d Hx Hd) as (d1 & Hd1 & Hf1 & E1).
  destruct (B2 x d1 Hx Hd1) as (d2 & Hd2 & Hf2 & E2). exists d2. split; [done|]. split; [by eapply same_flags_trans|lia].
Qed.
Lemma mine_only mu v s s' : pool s -> mu !! (v + 1) = None -> only_desc v s s' -> mine_kept mu s s'.
Proof using Type.
  intros Hp Hv [A1 A2]. split; [done|]. intros x d Hx Hd. exists d. unfold desc_of in *. rewrite A2 by (by intros ->).
  split; [done|]. split; [|done]. by eapply same_flags_refl, (pl_desc _ _ _ _ _ Hp).
Qed.
Lemma mine_counted mu v s s' : mu !! (v + 1) = None -> recounted (bump v 1) s s' -> mine_kept mu s s'.
Proof using Type.
  intros Hv [R1 R2 R3 R4 R5 R6]. split; [done|]. intros x d Hx Hd. destruct (R2 x d Hd) as (d' & Hd' & Hf & E & _).
  exists d'. rewrite bump_ne in E by (by intros ->). split; [done|]. split; [done|lia].
Qed.

(** A pinned buffer without a block. *)
Record got_victim (m0 : Backend) (mu : gmap Z PrivateRefCountData) (pins : list Z) (w : World) (v : Z) (w' : World)
    : Prop := {
  gv_victim : exists d, victim m0 (<[v + 1 := one_pin]> mu) pins w' v d /\ blank v d;
  gv_new : mu !! (v + 1) = None;
  gv_seen : seen (shm w) (shm w');
  gv_hash : SharedBufHash (shm w') ⊆ SharedBufHash (shm w);
  gv_linked : still_linked n p v w w';
  gv_mine : mine_kept mu (shm w) (shm w')
}.

(** The pins decide which buffers are free. *)
Lemma unpinned_count m0 mu pins w x : at_work m0 mu pins w -> 0 <= x < n -> unpinned w x = (others x + held mu x =? 0).
Proof using Type.
  intros Hw Hx. destruct (aw_at _ _ _ _ _ _ _ _ _ _ x Hw Hx) as (d & Hd). rewrite (unpinned_at _ _ _ Hd).
  by rewrite (ps_count _ _ _ (aw_counts _ _ _ _ _ _ _ _ _ _ Hw) x d Hd).
Qed.
Lemma held_other mu v x e : x <> v -> held (<[v + 1 := e]> mu) x = held mu x.
Proof using Type. intros Hne. unfold held. by rewrite lookup_insert_ne by lia. Qed.

(** The policy knows of every free buffer that it knew of. *)
Definition kept_linked (w w' : World) : Prop := forall x,
  0 <= x < n -> unpinned w x = true -> pq_linked (p := p) n (mem w) x -> pq_linked (p := p) n (mem w') x.

Definition victim_round_post (m0 : Backend) (mu : gmap Z PrivateRefCountData) (pins : list Z) (w : World)
    (o : outcome (ctl unit Z)) (w' : World) : Prop :=
  match o with
  | Ret (Continue _) => gave_up m0 mu pins w w' /\ kept_linked w w' /\ mine_kept mu (shm w) (shm w')
  | Ret (Break b) => exists v, b = v + 1 /\ got_victim m0 mu pins w v w'
  | Elog _ => write_failed m0 (shm w) (shm w')
  | _ => False
  end.

Lemma victim_me m0 mu pins w v d m' :
  victim m0 mu pins w v d -> tracks (me w) m' mu -> victim m0 mu pins (with_me m' w) v d.
Proof using Type. intros [] Ht. split; try done. by apply aw_track. Qed.

(** The end of a round: the victim loses its block, if it has one. *)
Lemma claim_victim_run m0 mu pins w v d st :
  victim m0 mu pins w v d -> held_lwlocks m0 = [] -> flag (state d) BM_DIRTY = false ->
  flag st BM_TAG_VALID = flag (state d) BM_TAG_VALID ->
  exists w' d', claim_victim v (v + 1) st w = (Ret (Break (v + 1)), w') /\
    victim m0 mu pins w' v d' /\ blank v d' /\ seen (shm w) (shm w') /\ SharedBufHash (shm w') ⊆ SharedBufHash (shm w) /\
    mem w' = mem w /\ only_desc v (shm w) (shm w').
Proof using Type*.
  intros Hvi Hl Hdirty Hst.
  assert (exists w1 d1, (if flag st BM_TAG_VALID then InvalidateVictimBuffer v else ret true) w = (Ret true, w1) /\
    victim m0 mu pins w1 v d1 /\ blank v d1 /\ seen (shm w) (shm w1) /\ SharedBufHash (shm w1) ⊆ SharedBufHash (shm w) /\
    mem w1 = mem w /\ only_desc v (shm w) (shm w1)) as (w1 & d1 & Hrun & Hvi1 & Hbl & Hse & Hha & Hmem & Ho).
  { destruct (flag st BM_TAG_VALID) eqn:Et.
    - destruct (InvalidateVictim_run same_page permanent n p strategy others m0 mu pins w v d Hvi Hl Hdirty) as (w1 & H1 & H2 & H3 & H4 & H5 & H6 & H7); [done|].
      exists w1, (blank_desc d). split_and!; try done. rewrite H5. apply delete_subseteq.
    - exists w, d. destruct Hvi as [Hw Hmu Hd Hr Hi]. pose proof (aw_desc _ _ _ _ _ _ _ _ _ _ _ _ Hw Hd) as [D1 D2 D3 D4 D5 D6 D7 DJ D8].
      split_and!; try done. split; try done; [|by apply D7|by apply DJ]. destruct (flag (state d) BM_VALID); [|done]. by destruct (D5 eq_refl); congruence. }
  unfold claim_victim. run Hrun. cbn [negb]. pose proof Hvi1 as [Hw1 Hmu Hd1 Hr1 Hi1]. pose proof (aw_range _ _ _ _ _ _ _ _ _ _ _ _ Hw1 Hd1) as Hv.
  run (read_quiet w1 (aw_quiet _ _ _ _ _ _ _ _ _ _ Hw1) _ _ Hd1).
  rewrite !flag_mask_or, (bl_dirty _ _ Hbl), (bl_valid _ _ Hbl), (bl_tagged _ _ Hbl), get_refcount, Hr1 by apply Hbl.
  rewrite !c_assert_ok by done.
  destruct (pinned_once_run _ _ _ _ _ _ m0 mu (v + 1 :: pins) w1 v Hw1) as (m' & Hrun2 & Htr); [lia|done|].
  exists (with_me m' w1), d1. run Hrun2. split_and!; try done. by apply victim_me.
Qed.

Lemma chose_victim m0 mu pins w v st from_ring w' :
  at_work m0 mu pins w -> chose same_page permanent n p strategy others m0 mu pins w v st from_ring w' ->
  exists d, victim m0 (<[v + 1 := one_pin]> mu) pins w' v d /\ state d = st /\ same_cache (shm w) (shm w') /\
    still_linked n p v w w' /\ mine_kept mu (shm w) (shm w') /\ (from_ring = true -> live_slots (me w') = live_slots (me w)).
Proof using Equivalence0.
  intros Hw [C1 C2 C3 C4 (d & Hd & Hst & Hr & Hi) C6 C7]. exists d. split_and!; [|done| |done|by eapply mine_counted|].
  - split; try done; [apply lookup_insert_eq|by rewrite Hst].
  - apply (alike_cache same_page permanent n); [by eapply aw_pool|]. eapply recounted_alike; [by eapply aw_pool|done].
  - intros Hf. destruct (C6 Hf) as (h & r & Hstr & Hr1 & Hr2 & _). unfold VictimRun.live_slots. rewrite Hstr, Hr1, Hr2.
    by rewrite lookup_insert_eq.
Qed.

Lemma victim_round_run m0 mu pins w :
  at_work m0 mu pins w -> held_lwlocks m0 = [] -> ReservedRefCountSlot (me w) <> -1 -> candidate w ->
  wp (victim_round strategy tt) (victim_round_post m0 mu pins w) w.
Proof using Type*.
  intros Hw Hl Hres Hcand. unfold victim_round.
  destruct (StrategyGetBuffer_run _ _ _ _ _ _ _ _ _ _ Hw Hres Hcand) as (v & st & from_ring & w1 & Hrun1 & Hch).
  eapply wp_step; [run Hrun1; reflexivity|]. cbn beta iota.
  pose proof (ch_new _ _ _ _ _ _ _ _ _ _ _ _ _ _ Hch) as Hnew. pose proof (ch_home _ _ _ _ _ _ _ _ _ _ _ _ _ _ Hch) as Hm1.
  destruct (chose_victim m0 mu pins w v st from_ring w1 Hw Hch) as (d & Hvi1 & Hst & Hc1 & Hli1 & Hmi1 & Hring1). clear Hch.
  pose proof Hvi1 as [Hw1 Hmu Hd1 Hr1 Hi1]. pose proof (aw_range _ _ _ _ _ _ _ _ _ _ _ _ Hw1 Hd1) as Hv.
  pose proof (aw_desc _ _ _ _ _ _ _ _ _ _ _ _ Hw1 Hd1) as Hok.
  eapply wp_step; [run (GetBuffer_run w1 v d Hd1); reflexivity|]. rewrite (do_id _ _ _ _ _ Hok).
  destruct (pinned_once_run _ _ _ _ _ _ m0 _ (v + 1 :: pins) w1 v Hw1) as (m2 & Hrun2 & Htr2); [lia|done|].
  eapply wp_step; [run Hrun2; reflexivity|]. pose proof (victim_me _ _ _ _ _ _ _ Hvi1 Htr2) as Hvi2.
  assert (home (v + 1) m2) as Hm2 by exact (CheckOnce_home (v + 1) ltac:(lia) _ _ _ Hm1 Hrun2).
  assert (live_slots m2 = live_slots (me w1)) as Hring2 by (apply live_slots_rings, (fr_rings _ _ (proj2 Htr2))).
  assert (delete (v + 1) (<[v + 1 := one_pin]> mu) = mu) as Hdel by (by apply delete_insert_id).
  set (w2 := with_me m2 w1) in *. subst st.
  assert (forall d' st w3, victim m0 (<[v + 1 := one_pin]> mu) pins w3 v d' -> flag (state d') BM_DIRTY = false ->
    flag st BM_TAG_VALID = flag (state d') BM_TAG_VALID -> same_cache (shm w) (shm w3) -> mem w3 = mem w1 -> mine_kept mu (shm w) (shm w3) ->
    wp (claim_victim v (v + 1) st) (victim_round_post m0 mu pins w) w3) as Hend.
  { intros d' st w3 Hvi3 Hdirty Hst [Hse Hha] Hmem3 Hmi3.
    destruct (claim_victim_run m0 _ pins w3 v d' st Hvi3 Hl Hdirty Hst) as (w4 & d4 & Hrun & Hvi4 & Hbl & Hse4 & Hha4 & Hmem4 & Ho4).
    eapply wp_eq; [exact Hrun|]. cbn. exists v. split; [done|]. split; [by exists d4|done|by etrans|by rewrite <- Hha|..].
    - unfold still_linked in *. by rewrite Hmem4, Hmem3.
    - eapply mine_trans; [exact Hmi3|]. eapply (mine_only mu v); [by eapply aw_pool, (vi_work _ _ _ _ _ _ _ _ _ _ _ _ Hvi3)|done|done]. }
  destruct (flag (state d) BM_DIRTY) eqn:Hdirty.
  - apply wp_bind. eapply wp_mono; [|by apply (flush_victim_run same_page permanent n p strategy others m0 (<[v + 1 := one_pin]> mu) pins w2 v d from_ring)].
    intros [[st|]|e|e|] w3; cbn; try done.
    + intros (Ho3 & Hmem3 & Hst & Hc3 & d3 & Hvi3 & Hd3 & Ht3). apply (Hend d3); try done; [congruence|by eapply same_cache_trans|].
      eapply mine_trans; [exact Hmi1|]. eapply (mine_only mu v); [by eapply aw_pool|done|done].
    + intros (Hfrom & [G1 G2 G3 G4 G5] & [Hv3 Hli3] & Ho3). rewrite Hdel in G1. split; [split; try done|split].
      * rewrite <- (Hring1 Hfrom), <- Hring2. done.
      * by eapply same_cache_trans.
      * intros x Hx Hun Hl'. destruct (decide (x = v)) as [->|Hne]; [done|]. apply Hli3. by apply Hli1.
      * eapply mine_trans; [exact Hmi1|]. eapply (mine_only mu v); [by eapply aw_pool|done|done].
    + intros (? & ? & ?). split; [done|]. split; [done|]. etrans; [apply Hc1|done].
  - eapply wp_step; [by run (eq_refl (ret (Some (state d)) w2))|]. by apply (Hend d).
Qed.

(** ** The loop *)
Definition get_victim_post (m0 : Backend) (mu : gmap Z PrivateRefCountData) (pins : list Z) (w : World)
    (o : outcome Z) (w' : World) : Prop :=
  match o with
  | Ret b => exists v, b = v + 1 /\ got_victim m0 mu pins w v w'
  | Elog _ => write_failed m0 (shm w) (shm w')
  | _ => False
  end.

Lemma get_victim_weaken m0 mu pins w w1 o w' :
  same_cache (shm w) (shm w1) -> (forall x, 0 <= x < n -> unpinned w x = unpinned w1 x) -> kept_linked w w1 ->
  mine_kept mu (shm w) (shm w1) -> get_victim_post m0 mu pins w1 o w' -> get_victim_post m0 mu pins w o w'.
Proof using Equivalence0.
  intros [Hse Hha] Hun' Hk Hmi. destruct o as [b|e|e|]; cbn; try done.
  - intros (v & -> & [G1 G2 G3 G4 G5 G6]). exists v. split; [done|]. split; try done; [by etrans|by rewrite <- Hha| |by eapply mine_trans].
    intros x Hne Hx Hun Hl. apply G5; [done|done|by rewrite <- (Hun' x Hx)|by apply Hk].
  - intros (? & ? & ?). split; [done|]. split; [done|by etrans].
Qed.

(** [GetVictimBuffer] with at most so many rounds. *)
Definition GetVictimBuffer_within (rounds : nat) : M Z :=
  ReservePrivateRefCountEntry ;; iter_fuel rounds (victim_round strategy) tt.

Lemma GetVictim_within_run rounds m0 mu pins w :
  at_work m0 mu pins w -> held_lwlocks m0 = [] -> candidate w -> (live_slots (me w) < rounds)%nat ->
  wp (GetVictimBuffer_within rounds) (get_victim_post m0 mu pins w) w.
Proof using Type*.
  intros Hw Hl Hcand Hgas. destruct (Reserve_spec w mu) as (m1 & Hrun1 & Hinv1 & Hfr1 & Hres1 & _); [apply Hw|].
  unfold GetVictimBuffer_within. eapply wp_step; [run Hrun1; reflexivity|].
  assert (at_work m0 mu pins (with_me m1 w)) as Hw1 by (by apply aw_track).
  apply (wp_iter (fun k _ w' => at_work m0 mu pins w' /\ ReservedRefCountSlot (me w') <> -1 /\ candidate w' /\
    same_cache (shm w) (shm w') /\ kept_linked w w' /\ mine_kept mu (shm w) (shm w') /\ k = live_slots (me w'))) with (n := live_slots m1).
  - intros k [] w2 (Hw2 & Hres2 & Hcand2 & Hc2 & Hk2 & Hmi2 & ->).
    assert (forall x, 0 <= x < n -> unpinned w x = unpinned w2 x) as Hun2
      by (intros x Hx; by rewrite (unpinned_count _ _ _ _ _ Hw Hx), (unpinned_count _ _ _ _ _ Hw2 Hx)). eapply wp_mono; [|by apply (victim_round_run m0 mu pins)].
    intros [[[]|b]|e|e|] w3; cbn; try done.
    + intros ([G1 G2 G3 G4 G5] & Hk3 & Hmi3). exists (live_slots (me w3)). split; [done|].
      split_and!; try done; [by eapply same_cache_trans| |by eapply mine_trans].
      intros x Hx Hun Hl'. apply Hk3; [done|by rewrite <- Hun2|by apply Hk2].
    + intros (v & -> & Hgot). apply (get_victim_weaken m0 mu pins w w2 (Ret (v + 1)) w3 Hc2 Hun2 Hk2 Hmi2). by exists v.
    + by apply (get_victim_weaken m0 mu pins w w2 (Elog e) w3 Hc2 Hun2 Hk2 Hmi2).
  - by rewrite (live_slots_rings strategy _ _ (fr_rings _ _ Hfr1)).
  - split_and!; try done; [by intros x|]. split; [done|]. intros x d _ Hd. exists d. split; [done|]. split; [|done].
    by eapply same_flags_refl, (do_wf _ _ _ _ _ (aw_desc _ _ _ _ _ _ _ _ _ _ _ _ Hw Hd)).
Qed.

Lemma GetVictim_run m0 mu pins w :
  at_work m0 mu pins w -> held_lwlocks m0 = [] -> candidate w -> (live_slots (me w) < gas m0)%nat ->
  wp (GetVictimBuffer strategy) (get_victim_post m0 mu pins w) w.
Proof using Type*.
  intros Hw Hl Hcand Hgas. destruct (Reserve_spec w mu) as (m1 & Hrun1 & _ & Hfr1 & _ & _); [apply Hw|].
  apply (wp_step _ (GetVictimBuffer_within (gas m0)) _ _ w); [|by apply GetVictim_within_run].
  unfold GetVictimBuffer, GetVictimBuffer_within, bind. rewrite Hrun1. unfold forever. cbn. by rewrite (fr_gas _ _ Hfr1), (kp_gas _ _ (aw_keeps _ _ _ _ _ _ _ _ _ _ Hw)).
Qed.

(** ** The victim becomes the buffer of a block *)
Definition enter_bits (perm : bool) : Z :=
  if perm then Z.lor (Z.lor BM_TAG_VALID BUF_USAGECOUNT_ONE) BM_PERMANENT else Z.lor BM_TAG_VALID BUF_USAGECOUNT_ONE.
Definition entered_desc (t : BufferTag) (perm : bool) (d : BufferDesc) : BufferDesc :=
  with_state (unlock_word (Z.lor (state d) BM_LOCKED) (enter_bits perm) 0 0) (with_tag t d).

Lemma entered_desc_ok v t d :
  blank v d -> fresh_for permanent v t (entered_desc t (permanent t) d) /\
    refcount (state (entered_desc t (permanent t) d)) = refcount (state d).
Proof using Type.
  intros [B1 B2 B3 B4 B5 B6 B7 BJ [I1 I2 I3 I4 I5 I6]]. set (perm := permanent t).
  assert (state (entered_desc t perm d) = unlock_word (Z.lor (state d) BM_LOCKED) (enter_bits perm) 0 0) as Es by done.
  assert (wf_state (enter_bits perm)) as Hset by (by destruct perm).
  assert (forall G k `{!IsBit G k}, flag BM_LOCKED G = false -> flag (state d) G = false ->
    flag (state (entered_desc t perm d)) G = flag (enter_bits perm) G) as Hf.
  { intros G k ? Hg Hd. rewrite Es, unlock_ext_flag by done. by rewrite Hd, (flag_0 (G := G)), andb_true_r. }
  split.
  - split; try done.
    + rewrite Es. by apply wf_unlock_ext.
    + rewrite Es, unlock_ext_word by done. by flags.
    + erewrite Hf by done. by destruct perm.
    + erewrite Hf by done. by destruct perm.
    + erewrite Hf by done. by destruct perm.
    + erewrite Hf by done. change (permanent t) with perm. by destruct perm.
    + split; [|erewrite Hf by done; by destruct perm..|done].
      rewrite <- I1. unfold lock_field. rewrite Es. apply unlock_ext_field; try done. by destruct perm.
  - rewrite Es, !refcount_field. apply unlock_ext_field; try done. by destruct perm.
Qed.

Lemma BufTableInsert_run w t v :
  0 <= v -> blockNum t <> P_NEW -> SharedBufHash (shm w) !! t = None ->
  Z.of_nat (size (SharedBufHash (shm w))) < NBuffers (me w) + NUM_BUFFER_PARTITIONS ->
  BufTableInsert tag_hash t (BufTableHashCode tag_hash t) v w =
    (Ret (-1), upd_shm (fun s => with_SharedBufHash (<[t := v]> (SharedBufHash s)) s) w).
Proof using Type.
  intros Hv Hb Ht Hs. unfold BufTableInsert, own_code. rewrite !c_assert_ok;
    [|apply Z.eqb_refl|by rewrite (proj2 (Z.eqb_neq _ _) Hb)|by apply Z.leb_le].
  unfold bind, get_me, gets. by rewrite Ht, (proj2 (Z.ltb_lt _ _) Hs).
Qed.

Lemma enter_run w v t d :
  quiet w -> (0 < gas (me w))%nat -> desc_at w v d -> blank v d -> refcount (state d) = 1 ->
  enter_victim v t (permanent t) w = (Ret tt, upd_shm (redesc v (entered_desc t (permanent t) d)) w).
Proof using Type.
  intros Hq Hg Hd [B1 B2 B3 B4 B5 B6 B7 BJ [I1 I2 I3 I4 I5 I6]] Hr. unfold enter_victim.
  run (LockBufHdr_quiet w Hq Hg v d Hd B3).
  set (d1 := with_state (Z.lor (state d) BM_LOCKED) d). set (w1 := set_desc v d1 w).
  assert (desc_at w1 v d1) as Hd1 by (by apply (desc_at_set_eq w _ d)).
  rewrite get_refcount, locked_refcount, Hr by (by apply wf_locked).
  rewrite !flag_mask_or, !locked_flag, B4, B5, B6, I2 by done. rewrite !c_assert_ok by done. run (deref_run w1 v d1 Hd1).
  set (d2 := with_tag t d1). set (w2 := set_desc v d2 w1). rewrite (bind_ret _ _ w1 tt w2) by done.
  assert (desc_at w2 v d2) as Hd2 by (by apply (desc_at_set_eq w1 _ d1)). fold (enter_bits (permanent t)).
  run (UnlockBufHdrExt_quiet w2 Hq Hg v d2 (enter_bits (permanent t)) 0 0 Hd2 (flag_locked _)).
  unfold ret. f_equal. unfold w2, w1, set_desc, upd_shm, redesc. cbn. by rewrite !insertZ_insertZ.
Qed.

(** The steps that give it the block [t], which has no buffer. *)
Record adopted (m0 : Backend) (mu : gmap Z PrivateRefCountData) (pins : list Z) (w : World) (v : Z) (d : BufferDesc) (t : BufferTag)
    (w' : World) : Prop := {
  ad_work : at_work m0 mu pins w';
  ad_desc : desc_at w' v (entered_desc t (permanent t) d);
  ad_seen : seen (shm w) (shm w');
  ad_hash : SharedBufHash (shm w') = <[t := v]> (SharedBufHash (shm w));
  ad_linked : pq_linked (p := p) n (mem w') v;
  ad_known : forall x, pq_linked (p := p) n (mem w) x -> pq_linked (p := p) n (mem w') x;
  ad_others : only_desc v (shm w) (shm w')
}.

Lemma adopt_parts m0 mu pins w v d t :
  at_work m0 mu pins w -> desc_at w v d -> refcount (state d) = 1 -> blank v d -> held_lwlocks m0 = [] ->
  SharedBufHash (shm w) !! t = None -> blockNum t <> P_NEW ->
  let lock := BufMappingPartitionLock (BufTableHashCode tag_hash t) in
  exists w1 w2 w4 w', LWLockAcquire lock LW_EXCLUSIVE w = (Ret tt, w1) /\ desc_at w1 v d /\
    BufTableInsert tag_hash t (BufTableHashCode tag_hash t) v w1 = (Ret (-1), w2) /\
    quiet w2 /\ (0 < gas (me w2))%nat /\ desc_at w2 v d /\
    LWLockRelease lock (upd_shm (redesc v (entered_desc t (permanent t) d)) w2) = (Ret tt, w4) /\
    StrategyNotifyInsert v w4 = (Ret tt, w') /\ adopted m0 mu pins w v d t w'.
Proof using Type*.
  intros Hw Hd Hr Hbl Hl Hnew Hb lock. pose proof (aw_range _ _ _ _ _ _ _ _ _ _ _ _ Hw Hd) as Hv.
  destruct (entered_desc_ok v t d Hbl) as [Hfr Hr']. set (d' := entered_desc t (permanent t) d) in *.
  destruct (LWLockAcquire_run _ _ _ _ _ _ m0 mu pins w lock LW_EXCLUSIVE Hw Hl) as (w1 & Hrun1 & Hs1 & _ & _ & Hw1).
  assert (desc_at w1 v d) as Hd1 by (unfold desc_at; by rewrite Hs1).
  set (w2 := upd_shm (fun s => with_SharedBufHash (<[t := v]> (SharedBufHash s)) s) w1).
  assert (BufTableInsert tag_hash t (BufTableHashCode tag_hash t) v w1 = (Ret (-1), w2)) as Hrun2.
  { apply BufTableInsert_run; [lia|done|by rewrite Hs1|]. rewrite (aw_n _ _ _ _ _ _ _ _ _ _ Hw1).
    pose proof (table_size _ _ _ _ _ (aw_pool _ _ _ _ _ _ _ _ _ _ Hw1)). change NUM_BUFFER_PARTITIONS with 128. lia. }
  set (w3 := upd_shm (entered v t d') w1). assert (pool (shm w1)) as Hpool1 by (by eapply aw_pool).
  assert (at_work (hold lock LW_EXCLUSIVE m0) mu pins w3) as Hw3.
  { pose proof Hw1 as [B1 B2 B3 B4 B5 B6 B7 B8 B9 B10].
    apply (aw_change _ _ _ _ _ _ (hold lock LW_EXCLUSIVE m0) (hold lock LW_EXCLUSIVE m0) mu mu _ w1 (entered v t d' (shm w1)) (me w1)); try done.
    - eapply entered_ok; try done; [apply Hbl|by rewrite Hs1].
    - by apply (redesc_counts v d). }
  destruct (LWLockRelease_run _ _ _ _ _ _ m0 mu pins w3 lock LW_EXCLUSIVE Hw3 Hl) as (w4 & Hrun4 & Hs4 & _ & _ & Hw4);
    [by eapply aw_ready|].
  destruct (NotifyInsert_run _ _ _ _ _ _ _ _ _ w4 v Hw4 Hv) as (m5 & Hrun5 & Hw5 & Hlink & Hknown).
  exists w1, w2, w4, (with_mem m5 w4). split_and!; try done; [by eapply (aw_quiet _ _ _ _ _ _ _ _ _ w1)|by eapply (aw_pos _ _ _ _ _ _ _ _ _ w1)|].
  split; try done.
  - change (desc_at w4 v d'). unfold desc_at. rewrite Hs4. eapply lookupZ_insertZ_eq, lookupZ_Some, Hd1.
  - intros t'. change (page_seen (shm (with_mem m5 w4)) t') with (page_seen (shm w4) t'). rewrite Hs4.
    change (shm w3) with (entered v t d' (shm w1)). erewrite entered_seen; try done;
      [rewrite Hs1; by apply reflexivity|apply Hbl|by rewrite Hs1].
  - change (SharedBufHash (shm w4) = <[t:=v]> (SharedBufHash (shm w))). by rewrite Hs4, <- Hs1.
  - intros x Hx. apply Hknown. unfold mem. rewrite Hs4. cbn. by rewrite Hs1.
  - by eapply (only_insert v d' (shm w) (shm (with_mem m5 w4))); cbn; rewrite Hs4; cbn; rewrite Hs1.
Qed.

Lemma adopt_run m0 mu pins w v d t :
  victim m0 mu pins w v d -> blank v d -> held_lwlocks m0 = [] -> SharedBufHash (shm w) !! t = None -> blockNum t <> P_NEW ->
  let d' := entered_desc t (permanent t) d in
  exists w', adopt_victim v t (BufTableHashCode tag_hash t) (permanent t) strategy w = (Ret (v, false), w') /\
    victim m0 mu pins w' v d' /\ seen (shm w) (shm w') /\ SharedBufHash (shm w') = <[t := v]> (SharedBufHash (shm w)) /\
    pq_linked (p := p) n (mem w') v.
Proof using Type*.
  intros [Hw Hmu Hd Hr Hi] Hbl Hl Hnew Hb d'. destruct (entered_desc_ok v t d Hbl) as [Hfr Hr'].
  destruct (adopt_parts m0 mu _ w v d t Hw Hd Hr Hbl Hl Hnew Hb) as
    (w1 & w2 & w4 & w' & Hrun1 & Hd1 & Hrun2 & Hq2 & Hg2 & Hd2 & Hrun4 & Hrun5 & [A1 A2 A3 A4 A5 _ _]).
  exists w'. split_and!; try done.
  - unfold adopt_victim. run Hrun1. run (deref_run w1 v d Hd1). rewrite (bl_id _ _ Hbl). run Hrun2. cbn [Z.leb Z.compare].
    run (enter_run w2 v t d Hq2 Hg2 Hd2 Hbl Hr). run Hrun4. by run Hrun5.
  - split; try done; [exact (eq_trans Hr' Hr)|apply Hfr].
Qed.

(** ** A hit *)
Definition more_pins (e : option PrivateRefCountData) : PrivateRefCountData :=
  match e with
  | Some e => mkRefData (data_refcount e + 1) (data_lockmode e)
  | None => one_pin
  end.

Lemma pin_run m0 mu pins w v d :
  at_work m0 mu pins w -> ReservedRefCountSlot (me w) <> -1 -> desc_at w v d ->
  (forall e, mu !! (v + 1) = Some e -> 0 < data_refcount e < 2 ^ 31 - 1) ->
  exists w' d', PinBuffer v strategy false w = (Ret (flag (state d) BM_VALID), w') /\
    at_work m0 (<[v + 1 := more_pins (mu !! (v + 1))]> mu) (v + 1 :: pins) w' /\ desc_at w' v d' /\ same_flags d d' /\
    0 < refcount (state d') /\ pool_alike (shm w) (shm w') /\ mem w' = mem w.
Proof using Type.
  intros Hw Hres Hd He. pose proof (aw_desc _ _ _ _ _ _ _ _ _ _ _ _ Hw Hd) as Hok.
  pose proof (aw_range _ _ _ _ _ _ _ _ _ _ _ _ Hw Hd) as Hv. pose proof (aw_pool _ _ _ _ _ _ _ _ _ _ Hw) as Hpool.
  pose proof Hw as [A1 A2 A3 A4 A5 A6 A7 [S1 S2 S3 S4] A9 A10]. destruct (mu !! (v + 1)) as [e|] eqn:Hmu; cbn [more_pins].
  - destruct (PinBuffer_again_run mu w v strategy false d e) as (m' & Hrun & Hinv & Hfr); [|apply Hok|done|by apply He|].
    { split; try done; [by eapply aw_pos|lia|apply Hok]. }
    exists (with_me m' w), d. split_and!; try done; [|by apply same_flags_refl, Hok| |by eapply pool_alike_refl].
    + split; try done; cbn.
      * etrans; [exact A3|]. destruct Hfr. by split.
      * rewrite (fr_pins _ _ Hfr). cbn. congruence.
      * by rewrite (fr_backend_wb _ _ Hfr).
      * destruct strategy; [|done]. cbn in *. by rewrite (fr_rings _ _ Hfr).
      * destruct A9 as [C1 C2]. split; [|done]. intros x dx Hx. rewrite (C1 x dx Hx). f_equal. unfold held.
        destruct (decide (x = v)) as [->|]; [by rewrite Hmu, lookup_insert_eq|by rewrite lookup_insert_ne by lia].
      * by rewrite (fr_faults _ _ Hfr).
    + destruct (decide (refcount (state d) = 0)) as [E|E]; [|pose proof (refcount_range (state d)); lia].
      pose proof (ps_free _ _ _ v d A9 Hd E). congruence.
  - destruct (PinBuffer_first_run w v strategy false d) as (m' & Hrun & Htr); try done; [by eapply aw_pos|lia|apply Hok..| |].
    { split; [by exists mu|done]. }
    destruct (pin_state_spec strategy (state d)) as (Hwf & Hr & _ & Hf); [apply Hok|by apply (ps_room others _ _ v d A9)|].
    set (s' := pin_state strategy (state d)) in *. set (d' := with_state s' d) in *.
    assert (same_flags d d') as Hsf by (by split_and!).
    assert (recounted (bump v 1) (shm w) (redesc v d' (shm w))) as Hrc by (by eapply recounted_redesc).
    assert (pool_alike (shm w) (redesc v d' (shm w))) as Hal by (by eapply recounted_alike).
    assert (with_rings (rings (me w)) (me w) = me w) as Em by (by destruct (me w)).
    exists (with_me m' (set_desc v d' w)), d'. split_and!; try done.
    + rewrite Hrun. do 2 f_equal. by apply quot22_flag.
    + eapply (aw_tracked _ _ _ _ _ _ m0 mu pins w (with_me m' (set_desc v d' w)) v (rings (me w))); rewrite ?Em; try done.
      split; try done. by eapply pool_alike_ok.
    + by apply (desc_at_set_eq w _ d).
    + change (0 < refcount s'). pose proof (refcount_range (state d)). lia.
Qed.

(** ** [BufferAlloc] *)
Record allocated (m0 : Backend) (mu : gmap Z PrivateRefCountData) (pins : list Z) (w : World) (t : BufferTag)
    (v : Z) (found : bool) (w' : World) : Prop := {
  (** The pool, the policy and the bookkeeping are in order, with one pin more. *)
  ac_work : at_work m0 (<[v + 1 := more_pins (mu !! (v + 1))]> mu) (v + 1 :: pins) w';
  (** The buffer is the one of the block. *)
  ac_desc : exists d, desc_at w' v d /\ tag d = t /\ flag (state d) BM_TAG_VALID = true /\
    flag (state d) BM_VALID = found /\ 0 < refcount (state d) /\
    (others v = 0 -> mu !! (v + 1) = None -> idle d);
  (** If it is valid it has the page that a reader of the block is to see. *)
  ac_page : found = true -> lookupZ (BufferBlocks (shm w')) v = page_seen (shm w') t;
  (** No block reads differently. *)
  ac_seen : seen (shm w) (shm w');
  (** A block that had a buffer keeps it and the policy loses track of none; another
      one gets a buffer that nobody else has pinned and the policy knows of. *)
  ac_buffer : match SharedBufHash (shm w) !! t with
              | Some i => v = i /\ forall x, pq_linked (p := p) n (mem w) x -> pq_linked (p := p) n (mem w') x
              | None => found = false /\ pq_linked (p := p) n (mem w') v /\ mu !! (v + 1) = None /\ others v = 0
              end;
  (** It is reported as found if it was there with its page. *)
  ac_found : found = true <-> is_Some (cached (shm w) t)
}.

Definition alloc_post (m0 : Backend) (mu : gmap Z PrivateRefCountData) (pins : list Z) (w : World) (t : BufferTag)
    (o : outcome (Z * bool)) (w' : World) : Prop :=
  match o with
  | Ret (v, found) => allocated m0 mu pins w t v found w'
  | Elog _ => write_failed m0 (shm w) (shm w')
  | _ => False
  end.

Lemma valid_page s v d t :
  pool s -> desc_of s v d -> tag d = t -> flag (state d) BM_TAG_VALID = true -> flag (state d) BM_VALID = true ->
  lookupZ (BufferBlocks s) v = page_seen s t.
Proof using Type.
  intros Hp Hd <- Ht Hv. assert (SharedBufHash s !! tag d = Some v) as Hh by (apply (pl_hash _ _ _ _ _ Hp); eauto).
  destruct (do_valid _ _ _ _ _ (pl_desc _ _ _ _ _ Hp v d Hd) Hv) as (_ & x & f & Hx & _).
  unfold page_seen, cached. unfold desc_of in Hd. by rewrite Hh, Hd, Hv, Hx.
Qed.

Lemma hit_run m0 mu pins w v d t lock :
  at_work (hold lock LW_SHARED m0) mu pins w -> backend_ready n p m0 -> held_lwlocks m0 = [] ->
  ReservedRefCountSlot (me w) <> -1 -> SharedBufHash (shm w) !! t = Some v -> desc_at w v d -> tag d = t ->
  flag (state d) BM_TAG_VALID = true -> (forall e, mu !! (v + 1) = Some e -> 0 < data_refcount e < 2 ^ 31 - 1) ->
  wp (let* valid := PinBuffer v strategy false in
      LWLockRelease lock ;; when valid (StrategyNotifyHit v) ;; ret (v, valid)) (alloc_post m0 mu pins w t) w.
Proof using Type*.
  intros Hw Hrd Hl Hres Hh Hd Ht Htv He. pose proof (aw_range _ _ _ _ _ _ _ _ _ _ _ _ Hw Hd) as Hv.
  destruct (pin_run _ mu pins w v d Hw Hres Hd He) as (w1 & d1 & Hrun1 & Hw1 & Hd1 & Hsf & Hr1 & Hal1 & Hmem1).
  eapply wp_step; [run Hrun1; reflexivity|].
  destruct (LWLockRelease_run _ _ _ _ _ _ m0 _ (v + 1 :: pins) w1 lock LW_SHARED Hw1 Hl Hrd) as (w2 & Hrun2 & Hs2 & _ & _ & Hw2).
  eapply wp_step; [run Hrun2; reflexivity|]. pose proof (same_flags_alike _ _ Hsf) as Ha.
  destruct (alike_cache same_page permanent n _ _ (aw_pool _ _ _ _ _ _ _ _ _ _ Hw) Hal1) as [Hse _].
  assert (desc_at w2 v d1) as Hd2 by (unfold desc_at; by rewrite Hs2).
  assert (exists m3, when (flag (state d) BM_VALID) (StrategyNotifyHit v) w2 = (Ret tt, with_mem m3 w2) /\
    at_work m0 (<[v + 1 := more_pins (mu !! (v + 1))]> mu) (v + 1 :: pins) (with_mem m3 w2) /\
    forall x, pq_linked (p := p) n (mem w2) x -> pq_linked (p := p) n m3 x) as (m3 & Hrun3 & Hw3 & Hlk3).
  { destruct (flag (state d) BM_VALID); [by apply (NotifyHit_run _ _ _ _ _ _ m0 _ (v + 1 :: pins) w2 v Hw2)|].
    exists (mem w2). assert (with_mem (mem w2) w2 = w2) as -> by (by destruct w2 as [[] ? ?]). done. }
  eapply wp_step; [run Hrun3; reflexivity|]. eapply wp_eq; [done|]. split.
  - done.
  - exists d1. split_and!; [done|by rewrite (al_tag _ _ Ha)|by rewrite (al_tagged _ _ Ha)|by rewrite (al_valid _ _ Ha)|done|].
    intros Ho Hmu. eapply same_flags_idle; [exact Hsf|]. apply (aw_desc _ _ _ _ _ _ _ _ _ _ _ _ Hw Hd).
    rewrite (ps_count _ _ _ (aw_counts _ _ _ _ _ _ _ _ _ _ Hw) v d Hd), Ho. unfold held. by rewrite Hmu.
  - intros Hvalid. eapply (valid_page _ v d1); [by eapply aw_pool|done|by rewrite (al_tag _ _ Ha)|..].
    + by rewrite (al_tagged _ _ Ha).
    + by rewrite (al_valid _ _ Ha).
  - intros t'. change (page_seen (shm (with_mem m3 w2)) t') with (page_seen (shm w2) t'). rewrite Hs2. apply Hse.
  - rewrite Hh. split; [done|]. intros x Hx. apply Hlk3. unfold mem in *. by rewrite Hs2, Hmem1.
  - pose proof (aw_desc _ _ _ _ _ _ _ _ _ _ _ _ Hw Hd) as Hok. unfold cached. unfold desc_at in Hd. rewrite Hh, Hd.
    destruct (flag (state d) BM_VALID) eqn:E; [|by split; [done|intros [? ?]]].
    destruct (do_valid _ _ _ _ _ Hok E) as (_ & x & f & -> & _). by split.
Qed.

Lemma miss_run m0 mu pins w t :
  at_work m0 mu pins w -> held_lwlocks m0 = [] -> candidate w -> (live_slots (me w) < gas m0)%nat ->
  SharedBufHash (shm w) !! t = None -> blockNum t <> P_NEW ->
  wp (let* victim_buffer := GetVictimBuffer strategy in
      adopt_victim (GetBufferDescriptor (victim_buffer - 1)) t (BufTableHashCode tag_hash t) (permanent t) strategy)
    (alloc_post m0 mu pins w t) w.
Proof using Type*.
  intros Hw Hl Hcand Hgas Hnew Hb. apply wp_bind. eapply wp_mono; [|by apply GetVictim_run].
  intros [b|e|e|] w1; try done. intros (v & -> & [(d & Hvi & Hbl) Hmu Hse Hha]). unfold bind_post, GetBufferDescriptor.
  replace (v + 1 - 1) with v by lia.
  assert (SharedBufHash (shm w1) !! t = None) as Hnew1 by (by eapply lookup_weaken_None).
  destruct (adopt_run m0 _ pins w1 v d t Hvi Hbl Hl Hnew1 Hb) as (w2 & Hrun & [V1 V2 V3 V4 V5] & Hse2 & Hha2 & Hlink).
  destruct (entered_desc_ok v t d Hbl) as [[F1 F2 F3 F4 F5 F6 F7 F8 F9] _].
  eapply wp_eq; [exact Hrun|]. split.
  - by rewrite Hmu.
  - eexists. split; [exact V3|]. split_and!; try done. lia.
  - done.
  - by etrans.
  - rewrite Hnew. split_and!; [done|done|done|]. pose proof (ps_count _ _ _ (aw_counts _ _ _ _ _ _ _ _ _ _ V1) v _ V3) as Hc.
    unfold held in Hc. rewrite V2 in Hc. lia.
  - unfold cached. rewrite Hnew. split; [done|by intros [? ?]].
Qed.

(** The allocation of a buffer for a block, for any policy and any access strategy:
    the state it needs. *)
Record alloc_ready (m0 : Backend) (mu : gmap Z PrivateRefCountData) (pins : list Z) (w : World) (t : BufferTag) : Prop := {
  ar_work : at_work m0 mu pins w;
  ar_locks : held_lwlocks m0 = [];
  ar_candidate : SharedBufHash (shm w) !! t = None -> candidate w;
  ar_gas : (live_slots (me w) < gas m0)%nat;
  ar_pins : forall b e, mu !! b = Some e -> 0 < data_refcount e < 2 ^ 31 - 1
}.

Lemma BufferAlloc_run m0 mu pins w smgr relpersistence forkNum blockNum :
  let t := InitBufferTag (mkBufferTag 0 0 0 0 0) smgr forkNum blockNum in
  alloc_ready m0 mu pins w t -> blockNum <> P_NEW ->
  permanent t = bool_decide (relpersistence = RELPERSISTENCE_PERMANENT) || (forkNum =? INIT_FORKNUM) ->
  wp (BufferAlloc smgr relpersistence forkNum blockNum strategy) (alloc_post m0 mu pins w t) w.
Proof using Type*.
  intros t [Hw Hl Hcand Hgas Hpins] Hb Hperm. unfold BufferAlloc. fold t. rewrite <- Hperm.
  set (lock := BufMappingPartitionLock (BufTableHashCode tag_hash t)).
  destruct (Reserve_spec w mu) as (m1 & Hrun1 & Hinv1 & Hfr1 & Hres1 & _); [apply Hw|].
  eapply wp_step; [run Hrun1; reflexivity|].
  assert (at_work m0 mu pins (with_me m1 w)) as Hw1 by (by apply aw_track). set (w1 := with_me m1 w) in *.
  destruct (LWLockAcquire_run _ _ _ _ _ _ _ _ _ w1 lock LW_SHARED Hw1 Hl) as (w2 & Hrun2 & Hs2 & Hr2 & Hres2 & Hw2).
  eapply wp_step; [run Hrun2; run (BufTableLookup_run w2 t); reflexivity|]. rewrite Hs2. change (shm w1) with (shm w) in *.
  pose proof (aw_ready _ _ _ _ _ _ _ _ _ _ Hw) as Hrd.
  destruct (SharedBufHash (shm w) !! t) as [i|] eqn:Hh; cbn [default from_option id].
  - destruct (proj1 (pl_hash _ _ _ _ _ (aw_pool _ _ _ _ _ _ _ _ _ _ Hw) t i) Hh) as (d & Hd & Htv & Ht).
    assert (desc_at w2 i d) as Hd2 by (unfold desc_at; by rewrite Hs2).
    pose proof (aw_range _ _ _ _ _ _ _ _ _ _ _ _ Hw2 Hd2) as Hi. rewrite (proj2 (Z.leb_le 0 i)) by lia.
    eapply wp_mono; [|eapply (hit_run m0 mu pins w2 i d t lock)]; try done; [|by rewrite Hres2|by rewrite Hs2|by apply Hpins].
    intros [[v found]|e|e|] w3; cbn; try done; rewrite ?Hs2; [|done].
    intros [G1 G2 G3 G4 G5 G6]. unfold mem in G5. rewrite Hs2 in G4, G5, G6. by split.
  - rewrite (proj2 (Z.leb_gt 0 (-1))) by lia.
    destruct (LWLockRelease_run _ _ _ _ _ _ _ _ _ w2 lock LW_SHARED Hw2 Hl Hrd) as (w3 & Hrun3 & Hs3 & Hr3 & _ & Hw3).
    eapply wp_step; [run Hrun3; reflexivity|]. assert (shm w3 = shm w) as Es by congruence.
    eapply wp_mono; [|apply (miss_run m0 mu pins w3 t)]; try done.
    + intros [[v found]|e|e|] w4; cbn; try done; rewrite ?Es; [|done].
      intros [G1 G2 G3 G4 G5 G6]. unfold mem in G5. rewrite Es in G4, G5, G6. by split.
    + destruct (Hcand eq_refl) as (x & Hx & Hxr & Hun). exists x. unfold mem, unpinned, desc_is in *. by rewrite Es.
    + rewrite (live_slots_rings strategy (me w) (me w3)); [done|]. rewrite Hr3, Hr2. exact (fr_rings _ _ Hfr1).
    + by rewrite Es.
Qed.
End alloc.
