(* ===== verification/DropRun.v ===== *)
(** * Forgetting buffers, exactly

    What [InvalidateBuffer] and the functions that drop the buffers of relations
    and databases do to the pool: the blocks that are to go lose their buffers,
    dirty pages with them, and every other block keeps its buffer and its page. *)
From S2P Require Import Prelude BufState BufTag Shmem Concurrency PrivateRefCount Ring Policy BufTable Strategy LockWord.
From S2P Require Import PinRun BufIO IORun Writeback Eviction DropFlush PolicyQuiet Pool EvictRun VictimRun.

(** ** The pool without some of its buffers *)
Definition forget (v : Z) (d : BufferDesc) (s : Shared) : Shared :=
  if flag (state d) BM_TAG_VALID then dropped v (tag d) (blank_desc d) s else redesc v (blank_desc d) s.

(** The buffers [vs] have no blocks any more, the others are as they were. *)
Record forgotten (vs : list Z) (s s' : Shared) : Prop := {
  fg_desc : forall i d, desc_of s i d -> desc_of s' i (if bool_decide (i ∈ vs) then blank_desc d else d);
  fg_len : length (BufferDescriptors s') = length (BufferDescriptors s);
  fg_hash : forall t, SharedBufHash s' !! t =
    SharedBufHash s !! t ≫= fun i => if bool_decide (i ∈ vs) then None else Some i;
  fg_blocks : BufferBlocks s' = BufferBlocks s;
  fg_disk : smgr_disk s' = smgr_disk s;
  fg_wal : wal_flushed s' = wal_flushed s;
  fg_control : StrategyControl s' = StrategyControl s
}.

Lemma forgotten_nil s m : forgotten [] s (with_policy_mem m s).
Proof. split; try done. intros t. cbn. by destruct (SharedBufHash s !! t). Qed.

Section forget.
Context (same_page : relation Z) `{!Equivalence same_page} (PageGetLSN : Z -> Z) (permanent : BufferTag -> bool) (n : Z).
Local Abbreviation pool := (pool_ok same_page PageGetLSN permanent n).

Lemma forgotten_step vs s s1 v d m :
  pool s -> forgotten vs s s1 -> desc_of s v d -> (v ∉ vs) -> forgotten (v :: vs) s (with_policy_mem m (forget v d s1)).
Proof using Type.
  intros Hp [F1 F2 F3 F4 F5 F6 F7] Hd Hv. pose proof (F1 v d Hd) as Hd1. rewrite bool_decide_false in Hd1 by done.
  assert (forall t, SharedBufHash s !! t = Some v <-> flag (state d) BM_TAG_VALID = true /\ tag d = t) as Hhash.
  { intros t. rewrite (pl_hash _ _ _ _ _ Hp). split; [|by eauto]. intros (x & Hx & H). unfold desc_of in *. by simplify_eq. }
  split; try (unfold forget; by case_match).
  - intros i x Hx. assert (desc_of (redesc v (blank_desc d) s1) i (if bool_decide (i ∈ v :: vs) then blank_desc x else x)) as H.
    { apply (desc_of_redesc v _ s1 i _ d Hd1). destruct (decide (i = v)) as [->|Hne].
      - left. unfold desc_of in *. simplify_eq. rewrite bool_decide_true by apply list_elem_of_here. done.
      - right. split; [done|]. rewrite (bool_decide_ext (i ∈ v :: vs) (i ∈ vs)) by (rewrite elem_of_cons; tauto). by apply F1. }
    unfold forget. by destruct (flag (state d) BM_TAG_VALID).
  - unfold forget. rewrite <- F2. case_match; apply length_insertZ.
  - intros t. assert ((SharedBufHash s1 !! t ≫= fun i => if bool_decide (i = v) then None else Some i) =
      SharedBufHash s !! t ≫= fun i => if bool_decide (i ∈ v :: vs) then None else Some i) as <-.
    { rewrite F3. destruct (SharedBufHash s !! t) as [i|]; [|done]. cbn.
      rewrite (bool_decide_ext (i ∈ v :: vs) (i = v \/ i ∈ vs)) by apply elem_of_cons.
      destruct (decide (i ∈ vs)), (decide (i = v)); rewrite ?bool_decide_true, ?bool_decide_false by tauto; cbn;
        rewrite ?bool_decide_true, ?bool_decide_false by tauto; done. }
    unfold forget. destruct (flag (state d) BM_TAG_VALID) eqn:Ht; cbn.
    + destruct (decide (t = tag d)) as [->|Hne].
      * rewrite lookup_delete_eq, F3. rewrite (proj2 (Hhash (tag d))) by done. cbn.
        rewrite bool_decide_false by done. cbn. by rewrite bool_decide_true.
      * rewrite lookup_delete_ne, F3 by done. destruct (SharedBufHash s !! t) as [i|] eqn:E; [|done]. cbn.
        case_bool_decide; [done|]. cbn. rewrite bool_decide_false; [done|]. intros ->. by apply Hhash in E as [_ <-].
    + rewrite F3. destruct (SharedBufHash s !! t) as [i|] eqn:E; [|done]. cbn. case_bool_decide; [done|]. cbn.
      rewrite bool_decide_false; [done|]. intros ->. by apply Hhash in E as [E _].
Qed.

Lemma forget_ok s v d :
  pool s -> desc_of s v d -> idle d -> pool (forget v d s).
Proof using Equivalence0.
  intros Hp Hd Hi. pose proof (pl_desc _ _ _ _ _ Hp v d Hd) as Hok.
  destruct (blank_desc_ok v d (do_id _ _ _ _ _ Hok) (do_wf _ _ _ _ _ Hok) Hi) as [Hbl _].
  unfold forget. destruct (flag (state d) BM_TAG_VALID) eqn:Ht; [by eapply dropped_ok|].
  destruct Hbl. pose proof Hp as [P1 P2 P3 P4 P5 P6]. split; try done.
  - cbn. rewrite length_insertZ. apply P1.
  - intros i x [[-> ->]|[Hne Hx]]%(desc_of_redesc v _ s i x d Hd); [split; (done || congruence)|].
    destruct (P3 i x Hx). by split.
  - intros t i. change (SharedBufHash (redesc v (blank_desc d) s)) with (SharedBufHash s). rewrite P4.
    setoid_rewrite (desc_of_redesc v (blank_desc d) s i _ d Hd). split.
    + intros (x & Hx & Hxt & <-). exists x. split_and!; [|done|done]. right. split; [|done].
      intros ->. unfold desc_of in *. simplify_eq. congruence.
    + intros (x & [[-> ->]|[Hne Hx]] & Hxt & <-); [congruence|by eauto].
Qed.

Lemma pool_mem s m : pool s -> pool (with_policy_mem m s).
Proof using Type.
  intros Hp. eapply pool_alike_ok; [done|]. destruct (pool_alike_refl _ _ _ _ _ Hp). by split.
Qed.

(** Which blocks have buffers, and which pages are seen, when the buffers that go
    are those of the blocks that [P] holds of. *)
Lemma forgotten_blocks (P : BufferTag -> bool) vs s s' :
  pool s -> forgotten vs s s' ->
  (forall i d, i ∈ vs -> desc_of s i d -> P (tag d) = true) ->
  (forall t i, SharedBufHash s !! t = Some i -> P t = true -> i ∈ vs) ->
  forall t, SharedBufHash s' !! t = (if P t then None else SharedBufHash s !! t) /\
    cached s' t = (if P t then None else cached s t).
Proof using Type.
  intros Hp [F1 F2 F3 F4 F5 F6 F7] Hin Hall t. assert (SharedBufHash s' !! t = if P t then None else SharedBufHash s !! t) as Hh.
  { rewrite F3. destruct (SharedBufHash s !! t) as [i|] eqn:E; [|by destruct (P t)]. cbn.
    case_bool_decide as Hi; destruct (P t) eqn:EP; try done.
    - apply (pl_hash _ _ _ _ _ Hp) in E as (d & Hd & _ & <-). rewrite (Hin i d Hi Hd) in EP. done.
    - by specialize (Hall t i E EP). }
  split; [done|]. unfold cached. rewrite Hh. destruct (P t) eqn:EP; [done|].
  destruct (SharedBufHash s !! t) as [i|] eqn:E; [|done].
  apply (pl_hash _ _ _ _ _ Hp) in E as (d & Hd & _ & <-). pose proof (F1 i d Hd) as Hd'.
  assert (i ∉ vs) as Hi by (intros Hi; rewrite (Hin i d Hi Hd) in EP; done).
  rewrite bool_decide_false in Hd' by done. unfold desc_of in *. by rewrite Hd, Hd', F4.
Qed.
End forget.

Section drop.
Context (same_page : relation Z) `{!Equivalence same_page} `{!Server}.
Context (permanent : BufferTag -> bool).
Context (n : Z) (p : EvictionVtablePtr) (strategy : BufferAccessStrategy).
Context (others : Z -> Z).
Local Abbreviation pool := (pool_ok same_page PageGetLSN permanent n).
Local Abbreviation at_work := (at_work same_page permanent n p strategy others).

(** ** One buffer *)
Lemma forget_work m0 mu pins w v d m' :
  at_work m0 mu pins w -> desc_at w v d -> refcount (state d) = 0 -> pq_inv (p := p) n (StrategyControl (shm w)) m' ->
  at_work m0 mu pins (with_shm (with_policy_mem m' (forget v d (shm w))) w).
Proof using Equivalence0.
  intros Hw Hd Hr Hi. pose proof (aw_desc _ _ _ _ _ _ _ _ _ _ _ _ Hw Hd) as Hok.
  pose proof (do_idle _ _ _ _ _ Hok Hr) as Hidle.
  destruct (blank_desc_ok v d (do_id _ _ _ _ _ Hok) (do_wf _ _ _ _ _ Hok) Hidle) as [_ Hbr].
  pose proof (forget_ok same_page PageGetLSN permanent n (shm w) v d (aw_pool _ _ _ _ _ _ _ _ _ _ Hw) Hd Hidle) as Hp.
  assert (same_counts (shm w) (forget v d (shm w))) as Hc by (unfold forget; case_match; by apply (redesc_counts v d)).
  assert (StrategyControl (forget v d (shm w)) = StrategyControl (shm w) /\ allProcs (forget v d (shm w)) = allProcs (shm w))
    as [Ec Ea] by (unfold forget; by case_match).
  destruct Hw as [A1 A2 A3 A4 A5 A6 A7 [S1 S2 S3 S4] [C1 C2] A10]. split; try done.
  - split; cbn; rewrite ?Ec, ?Ea; try done; [by apply pool_mem|]. unfold lock_of in *. cbn. by rewrite Ec.
  - split; [|done]. intros x d' Hd'. destruct (Hc x d' Hd') as (d1 & Hd1 & ->). by apply C1.
Qed.

(** The part of a round that has the header locked. *)
Lemma invalidate_locked_run w v d m' :
  let w1 := set_desc v (with_state (Z.lor (state d) BM_LOCKED) d) w in
  quiet w -> (0 < gas (me w))%nat -> desc_at w v d -> wf_state (state d) -> flag (state d) BM_LOCKED = false ->
  (flag (state d) BM_TAG_VALID = true -> SharedBufHash (shm w) !! tag d = Some v) ->
  StrategyNotifyInvalidate v w1 = (Ret tt, with_mem m' w1) ->
  invalidate_locked v (Z.lor (state d) BM_LOCKED) (tag d) (BufTableHashCode tag_hash (tag d)) w1 =
    (Ret tt, with_shm (with_policy_mem m' (forget v d (shm w))) w).
Proof using Type.
  intros w1 Hq Hg Hd Hwf Hl Hhash Hhook. unfold invalidate_locked. run Hhook.
  set (d1 := with_state (Z.lor (state d) BM_LOCKED) d) in *. set (w2 := with_mem m' w1).
  assert (desc_at w2 v d1) as Hd2 by (by apply (desc_at_set_eq w _ d)). run (deref_run w2 v d1 Hd2).
  set (d2 := with_tag (ClearBufferTag (tag d1)) d1). set (w3 := set_desc v d2 w2). rewrite (bind_ret _ _ w2 tt w3) by done.
  assert (desc_at w3 v d2) as Hd3 by (by apply (desc_at_set_eq w2 _ d1)).
  run (UnlockBufHdrExt_quiet w3 Hq Hg v d2 0 blank_mask 0 Hd3 (flag_locked _)).
  change (state d2) with (Z.lor (state d) BM_LOCKED). rewrite unlock_clear, locked_flag by done.
  set (w4 := set_desc v (with_state (Z.ldiff (state d) blank_mask) d2) w3). unfold forget.
  assert (w4 = with_shm (with_policy_mem m' (redesc v (blank_desc d) (shm w))) w) as E.
  { unfold w4, w3, w2, w1, with_mem, set_desc, upd_shm, redesc. cbn. by rewrite !insertZ_insertZ. }
  destruct (flag (state d) BM_TAG_VALID); cbn [when]; [|by rewrite E].
  rewrite (BufTableDelete_run w4 (tag d) v) by (by apply Hhash). by rewrite E.
Qed.

Lemma NotifyInvalidate_locked m0 mu pins w v d (I J : list Z -> Prop) :
  at_work m0 mu pins w -> desc_at w v d -> hook_run (notify_invalidate (vtable p)) n v I J -> I (mem w) ->
  let w1 := set_desc v (with_state (Z.lor (state d) BM_LOCKED) d) w in
  exists m', StrategyNotifyInvalidate v w1 = (Ret tt, with_mem m' w1) /\ J m'.
Proof using Type.
  intros Hw Hd Hhook HI w1. set (d1 := with_state (Z.lor (state d) BM_LOCKED) d) in *.
  assert (exists d1, desc_at w1 v d1 /\ buf_id d1 = v) as Hd1.
  { exists d1. split; [by apply (desc_at_set_eq w _ d)|]. by destruct (aw_desc _ _ _ _ _ _ _ _ _ _ _ _ Hw Hd). }
  assert (lock_of (shm w1) = None) as Hlk by apply Hw.
  specialize (Hhook w1 (aw_quiet _ _ _ _ _ _ _ _ _ _ Hw) Hlk (aw_n _ _ _ _ _ _ _ _ _ _ Hw) (aw_pos _ _ _ _ _ _ _ _ _ _ Hw) Hd1 HI).
  unfold StrategyNotifyInvalidate, call_hook, get_me, gets.
  rewrite (bind_ret _ _ w1 (Some p) w1) by (cbn; by rewrite (aw_active _ _ _ _ _ _ _ _ _ _ Hw)).
  destruct (notify_invalidate (vtable p)) as [f|]; [done|].
  exists (mem w1). split; [unfold ret; by destruct w1 as [[] ? ?]|done].
Qed.

Lemma InvalidateBuffer_run m0 mu pins w v d (I J : list Z -> Prop) :
  at_work m0 mu pins w -> held_lwlocks m0 = [] -> desc_at w v d -> refcount (state d) = 0 ->
  hook_run (notify_invalidate (vtable p)) n v I J -> I (mem w) ->
  (forall m, J m -> pq_inv (p := p) n (StrategyControl (shm w)) m) ->
  exists w' m', InvalidateBuffer v (set_desc v (with_state (Z.lor (state d) BM_LOCKED) d) w) = (Ret tt, w') /\
    at_work m0 mu pins w' /\ J m' /\ shm w' = with_policy_mem m' (forget v d (shm w)) /\
    ReservedRefCountSlot (me w') = ReservedRefCountSlot (me w).
Proof using Equivalence0.
  intros Hw Hlw Hd Hr Hhook HI HJ. pose proof (aw_desc _ _ _ _ _ _ _ _ _ _ _ _ Hw Hd) as Hok.
  pose proof (do_idle _ _ _ _ _ Hok Hr) as Hidle. pose proof Hok as [K1 K2 K3 _ _ _ _ _].
  set (d1 := with_state (Z.lor (state d) BM_LOCKED) d).
  set (lock := BufMappingPartitionLock (BufTableHashCode tag_hash (tag d))).
  destruct (LWLockAcquire_run _ _ _ _ _ _ m0 mu pins w lock LW_EXCLUSIVE Hw Hlw) as (w1 & Hrun1 & Hs1 & _ & Hr1 & Hw1).
  assert (desc_at w1 v d) as Hd1 by (unfold desc_at; by rewrite Hs1).
  assert (flag (state d) BM_TAG_VALID = true -> SharedBufHash (shm w1) !! tag d = Some v) as Hhash.
  { intros Ht. apply (pl_hash _ _ _ _ _ (aw_pool _ _ _ _ _ _ _ _ _ _ Hw1)). by exists d. }
  pose proof (aw_quiet _ _ _ _ _ _ _ _ _ _ Hw1) as Hq1. pose proof (aw_pos _ _ _ _ _ _ _ _ _ _ Hw1) as Hg1.
  destruct (NotifyInvalidate_locked _ mu pins w1 v d I J Hw1 Hd1 Hhook) as (m' & Hrun2 & Hm'); [unfold mem; by rewrite Hs1|].
  pose proof (invalidate_locked_run w1 v d m' Hq1 Hg1 Hd1 K2 K3 Hhash Hrun2) as Hrun3.
  set (w3 := with_shm _ w1) in Hrun3.
  assert (at_work (hold lock LW_EXCLUSIVE m0) mu pins w3) as Hw3 by (apply forget_work; [done..|rewrite Hs1; by apply HJ]).
  destruct (LWLockRelease_run _ _ _ _ _ _ m0 mu pins w3 lock LW_EXCLUSIVE Hw3 Hlw) as (w4 & Hrun4 & Hs4 & _ & Hr4 & Hw4);
    [by eapply aw_ready|].
  exists w4, m'. split_and!; [|done|done|rewrite Hs4; cbn; by rewrite Hs1|by rewrite Hr4].
  unfold InvalidateBuffer. run (deref_run (set_desc v d1 w) v d1 (desc_at_set_eq w v d d1 Hd)).
  run (unlock_back w v d (aw_quiet _ _ _ _ _ _ _ _ _ _ Hw) Hd K2 K3). change (tag d1) with (tag d).
  unfold forever. pose proof (aw_pos _ _ _ _ _ _ _ _ _ _ Hw). destruct (gas (me w)) as [|g]; [lia|]. apply iter_break.
  unfold invalidate_round. fold lock. run Hrun1. run (LockBufHdr_quiet w1 Hq1 Hg1 v d Hd1 K3).
  fold d1. run (deref_run (set_desc v d1 w1) v d1 (desc_at_set_eq w1 v d d1 Hd1)). change (tag d1) with (tag d).
  rewrite BufferTagsEqual_refl, get_refcount, locked_refcount, Hr, locked_flag by (done || by apply wf_locked).
  cbn [negb Z.eqb]. rewrite (id_wake _ Hidle), c_assert_ok by done. run Hrun3. by run Hrun4.
Qed.

(** ** Many buffers

    [Pol] is what is known of the words of the policy once the buffers of a list
    have been invalidated. *)
Section scan.
Context (m0 : Backend) (mu : gmap Z PrivateRefCountData) (pins : list Z) (w0 : World).
Context (Pol : list Z -> list Z -> Prop).
Hypothesis Hw0 : at_work m0 mu pins w0.
Hypothesis Hlw : held_lwlocks m0 = [].
Hypothesis Pol_inv : forall vs m, Pol vs m -> pq_inv (p := p) n (StrategyControl (shm w0)) m.
Hypothesis Pol_hook : forall vs v, 0 <= v < n -> hook_run (notify_invalidate (vtable p)) n v (Pol vs) (Pol (v :: vs)).

Record emptied (vs : list Z) (w : World) : Prop := {
  em_work : at_work m0 mu pins w;
  em_forgot : forgotten vs (shm w0) (shm w);
  em_pol : Pol vs (mem w);
  em_slot : ReservedRefCountSlot (me w) = ReservedRefCountSlot (me w0)
}.

Lemma emptied_start : Pol [] (mem w0) -> emptied [] w0.
Proof using Hw0.
  clear Pol_inv Pol_hook. intros Hp. split; try done. pose proof (forgotten_nil (shm w0) (mem w0)) as Hf. by destruct w0 as [[] ? ?].
Qed.

Lemma emptied_desc vs w i d : emptied vs w -> desc_at w0 i d -> (i ∉ vs) -> desc_at w i d.
Proof using Type. intros He Hd Hi. pose proof (fg_desc _ _ _ (em_forgot _ _ He) i d Hd) as Hd1. by rewrite bool_decide_false in Hd1. Qed.

(** With the header locked, the buffer is invalidated or left alone. *)
Lemma decide_run vs w i d (P : bool) :
  emptied vs w -> desc_at w0 i d -> (i ∉ vs) -> (P = true -> refcount (state d) = 0) ->
  exists w', (if P then InvalidateBuffer i else UnlockBufHdr i) (set_desc i (with_state (Z.lor (state d) BM_LOCKED) d) w) =
    (Ret tt, w') /\ emptied (if P then i :: vs else vs) w'.
Proof using Type*.
  intros He Hd Hi Hr. pose proof (emptied_desc vs w i d He Hd Hi) as Hd1. pose proof (em_work _ _ He) as Hw.
  pose proof (aw_desc _ _ _ _ _ _ _ _ _ _ _ _ Hw Hd1) as Hok. destruct P; [|exists w; split; [|done]].
  - pose proof (fg_control _ _ _ (em_forgot _ _ He)) as Ec.
    destruct (InvalidateBuffer_run m0 mu pins w i d (Pol vs) (Pol (i :: vs)) Hw Hlw Hd1) as (w' & m' & Hrun & Hw' & Hm' & Hs' & Hslot);
      [by apply Hr|apply Pol_hook; by eapply aw_range|apply He|rewrite Ec; apply Pol_inv|].
    exists w'. split; [done|]. split; [done| |unfold mem; by rewrite Hs'|by rewrite Hslot; apply He].
    rewrite Hs'. eapply forgotten_step; [by eapply aw_pool|apply He|done|done].
  - apply unlock_back; [apply Hw|done|apply Hok|apply Hok].
Qed.

Definition goes (look : BufferTag -> option (BufferTag -> bool)) (t : BufferTag) : bool :=
  match look t with Some again => again t | None => false end.

Lemma drop_if_run look vs w i d :
  emptied vs w -> desc_at w0 i d -> (i ∉ vs) -> (goes look (tag d) = true -> refcount (state d) = 0) ->
  exists w', drop_if look i w = (Ret tt, w') /\ emptied (if goes look (tag d) then i :: vs else vs) w'.
Proof using Type*.
  intros He Hd Hi Hr. pose proof (emptied_desc vs w i d He Hd Hi) as Hd1. pose proof (em_work _ _ He) as Hw.
  unfold drop_if, GetBufferDescriptor. run (deref_run w i d Hd1). unfold goes in *.
  destruct (look (tag d)) as [again|]; [|by exists w].
  destruct (aw_desc _ _ _ _ _ _ _ _ _ _ _ _ Hw Hd1).
  run (LockBufHdr_quiet w (aw_quiet _ _ _ _ _ _ _ _ _ _ Hw) (aw_pos _ _ _ _ _ _ _ _ _ _ Hw) i d Hd1 do_unlocked).
  run (deref_run _ i _ (desc_at_set_eq w i d (with_state (Z.lor (state d) BM_LOCKED) d) Hd1)).
  by apply decide_run.
Qed.

Lemma scan_from_run look k : forall i vs w,
  emptied vs w -> 0 <= i -> i + Z.of_nat k = n -> (forall x, x ∈ vs -> x < i) ->
  (forall x d, desc_at w0 x d -> goes look (tag d) = true -> refcount (state d) = 0) ->
  exists w' vs', for_upto k i (drop_if look) w = (Ret tt, w') /\ emptied vs' w' /\
    forall x, x ∈ vs' <-> x ∈ vs \/ (i <= x /\ exists d, desc_at w0 x d /\ goes look (tag d) = true).
Proof using Type*.
  induction k as [|k IH]; intros i vs w He Hi Hk Hvs Hr.
  - exists w, vs. split_and!; [done|done|]. intros x. split; [by left|]. intros [|(Hx & d & Hd & _)]; [done|].
    pose proof (aw_range _ _ _ _ _ _ _ _ _ _ _ _ Hw0 Hd). lia.
  - destruct (aw_at _ _ _ _ _ _ _ _ _ _ i Hw0) as (d & Hd); [lia|].
    destruct (drop_if_run look vs w i d He Hd) as (w1 & Hrun & He1); [intros Hin%Hvs; lia|by apply (Hr i)|].
    destruct (IH (i + 1) _ w1 He1) as (w2 & vs' & Hrun2 & He2 & Hin); [lia|lia| |done|].
    { intros x. destruct (goes look (tag d)); [intros [->|Hx%Hvs]%elem_of_cons|intros Hx%Hvs]; lia. }
    exists w2, vs'. cbn [for_upto]. run Hrun. split_and!; [done|done|]. intros x. rewrite Hin.
    assert (forall y, (exists d', desc_at w0 y d' /\ goes look (tag d') = true) -> y = i -> goes look (tag d) = true) as Heq.
    { intros y (d' & Hd' & Hg) ->. unfold desc_at in *. by simplify_eq. }
    destruct (goes look (tag d)) eqn:E; [rewrite elem_of_cons|]; split.
    + intros [[->|]|[? ?]]; [right; split; [lia|by exists d]|by left|right; split; [lia|done]].
    + intros [|[Hx Hg]]; [tauto|]. destruct (decide (x = i)); [tauto|right; split; [lia|done]].
    + intros [|[? ?]]; [by left|right; split; [lia|done]].
    + intros [|[Hx Hg]]; [tauto|]. destruct (decide (x = i)) as [->|]; [by specialize (Heq i Hg eq_refl)|right; split; [lia|done]].
Qed.

Lemma scan_run look :
  Pol [] (mem w0) -> (forall x d, desc_at w0 x d -> goes look (tag d) = true -> refcount (state d) = 0) ->
  exists w' vs, scan_buffers (drop_if look) w0 = (Ret tt, w') /\ emptied vs w' /\
    forall x, x ∈ vs <-> exists d, desc_at w0 x d /\ goes look (tag d) = true.
Proof using Type*.
  intros Hp Hr. pose proof (br_size _ _ _ (aw_ready _ _ _ _ _ _ _ _ _ _ Hw0)) as Hn. unfold pool_sized in Hn.
  destruct (scan_from_run look (Z.to_nat n) 0 [] w0 (emptied_start Hp)) as (w' & vs & Hrun & He & Hin); [lia|lia|set_solver|done|].
  exists w', vs. unfold scan_buffers. rewrite (bind_ret _ _ w0 n w0).
  2: { unfold get_me, gets. by rewrite (aw_n _ _ _ _ _ _ _ _ _ _ Hw0). }
  split_and!; [done|done|]. intros x. rewrite Hin. split; [intros [[]%not_elem_of_nil|[_ ?]]; done|].
  intros (d & Hd & Hg). right. pose proof (aw_range _ _ _ _ _ _ _ _ _ _ _ _ Hw0 Hd). split; [lia|by exists d].
Qed.

(** ** Blocks looked up one by one

    The program takes the buffers away from the blocks that [Q] holds of. *)
Definition sweeps (Q : BufferTag -> Prop) (prog : M unit) : Prop :=
  forall vs w, emptied vs w ->
    exists w' vs', prog w = (Ret tt, w') /\ emptied vs' w' /\
      forall x, x ∈ vs' <-> x ∈ vs \/ exists t, SharedBufHash (shm w0) !! t = Some x /\ Q t.

Lemma sweeps_ret : sweeps (fun _ => False) (ret tt).
Proof using Type. intros vs w He. exists w, vs. split_and!; [done|done|]. intros x. split; [by left|]. intros [?|(? & _ & [])]; done. Qed.
Lemma sweeps_seq Q1 Q2 p1 p2 : sweeps Q1 p1 -> sweeps Q2 p2 -> sweeps (fun t => Q1 t \/ Q2 t) (p1 ;; p2).
Proof using Type.
  intros H1 H2 vs w He. destruct (H1 vs w He) as (w1 & vs1 & Hr1 & He1 & Hin1).
  destruct (H2 vs1 w1 He1) as (w2 & vs2 & Hr2 & He2 & Hin2). exists w2, vs2. run Hr1.
  split_and!; [done|done|]. intros x. rewrite Hin2, Hin1. naive_solver.
Qed.
Lemma sweeps_ext (Q1 Q2 : BufferTag -> Prop) prog :
  (forall t x, SharedBufHash (shm w0) !! t = Some x -> Q1 t <-> Q2 t) -> sweeps Q1 prog -> sweeps Q2 prog.
Proof using Type.
  intros HQ H1 vs w He. destruct (H1 vs w He) as (w1 & vs1 & Hr1 & He1 & Hin1). exists w1, vs1.
  split_and!; [done|done|]. intros x. rewrite Hin1. naive_solver.
Qed.
Lemma sweeps_upto (Q : Z -> BufferTag -> Prop) body k : forall lo,
  (forall i, lo <= i < lo + Z.of_nat k -> sweeps (Q i) (body i)) ->
  sweeps (fun t => exists i, lo <= i < lo + Z.of_nat k /\ Q i t) (for_upto k lo body).
Proof using Type.
  induction k as [|k IH]; intros lo Hb; cbn [for_upto].
  - eapply sweeps_ext; [|apply sweeps_ret]. intros t x _. split; [done|]. intros (i & ? & _). lia.
  - eapply sweeps_ext; [|apply sweeps_seq; [apply (Hb lo); lia|apply (IH (lo + 1)); intros i Hi; apply Hb; lia]].
    intros t x _. split.
    + intros [Ht|(i & Hi & Ht)]; [exists lo; split; [lia|done]|exists i; split; [lia|done]].
    + intros (i & Hi & Ht). destruct (decide (i = lo)) as [->|]; [by left|right; exists i; split; [lia|done]].
Qed.

Lemma emptied_free vs w m : emptied vs w -> shm m = shm w -> at_work m0 mu pins m ->
  ReservedRefCountSlot (me m) = ReservedRefCountSlot (me w) -> emptied vs m.
Proof using Type. intros [E1 E2 E3 E4] Hs Hm Hr. split; [done|by rewrite Hs|unfold mem; by rewrite Hs|congruence]. Qed.

(** The body of the loop of [FindAndDropRelationBuffers]. *)
Lemma find_block_run rlocator forkNum firstDelBlock curBlock :
  firstDelBlock <= curBlock ->
  (forall x d, desc_at w0 x d -> tag d = InitBufferTag (mkBufferTag 0 0 0 0 0) rlocator forkNum curBlock -> refcount (state d) = 0) ->
  sweeps (fun t => t = InitBufferTag (mkBufferTag 0 0 0 0 0) rlocator forkNum curBlock)
    (find_and_drop_block rlocator forkNum firstDelBlock curBlock).
Proof using Type*.
  intros Hb Hr vs w He. set (t := InitBufferTag _ rlocator forkNum curBlock) in *. pose proof (em_work _ _ He) as Hw.
  unfold find_and_drop_block. fold t. set (lock := BufMappingPartitionLock (BufTableHashCode tag_hash t)).
  destruct (LWLockAcquire_run _ _ _ _ _ _ m0 mu pins w lock LW_SHARED Hw Hlw) as (w1 & Hrun1 & Hs1 & _ & Hr1 & Hw1).
  destruct (LWLockRelease_run _ _ _ _ _ _ m0 mu pins w1 lock LW_SHARED Hw1 Hlw) as (w2 & Hrun2 & Hs2 & _ & Hr2 & Hw2);
    [by eapply aw_ready|].
  assert (emptied vs w2) as He2 by (apply (emptied_free vs w); [done|congruence|done|congruence]).
  run Hrun1. run (BufTableLookup_run w1 t). run Hrun2. rewrite Hs1, (fg_hash _ _ _ (em_forgot _ _ He)).
  destruct (SharedBufHash (shm w0) !! t) as [i|] eqn:E; cbn.
  - pose proof E as (d & Hd & Ht & Htag)%(pl_hash _ _ _ _ _ (aw_pool _ _ _ _ _ _ _ _ _ _ Hw0)).
    pose proof (aw_range _ _ _ _ _ _ _ _ _ _ _ _ Hw0 Hd) as Hi. case_bool_decide as Hin.
    { exists w2, vs. split_and!; [done|done|]. intros x. split; [by left|]. intros [|(? & ? & ->)]; [done|by simplify_eq]. }
    cbn. rewrite (proj2 (Z.ltb_ge i 0)) by lia. pose proof (emptied_desc vs w2 i d He2 Hd Hin) as Hd2.
    destruct (aw_desc _ _ _ _ _ _ _ _ _ _ _ _ Hw2 Hd2). unfold GetBufferDescriptor.
    run (LockBufHdr_quiet w2 (aw_quiet _ _ _ _ _ _ _ _ _ _ Hw2) (aw_pos _ _ _ _ _ _ _ _ _ _ Hw2) i d Hd2 do_unlocked).
    run (deref_run _ i _ (desc_at_set_eq w2 i d (with_state (Z.lor (state d) BM_LOCKED) d) Hd2)).
    change (tag (with_state _ d)) with (tag d). rewrite Htag.
    destruct (decide_run vs w2 i d true He2 Hd Hin) as (w3 & Hrun3 & He3); [intros _; by apply (Hr i)|].
    assert (BufTagMatchesRelFileLocator t rlocator && (BufTagGetForkNum t =? forkNum) && (blockNum t >=? firstDelBlock) = true) as ->.
    { unfold BufTagMatchesRelFileLocator, BufTagGetForkNum, t. cbn. rewrite !Z.eqb_refl. cbn. lia. }
    exists w3, (i :: vs). split_and!; [done|done|]. intros x. rewrite elem_of_cons. split; [|naive_solver].
    intros [->|]; [right; by exists t|by left].
  - exists w2, vs. split_and!; [done|done|]. intros x. split; [by left|]. intros [|(? & ? & ->)]; [done|congruence].
Qed.

(** A block of a fork, within a range. *)
Definition block_of (rlocator : RelFileLocator) (forkNum lo hi : Z) (t : BufferTag) : Prop :=
  BufTagGetRelFileLocator t = rlocator /\ BufTagGetForkNum t = forkNum /\ lo <= blockNum t < hi.

Lemma block_of_spec rlocator forkNum lo hi t :
  block_of rlocator forkNum lo hi t <->
  exists b, lo <= b < hi /\ t = InitBufferTag (mkBufferTag 0 0 0 0 0) rlocator forkNum b.
Proof using Type.
  split.
  - intros (<- & <- & Hb). exists (blockNum t). split; [done|]. by destruct t.
  - intros (b & Hb & ->). by destruct rlocator.
Qed.

Lemma FindAndDrop_sweeps rlocator forkNum nForkBlock firstDelBlock :
  (forall x d, desc_at w0 x d -> block_of rlocator forkNum firstDelBlock nForkBlock (tag d) -> refcount (state d) = 0) ->
  sweeps (block_of rlocator forkNum firstDelBlock nForkBlock)
    (FindAndDropRelationBuffers rlocator forkNum nForkBlock firstDelBlock).
Proof using Type*.
  intros Hr. unfold FindAndDropRelationBuffers.
  eapply sweeps_ext; [|apply (sweeps_upto (fun b t => t = InitBufferTag (mkBufferTag 0 0 0 0 0) rlocator forkNum b))].
  - intros t x _. rewrite block_of_spec. split; intros (b & Hb & Ht); exists b; split; (lia || done).
  - intros b Hb. apply find_block_run; [lia|]. intros x d Hd Ht. apply (Hr x d Hd). apply block_of_spec. exists b. split; [lia|done].
Qed.

(** The forks of [DropRelationBuffers]. *)
Definition fork_block (rlocator : RelFileLocator) (forkNum nForkBlock firstDelBlock : list Z) (t : BufferTag) : Prop :=
  exists j f nb b, forkNum !! j = Some f /\ nForkBlock !! j = Some nb /\ firstDelBlock !! j = Some b /\ block_of rlocator f b nb t.

Lemma fork_block_cons rlocator f fs nb nbs b bs t :
  fork_block rlocator (f :: fs) (nb :: nbs) (b :: bs) t <-> block_of rlocator f b nb t \/ fork_block rlocator fs nbs bs t.
Proof using Type.
  split.
  - intros ([|j] & f' & nb' & b' & H1 & H2 & H3 & Ht); cbn in *; [simplify_eq; by left|right; by exists j, f', nb', b'].
  - intros [Ht|(j & f' & nb' & b' & H1 & H2 & H3 & Ht)]; [by exists 0%nat, f, nb, b|by exists (S j), f', nb', b'].
Qed.

Lemma find_and_drop_forks_sweeps rlocator : forall forkNum nForkBlock firstDelBlock,
  length nForkBlock = length forkNum -> length firstDelBlock = length forkNum ->
  (forall x d, desc_at w0 x d -> fork_block rlocator forkNum nForkBlock firstDelBlock (tag d) -> refcount (state d) = 0) ->
  sweeps (fork_block rlocator forkNum nForkBlock firstDelBlock) (find_and_drop_forks rlocator forkNum nForkBlock firstDelBlock).
Proof using Type*.
  induction forkNum as [|f fs IH]; intros [|nb nbs] [|b bs] L1 L2 Hr; try done; cbn [find_and_drop_forks].
  - eapply sweeps_ext; [|apply sweeps_ret]. intros t x _. split; [done|]. intros (j & ? & ? & ? & Hj & _). done.
  - injection L1 as L1. injection L2 as L2.
    eapply sweeps_ext; [intros t x _; symmetry; apply fork_block_cons|]. apply sweeps_seq.
    + apply FindAndDrop_sweeps. intros x d Hd Ht. apply (Hr x d Hd), fork_block_cons. by left.
    + apply IH; [done|done|]. intros x d Hd Ht. apply (Hr x d Hd), fork_block_cons. by right.
Qed.

(** All forks of relations, for [DropRelationsAllBuffers]. *)
Lemma find_and_drop_all_sweeps rlocator : forall block j,
  (forall x d i nb, desc_at w0 x d -> block !! i = Some nb -> block_of rlocator (j + Z.of_nat i) 0 nb (tag d) -> refcount (state d) = 0) ->
  sweeps (fun t => exists i nb, block !! i = Some nb /\ nb <> InvalidBlockNumber /\ block_of rlocator (j + Z.of_nat i) 0 nb t)
    (find_and_drop_all rlocator j block).
Proof using Type*.
  induction block as [|b bs IH]; intros j Hr; cbn [find_and_drop_all].
  - eapply sweeps_ext; [|apply sweeps_ret]. intros t x _. split; [done|]. intros (i & ? & Hi & _). done.
  - eapply sweeps_ext; [|apply (sweeps_seq (fun t => b <> InvalidBlockNumber /\ block_of rlocator j 0 b t)); [|apply (IH (j + 1))]].
    + intros t x _. split.
      * intros [[Hb Ht]|(i & nb & Hi & Hb & Ht)]; [exists 0%nat, b; rewrite Z.add_0_r; done|exists (S i), nb].
        split_and!; [done|done|]. by replace (j + Z.of_nat (S i)) with (j + 1 + Z.of_nat i) by lia.
      * intros ([|i] & nb & Hi & Hb & Ht); cbn in Hi; [left|right; exists i, nb].
        { rewrite Z.add_0_r in Ht. by simplify_eq. }
        split_and!; [done|done|]. by replace (j + 1 + Z.of_nat i) with (j + Z.of_nat (S i)) by lia.
    + destruct (Z.eqb_spec b InvalidBlockNumber) as [->|Hb].
      * eapply sweeps_ext; [|apply sweeps_ret]. naive_solver.
      * eapply sweeps_ext; [|apply FindAndDrop_sweeps]; [naive_solver|].
        intros x d Hd Ht. apply (Hr x d 0%nat b Hd eq_refl). by rewrite Z.add_0_r.
    + intros x d i nb Hd Hi Ht. apply (Hr x d (S i) nb Hd Hi). by replace (j + Z.of_nat (S i)) with (j + 1 + Z.of_nat i) by lia.
Qed.

Lemma find_and_drop_relations_sweeps : forall rels blocks,
  length blocks = length rels ->
  (forall x d r b i nb, desc_at w0 x d -> (r, b) ∈ zip rels blocks -> b !! i = Some nb ->
    block_of (smgr_locator r) (Z.of_nat i) 0 nb (tag d) -> refcount (state d) = 0) ->
  sweeps (fun t => exists r b i nb, (r, b) ∈ zip rels blocks /\ b !! i = Some nb /\ nb <> InvalidBlockNumber /\
      block_of (smgr_locator r) (Z.of_nat i) 0 nb t)
    (find_and_drop_relations rels blocks).
Proof using Type*.
  induction rels as [|r rs IH]; intros [|b bs] Hl Hr; try done; cbn [find_and_drop_relations zip].
  - eapply sweeps_ext; [|apply sweeps_ret]. intros t x _. split; [done|]. intros (? & ? & ? & ? & []%not_elem_of_nil & _).
  - injection Hl as Hl. eapply sweeps_ext; [|apply sweeps_seq; [apply (find_and_drop_all_sweeps (smgr_locator r) b 0)|apply (IH bs Hl)]].
    + intros t x _. change (zip (r :: rs) (b :: bs)) with ((r, b) :: zip rs bs). setoid_rewrite elem_of_cons. split.
      * intros [(i & nb & H1 & H2 & H3)|(r' & b' & i & nb & H1 & H2)]; [exists r, b, i, nb; auto|exists r', b', i, nb; auto].
      * intros (r' & b' & i & nb & [[= -> ->]|H1] & H2 & H3 & H4); [left; eauto|right; exists r', b', i, nb; auto].
    + intros x d i nb Hd. apply (Hr x d r b i nb Hd). apply list_elem_of_here.
    + intros x d r' b' i nb Hd Hin. apply (Hr x d r' b' i nb Hd). by apply list_elem_of_further.
Qed.
End scan.
End drop.
