(* ===== verification/SharedCache.v ===== *)
(** * The shared buffers are a transparent cache

    The theorems about allocation and eviction, for every policy: a single
    allocation, any sequence of them, the search for a victim and the writing of
    a page, with a concrete pool on which they apply. *)
From S2P Require Import Prelude BufState BufTag Shmem Concurrency PrivateRefCount Ring Sample Sieve Policy BufTable Strategy.
From S2P Require Import LocalBuf ContentLock LockWord LockProtocol LockRun Pin PinRun Reserved BufIO IORun.
From S2P Require Import Writeback Eviction PolicyQuiet Pool FlushRun EvictRun VictimRun AllocRun.

(** ** A backend that uses one block after the other *)
Record Request := mkRequest {
  rq_smgr : RelFileLocator;
  rq_persistence : RelPersistence;
  rq_fork : Z;
  rq_block : Z
}.
Definition rq_tag (r : Request) : BufferTag := InitBufferTag (mkBufferTag 0 0 0 0 0) (rq_smgr r) (rq_fork r) (rq_block r).

Section session.
Context (same_page : relation Z) `{!Equivalence same_page} `{!Server} `{!ServerLaws same_page}.
Context (permanent : BufferTag -> bool).
Context (n : Z) (p : EvictionVtablePtr).

Definition rq_ok (r : Request) : Prop :=
  rq_block r <> P_NEW /\
  permanent (rq_tag r) = bool_decide (rq_persistence r = RELPERSISTENCE_PERMANENT) || (rq_fork r =? INIT_FORKNUM).

Fixpoint use_blocks (rs : list Request) : M unit :=
  match rs with
  | [] => ret tt
  | r :: rs =>
      let* '(buf, _) := BufferAlloc (rq_smgr r) (rq_persistence r) (rq_fork r) (rq_block r) None in
      ReleaseBuffer (buf + 1) ;;
      use_blocks rs
  end.

(** Nobody has a buffer pinned, and the policy knows of at least one. *)
Record at_rest (m0 : Backend) (w : World) : Prop := {
  at_idle : at_work same_page permanent n p None (fun _ => 0) m0 ∅ [] w;
  at_locks : held_lwlocks m0 = [];
  at_linked : exists x, 0 <= x < n /\ pq_linked (p := p) n (mem w) x
}.

Definition session_post (m0 : Backend) (w : World) (o : outcome unit) (w' : World) : Prop :=
  match o with
  | Ret _ => at_rest m0 w' /\ same_pages same_page (shm w) (shm w')
  | Elog _ => write_failed same_page permanent n m0 (shm w) (shm w')
  | _ => False
  end.

Lemma rest_unpinned m0 w x : at_rest m0 w -> 0 <= x < n -> unpinned w x = true.
Proof using Type.
  intros [Hw _ _] Hx. destruct (aw_at _ _ _ _ _ _ _ _ _ _ _ Hw Hx) as (d & Hd). rewrite (unpinned_at _ _ _ Hd).
  apply Z.eqb_eq. apply (ps_count _ _ _ (aw_counts _ _ _ _ _ _ _ _ _ _ Hw) x d Hd).
Qed.

(** The only pin is given back. *)
Lemma give_back_run m0 w w1 v d :
  held_lwlocks m0 = [] -> at_work same_page permanent n p None (fun _ => 0) m0 (<[v + 1 := one_pin]> ∅) [v + 1] w1 ->
  desc_at w1 v d -> 0 < refcount (state d) -> idle d -> same_pages same_page (shm w) (shm w1) ->
  (exists x, 0 <= x < n /\ pq_linked (p := p) n (mem w1) x) ->
  exists w2, ReleaseBuffer (v + 1) w1 = (Ret tt, w2) /\ at_rest m0 w2 /\ same_pages same_page (shm w) (shm w2).
Proof using Type*.
  intros Hl Hw1 Hd Hr Hi Hse Hlink. pose proof (aw_range _ _ _ _ _ _ _ _ _ _ _ _ Hw1 Hd) as Hv.
  destruct (Unpin_run same_page permanent n p None (fun _ => 0) m0 _ [] w1 v d Hw1) as (w2 & Hrun & Hw2 & Hrc & Hmem & _);
    [apply lookup_insert_eq|done|done|done|].
  rewrite delete_insert_id in Hw2 by done. exists w2. split_and!.
  - unfold ReleaseBuffer, BufferIsValid, BufferIsLocal, InvalidBuffer, GetBufferDescriptor.
    rewrite (proj2 (Z.eqb_neq (v + 1) 0)), (proj2 (Z.ltb_ge (v + 1) 0)) by lia. cbn [negb].
    by replace (v + 1 - 1) with v by lia.
  - split; [done|done|]. by rewrite Hmem.
  - etrans; [exact Hse|]. eapply (alike_cache same_page permanent n); [by eapply aw_pool|].
    eapply recounted_alike; [by eapply aw_pool|done].
Qed.

(** The buffer that was allocated is given back. *)
Lemma release_run m0 w w1 t v found :
  at_rest m0 w -> allocated same_page permanent n p None (fun _ => 0) m0 ∅ [] w t v found w1 ->
  exists w2, ReleaseBuffer (v + 1) w1 = (Ret tt, w2) /\ at_rest m0 w2 /\ same_pages same_page (shm w) (shm w2).
Proof using Type*.
  intros [_ Hl (x & Hx & Hlink)] [A1 (d & Hd & Ht & Htv & Hfound & Hr & Hi) A3 A4 A5 _]. change (more_pins _) with one_pin in A1.
  eapply give_back_run; try done; [by apply Hi|]. pose proof (aw_range _ _ _ _ _ _ _ _ _ _ _ _ A1 Hd).
  destruct (SharedBufHash (shm w) !! t); [|by destruct A5 as (_ & ? & _); exists v]. exists x. split; [done|]. by apply A5.
Qed.

Lemma use_blocks_run m0 rs : forall w,
  at_rest m0 w -> Forall rq_ok rs -> wp (use_blocks rs) (session_post m0 w) w.
Proof using Type*.
  induction rs as [|r rs IH]; intros w Hrest Hrs; cbn [use_blocks]; [by apply wp_ret|].
  apply Forall_cons_1 in Hrs as [[Hb Hp] Hrs]. apply wp_bind.
  pose proof Hrest as [Hw Hl (x & Hx & Hlink)].
  eapply wp_mono; [|apply (BufferAlloc_run same_page permanent n p None (fun _ => 0) m0 ∅ [] w)]; try done.
  - intros [[v found]|e|e|] w1; cbn; try done. intros Hac.
    destruct (release_run m0 w w1 _ v found Hrest Hac) as (w2 & Hrun & Hrest2 & Hse2).
    eapply wp_step; [run Hrun; reflexivity|]. eapply wp_mono; [|by apply IH].
    intros [[]|e|e|] w3; cbn; try done.
    + intros [Hr3 Hse3]. split; [done|by etrans].
    + intros (? & ? & ?). split; [done|]. split; [done|by etrans].
  - split; try done.
    + intros _. exists x. split; [done|]. split; [done|]. by eapply rest_unpinned.
    + change (0 < gas m0)%nat. pose proof (aw_gas _ _ _ _ _ _ _ _ _ _ Hw). rewrite (kp_gas _ _ (aw_keeps _ _ _ _ _ _ _ _ _ _ Hw)) in *. lia.
Qed.
End session.

(** ** A concrete pool

    Three buffers with the first three blocks of a relation of four, the last two
    of them dirty and ahead of the log on disk.  A page is its position in the
    log. *)
#[export] Instance sample_server : Server := {|
  tag_hash := blockNum;
  XLogFlush := fun lsn => modify_shm (fun s => with_wal_flushed (Z.max lsn (wal_flushed s)) s);
  XLogNeedsFlush := fun lsn => gets (fun w => wal_flushed (shm w) <? lsn);
  PageGetLSN := fun page => page;
  PageSetChecksumCopy := fun page _ => page;
  pgaio_wref_wait := fun _ => ret tt;
  smgrwriteback := fun _ _ _ _ => ret tt;
  io_direct_data := false;
  enableFsync := true
|}.

#[export] Instance sample_laws : ServerLaws eq.
Proof.
  split; try done.
  - intros lsn w. exists (Z.max lsn (wal_flushed (shm w))). split; [done|]. lia.
  - intros lsn w. by eexists.
  - intros l f b k w. exists (shm w), (sched w). split; [by destruct w|done].
Qed.

Definition sample_rel : RelFileLocator := mkRelFileLocator 1663 5 16384.
Definition sample_tag (blk : Z) : BufferTag := InitBufferTag (mkBufferTag 0 0 0 0 0) sample_rel 0 blk.
Definition cached_word : Z := Z.lor BM_TAG_VALID (Z.lor BM_VALID BM_PERMANENT).
Definition cache_desc (i st : Z) : BufferDesc := with_tag (sample_tag i) (sample_desc i st).
Definition cache_descs : list BufferDesc :=
  [cache_desc 0 cached_word; cache_desc 1 (Z.lor cached_word BM_DIRTY); cache_desc 2 (Z.lor cached_word BM_DIRTY)].

(** The words of a new SIEVE queue. *)
Definition sieve_words3 : list Z :=
  policy_mem (shm (SieveInitialize false (sample_world SieveVtable (replicate 10 0) [])).2).

Definition cache_shared : Shared :=
  mkShared cache_descs sample_control sieve_words3
    {[ sample_tag 0 := 0; sample_tag 1 := 1; sample_tag 2 := 2 ]} []
    [10; 21; 22] {[ (sample_rel, 0) := [10; 11; 12; 13] ]} 15.
Definition cache_world (faults : list bool) : World :=
  mkWorld cache_shared (with_smgr_faults faults (sample_me 3 SieveVtable)) [].

Lemma cache_cases i d : desc_of cache_shared i d ->
  (i = 0 /\ d = cache_desc 0 cached_word) \/ (i = 1 /\ d = cache_desc 1 (Z.lor cached_word BM_DIRTY)) \/
  (i = 2 /\ d = cache_desc 2 (Z.lor cached_word BM_DIRTY)).
Proof.
  intros Hd. pose proof (lookupZ_Some _ _ _ Hd) as Hi. cbn in Hi.
  assert (i = 0 \/ i = 1 \/ i = 2) as [-> |[-> | ->]] by lia; injection Hd as <-; auto.
Qed.

Lemma cache_disk t : disk_page cache_shared t = 
  if decide ((BufTagGetRelFileLocator t, BufTagGetForkNum t) = (sample_rel, 0)) then lookupZ [10; 11; 12; 13] (blockNum t) else None.
Proof.
  unfold disk_page. cbn. unfold Files in *. case_decide as E; [by rewrite E, lookup_singleton_eq|].
  rewrite lookup_singleton_ne by done. unfold lookupZ. by destruct (0 <=? blockNum t).
Qed.

Lemma cache_pool : pool_ok eq PageGetLSN (fun _ => true) 3 cache_shared.
Proof.
  split; [done|done| | | |done].
  - intros i d [[-> ->]|[[-> ->]|[-> ->]]]%cache_cases; (split; [done|done|done|done| |done|done|done|done]);
      (intros _; split; [done|]; eexists _, _; split; [done|]; rewrite cache_disk; cbn; split; [done|by vm_compute]).
  - intros t i. cbn. split.
    + intros H. repeat (apply lookup_insert_Some in H as [[<- <-]|[_ H]]); [..|by apply lookup_empty_Some in H];
        eexists; (split; [reflexivity|done]).
    + intros (d & [[-> ->]|[[-> ->]|[-> ->]]]%cache_cases & _ & <-); by vm_compute.
  - intros t v _. rewrite cache_disk. case_decide; [|done]. intros Hv.
    apply lookupZ_Some in Hv as Hi. cbn in Hi. change (wal_flushed cache_shared) with 15. cbn.
    assert (blockNum t = 0 \/ blockNum t = 1 \/ blockNum t = 2 \/ blockNum t = 3) as [E|[E|[E|E]]] by lia;
      rewrite E in Hv; injection Hv as <-; lia.
Qed.

Lemma cache_queue : sieve_mem 3 sieve_words3 [0; 1; 2] 0.
Proof.
  destruct (SieveInitialize_run (sample_world SieveVtable (replicate 10 0) []) 3) as (m & Hrun & Hm & _);
    [lia|done|vm_compute; discriminate|].
  unfold sieve_words3. by rewrite Hrun.
Qed.

Lemma cache_at_rest faults :
  at_rest eq (fun _ => true) 3 SieveVtable (me (cache_world faults)) (cache_world faults).
Proof.
  split; [|done|exists 0; split; [lia|exists [0; 1; 2], 0; split; [exact cache_queue|set_solver]]].
  split; try done.
  - split; try done. vm_compute. lia.
  - by destruct (proj1 (sample_reserved 3 SieveVtable)).
  - split; [exact cache_pool|exists [0; 1; 2], 0; exact cache_queue|done|by left].
  - split; [|intros x; lia]. intros x d [[-> ->]|[[-> ->]|[-> ->]]]%cache_cases; by vm_compute.
Qed.

(** ** The theorems *)

(** C1. [BufferAlloc], whichever policy is active and whatever access strategy is
    used, in a pool that is in order and without interference, called without a
    partition lock, for a block that has a buffer or while the policy knows of a
    buffer that nobody has pinned (if it knows of none, the search for a victim
    raises its error, which is not the subject here).  It returns the buffer of
    the block, pinned once more; the mapping table, the descriptors, the
    policy's memory and the private bookkeeping are in order again, with the rule
    of write-ahead logging among them; no block of any relation reads
    differently; a buffer reported as found holds the page a reader of the block
    is to see; a block that had a buffer keeps it, and any other gets one that
    the policy knows of.  Under these conditions the only error is a failed write
    of a victim, and it loses no page either. *)
Theorem BufferAlloc_transparent same_page `{!Equivalence same_page} `{!Server} `{!ServerLaws same_page}
    permanent n p strategy others m0 mu pins w smgr relpersistence forkNum blockNum :
  let t := InitBufferTag (mkBufferTag 0 0 0 0 0) smgr forkNum blockNum in
  alloc_ready same_page permanent n p strategy others m0 mu pins w t -> blockNum <> P_NEW ->
  permanent t = bool_decide (relpersistence = RELPERSISTENCE_PERMANENT) || (forkNum =? INIT_FORKNUM) ->
  wp (BufferAlloc smgr relpersistence forkNum blockNum strategy)
    (alloc_post same_page permanent n p strategy others m0 mu pins w t) w.
Proof. intros t. by apply BufferAlloc_run. Qed.

(** Block 3 is not in a buffer; buffer 0 is clean and becomes its buffer. *)
Lemma BufferAlloc_transparent_witness :
  exists w', BufferAlloc sample_rel RELPERSISTENCE_PERMANENT 0 3 None (cache_world []) = (Ret (0, false), w') /\
    allocated eq (fun _ => true) 3 SieveVtable None (fun _ => 0) (me (cache_world [])) ∅ [] (cache_world [])
      (sample_tag 3) 0 false w'.
Proof.
  pose proof (BufferAlloc_transparent eq (fun _ => true) 3 SieveVtable None (fun _ => 0) (me (cache_world [])) ∅ []
    (cache_world []) sample_rel RELPERSISTENCE_PERMANENT 0 3) as H.
  assert ((BufferAlloc sample_rel RELPERSISTENCE_PERMANENT 0 3 None (cache_world [])).1 = Ret (0, false)) as Hrun
    by (vm_compute; reflexivity).
  unfold wp in H. destruct (BufferAlloc sample_rel RELPERSISTENCE_PERMANENT 0 3 None (cache_world [])) as [o w'].
  cbn in Hrun. subst o. exists w'. split; [done|]. apply H; try done.
  pose proof (cache_at_rest []) as [H1 H2 (x & Hx & Hl)]. split; try done.
  - intros _. exists x. split; [done|]. split; [done|]. by apply (rest_unpinned _ _ _ _ _ _ _ (cache_at_rest [])).
  - vm_compute. lia.
Defined.

(** Any sequence of blocks that a backend allocates and releases one after the
    other, under any of the policies: the buffer manager never gets stuck and never
    runs into an assertion; unless a write fails, every call returns, and at the
    end nothing is pinned or locked, the pool and the policy are in order and
    every block reads as at the beginning. *)
Theorem use_blocks_transparent same_page `{!Equivalence same_page} `{!Server} `{!ServerLaws same_page}
    permanent n p m0 rs w :
  at_rest same_page permanent n p m0 w -> Forall (rq_ok permanent) rs ->
  wp (use_blocks rs) (session_post same_page permanent n p m0 w) w.
Proof. by apply use_blocks_run. Qed.

(** Five blocks in three buffers, with two dirty victims. *)
Lemma use_blocks_transparent_witness :
  let rs := (fun b => mkRequest sample_rel RELPERSISTENCE_PERMANENT 0 b) <$> [3; 1; 7; 2; 8] in
  exists w', use_blocks rs (cache_world []) = (Ret tt, w') /\
    at_rest eq (fun _ => true) 3 SieveVtable (me (cache_world [])) w' /\ same_pages eq (shm (cache_world [])) (shm w').
Proof.
  intros rs. pose proof (use_blocks_transparent eq (fun _ => true) 3 SieveVtable (me (cache_world [])) rs (cache_world [])) as H.
  assert ((use_blocks rs (cache_world [])).1 = Ret tt) as Hrun by (vm_compute; reflexivity).
  unfold wp in H. destruct (use_blocks rs (cache_world [])) as [o w']. cbn in Hrun. subst o.
  exists w'. split; [done|]. apply H; [apply cache_at_rest|].
  repeat constructor; vm_compute; done.
Defined.

(** C12. [GetVictimBuffer] finds a victim if the policy knows of an unpinned buffer,
    under any policy and access strategy, also if the strategy turns down dirty
    buffers of its ring because of the log; its only error is a failed write of a
    dirty candidate, which loses no page.  It comes back to [again] at most once for
    every buffer in the ring: as many rounds and one more are enough.  The victim is
    pinned once, by this backend, and has no block, its old page is on disk, and the
    pages seen are the same. *)
Theorem GetVictimBuffer_finds same_page `{!Equivalence same_page} `{!Server} `{!ServerLaws same_page}
    permanent n p strategy others m0 mu pins w :
  at_work same_page permanent n p strategy others m0 mu pins w -> held_lwlocks m0 = [] -> candidate n p w ->
  ((live_slots strategy (me w) < gas m0)%nat ->
   wp (GetVictimBuffer strategy) (get_victim_post same_page permanent n p strategy others m0 mu pins w) w) /\
  wp (GetVictimBuffer_within strategy (S (live_slots strategy (me w))))
    (get_victim_post same_page permanent n p strategy others m0 mu pins w) w.
Proof. intros Hw Hl Hc. split; [by apply GetVictim_run|]. apply GetVictim_within_run; try done. lia. Qed.

Lemma cache_ring_at_work :
  at_work eq (fun _ => true) 3 SieveVtable (Some 0) (fun _ => 0) (me (cache_world [])) ∅ [] (cache_world []).
Proof.
  destruct (at_idle _ _ _ _ _ _ (cache_at_rest [])) as [A1 A2 A3 A4 A5 A6 A7 A8 A9 A10]. split; try done.
  exists sample_ring. split; [done|]. by apply sample_ring_ok.
Qed.

(** The ring of a sequential scan offers buffer 2, which is dirty and ahead of the
    log; it is turned down, and the clean buffer 0 is found instead. *)
Lemma GetVictimBuffer_finds_witness :
  exists w', GetVictimBuffer (Some 0) (cache_world []) = (Ret 1, w') /\ disk_page (shm w') (sample_tag 2) = Some 12 /\
    get_victim_post eq (fun _ => true) 3 SieveVtable (Some 0) (fun _ => 0) (me (cache_world [])) ∅ [] (cache_world []) (Ret 1) w'.
Proof.
  assert (candidate 3 SieveVtable (cache_world [])) as Hc.
  { destruct (at_linked _ _ _ _ _ _ (cache_at_rest [])) as (x & Hx & Hl). exists x. split; [done|]. split; [done|].
    by apply (rest_unpinned _ _ _ _ _ _ _ (cache_at_rest [])). }
  destruct (GetVictimBuffer_finds eq (fun _ => true) 3 SieveVtable (Some 0) (fun _ => 0) (me (cache_world [])) ∅ []
    (cache_world []) cache_ring_at_work eq_refl Hc) as [H _].
  assert ((GetVictimBuffer (Some 0) (cache_world [])).1 = Ret 1 /\
    disk_page (shm (GetVictimBuffer (Some 0) (cache_world [])).2) (sample_tag 2) = Some 12) as [Hrun Hdisk]
    by (vm_compute; split; reflexivity).
  unfold wp in H. destruct (GetVictimBuffer (Some 0) (cache_world [])) as [o w'].
  cbn in Hrun, Hdisk. subst o. exists w'. split; [done|]. split; [done|]. apply H. vm_compute. lia.
Defined.

(** C13. [FlushBuffer] on a valid, dirty buffer whose block is in the file, without
    interference: the whole state afterwards.  The log is flushed first, at least
    up to the position of the page if the relation is permanent.  If the write
    succeeds, the block on disk is the page but for its checksum; of the buffer's
    state word exactly the marks for dirty, just dirtied, needed by the checkpoint
    and I/O error are taken off, and one more written block is counted.  If it
    fails, the error is raised and nothing is written: the buffer is as dirty as
    before, but for the mark that it was just dirtied, and has an I/O in progress
    that the resource owner knows of.  In both cases the call of the storage
    manager is used up, and nothing else changes: no other block or descriptor, no
    other bit, pin or lock, and nothing else of the backend. *)
Theorem FlushBuffer_exact same_page `{!Server} `{!ServerLaws same_page} w v d page f0 :
  unlocked w v d -> buf_id d = v -> flag (state d) BM_DIRTY = true -> flag (state d) BM_VALID = true ->
  flag (state d) BM_IO_IN_PROGRESS = false ->
  lookupZ (BufferBlocks (shm w)) v = Some page -> disk_page (shm w) (tag d) = Some f0 ->
  let page' := PageSetChecksumCopy page (blockNum (tag d)) in
  let written := Z.ldiff (state d) (Z.lor (Z.lor BM_DIRTY BM_JUST_DIRTIED) (Z.lor BM_CHECKPOINT_NEEDED BM_IO_ERROR)) in
  let failed := Z.ldiff (Z.lor (state d) BM_IO_IN_PROGRESS) BM_JUST_DIRTIED in
  let m := with_smgr_faults (tail (smgr_faults (me w))) (me w) in
  let counted := with_shared_blks_written (shared_blks_written (accounting (me w)) + 1) (accounting (me w)) in
  exists lsn, wal_flushed (shm w) <= lsn /\ (flag (state d) BM_PERMANENT = true -> PageGetLSN page <= lsn) /\
    FlushBuffer v None w =
    if decide (head (smgr_faults (me w)) = Some true) then
      (Elog "I/O error", with_me (with_owned_ios (v + 1 :: owned_ios (me w)) m)
         (upd_shm (fun s => redesc v (with_state failed d) (with_wal_flushed lsn s)) w))
    else
      (Ret tt, with_me (with_accounting counted m)
         (upd_shm (fun s => redesc v (with_state written d) (disk_write (tag d) page' (with_wal_flushed lsn s))) w)).
Proof.
  intros Hu Hid Hdirty Hv Hio Hp Hf page' written failed m counted. pose proof Hu as [_ _ _ Hwf Hl].
  destruct (FlushBuffer_run same_page w v d page f0 None eq_refl Hu Hid Hdirty Hio Hp Hf) as (lsn & H1 & H2 & Hrun).
  exists lsn. split; [done|]. split; [done|]. rewrite Hrun, (flushed_word_exact (state d) Hwf Hl Hio).
  unfold wrote, m. by destruct (smgr_faults (me w)) as [|[] fs].
Qed.

Lemma FlushBuffer_exact_witness :
  exists w', FlushBuffer 1 None (cache_world []) = (Ret tt, w') /\ disk_page (shm w') (sample_tag 1) = Some 21 /\
    wal_flushed (shm w') = 21.
Proof.
  assert (disk_page (shm (FlushBuffer 1 None (cache_world [])).2) (sample_tag 1) = Some 21 /\
    wal_flushed (shm (FlushBuffer 1 None (cache_world [])).2) = 21) as Hres by (vm_compute; split; reflexivity).
  destruct (FlushBuffer_exact eq (cache_world []) 1 (cache_desc 1 (Z.lor cached_word BM_DIRTY)) 21 11)
    as (lsn & _ & _ & Hrun); [split; try done; vm_compute; lia|done|done|done|done|done|done|].
  rewrite decide_False in Hrun by discriminate. rewrite Hrun in Hres. eexists. split; [exact Hrun|exact Hres].
Defined.
