(* ===== verification/DropCache.v ===== *)
(** * Dropped relations leave the cache

    [DropRelationBuffers], [DropRelationsAllBuffers] and [DropDatabaseBuffers] take
    the buffers away from exactly the blocks they are told to drop, whether they
    look the blocks up or scan the pool; and what this does to the LRU queue. *)
From S2P Require Import Prelude BufState BufTag Shmem Concurrency PrivateRefCount Ring Sample DList Lru Policy BufTable Strategy.
From S2P Require Import LocalBuf LockWord PinRun Writeback Eviction BSearch DropFlush PolicyQuiet Pool EvictRun.
From S2P Require Import VictimRun DropRun SharedCache.

(** ** The relations of a list that have shared buffers *)
Definition shared_relations (rs : list SMgrRelation) : list SMgrRelation :=
  filter (fun r => RelFileLocatorBackendIsTemp r = false) rs.
Definition doomed_relations (rs : list SMgrRelation) (t : BufferTag) : bool :=
  existsb (fun r => BufTagMatchesRelFileLocator t (smgr_locator r)) (shared_relations rs).

Lemma doomed_relations_spec rs t :
  doomed_relations rs t = true <-> exists r, r ∈ shared_relations rs /\ BufTagGetRelFileLocator t = smgr_locator r.
Proof.
  unfold doomed_relations. rewrite existsb_exists. setoid_rewrite BufTagMatches_spec. setoid_rewrite list_elem_of_In. done.
Qed.


(** The search finds the relation of a buffer exactly if it is one of them. *)
Lemma find_relation rs t :
  find_locator (smgr_locator <$> shared_relations rs) t =
    if doomed_relations rs t then Some (BufTagGetRelFileLocator t) else None.
Proof.
  destruct (doomed_relations rs t) eqn:E.
  - apply find_locator_spec. split; [done|]. apply doomed_relations_spec in E as (r & Hin & ->). by apply list_elem_of_fmap_2.
  - apply eq_None_not_Some. intros [l [-> (r & Hl & Hin)%list_elem_of_fmap]%find_locator_spec].
    apply not_true_iff_false in E. apply E, doomed_relations_spec. by exists r.
Qed.

Section drop.
Context (same_page : relation Z) `{!Equivalence same_page} `{!Server}.
Context (permanent : BufferTag -> bool).
Context (n : Z) (p : EvictionVtablePtr) (strategy : BufferAccessStrategy).
Context (others : Z -> Z).
Context (smgrnblocks_cached : SMgrRelation -> Z -> Z).
Local Abbreviation at_work := (at_work same_page permanent n p strategy others).

(** Exactly the blocks that [doomed] holds of have lost their buffers; a reader of
    one of them sees what is on disk, a reader of any other sees what was seen
    before; nothing has been written. *)
Record drop_post (doomed : BufferTag -> bool) (m0 : Backend) (mu : gmap Z PrivateRefCountData) (pins : list Z)
    (w w' : World) : Prop := {
  dp_work : at_work m0 mu pins w';
  dp_mapped : forall t, SharedBufHash (shm w') !! t = if doomed t then None else SharedBufHash (shm w) !! t;
  dp_seen : forall t, page_seen (shm w') t = if doomed t then disk_page (shm w) t else page_seen (shm w) t;
  dp_disk : smgr_disk (shm w') = smgr_disk (shm w);
  dp_slot : ReservedRefCountSlot (me w') = ReservedRefCountSlot (me w)
}.

(** Nobody has a buffer pinned whose tag is of this kind. *)
Definition unpinned_if (doomed : BufferTag -> bool) (w : World) : Prop :=
  forall x d, desc_at w x d -> doomed (tag d) = true -> refcount (state d) = 0.

Section from.
Context (m0 : Backend) (mu : gmap Z PrivateRefCountData) (pins : list Z) (w : World).
Hypothesis Hw : at_work m0 mu pins w.
Hypothesis Hlw : held_lwlocks m0 = [].
Local Abbreviation inv := (fun _ : list Z => pq_inv (p := p) n (StrategyControl (shm w))).
Local Abbreviation emptied := (emptied same_page permanent n p strategy others m0 mu pins w inv).
Local Abbreviation sweeps := (sweeps same_page permanent n p strategy others m0 mu pins w inv).

Lemma start_ok : pq_inv (p := p) n (StrategyControl (shm w)) (mem w).
Proof using Hw. apply Hw. Qed.
Lemma inv_hook (vs : list Z) v : 0 <= v < n -> hook_run (notify_invalidate (vtable p)) n v (inv vs) (inv (v :: vs)).
Proof using Type. apply pq_invalidate. Qed.

Lemma emptied_post (Pol : list Z -> list Z -> Prop) doomed vs w' :
  DropRun.emptied same_page permanent n p strategy others m0 mu pins w Pol vs w' ->
  (forall x d, x ∈ vs -> desc_at w x d -> doomed (tag d) = true) ->
  (forall t x, SharedBufHash (shm w) !! t = Some x -> doomed t = true -> x ∈ vs) ->
  drop_post doomed m0 mu pins w w'.
Proof using Hw.
  intros [E1 E2 E3 E4] Hin Hall.
  pose proof (forgotten_blocks same_page PageGetLSN permanent n doomed vs (shm w) (shm w') (aw_pool _ _ _ _ _ _ _ _ _ _ Hw) E2 Hin Hall) as Hb.
  split; [done|intros t; apply Hb| |apply E2|done]. intros t. unfold page_seen. rewrite (proj2 (Hb t)).
  assert (disk_page (shm w') t = disk_page (shm w) t) as -> by (unfold disk_page; by rewrite (fg_disk _ _ _ E2)).
  by destruct (doomed t).
Qed.

Lemma scan_post look doomed :
  (forall t, goes look t = doomed t) -> unpinned_if doomed w ->
  exists w', scan_buffers (drop_if look) w = (Ret tt, w') /\ drop_post doomed m0 mu pins w w'.
Proof using Hw Hlw Equivalence0.
  intros Hgoes Hr.
  destruct (scan_run same_page permanent n p strategy others m0 mu pins w inv Hw Hlw (fun _ _ Hm => Hm) inv_hook look start_ok)
    as (w' & vs & Hrun & He & Hin).
  { intros x d Hd. rewrite Hgoes. exact (Hr x d Hd). }
  exists w'. split; [done|]. apply (emptied_post _ doomed vs w' He).
  - intros x d (d' & Hd' & Hg)%Hin Hd. unfold desc_at in *. simplify_eq. by rewrite <- Hgoes.
  - intros t x Hx Hd. apply (pl_hash _ _ _ _ _ (aw_pool _ _ _ _ _ _ _ _ _ _ Hw)) in Hx as (d & Hx & _ & <-).
    apply Hin. exists d. by rewrite Hgoes.
Qed.

Lemma sweep_post (Q : BufferTag -> Prop) doomed prog :
  sweeps Q prog -> (forall t x, SharedBufHash (shm w) !! t = Some x -> Q t <-> doomed t = true) ->
  exists w', prog w = (Ret tt, w') /\ drop_post doomed m0 mu pins w w'.
Proof using Hw.
  intros Hs HQ. destruct (Hs [] w) as (w' & vs & Hrun & He & Hin); [by apply emptied_start, start_ok|].
  exists w'. split; [done|]. apply (emptied_post _ doomed vs w' He).
  - intros x d [[]%not_elem_of_nil|(t & Ht & HQt)]%Hin Hd.
    pose proof Ht as (d' & Hd' & _ & Htag)%(pl_hash _ _ _ _ _ (aw_pool _ _ _ _ _ _ _ _ _ _ Hw)).
    unfold desc_at, desc_of in *. simplify_eq. by apply (HQ (tag d) x).
  - intros t x Ht Hd. apply Hin. right. exists t. split; [done|]. by apply (HQ t x).
Qed.

(** ** One relation *)
Lemma fork_sizes_run reln : forall forkNum firstDelBlock i nBlocks,
  length firstDelBlock = length forkNum -> i + Z.of_nat (length forkNum) <= MAX_FORKNUM ->
  exists res, fork_sizes smgrnblocks_cached reln i forkNum firstDelBlock nBlocks w = (Ret res, w) /\
    match res with
    | Some (l, _) => l = smgrnblocks_cached reln <$> forkNum /\ Forall (fun b => b <> InvalidBlockNumber) l
    | None => True
    end.
Proof using Type.
  induction forkNum as [|f fs IH]; intros [|b bs] i nBlocks Hl Hi; try done; cbn [fork_sizes].
  - eexists. split; [reflexivity|]. done.
  - injection Hl as Hl. cbn [length] in Hi. rewrite (proj2 (Z.leb_gt MAX_FORKNUM i)) by lia.
    destruct (Z.eqb_spec (smgrnblocks_cached reln f) InvalidBlockNumber) as [E|E]; [by exists None|].
    destruct (IH bs (i + 1) (u64 (nBlocks + u32 (smgrnblocks_cached reln f - b))) Hl) as (res & Hrun & Hres); [lia|].
    eexists. split; [run Hrun; reflexivity|]. destruct res as [[l k]|]; [|done]. destruct Hres as [-> Hf]. cbn. split; [done|by constructor].
Qed.

Lemma in_forks_spec : forall forkNum firstDelBlock t, length firstDelBlock = length forkNum ->
  in_forks forkNum firstDelBlock t = true <->
  exists j f b, forkNum !! j = Some f /\ firstDelBlock !! j = Some b /\ BufTagGetForkNum t = f /\ b <= blockNum t.
Proof using Type.
  clear. induction forkNum as [|f fs IH]; intros [|b bs] t Hl; try done; cbn [in_forks].
  - split; [done|]. intros (j & ? & ? & Hj & _). done.
  - injection Hl as Hl. destruct ((BufTagGetForkNum t =? f) && (blockNum t >=? b)) eqn:E.
    + split; [|done]. intros _. exists 0%nat, f, b. split_and!; [done|done|lia|lia].
    + rewrite (IH bs t Hl). split.
      * intros (j & f' & b' & H). by exists (S j), f', b'.
      * intros ([|j] & f' & b' & H1 & H2 & H3 & H4); cbn in *; [simplify_eq; lia|by exists j, f', b'].
Qed.

(** The sizes that are known cover the buffers there are. *)
Definition sizes_cover (reln : SMgrRelation) : Prop :=
  forall t x, SharedBufHash (shm w) !! t = Some x -> BufTagGetRelFileLocator t = smgr_locator reln ->
    let nb := smgrnblocks_cached reln (BufTagGetForkNum t) in
    0 <= blockNum t /\ (nb <> InvalidBlockNumber -> blockNum t < nb).

Definition doomed_forks (reln : SMgrRelation) (forkNum firstDelBlock : list Z) (t : BufferTag) : bool :=
  BufTagMatchesRelFileLocator t (smgr_locator reln) && in_forks forkNum firstDelBlock t.

Lemma fork_block_doomed reln forkNum firstDelBlock t :
  length firstDelBlock = length forkNum -> fork_block (smgr_locator reln) forkNum (smgrnblocks_cached reln <$> forkNum) firstDelBlock t ->
  doomed_forks reln forkNum firstDelBlock t = true.
Proof using Type.
  intros Hl (j & f & nb & b & H1 & _ & H3 & Hrel & Hf & Hb). unfold doomed_forks. apply andb_true_iff. split.
  - by apply BufTagMatches_spec.
  - apply in_forks_spec; [done|]. exists j, f, b. split_and!; [done..|lia].
Qed.

Lemma DropRelationBuffers_run reln forkNum firstDelBlock :
  let doomed := doomed_forks reln forkNum firstDelBlock in
  RelFileLocatorBackendIsTemp reln = false -> length firstDelBlock = length forkNum ->
  Z.of_nat (length forkNum) <= MAX_FORKNUM -> unpinned_if doomed w -> sizes_cover reln ->
  exists w', DropRelationBuffers smgrnblocks_cached reln forkNum firstDelBlock w = (Ret tt, w') /\
    drop_post doomed m0 mu pins w w'.
Proof using Hw Hlw Equivalence0.
  intros doomed Htemp Hl Hmax Hr Hcover. unfold DropRelationBuffers. rewrite Htemp.
  destruct (fork_sizes_run reln forkNum firstDelBlock 0 0 Hl) as (res & Hrun & Hres); [lia|]. run Hrun.
  unfold get_me, gets. rewrite (bind_ret _ _ w n w) by (by rewrite (aw_n _ _ _ _ _ _ _ _ _ _ Hw)).
  match goal with |- context [scan_buffers (drop_if ?look)] => destruct (scan_post look doomed) as (w1 & Hrun1 & Hp1) end;
    [intros t; unfold goes, doomed, doomed_forks; destruct (BufTagMatchesRelFileLocator t (smgr_locator reln)) eqn:E; rewrite ?E; done|done|].
  destruct res as [[nForkBlock k]|]; [|by exists w1]. destruct (_ && _); [|by exists w1]. destruct Hres as [-> Hvalid].
  apply (sweep_post (fork_block (smgr_locator reln) forkNum (smgrnblocks_cached reln <$> forkNum) firstDelBlock)).
  - apply find_and_drop_forks_sweeps; try done; [apply inv_hook|by rewrite length_fmap|].
    intros x d Hd Ht. by apply (Hr x d Hd), fork_block_doomed.
  - intros t x Ht. split; [by apply fork_block_doomed|]. unfold doomed, doomed_forks.
    intros [Hm Hf]%andb_true_iff. apply BufTagMatches_spec in Hm. apply in_forks_spec in Hf as (j & f & b & H1 & H2 & <- & H4); [|done].
    assert ((smgrnblocks_cached reln <$> forkNum) !! j = Some (smgrnblocks_cached reln (BufTagGetForkNum t))) as Hj by (by rewrite list_lookup_fmap, H1).
    exists j, (BufTagGetForkNum t), (smgrnblocks_cached reln (BufTagGetForkNum t)), b. split_and!; [done..|].
    split_and!; [done|done|done|]. apply (Hcover t x Ht Hm). rewrite Forall_forall in Hvalid. apply Hvalid. by eapply list_elem_of_lookup_2.
Qed.

(** ** All forks of many relations *)
Context (smgrexists : SMgrRelation -> Z -> M bool) (fork_exists : SMgrRelation -> Z -> bool).
Hypothesis smgrexists_run : forall r j, smgrexists r j w = (Ret (fork_exists r j), w).

Lemma drop_local_relations_run rs :
  Forall (fun r => smgr_backend r <> MyProcNumber (me w)) rs ->
  drop_local_relations rs w = (Ret (shared_relations rs), w).
Proof using Type.
  induction 1 as [|r rs Hr Hrs IH]; [done|]. cbn [drop_local_relations]. unfold shared_relations. rewrite filter_cons.
  fold (shared_relations rs). destruct (RelFileLocatorBackendIsTemp r).
  - unfold get_me, gets. rewrite (bind_ret _ _ w (MyProcNumber (me w)) w) by done.
    rewrite (proj2 (Z.eqb_neq _ _) Hr). cbn [when]. rewrite bind_ret_l. by rewrite decide_False by done.
  - run IH. by rewrite decide_True by done.
Qed.

(** The sizes of the forks of [reln] from [j] on; a size that is not known is that of
    a fork that does not exist. *)
Definition sizes_from (reln : SMgrRelation) (j : Z) (l : list Z) : Prop :=
  forall i, (i < length l)%nat -> let f := j + Z.of_nat i in
    l !! i = Some (smgrnblocks_cached reln f) /\
    (smgrnblocks_cached reln f = InvalidBlockNumber -> fork_exists reln f = false).

Lemma all_fork_sizes_run reln k : forall j nBlocks,
  exists res, all_fork_sizes smgrnblocks_cached smgrexists reln k j nBlocks w = (Ret res, w) /\
    match res with Some (l, _) => length l = k /\ sizes_from reln j l | None => True end.
Proof using smgrexists_run.
  induction k as [|k IH]; intros j nBlocks; cbn [all_fork_sizes].
  - eexists. split; [reflexivity|]. split; [done|]. intros i Hi. cbn in Hi. lia.
  - assert (forall nBlocks, (smgrnblocks_cached reln j = InvalidBlockNumber -> fork_exists reln j = false) ->
      exists res, (let* rest := all_fork_sizes smgrnblocks_cached smgrexists reln k (j + 1) nBlocks in
        ret ((fun '(l, n) => (smgrnblocks_cached reln j :: l, n)) <$> rest)) w = (Ret res, w) /\
      match res with Some (l, _) => length l = S k /\ sizes_from reln j l | None => True end) as Hnext.
    { intros nb Hj. destruct (IH (j + 1) nb) as (res & Hrun & Hres). eexists. split; [run Hrun; reflexivity|].
      destruct res as [[l c]|]; [|done]. destruct Hres as [<- Hl]. cbn. split; [done|].
      intros [|i] Hi; cbn; [rewrite Z.add_0_r; done|]. replace (j + Z.of_nat (S i)) with (j + 1 + Z.of_nat i) by lia.
      apply Hl. cbn in Hi. lia. }
    destruct (Z.eqb_spec (smgrnblocks_cached reln j) InvalidBlockNumber) as [E|E]; [|by apply Hnext].
    run (smgrexists_run reln j). destruct (fork_exists reln j) eqn:Ex; cbn [negb]; [by exists None|]. by apply Hnext.
Qed.

Lemma all_relation_sizes_run rels : forall nBlocks,
  exists res, all_relation_sizes smgrnblocks_cached smgrexists rels nBlocks w = (Ret res, w) /\
    match res with
    | Some (blocks, _) => Forall2 (fun r b => length b = Z.to_nat (MAX_FORKNUM + 1) /\ sizes_from r 0 b) rels blocks
    | None => True
    end.
Proof using smgrexists_run.
  induction rels as [|r rs IH]; intros nBlocks; cbn [all_relation_sizes].
  - eexists. split; [reflexivity|]. constructor.
  - destruct (all_fork_sizes_run r (Z.to_nat (MAX_FORKNUM + 1)) 0 nBlocks) as (res & Hrun & Hres).
    destruct res as [[b k]|]; [|exists None; split; [by run Hrun|done]].
    destruct (IH k) as (rest & Hrun2 & Hrest). eexists. split; [run Hrun; run Hrun2; reflexivity|].
    destruct rest as [[bs c]|]; [|done]. by constructor.
Qed.

(** Forks without a file have no buffers, and there are no forks but the four. *)
Definition forks_known (reln : SMgrRelation) : Prop :=
  forall t x, SharedBufHash (shm w) !! t = Some x -> BufTagGetRelFileLocator t = smgr_locator reln ->
    0 <= BufTagGetForkNum t <= MAX_FORKNUM /\ fork_exists reln (BufTagGetForkNum t) = true.

Lemma relations_sweep rs blocks :
  Forall2 (fun r b => length b = Z.to_nat (MAX_FORKNUM + 1) /\ sizes_from r 0 b) (shared_relations rs) blocks ->
  unpinned_if (doomed_relations rs) w -> (forall r, r ∈ shared_relations rs -> sizes_cover r /\ forks_known r) ->
  exists w', find_and_drop_relations (shared_relations rs) blocks w = (Ret tt, w') /\
    drop_post (doomed_relations rs) m0 mu pins w w'.
Proof using Hw Hlw Equivalence0.
  intros Hsz Hr Hk. pose proof (Forall2_length _ _ _ Hsz) as Hlen.
  assert (forall r b i nb t, (r, b) ∈ zip (shared_relations rs) blocks -> b !! i = Some nb ->
    block_of (smgr_locator r) (Z.of_nat i) 0 nb t -> doomed_relations rs t = true) as Hdoom.
  { intros r b i nb t Hin _ (Ht & _). apply doomed_relations_spec. exists r. split; [|done]. by apply elem_of_zip_l in Hin. }
  eapply sweep_post; [apply find_and_drop_relations_sweeps; try done; [apply inv_hook|]|].
  - intros x d r b i nb Hd Hin Hi Ht. by eapply (Hr x d Hd), Hdoom.
  - intros t x Ht. split; [intros (r & b & i & nb & H1 & H2 & _ & H4); by eapply Hdoom|].
    intros (r & Hin & Hrel)%doomed_relations_spec. destruct (Hk r Hin) as [Hc Hf].
    destruct (Hf t x Ht Hrel) as [Hfork Hex]. destruct (Hc t x Ht Hrel) as [Hb0 Hb].
    apply list_elem_of_lookup_1 in Hin as [k Hin]. destruct (Forall2_lookup_l _ _ _ _ _ Hsz Hin) as (b & Hkb & Hlb & Hs).
    set (i := Z.to_nat (BufTagGetForkNum t)). assert (0 + Z.of_nat i = BufTagGetForkNum t) as Ei by lia.
    destruct (Hs i) as [Hi Hi2]; [rewrite Hlb; lia|]. rewrite Ei in Hi, Hi2.
    assert (smgrnblocks_cached r (BufTagGetForkNum t) <> InvalidBlockNumber) as Hv by (intros E; by rewrite (Hi2 E) in Hex).
    exists r, b, i, (smgrnblocks_cached r (BufTagGetForkNum t)). split_and!; [|done|done|].
    + apply (list_elem_of_lookup_2 _ k). rewrite lookup_zip_with, Hin. cbn. by rewrite Hkb.
    + split_and!; [done|lia|done|by apply Hb].
Qed.

Lemma DropRelationsAll_run rs :
  Forall (fun r => smgr_backend r <> MyProcNumber (me w)) rs ->
  unpinned_if (doomed_relations rs) w -> (forall r, r ∈ shared_relations rs -> sizes_cover r /\ forks_known r) ->
  exists w', DropRelationsAllBuffers smgrnblocks_cached smgrexists rs w = (Ret tt, w') /\
    drop_post (doomed_relations rs) m0 mu pins w w'.
Proof using Hw Hlw Equivalence0 smgrexists_run.
  intros Hmine Hr Hk. unfold DropRelationsAllBuffers. run (drop_local_relations_run rs Hmine).
  destruct (Nat.eqb_spec (length (shared_relations rs)) 0) as [E|E].
  - apply length_zero_iff_nil in E. apply (sweep_post (fun _ => False)); [apply sweeps_ret|].
    intros t x _. rewrite doomed_relations_spec, E. split; [done|]. intros (r & []%not_elem_of_nil & _).
  - destruct (all_relation_sizes_run (shared_relations rs) 0) as (res & Hrun & Hres). run Hrun.
    unfold get_me, gets. rewrite (bind_ret _ _ w n w) by (by rewrite (aw_n _ _ _ _ _ _ _ _ _ _ Hw)).
    match goal with |- context [scan_buffers (drop_if ?look)] => destruct (scan_post look (doomed_relations rs)) as (w1 & Hrun1 & Hp1) end; [|done|].
    + intros t. unfold goes. rewrite find_relation. destruct (doomed_relations rs t); [|done]. cbn. by apply BufTagMatches_spec.
    + destruct res as [[blocks k]|]; [|by exists w1]. destruct (_ <? _); [|by exists w1]. by apply relations_sweep.
Qed.
End from.
End drop.

(** ** The LRU queue

    A dropped buffer leaves the queue, and only a search that finds it can put it
    back. *)
Definition lru_without (n : Z) (l vs m : list Z) : Prop := lru_mem n m (filter (fun x => x ∉ vs) l).

Lemma filter_rm v vs (l : list Z) : filter (fun x => x ∉ v :: vs) l = rm v (filter (fun x => x ∉ vs) l).
Proof.
  unfold rm. rewrite list_filter_filter. apply list_filter_iff. intros x. rewrite not_elem_of_cons. tauto.
Qed.

Lemma filter_none_gone (l : list Z) : filter (fun x => x ∉ []) l = l.
Proof.
  induction l as [|x l IH]; [done|]. rewrite filter_cons, decide_True by apply not_elem_of_nil. by rewrite IH.
Qed.

Lemma filter_all_gone (P : Z -> Prop) `{!forall x, Decision (P x)} (l : list Z) : (forall x, x ∈ l -> ~ P x) -> filter P l = [].
Proof.
  intros Hl. destruct (filter P l) as [|x l'] eqn:E; [done|]. assert (x ∈ filter P l) as [Hx Hin]%list_elem_of_filter; [|by destruct (Hl x)].
  rewrite E. apply list_elem_of_here.
Qed.

Lemma lru_without_hook n l vs v : 0 <= v < n ->
  hook_run (notify_invalidate (vtable LRUVtable)) n v (lru_without n l vs) (lru_without n l (v :: vs)).
Proof.
  intros Hv. apply (section_hook lru_invalidate_section). intros w Hw Hm.
  destruct (lru_invalidate_rewrites n v Hv w _ Hw Hm) as (m' & Hrun & Hm'). exists m'. split; [done|].
  unfold lru_without. by rewrite filter_rm.
Qed.

Section lru.
Context (same_page : relation Z) `{!Equivalence same_page} `{!Server}.
Context (permanent : BufferTag -> bool) (n : Z) (others : Z -> Z).
Local Abbreviation at_work := (at_work same_page permanent n LRUVtable None others).

Definition of_database (dbid : Z) (t : BufferTag) : bool := dbOid t =? dbid.
Definition stays (dbid : Z) (w : World) (x : Z) : bool :=
  match lookupZ (BufferDescriptors (shm w)) x with Some d => negb (of_database dbid (tag d)) | None => true end.

Lemma empty_queue_fails m0 mu pins w :
  at_work m0 mu pins w -> lru_mem n (mem w) [] -> (StrategyGetBuffer None w).1 = Elog "no buffers in LRU queue".
Proof using Type.
  intros Hw Hm. destruct (announce_run _ _ _ _ _ _ m0 mu pins w Hw) as (s' & Hrun & Hw1 & _ & Hmem & _).
  set (w1 := with_shm s' w) in *. pose proof (aw_gas _ _ _ _ _ _ _ _ _ _ Hw1) as Hg. unfold search_gas in Hg.
  pose proof (br_size _ _ _ (aw_ready _ _ _ _ _ _ _ _ _ _ Hw1)) as Hn. unfold pool_sized in Hn.
  pose proof (LRUGetBuffer_search n None [] w1 (aw_quiet _ _ _ _ _ _ _ _ _ _ Hw1) (sr_lock _ _ _ _ _ (aw_shared _ _ _ _ _ _ _ _ _ _ Hw1))
    (aw_n _ _ _ _ _ _ _ _ _ _ Hw1) ltac:(lia) ltac:(lia)) as Hres.
  unfold StrategyGetBuffer. rewrite bind_ret_l, <- bind_assoc. run Hrun.
  rewrite (bind_ret active_vtable _ w1 (vtable LRUVtable) w1)
    by (unfold active_vtable, get_me, gets, bind; by rewrite (aw_active _ _ _ _ _ _ _ _ _ _ Hw1)).
  change (get_buffer (vtable LRUVtable) None) with (LRUGetBuffer None). unfold bind at 1. rewrite Hres; [done|..].
  - change (mem w1) with (policy_mem s'). by rewrite Hmem.
  - intros x []%not_elem_of_nil.
  - done.
  - intros x []%not_elem_of_nil.
Qed.

Lemma DropDatabase_lru_run m0 mu pins w l dbid :
  at_work m0 mu pins w -> held_lwlocks m0 = [] -> lru_mem n (mem w) l -> unpinned_if (of_database dbid) w ->
  exists w', DropDatabaseBuffers dbid w = (Ret tt, w') /\
    drop_post same_page permanent n LRUVtable None others (of_database dbid) m0 mu pins w w' /\
    lru_mem n (mem w') (filter (fun x => stays dbid w x = true) l) /\
    forall x d, desc_at w x d -> desc_at w' x (if stays dbid w x then d else blank_desc d).
Proof using Equivalence0.
  intros Hw Hlw Hm Hr.
  assert (forall vs m, lru_without n l vs m -> pq_inv (p := LRUVtable) n (StrategyControl (shm w)) m) as Hinv by (intros vs m Hvs; by eexists).
  unfold DropDatabaseBuffers. set (look := fun t : BufferTag => _).
  assert (forall t, goes look t = of_database dbid t) as Hgoes by (intros t; unfold goes, look, of_database; destruct (dbOid t =? dbid) eqn:E; rewrite ?E; done).
  destruct (scan_run same_page permanent n LRUVtable None others m0 mu pins w (lru_without n l) Hw Hlw Hinv (lru_without_hook n l) look)
    as (w' & vs & Hrun & He & Hin).
  { unfold lru_without. by rewrite filter_none_gone. }
  { intros x d Hd. rewrite Hgoes. exact (Hr x d Hd). }
  assert (forall x, x ∈ vs <-> stays dbid w x = false) as Hvs.
  { intros x. rewrite Hin. unfold stays, desc_at. destruct (lookupZ _ x) as [d|]; [|naive_solver].
    rewrite negb_false_iff. setoid_rewrite Hgoes. naive_solver. }
  exists w'. split_and!; [done| | |].
  - apply (emptied_post _ _ _ _ _ _ _ _ _ _ Hw _ _ vs w' He).
    + intros x d (d' & Hd' & Hg)%Hin Hd. unfold desc_at in *. simplify_eq. by rewrite <- Hgoes.
    + intros t x Hx Hd. apply (pl_hash _ _ _ _ _ (aw_pool _ _ _ _ _ _ _ _ _ _ Hw)) in Hx as (d & Hx & _ & <-).
      apply Hin. exists d. by rewrite Hgoes.
  - pose proof (em_pol _ _ _ _ _ _ _ _ _ _ _ _ _ He) as Hp. unfold lru_without in Hp.
    rewrite (list_filter_iff _ (fun x => stays dbid w x = true)) in Hp; [done|]. intros x. rewrite Hvs. by destruct (stays dbid w x).
  - intros x d Hd. pose proof (fg_desc _ _ _ (em_forgot _ _ _ _ _ _ _ _ _ _ _ _ _ He) x d Hd) as Hd'.
    destruct (stays dbid w x) eqn:E; [rewrite bool_decide_false in Hd'|rewrite bool_decide_true in Hd']; try done;
      [rewrite Hvs; congruence|by apply Hvs].
Qed.
End lru.

(** ** Examples *)
Definition lru_words3 : list Z := policy_mem (shm (LRUInitialize false (sample_world LRUVtable (replicate 9 0) [])).2).
Definition lru_cache_world : World :=
  mkWorld (with_policy_mem lru_words3 cache_shared) (sample_me 3 LRUVtable) [].
Lemma lru_cache_queue : lru_mem 3 lru_words3 [0; 1; 2].
Proof.
  destruct (LRUInitialize_run (sample_world LRUVtable (replicate 9 0) []) 3) as (m & Hrun & Hm);
    [lia|done|vm_compute; discriminate|].
  unfold lru_words3. by rewrite Hrun.
Qed.
Lemma lru_cache_at_work :
  at_work eq (fun _ => true) 3 LRUVtable None (fun _ => 0) (me lru_cache_world) ∅ [] lru_cache_world.
Proof.
  split; try done.
  - split; try done. vm_compute. lia.
  - by destruct (proj1 (sample_reserved 3 LRUVtable)).
  - split; [by apply pool_mem, cache_pool|by exists [0; 1; 2]; apply lru_cache_queue|done|by left].
  - split; [|intros x; lia]. intros x d [[-> ->]|[[-> ->]|[-> ->]]]%cache_cases; by vm_compute.
Qed.

Lemma cache_unpinned doomed faults : unpinned_if doomed (cache_world faults).
Proof. intros x d [[_ ->]|[[_ ->]|[_ ->]]]%cache_cases _; by vm_compute. Qed.
Lemma cache_mapped t x : SharedBufHash cache_shared !! t = Some x -> exists b, 0 <= b < 3 /\ t = sample_tag b.
Proof.
  intros (d & [[-> ->]|[[-> ->]|[-> ->]]]%cache_cases & _ & <-)%(pl_hash _ _ _ _ _ cache_pool);
    [exists 0|exists 1|exists 2]; split; (lia || done).
Qed.
Definition sample_reln : SMgrRelation := mkSMgrRelation sample_rel INVALID_PROC_NUMBER.
Definition sample_sizes (_ : SMgrRelation) (f : Z) : Z := if f =? 0 then 4 else InvalidBlockNumber.

Lemma sample_cover faults : sizes_cover sample_sizes (cache_world faults) sample_reln.
Proof. intros t x (b & Hb & ->)%cache_mapped _. cbn. lia. Qed.

(** ** The theorems *)

(** C14. [DropRelationBuffers], for a relation that is not temporary, under any
    policy: whether the sizes of the forks are known, so that the blocks are looked
    up one by one, or the pool is scanned, exactly the blocks of the given forks
    from the given block numbers on lose their buffers.  Dirty pages among them are
    not written; every other block of every relation keeps its buffer and its page,
    dirty or not; the pool and the policy are in order, nothing stays pinned or
    locked.  It relies on the buffers being unpinned and on a known size of a fork
    being no smaller than what is in the pool. *)
Theorem DropRelationBuffers_exact same_page `{!Equivalence same_page} `{!Server} permanent n p strategy others
    smgrnblocks_cached m0 mu pins w reln forkNum firstDelBlock :
  at_work same_page permanent n p strategy others m0 mu pins w -> held_lwlocks m0 = [] ->
  RelFileLocatorBackendIsTemp reln = false -> length firstDelBlock = length forkNum ->
  Z.of_nat (length forkNum) <= MAX_FORKNUM ->
  unpinned_if (doomed_forks reln forkNum firstDelBlock) w -> sizes_cover smgrnblocks_cached w reln ->
  exists w', DropRelationBuffers smgrnblocks_cached reln forkNum firstDelBlock w = (Ret tt, w') /\
    drop_post same_page permanent n p strategy others (doomed_forks reln forkNum firstDelBlock) m0 mu pins w w'.
Proof. intros Hw Hlw. by apply DropRelationBuffers_run. Qed.

(** The relation is truncated to one block: two dirty pages are forgotten. *)
Lemma DropRelationBuffers_exact_witness :
  exists w', DropRelationBuffers sample_sizes sample_reln [0] [1] (cache_world []) = (Ret tt, w') /\
    page_seen (shm w') (sample_tag 0) = Some 10 /\ page_seen (shm w') (sample_tag 1) = Some 11.
Proof.
  destruct (DropRelationBuffers_exact eq (fun _ => true) 3 SieveVtable None (fun _ => 0) sample_sizes (me (cache_world [])) ∅ []
    (cache_world []) sample_reln [0] [1] (at_idle _ _ _ _ _ _ (cache_at_rest []))) as (w' & Hrun & Hpost); try done.
  - apply cache_unpinned.
  - apply sample_cover.
  - exists w'. split; [exact Hrun|]. rewrite !(dp_seen _ _ _ _ _ _ _ _ _ _ _ _ Hpost). split; vm_compute; reflexivity.
Defined.

(** C15. [DropRelationsAllBuffers] takes all buffers away from all forks of the
    relations given, and no others, on each of its three paths: the blocks looked
    up one by one if all sizes are known, a scan with a walk through the list, and
    a scan with a binary search in the sorted list if there are more than twenty
    relations.  Temporary relations of other backends are passed over. *)
Theorem DropRelationsAllBuffers_exact same_page `{!Equivalence same_page} `{!Server} permanent n p strategy others
    smgrnblocks_cached smgrexists fork_exists m0 mu pins w rs :
  at_work same_page permanent n p strategy others m0 mu pins w -> held_lwlocks m0 = [] ->
  (forall r j, smgrexists r j w = (Ret (fork_exists r j), w)) ->
  Forall (fun r => smgr_backend r <> MyProcNumber (me w)) rs -> unpinned_if (doomed_relations rs) w ->
  (forall r, r ∈ shared_relations rs -> sizes_cover smgrnblocks_cached w r /\ forks_known w fork_exists r) ->
  exists w', DropRelationsAllBuffers smgrnblocks_cached smgrexists rs w = (Ret tt, w') /\
    drop_post same_page permanent n p strategy others (doomed_relations rs) m0 mu pins w w'.
Proof. intros Hw Hlw Hex. by apply (DropRelationsAll_run _ _ _ _ _ _ _ _ _ _ _ Hw Hlw _ _ Hex). Qed.

(** Twenty-one relations, one of them in the pool. *)
Definition many_relations : list SMgrRelation :=
  (fun k => mkSMgrRelation (mkRelFileLocator 1663 5 (16400 - Z.of_nat k)) INVALID_PROC_NUMBER) <$> seq 0 21.
Definition sample_exists (_ : SMgrRelation) (f : Z) : bool := f =? 0.

Lemma DropRelationsAllBuffers_exact_witness :
  exists w', DropRelationsAllBuffers sample_sizes (fun r f => ret (sample_exists r f)) many_relations (cache_world []) = (Ret tt, w') /\
    SharedBufHash (shm w') !! sample_tag 2 = None /\ page_seen (shm w') (sample_tag 2) = Some 12.
Proof.
  destruct (DropRelationsAllBuffers_exact eq (fun _ => true) 3 SieveVtable None (fun _ => 0) sample_sizes (fun r f => ret (sample_exists r f))
    sample_exists (me (cache_world [])) ∅ [] (cache_world []) many_relations (at_idle _ _ _ _ _ _ (cache_at_rest []))) as (w' & Hrun & Hpost).
  - reflexivity.
  - reflexivity.
  - apply (bool_decide_unpack _). vm_compute. exact I.
  - apply cache_unpinned.
  - intros r _. split; [intros t x (b & Hb & ->)%cache_mapped _; cbn; lia|].
    intros t x (b & Hb & ->)%cache_mapped _. split; [unfold MAX_FORKNUM, INIT_FORKNUM; cbn; lia|done].
  - exists w'. split; [exact Hrun|]. rewrite (dp_mapped _ _ _ _ _ _ _ _ _ _ _ _ Hpost), (dp_seen _ _ _ _ _ _ _ _ _ _ _ _ Hpost).
    split; vm_compute; reflexivity.
Defined.

(** C38. Under LRU, [DropDatabaseBuffers] forgets exactly the blocks of the database,
    and the buffers it has emptied are no longer in the queue, although nobody has
    them pinned.  A search looks at the queue alone: if all queued buffers were of
    the database, every buffer of the queue is free and without a block, and yet the
    next search, without a ring, fails.  Only [LRUNotifyInsert] puts a buffer back,
    which is called for a victim that a search or the ring of an access strategy has
    returned. *)
Theorem DropDatabaseBuffers_drains_LRU same_page `{!Equivalence same_page} `{!Server} permanent n others m0 mu pins w l dbid :
  at_work same_page permanent n LRUVtable None others m0 mu pins w -> held_lwlocks m0 = [] ->
  lru_mem n (mem w) l -> unpinned_if (of_database dbid) w ->
  exists w', DropDatabaseBuffers dbid w = (Ret tt, w') /\
    drop_post same_page permanent n LRUVtable None others (of_database dbid) m0 mu pins w w' /\
    lru_mem n (mem w') (filter (fun x => stays dbid w x = true) l) /\
    ((forall x, x ∈ l -> stays dbid w x = false) ->
      (forall x d, x ∈ l -> desc_at w' x d -> refcount (state d) = 0 /\ flag (state d) BM_TAG_VALID = false) /\
      (StrategyGetBuffer None w').1 = Elog "no buffers in LRU queue").
Proof.
  intros Hw Hlw Hm Hr. destruct (DropDatabase_lru_run same_page permanent n others m0 mu pins w l dbid Hw Hlw Hm Hr)
    as (w' & Hrun & Hpost & Hq & Hdesc).
  exists w'. split_and!; [done..|]. intros Hall. split.
  - intros x d' Hx Hd'. pose proof (q_range _ _ _ _ _ (lm_queue _ _ _ Hm) x Hx) as Hxn.
    destruct (aw_at _ _ _ _ _ _ _ _ _ _ x Hw Hxn) as (d & Hd). specialize (Hdesc x d Hd). rewrite (Hall x Hx) in Hdesc.
    assert (d' = blank_desc d) as -> by (unfold desc_at in *; congruence).
    destruct (aw_desc _ _ _ _ _ _ _ _ _ _ _ _ Hw Hd) as [D1 D2 _ _ _ _ _ _ D8].
    assert (refcount (state d) = 0) as H0.
    { apply (Hr x d Hd). specialize (Hall x Hx). unfold stays in Hall. unfold desc_at in Hd. rewrite Hd in Hall. by apply negb_false_iff in Hall. }
    destruct (blank_desc_ok x d D1 D2 (D8 H0)) as [[] ->]. done.
  - eapply empty_queue_fails; [by apply Hpost|]. rewrite filter_all_gone in Hq; [done|].
    intros x Hx. by rewrite (Hall x Hx).
Qed.

(** All buffers of the pool are of one database. *)
Lemma DropDatabaseBuffers_drains_LRU_witness :
  exists w', DropDatabaseBuffers 5 lru_cache_world = (Ret tt, w') /\
    lru_mem 3 (mem w') [] /\ (StrategyGetBuffer None w').1 = Elog "no buffers in LRU queue".
Proof.
  destruct (DropDatabaseBuffers_drains_LRU eq (fun _ => true) 3 (fun _ => 0) (me lru_cache_world) ∅ [] lru_cache_world [0; 1; 2] 5
    lru_cache_at_work) as (w' & Hrun & _ & Hq & Hdrain); [done|exact lru_cache_queue| |].
  - intros x d [[_ ->]|[[_ ->]|[_ ->]]]%cache_cases _; by vm_compute.
  - exists w'. split; [exact Hrun|]. split; [exact Hq|]. apply Hdrain.
    intros x Hx. repeat (apply elem_of_cons in Hx as [-> | Hx]; [vm_compute; reflexivity|]). destruct (not_elem_of_nil _ Hx).
Defined.
