(* ===== verification/FlushScan.v ===== *)
(** * Writing dirty buffers out in bulk, exactly

    What [FlushDatabaseBuffers], [FlushRelationBuffers] and [FlushRelationsAllBuffers]
    do to a pool without interference: unless a write fails, what the readers of the
    blocks saw is on disk, and nobody sees anything else. *)
From S2P Require Import Prelude BufState BufTag Shmem Concurrency PrivateRefCount Ring Policy BufTable Strategy.
From S2P Require Import LocalBuf ContentLock LockWord LockProtocol LockRun Pin PinRun Reserved BufIO IORun Writeback.
From S2P Require Import Eviction BSearch DropFlush PolicyQuiet Pool FlushRun EvictRun VictimRun DropRun SharedCache DropCache.

Section flush.
Context (same_page : relation Z) `{!Equivalence same_page} `{!Server} `{!ServerLaws same_page}.
Context (permanent : BufferTag -> bool).
Context (n : Z) (p : EvictionVtablePtr) (strategy : BufferAccessStrategy).
Context (others : Z -> Z).
Local Abbreviation pool := (pool_ok same_page PageGetLSN permanent n).
Local Abbreviation at_work := (at_work same_page permanent n p strategy others).
Local Abbreviation seen := (same_pages same_page).
Local Abbreviation write_failed := (write_failed same_page permanent n).

(** ** One buffer *)

(** The header lock becomes a pin. *)
Lemma PinBuffer_Locked_run m0 mu pins w v d :
  at_work m0 mu pins w -> ReservedRefCountSlot (me w) <> -1 -> desc_at w v d -> mu !! (v + 1) = None -> idle d ->
  exists w' d', PinBuffer_Locked v (set_desc v (with_state (Z.lor (state d) BM_LOCKED) d) w) = (Ret tt, w') /\
    at_work m0 (<[v + 1 := one_pin]> mu) (v + 1 :: pins) w' /\ desc_at w' v d' /\ same_flags d d' /\
    refcount (state d') = refcount (state d) + 1 /\ idle d' /\ recounted (bump v 1) (shm w) (shm w') /\
    BufferDescriptors (shm w') = insertZ v d' (BufferDescriptors (shm w)).
Proof using Type.
  intros Hw Hres Hd Hmu Hidle. pose proof (aw_desc _ _ _ _ _ _ _ _ _ _ _ _ Hw Hd) as Hok. pose proof Hok as [D1 D2 D3 _ _ _ _ D8].
  pose proof (aw_range _ _ _ _ _ _ _ _ _ _ _ _ Hw Hd) as Hv.
  pose proof (ps_room _ _ _ v d (aw_counts _ _ _ _ _ _ _ _ _ _ Hw) Hd Hmu) as Hroom.
  set (dl := with_state (Z.lor (state d) BM_LOCKED) d). set (wl := set_desc v dl w).
  assert (desc_at wl v dl) as Hdl by (by apply (desc_at_set_eq w _ d)). pose proof (aw_quiet _ _ _ _ _ _ _ _ _ _ Hw) as Hq.
  set (d' := with_state (pinned_word (state d)) d) in *. set (w1 := set_desc v d' w).
  destruct (pin_word (state d) D2 Hroom) as (_ & Hr1 & _).
  assert (same_flags d d') as Hf by (by apply same_flags_pinned).
  assert (idle d') as Hi by (by eapply same_flags_idle).
  assert (can_track (me w1) (v + 1)) as Hct by (split; [exists mu; split; [apply Hw|done]|done]).
  destruct (TrackNewBufferPin_spec w1 (v + 1) Hct) as (m' & Hrun & Htr); [lia|].
  assert (recounted (bump v 1) (shm w) (shm w1)) as Hrc.
  { apply (recounted_redesc same_page permanent n v 1 d d'); [by eapply aw_pool|done|done|cbn; lia|lia]. }
  set (w' := with_me m' w1) in *.
  assert (tracked (with_rings (rings (me w)) (me w)) (me w') (v + 1)) as Htr' by (unfold w', w1 in *; by destruct w as [? [] ?]).
  destruct (aw_tracked _ _ _ _ _ _ m0 mu pins w w' v _ Hw Hmu Hrc Hq Htr') as (_ & Hw').
  { pose proof (aw_ring _ _ _ _ _ _ _ _ _ _ Hw) as Hring. by destruct strategy. }
  { destruct (aw_shared _ _ _ _ _ _ _ _ _ _ Hw). split; try done. eapply pool_alike_ok; [done|by eapply recounted_alike]. }
  exists w', d'. split; [|split_and!; try done; by apply (desc_at_set_eq w _ d)].
  unfold PinBuffer_Locked. run (GetBuffer_run wl v dl Hdl). change (buf_id dl) with (buf_id d). rewrite D1.
  run (GetEntry_absent wl mu (v + 1) false (aw_prc _ _ _ _ _ _ _ _ _ _ Hw) ltac:(lia) Hmu). rewrite c_assert_ok by done.
  run (read_quiet wl Hq v dl Hdl).
  run (UnlockBufHdrExt_quiet wl Hq (aw_pos _ _ _ _ _ _ _ _ _ _ Hw) v dl 0 0 1 Hdl (flag_locked _)).
  change (state dl) with (Z.lor (state d) BM_LOCKED). rewrite unlock_pin by done.
  change (with_state (pinned_word (state d)) dl) with d'. unfold wl. rewrite set_desc_set_desc. exact Hrun.
Qed.

(** Only the header of [v] changes; it has the same block and is clean and idle. *)
Definition cleaned_at (v : Z) (s s' : Shared) : Prop := exists d d', desc_of s v d /\ tag d' = tag d /\
  flag (state d') BM_DIRTY = false /\ idle d' /\ BufferDescriptors s' = insertZ v d' (BufferDescriptors s).

(** What writing buffers may do. *)
Definition write_post (m0 : Backend) (mu : gmap Z PrivateRefCountData) (pins : list Z) (w : World)
    (K : Shared -> Prop) (o : outcome unit) (w' : World) : Prop :=
  match o with
  | Ret _ => at_work m0 mu pins w' /\ seen (shm w) (shm w') /\ K (shm w')
  | Elog e => e = "I/O error" /\ write_failed m0 (shm w) (shm w')
  | _ => False
  end.

Lemma insertZ_twice {A} i (x y : A) l : insertZ i x (insertZ i y l) = insertZ i x l.
Proof using Type. unfold insertZ. case_match; [apply list_insert_insert_eq|done]. Qed.

Lemma FlushUnlocked_run m0 mu pins w v d reln :
  default (BufTagGetRelFileLocator (tag d)) reln = BufTagGetRelFileLocator (tag d) ->
  at_work m0 mu (v + 1 :: pins) w -> mu !! (v + 1) = Some one_pin -> desc_at w v d -> 0 < refcount (state d) -> idle d ->
  flag (state d) BM_DIRTY = true ->
  wp (FlushUnlockedBuffer v reln) (write_post m0 mu (v + 1 :: pins) w (fun s => exists d', tag d' = tag d /\
    flag (state d') BM_DIRTY = false /\ idle d' /\ 0 < refcount (state d') /\
    BufferDescriptors s = insertZ v d' (BufferDescriptors (shm w)))) w.
Proof using Type*.
  intros Hreln Hw Hmu Hd Hr Hi Hdirty. pose proof (aw_desc _ _ _ _ _ _ _ _ _ _ _ _ Hw Hd) as Hok.
  destruct (acquire_share_run same_page permanent n p strategy others m0 mu (v + 1 :: pins) w v d Hw Hmu Hd) as
    (w1 & d1 & Hrun1 & [Hw1 Hd1 Hrl1 Hl1 Hal1 _ _ Hds1]); [lia|by destruct Hi|].
  unfold FlushUnlockedBuffer. eapply wp_step; [run (GetBuffer_run w v d Hd); rewrite (do_id _ _ _ _ _ Hok); run Hrun1; reflexivity|].
  pose proof (relocked_alike _ _ Hrl1) as Ha1. pose proof (relocked_count _ _ Hrl1) as Hc1.
  assert (flag (state d1) BM_DIRTY = true) as Hdirty1 by (by rewrite (al_dirty _ _ Ha1)).
  destruct Hi as [I1 I2 I3 I4 I5 I6]. pose proof Hrl1 as (E1 & _ & Hs1).
  pose proof (proj1 (alike_cache same_page permanent n _ _ (aw_pool _ _ _ _ _ _ _ _ _ _ Hw) Hal1)) as Hse1.
  destruct (flush_work same_page permanent n p strategy others _ _ _ w1 v d1 reln ltac:(by rewrite (al_tag _ _ Ha1)) Hw1 Hd1 Hdirty1)
    as [(w2 & Hrun2 & Hfs & Hp2 & Hse2)|(w2 & d2 & Hrun2 & Hw2 & Hd2 & Hfl & Hse2 & Hha2 & _ & Hds2 & _)]; [by etrans; [by apply same_rest_flag|]|lia|..].
  { eapply wp_bind, wp_eq; [exact Hrun2|]. split; [done|]. split; [done|]. split; [done|by etrans]. }
  eapply wp_step; [run Hrun2; reflexivity|]. destruct Hfl as [F0 F1 F2 F3 F4 F5 F6 F7].
  destruct (release_share_run same_page permanent n p strategy others m0 _ _ w2 v d2 Hw2) as (w3 & d3 & Hrun3 & [Hw3 Hd3 Hrl3 Hl3 Hal3 _ _ Hds3]);
    [by eapply aw_ready|apply lookup_insert_eq|done|lia|congruence| |by rewrite F7, E1|].
  { rewrite F4. etrans; [by apply same_rest_flag|done]. }
  rewrite insert_insert_eq, insert_id in Hw3 by done. pose proof (relocked_alike _ _ Hrl3) as Ha3.
  eapply wp_eq; [exact Hrun3|]. split; [done|]. split.
  { etrans; [exact Hse1|]. etrans; [exact Hse2|]. apply (alike_cache same_page permanent n _ _ (aw_pool _ _ _ _ _ _ _ _ _ _ Hw2) Hal3). }
  exists d3. split_and!.
  - by rewrite (al_tag _ _ Ha3), (cl_tag _ _ F0), (al_tag _ _ Ha1).
  - by rewrite (al_dirty _ _ Ha3), (cl_dirty _ _ F0).
  - destruct Hrl3 as (E3 & _ & Hs3). split; [done|..|rewrite E3; cbn; rewrite F7, E1; done].
    all: etrans; [by apply same_rest_flag|]. all: done || (rewrite ?F4, ?F5, ?F6; etrans; [by apply same_rest_flag|done]).
  - rewrite (relocked_count _ _ Hrl3). lia.
  - by rewrite Hds3, Hds2, Hds1, !insertZ_twice.
Qed.

(** The page of [v] was written, and [v] is still pinned. *)
Record written_out (m0 : Backend) (mu : gmap Z PrivateRefCountData) (pins : list Z) (w : World) (v : Z) (d : BufferDesc)
    (w' : World) (d' : BufferDesc) : Prop := {
  wo_work : at_work m0 (<[v + 1 := one_pin]> mu) (v + 1 :: pins) w';
  wo_seen : seen (shm w) (shm w');
  wo_desc : desc_at w' v d';
  wo_tag : tag d' = tag d;
  wo_clean : flag (state d') BM_DIRTY = false;
  wo_idle : idle d';
  wo_count : 0 < refcount (state d');
  wo_descs : BufferDescriptors (shm w') = insertZ v d' (BufferDescriptors (shm w))
}.

Lemma pin_flush_run m0 mu pins w v d reln :
  default (BufTagGetRelFileLocator (tag d)) reln = BufTagGetRelFileLocator (tag d) ->
  at_work m0 mu pins w -> ReservedRefCountSlot (me w) <> -1 -> desc_at w v d -> mu !! (v + 1) = None -> idle d ->
  flag (state d) BM_DIRTY = true ->
  wp (PinBuffer_Locked v ;; FlushUnlockedBuffer v reln) (fun o w' => match o with
    | Ret _ => exists d', written_out m0 mu pins w v d w' d'
    | Elog e => e = "I/O error" /\ write_failed m0 (shm w) (shm w')
    | _ => False
    end) (set_desc v (with_state (Z.lor (state d) BM_LOCKED) d) w).
Proof using Type*.
  intros Hreln Hw Hres Hd Hmu Hi Hdirty.
  destruct (PinBuffer_Locked_run m0 mu pins w v d Hw Hres Hd Hmu Hi) as (w1 & d1 & Hrun1 & Hw1 & Hd1 & Hf1 & Hr1 & Hi1 & Hrc1 & Hds1).
  eapply wp_step; [run Hrun1; reflexivity|]. pose proof (same_flags_alike _ _ Hf1) as Ha1.
  pose proof (aw_pool _ _ _ _ _ _ _ _ _ _ Hw) as Hp. pose proof (recounted_alike same_page permanent n _ _ _ Hp Hrc1) as Hal1.
  pose proof (proj1 (alike_cache same_page permanent n _ _ Hp Hal1)) as Hse1.
  pose proof (refcount_range (state d)) as Hr0.
  eapply wp_mono; [|apply (FlushUnlocked_run m0 (<[v + 1 := one_pin]> mu) pins w1 v d1 reln)]; try done.
  - intros [[]|e|e|] w2; cbn; try done.
    2: { intros (-> & Hfs & Hp2 & Hse). split; [done|]. split; [done|]. split; [done|by etrans]. }
    intros (Hw2 & Hse2 & d2 & Ht2 & Hdi2 & Hi2 & Hr2 & Hds2). exists d2.
    split; try done; [by etrans|..|by rewrite Hds2, Hds1, insertZ_twice].
    + unfold desc_at. rewrite Hds2. by eapply lookupZ_insertZ_eq, lookupZ_Some.
    + by rewrite Ht2, (al_tag _ _ Ha1).
  - by rewrite (al_tag _ _ Ha1).
  - apply lookup_insert_eq.
  - lia.
  - by rewrite (al_dirty _ _ Ha1).
Qed.

Lemma let_go_run m0 mu pins w v d w2 d2 :
  desc_at w v d -> mu !! (v + 1) = None -> written_out m0 mu pins w v d w2 d2 ->
  exists w3, UnpinBuffer v w2 = (Ret tt, w3) /\ at_work m0 mu pins w3 /\ seen (shm w) (shm w3) /\ cleaned_at v (shm w) (shm w3).
Proof using Type*.
  intros Hd Hmu [Hw2 Hse2 Hd2 Ht2 Hdi2 Hi2 Hr2 Hds2].
  destruct (Unpin_run _ _ _ _ _ _ m0 _ pins w2 v d2 Hw2 (lookup_insert_eq _ _ _) Hd2) as (w3 & Hrun3 & Hw3 & Hrc3 & _ & _ & _ & Hds3); [lia|done|].
  pose proof (aw_pool _ _ _ _ _ _ _ _ _ _ Hw2) as Hp2. pose proof (recounted_alike same_page permanent n _ _ _ Hp2 Hrc3) as Hal3.
  rewrite delete_insert_id in Hw3 by done. exists w3. split; [done|]. split; [done|]. split.
  - etrans; [exact Hse2|]. apply (alike_cache same_page permanent n _ _ Hp2 Hal3).
  - pose proof (aw_desc _ _ _ _ _ _ _ _ _ _ _ _ Hw2 Hd2) as Hok2.
    assert (same_flags d2 (with_state (unpinned_word (state d2)) d2)) as Hf3 by (by apply same_flags_unpinned; [apply Hok2|]).
    exists d, (with_state (unpinned_word (state d2)) d2). split_and!; [done|done| |by eapply same_flags_idle|].
    + by rewrite (al_dirty _ _ (same_flags_alike _ _ Hf3)).
    + by rewrite Hds3, Hds2, insertZ_twice.
Qed.

(** Pin, write, unpin. *)
Lemma write_out_run m0 mu pins w v d reln :
  default (BufTagGetRelFileLocator (tag d)) reln = BufTagGetRelFileLocator (tag d) ->
  at_work m0 mu pins w -> ReservedRefCountSlot (me w) <> -1 -> desc_at w v d -> mu !! (v + 1) = None -> idle d ->
  flag (state d) BM_DIRTY = true ->
  wp (PinBuffer_Locked v ;; FlushUnlockedBuffer v reln ;; UnpinBuffer v)
    (write_post m0 mu pins w (cleaned_at v (shm w))) (set_desc v (with_state (Z.lor (state d) BM_LOCKED) d) w).
Proof using Type*.
  intros Hreln Hw Hres Hd Hmu Hi Hdirty. eapply wp_step; [symmetry; apply bind_assoc|]. apply wp_bind.
  eapply wp_mono; [|by apply (pin_flush_run m0 mu pins w v d reln)]. intros [[]|e|e|] w2; cbn; try done. intros [d2 Hwo].
  destruct (let_go_run m0 mu pins w v d w2 d2 Hd Hmu Hwo) as (w3 & Hrun & ? & ? & ?). eapply wp_eq; [exact Hrun|]. done.
Qed.

(** ** A scan *)
Definition flush_goes (look : BufferTag -> option ((BufferTag -> bool) * option RelFileLocator)) (t : BufferTag) : bool :=
  match look t with Some (again, _) => again t | None => false end.

(** Nobody uses the buffers in question for more than looking at them: this backend
    has no pin, and the others neither a content lock nor an I/O. *)
Definition idle_if (doomed : BufferTag -> bool) (mu : gmap Z PrivateRefCountData) (w : World) : Prop :=
  forall x d, desc_at w x d -> doomed (tag d) = true -> mu !! (x + 1) = None /\ idle d.

(** The buffers from [lo] to [hi] that [doomed] holds of are clean. *)
Definition cleaned_range (doomed : BufferTag -> bool) (lo hi : Z) (s s' : Shared) : Prop :=
  forall x d, desc_of s x d -> exists d', desc_of s' x d' /\ tag d' = tag d /\ (idle d -> idle d') /\
    flag (state d') BM_DIRTY = flag (state d) BM_DIRTY && negb ((lo <=? x) && (x <? hi) && doomed (tag d)).

Lemma cleaned_at_desc v s s' x d : cleaned_at v s s' -> desc_of s x d -> exists d', desc_of s' x d' /\ tag d' = tag d /\
  (idle d -> idle d') /\ flag (state d') BM_DIRTY = flag (state d) BM_DIRTY && negb (x =? v).
Proof using Type.
  intros (d0 & d' & Hd0 & Ht & Hdi & Hi & Hds) Hd. unfold desc_of in *. rewrite Hds. destruct (Z.eqb_spec x v) as [->|Hne].
  - simplify_eq. exists d'. split_and!; [by eapply lookupZ_insertZ_eq, lookupZ_Some|done|done|]. by rewrite Hdi, andb_false_r.
  - exists d. rewrite lookupZ_insertZ_ne, andb_true_r by done. done.
Qed.

Section scan.
Context (look : BufferTag -> option ((BufferTag -> bool) * option RelFileLocator)).
Hypothesis look_reln : forall t again reln, look t = Some (again, reln) ->
  default (BufTagGetRelFileLocator t) reln = BufTagGetRelFileLocator t.

Lemma flush_if_run m0 mu pins w i d :
  at_work m0 mu pins w -> desc_at w i d -> (flush_goes look (tag d) = true -> mu !! (i + 1) = None /\ idle d) ->
  wp (flush_if look i) (write_post m0 mu pins w (cleaned_range (flush_goes look) i (i + 1) (shm w))) w.
Proof using Type*.
  intros Hw Hd Hr. pose proof (aw_desc _ _ _ _ _ _ _ _ _ _ _ _ Hw Hd) as Hok.
  assert (forall w', shm w' = shm w -> (flush_goes look (tag d) = true -> flag (state d) BM_DIRTY = false) ->
    cleaned_range (flush_goes look) i (i + 1) (shm w) (shm w')) as Hsame.
  { intros w' -> Hclean x dx Hx. exists dx. split; [done|]. split; [done|]. split; [done|].
    destruct (decide (x = i)) as [->|Hne]; [|replace ((i <=? x) && (x <? i + 1)) with false by lia; by rewrite andb_true_r].
    unfold desc_of, desc_at in *. simplify_eq. replace ((i <=? i) && (i <? i + 1)) with true by lia. cbn.
    destruct (flush_goes look (tag d)); [by rewrite Hclean|by rewrite andb_true_r]. }
  unfold flush_if, GetBufferDescriptor. eapply wp_step; [run (deref_run w i d Hd); reflexivity|].
  destruct (look (tag d)) as [[again reln]|] eqn:Elook.
  2: { apply wp_ret. split; [done|]. split; [done|]. apply Hsame; [done|]. unfold flush_goes. by rewrite Elook. }
  destruct (Reserve_spec w mu) as (m1 & Hrun1 & Hinv1 & Hfr1 & Hres1 & _); [apply Hw|].
  pose proof (aw_track _ _ _ _ _ _ _ _ _ w m1 Hw (conj Hinv1 Hfr1)) as Hw1. set (w1 := with_me m1 w) in *.
  assert (desc_at w1 i d) as Hd1 by done. pose proof (aw_quiet _ _ _ _ _ _ _ _ _ _ Hw1) as Hq1.
  eapply wp_step; [run Hrun1; run (LockBufHdr_quiet w1 Hq1 (aw_pos _ _ _ _ _ _ _ _ _ _ Hw1) i d Hd1 (do_unlocked _ _ _ _ _ Hok));
    run (deref_run _ i _ (desc_at_set_eq w1 i d (with_state (Z.lor (state d) BM_LOCKED) d) Hd1)); reflexivity|].
  change (tag (with_state _ d)) with (tag d). rewrite !locked_flag by done.
  assert (flush_goes look (tag d) = again (tag d)) as Eg by (unfold flush_goes; by rewrite Elook).
  destruct (again (tag d) && (flag (state d) BM_VALID && flag (state d) BM_DIRTY)) eqn:E.
  - apply andb_true_iff in E as [Ea [Ev Ed]%andb_true_iff]. destruct Hr as [Hmu Hi]; [by rewrite Eg|].
    eapply wp_mono; [|apply (write_out_run m0 mu pins w1 i d reln); try done; by eapply look_reln].
    intros [[]|e|e|] w2; cbn; try done. intros (Hw2 & Hse & Hcl). split; [done|]. split; [done|].
    intros x dx Hx. destruct (cleaned_at_desc _ _ _ _ _ Hcl Hx) as (dx' & Hx' & Ht' & Hi' & Hdi). exists dx'.
    split; [done|]. split; [done|]. split; [done|]. rewrite Hdi.
    destruct (Z.eqb_spec x i) as [->|Hne]; [|by replace ((i <=? x) && (x <? i + 1)) with false by lia].
    unfold desc_of, desc_at in *. simplify_eq. replace ((i <=? i) && (i <? i + 1)) with true by lia. by rewrite Eg, Ea.
  - eapply wp_eq; [apply unlock_back; [done|done|apply Hok|apply Hok]|]. split; [done|]. split; [done|]. apply Hsame; [done|].
    rewrite Eg. intros Ha. rewrite Ha in E. cbn in E. destruct (flag (state d) BM_DIRTY) eqn:Ed; [|done].
    by rewrite (do_dirty _ _ _ _ _ Hok Ed) in E.
Qed.

Lemma flush_from_run m0 mu pins k : forall i w,
  at_work m0 mu pins w -> 0 <= i -> i + Z.of_nat k = n -> idle_if (flush_goes look) mu w ->
  wp (for_upto k i (flush_if look)) (write_post m0 mu pins w (cleaned_range (flush_goes look) i n (shm w))) w.
Proof using Type*.
  induction k as [|k IH]; intros i w Hw Hi Hk Hr; cbn [for_upto].
  - apply wp_ret. split; [done|]. split; [done|]. intros x d Hd. exists d. split; [done|]. split; [done|]. split; [done|].
    replace ((i <=? x) && (x <? n)) with false by lia. by rewrite andb_true_r.
  - destruct (aw_at _ _ _ _ _ _ _ _ _ _ i Hw) as (d & Hd); [lia|].
    apply wp_bind. eapply wp_mono; [|apply (flush_if_run m0 mu pins w i d Hw Hd); exact (Hr i d Hd)].
    intros [[]|e|e|] w1; cbn; try done. intros (Hw1 & Hse1 & Hcl1).
    eapply wp_mono; [|apply (IH (i + 1) w1 Hw1); [lia|lia|]].
    + intros [[]|e|e|] w2; cbn; try done.
      2: { intros (-> & ? & ? & Hse2). split; [done|]. split; [done|]. split; [done|by etrans]. }
      intros (Hw2 & Hse2 & Hcl2). split; [done|]. split; [by etrans|]. intros x dx Hx.
      destruct (Hcl1 x dx Hx) as (dx1 & Hx1 & Ht1 & Hi1 & Hdi1). destruct (Hcl2 x dx1 Hx1) as (dx2 & Hx2 & Ht2 & Hi2 & Hdi2).
      exists dx2. split; [done|]. split; [congruence|]. split; [by auto|]. rewrite Hdi2, Hdi1, Ht1, <- andb_assoc. f_equal.
      destruct (flush_goes look (tag dx)); [|by rewrite !andb_false_r]. lia.
    + intros x d1 Hd1 Hg. pose proof (aw_range _ _ _ _ _ _ _ _ _ _ _ _ Hw1 Hd1) as Hx.
      destruct (aw_at _ _ _ _ _ _ _ _ _ _ x Hw Hx) as (d0 & Hd0). destruct (Hcl1 x d0 Hd0) as (d1' & Hd1' & Ht1 & Hi1 & _).
      unfold desc_of, desc_at in *. simplify_eq. destruct (Hr x d0 Hd0) as [? ?]; [congruence|]. by auto.
Qed.
End scan.

(** ** What is on disk afterwards *)
Definition durable_post (doomed : BufferTag -> bool) (m0 : Backend) (mu : gmap Z PrivateRefCountData) (pins : list Z)
    (w : World) (o : outcome unit) (w' : World) : Prop :=
  match o with
  | Ret _ => at_work m0 mu pins w' /\ seen (shm w) (shm w') /\
      (forall x d, desc_at w' x d -> doomed (tag d) = true -> flag (state d) BM_DIRTY = false) /\
      (forall t, doomed t = true -> option_Forall2 same_page (page_seen (shm w) t) (disk_page (shm w') t))
  | Elog e => e = "I/O error" /\ write_failed m0 (shm w) (shm w')
  | _ => False
  end.

Lemma clean_on_disk s t :
  pool s -> (forall x d, desc_of s x d -> tag d = t -> flag (state d) BM_DIRTY = false) ->
  option_Forall2 same_page (page_seen s t) (disk_page s t).
Proof using Equivalence0.
  intros Hp Hc. unfold page_seen, cached. destruct (SharedBufHash s !! t) as [i|] eqn:E; [|done].
  apply (pl_hash _ _ _ _ _ Hp) in E as (d & Hd & _ & <-). pose proof Hd as Hd'. unfold desc_of in Hd'. rewrite Hd'.
  destruct (flag (state d) BM_VALID) eqn:Ev; [|done].
  destruct (do_valid _ _ _ _ _ (pl_desc _ _ _ _ _ Hp i d Hd) Ev) as (_ & v & f & -> & -> & Hs). constructor.
  apply Hs. by eapply Hc.
Qed.

Lemma flush_scan_run look doomed m0 mu pins w :
  (forall t again reln, look t = Some (again, reln) -> default (BufTagGetRelFileLocator t) reln = BufTagGetRelFileLocator t) ->
  (forall t, flush_goes look t = doomed t) -> at_work m0 mu pins w -> idle_if doomed mu w ->
  wp (scan_buffers (flush_if look)) (durable_post doomed m0 mu pins w) w.
Proof using Type*.
  intros Hreln Hgoes Hw Hr. pose proof (br_size _ _ _ (aw_ready _ _ _ _ _ _ _ _ _ _ Hw)) as Hn. unfold pool_sized in Hn.
  unfold scan_buffers. eapply wp_step; [rewrite (bind_ret _ _ w n w);
    [reflexivity|unfold get_me, gets; by rewrite (aw_n _ _ _ _ _ _ _ _ _ _ Hw)]|].
  eapply wp_mono; [|apply (flush_from_run look Hreln m0 mu pins (Z.to_nat n) 0 w Hw); [lia|lia|intros x d Hd; rewrite Hgoes; exact (Hr x d Hd)]].
  intros [[]|e|e|] w'; cbn; try done. intros (Hw' & Hse & Hcl). split; [done|]. split; [done|].
  assert (forall x d, desc_at w' x d -> doomed (tag d) = true -> flag (state d) BM_DIRTY = false) as Hclean.
  { intros x d Hd Hdoom. pose proof (aw_range _ _ _ _ _ _ _ _ _ _ _ _ Hw' Hd) as Hx.
    destruct (aw_at _ _ _ _ _ _ _ _ _ _ x Hw Hx) as (d0 & Hd0). destruct (Hcl x d0 Hd0) as (d' & Hd' & Ht & _ & Hdi).
    unfold desc_of, desc_at in *. simplify_eq. rewrite Hdi, Hgoes, <- Ht, Hdoom.
    replace ((0 <=? x) && (x <? n)) with true by lia. apply andb_false_r. }
  split; [done|]. intros t Ht. etrans; [apply Hse|]. apply clean_on_disk; [by eapply aw_pool|]. intros x d Hd <-. by eapply Hclean.
Qed.
End flush.

Lemma cache_idle doomed faults : idle_if doomed ∅ (cache_world faults).
Proof. intros x d [[-> ->]|[[-> ->]|[-> ->]]]%cache_cases _; done. Qed.

(** C16. [FlushDatabaseBuffers], [FlushRelationBuffers] on a relation with shared
    buffers, and [FlushRelationsAllBuffers], with either way of finding the relation
    of a buffer: unless a write fails, they return with no buffer of the kind asked
    for dirty and with the pages that the readers of these blocks saw on disk; no
    block reads differently, the rule of write-ahead logging holds, the pool is in
    order and nothing stays pinned or locked.  A failed write is the only error, and
    it loses no page.  Other backends may have the buffers pinned, but hold no content
    lock on them. *)
Theorem bulk_flush_durable same_page `{!Equivalence same_page} `{!Server} `{!ServerLaws same_page} permanent n p strategy others
    PageSetChecksumInplace m0 mu pins w dbid rlocator rs :
  let durable doomed := durable_post same_page permanent n p strategy others doomed m0 mu pins w in
  let matches t := BufTagMatchesRelFileLocator t rlocator in
  at_work same_page permanent n p strategy others m0 mu pins w ->
  Forall (fun r => RelFileLocatorBackendIsTemp r = false) rs ->
  (idle_if (of_database dbid) mu w -> wp (FlushDatabaseBuffers dbid) (durable (of_database dbid)) w) /\
  (idle_if matches mu w -> wp (FlushRelationBuffers PageSetChecksumInplace false rlocator) (durable matches) w) /\
  (idle_if (doomed_relations rs) mu w -> wp (FlushRelationsAllBuffers rs) (durable (doomed_relations rs)) w).
Proof.
  intros durable matches Hw Hrs. split_and!; intros Hr.
  - apply (flush_scan_run same_page permanent n p strategy others); [..|done|done].
    + intros t again reln. destruct (_ =? _); [by intros [= _ <-]|done].
    + intros t. unfold flush_goes, of_database. by destruct (dbOid t =? dbid) eqn:E; rewrite ?E.
  - apply (flush_scan_run same_page permanent n p strategy others); [..|done|done].
    + intros t again reln. destruct (BufTagMatchesRelFileLocator t rlocator) eqn:E; [|done]. intros [= _ <-].
      by apply BufTagMatches_spec in E.
    + intros t. unfold flush_goes, matches. by destruct (BufTagMatchesRelFileLocator t rlocator) eqn:E; rewrite ?E.
  - unfold FlushRelationsAllBuffers. destruct (Nat.eqb_spec (length rs) 0) as [E|E].
    { apply length_zero_iff_nil in E as ->. apply wp_ret. by split_and!. }
    eapply wp_step; [rewrite c_assert_ok; [reflexivity|]|].
    { apply forallb_forall. intros r Hr'%list_elem_of_In. rewrite Forall_forall in Hrs. by rewrite (Hrs r Hr'). }
    assert (shared_relations rs = rs) as Es.
    { unfold shared_relations. clear -Hrs. induction Hrs as [|r rs Hr _ IH]; [done|]. by rewrite filter_cons, decide_True, IH. }
    apply (flush_scan_run same_page permanent n p strategy others); [..|done|done].
    + intros t again reln. rewrite <- Es, find_relation. destruct (doomed_relations rs t); [by intros [= _ <-]|done].
    + intros t. unfold flush_goes. rewrite <- Es at 1. rewrite find_relation. destruct (doomed_relations rs t); [|done].
      cbn. by apply BufTagMatches_spec.
Qed.

(** All three, on the pool with two dirty pages. *)
Lemma bulk_flush_durable_witness :
  exists w', FlushDatabaseBuffers 5 (cache_world []) = (Ret tt, w') /\
    durable_post eq (fun _ => true) 3 SieveVtable None (fun _ => 0) (of_database 5) (me (cache_world [])) ∅ [] (cache_world []) (Ret tt) w' /\
    disk_page (shm w') (sample_tag 2) = Some 22.
Proof.
  destruct (bulk_flush_durable eq (fun _ => true) 3 SieveVtable None (fun _ => 0) (fun page _ => page) (me (cache_world [])) ∅ []
    (cache_world []) 5 sample_rel [sample_reln]) as (H & _ & _);
    [apply (at_idle _ _ _ _ _ _ (cache_at_rest []))|by repeat constructor|].
  specialize (H (cache_idle _ [])).
  assert ((FlushDatabaseBuffers 5 (cache_world [])).1 = Ret tt /\
    disk_page (shm (FlushDatabaseBuffers 5 (cache_world [])).2) (sample_tag 2) = Some 22) as [Hrun Hdisk]
    by (vm_compute; split; reflexivity).
  destruct (FlushDatabaseBuffers 5 (cache_world [])) as [o w'] eqn:E. cbn in Hrun, Hdisk. subst o.
  exists w'. split; [done|]. split; [exact (wp_use _ _ _ _ _ H E)|exact Hdisk].
Defined.
