(* ===== verification/BufInit.v ===== *)
(** * Start-up ([buf_init.c], [bufmgr.c] lines 4155-4183)

    The postmaster lays out the shared buffers in memory of unknown contents, and
    a backend prepares its own tables.  The state they leave is the one from which
    the theorems about the cache start, for every policy. *)
From S2P Require Import Prelude BufState BufTag Shmem Concurrency PrivateRefCount Ring Sample DList ClockSweep Sieve Lru Lfu Policy BufTable Strategy.
From S2P Require Import LocalBuf ContentLock LockWord LockProtocol LockRun Pin PinRun Reserved BufIO IORun.
From S2P Require Import Writeback Eviction DropFlush PolicyQuiet Pool FlushRun EvictRun VictimRun AllocRun SharedCache.

(** ** The shared structures *)

(** Which structures another process has created already, and what the new ones
    contain before they are set up. *)
Record ShmemFound := mkShmemFound {
  foundDescs : bool;
  foundBufs : bool;
  foundIOCV : bool;
  foundBufCkpt : bool;
  foundStrategy : bool
}.
Record NewMemory := mkNewMemory {
  junk_desc : Z -> BufferDesc;
  junk_block : Z -> Z;
  junk_word : Z -> Z
}.

(** [ShmemInitStruct] for the descriptors and the pages.  The condition variables
    and the sort array of the checkpointer have no contents between calls. *)
Definition init_structs (found : ShmemFound) (junk : NewMemory) : M unit :=
  let* n := get_me NBuffers in
  when (negb (foundDescs found)) (modify_shm (with_BufferDescriptors (junk_desc junk <$> seqZ 0 n))) ;;
  when (negb (foundBufs found)) (modify_shm (with_BufferBlocks (junk_block junk <$> seqZ 0 n))).

Definition clear_desc (i : Z) (d : BufferDesc) : BufferDesc :=
  with_lock_waiters [] (with_io_wref None (with_buf_id i (with_wait_backend_pgprocno INVALID_PROC_NUMBER
    (with_state 0 (with_tag (ClearBufferTag (tag d)) d))))).
Definition init_header (i : Z) : M unit :=
  let buf := GetBufferDescriptor i in
  let* d := deref buf in
  store_desc buf (clear_desc i d).

Definition BufferManagerShmemInit_as (policy : EvictionVtablePtr) (found : ShmemFound) (junk : NewMemory)
    (backend_flush_after : Z) : M unit :=
  let* n := get_me NBuffers in
  init_structs found junk ;;
  (if foundDescs found || foundBufs found || foundIOCV found || foundBufCkpt found
   then c_assert (foundDescs found && foundBufs found && foundIOCV found && foundBufCkpt found)
     "foundDescs && foundBufs && foundIOCV && foundBufCkpt"
   else for_upto (Z.to_nat n) 0 init_header) ;;
  StrategyInitialize_as policy (foundStrategy found) (junk_word junk) (negb (foundDescs found)) ;;
  WritebackContextInit BackendContext backend_flush_after.

Definition BufferManagerShmemInit : ShmemFound -> NewMemory -> Z -> M unit :=
  BufferManagerShmemInit_as ClockSweepVtable.

(** ** Its size *)
Definition sizeof_BufferDescPadded : Z := 64.
Definition sizeof_ConditionVariableMinimallyPadded : Z := 16.
Definition sizeof_CkptSortItem : Z := 20.
Definition PG_CACHE_LINE_SIZE : Z := 128.
Definition PG_IO_ALIGN_SIZE : Z := 4096.

Definition mul_size {W} (s1 s2 : Z) : ST W Z :=
  if s1 * s2 <? 2 ^ 64 then ret (s1 * s2) else elog "requested shared memory size overflows size_t".

(** The conversion of [NBuffers] to [Size] is written out. *)
Definition BufferManagerShmemSize (hash_estimate_size : Z -> Z -> Z) : M Z :=
  let* n := get_me NBuffers in
  let* descs := mul_size (u64 n) sizeof_BufferDescPadded in
  let* size := add_size 0 descs in
  let* size := add_size size PG_CACHE_LINE_SIZE in
  let* size := add_size size PG_IO_ALIGN_SIZE in
  let* blocks := mul_size (u64 n) BLCKSZ in
  let* size := add_size size blocks in
  let* strategy := StrategyShmemSize hash_estimate_size in
  let* size := add_size size strategy in
  let* cvs := mul_size (u64 n) sizeof_ConditionVariableMinimallyPadded in
  let* size := add_size size cvs in
  let* size := add_size size PG_CACHE_LINE_SIZE in
  let* items := mul_size (u64 n) sizeof_CkptSortItem in
  add_size size items.

(** ** The tables of a backend *)
Definition MAX_IO_WORKERS : Z := 32.
Definition NUM_AUXILIARY_PROCS : Z := 6 + MAX_IO_WORKERS.

Definition InitBufferManagerAccess (MaxBackends : Z) : M unit :=
  let* n := get_me NBuffers in
  modify_me (with_MaxProportionalPins (Z.quot n (MaxBackends + NUM_AUXILIARY_PROCS))) ;;
  modify_me (with_PrivateRefCountArray (replicate 8 (mkRefEntry InvalidBuffer no_pin_data))) ;;
  modify_me (with_PrivateRefCountArrayKeys (replicate 8 InvalidBuffer)) ;;
  modify_me (with_PrivateRefCountHash ∅) ;;
  let* proc := get_me MyProcNumber in
  c_assert (negb (proc =? INVALID_PROC_NUMBER)) "MyProc != NULL".

(** What the variables of a process contain before it runs. *)
Record new_process (m : Backend) : Prop := {
  np_overflowed : PrivateRefCountOverflowed m = 0;
  np_reserved : ReservedRefCountSlot m = -1;
  np_last : PrivateRefCountEntryLast m = -1;
  np_pins : owned_pins m = [];
  np_locks : held_lwlocks m = [];
  np_holdoff : InterruptHoldoffCount m = 0;
  np_proc : MyProcNumber m <> INVALID_PROC_NUMBER
}.

Lemma add_size_ok {W} s1 s2 (w : W) : s1 + s2 < 2 ^ 64 -> add_size s1 s2 w = (Ret (s1 + s2), w).
Proof. intros H. unfold add_size. by rewrite (proj2 (Z.ltb_lt _ _)). Qed.
Lemma mul_size_ok {W} s1 s2 (w : W) : s1 * s2 < 2 ^ 64 -> mul_size s1 s2 w = (Ret (s1 * s2), w).
Proof. intros H. unfold mul_size. by rewrite (proj2 (Z.ltb_lt _ _)). Qed.

(** The size covers every structure that is asked for, with room to align the
    descriptors, the pages and the condition variables. *)
Lemma BufferManagerShmemSize_exact hash_estimate_size w n :
  sized n -> NBuffers (me w) = n -> 0 <= hash_estimate_size (n + NUM_BUFFER_PARTITIONS) 24 < 2 ^ 62 ->
  BufferManagerShmemSize hash_estimate_size w =
    (Ret (n * (sizeof_BufferDescPadded + BLCKSZ + sizeof_ConditionVariableMinimallyPadded + sizeof_CkptSortItem) +
      2 * PG_CACHE_LINE_SIZE + PG_IO_ALIGN_SIZE + hash_estimate_size (n + NUM_BUFFER_PARTITIONS) 24 +
      strategy_block_size n), w).
Proof.
  intros Hs Hn He. destruct (strategy_block_bounds n Hs) as [_ Hb].
  assert (0 < n < 2 ^ 30) as Hr by (unfold sized in Hs; lia).
  unfold BufferManagerShmemSize. run (eq_refl (get_me NBuffers w)). rewrite Hn, u64_small by lia.
  unfold pol_words in Hb. cbn in Hb. unfold lfu_words, LFU_MAX_FREQ, sizeof_BufferStrategyCommon in Hb.
  pose proof (proj1 (strategy_block_bounds n Hs) ClockSweepVtable) as Hb0. cbn in Hb0. unfold sizeof_BufferStrategyCommon in Hb0.
  assert (StrategyShmemSize hash_estimate_size w =
    (Ret (hash_estimate_size (n + NUM_BUFFER_PARTITIONS) 24 + strategy_block_size n), w)) as Hst.
  { unfold StrategyShmemSize. run (eq_refl (get_me NBuffers w)). rewrite Hn.
    erewrite bind_ret by (apply add_size_ok; lia). by rewrite add_size_ok by lia. }
  unfold sizeof_BufferDescPadded, BLCKSZ, sizeof_ConditionVariableMinimallyPadded, sizeof_CkptSortItem,
    PG_CACHE_LINE_SIZE, PG_IO_ALIGN_SIZE.
  repeat (erewrite bind_ret by first [exact Hst | apply mul_size_ok; lia | apply add_size_ok; lia]).
  rewrite add_size_ok by lia. f_equal. f_equal. lia.
Qed.

(** ** The policies start with every buffer *)
Lemma policy_fresh p w n :
  pool_sized n -> NBuffers (me w) = n -> pol_words p n <= Z.of_nat (length (mem w)) ->
  exists m', initialize (vtable p) false w = (Ret tt, with_mem m' w) /\
    (forall c, completePasses c = 0 -> pq_inv (p := p) n c m') /\
    forall x, 0 <= x < n -> pq_linked (p := p) n m' x.
Proof.
  intros Hn Hw Hlen. unfold pool_sized in Hn. destruct p.
  - destruct (lookupZ_lt (mem w) 0) as [v Hv]; [cbn in Hlen; lia|]. eexists. split_and!.
    + by apply (wr_word_run _ _ _ v).
    + intros c Hc. exists 0. rewrite Hc. split; [|lia]. by eapply lookupZ_insertZ_eq, lookupZ_Some.
    + done.
  - destruct (SieveInitialize_run w n) as (m' & Hrun & Hm & _); [lia|done|done|].
    exists m'. split_and!; [done|by exists (seqZ 0 n), 0|].
    intros x Hx. exists (seqZ 0 n), 0. split; [done|]. apply elem_of_seqZ. lia.
  - destruct (LFUInitialize_run w n) as (m' & Hrun & Hm); [lia|done|done|].
    exists m'. split_and!; [done|by eexists|]. intros x Hx. exists (lfu_start n). split; [done|].
    rewrite (elem_of_lfu_order _ _ _ _ Hm). split; [done|]. cbn. unfold in_range.
    replace (_ && _) with true by lia. lia.
  - destruct (LRUInitialize_run w n) as (m' & Hrun & Hm); [lia|done|done|].
    exists m'. split_and!; [done|by eexists|]. intros x Hx. exists (seqZ 0 n). split; [done|]. apply elem_of_seqZ. lia.
Qed.

(** ** The headers *)
Definition blank (i : Z) (d : BufferDesc) : Prop := buf_id d = i /\ state d = 0 /\ lock_waiters d = [].

Lemma init_headers_run k : forall lo w,
  0 <= lo -> lo + Z.of_nat k <= Z.of_nat (length (BufferDescriptors (shm w))) ->
  (forall i d, desc_at w i d -> i < lo -> blank i d) ->
  exists ds, for_upto k lo init_header w = (Ret tt, upd_shm (with_BufferDescriptors ds) w) /\
    length ds = length (BufferDescriptors (shm w)) /\
    forall i d, lookupZ ds i = Some d -> i < lo + Z.of_nat k -> blank i d.
Proof.
  induction k as [|k IH]; intros lo w Hlo Hlen Hbl; cbn [for_upto].
  { exists (BufferDescriptors (shm w)). split; [by destruct w as [[] ? ?]|]. split; [done|].
    intros i d Hd Hi. apply Hbl; [done|lia]. }
  destruct (lookupZ_lt (BufferDescriptors (shm w)) lo) as [d0 Hd0]; [lia|].
  assert (init_header lo w = (Ret tt, set_desc lo (clear_desc lo d0) w)) as Hone.
  { unfold init_header, GetBufferDescriptor. cbv zeta. by run (deref_run _ _ _ Hd0). }
  run Hone. clear Hone.
  set (ds1 := insertZ lo (clear_desc lo d0) (BufferDescriptors (shm w))).
  change (set_desc _ _ w) with (upd_shm (with_BufferDescriptors ds1) w).
  destruct (IH (lo + 1) (upd_shm (with_BufferDescriptors ds1) w)) as (ds & Hrun & Hl & Hin).
  - lia.
  - cbn. unfold ds1. rewrite length_insertZ. lia.
  - intros i d [[<- <-]|[Hne Hi]]%lookupZ_insertZ_Some Hlt; [by destruct d0|]. apply Hbl; [done|lia].
  - exists ds. rewrite Hrun. split; [by destruct w as [[] ? ?]|]. split.
    + rewrite Hl. cbn. apply length_insertZ.
    + intros i d Hd Hi. apply Hin; [done|lia].
Qed.

(** ** The pool after the start *)
Section startup.
Context (same_page : relation Z) `{!Equivalence same_page} `{!Server} `{!ServerLaws same_page}.
Context (permanent : BufferTag -> bool).
Context (n : Z) (p : EvictionVtablePtr).

Definition nothing_found : ShmemFound := mkShmemFound false false false false false.

(** What the operating system and the recovery of the log hand over: room for the
    search, no other process, and no page of a permanent relation on disk that is
    ahead of the log. *)
Record before_start (w : World) : Prop := {
  bs_quiet : quiet w;
  bs_size : pool_sized n;
  bs_n : NBuffers (me w) = n;
  bs_gas : (search_gas n < gas (me w))%nat;
  bs_process : new_process (me w);
  bs_wal : forall t v, permanent t = true -> disk_page (shm w) t = Some v -> PageGetLSN v <= wal_flushed (shm w);
  bs_zero : PageGetLSN 0 <= wal_flushed (shm w)
}.

(** The whole start of a server whose first process goes on as a backend. *)
Definition start_server (junk : NewMemory) (backend_flush_after MaxBackends : Z) : M unit :=
  BufferManagerShmemInit_as p nothing_found junk backend_flush_after ;;
  InitBufferManagerAccess MaxBackends.

Definition started_me (backend_flush_after MaxBackends : Z) (m : Backend) : Backend :=
  with_PrivateRefCountHash ∅ (with_PrivateRefCountArrayKeys (replicate 8 InvalidBuffer)
    (with_PrivateRefCountArray (replicate 8 (mkRefEntry InvalidBuffer no_pin_data))
    (with_MaxProportionalPins (Z.quot (NBuffers m) (MaxBackends + NUM_AUXILIARY_PROCS))
    (with_BackendWritebackContext (mkWritebackContext backend_flush_after [])
    (with_ActiveEviction (Some p) m))))).

Lemma blank_desc s i d : blank i d -> desc_ok same_page permanent s i d.
Proof using Type.
  intros (Hi & Hs & Hw). split; rewrite ?Hs; try done.
  intros _. split; rewrite ?Hs; done.
Qed.

(** A pool of blank headers is in order, whatever the pages contain. *)
Lemma blank_pool s :
  Z.of_nat (length (BufferDescriptors s)) = n -> Z.of_nat (length (BufferBlocks s)) = n ->
  (forall i d, desc_of s i d -> blank i d) -> SharedBufHash s = ∅ ->
  (forall t v, permanent t = true -> disk_page s t = Some v -> PageGetLSN v <= wal_flushed s) -> PageGetLSN 0 <= wal_flushed s ->
  pool_ok same_page PageGetLSN permanent n s.
Proof using Type.
  intros Hd Hb Hbl Hh Hwal Hzero. split; try done.
  - intros i d Hid. by apply blank_desc, Hbl.
  - intros t i. rewrite Hh, lookup_empty. split; [done|]. intros (d & Hid & Hf & _).
    destruct (Hbl i d Hid) as (_ & Hs & _). by rewrite Hs in Hf.
Qed.

Lemma blank_pages s s' :
  SharedBufHash s' = ∅ -> smgr_disk s' = smgr_disk s -> forall t, page_seen s' t = disk_page s t.
Proof using Type.
  intros Hh Hd t. unfold page_seen, cached, disk_page. by rewrite Hh, lookup_empty, Hd.
Qed.

Lemma shmem_init_run w junk backend_flush_after :
  before_start w -> backend_flush_after <= WRITEBACK_MAX_PENDING_FLUSHES ->
  exists ds m', BufferManagerShmemInit_as p nothing_found junk backend_flush_after w =
    (Ret tt, mkWorld
      (with_SharedBufHash ∅ (with_policy_mem m' (with_StrategyControl (clear_strategy_control (StrategyControl (shm w)))
        (with_BufferBlocks (junk_block junk <$> seqZ 0 n) (with_BufferDescriptors ds (shm w))))))
      (with_BackendWritebackContext (mkWritebackContext backend_flush_after []) (with_ActiveEviction (Some p) (me w)))
      (sched w)) /\
    Z.of_nat (length ds) = n /\ (forall i d, lookupZ ds i = Some d -> blank i d) /\
    (forall c, completePasses c = 0 -> pq_inv (p := p) n c m') /\
    forall x, 0 <= x < n -> pq_linked (p := p) n m' x.
Proof using Type.
  intros [Hq Hsz Hn Hg Hp Hwal] Hfl. unfold BufferManagerShmemInit_as.
  cbn [nothing_found foundDescs foundBufs foundIOCV foundBufCkpt foundStrategy orb negb].
  run (eq_refl (get_me NBuffers w)). rewrite Hn.
  set (w1 := upd_shm (with_BufferBlocks (junk_block junk <$> seqZ 0 n)) (upd_shm (with_BufferDescriptors (junk_desc junk <$> seqZ 0 n)) w)).
  rewrite (bind_ret _ _ w tt w1) by (unfold init_structs; run (eq_refl (get_me NBuffers w)); by rewrite Hn).
  assert (0 <= n) by (unfold pool_sized in Hsz; lia).
  destruct (init_headers_run (Z.to_nat n) 0 w1) as (ds & Hrun & Hlen & Hin); [lia| | |].
  { cbn. rewrite length_fmap, length_seqZ. lia. }
  { intros i d Hd Hi. apply lookupZ_Some in Hd. lia. }
  run Hrun. cbn in Hlen. rewrite length_fmap, length_seqZ in Hlen.
  set (w2 := upd_shm (with_BufferDescriptors ds) w1).
  assert (sized n) as Hs by (unfold pool_sized in Hsz; unfold sized; lia).
  destruct (strategy_block_bounds n Hs) as [Hbd _]. specialize (Hbd p).
  destruct (policy_fresh p (mkWorld
      (with_SharedBufHash ∅ (with_policy_mem
        (junk_word junk <$> seqZ 0 ((strategy_block_size n - sizeof_BufferStrategyCommon) / 4))
        (with_StrategyControl (clear_strategy_control (StrategyControl (shm w2))) (shm w2))))
      (with_ActiveEviction (Some p) (me w2)) (sched w2)) n) as (m' & Hi & Hinv & Hlink); [done|done| |].
  { unfold mem. cbn. rewrite length_fmap, length_seqZ.
    assert (pol_words p n <= (strategy_block_size n - sizeof_BufferStrategyCommon) / 4); [|lia].
    apply Z.div_le_lower_bound; lia. }
  assert (NBuffers (me w2) = n) as Hn2 by done.
  pose proof (strategy_setup p w2 (junk_word junk)) as Hset. cbv zeta in Hset. rewrite Hn2, Hi in Hset.
  run Hset. unfold WritebackContextInit. rewrite c_assert_ok by (apply Z.leb_le; lia).
  exists ds, m'. split_and!; try done; [lia|]. intros i d Hd. apply Hin; [done|].
  apply lookupZ_Some in Hd. lia.
Qed.

Lemma start_run w junk backend_flush_after MaxBackends :
  before_start w -> backend_flush_after <= WRITEBACK_MAX_PENDING_FLUSHES ->
  exists w', start_server junk backend_flush_after MaxBackends w = (Ret tt, w') /\
    me w' = started_me backend_flush_after MaxBackends (me w) /\
    at_rest same_page permanent n p (me w') w' /\ smgr_disk (shm w') = smgr_disk (shm w) /\
    forall t, page_seen (shm w') t = disk_page (shm w) t.
Proof using Type*.
  intros Hb Hfl. destruct (shmem_init_run w junk backend_flush_after Hb Hfl) as (ds & m' & Hrun & Hlen & Hbl & Hinv & Hlink).
  destruct Hb as [Hq Hsz Hn Hg [Ho Hr Hl Hpi Hlo Hho Hpr] Hwal]. unfold start_server. run Hrun.
  match goal with |- exists w', _ ?w0 = _ /\ _ => set (w1 := w0) end.
  set (m := started_me backend_flush_after MaxBackends (me w)). exists (mkWorld (shm w1) m (sched w)). split_and!; try done.
  - unfold InitBufferManagerAccess. run (eq_refl (get_me NBuffers w1)).
    do 5 (erewrite bind_ret by reflexivity).
    unfold c_assert. cbn [get_me gets]. rewrite (proj2 (negb_true_iff _)) by (by apply Z.eqb_neq). done.
  - split; [split| |exists 0]; try done.
    + split; try done. cbn. lia.
    + by apply prc_init.
    + split; try done; [|by apply Hinv|by left]. apply blank_pool; try done.
      cbn. rewrite length_fmap, length_seqZ. unfold pool_sized in Hsz. lia.
    + split; [|lia]. intros x d Hd. destruct (Hbl x d Hd) as (_ & -> & _). done.
    + split; [unfold pool_sized in Hsz; lia|]. apply Hlink. unfold pool_sized in Hsz; lia.
Qed.

(** A process that finds the structures attaches to them. *)
Definition all_found : ShmemFound := mkShmemFound true true true true true.

Lemma attach_run w junk backend_flush_after :
  backend_flush_after <= WRITEBACK_MAX_PENDING_FLUSHES ->
  BufferManagerShmemInit_as p all_found junk backend_flush_after w =
    (Ret tt, upd_me (fun m => with_BackendWritebackContext (mkWritebackContext backend_flush_after [])
      (with_ActiveEviction (Some p) m)) w).
Proof using Type.
  intros Hfl. unfold BufferManagerShmemInit_as, WritebackContextInit.
  do 3 (erewrite bind_ret by reflexivity). erewrite bind_ret by (by destruct p).
  rewrite c_assert_ok by (by apply Z.leb_le). done.
Qed.
End startup.

Definition start_post (same_page : relation Z) `{!Equivalence same_page} `{!Server} `{!ServerLaws same_page}
    (permanent : BufferTag -> bool) (n : Z) (p : EvictionVtablePtr) (m0 : Backend) (w : World)
    (o : outcome unit) (w' : World) : Prop :=
  (forall t, option_Forall2 same_page (disk_page (shm w) t) (page_seen (shm w') t)) /\
  match o with
  | Ret _ => at_rest same_page permanent n p m0 w'
  | Elog _ => true ∈ smgr_faults (me w)
  | _ => False
  end.

(** C7. From the first instruction: a server whose memory contains anything at all
    is started with any of the policies, and its first backend uses any sequence of
    blocks.  The start leaves every invariant of the buffer manager established,
    so nothing ever gets stuck, runs into an assertion or touches memory out of
    range; every block always reads as it was on disk before the start; and only a
    failing write ends the sequence early. *)
Theorem server_start_transparent same_page `{!Equivalence same_page} `{!Server} `{!ServerLaws same_page}
    permanent n p w junk backend_flush_after MaxBackends rs :
  before_start permanent n w -> backend_flush_after <= WRITEBACK_MAX_PENDING_FLUSHES ->
  Forall (rq_ok permanent) rs ->
  wp (start_server p junk backend_flush_after MaxBackends ;; use_blocks rs)
    (start_post same_page permanent n p (started_me p backend_flush_after MaxBackends (me w)) w) w.
Proof.
  intros Hb Hfl Hrs.
  destruct (start_run same_page permanent n p w junk backend_flush_after MaxBackends Hb Hfl)
    as (w1 & Hrun & Hme & Hrest & _ & Hseen).
  eapply wp_step; [run Hrun; reflexivity|]. rewrite Hme in Hrest.
  eapply wp_mono; [|by apply use_blocks_run]. intros [[]|e|e|] w2; cbn; try done.
  - intros [Hr2 Hs]. split; [|done]. intros t. rewrite <- Hseen. apply Hs.
  - intros (Hf & _ & Hs). split; [|done]. intros t. rewrite <- Hseen. apply Hs.
Qed.

(** Five blocks through three buffers that start with garbage, under LRU. *)
Definition garbage : NewMemory :=
  mkNewMemory (fun i => mkBufferDesc (mkBufferTag i 2 3 4 5) 77 (2 ^ 50 + i) 9 (Some 3) [4; i]) (fun i => 1000 + i) (fun i => i * 7).
Definition off_world : World :=
  mkWorld (mkShared [] (mkStrategyCommon (Some 4) EVICTION_CLOCKSWEEP 9 9 9) [] ∅ [] [] {[ (sample_rel, 0) := [10; 11; 12; 13] ]} 15)
    (with_ReservedRefCountSlot (-1) (with_PrivateRefCountArray [] (sample_me 3 ClockSweepVtable))) [].

Lemma off_before : before_start (fun _ => true) 3 off_world.
Proof.
  split; try done; [vm_compute; lia|].
  apply (pl_wal _ _ _ _ _ cache_pool).
Qed.

Lemma server_start_transparent_witness :
  let rs := (fun b => mkRequest sample_rel RELPERSISTENCE_PERMANENT 0 b) <$> [3; 1; 0; 2; 3] in
  exists w', (start_server LRUVtable garbage 32 100 ;; use_blocks rs) off_world = (Ret tt, w') /\
    start_post eq (fun _ => true) 3 LRUVtable (started_me LRUVtable 32 100 (me off_world)) off_world (Ret tt) w'.
Proof.
  intros rs. pose proof (server_start_transparent eq (fun _ => true) 3 LRUVtable off_world garbage 32 100 rs) as H.
  assert (((start_server LRUVtable garbage 32 100 ;; use_blocks rs) off_world).1 = Ret tt) as Hrun by (vm_compute; reflexivity).
  destruct ((start_server LRUVtable garbage 32 100 ;; use_blocks rs) off_world) as [o w'] eqn:E. cbn in Hrun. subst o.
  exists w'. split; [done|]. refine (wp_use _ _ _ _ _ (H off_before _ _) E); [done|].
  repeat constructor; vm_compute; done.
Defined.
