(* ===== verification/CheckpointRun.v ===== *)
(** * Checkpoints, exactly

    What [BufferSync] does to a pool without interference, whatever the order is in
    which the floating-point progress makes it take the tablespaces: unless a write
    fails, it returns, and every buffer that was dirty, and permanent where that
    matters, has been written, once. *)
From Stdlib Require Import SpecFloat.
From stdpp Require Import sorting.
From S2P Require Import Prelude Float BufState BufTag SortTemplate BinaryHeap Shmem Concurrency PrivateRefCount Ring Policy BufTable Strategy.
From S2P Require Import LocalBuf ContentLock LockWord LockProtocol LockRun Pin PinRun Reserved BufIO IORun Writeback.
From S2P Require Import Eviction DropFlush Checkpoint PolicyQuiet Pool FlushRun EvictRun VictimRun SharedCache DropCache FlushScan.

(** ** The mask *)

(** The checkpoint has to write the buffer. *)
Definition ckpt_needs (flags st : Z) : bool := Z.land st (ckpt_mask flags) =? ckpt_mask flags.

Definition ckpt_unlogged (flags : Z) : bool :=
  ztrue (Z.land flags (Z.lor (Z.lor CHECKPOINT_IS_SHUTDOWN CHECKPOINT_END_OF_RECOVERY) CHECKPOINT_FLUSH_UNLOGGED)).

Lemma land_mask s m : Z.land s m = m <-> forall k, 0 <= k -> Z.testbit m k = true -> Z.testbit s k = true.
Proof.
  split.
  - intros E k Hk Hm. rewrite <- E, Z.land_spec in Hm. by apply andb_true_iff in Hm as [? _].
  - intros H. apply Z.bits_inj'. intros k Hk. rewrite Z.land_spec. destruct (Z.testbit m k) eqn:E; [|by rewrite andb_false_r].
    by rewrite H.
Qed.

Lemma land_or s a b : (Z.land s (Z.lor a b) =? Z.lor a b) = (Z.land s a =? a) && (Z.land s b =? b).
Proof.
  apply eq_bool_prop_intro. rewrite andb_True, !Is_true_true, !Z.eqb_eq, !land_mask. split.
  - intros H. split; intros k Hk Hb; apply H; try done; rewrite Z.lor_spec, Hb; auto using orb_true_r.
  - intros [H1 H2] k Hk. rewrite Z.lor_spec. intros [?|?]%orb_true_iff; auto.
Qed.

Lemma land_flag s F k : IsBit F k -> (Z.land s F =? F) = flag s F.
Proof.
  intros HF. rewrite flag_bit. destruct (HF) as [-> Hk]. rewrite Z.shiftl_1_l.
  apply eq_bool_prop_intro. rewrite !Is_true_true, Z.eqb_eq, land_mask. split.
  - intros H. apply H; [done|]. by apply Z.pow2_bits_true.
  - intros H i Hi. rewrite Z.pow2_bits_eqb by done. by intros <-%Z.eqb_eq.
Qed.

Lemma ckpt_needs_flags flags st :
  ckpt_needs flags st = flag st BM_DIRTY && (ckpt_unlogged flags || flag st BM_PERMANENT).
Proof.
  unfold ckpt_needs, ckpt_mask, ckpt_unlogged, ztrue. destruct (_ =? 0); cbn [negb orb].
  - by rewrite land_or, !(land_flag _ _ _ _).
  - by rewrite (land_flag _ _ _ _), andb_true_r.
Qed.

Lemma ckpt_needs_locked flags st : ckpt_needs flags (Z.lor st BM_LOCKED) = ckpt_needs flags st.
Proof. by rewrite !ckpt_needs_flags, !locked_flag. Qed.

(** ** The tablespaces *)

(** The items of the tablespace that are still to be looked at. *)
Definition span (st : CkptTsStatus) : list Z := seqZ (ts_index st) (ts_num_to_scan st - num_scanned st).
Definition fresh_status (st : CkptTsStatus) : Prop := 0 < ts_num_to_scan st /\ num_scanned st = 0.

(** After [i] items the spans lie one behind the other. *)
Record counted (i last : Z) (stats : list CkptTsStatus) : Prop := {
  cd_spans : mjoin (span <$> stats) = seqZ 0 i;
  cd_fresh : Forall fresh_status stats;
  cd_last : last <> InvalidOid -> exists l st, stats = l ++ [st];
  cd_end : forall l st, stats = l ++ [st] -> ts_index st + ts_num_to_scan st = i;
  cd_pos : 0 <= i
}.

Lemma seqZ_snoc a k : 0 <= k -> seqZ a (k + 1) = seqZ a k ++ [a + k].
Proof. intros Hk. by rewrite seqZ_app. Qed.

Lemma count_item_counted item i last stats :
  counted i last stats ->
  let '(i', last', stats') := count_item item (i, last, stats) in i' = i + 1 /\ counted i' last' stats' /\ stats' <> [].
Proof.
  intros [C1 C2 C3 C4 C5]. unfold count_item. destruct ((last =? InvalidOid) || negb (last =? tsId item)) eqn:E.
  - split; [done|]. split; [|by destruct stats]. split; [| | | |lia].
    + rewrite fmap_app, join_app, C1, seqZ_snoc by done. done.
    + apply Forall_app. split; [done|]. by repeat constructor.
    + intros _. by eexists _, _.
    + intros l st [_ [= <-]]%app_inj_tail. cbn. lia.
  - apply orb_false_iff in E as [E1 _]. apply Z.eqb_neq in E1. destruct (C3 E1) as (l & st & ->).
    specialize (C4 l st eq_refl). rewrite length_app. cbn [length].
    assert (forall x, lookupZ (l ++ [x]) (Z.of_nat (length l + 1) - 1) = Some x) as Hlast.
    { intros x. unfold lookupZ. rewrite (proj2 (Z.leb_le _ _)) by lia. rewrite lookup_app_r by lia.
      by replace (Z.to_nat (Z.of_nat (length l + 1) - 1) - length l)%nat with 0%nat by lia. }
    rewrite Hlast. cbn [default from_option].
    assert (forall x y, insertZ (Z.of_nat (length l + 1) - 1) y (l ++ [x]) = l ++ [y]) as Hins.
    { intros x y. unfold insertZ. rewrite (proj2 (Z.leb_le _ _)) by lia. rewrite insert_app_r_alt by lia.
      by replace (Z.to_nat (Z.of_nat (length l + 1) - 1) - length l)%nat with 0%nat by lia. }
    rewrite Hins. apply Forall_app in C2 as [C2 [[F1 F2] _]%Forall_cons_1]. split; [done|]. split; [|by destruct l].
    split; [| | | |lia].
    + rewrite fmap_app, join_app in *. cbn in *. rewrite app_nil_r in *. unfold span in *. cbn. rewrite F2, Z.sub_0_r in *.
      rewrite seqZ_snoc by lia. rewrite app_assoc, C1, C4. by rewrite seqZ_snoc by lia.
    + apply Forall_app. split; [done|]. repeat constructor; cbn; lia.
    + intros _. by eexists _, _.
    + intros l' st' [_ [= <-]]%app_inj_tail. cbn. lia.
Qed.

Lemma ts_statuses_spec items :
  let stats := ts_statuses items in
  mjoin (span <$> stats) = seqZ 0 (Z.of_nat (length items)) /\ Forall fresh_status stats /\ (items <> [] -> stats <> []).
Proof.
  unfold ts_statuses.
  assert (forall l i last stats, counted i last stats ->
    let '(i', last', stats') := foldl (fun acc item => count_item item acc) (i, last, stats) l in
    i' = i + Z.of_nat (length l) /\ counted i' last' stats' /\ (l <> [] -> stats' <> [])) as H.
  { clear items. induction l as [|item l IH]; intros i last stats Hc; [split; [cbn; lia|done]|]. cbn [foldl].
    pose proof (count_item_counted item i last stats Hc) as Hstep. destruct (count_item item (i, last, stats)) as [[i1 last1] stats1].
    destruct Hstep as (-> & Hc1 & Hne). specialize (IH _ _ _ Hc1).
    destruct (foldl _ (i + 1, last1, stats1) l) as [[i2 last2] stats2] eqn:E. destruct IH as (-> & Hc2 & Hne2).
    split; [cbn; lia|]. split; [done|]. intros _. destruct l; [|by apply Hne2]. cbn in E.
    assert (stats1 = stats2) as <- by congruence. done. }
  specialize (H items 0 InvalidOid []). destruct (foldl _ _ items) as [[i last] stats]. destruct H as (-> & [] & ?).
  - split; try done. intros l st E. by destruct l.
  - cbn. split_and!; done.
Qed.

(** In a sorted array every tablespace is counted once. *)
Record distinct (tss : list Z) (last : Z) (stats : list CkptTsStatus) : Prop := {
  di_once : NoDup (ts_tsId <$> stats);
  di_low : forall t, t ∈ ts_tsId <$> stats -> t <= last /\ t ∈ tss;
  di_some : last <> InvalidOid -> stats <> [];
  di_none : last = InvalidOid -> stats = []
}.

Lemma count_item_distinct tss item i last stats :
  distinct tss last stats -> tsId item <> InvalidOid -> tsId item ∈ tss -> (last <> InvalidOid -> last <= tsId item) ->
  let '(_, last', stats') := count_item item (i, last, stats) in last' = tsId item /\ distinct tss last' stats'.
Proof.
  intros [D1 D2 D3 D4] Hne Hin Hle. unfold count_item. destruct ((last =? InvalidOid) || negb (last =? tsId item)) eqn:E.
  - split; [done|]. assert (forall t, t ∈ ts_tsId <$> stats -> t < tsId item) as Hlt.
    { intros t Ht. destruct (decide (last = InvalidOid)) as [El|El]; [rewrite (D4 El) in Ht; by apply elem_of_nil in Ht|].
      apply orb_true_iff in E as [E|E]; [lia|]. destruct (D2 t Ht). specialize (Hle El). lia. }
    split; try done; rewrite ?fmap_app.
    + apply NoDup_app. split_and!; [done| |apply NoDup_singleton]. intros t Ht ->%list_elem_of_singleton. specialize (Hlt _ Ht). cbn in Hlt. lia.
    + intros t [Ht| ->%list_elem_of_singleton]%elem_of_app; [|done]. split; [by apply Z.lt_le_incl, Hlt|by apply D2].
    + by destruct stats.
  - apply orb_false_iff in E as [E1 E2]. apply Z.eqb_neq in E1. apply negb_false_iff, Z.eqb_eq in E2. split; [done|].
    specialize (D3 E1). assert (0 < Z.of_nat (length stats)) as Hpos by (destruct stats; [done|cbn; lia]).
    destruct (lookupZ_lt stats (Z.of_nat (length stats) - 1)) as [st Hst]; [lia|]. rewrite Hst. cbn [default from_option].
    set (st' := mkCkptTsStatus _ _ _ _ _ _). assert (ts_tsId <$> insertZ (Z.of_nat (length stats) - 1) st' stats = ts_tsId <$> stats) as Eids.
    { unfold insertZ, lookupZ in *. rewrite (proj2 (Z.leb_le _ _)) in * by lia. rewrite list_fmap_insert. apply list_insert_id.
      by rewrite list_lookup_fmap, Hst. }
    split; rewrite ?Eids; try done. intros _ El. apply (f_equal (fmap ts_tsId)) in El. rewrite Eids in El. by destruct stats.
Qed.

Lemma ts_statuses_few tss items :
  StronglySorted (fun x y => tsId x <= tsId y) items -> Forall (fun it => tsId it <> InvalidOid /\ tsId it ∈ tss) items ->
  (length (ts_statuses items) <= length tss)%nat.
Proof.
  intros Hs Hf. unfold ts_statuses.
  assert (forall l i last stats, StronglySorted (fun x y => tsId x <= tsId y) l -> Forall (fun it => tsId it <> InvalidOid /\ tsId it ∈ tss) l ->
    distinct tss last stats -> (last <> InvalidOid -> Forall (fun it => last <= tsId it) l) ->
    exists last', distinct tss last' (foldl (fun acc item => count_item item acc) (i, last, stats) l).2) as Hfold.
  { clear. induction l as [|item l IH]; intros i last stats Hs Hf Hd Hle; [by exists last|]. cbn [foldl].
    apply Forall_cons in Hf as [[Hne Hin] Hf]. apply StronglySorted_inv in Hs as [Hs Hlow].
    pose proof (count_item_distinct tss item i last stats Hd Hne Hin) as Hstep.
    destruct (count_item item (i, last, stats)) as [[i1 last1] stats1]. destruct Hstep as [-> Hd1]; [|by apply IH].
    intros El. specialize (Hle El). by apply Forall_cons in Hle as [? _]. }
  destruct (Hfold items 0 InvalidOid [] Hs Hf) as (last & [D1 D2 _ _]); [split; try done; [apply NoDup_nil_2|by intros t ?%elem_of_nil]|done|].
  rewrite <- (length_fmap ts_tsId). apply submseteq_length, NoDup_submseteq; [done|]. intros t Ht. by apply D2.
Qed.

(** ** The heap of tablespaces *)
Definition ts_at (stats : list CkptTsStatus) (q : Z) : CkptTsStatus := default zero_status (lookupZ stats q).
Definition unfinished (stats : list CkptTsStatus) (q : Z) : Prop :=
  exists ts, lookupZ stats q = Some ts /\ num_scanned ts < ts_num_to_scan ts.

(** The heap holds the tablespaces that are not finished, and the items [rem] are
    those that they have left. *)
Record ts_queue (stats : list CkptTsStatus) (h : binaryheap) (nodes rem : list Z) : Prop := {
  tq_holds : holds h nodes;
  tq_once : NoDup nodes;
  tq_open : Forall (unfinished stats) nodes;
  tq_rem : mjoin ((fun q => span (ts_at stats q)) <$> nodes) ≡ₚ rem
}.

Lemma span_cons ts : num_scanned ts < ts_num_to_scan ts -> span ts = ts_index ts :: span (advance ts).
Proof.
  intros Hlt. unfold span. cbn. rewrite seqZ_cons by lia. f_equal. f_equal; lia.
Qed.

Lemma spans_other stats q ts (nodes : list Z) :
  q ∉ nodes -> (fun q' => span (ts_at (insertZ q ts stats) q')) <$> nodes = (fun q' => span (ts_at stats q')) <$> nodes.
Proof.
  intros Hq. apply list_fmap_ext. intros i x Hx. f_equal. unfold ts_at. rewrite lookupZ_insertZ_ne; [done|].
  intros ->. apply Hq. by eapply list_elem_of_lookup_2.
Qed.
Lemma open_other stats q ts nodes : q ∉ nodes -> Forall (unfinished stats) nodes -> Forall (unfinished (insertZ q ts stats)) nodes.
Proof.
  rewrite !Forall_forall. intros Hq H x Hx. destruct (H x Hx) as (tx & Htx & Hlt). exists tx. split; [|done].
  rewrite lookupZ_insertZ_ne; [done|]. by intros ->.
Qed.

#[export] Instance spans_perm {A} (f : A -> list Z) : Proper (Permutation ==> Permutation) (fun l => mjoin (f <$> l)).
Proof.
  intros l l' H. induction H; cbn; [done|by f_equiv| |by etrans]. rewrite !app_assoc. f_equiv. apply Permutation_app_comm.
Qed.

Lemma queue_step stats h nodes rem :
  ts_queue stats h nodes rem -> nodes <> [] ->
  exists q ts rem', binaryheap_first h = (Ret q, h) /\ lookupZ stats q = Some ts /\ rem ≡ₚ ts_index ts :: rem' /\
    let stats' := insertZ q (advance ts) stats in
    exists h' nodes', (forall w, update_ts_heap stats' q (advance ts) h w = (Ret h', w)) /\ ts_queue stats' h' nodes' rem'.
Proof.
  intros [Hh Hnd Hop Hrem] Hne. destruct (first_run (fun _ _ => 0) h nodes Hh Hne) as (q & Hf & Hq & Hin & _).
  pose proof (proj1 (Forall_forall _ _) Hop q Hin) as (ts & Hts & Hlt). destruct (proj1 (elem_of_Permutation _ _) Hin) as [s' Hs'].
  assert (NoDup (q :: s')) as Hnd' by (by rewrite <- Hs'). apply NoDup_cons in Hnd' as [Hqs Hnd'].
  assert (Forall (unfinished (insertZ q (advance ts) stats)) s') as Hop'.
  { apply open_other; [done|]. rewrite Hs' in Hop. by apply Forall_cons_1 in Hop as [_ ?]. }
  assert (lookupZ (insertZ q (advance ts) stats) q = Some (advance ts)) as Hq' by (by eapply lookupZ_insertZ_eq, lookupZ_Some).
  set (rest := mjoin ((fun q => span (ts_at stats q)) <$> s')). exists q, ts, (span (advance ts) ++ rest). split_and!; [done|done| |].
  { rewrite <- Hrem, (spans_perm _ _ _ Hs'). cbn. unfold ts_at at 1. rewrite Hts. cbn. by rewrite span_cons. }
  intros stats'. unfold update_ts_heap, on. set (cmp := ts_ckpt_progress_comparator stats').
  assert (forall s'', s'' ≡ₚ s' -> mjoin ((fun q => span (ts_at stats' q)) <$> s'') ≡ₚ rest) as Hrest.
  { intros s'' E. rewrite (spans_perm _ _ _ E). unfold stats'. by rewrite spans_other. }
  destruct (Z.eqb_spec (num_scanned (advance ts)) (ts_num_to_scan (advance ts))) as [E|E].
  - destruct (remove_first_run cmp h nodes Hh Hne) as (d & s2 & h' & Hr & Hd & Hp & Hh' & _). assert (d = q) as -> by congruence.
    assert (s2 ≡ₚ s') as E2 by (apply (Permutation_cons_inv (a := q)); by rewrite Hp, Hs').
    exists h', s2. split; [intros w; by rewrite Hr|]. split; [done|by rewrite E2|by rewrite E2|]. rewrite Hrest by done.
    unfold span at 1. rewrite (seqZ_nil _ (_ - _)) by lia. done.
  - destruct (replace_first_run cmp h nodes q Hh Hne) as (d & s2 & h' & Hr & Hd & Hp & Hh' & _). assert (d = q) as -> by congruence.
    assert (s2 ≡ₚ s') as E2 by (apply (Permutation_cons_inv (a := q)); by rewrite Hp, Hs').
    exists h', (q :: s2). split; [intros w; by rewrite Hr|]. split; [done|by rewrite E2; apply NoDup_cons| |].
    + rewrite E2. constructor; [|done]. exists (advance ts). split; [done|]. cbn in *. lia.
    + cbn. rewrite Hrest by done. unfold ts_at at 1, stats'. by rewrite Hq'.
Qed.

Lemma ts_at_all stats : ts_at stats <$> seqZ 0 (Z.of_nat (length stats)) = stats.
Proof.
  apply list_eq. intros i. rewrite list_lookup_fmap. destruct (decide (i < length stats)%nat) as [Hi|Hi].
  - rewrite lookup_seqZ_lt by lia. cbn. unfold ts_at, lookupZ. rewrite (proj2 (Z.leb_le _ _)) by lia.
    destruct (lookup_lt_is_Some_2 stats i Hi) as [ts Hts]. by replace (Z.to_nat (0 + Z.of_nat i)) with i by lia; rewrite Hts.
  - rewrite lookup_seqZ_ge by lia. cbn. symmetry. apply lookup_ge_None. lia.
Qed.

(** The heap of all tablespaces. *)
Lemma build_ts_heap_run junk stats w :
  heap_fits (Z.of_nat (length stats)) -> Forall fresh_status stats ->
  exists h nodes, build_ts_heap junk stats w = (Ret h, w) /\ ts_queue stats h nodes (mjoin (span <$> stats)).
Proof.
  intros Hlen Hfr. set (k := Z.of_nat (length stats)) in *.
  assert (forall n i h, add_nodes n i h = add_all (seqZ i (Z.of_nat n)) h) as Hadd.
  { induction n as [|n IH]; intros i h; [done|]. rewrite seqZ_cons by lia. cbn [add_nodes add_all].
    apply bind_ext. intros _ h'. rewrite IH. do 2 f_equal; lia. }
  destruct (allocate_queue (fun _ _ => 0) k junk w) as (h0 & Hr0 & Hsp & [Hh0 _]); [lia|done|].
  destruct (Hh0) as [Hok _ Hc]. pose proof (holds_size _ _ Hh0) as Hn0. cbn in Hn0.
  destruct (add_all_run (seqZ 0 k) _ [] Hok Hc) as (h1 & Hr1 & Hok1 & Hc1); [rewrite length_seqZ; lia|].
  rewrite app_nil_r in Hc1.
  destruct (build_run (ts_ckpt_progress_comparator stats) h1 _ Hok1 Hc1) as (h2 & Hr2 & Hh2 & _ & _).
  exists h2, (seqZ 0 k). split.
  - unfold build_ts_heap. fold k. run Hr0. unfold on.
    rewrite (bind_ret (add_nodes (length stats) 0) _ _ tt h1); [by rewrite Hr2|]. by rewrite Hadd.
  - split; [done|apply NoDup_seqZ| |].
    + apply Forall_forall. intros q Hq%elem_of_seqZ. destruct (lookupZ_lt stats q) as [ts Hts]; [lia|]. exists ts. split; [done|].
      rewrite Forall_forall in Hfr. destruct (Hfr ts); [|lia]. unfold lookupZ in Hts. case_match; [|done]. by eapply list_elem_of_lookup_2.
    + change (fun q => span (ts_at stats q)) with (span ∘ ts_at stats). unfold k. by rewrite list_fmap_compose, ts_at_all.
Qed.

(** ** Marking *)
Definition mark_desc (flags : Z) (d : BufferDesc) : BufferDesc :=
  if ckpt_needs flags (state d) then with_state (Z.lor (state d) BM_CHECKPOINT_NEEDED) d else d.

Section checkpoint.
Context (same_page : relation Z) `{!Equivalence same_page} `{!Server} `{!ServerLaws same_page}.
Context (permanent : BufferTag -> bool).
Context (n : Z) (p : EvictionVtablePtr) (strategy : BufferAccessStrategy).
Context (others : Z -> Z).
Local Abbreviation pool := (pool_ok same_page PageGetLSN permanent n).
Local Abbreviation at_work := (at_work same_page permanent n p strategy others).
Local Abbreviation seen := (same_pages same_page).

Lemma unlock_set s F :
  wf_state s -> wf_state F -> flag s BM_LOCKED = false -> flag F BM_LOCKED = false ->
  unlock_word (Z.lor s BM_LOCKED) F 0 0 = Z.lor s F.
Proof using Type.
  intros Hs HF Hl Hf. rewrite unlock_ext_word by done. rewrite Z.ldiff_0_r.
  rewrite <- Z.lor_assoc, (Z.lor_comm BM_LOCKED), Z.lor_assoc. apply unlock_lock. by rewrite flag_or, Hl, Hf.
Qed.

Lemma mark_flag {G k} `{!IsBit G k} flags d :
  flag BM_CHECKPOINT_NEEDED G = false -> flag (state (mark_desc flags d)) G = flag (state d) G.
Proof using Type.
  intros Hg. unfold mark_desc. case_match; [|done]. cbn. by rewrite flag_or, Hg, orb_false_r.
Qed.
Lemma mark_fields flags d : wf_state (state d) ->
  wf_state (state (mark_desc flags d)) /\ refcount (state (mark_desc flags d)) = refcount (state d) /\
  lock_field (state (mark_desc flags d)) = lock_field (state d).
Proof using Type.
  intros Hs. unfold mark_desc. case_match; [|done]. cbn. split_and!; [by apply wf_lor| |].
  - rewrite !refcount_field. by rewrite field_lor.
  - unfold lock_field. by rewrite field_lor.
Qed.
Lemma mark_tag flags d : tag (mark_desc flags d) = tag d /\ buf_id (mark_desc flags d) = buf_id d /\
  lock_waiters (mark_desc flags d) = lock_waiters d.
Proof using Type. unfold mark_desc. by case_match. Qed.
Lemma mark_idle flags d : wf_state (state d) -> idle d -> idle (mark_desc flags d).
Proof using Type.
  intros Hs [I1 I2 I3 I4 I5 I6]. destruct (mark_fields flags d Hs) as (_ & _ & Hl). destruct (mark_tag flags d) as (_ & _ & Hw).
  split; [by rewrite Hl|by rewrite mark_flag..|by rewrite Hw].
Qed.

Lemma mark_ok flags s v d i : desc_ok same_page permanent s i d -> desc_ok same_page permanent (redesc v (mark_desc flags d) s) i (mark_desc flags d).
Proof using Type.
  intros [D1 D2 D3 D4 D5 D6 D7 DJ D8]. destruct (mark_fields flags d D2) as (M1 & M2 & M3). destruct (mark_tag flags d) as (T1 & T2 & T3).
  split; rewrite ?T1, ?T2, ?mark_flag by done; try done. intros H0. apply mark_idle; [done|]. apply D8. lia.
Qed.

(** Marking a buffer keeps the pool in order and changes no page. *)
Lemma mark_pool flags s v d :
  pool s -> desc_of s v d -> pool (redesc v (mark_desc flags d) s) /\ seen s (redesc v (mark_desc flags d) s).
Proof using Type*.
  intros [P1 P2 P3 P4 P5 P6] Hd. assert (pool (redesc v (mark_desc flags d) s)) as Hp.
  { split; [by cbn; rewrite length_insertZ|done| | |done|done].
    - intros i x Hx. apply (desc_of_redesc v _ s i x d Hd) in Hx as [[-> ->]|[Hne Hx]]; [by apply mark_ok, P3|].
      destruct (P3 i x Hx) as [D1 D2 D3 D4 D5 D6 D7 DJ D8]. by split.
    - intros t i. cbn. rewrite P4. split; intros (x & Hx & Hf & Ht).
      + destruct (decide (i = v)) as [->|Hne].
        * unfold desc_of in *. simplify_eq. exists (mark_desc flags d). split; [by eapply lookupZ_insertZ_eq, lookupZ_Some|].
          rewrite mark_flag by done. split; [done|]. by rewrite (proj1 (mark_tag flags d)).
        * exists x. split; [|done]. apply (desc_of_redesc v _ s i x d Hd). by right.
      + apply (desc_of_redesc v _ s i x d Hd) in Hx as [[-> ->]|[Hne Hx]]; [|by exists x].
        exists d. rewrite mark_flag in Hf by done. rewrite (proj1 (mark_tag flags d)) in Ht. done. }
  split; [done|]. intros t. assert (page_seen (redesc v (mark_desc flags d) s) t = page_seen s t) as ->; [|done].
  unfold page_seen, cached. cbn. destruct (SharedBufHash s !! t) as [i|]; [|done].
  destruct (decide (i = v)) as [->|Hne]; [|by rewrite lookupZ_insertZ_ne by done].
  rewrite lookupZ_insertZ_eq by (by eapply lookupZ_Some). unfold desc_of in Hd. rewrite Hd. by rewrite mark_flag.
Qed.

Lemma mark_buffer_run flags m0 mu pins w x d items :
  at_work m0 mu pins w -> desc_at w x d ->
  exists w', mark_buffer (ckpt_mask flags) x items w =
      (Ret (if ckpt_needs flags (state d) then items ++ [ckpt_item x (tag d)] else items), w') /\
    w' = set_desc x (mark_desc flags d) w /\ at_work m0 mu pins w' /\ seen (shm w) (shm w').
Proof using Type*.
  intros Hw Hd. pose proof (aw_desc _ _ _ _ _ _ _ _ _ _ _ _ Hw Hd) as [D1 D2 D3 D4 D5 D6 D7 DJ D8].
  destruct (mark_pool flags (shm w) x d (aw_pool _ _ _ _ _ _ _ _ _ _ Hw) Hd) as [Hp Hse].
  exists (set_desc x (mark_desc flags d) w). split; [|split; [done|split; [|exact Hse]]].
  - set (dl := with_state (Z.lor (state d) BM_LOCKED) d). set (wl := set_desc x dl w).
    pose proof (aw_quiet _ _ _ _ _ _ _ _ _ _ Hw) as Hq. pose proof (aw_pos _ _ _ _ _ _ _ _ _ _ Hw) as Hg.
    assert (desc_at wl x dl) as Hdl by (by apply (desc_at_set_eq w _ d)).
    unfold mark_buffer, GetBufferDescriptor. run (LockBufHdr_quiet w Hq Hg x d Hd D3). fold dl wl.
    fold (ckpt_needs flags (Z.lor (state d) BM_LOCKED)). rewrite ckpt_needs_locked. unfold mark_desc.
    change (Z.lor (state d) BM_LOCKED) with (state dl). destruct (ckpt_needs flags (state d)).
    + run (deref_run wl x dl Hdl). run (UnlockBufHdrExt_quiet wl Hq Hg x dl BM_CHECKPOINT_NEEDED 0 0 Hdl (flag_locked _)).
      change (state dl) with (Z.lor (state d) BM_LOCKED). rewrite unlock_set by done. unfold wl. by rewrite set_desc_set_desc.
    + run (UnlockBufHdrExt_quiet wl Hq Hg x dl 0 0 0 Hdl (flag_locked _)).
      change (state dl) with (Z.lor (state d) BM_LOCKED). rewrite unlock_set, Z.lor_0_r by done. unfold wl.
      rewrite set_desc_set_desc. by destruct d.
  - destruct Hw as [A1 A2 A3 A4 A5 A6 A7 [S1 S2 S3 S4] A9 A10]. split; try done. destruct A9 as [C1 C2]. split; [|done].
    intros i y Hy. apply (desc_of_redesc x _ _ i y d Hd) in Hy as [[-> ->]|[_ Hy]]; [|by apply C1].
    destruct (mark_fields flags d D2) as (_ & -> & _). by apply C1.
Qed.

(** The items for the buffers from [lo] on that have to be written, each once. *)
Record items_for (flags lo : Z) (s : Shared) (l : list CkptSortItem) : Prop := {
  if_elem : forall it, it ∈ l <-> exists x d, lo <= x /\ desc_of s x d /\ ckpt_needs flags (state d) = true /\ it = ckpt_item x (tag d);
  if_once : NoDup (ckpt_buf_id <$> l)
}.
Definition marked (flags lo : Z) (s s' : Shared) : Prop :=
  forall x, lookupZ (BufferDescriptors s') x =
    if lo <=? x then mark_desc flags <$> lookupZ (BufferDescriptors s) x else lookupZ (BufferDescriptors s) x.

Lemma items_for_step flags lo s s' d l :
  desc_of s lo d -> (forall x, lo < x -> lookupZ (BufferDescriptors s') x = lookupZ (BufferDescriptors s) x) ->
  items_for flags (lo + 1) s' l ->
  items_for flags lo s ((if ckpt_needs flags (state d) then [ckpt_item lo (tag d)] else []) ++ l).
Proof using Type.
  intros Hd Hs' [I1 I2].
  assert (forall it, it ∈ l <-> exists x dx, lo < x /\ desc_of s x dx /\ ckpt_needs flags (state dx) = true /\ it = ckpt_item x (tag dx)) as Hl.
  { intros it. rewrite I1. unfold desc_of. split; intros (x & dx & Hx & Hdx & Hn & ->); exists x, dx.
    - rewrite Hs' in Hdx by lia. split; [lia|done].
    - rewrite Hs' by lia. split; [lia|done]. }
  split.
  - intros it. rewrite elem_of_app, Hl. split.
    + intros [Hit|(x & dx & Hx & Hdx & Hn & ->)]; [|exists x, dx; split; [lia|done]].
      destruct (ckpt_needs flags (state d)) eqn:E; [|by apply elem_of_nil in Hit]. apply list_elem_of_singleton in Hit as ->.
      exists lo, d. split; [lia|done].
    + intros (x & dx & Hx & Hdx & Hn & ->). destruct (decide (x = lo)) as [->|Hne].
      * unfold desc_of in *. simplify_eq. left. rewrite Hn. by apply list_elem_of_singleton.
      * right. exists x, dx. split; [lia|done].
  - rewrite fmap_app. destruct (ckpt_needs flags (state d)); [|done]. cbn. apply NoDup_cons. split; [|done].
    intros (it & Heq & Hit)%list_elem_of_fmap. apply Hl in Hit as (x & dx & Hx & _ & _ & ->). cbn in Heq. lia.
Qed.

Lemma mark_buffers_run flags m0 mu pins k : forall lo items w,
  at_work m0 mu pins w -> 0 <= lo -> lo + Z.of_nat k = n ->
  exists w' l, mark_buffers (ckpt_mask flags) k lo items w = (Ret (items ++ l), w') /\ at_work m0 mu pins w' /\
    seen (shm w) (shm w') /\ marked flags lo (shm w) (shm w') /\ items_for flags lo (shm w) l /\ me w' = me w.
Proof using Type*.
  induction k as [|k IH]; intros lo items w Hw Hlo Hk; cbn [mark_buffers].
  - exists w, []. rewrite app_nil_r. split_and!; try done.
    + intros x. destruct (Z.leb_spec lo x) as [Hx|]; [|done]. destruct (lookupZ _ x) as [d|] eqn:Hd; [|done].
      pose proof (aw_range _ _ _ _ _ _ _ _ _ _ _ _ Hw Hd). lia.
    + split; [|apply NoDup_nil_2]. intros it. split; [by intros ?%elem_of_nil|]. intros (x & d & Hx & Hd & _).
      pose proof (aw_range _ _ _ _ _ _ _ _ _ _ _ _ Hw Hd). lia.
  - destruct (aw_at _ _ _ _ _ _ _ _ _ _ lo Hw) as (d & Hd); [lia|].
    destruct (mark_buffer_run flags m0 mu pins w lo d items Hw Hd) as (w1 & Hrun1 & -> & Hw1 & Hse1).
    set (w1 := set_desc lo (mark_desc flags d) w) in *. pose proof (lookupZ_Some _ _ _ Hd) as Rlo.
    destruct (IH (lo + 1) (if ckpt_needs flags (state d) then items ++ [ckpt_item lo (tag d)] else items) w1 Hw1)
      as (w2 & l & Hrun2 & Hw2 & Hse2 & Hm2 & Hit2 & Hme2); [lia|lia|].
    exists w2, ((if ckpt_needs flags (state d) then [ckpt_item lo (tag d)] else []) ++ l). run Hrun1. split_and!.
    + rewrite Hrun2. by destruct (ckpt_needs flags (state d)); [rewrite <- app_assoc|].
    + done.
    + by etrans.
    + intros x. rewrite Hm2. cbn. destruct (decide (x = lo)) as [->|Hne].
      * rewrite (proj2 (Z.leb_gt _ _)), (proj2 (Z.leb_le _ _)) by lia. rewrite lookupZ_insertZ_eq by done.
        unfold desc_at in Hd. by rewrite Hd.
      * rewrite lookupZ_insertZ_ne by done. destruct (Z.leb_spec lo x), (Z.leb_spec (lo + 1) x); try done; lia.
    + apply (items_for_step flags lo _ (shm w1) d); [done| |done]. intros x Hx. cbn. rewrite lookupZ_insertZ_ne by lia. done.
    + by rewrite Hme2.
Qed.

(** ** One buffer *)

(** The backend at work, whose own list of pending write-backs changes. *)
Definition at_ckpt (m0 : Backend) (mu : gmap Z PrivateRefCountData) (pins : list Z) (w : World) : Prop :=
  at_work (with_wb_context (wb_context (me w)) m0) mu pins w /\ wb_ok (wb_context (me w)).

Lemma at_work_wb m0 m1 mu pins w c :
  at_work m1 mu pins w -> m1 = with_wb_context (wb_context m1) m0 ->
  at_work (with_wb_context c m0) mu pins (upd_me (with_wb_context c) w).
Proof using Type.
  intros [A1 [R1 R2 R3 R4 R5] [] A4 A5 A6 A7 A8 A9 A10] E. rewrite E in *. cbn in *.
  split; try done. by destruct A4.
Qed.

Lemma at_ckpt_set m0 mu pins w c : at_ckpt m0 mu pins w -> wb_ok c -> at_ckpt m0 mu pins (upd_me (with_wb_context c) w).
Proof using Type.
  intros [Hw Hc] Hok. split; [|done]. by apply (at_work_wb m0 (with_wb_context (wb_context (me w)) m0)).
Qed.

Definition ckpt_post {A} (m0 : Backend) (mu : gmap Z PrivateRefCountData) (pins : list Z) (w : World)
    (K : A -> World -> Prop) (o : outcome A) (w' : World) : Prop :=
  match o with
  | Ret a => at_ckpt m0 mu pins w' /\ seen (shm w) (shm w') /\ K a w'
  | Elog e => e = "I/O error" /\ write_failed same_page permanent n m0 (shm w) (shm w')
  | _ => False
  end.

Lemma sync_one_run m0 mu pins w x d :
  at_ckpt m0 mu pins w -> desc_at w x d -> flag (state d) BM_DIRTY = true -> mu !! (x + 1) = None -> idle d ->
  wp (SyncOneBuffer x false ProcessContext)
    (ckpt_post m0 mu pins w (fun r w' => ztrue (Z.land r BUF_WRITTEN) = true /\ cleaned_at x (shm w) (shm w'))) w.
Proof using Type*.
  intros [Hw Hwb] Hd Hdirty Hmu Hi. pose proof (aw_desc _ _ _ _ _ _ _ _ _ _ _ _ Hw Hd) as Hok.
  pose proof (do_dirty _ _ _ _ _ Hok Hdirty) as Hvalid. unfold SyncOneBuffer, GetBufferDescriptor.
  destruct (Reserve_spec w mu) as (m1 & Hrun1 & Hinv1 & Hfr1 & Hres1 & _); [apply Hw|].
  pose proof (aw_track _ _ _ _ _ _ _ _ _ w m1 Hw (conj Hinv1 Hfr1)) as Hw1. set (w1 := with_me m1 w) in *.
  assert (desc_at w1 x d) as Hd1 by done. pose proof (aw_quiet _ _ _ _ _ _ _ _ _ _ Hw1) as Hq1.
  eapply wp_step; [run Hrun1; run (LockBufHdr_quiet w1 Hq1 (aw_pos _ _ _ _ _ _ _ _ _ _ Hw1) x d Hd1 (do_unlocked _ _ _ _ _ Hok)); reflexivity|].
  rewrite andb_false_r, !locked_flag, Hvalid, Hdirty by done. cbn [negb orb]. set (result := if _ && _ then BUF_REUSABLE else 0).
  eapply wp_step; [symmetry; apply bind_assoc|]. apply wp_bind.
  set (m1' := with_wb_context _ m0) in *.
  eapply wp_mono; [|by apply (pin_flush_run same_page permanent n p strategy others m1' mu pins w1 x d None)].
  intros [[]|e|e|] w2; cbn; try done. intros [d2 Hwo]. assert (desc_at w2 x d2) as Hd2 by apply Hwo.
  destruct (let_go_run same_page permanent n p strategy others m1' mu pins w1 x d w2 d2 Hd1 Hmu Hwo) as (w3 & Hrun3 & Hw3 & Hse3 & Hcl3).
  assert (wb_ok (wb_context (me w3))) as Hwb3 by (by rewrite (kp_wb _ _ (aw_keeps _ _ _ _ _ _ _ _ _ _ Hw3))).
  destruct (Schedule_run smgrwriteback eq io_direct_data enableFsync ProcessContext (tag d2) w3 sl_hint Hwb3)
    as (s & fs & Hrun4 & [= <- <-]).
  eapply wp_eq; [run (deref_run w2 x d2 Hd2); run Hrun3; run Hrun4; reflexivity|]. split; [|split; [done|split; [|done]]].
  - set (c := scheduled _ _ _). cbn [with_wb]. assert (wb_ok c) as Hc by (by apply scheduled_ok).
    change (at_ckpt m0 mu pins (upd_me (with_wb_context c) w3)). apply at_ckpt_set; [|done]. split; [|done].
    rewrite (kp_wb _ _ (aw_keeps _ _ _ _ _ _ _ _ _ _ Hw3)). exact Hw3.
  - unfold result. by destruct (_ && _).
Qed.

(** ** The loop *)
Context (CheckpointWriteDelay : Z -> float8 -> M unit).
Hypothesis delay_returns : forall flags f w, CheckpointWriteDelay flags f w = (Ret tt, w).

Section loop.
Context (flags : Z) (m0 : Backend) (mu : gmap Z PrivateRefCountData) (pins : list Z).
Context (s1 : Shared) (items : list CkptSortItem).
Hypothesis items_once : NoDup (ckpt_buf_id <$> items).
Hypothesis items_ready : forall it, it ∈ items -> mu !! (ckpt_buf_id it + 1) = None /\ exists d, desc_of s1 (ckpt_buf_id it) d /\
  flag (state d) BM_DIRTY = true /\ flag (state d) BM_CHECKPOINT_NEEDED = true /\ idle d.

(** Buffer [x] is that of an item in [rem]. *)
Definition awaits (rem : list Z) (x : Z) : Prop := exists k it, k ∈ rem /\ lookupZ items k = Some it /\ ckpt_buf_id it = x.

(** Nothing has happened to the buffers of the items that are left, and those of
    the others are clean. *)
Record syncing (st : CkptState) (rem : list Z) (w : World) : Prop := {
  sy_work : at_ckpt m0 mu pins w;
  sy_seen : seen s1 (shm w);
  sy_queue : exists nodes, ts_queue (ck_stats st) (ck_heap st) nodes rem;
  sy_once : NoDup rem;
  sy_range : forall k, k ∈ rem -> is_Some (lookupZ items k);
  sy_desc : forall x d, desc_of s1 x d -> exists d', desc_of (shm w) x d' /\ tag d' = tag d /\ (awaits rem x -> d' = d) /\
    (~ awaits rem x -> flag (state d') BM_DIRTY = flag (state d) BM_DIRTY && negb (bool_decide (x ∈ ckpt_buf_id <$> items)));
  sy_count : num_written st + Z.of_nat (length rem) = Z.of_nat (length items)
}.

Lemma same_item k k' it it' :
  lookupZ items k = Some it -> lookupZ items k' = Some it' -> ckpt_buf_id it = ckpt_buf_id it' -> k = k'.
Proof using items_once.
  intros Hk Hk' E. pose proof (lookupZ_Some _ _ _ Hk). pose proof (lookupZ_Some _ _ _ Hk'). unfold lookupZ in *.
  rewrite (proj2 (Z.leb_le 0 k)) in Hk by lia. rewrite (proj2 (Z.leb_le 0 k')) in Hk' by lia.
  assert (Z.to_nat k = Z.to_nat k'); [|lia].
  apply (NoDup_lookup _ _ _ (ckpt_buf_id it) items_once); rewrite list_lookup_fmap; [by rewrite Hk|by rewrite Hk', E].
Qed.

(** The buffer of the item [k] was written. *)
Lemma syncing_step st st' rem rem' k it w w' :
  syncing st rem w -> rem ≡ₚ k :: rem' -> lookupZ items k = Some it -> cleaned_at (ckpt_buf_id it) (shm w) (shm w') ->
  at_ckpt m0 mu pins w' -> seen (shm w) (shm w') -> (exists nodes, ts_queue (ck_stats st') (ck_heap st') nodes rem') ->
  num_written st' = num_written st + 1 -> syncing st' rem' w'.
Proof using Equivalence0 items_once.
  intros [S1 S2 S3 S4 S5 S6 S7] Hrem Hk (d0 & dn & Hd0 & Ht & Hc & _ & Hds) Hw' Hse Hq Hn.
  rewrite Hrem in S4. apply NoDup_cons in S4 as [Hk' S4]. set (x := ckpt_buf_id it) in *.
  assert (forall y, y <> x -> awaits rem' y <-> awaits rem y) as Hother.
  { intros y Hy. split; intros (j & jt & Hj & Hjt & Hid); exists j, jt; (split; [|done]).
    - rewrite Hrem. by constructor.
    - rewrite Hrem in Hj. apply elem_of_cons in Hj as [->|?]; [|done]. by simplify_eq. }
  split; try done; [by etrans|..].
  - intros j Hj. apply S5. rewrite Hrem. by constructor.
  - intros y d Hd. destruct (S6 y d Hd) as (d' & Hd' & Ht' & Hsame & Hclean). destruct (decide (y = x)) as [->|Hne].
    + exists dn. unfold desc_of in *. simplify_eq. rewrite Hds. split_and!.
      * by eapply lookupZ_insertZ_eq, lookupZ_Some.
      * congruence.
      * intros (j & jt & Hj & Hjt & Hid). destruct Hk'. by rewrite (same_item k j it jt) by done.
      * intros _. rewrite Hc. symmetry. apply andb_false_iff. right. apply negb_false_iff, bool_decide_eq_true.
        apply list_elem_of_fmap. exists it. split; [done|]. unfold lookupZ in Hk. case_match; [|done]. by eapply list_elem_of_lookup_2.
    + exists d'. unfold desc_of in *. rewrite Hds, lookupZ_insertZ_ne by done. rewrite !(Hother y Hne). done.
  - rewrite Hrem in S7. cbn in S7. lia.
Qed.

Definition round_done (st : CkptState) (rem : list Z) (w : World) (o : outcome (ctl CkptState Z)) (w' : World) : Prop :=
  match o with
  | Ret (Break r) => rem = [] /\ w' = w /\ r = num_written st
  | Ret (Continue st') => exists rem', (length rem' < length rem)%nat /\ syncing st' rem' w'
  | Elog e => e = "I/O error" /\ write_failed same_page permanent n m0 s1 (shm w')
  | _ => False
  end.

Lemma sync_round_run st rem w :
  syncing st rem w -> wp (sync_round CheckpointWriteDelay flags items st) (round_done st rem w) w.
Proof using Type*.
  intros Hs. pose proof Hs as [Hw Hse [nodes Hq] Hnd Hrange Hdesc Hcount]. unfold sync_round, binaryheap_empty.
  rewrite (holds_size _ _ (tq_holds _ _ _ _ Hq)). destruct (Z.eqb_spec (Z.of_nat (length nodes)) 0) as [E|E].
  { apply wp_ret. assert (nodes = []) as -> by (apply length_zero_iff_nil; lia). split_and!; [|done|done].
    symmetry. apply Permutation_nil_l. exact (tq_rem _ _ _ _ Hq). }
  destruct (queue_step _ _ _ _ Hq) as (q & ts & rem' & Hf & Hts & Hrem & h' & nodes' & Hup & Hq'); [by intros ->|].
  destruct (Hrange (ts_index ts)) as [it Hit]; [rewrite Hrem; by constructor|].
  assert (it ∈ items) as Hin by (unfold lookupZ in Hit; case_match; [by eapply list_elem_of_lookup_2|done]).
  destruct (items_ready it Hin) as (Hmu & d & Hd & Hdirty & Hck & Hidle). set (x := ckpt_buf_id it) in *.
  destruct (Hdesc x d Hd) as (d' & Hd' & _ & Hsame & _).
  rewrite Hsame in Hd' by (exists (ts_index ts), it; split; [rewrite Hrem; by constructor|done]).
  pose proof (aw_range _ _ _ _ _ _ _ _ _ _ _ _ (proj1 Hw) Hd') as Rx.
  assert (at_index (ck_stats st) q "status out of range" w = (Ret ts, w)) as H1 by (unfold at_index; by rewrite Hts).
  assert (at_index items (ts_index ts) "item out of range" w = (Ret it, w)) as H2 by (unfold at_index; by rewrite Hit).
  assert (on (ck_heap st) binaryheap_first w = (Ret (q, ck_heap st), w)) as H0 by (unfold on; by rewrite Hf).
  eapply wp_step; [run H0; run H1; run H2; fold x; rewrite c_assert_ok by (apply negb_true_iff, Z.eqb_neq; lia);
    run (read_quiet w (aw_quiet _ _ _ _ _ _ _ _ _ _ (proj1 Hw)) x d Hd'); rewrite Hck; reflexivity|].
  apply wp_bind. eapply wp_mono; [|by apply (sync_one_run m0 mu pins w x d)].
  intros [r|e|e|] w1; cbn [ckpt_post bind_post round_done]; try done.
  2: { intros (-> & Hfault & Hp & Hse1). split; [done|]. split; [done|]. split; [done|by etrans]. }
  intros (Hw1 & Hse1 & Hwr & Hcl). rewrite Hwr.
  eapply wp_eq; [run (Hup w1); run (delay_returns flags (float8_div (float8_of_int (num_processed st + 1))
    (float8_of_int (Z.of_nat (length items)))) w1); reflexivity|].
  exists rem'. split; [rewrite Hrem; cbn; lia|].
  by eapply (syncing_step st _ rem rem' (ts_index ts) it w w1); [..|by exists nodes'|].
Qed.
End loop.

(** ** The whole checkpoint *)
Definition needs_at (flags : Z) (s : Shared) (x : Z) : bool :=
  match lookupZ (BufferDescriptors s) x with Some d => ckpt_needs flags (state d) | None => false end.

(** [k] buffers were written: those that had to be are clean and on disk, the others
    are as dirty as before. *)
Record ckpt_written (flags : Z) (w : World) (k : Z) (w' : World) : Prop := {
  cw_clean : forall x d, desc_at w x d -> exists d', desc_at w' x d' /\ tag d' = tag d /\
    flag (state d') BM_DIRTY = flag (state d) BM_DIRTY && negb (ckpt_needs flags (state d));
  cw_disk : forall x d, desc_at w x d -> ckpt_needs flags (state d) = true ->
    option_Forall2 same_page (page_seen (shm w) (tag d)) (disk_page (shm w') (tag d));
  cw_count : k = Z.of_nat (length (filter (fun x => needs_at flags (shm w) x = true) (seqZ 0 n)))
}.

Lemma items_perm flags s l :
  pool s -> items_for flags 0 s l -> ckpt_buf_id <$> l ≡ₚ filter (fun x => needs_at flags s x = true) (seqZ 0 n).
Proof using Type.
  intros Hp [I1 I2]. apply NoDup_Permutation; [done|apply NoDup_filter, NoDup_seqZ|]. intros x.
  rewrite list_elem_of_fmap, list_elem_of_filter, elem_of_seqZ. unfold needs_at. split.
  - intros (it & -> & Hit). apply I1 in Hit as (x & d & Hx & Hd & Hn & ->). cbn. unfold desc_of in Hd. rewrite Hd.
    split; [done|]. pose proof (lookupZ_Some _ _ _ Hd). rewrite (pl_len _ _ _ _ _ Hp) in *. lia.
  - intros [Hn Hx]. destruct (lookupZ _ x) as [d|] eqn:Hd; [|done]. exists (ckpt_item x (tag d)). split; [done|].
    apply I1. exists x, d. split; [lia|done].
Qed.

Lemma written_on_disk flags w w' x d :
  pool (shm w) -> pool (shm w') -> seen (shm w) (shm w') ->
  (forall x d, desc_at w x d -> exists d', desc_at w' x d' /\ tag d' = tag d /\
    flag (state d') BM_DIRTY = flag (state d) BM_DIRTY && negb (ckpt_needs flags (state d))) ->
  desc_at w x d -> ckpt_needs flags (state d) = true ->
  option_Forall2 same_page (page_seen (shm w) (tag d)) (disk_page (shm w') (tag d)).
Proof using Equivalence0.
  intros Hp Hp' Hse Hcl Hd Hn. etrans; [apply Hse|]. apply (clean_on_disk same_page permanent n); [done|].
  assert (forall y dy, desc_at w y dy -> flag (state dy) BM_DIRTY = true -> SharedBufHash (shm w) !! tag dy = Some y) as Hh.
  { intros y dy Hy Hdy. apply (pl_hash _ _ _ _ _ Hp). exists dy. split; [done|]. split; [|done].
    destruct (pl_desc _ _ _ _ _ Hp y dy Hy) as [_ _ _ D4 D5 _ _ _]. by apply D5, D4. }
  assert (flag (state d) BM_DIRTY = true) as Hdirty by (rewrite ckpt_needs_flags in Hn; by apply andb_true_iff in Hn as [? _]).
  intros y d' Hy Ht. destruct (flag (state d') BM_DIRTY) eqn:E; [|done]. exfalso.
  assert (exists dy, desc_at w y dy) as (dy & Hdy).
  { apply lookupZ_lt. pose proof (lookupZ_Some _ _ _ Hy) as Ry. by rewrite (pl_len _ _ _ _ _ Hp'), <- (pl_len _ _ _ _ _ Hp) in Ry. }
  destruct (Hcl y dy Hdy) as (d1 & Hd1 & Ht1 & Hd1d). unfold desc_of, desc_at in *. simplify_eq.
  rewrite E in Hd1d. symmetry in Hd1d. apply andb_true_iff in Hd1d as [Hdyd Hnn%negb_true_iff].
  pose proof (Hh y dy Hdy Hdyd) as H1. pose proof (Hh x d Hd Hdirty) as H2. rewrite <- Ht1, Ht in H1. simplify_eq. congruence.
Qed.

Lemma sync_loop_run flags m0 mu pins s1 items st rem w :
  NoDup (ckpt_buf_id <$> items) ->
  (forall it, it ∈ items -> mu !! (ckpt_buf_id it + 1) = None /\ exists d, desc_of s1 (ckpt_buf_id it) d /\
    flag (state d) BM_DIRTY = true /\ flag (state d) BM_CHECKPOINT_NEEDED = true /\ idle d) ->
  syncing m0 mu pins s1 items st rem w -> (length rem < gas (me w))%nat ->
  wp (forever (sync_round CheckpointWriteDelay flags items) st) (fun o w' => match o with
    | Ret r => exists st', syncing m0 mu pins s1 items st' [] w' /\ r = num_written st'
    | Elog e => e = "I/O error" /\ write_failed same_page permanent n m0 s1 (shm w')
    | _ => False
    end) w.
Proof using Type*.
  intros Hnd Hready Hs Hgas.
  apply (wp_forever (fun k st w => exists rem, length rem = k /\ syncing m0 mu pins s1 items st rem w) _ _ (length rem));
    [|done|by exists rem].
  clear -Equivalence0 ServerLaws0 delay_returns Hnd Hready. intros k st w (rem & <- & Hs).
  eapply wp_mono; [|by apply (sync_round_run flags m0 mu pins s1 items Hnd Hready st rem w)].
  intros [[st'|r]|e|e|] w'; cbn; try done.
  - intros (rem' & Hlt & Hs'). exists (length rem'). split; [done|]. by exists rem'.
  - intros (-> & -> & ->). by exists st.
Qed.

Lemma spans_length stats : Forall fresh_status stats -> (length stats <= length (mjoin (span <$> stats)))%nat.
Proof using Type.
  clear. induction 1 as [|st stats [H1 H2] _ IH]; [cbn; lia|]. rewrite fmap_cons.
  change (mjoin (span st :: (span <$> stats))) with (span st ++ mjoin (span <$> stats)). rewrite length_app.
  unfold span at 1. rewrite length_seqZ. cbn [length]. lia.
Qed.
Lemma slice_spans k (stats : list CkptTsStatus) : span <$> (set_slice k <$> stats) = span <$> stats.
Proof using Type. by rewrite <- list_fmap_compose. Qed.
Lemma slice_fresh k (stats : list CkptTsStatus) : Forall fresh_status stats -> Forall fresh_status (set_slice k <$> stats).
Proof using Type. intros Hf. apply Forall_fmap. by apply (Forall_impl _ _ _ Hf). Qed.

Lemma sort_checkpoint_run l w :
  sort_checkpoint_bufferids l w = (Ret (sort_array ckpt_buforder_comparator l), w).
Proof using Type.
  unfold sort_checkpoint_bufferids. rewrite (bind_ret _ _ w (tt, sort_array ckpt_buforder_comparator l) w); [done|].
  unfold on. by rewrite (sort_array_run ckpt_buforder_comparator).
Qed.

(** The state in which the loop starts. *)
Lemma sync_start m0 mu pins w s1 l h nodes stats :
  at_ckpt m0 mu pins w -> shm w = s1 -> NoDup (ckpt_buf_id <$> l) ->
  ts_queue stats h nodes (seqZ 0 (Z.of_nat (length l))) ->
  syncing m0 mu pins s1 l (mkCkptState h stats 0 0) (seqZ 0 (Z.of_nat (length l))) w.
Proof using Equivalence0.
  intros Hw Hs Hnd Hq. split; try done; [by rewrite Hs|by exists nodes|apply NoDup_seqZ| | |].
  - intros k Hk%elem_of_seqZ. apply lookupZ_lt. lia.
  - intros x d Hd. rewrite Hs. exists d. split_and!; try done. intros Hna. rewrite bool_decide_false; [by rewrite andb_true_r|].
    intros (it & -> & [i Hi]%list_elem_of_lookup)%list_elem_of_fmap. apply Hna. pose proof (lookup_lt_Some _ _ _ Hi).
    exists (Z.of_nat i), it. split; [apply elem_of_seqZ; lia|]. split; [|done]. unfold lookupZ.
    by rewrite (proj2 (Z.leb_le _ _)), Nat2Z.id by lia.
  - cbn. rewrite length_seqZ. lia.
Qed.

Definition idle_needed (flags : Z) (mu : gmap Z PrivateRefCountData) (w : World) : Prop :=
  forall x d, desc_at w x d -> ckpt_needs flags (state d) = true -> mu !! (x + 1) = None /\ idle d.

(** The items of the marked pool are ready for the loop. *)
Lemma items_ready_run flags m0 mu pins w w1 l :
  at_work m0 mu pins w -> marked flags 0 (shm w) (shm w1) -> items_for flags 0 (shm w) l -> idle_needed flags mu w ->
  forall it, it ∈ l -> mu !! (ckpt_buf_id it + 1) = None /\ exists d, desc_of (shm w1) (ckpt_buf_id it) d /\
    flag (state d) BM_DIRTY = true /\ flag (state d) BM_CHECKPOINT_NEEDED = true /\ idle d.
Proof using Type.
  intros Hw Hm [I1 _] Hidle it (x & d & Hx & Hd & Hn & ->)%I1. cbn. destruct (Hidle x d Hd Hn) as [Hmu Hi]. split; [done|].
  pose proof (do_wf _ _ _ _ _ (aw_desc _ _ _ _ _ _ _ _ _ _ _ _ Hw Hd)) as Hwf. exists (mark_desc flags d). split_and!.
  - unfold desc_of in *. rewrite Hm, (proj2 (Z.leb_le _ _)), Hd by lia. done.
  - rewrite mark_flag by done. rewrite ckpt_needs_flags in Hn. by apply andb_true_iff in Hn as [? _].
  - unfold mark_desc. rewrite Hn. cbn. by flags.
  - by apply mark_idle.
Qed.

(** What is clean when no item is left. *)
Lemma finished_clean flags m0 mu pins w s1 l l' st w' :
  marked flags 0 (shm w) s1 -> items_for flags 0 (shm w) l -> l' ≡ₚ l -> pool (shm w) ->
  syncing m0 mu pins s1 l' st [] w' ->
  forall x d, desc_at w x d -> exists d', desc_at w' x d' /\ tag d' = tag d /\
    flag (state d') BM_DIRTY = flag (state d) BM_DIRTY && negb (ckpt_needs flags (state d)).
Proof using Type.
  intros Hm Hit Hperm Hp [_ _ _ _ _ S6 _] x d Hd. pose proof (lookupZ_Some _ _ _ Hd) as Rx.
  destruct (S6 x (mark_desc flags d)) as (d' & Hd' & Ht & _ & Hc).
  { unfold desc_of. rewrite Hm, (proj2 (Z.leb_le _ _)) by lia. unfold desc_at in Hd. by rewrite Hd. }
  exists d'. split; [done|]. split; [by rewrite Ht, (proj1 (mark_tag flags d))|].
  rewrite Hc, mark_flag by (done || (intros (? & ? & ?%elem_of_nil & _); done)). do 2 f_equal.
  apply eq_bool_prop_intro. rewrite bool_decide_spec, Is_true_true, Hperm, (items_perm flags (shm w) l Hp Hit).
  rewrite list_elem_of_filter, elem_of_seqZ. unfold needs_at. unfold desc_at in Hd. rewrite Hd.
  rewrite (pl_len _ _ _ _ _ Hp) in Rx. split; [by intros [? _]|]. intros. split; [done|lia].
Qed.

Lemma nothing_needed flags w w1 :
  pool (shm w) -> pool (shm w1) -> seen (shm w) (shm w1) -> marked flags 0 (shm w) (shm w1) -> items_for flags 0 (shm w) [] ->
  ckpt_written flags w 0 w1.
Proof using Equivalence0.
  intros Hp Hp1 Hse Hm Hit. pose proof (items_perm flags (shm w) [] Hp Hit) as Hids. cbn in Hids.
  assert (forall x d, desc_at w x d -> ckpt_needs flags (state d) = false) as Hno.
  { intros x d Hd. destruct (ckpt_needs flags (state d)) eqn:E; [|done]. exfalso.
    assert (x ∈ filter (fun x => needs_at flags (shm w) x = true) (seqZ 0 n)) as Hin; [|by rewrite <- Hids in Hin; apply elem_of_nil in Hin].
    pose proof (lookupZ_Some _ _ _ Hd) as Rx. rewrite (pl_len _ _ _ _ _ Hp) in Rx.
    apply list_elem_of_filter. unfold needs_at. unfold desc_at in Hd. rewrite Hd, elem_of_seqZ. split; [done|lia]. }
  split.
  - intros x d Hd. exists (mark_desc flags d). unfold mark_desc. rewrite (Hno x d Hd), andb_true_r. split; [|done].
    pose proof (lookupZ_Some _ _ _ Hd). unfold desc_at in *. rewrite Hm, (proj2 (Z.leb_le _ _)), Hd by lia. cbn. unfold mark_desc.
    by rewrite (Hno x d Hd).
  - intros x d Hd Hn. by rewrite (Hno x d Hd) in Hn.
  - by rewrite <- Hids.
Qed.

(** The heap and the loop over the sorted items, in a pool that is marked. *)
Lemma sync_items_run junk flags m0 mu pins w l :
  let stats := set_slice (Z.of_nat (length l)) <$> ts_statuses l in
  at_ckpt m0 mu pins w -> NoDup (ckpt_buf_id <$> l) -> (length l <= Z.to_nat n)%nat -> heap_fits (Z.of_nat (length stats)) ->
  (forall it, it ∈ l -> mu !! (ckpt_buf_id it + 1) = None /\ exists d, desc_of (shm w) (ckpt_buf_id it) d /\
    flag (state d) BM_DIRTY = true /\ flag (state d) BM_CHECKPOINT_NEEDED = true /\ idle d) ->
  wp (let* h := build_ts_heap junk stats in forever (sync_round CheckpointWriteDelay flags l) (mkCkptState h stats 0 0))
    (fun o w' => match o with
      | Ret r => exists st', syncing m0 mu pins (shm w) l st' [] w' /\ r = num_written st'
      | Elog e => e = "I/O error" /\ write_failed same_page permanent n m0 (shm w) (shm w')
      | _ => False
      end) w.
Proof using Type*.
  intros stats Hck Hnd Hlen Hfit Hready. pose proof (aw_ready _ _ _ _ _ _ _ _ _ _ (proj1 Hck)) as Hbr.
  pose proof (br_size _ _ _ Hbr) as Hn. pose proof (aw_gas _ _ _ _ _ _ _ _ _ _ (proj1 Hck)) as Hgas. unfold pool_sized in Hn.
  destruct (ts_statuses_spec l) as (Hsp & Hfr & _). apply (slice_fresh (Z.of_nat (length l))) in Hfr. fold stats in Hfr.
  assert (mjoin (span <$> stats) = seqZ 0 (Z.of_nat (length l))) as Hspan by (unfold stats; by rewrite slice_spans).
  pose proof (spans_length _ Hfr) as Hsl. rewrite Hspan, length_seqZ in Hsl.
  destruct (build_ts_heap_run junk stats w) as (h & nodes & Hrh & Hq); [done|done|]. rewrite Hspan in Hq.
  eapply wp_step; [run Hrh; reflexivity|].
  apply (sync_loop_run flags m0 mu pins (shm w) l _ (seqZ 0 (Z.of_nat (length l)))); [done|done| |].
  - by apply (sync_start m0 mu pins w (shm w) l h nodes).
  - rewrite length_seqZ. unfold search_gas in Hgas. lia.
Qed.

(** The pages to be written are in so few tablespaces that the heap over them can be
    allocated: the pool has no more than 134,217,723 buffers, or there are not more
    tablespaces than that. *)
Definition few_spaces (flags : Z) (w : World) : Prop :=
  heap_fits n \/ exists tss, heap_fits (Z.of_nat (length tss)) /\
    forall x d, desc_at w x d -> ckpt_needs flags (state d) = true -> spcOid (tag d) <> InvalidOid /\ spcOid (tag d) ∈ tss.

Lemma few_spaces_fit flags w l :
  few_spaces flags w -> items_for flags 0 (shm w) l -> Z.of_nat (length l) <= n -> heap_fits (Z.of_nat (length (ts_statuses (sort_array ckpt_buforder_comparator l)))).
Proof using Type.
  intros Hfew [I1 _] Hlen. set (l' := sort_array _ l).
  assert (length l' = length l) as El by (unfold l'; by rewrite (sort_array_perm ckpt_buforder_comparator l)).
  destruct Hfew as [Hfit|(tss & Hfit & Hin)].
  { destruct (ts_statuses_spec l') as (Hsp & Hfr & _). apply spans_length in Hfr. rewrite Hsp, length_seqZ in Hfr.
    unfold heap_fits, sizeof_bh_node_type in *. lia. }
  assert (length (ts_statuses l') <= length tss)%nat as Hle; [|unfold heap_fits, sizeof_bh_node_type in *; lia].
  apply ts_statuses_few.
  - clear El. unfold l'. clear l'. induction (sort_array_sorted ckpt_buforder_comparator l) as [|x xs _ IH Hx]; [constructor|constructor; [done|]].
    eapply Forall_impl; [exact Hx|]. intros y. destruct x, y. unfold ckpt_buforder_comparator. cbn. case_ltb; lia.
  - apply Forall_forall. intros it. unfold l'. rewrite (sort_array_perm ckpt_buforder_comparator l), I1.
    intros (x & d & _ & Hd & Hn & ->). by apply (Hin x d).
Qed.

Lemma BufferSync_run junk checkpoint_flush_after flags m0 mu pins w :
  at_ckpt m0 mu pins w -> idle_needed flags mu w -> few_spaces flags w -> checkpoint_flush_after <= WRITEBACK_MAX_PENDING_FLUSHES ->
  wp (BufferSync CheckpointWriteDelay junk checkpoint_flush_after flags) (ckpt_post m0 mu pins w (ckpt_written flags w)) w.
Proof using Type*.
  intros [Hw Hwb] Hidle Hfew Hfl. pose proof (br_size _ _ _ (aw_ready _ _ _ _ _ _ _ _ _ _ Hw)) as Hn. unfold pool_sized in Hn.
  set (m1 := with_wb_context _ m0) in Hw.
  destruct (mark_buffers_run flags m1 mu pins (Z.to_nat n) 0 [] w Hw) as (w1 & l & Hr1 & Hw1 & Hse1 & Hm1 & Hit1 & Hme1); [lia|lia|].
  pose proof (aw_pool _ _ _ _ _ _ _ _ _ _ Hw) as Hp. pose proof (items_perm flags (shm w) l Hp Hit1) as Hids.
  assert (at_ckpt m0 mu pins w1) as Hck1 by (split; rewrite Hme1; done).
  unfold BufferSync. eapply wp_step; [rewrite (bind_ret _ _ w n w) by (unfold get_me, gets; by rewrite (aw_n _ _ _ _ _ _ _ _ _ _ Hw)); run Hr1; reflexivity|].
  cbn [app]. cbv zeta. destruct (Z.eqb_spec (Z.of_nat (length l)) 0) as [E|E].
  { apply wp_ret. split; [done|]. split; [done|]. destruct l; [|done]. apply nothing_needed; try done. by eapply aw_pool. }
  set (c0 := mkWritebackContext checkpoint_flush_after []). set (w2 := upd_me (with_wb_context c0) w1).
  assert (at_ckpt m0 mu pins w2) as Hck2 by (apply at_ckpt_set; [done|split; [done|reflexivity]]).
  set (l' := sort_array ckpt_buforder_comparator l). pose proof (sort_array_perm ckpt_buforder_comparator l) as Hperm. fold l' in Hperm.
  assert (length l' = length l) as Hll' by (by rewrite Hperm).
  destruct (ts_statuses_spec l') as (_ & _ & Hne). rewrite <- Hll'.
  assert (WritebackContextInit ProcessContext checkpoint_flush_after w1 = (Ret tt, w2)) as Hinit.
  { unfold WritebackContextInit. rewrite c_assert_ok by (apply Z.leb_le; done). reflexivity. }
  eapply wp_step; [run Hinit; run (sort_checkpoint_run l w2); fold l'; rewrite c_assert_ok; [reflexivity|]|].
  { destruct (ts_statuses l'); [|done]. destruct Hne; [|done]. intros El. rewrite El in Hll'. cbn in Hll'. lia. }
  cbv zeta. eapply wp_step; [symmetry; apply bind_assoc|]. apply wp_bind.
  eapply wp_mono; [|apply (sync_items_run junk flags m0 mu pins w2 l' Hck2)].
  - intros [r|e|e|] w3; cbn [bind_post ckpt_post]; try done.
    2: { intros (-> & Hfault & Hp3 & Hse3). split; [done|]. split; [done|]. split; [done|by etrans]. }
    intros (st' & Hsy & ->).
    destruct (Issue_hint smgrwriteback eq ProcessContext w3 sl_hint) as (s & fs & Hissue & [= <- <-]).
    eapply wp_eq; [run Hissue; reflexivity|]. cbn [ckpt_post].
    assert (pool (shm w3)) as Hp3 by (eapply aw_pool, (proj1 (sy_work _ _ _ _ _ _ _ _ Hsy))).
    pose proof (finished_clean flags m0 mu pins w (shm w2) l l' st' w3 Hm1 Hit1 Hperm Hp Hsy) as Hclean.
    assert (seen (shm w) (shm w3)) as Hse by (etrans; [exact Hse1|exact (sy_seen _ _ _ _ _ _ _ _ Hsy)]).
    split; [|split; [exact Hse|split]].
    + apply (at_ckpt_set m0 mu pins w3); [apply Hsy|]. split; [apply Hsy|reflexivity].
    + exact Hclean.
    + intros x d. by apply (written_on_disk flags w w3).
    + rewrite <- Hids, length_fmap, <- Hll'. pose proof (sy_count _ _ _ _ _ _ _ _ Hsy) as Hc. cbn in Hc. lia.
  - rewrite Hperm. apply Hit1.
  - rewrite Hll', <- (length_fmap ckpt_buf_id), Hids. etrans; [apply length_filter|]. by rewrite length_seqZ.
  - rewrite length_fmap. apply (few_spaces_fit flags w); try done.
    rewrite <- (length_fmap ckpt_buf_id), Hids. pose proof (length_filter (fun x => needs_at flags (shm w) x = true) (seqZ 0 n)) as Hle.
    rewrite length_seqZ in Hle. lia.
  - intros it. rewrite Hperm. by apply (items_ready_run flags m1 mu pins w w1 l).
Qed.
End checkpoint.

(** C17. A checkpoint of the buffer pool, without interference, when the buffers that
    have to be written are not pinned by the checkpointer and idle (other backends
    may have them pinned), and the heap over their tablespaces can be allocated
    ([few_spaces]: the pool has at most 134,217,723 buffers, or the pages at most so
    many tablespaces, none of them 0). Whatever the flags, the order the comparator leaves open,
    the tablespaces the pages are in and the progress the floating-point numbers
    show: it returns the number of buffers that were dirty (and, unless the flags ask
    for all, permanent) when it began; these are clean and their pages are on disk,
    every other buffer is as dirty as it was, no page changed, and the pool, the
    checkpointer's pins and its list of pending write-backs are in order; the only
    error is that of a failed write, which leaves every page readable. *)
Theorem BufferSync_checkpoint same_page `{!Equivalence same_page} `{!Server} `{!ServerLaws same_page} permanent n p strategy others
    CheckpointWriteDelay junk checkpoint_flush_after flags m0 mu pins w :
  (forall flags progress w, CheckpointWriteDelay flags progress w = (Ret tt, w)) ->
  at_ckpt same_page permanent n p strategy others m0 mu pins w -> idle_needed flags mu w -> few_spaces n flags w ->
  checkpoint_flush_after <= WRITEBACK_MAX_PENDING_FLUSHES ->
  wp (CheckPointBuffers CheckpointWriteDelay junk checkpoint_flush_after flags)
    (ckpt_post same_page permanent n p strategy others m0 mu pins w (ckpt_written same_page n flags w)) w.
Proof. intros. by apply BufferSync_run. Qed.

(** Two dirty pages, one of which is in the pool only; no delay. *)
Lemma BufferSync_checkpoint_witness :
  exists w', CheckPointBuffers (fun _ _ => ret tt) (fun _ => 0) 32 CHECKPOINT_IS_SHUTDOWN (cache_world []) = (Ret 2, w') /\
    ckpt_written eq 3 CHECKPOINT_IS_SHUTDOWN (cache_world []) 2 w' /\ disk_page (shm w') (sample_tag 2) = Some 22.
Proof.
  pose proof (BufferSync_checkpoint eq (fun _ => true) 3 SieveVtable None (fun _ => 0) (fun _ _ => ret tt) (fun _ => 0) 32
    CHECKPOINT_IS_SHUTDOWN (me (cache_world [])) ∅ [] (cache_world [])) as H.
  assert ((CheckPointBuffers (fun _ _ => ret tt) (fun _ => 0) 32 CHECKPOINT_IS_SHUTDOWN (cache_world [])).1 = Ret 2 /\
    disk_page (shm (CheckPointBuffers (fun _ _ => ret tt) (fun _ => 0) 32 CHECKPOINT_IS_SHUTDOWN (cache_world [])).2) (sample_tag 2) = Some 22)
    as [Hrun Hdisk] by (vm_compute; split; reflexivity).
  destruct (CheckPointBuffers _ _ _ _ _) as [o w'] eqn:E. cbn in Hrun, Hdisk. subst o.
  exists w'. split; [reflexivity|]. split; [|exact Hdisk].
  assert (at_ckpt eq (fun _ => true) 3 SieveVtable None (fun _ => 0) (me (cache_world [])) ∅ [] (cache_world [])) as Hck
    by (split; [apply (at_idle _ _ _ _ _ _ (cache_at_rest []))|split; [vm_compute; discriminate|reflexivity]]).
  assert (idle_needed CHECKPOINT_IS_SHUTDOWN ∅ (cache_world [])) as Hidle
    by (intros x d Hd _; exact (cache_idle (fun _ => true) [] x d Hd eq_refl)).
  assert (few_spaces 3 CHECKPOINT_IS_SHUTDOWN (cache_world [])) as Hfew by (left; vm_compute; discriminate).
  exact (proj2 (proj2 (wp_use _ _ _ _ _ (H ltac:(reflexivity) Hck Hidle Hfew ltac:(vm_compute; discriminate)) E))).
Defined.
