(* ===== verification/ExtendRun.v ===== *)
(** * Extending a relation without interference

    [ExtendBufferedRelShared], for every policy, strategy and number of blocks:
    the file grows by zero pages, each new block is in a pinned, valid buffer, and
    no other block reads differently. *)
From S2P Require Import Prelude BufState BufTag Shmem Concurrency PrivateRefCount Ring Policy BufTable Strategy.
From S2P Require Import LocalBuf ContentLock LockWord LockProtocol LockRun Pin PinRun Reserved BufIO IORun.
From S2P Require Import Writeback Eviction Extend PolicyQuiet Pool FlushRun EvictRun VictimRun AllocRun SharedCache.

(** ** Pages that nobody sees *)
Definition reblock (v page : Z) (s : Shared) : Shared := with_BufferBlocks (insertZ v page (BufferBlocks s)) s.

Section blocks.
Context (same_page : relation Z) (PageGetLSN : Z -> Z) (permanent : BufferTag -> bool) (n : Z).
Local Abbreviation pool := (pool_ok same_page PageGetLSN permanent n).

(** The buffer is not valid: what its page is does not matter. *)
Lemma reblock_ok v d page s :
  pool s -> desc_of s v d -> flag (state d) BM_VALID = false ->
  pool (reblock v page s) /\ forall t, page_seen (reblock v page s) t = page_seen s t.
Proof.
  intros [P1 P2 P3 P4 P5 P6] Hd Hv. split.
  - split; [done|cbn; by rewrite length_insertZ| |done|done|done]. intros i x Hx. destruct (P3 i x Hx). split; try done.
    intros Hxv. destruct (do_valid Hxv) as (Ht & a & f & Ha & Hf & Hc). split; [done|]. exists a, f. cbn.
    rewrite lookupZ_insertZ_ne; [done|]. intros ->. unfold desc_of in *. cbn in Hx. congruence.
  - intros t. unfold page_seen. change (disk_page (reblock v page s) t) with (disk_page s t). unfold cached. cbn.
    destruct (SharedBufHash s !! t) as [i|]; [|done]. destruct (lookupZ (BufferDescriptors s) i) as [x|] eqn:Hx; [|done].
    destruct (flag (state x) BM_VALID) eqn:Hxv; [|done]. rewrite lookupZ_insertZ_ne; [done|]. intros ->.
    unfold desc_of in Hd. congruence.
Qed.

(** The page of the block has arrived. *)
Record filled (d d' : BufferDesc) : Prop := {
  fd_tag : tag d' = tag d;
  fd_id : buf_id d' = buf_id d;
  fd_wf : wf_state (state d');
  fd_locked : flag (state d') BM_LOCKED = false;
  fd_dirty : flag (state d') BM_DIRTY = false;
  fd_valid : flag (state d') BM_VALID = true;
  fd_tagged : flag (state d') BM_TAG_VALID = true;
  fd_perm : flag (state d') BM_PERMANENT = flag (state d) BM_PERMANENT;
  fd_pinned : 0 < refcount (state d')
}.

Lemma filled_ok v d d' a f s `{!Equivalence same_page} :
  pool s -> desc_of s v d -> flag (state d) BM_TAG_VALID = true -> flag (state d) BM_VALID = false ->
  filled d d' -> lookupZ (BufferBlocks s) v = Some a -> disk_page s (tag d) = Some f -> same_page a f ->
  pool (redesc v d' s) /\ same_pages same_page s (redesc v d' s).
Proof.
  intros Hp Hd Ht Hv [F1 F2 F3 F4 F5 F6 F7 F8 F9] Ha Hf Hs. pose proof (pl_desc _ _ _ _ _ Hp v d Hd) as Hok.
  assert (forall i x, desc_of (redesc v d' s) i x <-> (i = v /\ x = d') \/ (i <> v /\ desc_of s i x)) as Hdesc
    by (intros i x; by apply (desc_of_redesc v d' s i x d)).
  split.
  - split; [cbn; rewrite length_insertZ; apply Hp|apply Hp| | |apply (pl_wal _ _ _ _ _ Hp)|apply (pl_zero _ _ _ _ _ Hp)].
    + intros i x [[-> ->]|[Hne Hx]]%Hdesc; [|by destruct (pl_desc _ _ _ _ _ Hp i x Hx); split].
      split; try done; [rewrite F2; apply Hok| | |congruence|congruence|lia].
      * intros _. split; [done|]. exists a, f. change (disk_page (redesc v d' s) (tag d')) with (disk_page s (tag d')).
        by rewrite F1.
      * intros _. rewrite F8, F1. by apply Hok.
    + intros t i. change (SharedBufHash (redesc v d' s)) with (SharedBufHash s). rewrite (pl_hash _ _ _ _ _ Hp).
      setoid_rewrite Hdesc. split; intros (x & Hx & Hxt & Hxe).
      * destruct (decide (i = v)) as [->|Hne]; [|by eauto 10]. exists d'. unfold desc_of in *. simplify_eq.
        split_and!; [by left|done|done].
      * destruct Hx as [[-> ->]|[Hne Hx]]; [|by eauto]. exists d. by rewrite <- F1.
  - intros t. unfold page_seen. change (disk_page (redesc v d' s) t) with (disk_page s t). unfold cached. cbn.
    destruct (SharedBufHash s !! t) as [i|] eqn:Hh; [|by apply reflexivity].
    destruct (decide (i = v)) as [->|Hne]; [|by rewrite lookupZ_insertZ_ne].
    rewrite lookupZ_insertZ_eq, F6 by (by eapply lookupZ_Some). unfold desc_of in Hd. rewrite Hd, Hv, Ha.
    apply (pl_hash _ _ _ _ _ Hp) in Hh as (x & Hx & _ & <-). unfold desc_of in Hx. simplify_eq. rewrite Hf. by constructor.
Qed.

(** A block can be read exactly if it is in its file. *)
Lemma seen_in_file s t : pool s -> is_Some (page_seen s t) <-> is_Some (disk_page s t).
Proof.
  intros Hp. unfold page_seen. destruct (cached s t) as [x|] eqn:Hc; [|done]. unfold cached in Hc.
  destruct (SharedBufHash s !! t) as [i|] eqn:Hh; [|done]. apply (pl_hash _ _ _ _ _ Hp) in Hh as (d & Hd & _ & <-).
  unfold desc_of in Hd. rewrite Hd in Hc. destruct (flag (state d) BM_VALID) eqn:Hv; [|done].
  destruct (do_valid _ _ _ _ _ (pl_desc _ _ _ _ _ Hp i d Hd) Hv) as (_ & _ & f & _ & -> & _). by split; intros; eexists.
Qed.
End blocks.

(** The files have the same lengths if the same blocks can be read. *)
Definition file (s : Shared) (reln : RelFileLocator) (fork : Z) : list Z := default [] (smgr_disk s !! (reln, fork)).
Definition block_tag (reln : RelFileLocator) (fork blk : Z) : BufferTag :=
  InitBufferTag (mkBufferTag 0 0 0 0 0) reln fork blk.

Lemma disk_file s reln fork blk : disk_page s (block_tag reln fork blk) = lookupZ (file s reln fork) blk.
Proof. unfold disk_page, file. by destruct reln. Qed.
Lemma block_tag_inj reln fork b b' : block_tag reln fork b = block_tag reln fork b' -> b = b'.
Proof. by intros [= ->]. Qed.

Lemma lookupZ_same_length {A} (l l' : list A) :
  (forall i, is_Some (lookupZ l i) <-> is_Some (lookupZ l' i)) -> length l = length l'.
Proof.
  intros H. assert (forall (l : list A) i, is_Some (lookupZ l i) <-> 0 <= i < Z.of_nat (length l)) as Hl.
  { intros k i. split; [intros [x Hx]; by eapply lookupZ_Some|apply lookupZ_lt]. }
  setoid_rewrite Hl in H. pose proof (H (Z.of_nat (length l))). pose proof (H (Z.of_nat (length l'))). lia.
Qed.

Lemma seen_length same_page PageGetLSN permanent n s s' reln fork :
  pool_ok same_page PageGetLSN permanent n s -> pool_ok same_page PageGetLSN permanent n s' -> same_pages same_page s s' ->
  length (file s' reln fork) = length (file s reln fork).
Proof.
  intros Hp Hp' Hse. apply lookupZ_same_length. intros i. rewrite <- !disk_file.
  rewrite <- (seen_in_file _ _ _ _ _ _ Hp), <- (seen_in_file _ _ _ _ _ _ Hp').
  destruct (Hse (block_tag reln fork i)); split; intros []; (done || by eexists).
Qed.

(** ** The file grows *)
Definition grown (reln : RelFileLocator) (fork : Z) (k : nat) (s : Shared) : Shared :=
  with_smgr_disk (<[(reln, fork) := file s reln fork ++ replicate k 0]> (smgr_disk s)) s.
Definition new_block (reln : RelFileLocator) (fork first : Z) (k : nat) (t : BufferTag) : bool :=
  bool_decide ((BufTagGetRelFileLocator t, BufTagGetForkNum t) = (reln, fork)) &&
  (first <=? blockNum t) && (blockNum t <? first + Z.of_nat k).

Lemma new_block_spec reln fork first k t :
  new_block reln fork first k t = true <-> exists blk, t = block_tag reln fork blk /\ first <= blk < first + Z.of_nat k.
Proof.
  unfold new_block. rewrite !andb_true_iff, bool_decide_eq_true, Z.leb_le, Z.ltb_lt. split.
  - intros [[E H1] H2]. exists (blockNum t). split; [by destruct t; injection E as <- <-|lia].
  - intros (blk & -> & Hb). cbn. split; [|lia]. split; [by destruct reln|lia].
Qed.

Lemma zero_pages_end k l : zero_pages (length l) k l = l ++ replicate k 0.
Proof. unfold zero_pages. rewrite resize_all_alt by done. rewrite drop_ge by lia. by rewrite app_nil_r. Qed.

Lemma lookupZ_app {A} (l l' : list A) i :
  lookupZ (l ++ l') i = if i <? Z.of_nat (length l) then lookupZ l i else lookupZ l' (i - Z.of_nat (length l)).
Proof.
  unfold lookupZ. destruct (Z.ltb_spec i (Z.of_nat (length l))), (Z.leb_spec 0 i), (Z.leb_spec 0 (i - Z.of_nat (length l))); try done; try lia.
  - by rewrite lookup_app_l by lia.
  - rewrite lookup_app_r by lia. f_equal. lia.
Qed.

Lemma grown_file reln fork k s : file (grown reln fork k s) reln fork = file s reln fork ++ replicate k 0.
Proof. unfold file at 1. cbn. unfold Files in *. by rewrite lookup_insert_eq. Qed.

Section grown.
Context (same_page : relation Z) (PageGetLSN : Z -> Z) (permanent : BufferTag -> bool) (n : Z).
Context (reln : RelFileLocator) (fork : Z) (k : nat) (s : Shared).
Local Abbreviation s' := (grown reln fork k s).
Local Abbreviation new := (new_block reln fork (Z.of_nat (length (file s reln fork))) k).

Lemma grown_new t : new t = true -> disk_page s' t = Some 0 /\ disk_page s t = None.
Proof.
  intros (blk & -> & Hb)%new_block_spec. rewrite !disk_file, grown_file, lookupZ_app, (proj2 (Z.ltb_ge _ _)) by lia.
  unfold lookupZ. rewrite !(proj2 (Z.leb_le _ _)) by lia. split; [apply lookup_replicate_2|apply lookup_ge_None_2]; lia.
Qed.
Lemma grown_old t : new t = false -> disk_page s' t = disk_page s t.
Proof.
  intros Hn. destruct (decide ((BufTagGetRelFileLocator t, BufTagGetForkNum t) = (reln, fork))) as [E|E].
  2: { unfold disk_page. cbn. unfold Files in *. by rewrite lookup_insert_ne. }
  assert (t = block_tag reln fork (blockNum t)) as Et by (destruct t; by injection E as <- <-). rewrite Et.
  rewrite !disk_file, grown_file, lookupZ_app. destruct (Z.ltb_spec (blockNum t) (Z.of_nat (length (file s reln fork)))); [done|].
  unfold lookupZ. rewrite !(proj2 (Z.leb_le _ _)) by lia. rewrite (lookup_ge_None_2 (file s reln fork)) by lia.
  apply lookup_ge_None_2. rewrite length_replicate. unfold new_block in Hn. rewrite bool_decide_true in Hn by done.
  destruct (Z.leb_spec (Z.of_nat (length (file s reln fork))) (blockNum t)); [|lia]. apply Z.ltb_ge in Hn. lia.
Qed.

Lemma grown_ok :
  pool_ok same_page PageGetLSN permanent n s ->
  pool_ok same_page PageGetLSN permanent n s' /\ forall t, page_seen s' t = if new t then Some 0 else page_seen s t.
Proof.
  intros Hp. split.
  - pose proof Hp as [P1 P2 P3 P4 P5 P6]. split; [done|done| |done| |done].
    + intros i d Hd. destruct (P3 i d Hd). split; try done. intros Hv. destruct (do_valid Hv) as (Ht & a & f & Ha & Hf & Hc).
      split; [done|]. exists a, f. rewrite grown_old; [done|]. destruct (new (tag d)) eqn:E; [|done].
      apply grown_new in E as [_ E]. congruence.
    + intros t v Ht Hv. change (wal_flushed s') with (wal_flushed s). destruct (new t) eqn:E.
      * apply grown_new in E as [E _]. rewrite E in Hv. by injection Hv as <-.
      * rewrite grown_old in Hv by done. by eapply P5.
  - intros t. destruct (new t) eqn:E.
    + destruct (grown_new t E) as [E1 E2]. pose proof (seen_in_file same_page PageGetLSN permanent n s t Hp) as Hs.
      unfold page_seen in *. change (cached s' t) with (cached s t). destruct (cached s t) as [x|]; [|done].
      rewrite E2 in Hs. destruct Hs as [Hs _]. by destruct Hs as [? [=]].
    + unfold page_seen. change (cached s' t) with (cached s t). by rewrite grown_old.
Qed.
End grown.

(** ** Several pins *)
Definition pin_all (bs : list Z) (mu : gmap Z PrivateRefCountData) : gmap Z PrivateRefCountData :=
  foldr (fun b => <[b := one_pin]>) mu bs.

Lemma lookup_pin_all bs mu c : pin_all bs mu !! c = if decide (c ∈ bs) then Some one_pin else mu !! c.
Proof.
  induction bs as [|b bs IH]; [by rewrite decide_False by apply not_elem_of_nil|].
  change (pin_all (b :: bs) mu) with (<[b := one_pin]> (pin_all bs mu)).
  destruct (decide (c = b)) as [->|Hne].
  - by rewrite lookup_insert_eq, decide_True by constructor.
  - rewrite lookup_insert_ne by done. rewrite IH. destruct (decide (c ∈ bs)), (decide (c ∈ b :: bs)); set_solver.
Qed.
Lemma pin_all_delete l1 b l2 mu :
  NoDup (l1 ++ b :: l2) -> mu !! b = None -> delete b (pin_all (l1 ++ b :: l2) mu) = pin_all (l1 ++ l2) mu.
Proof.
  intros Hnd Hb. apply map_eq. intros c. rewrite lookup_pin_all. destruct (decide (c = b)) as [->|Hne].
  - rewrite lookup_delete_eq, decide_False; [done|]. apply NoDup_app in Hnd as (_ & Hx & [Hy _]%NoDup_cons). set_solver.
  - rewrite lookup_delete_ne by done. rewrite lookup_pin_all.
    destruct (decide (c ∈ l1 ++ b :: l2)), (decide (c ∈ l1 ++ l2)); set_solver.
Qed.
Lemma remove_one_mid l1 b l2 : b ∉ l1 -> remove_one b (l1 ++ b :: l2) = Some (l1 ++ l2).
Proof.
  induction l1 as [|x l1 IH]; intros Hb; cbn; [by rewrite Z.eqb_refl|].
  rewrite (proj2 (Z.eqb_neq x b)) by set_solver. rewrite IH by set_solver. done.
Qed.

(** Some of them with the content locked. *)
Definition lock_mode (l : bool) : BufferLockMode := if l then BUFFER_LOCK_EXCLUSIVE else BUFFER_LOCK_UNLOCK.
Definition lock_pin (b : Z) (l : bool) (mu : gmap Z PrivateRefCountData) : gmap Z PrivateRefCountData :=
  if l then <[b := mkRefData 1 BUFFER_LOCK_EXCLUSIVE]> mu else mu.
Definition hold_lock (l : bool) (m : Backend) : Backend := if l then holdoff 1 m else m.
Definition lock_pins (bs : list Z) (locks : list bool) (mu : gmap Z PrivateRefCountData) : gmap Z PrivateRefCountData :=
  foldl (fun mu '(b, l) => lock_pin b l mu) mu (zip bs locks).
Definition hold_locks (locks : list bool) (m : Backend) : Backend := foldl (fun m l => hold_lock l m) m locks.

Lemma hold_locks_ios locks m : with_owned_ios (owned_ios m) (hold_locks locks m) = hold_locks locks m.
Proof.
  assert (owned_ios (hold_locks locks m) = owned_ios m) as <-; [|by destruct (hold_locks locks m)].
  unfold hold_locks. revert m. induction locks as [|l locks IH]; intros m; [done|]. cbn. rewrite IH. by destruct l.
Qed.
Lemma lock_pins_snoc bs locks b l mu : length bs = length locks ->
  lock_pins (bs ++ [b]) (locks ++ [l]) mu = lock_pin b l (lock_pins bs locks mu).
Proof. intros E. unfold lock_pins. by rewrite zip_with_app, foldl_app by done. Qed.
Lemma lookup_lock_pins bs locks mu c : c ∉ bs -> lock_pins bs locks mu !! c = mu !! c.
Proof.
  unfold lock_pins. revert locks mu. induction bs as [|b bs IH]; intros [|l locks] mu Hc; try done. cbn. rewrite IH by set_solver.
  unfold lock_pin. destruct l; [|done]. rewrite lookup_insert_ne; [done|]. set_solver.
Qed.

Section extend.
Context (same_page : relation Z) `{!Equivalence same_page} `{!Server} `{!ServerLaws same_page}.
Context (permanent : BufferTag -> bool).
Context (n : Z) (p : EvictionVtablePtr) (strategy : BufferAccessStrategy).
Context (others : Z -> Z).
Local Abbreviation pool := (pool_ok same_page PageGetLSN permanent n).
Local Abbreviation at_work := (at_work same_page permanent n p strategy others).
Local Abbreviation seen := (same_pages same_page).
Local Abbreviation write_failed := (write_failed same_page permanent n).
Local Abbreviation linked := (pq_linked (p := p) n).

(** ** Victims *)

(** Buffer [b] is pinned once, has no block and a page of zeros. *)
Definition spare_at (w : World) (b : Z) : Prop :=
  exists d, desc_at w (b - 1) d /\ blank (b - 1) d /\ refcount (state d) = 1 /\ lookupZ (BufferBlocks (shm w)) (b - 1) = Some 0.

(** The victims so far, the last one first. *)
Record spares (m0 : Backend) (mu : gmap Z PrivateRefCountData) (pins : list Z) (bs : list Z) (w : World) : Prop := {
  sp_work : at_work m0 (pin_all bs mu) (bs ++ pins) w;
  sp_spare : Forall (spare_at w) bs;
  sp_new : Forall (fun b => mu !! b = None) bs;
  sp_once : NoDup bs
}.

(** Enough buffers that nobody has pinned and the policy knows of. *)
Definition candidates (k : nat) (w : World) : Prop :=
  exists xs, NoDup xs /\ length xs = k /\ Forall (fun x => 0 <= x < n /\ unpinned w x = true /\ linked (mem w) x) xs.

(** Enough rounds to give up every buffer of a ring. *)
Definition ring_gas (m : Backend) : Prop := match strategy with Some _ => 2 ^ 31 <= Z.of_nat (gas m) | None => True end.

Lemma live_below_gas m0 mu pins w : at_work m0 mu pins w -> ring_gas m0 -> (live_slots strategy (me w) < gas m0)%nat.
Proof using Type.
  intros Hw Hg. pose proof (aw_ring _ _ _ _ _ _ _ _ _ _ Hw) as Hring.
  pose proof (aw_gas _ _ _ _ _ _ _ _ _ _ Hw) as Hgas. rewrite (kp_gas _ _ (aw_keeps _ _ _ _ _ _ _ _ _ _ Hw)) in Hgas.
  unfold live_slots, ring_gas in *. destruct strategy as [h|]; [|lia]. destruct Hring as (r & -> & [R1 R2 _ _]).
  pose proof (length_filter (fun b => b <> InvalidBuffer) (buffers r)). lia.
Qed.

(** The pages and tables as a reader sees them. *)
Definition cache_kept (s s' : Shared) : Prop := seen s s' /\ SharedBufHash s' ⊆ SharedBufHash s.
#[local] Instance cache_kept_preorder : PreOrder cache_kept.
Proof using Equivalence0. split; [by split|]. intros s1 s2 s3 [A1 A2] [B1 B2]. split; by etrans. Qed.

Lemma at_work_reblock m0 mu pins w v d page :
  at_work m0 mu pins w -> desc_at w v d -> flag (state d) BM_VALID = false ->
  at_work m0 mu pins (upd_shm (reblock v page) w) /\ seen (shm w) (reblock v page (shm w)).
Proof using Equivalence0.
  intros Hw Hd Hv. destruct (reblock_ok same_page PageGetLSN permanent n v d page (shm w)) as [Hp Hse]; [by eapply aw_pool|done|done|].
  split; [|intros t; by rewrite Hse]. pose proof Hw as [A1 A2 A3 A4 A5 A6 A7 A8 A9 A10].
  apply (aw_change _ _ _ _ _ _ m0 m0 mu mu pins w (reblock v page (shm w)) (me w)); try done.
  intros i x Hx. by exists x.
Qed.

Lemma candidates_less k v e w w' mu mu' m0 m1 pins pins' :
  at_work m0 mu pins w -> at_work m1 mu' pins' w' -> mu' = <[v + 1 := e]> mu -> still_linked n p v w w' ->
  candidates (S k) w -> candidates k w'.
Proof using Type*.
  intros Hw Hw' -> Hli (xs & Hnd & Hlen & Hall).
  assert (exists ys, NoDup ys /\ length ys = k /\ forall y, y ∈ ys -> y ∈ xs /\ y <> v) as (ys & Hnd' & Hlen' & Hys).
  { destruct (decide (v ∈ xs)) as [Hin|Hin].
    - apply list_elem_of_split in Hin as (l1 & l2 & ->). exists (l1 ++ l2). rewrite length_app in *. cbn in Hlen.
      apply NoDup_app in Hnd as (N1 & N2 & [N3 N4]%NoDup_cons). split; [apply NoDup_app; set_solver|]. split; [lia|].
      intros y Hy. split; [set_solver|]. intros ->. set_solver.
    - destruct xs as [|x xs]; [done|]. exists xs. apply NoDup_cons in Hnd as [N1 N2]. split; [done|]. split; [by injection Hlen|].
      intros y Hy. split; [by constructor|]. intros ->. set_solver. }
  exists ys. split; [done|]. split; [done|]. apply Forall_forall. intros y Hy. destruct (Hys y Hy) as [Hyx Hne].
  rewrite Forall_forall in Hall. destruct (Hall y Hyx) as (Hr & Hun & Hl). split; [done|]. split; [|by apply Hli].
  rewrite (unpinned_count _ _ _ _ _ _ _ _ _ _ _ Hw' Hr), (held_other mu v y e Hne).
  by rewrite <- (unpinned_count _ _ _ _ _ _ _ _ _ _ _ Hw Hr).
Qed.

Lemma spare_kept mu w w' b :
  mine_kept mu (shm w) (shm w') -> mu !! b <> None -> spare_at w b -> spare_at w' b.
Proof using Type.
  intros [Hb Hmi] Hmu (d & Hd & Hbl & Hr & Hpage).
  destruct (Hmi (b - 1) d) as (d' & Hd' & Hf & Hr'); [by replace (b - 1 + 1) with b by lia|done|].
  exists d'. split; [done|]. split; [|split; [lia|by rewrite Hb]]. pose proof (same_flags_alike _ _ Hf) as [].
  destruct Hbl. split; try congruence; [|by eapply same_flags_idle].
  destruct (flag (state d') BM_JUST_DIRTIED); [|done]. rewrite <- bl_just. symmetry. by apply al_just.
Qed.

Definition victim_step (m0 : Backend) (mu : gmap Z PrivateRefCountData) (pins : list Z) (bs : list Z) (k : nat) (w : World)
    (o : outcome Z) (w' : World) : Prop :=
  match o with
  | Ret b => spares m0 mu pins (b :: bs) w' /\ candidates k w' /\ cache_kept (shm w) (shm w')
  | Elog _ => write_failed m0 (shm w) (shm w')
  | _ => False
  end.

Lemma one_victim_run m0 mu pins bs k w :
  spares m0 mu pins bs w -> held_lwlocks m0 = [] -> ring_gas m0 -> candidates (S k) w ->
  wp (let* b := GetVictimBuffer strategy in zero_block (GetBufferDescriptor (b - 1)) ;; ret b) (victim_step m0 mu pins bs k w) w.
Proof using Type*.
  intros [Hw Hsp Hnew Hnd] Hl Hg Hc. apply wp_bind. eapply wp_mono; [|eapply (GetVictim_run same_page permanent n p strategy others m0 (pin_all bs mu) (bs ++ pins) w Hw Hl)].
  - intros [b|e|e|] w1; cbn; try done. intros (v & -> & [(d & [Hw1 Hmu Hd Hr Hi] & Hbl) Hv Hse Hha Hli Hmi]).
    pose proof (aw_range _ _ _ _ _ _ _ _ _ _ _ _ Hw1 Hd) as Hvr. unfold GetBufferDescriptor. replace (v + 1 - 1) with v by lia.
    destruct (at_work_reblock _ _ _ w1 v d 0 Hw1 Hd (bl_valid _ _ Hbl)) as [Hw2 Hse2]. set (w2 := upd_shm (reblock v 0) w1) in *.
    destruct (lookupZ_lt (BufferBlocks (shm w1)) v) as [page Hpage].
    { by rewrite (pl_blocks _ _ _ _ _ (aw_pool _ _ _ _ _ _ _ _ _ _ Hw1)). }
    eapply wp_eq.
    { assert (zero_block v w1 = (Ret tt, w2)) as Hz; [|run Hz; reflexivity].
      unfold zero_block. by run (BufHdrGetBlock_run w1 v page Hpage). }
    rewrite lookup_pin_all in Hv. destruct (decide (v + 1 ∈ bs)) as [|Hvb]; [done|].
    split; [split|split].
    + exact Hw2.
    + constructor.
      * exists d. replace (v + 1 - 1) with v by lia. split; [done|]. split; [done|]. split; [done|].
        eapply lookupZ_insertZ_eq, lookupZ_Some, Hpage.
      * rewrite Forall_forall in Hsp |- *. intros b Hb. destruct (spare_kept (pin_all bs mu) w w1 b Hmi) as (d' & Hd' & Hbl' & Hr' & Hp'); [|by apply Hsp|].
        { by rewrite lookup_pin_all, decide_True. }
        exists d'. split; [done|]. split; [done|]. split; [done|]. cbn. rewrite lookupZ_insertZ_ne; [done|]. intros E.
        apply Hvb. by replace (v + 1) with b by lia.
    + by constructor.
    + by constructor.
    + eapply (candidates_less k v one_pin w w2 (pin_all bs mu) _ m0 m0); [exact Hw|exact Hw2|reflexivity|exact Hli|exact Hc].
    + split; [by etrans|done].
  - destruct Hc as (xs & _ & Hlen & Hall). destruct xs as [|x xs]; [done|]. apply Forall_cons in Hall as [(Hx & Hun & Hlk) _].
    by exists x.
  - by eapply live_below_gas.
Qed.

Definition victims_post (m0 : Backend) (mu : gmap Z PrivateRefCountData) (pins : list Z) (bs : list Z) (k : nat) (w : World)
    (o : outcome (list Z)) (w' : World) : Prop :=
  match o with
  | Ret bs' => length bs' = k /\ spares m0 mu pins (rev bs' ++ bs) w' /\ cache_kept (shm w) (shm w')
  | Elog _ => write_failed m0 (shm w) (shm w')
  | _ => False
  end.

Lemma extend_victims_run m0 mu pins k : forall bs w,
  spares m0 mu pins bs w -> held_lwlocks m0 = [] -> ring_gas m0 -> candidates k w ->
  wp (extend_victims strategy k) (victims_post m0 mu pins bs k w) w.
Proof using Type*.
  induction k as [|k IH]; intros bs w Hsp Hl Hg Hc; cbn [extend_victims]; [by apply wp_ret|].
  apply (wp_step _ (bind (let* b := GetVictimBuffer strategy in zero_block (GetBufferDescriptor (b - 1)) ;; ret b)
    (fun b => let* bs := extend_victims strategy k in ret (b :: bs))) _ _ w).
  { rewrite bind_assoc. apply bind_ext. intros b w'. by rewrite bind_assoc. }
  apply wp_bind. eapply wp_mono; [|by apply (one_victim_run m0 mu pins bs k w)].
  intros [b|e|e|] w1; cbn [victim_step bind_post victims_post]; try done. intros (Hsp1 & Hc1 & Hk1). apply wp_bind.
  eapply wp_mono; [|by apply (IH (b :: bs) w1)].
  intros [bs'|e|e|] w2; cbn [victims_post bind_post]; try done.
  - intros (Hlen & Hsp2 & Hk2). apply wp_ret. cbn. rewrite Hlen. split; [done|]. rewrite <- app_assoc. split; [done|by etrans].
  - intros (? & ? & ?). split; [done|]. split; [done|]. etrans; [apply Hk1|done].
Qed.

(** ** Victims that are not needed *)
Lemma release_one_run m0 mu pins l1 b l2 w :
  spares m0 mu pins (l1 ++ b :: l2) w ->
  exists w', give_up_victim (b - 1) w = (Ret tt, w') /\ spares m0 mu pins (l1 ++ l2) w' /\ cache_kept (shm w) (shm w').
Proof using Type*.
  intros [Hw Hsp Hnew Hnd]. assert (b ∈ l1 ++ b :: l2) as Hin by set_solver.
  pose proof (proj1 (Forall_forall _ _) Hsp b Hin) as (d & Hd & Hbl & Hr & _).
  pose proof (proj1 (Forall_forall _ _) Hnew b Hin) as Hmu. cbn beta in Hmu.
  set (v := b - 1) in *. assert (b = v + 1) as Eb by lia. pose proof (aw_range _ _ _ _ _ _ _ _ _ _ _ _ Hw Hd) as Hv.
  destruct (NotifyInsert_run _ _ _ _ _ _ _ _ _ w v Hw Hv) as (m1 & Hrun1 & Hw1 & _).
  pose proof Hnd as (Nd1 & Nd2 & [Nd3 Nd4]%NoDup_cons)%NoDup_app.
  assert (b ∉ l1) as Hb1 by (intros E; apply (Nd2 b E); constructor).
  destruct (Unpin_any_run same_page permanent n p strategy others m0 _ _ ((l1 ++ l2) ++ pins) (with_mem m1 w) v d Hw1) as
    (w' & Hrun & Hw' & Hrc & Hmem & _ & _ & Hds).
  { rewrite <- Eb, <- !app_assoc. by apply remove_one_mid. }
  { by rewrite <- Eb, lookup_pin_all, decide_True. }
  { done. } { lia. } { apply Hbl. }
  rewrite <- Eb, pin_all_delete in Hw' by done. exists w'. split; [unfold give_up_victim; by run Hrun1|].
  assert (mine_kept (pin_all (l1 ++ l2) mu) (shm w) (shm w')) as Hmi.
  { eapply (mine_only same_page permanent n _ v); [by eapply aw_pool| |].
    - rewrite <- Eb, lookup_pin_all, decide_False; [done|]. set_solver.
    - eapply (only_insert v _ (shm (with_mem m1 w))); [apply (rc_blocks _ _ _ Hrc)|exact Hds]. }
  split; [split|].
  - done.
  - rewrite Forall_forall in Hsp |- *. intros c Hc. eapply (spare_kept _ w w'); [exact Hmi| |apply Hsp; set_solver].
    by rewrite lookup_pin_all, decide_True.
  - rewrite Forall_forall in Hnew |- *. intros c Hc. apply Hnew. set_solver.
  - apply NoDup_app. split; [done|]. split; [|done]. intros x Hx Hx'. apply (Nd2 x Hx). by constructor.
  - destruct (alike_cache same_page permanent n (shm (with_mem m1 w)) (shm w')) as [Hse Hha]; [by eapply aw_pool|by eapply recounted_alike; [eapply aw_pool|]|].
    split; [exact Hse|]. by rewrite Hha.
Qed.

Lemma release_victims_run m0 mu pins bs : forall acc w,
  spares m0 mu pins (rev bs ++ acc) w ->
  exists w', release_victims bs w = (Ret tt, w') /\ spares m0 mu pins acc w' /\ cache_kept (shm w) (shm w').
Proof using Type*.
  induction bs as [|b bs IH]; intros acc w Hsp; cbn [release_victims rev] in *; [by exists w|].
  rewrite <- app_assoc in Hsp. destruct (release_one_run m0 mu pins (rev bs) b acc w Hsp) as (w1 & Hrun1 & Hsp1 & Hk1).
  destruct (IH acc w1 Hsp1) as (w2 & Hrun2 & Hsp2 & Hk2). exists w2. unfold GetBufferDescriptor. run Hrun1.
  split; [done|]. split; [done|by etrans].
Qed.

(** ** The storage manager *)
Lemma smgr_call_work m0 mu pins w :
  at_work m0 mu pins w ->
  exists w', shm w' = shm w /\
    ((interfere ;; smgr_call) w = (Elog "I/O error", w') /\ true ∈ smgr_faults m0 \/
     (interfere ;; smgr_call) w = (Ret tt, w') /\ at_work m0 mu pins w').
Proof using Type*.
  intros Hw. pose proof Hw as [A1 A2 A3 A4 A5 A6 A7 A8 A9 A10].
  assert ((interfere ;; smgr_call) w = smgr_call w) as -> by (by run (interfere_quiet w A1)).
  unfold smgr_call, get_me, gets. destruct (smgr_faults (me w)) as [|f fs] eqn:E.
  - exists w. split; [done|]. right. split; [|done]. rewrite (bind_ret _ _ w [] w) by (by rewrite E). done.
  - exists (with_me (with_smgr_faults fs (me w)) w). split; [done|]. rewrite (bind_ret _ _ w (f :: fs) w) by (by rewrite E).
    destruct f; [left|right]; (split; [done|]).
    + destruct A10 as [l ->]. set_solver.
    + split; try done; cbn; [etrans; [exact A3|by split]|by destruct A4|]. etrans; [|exact A10]. by exists [false].
Qed.

Lemma spares_world m0 mu pins bs w w' :
  spares m0 mu pins bs w -> shm w' = shm w -> at_work m0 (pin_all bs mu) (bs ++ pins) w' -> spares m0 mu pins bs w'.
Proof using Type*.
  intros [Hw Hsp Hnew Hnd] Hs Hw'. split; try done. eapply Forall_impl; [exact Hsp|].
  intros b (d & Hd & Hrest). exists d. unfold desc_at in *. by rewrite Hs.
Qed.
(** ** A buffer for a new block *)
Context (PageIsNew : Z -> bool) (reln : RelFileLocator) (fork : Z) (relpersistence : RelPersistence).
Local Abbreviation new_tag := (block_tag reln fork).

(** The persistence of the relation is that of its blocks. *)
Definition persists (blk : Z) : Prop :=
  permanent (new_tag blk) = bool_decide (relpersistence = RELPERSISTENCE_PERMANENT) || (fork =? INIT_FORKNUM).

(** Buffer [b] is that of the block and is being filled by this backend. *)
Record filling (w : World) (blk b : Z) (d : BufferDesc) : Prop := {
  fi_desc : desc_at w (b - 1) d;
  fi_tag : tag d = new_tag blk;
  fi_valid : flag (state d) BM_VALID = false;
  fi_dirty : flag (state d) BM_DIRTY = false;
  fi_tagged : flag (state d) BM_TAG_VALID = true;
  fi_io : flag (state d) BM_IO_IN_PROGRESS = true;
  fi_count : refcount (state d) = 1;
  fi_lock : lock_field (state d) = 0;
  fi_page : lookupZ (BufferBlocks (shm w)) (b - 1) = Some 0
}.

Lemma extend_claim_run w v t d :
  quiet w -> (0 < gas (me w))%nat -> desc_at w v d -> blank v d -> refcount (state d) = 1 ->
  extend_claim v t (permanent t) w = (Ret tt, upd_shm (redesc v (entered_desc t (permanent t) d)) w).
Proof using Type.
  intros Hq Hg Hd [B1 B2 B3 B4 B5 B6 B7 BJ [I1 I2 I3 I4 I5 I6]] Hr. unfold extend_claim.
  run (LockBufHdr_quiet w Hq Hg v d Hd B3).
  set (d1 := with_state (Z.lor (state d) BM_LOCKED) d). set (w1 := set_desc v d1 w).
  assert (desc_at w1 v d1) as Hd1 by (by apply (desc_at_set_eq w _ d)).
  rewrite get_refcount, locked_refcount, Hr by (by apply wf_locked).
  rewrite !flag_mask_or, !locked_flag, B4, B5, B6, BJ by done. rewrite !c_assert_ok by done. run (deref_run w1 v d1 Hd1).
  set (d2 := with_tag t d1). set (w2 := set_desc v d2 w1). rewrite (bind_ret _ _ w1 tt w2) by done.
  assert (desc_at w2 v d2) as Hd2 by (by apply (desc_at_set_eq w1 _ d1)). fold (enter_bits (permanent t)).
  run (UnlockBufHdrExt_quiet w2 Hq Hg v d2 (enter_bits (permanent t)) 0 0 Hd2 (flag_locked _)).
  unfold ret. f_equal. unfold w2, w1, set_desc, upd_shm, redesc. cbn. by rewrite !insertZ_insertZ.
Qed.

(** [StartBufferIO] on the new buffer. *)
Lemma start_fill_run m0 ios mu pins w v t d :
  at_work (with_owned_ios ios m0) mu pins w -> desc_at w v d -> fresh_for permanent v t d -> refcount (state d) = 1 ->
  let d' := with_state (Z.lor (state d) BM_IO_IN_PROGRESS) d in
  exists w', StartBufferIO pgaio_wref_wait v true false w = (Ret true, w') /\
    at_work (with_owned_ios (v + 1 :: ios) m0) mu pins w' /\ desc_at w' v d' /\ seen (shm w) (shm w') /\
    SharedBufHash (shm w') = SharedBufHash (shm w) /\ only_desc v (shm w) (shm w') /\ mem w' = mem w.
Proof using Type*.
  intros Hw Hd [F1 F2 F3 F4 F5 F6 F7 F8 [I1 I2 I3 I4 I5 I6]] Hr d'.
  destruct (StartBufferIO_run pgaio_wref_wait w v d true false) as (w' & Hrun & Hw'); [|by left|].
  { split; [apply Hw|by eapply aw_pos|done|done|done]. }
  rewrite I2 in Hrun, Hw'. unfold io_needed in Hrun, Hw'. rewrite F6 in Hrun, Hw'. cbn [negb andb] in Hrun, Hw'.
  destruct Hw' as (s' & -> & ->). fold d' in Hrun |- *. rewrite F1 in *. pose proof Hw as [A1 A2 A3 A4 A5 A6 A7 A8 A9 A10].
  assert (owned_ios (me w) = ios) as Eio by (by rewrite (kp_ios _ _ A3)). rewrite Eio in *.
  assert (alike d d') as Ha.
  { split; try done; cbn; [by apply wf_lor|flags; done..]. }
  edestruct (redesc_work same_page permanent n p strategy others (with_owned_ios ios m0) (with_owned_ios (v + 1 :: ios) m0) mu mu pins w v d d'
    (with_owned_ios (v + 1 :: ios) (me w))) as [Hw' Hal]; try done.
  { cbn. rewrite !refcount_field. by rewrite field_lor. } { lia. } { by destruct A2. } { by destruct A3. } { by destruct A4. }
  eexists. split; [exact Hrun|]. split; [exact Hw'|]. split; [by apply (desc_at_set_eq w _ d)|].
  destruct (alike_cache same_page permanent n _ _ (aw_pool _ _ _ _ _ _ _ _ _ _ Hw) Hal) as [Hse Hha].
  split; [exact Hse|]. split; [exact Hha|]. split; [|done]. by eapply only_insert.
Qed.
(** The buffers [done] have the blocks from [first] on, [rest] are still spare. *)
Record entering (m0 : Backend) (mu : gmap Z PrivateRefCountData) (pins all : list Z) (first : Z) (s0 : Shared)
    (done rest : list Z) (w : World) : Prop := {
  en_work : at_work (with_owned_ios (rev done ++ owned_ios m0) m0) (pin_all all mu) (all ++ pins) w;
  en_all : forall b, b ∈ all <-> b ∈ done ++ rest;
  en_once : NoDup (done ++ rest);
  en_rest : Forall (spare_at w) rest;
  en_done : forall i b, done !! i = Some b -> exists d, filling w (first + Z.of_nat i) b d;
  en_linked : Forall (fun b => linked (mem w) (b - 1)) done;
  en_fresh : forall blk, first + Z.of_nat (length done) <= blk -> SharedBufHash (shm w) !! new_tag blk = None;
  en_seen : seen s0 (shm w)
}.

Lemma filling_kept w w' blk b d v :
  only_desc v (shm w) (shm w') -> b - 1 <> v -> filling w blk b d -> filling w' blk b d.
Proof using Type.
  intros [Hb Ho] Hne [F1 F2 F3 F4 F5 F6 F7 F8 F9]. split; try done; [|by rewrite Hb].
  unfold desc_at in *. by rewrite Ho.
Qed.
Lemma spare_only w w' v b : only_desc v (shm w) (shm w') -> b - 1 <> v -> spare_at w b -> spare_at w' b.
Proof using Type.
  intros [Hb Ho] Hne (d & Hd & Hbl & Hr & Hp). exists d. unfold desc_at in *. rewrite Ho by done. by rewrite Hb.
Qed.

Lemma filling_start w v blk b d :
  v = b - 1 -> fresh_for permanent v (new_tag blk) d -> refcount (state d) = 1 -> lookupZ (BufferBlocks (shm w)) v = Some 0 ->
  desc_at w v (with_state (Z.lor (state d) BM_IO_IN_PROGRESS) d) ->
  filling w blk b (with_state (Z.lor (state d) BM_IO_IN_PROGRESS) d).
Proof using Type.
  intros -> [F1 F2 F3 F4 F5 F6 F7 F8 [I1 I2 I3 I4 I5 I6]] Hr Hp Hd. split; try done; cbn; try by flags.
  - rewrite <- Hr, !refcount_field. by rewrite field_lor.
  - rewrite <- I1. unfold lock_field. by rewrite field_lor.
Qed.

Lemma extend_enter_run m0 mu pins all first s0 done b rest w :
  entering m0 mu pins all first s0 done (b :: rest) w -> held_lwlocks m0 = [] ->
  let blk := first + Z.of_nat (length done) in
  0 <= blk < InvalidBlockNumber -> persists blk ->
  exists w', extend_enter PageIsNew reln relpersistence fork strategy (u32 blk) b w = (Ret b, w') /\
    entering m0 mu pins all first s0 (done ++ [b]) rest w'.
Proof using Type*.
  intros [E1 E2 E3 E4 E5 E6 E7 E8] Hl blk Hblk Hpers. apply Forall_cons in E4 as [(d & Hd & Hbl & Hr & Hpage) E4].
  set (m1 := with_owned_ios (rev done ++ owned_ios m0) m0) in *. set (v := b - 1) in *.
  destruct (Reserve_spec w (pin_all all mu)) as (m2 & Hrun1 & Hinv & Hfr & _); [apply E1|].
  pose proof (aw_track _ _ _ _ _ _ _ _ _ w m2 E1 (conj Hinv Hfr)) as Hw1. set (w1 := with_me m2 w) in *.
  assert (u32 blk = blk) as Eblk by (rewrite u32_small; [done|unfold InvalidBlockNumber in *; lia]).
  destruct (adopt_parts same_page permanent n p strategy others m1 _ _ w1 v d (new_tag blk) Hw1 Hd Hr Hbl Hl) as
    (w2 & w3 & w4 & w5 & Hrun2 & Hd2 & Hrun3 & Hq3 & Hg3 & Hd3 & Hrun4 & Hrun5 & [A1 A2 A3 A4 A5 A6 A7]).
  { apply E7. lia. } { cbn. unfold P_NEW. lia. }
  destruct (entered_desc_ok permanent v (new_tag blk) d Hbl) as [Hfresh Hr'].
  set (d' := entered_desc (new_tag blk) (permanent (new_tag blk)) d) in *. rewrite Hr in Hr'.
  destruct (start_fill_run m0 _ _ _ w5 v (new_tag blk) d' A1 A2 Hfresh Hr') as (w6 & Hrun6 & Hw6 & Hd6 & Hse6 & Hha6 & Ho6 & Hm6).
  assert (only_desc v (shm w) (shm w6)) as Ho by (etrans; [exact A7|exact Ho6]).
  assert (forall c, c ∈ done ++ rest -> c - 1 <> v) as Hne.
  { intros c Hc E. assert (c = b) as -> by lia. apply NoDup_app in E3 as (_ & E3 & [E3' _]%NoDup_cons).
    apply elem_of_app in Hc as [Hc|Hc]; [|done]. apply (E3 b Hc). by constructor. }
  exists w6. split.
  - unfold extend_enter, GetBufferDescriptor. fold v. run Hrun1. rewrite Eblk. fold (new_tag blk). run Hrun2.
    run (deref_run w2 v d Hd2). rewrite (bl_id _ _ Hbl). run Hrun3. cbn [Z.leb Z.compare]. rewrite <- Hpers.
    run (extend_claim_run w3 v (new_tag blk) d Hq3 Hg3 Hd3 Hbl Hr). run Hrun4. run Hrun5. by run Hrun6.
  - split.
    + rewrite rev_app_distr. cbn [rev app]. replace b with (v + 1) by lia. exact Hw6.
    + intros c. rewrite E2, <- app_assoc. done.
    + by rewrite <- app_assoc.
    + rewrite Forall_forall in E4 |- *. intros c Hc. eapply (spare_only w w6 v); [exact Ho|apply Hne; set_solver|by apply E4].
    + intros i c Hic. destruct (decide (i < length done)%nat) as [Hlt|Hge].
      * rewrite lookup_app_l in Hic by done. destruct (E5 i c Hic) as (x & Hx). exists x.
        eapply (filling_kept w w6); [exact Ho|apply Hne; apply elem_of_app; left; by eapply list_elem_of_lookup_2|done].
      * rewrite lookup_app_r in Hic by lia. apply list_lookup_singleton_Some in Hic as [E0 <-].
        replace (Z.of_nat i) with (Z.of_nat (length done)) by lia. eexists. eapply (filling_start w6 v blk b d'); try done.
        by rewrite (proj1 Ho).
    + apply Forall_app. rewrite Hm6. split; [|by constructor].
      eapply Forall_impl; [exact E6|]. intros c Hc. by apply A6.
    + intros blk' Hblk'. rewrite length_app in Hblk'. cbn in Hblk'. rewrite Hha6, A4, lookup_insert_ne; [apply E7; lia|].
      intros E. apply block_tag_inj in E. lia.
    + etrans; [exact E8|]. etrans; [exact A3|exact Hse6].
Qed.

Lemma extend_enter_all_run m0 mu pins all first s0 rest : forall done w,
  entering m0 mu pins all first s0 done rest w -> held_lwlocks m0 = [] -> 0 <= first ->
  first + Z.of_nat (length (done ++ rest)) < MaxBlockNumber -> (forall blk, first <= blk -> persists blk) ->
  exists w', extend_enter_all PageIsNew reln relpersistence fork strategy (first + Z.of_nat (length done)) rest w = (Ret rest, w') /\
    entering m0 mu pins all first s0 (done ++ rest) [] w'.
Proof using Type*.
  induction rest as [|b rest IH]; intros done w He Hl H0 Hmax Hp; cbn [extend_enter_all].
  { exists w. by rewrite app_nil_r. }
  rewrite length_app in Hmax. cbn in Hmax. unfold MaxBlockNumber in Hmax.
  destruct (extend_enter_run m0 mu pins all first s0 done b rest w He Hl) as (w1 & Hrun1 & He1);
    [unfold InvalidBlockNumber; lia|apply Hp; lia|].
  destruct (IH (done ++ [b]) w1 He1 Hl H0) as (w2 & Hrun2 & He2); [unfold MaxBlockNumber; rewrite !length_app; cbn; lia|done|].
  rewrite length_app in Hrun2. cbn in Hrun2. rewrite <- app_assoc in He2. exists w2. split; [|done]. run Hrun1.
  replace (first + Z.of_nat (length done) + 1) with (first + Z.of_nat (length done + 1)) by lia. by run Hrun2.
Qed.
(** ** The new blocks are valid *)
Definition lock_wanted (flags first_block extend_upto i : Z) : bool :=
  (ztrue (Z.land flags EB_LOCK_FIRST) && (i =? 0)) ||
  (ztrue (Z.land flags EB_LOCK_TARGET) && (u32 (first_block + i + 1) =? extend_upto)).

Lemma locks_block_run flags first_block extend_upto i w :
  (ztrue (Z.land flags EB_LOCK_TARGET) = true -> extend_upto <> InvalidBlockNumber) ->
  locks_block flags first_block extend_upto i w = (Ret (lock_wanted flags first_block extend_upto i), w).
Proof using Type.
  intros Hu. unfold locks_block, lock_wanted. destruct (_ && (i =? 0)); [done|].
  destruct (ztrue (Z.land flags EB_LOCK_TARGET)); [|done]. by rewrite c_assert_ok by (apply negb_true_iff, Z.eqb_neq; auto).
Qed.

(** The buffer holds the block and is this backend's. *)
Record in_use (w : World) (blk b : Z) (l : bool) (d : BufferDesc) : Prop := {
  iu_desc : desc_at w (b - 1) d;
  iu_tag : tag d = new_tag blk;
  iu_valid : flag (state d) BM_VALID = true;
  iu_clean : flag (state d) BM_DIRTY = false;
  iu_tagged : flag (state d) BM_TAG_VALID = true;
  iu_io : flag (state d) BM_IO_IN_PROGRESS = false;
  iu_count : refcount (state d) = 1;
  iu_lock : lock_field (state d) = lock_unit (lock_mode l);
  iu_page : lookupZ (BufferBlocks (shm w)) (b - 1) = Some 0
}.

(** Its content is locked first if the caller wants that. *)
Lemma lock_fill_run m0 mu pins w blk b l d :
  at_work m0 mu pins w -> mu !! b = Some one_pin -> filling w blk b d ->
  exists w' d', (when l (LockBuffer b BUFFER_LOCK_EXCLUSIVE)) w = (Ret tt, w') /\
    at_work (hold_lock l m0) (lock_pin b l mu) pins w' /\ desc_at w' (b - 1) d' /\ relocked d d' /\
    lock_field (state d') = lock_unit (lock_mode l) /\ pool_alike (shm w) (shm w') /\ only_desc (b - 1) (shm w) (shm w') /\
    mem w' = mem w /\ owned_ios (me w') = owned_ios m0.
Proof using Type*.
  intros Hw Hmu [F1 F2 F3 F4 F5 F6 F7 F8 F9]. pose proof (aw_desc _ _ _ _ _ _ _ _ _ _ _ _ Hw F1) as Hok.
  destruct l; cbn [when hold_lock lock_pin lock_mode].
  - set (v := b - 1) in *. replace b with (v + 1) in * by lia.
    destruct (LockBuffer_run mu v w d one_pin BUFFER_LOCK_EXCLUSIVE) as (m' & Hrun & Htr);
      [by eapply aw_pinned_free|done|done|done|rewrite F8; done|].
    destruct (lock_with same_page permanent n p strategy others (LockBuffer (v + 1) BUFFER_LOCK_EXCLUSIVE) BUFFER_LOCK_EXCLUSIVE tt m0 mu pins w v d m' Hw Hmu F1) as
      (w' & d' & Hrun' & [S1 S2 S3 S4 S5 S6 S7 S8]); [lia|done|done|exact Hrun|exact Htr|].
    exists w', d'. split; [exact Hrun'|]. split; [exact S1|]. split; [exact S2|]. split; [exact S3|]. split; [exact S4|].
    split; [exact S5|]. split; [by eapply only_insert; [apply S5|]|]. split; [apply S6|].
    exact (kp_ios _ _ (aw_keeps _ _ _ _ _ _ _ _ _ _ S1)).
  - exists w, d. split; [done|]. split; [done|]. split; [done|]. split.
    { split; [by destruct d|]. split; [apply Hok|]. done. }
    split; [done|]. split; [by eapply pool_alike_refl, aw_pool|]. split; [done|]. split; [done|].
    exact (kp_ios _ _ (aw_keeps _ _ _ _ _ _ _ _ _ _ Hw)).
Qed.

(** [TerminateBufferIO] with [BM_VALID]. *)
Lemma filled_word d :
  wf_state (state d) -> flag (state d) BM_TAG_VALID = true -> flag (state d) BM_DIRTY = false -> 0 < refcount (state d) ->
  let d' := with_state (io_done_word false BM_VALID (state d)) d in
  filled d d' /\ flag (state d') BM_IO_IN_PROGRESS = false /\ lock_field (state d') = lock_field (state d) /\
  refcount (state d') = refcount (state d).
Proof using Type.
  intros Hwf Ht Hd Hr d'. set (unset := Z.lor BM_IO_IN_PROGRESS BM_IO_ERROR).
  assert (state d' = unlock_word (Z.lor (state d) BM_LOCKED) BM_VALID unset 0) as E by done.
  assert (forall G k `{!IsBit G k}, flag BM_LOCKED G = false ->
    flag (state d') G = (flag (state d) G || flag BM_VALID G) && negb (flag unset G)) as Hf.
  { intros G k ? Hg. rewrite E. by apply unlock_ext_flag. }
  assert (refcount (state d') = refcount (state d)) as Hc by (rewrite E, !refcount_field; by apply unlock_ext_field).
  split; [split; try done|].
  - rewrite E. by apply wf_unlock_ext.
  - rewrite E, unlock_ext_word by done. by flags.
  - by rewrite (Hf BM_DIRTY _ _), Hd by done.
  - rewrite (Hf BM_VALID _ _) by done. by rewrite orb_true_r.
  - by rewrite (Hf BM_TAG_VALID _ _), Ht by done.
  - rewrite (Hf BM_PERMANENT _ _) by done. by rewrite orb_false_r, andb_true_r.
  - lia.
  - split; [rewrite (Hf BM_IO_IN_PROGRESS _ _) by done; by rewrite andb_false_r|].
    split; [|done]. unfold lock_field. rewrite E. by apply unlock_ext_field.
Qed.
Lemma finish_one_run m0 ios ios' mu pins w blk b l d :
  at_work (with_owned_ios ios m0) mu pins w -> mu !! b = Some one_pin -> filling w blk b d -> remove_one b ios = Some ios' ->
  disk_page (shm w) (new_tag blk) = Some 0 ->
  exists w' d', (when l (LockBuffer b BUFFER_LOCK_EXCLUSIVE) ;; TerminateBufferIO (b - 1) false BM_VALID true false) w = (Ret tt, w') /\
    at_work (with_owned_ios ios' (hold_lock l m0)) (lock_pin b l mu) pins w' /\ in_use w' blk b l d' /\ seen (shm w) (shm w') /\
    only_desc (b - 1) (shm w) (shm w') /\ mem w' = mem w /\ smgr_disk (shm w') = smgr_disk (shm w).
Proof using Type*.
  intros Hw Hmu Hfi Hrm Hdisk. destruct (lock_fill_run _ _ _ w blk b l d Hw Hmu Hfi) as
    (w1 & d1 & Hrun1 & Hw1 & Hd1 & Hrl & Hl1 & Hal1 & Ho1 & Hm1 & Hio1). destruct Hfi as [F1 F2 F3 F4 F5 F6 F7 F8 F9].
  pose proof (relocked_alike _ _ Hrl) as Ha. pose proof (relocked_count _ _ Hrl) as Hc. set (v := b - 1) in *.
  pose proof (aw_desc _ _ _ _ _ _ _ _ _ _ _ _ Hw1 Hd1) as Hok.
  assert (flag (state d1) BM_IO_IN_PROGRESS = true) as Hio by (destruct Hrl as (_ & _ & Hs); by rewrite (same_rest_flag (G := BM_IO_IN_PROGRESS) _ _ ltac:(done) Hs)).
  assert (flag (state d1) BM_TAG_VALID = true) as Ht1 by (by rewrite (al_tagged _ _ Ha)).
  destruct (filled_word d1 (do_wf _ _ _ _ _ Hok) Ht1) as (Hfd & Hio2 & Hl2 & Hc2); [by rewrite (al_dirty _ _ Ha)|lia|].
  set (d2 := with_state (io_done_word false BM_VALID (state d1)) d1) in *.
  assert (disk_page (shm w1) (tag d1) = Some 0) as Hdisk1.
  { rewrite (al_tag _ _ Ha), F2. unfold disk_page. by rewrite (pa_disk _ _ Hal1). }
  destruct (filled_ok same_page PageGetLSN permanent n v d1 d2 0 0 (shm w1)) as [Hp2 Hse2]; try done;
    [by eapply aw_pool|by rewrite (al_valid _ _ Ha)|by rewrite (pa_blocks _ _ Hal1)|].
  pose proof (TerminateBufferIO_run w1 v d1 false BM_VALID true ios') as Hrun2. cbn iota in Hrun2.
  rewrite Hio1, (do_id _ _ _ _ _ Hok) in Hrun2. replace (v + 1) with b in Hrun2 by lia.
  specialize (Hrun2 ltac:(split; [apply Hw1|by eapply aw_pos|done|apply Hok|apply Hok]) Hio Hrm). fold d2 in Hrun2.
  eexists _, d2. split; [run Hrun1; exact Hrun2|]. pose proof Hw1 as [A1 A2 A3 A4 A5 A6 A7 A8 A9 A10]. split_and!.
  - apply (aw_change _ _ _ _ _ _ (hold_lock l (with_owned_ios ios m0)) (with_owned_ios ios' (hold_lock l m0)) (lock_pin b l mu) (lock_pin b l mu) pins w1
      (redesc v d2 (shm w1)) (with_owned_ios ios' (me w1))); try done.
    + destruct A2, l; by split.
    + destruct A3, l; by split.
    + by destruct A4.
    + by apply (redesc_counts v d1).
    + by destruct l.
  - destruct Hfd as [D1 D2 D3 D4 D5 D6 D7 D8 D9].
    split; try done; [by apply (desc_at_set_eq w1 _ d1)|by rewrite D1, (al_tag _ _ Ha)|lia|congruence|].
    change (lookupZ (BufferBlocks (shm w1)) v = Some 0). by rewrite (pa_blocks _ _ Hal1).
  - etrans; [|exact Hse2]. by apply (alike_cache same_page permanent n _ _ (aw_pool _ _ _ _ _ _ _ _ _ _ Hw) Hal1).
  - etrans; [exact Ho1|]. by eapply (only_insert v d2).
  - exact Hm1.
  - apply (pa_disk _ _ Hal1).
Qed.

(** The first buffers [fin] are valid, locked as [locks] says, [todo] are not. *)
Record finishing (m0 : Backend) (mu : gmap Z PrivateRefCountData) (pins : list Z) (first : Z) (s0 : Shared) (words : list Z)
    (locks : list bool) (fin todo : list Z) (w : World) : Prop := {
  fs_work : at_work (with_owned_ios (rev todo ++ owned_ios m0) (hold_locks locks m0)) (lock_pins fin locks mu) pins w;
  fs_len : length fin = length locks;
  fs_once : NoDup (fin ++ todo);
  fs_pins : Forall (fun b => mu !! b = Some one_pin) todo;
  fs_todo : forall i b, todo !! i = Some b -> exists d, filling w (first + Z.of_nat (length fin + i)) b d;
  fs_fin : forall i b l, fin !! i = Some b -> locks !! i = Some l -> exists d, in_use w (first + Z.of_nat i) b l d;
  fs_disk : smgr_disk (shm w) = smgr_disk s0;
  fs_seen : seen s0 (shm w);
  fs_mem : mem w = words
}.

Lemma in_use_kept w w' v blk b l d : only_desc v (shm w) (shm w') -> b - 1 <> v -> in_use w blk b l d -> in_use w' blk b l d.
Proof using Type.
  intros [Hb Ho] Hne [F1 F2 F3 F4 F5 F6 F7 F8 F9]. split; try done; [|by rewrite Hb]. unfold desc_at in *. by rewrite Ho.
Qed.

Lemma finish_step m0 mu pins first s0 words locks fin b todo w l :
  finishing m0 mu pins first s0 words locks fin (b :: todo) w ->
  disk_page s0 (new_tag (first + Z.of_nat (length fin))) = Some 0 ->
  exists w', (when l (LockBuffer b BUFFER_LOCK_EXCLUSIVE) ;; TerminateBufferIO (b - 1) false BM_VALID true false) w = (Ret tt, w') /\
    finishing m0 mu pins first s0 words (locks ++ [l]) (fin ++ [b]) todo w'.
Proof using Type*.
  intros [S1 S2 S3 S4 S5 S6 S7 S8 S9] Hdisk. apply Forall_cons in S4 as [Hmu S4].
  destruct (S5 0%nat b eq_refl) as (d & Hfi). rewrite Nat.add_0_r in Hfi.
  pose proof S3 as (N1 & N2 & [N3 N4]%NoDup_cons)%NoDup_app.
  assert (b ∉ fin) as Hbf by (intros Hb; apply (N2 b Hb); constructor).
  cbn [rev] in S1. rewrite <- app_assoc in S1.
  destruct (finish_one_run (hold_locks locks m0) _ (rev todo ++ owned_ios m0) _ _ w (first + Z.of_nat (length fin)) b l d S1) as
    (w' & d' & Hrun & Hw' & Hiu & Hse & Ho & Hm & Hdk); [by rewrite lookup_lock_pins|done| | |].
  { apply remove_one_mid. by rewrite list_elem_of_In, <- in_rev, <- list_elem_of_In. }
  { unfold disk_page in *. by rewrite S7. }
  assert (forall c, c ∈ fin ++ todo -> c - 1 <> b - 1) as Hne.
  { intros c Hc E. assert (c = b) as -> by lia. by apply elem_of_app in Hc as [?|?]. }
  exists w'. split; [exact Hrun|]. split.
  - unfold hold_locks in *. rewrite foldl_app, lock_pins_snoc by done. exact Hw'.
  - rewrite !length_app. cbn. lia.
  - by rewrite <- app_assoc.
  - done.
  - intros i c Hi. destruct (S5 (S i) c Hi) as (x & Hx). exists x.
    replace (length (fin ++ [b]) + i)%nat with (length fin + S i)%nat by (rewrite length_app; cbn; lia).
    eapply (filling_kept w w'); [exact Ho|apply Hne, elem_of_app; right; by eapply list_elem_of_lookup_2|done].
  - intros i c l' Hi Hl. destruct (decide (i < length fin)%nat) as [Hlt|Hge].
    + rewrite lookup_app_l in Hi by done. rewrite lookup_app_l in Hl by lia. destruct (S6 i c l' Hi Hl) as (x & Hx). exists x.
      eapply (in_use_kept w w'); [exact Ho|apply Hne, elem_of_app; left; by eapply list_elem_of_lookup_2|done].
    + rewrite lookup_app_r in Hi by lia. rewrite lookup_app_r in Hl by lia.
      apply list_lookup_singleton_Some in Hi as [Hi <-]. apply list_lookup_singleton_Some in Hl as [_ <-].
      replace i with (length fin) by lia. by exists d'.
  - congruence.
  - by etrans.
  - congruence.
Qed.

Definition locks_wanted (flags first extend_upto : Z) (from k : nat) : list bool :=
  (fun i => lock_wanted flags first extend_upto (Z.of_nat i)) <$> seq from k.

Lemma extend_finish_run flags extend_upto m0 mu pins first s0 words todo : forall locks fin w,
  (ztrue (Z.land flags EB_LOCK_TARGET) = true -> extend_upto <> InvalidBlockNumber) ->
  finishing m0 mu pins first s0 words locks fin todo w ->
  (forall i, (i < length (fin ++ todo))%nat -> disk_page s0 (new_tag (first + Z.of_nat i)) = Some 0) ->
  exists w', extend_finish flags first extend_upto (Z.of_nat (length fin)) todo w = (Ret tt, w') /\
    finishing m0 mu pins first s0 words (locks ++ locks_wanted flags first extend_upto (length fin) (length todo)) (fin ++ todo) [] w'.
Proof using Type*.
  induction todo as [|b todo IH]; intros locks fin w Hu Hf Hd; cbn [extend_finish].
  { exists w. by rewrite !app_nil_r. }
  set (l := lock_wanted flags first extend_upto (Z.of_nat (length fin))).
  destruct (finish_step m0 mu pins first s0 words locks fin b todo w l Hf) as (w1 & Hrun1 & Hf1); [apply Hd; rewrite length_app; cbn; lia|].
  destruct (IH (locks ++ [l]) (fin ++ [b]) w1 Hu Hf1) as (w2 & Hrun2 & Hf2); [by rewrite <- app_assoc|].
  exists w2. rewrite <- !app_assoc in Hf2. rewrite length_app in Hrun2, Hf2. cbn in Hrun2, Hf2. split.
  - run (locks_block_run flags first extend_upto (Z.of_nat (length fin)) w Hu). fold l. unfold GetBufferDescriptor.
    rewrite <- bind_assoc. run Hrun1. by replace (Z.of_nat (length fin) + 1) with (Z.of_nat (length fin + 1)) by lia.
  - unfold locks_wanted in *. cbn [length seq]. rewrite fmap_cons. fold l. replace (S (length fin)) with (length fin + 1)%nat by lia. exact Hf2.
Qed.
(** ** The whole extension *)
Definition pin_budget (m : Backend) (additional : Z) : Z :=
  if additional <=? 1 then additional
  else
    let held := u32 (PrivateRefCountOverflowed m + REFCOUNT_ARRAY_ENTRIES) in
    let limit := Z.max (if MaxProportionalPins m <? held then 0 else u32 (MaxProportionalPins m - held)) 1 in
    if limit <? additional then limit else additional.

Lemma LimitAdditionalPins_run additional w : LimitAdditionalPins additional w = (Ret (pin_budget (me w) additional), w).
Proof using Type.
  unfold LimitAdditionalPins, pin_budget. destruct (additional <=? 1); [done|].
  unfold GetAdditionalPinLimit, get_me, gets, bind. cbv zeta. destruct (_ <? u32 _); unfold ret; by case_match.
Qed.
Lemma pin_budget_range m additional : 0 <= additional -> 0 <= pin_budget m additional <= additional.
Proof using Type.
  intros Ha. unfold pin_budget. destruct (Z.leb_spec additional 1); [lia|].
  set (limit := Z.max _ 1). cbv zeta. fold limit. destruct (Z.ltb_spec limit additional); lia.
Qed.

(** The relation has [k] blocks more, from [first] on, in the buffers [bs]. *)
Record extended (m0 : Backend) (mu : gmap Z PrivateRefCountData) (pins : list Z) (flags extend_upto : Z) (s : Shared) (k : nat)
    (first : Z) (bs : list Z) (w' : World) : Prop := {
  ex_first : first = Z.of_nat (length (file s reln fork));
  ex_count : length bs = k;
  ex_new : NoDup bs /\ Forall (fun b => mu !! b = None) bs;
  (** The pool, the policy and the bookkeeping are in order, with the new pins and locks. *)
  ex_work : let locks := locks_wanted flags first extend_upto 0 k in
    at_work (hold_locks locks m0) (lock_pins bs locks (pin_all (rev bs) mu)) (rev bs ++ pins) w';
  ex_buffers : forall i b, bs !! i = Some b ->
    exists d, in_use w' (first + Z.of_nat i) b (lock_wanted flags first extend_upto (Z.of_nat i)) d;
  ex_linked : Forall (fun b => linked (mem w') (b - 1)) bs;
  ex_file : length (file (shm w') reln fork) = (length (file s reln fork) + k)%nat;
  (** The new blocks are zeros, the others read as before. *)
  ex_seen : forall t, option_Forall2 same_page
    (if new_block reln fork first k t then Some 0 else page_seen s t) (page_seen (shm w') t)
}.

Definition beyond_limit : string := "cannot extend relation beyond MaxBlockNumber blocks".
(** How many blocks are to be added: all that may be pinned, or those missing to the
    wanted size, if they are fewer. *)
Definition growth (size budget upto : Z) : Z :=
  if decide (upto = InvalidBlockNumber) then budget else Z.max 0 (Z.min budget (upto - size)).

Definition extend_post (m0 : Backend) (mu : gmap Z PrivateRefCountData) (pins : list Z) (flags extend_by extend_upto : Z) (s : Shared)
    (o : outcome (Z * list Z)) (w' : World) : Prop :=
  let size := Z.of_nat (length (file s reln fork)) in
  let k := growth size extend_by extend_upto in
  match o with
  | Ret (first, bs) => extended m0 mu pins flags extend_upto s (Z.to_nat k) first bs w'
  | Elog e => pool (shm w') /\ seen s (shm w') /\ (true ∈ smgr_faults m0 \/ e = beyond_limit /\ MaxBlockNumber <= size + k)
  | _ => False
  end.
(** The file grows while the buffers of its new blocks wait for it. *)
Lemma grow_run m0 mu pins first s0 bs w :
  entering m0 mu pins (rev bs) first s0 bs [] w -> pool s0 -> first = Z.of_nat (length (file s0 reln fork)) ->
  wp (smgrzeroextend reln fork first (Z.of_nat (length bs))) (fun o w' => match o with
    | Ret _ => finishing m0 (pin_all (rev bs) mu) (rev bs ++ pins) first (shm w') (mem w) [] [] bs w' /\
        (forall t, option_Forall2 same_page (if new_block reln fork first (length bs) t then Some 0 else page_seen s0 t) (page_seen (shm w') t)) /\
        length (file (shm w') reln fork) = (length (file s0 reln fork) + length bs)%nat /\
        (forall i, (i < length bs)%nat -> disk_page (shm w') (new_tag (first + Z.of_nat i)) = Some 0)
    | Elog e => true ∈ smgr_faults m0 /\ pool (shm w') /\ seen s0 (shm w')
    | _ => False
    end) w.
Proof using Type*.
  intros [E1 E2 E3 E4 E5 E6 E7 E8] Hp0 Hfirst. pose proof (aw_pool _ _ _ _ _ _ _ _ _ _ E1) as Hp.
  assert (length (file (shm w) reln fork) = length (file s0 reln fork)) as Hlen by (by apply (seen_length same_page PageGetLSN permanent n)).
  unfold smgrzeroextend. eapply wp_step; [symmetry; apply bind_assoc|].
  destruct (smgr_call_work _ _ _ w E1) as (w1 & Hs1 & [[Hrun Hf]|[Hrun Hw1]]).
  { eapply wp_bind, wp_eq; [exact Hrun|]. cbn. by rewrite Hs1. }
  eapply (wp_eq _ _ _ _ (upd_shm (grown reln fork (length bs)) w1)); [run Hrun|].
  { unfold modify_shm, modify, upd_shm, grown. do 4 f_equal. rewrite Hfirst, !Nat2Z.id, <- Hlen, <- Hs1.
    fold (file (shm w1) reln fork). by rewrite zero_pages_end. }
  destruct (grown_ok same_page PageGetLSN permanent n reln fork (length bs) (shm w1)) as [Hpg Hseen]; [by rewrite Hs1|].
  rewrite Hs1, Hlen, <- Hfirst in Hseen. split_and!.
  - pose proof Hw1 as [A1 A2 A3 A4 A5 A6 A7 A8 A9 A10]. rewrite app_nil_r in E3. split; cbn; try done.
    + apply (aw_change _ _ _ _ _ _ (with_owned_ios (rev bs ++ owned_ios m0) m0) (with_owned_ios (rev bs ++ owned_ios m0) m0)
        (pin_all (rev bs) mu) (pin_all (rev bs) mu) _ w1 (grown reln fork (length bs) (shm w1)) (me w1)); try done.
      intros i x Hx. by exists x.
    + apply Forall_forall. intros b Hb. rewrite lookup_pin_all, decide_True; [done|]. rewrite E2. by rewrite app_nil_r.
    + intros i b Hi. destruct (E5 i b Hi) as (d & [F1 F2 F3 F4 F5 F6 F7 F8 F9]). exists d. split; try done.
      * unfold desc_at in *. cbn. by rewrite Hs1.
      * cbn. by rewrite Hs1.
    + unfold mem. cbn. by rewrite Hs1.
  - intros t. cbn. rewrite Hs1, Hseen. destruct (new_block _ _ _ _ _); [by apply reflexivity|apply E8].
  - cbn. rewrite grown_file, length_app, length_replicate, Hs1. lia.
  - intros i Hi. apply grown_new. apply new_block_spec. exists (first + Z.of_nat i). split; [done|].
    rewrite Hs1, Hlen, <- Hfirst. lia.
Qed.
Context (LockRelationForExtension UnlockRelationForExtension : RelFileLocator -> M unit).
Hypothesis unlock_returns : forall r w, UnlockRelationForExtension r w = (Ret tt, w).

(** From the victims in hand to the end. *)
Lemma extend_rest_run m0 mu pins flags extend_upto (locking : bool) first s0 bs w :
  spares m0 mu pins (rev bs) w -> held_lwlocks m0 = [] -> pool s0 -> cache_kept s0 (shm w) ->
  first = Z.of_nat (length (file s0 reln fork)) -> first + Z.of_nat (length bs) < MaxBlockNumber ->
  (forall blk, first <= blk -> SharedBufHash s0 !! new_tag blk = None) -> (forall blk, first <= blk -> persists blk) ->
  (ztrue (Z.land flags EB_LOCK_TARGET) = true -> extend_upto <> InvalidBlockNumber) ->
  wp (let* buffers := extend_enter_all PageIsNew reln relpersistence fork strategy first bs in
      smgrzeroextend reln fork first (Z.of_nat (length bs)) ;;
      when locking (UnlockRelationForExtension reln) ;;
      extend_finish flags first extend_upto 0 buffers ;;
      count_usage (fun a => with_shared_blks_written (shared_blks_written a + Z.of_nat (length bs)) a) ;;
      ret (first, buffers)) (fun o w' => match o with
    | Ret (first', bs') => first' = first /\ bs' = bs /\
        (let locks := locks_wanted flags first extend_upto 0 (length bs) in
         at_work (hold_locks locks m0) (lock_pins bs locks (pin_all (rev bs) mu)) (rev bs ++ pins) w') /\
        (forall i b, bs !! i = Some b -> exists d, in_use w' (first + Z.of_nat i) b (lock_wanted flags first extend_upto (Z.of_nat i)) d) /\
        Forall (fun b => linked (mem w') (b - 1)) bs /\
        length (file (shm w') reln fork) = (length (file s0 reln fork) + length bs)%nat /\
        (forall t, option_Forall2 same_page (if new_block reln fork first (length bs) t then Some 0 else page_seen s0 t) (page_seen (shm w') t))
    | Elog e => true ∈ smgr_faults m0 /\ pool (shm w') /\ seen s0 (shm w')
    | _ => False
    end) w.
Proof using Type*.
  intros [S1 S2 S3 S4] Hl Hp0 [Hse Hha] Hfirst Hmax Hfresh Hpers Htarget.
  destruct (extend_enter_all_run m0 mu pins (rev bs) first s0 bs [] w) as (w1 & Hrun1 & He1); try done; [|lia|].
  { split; cbn; try done.
    - by destruct m0.
    - intros b. by rewrite !list_elem_of_In, <- in_rev.
    - by rewrite (Permutation_rev bs).
    - by rewrite (Permutation_rev bs).
    - intros blk Hblk. eapply lookup_weaken_None; [|exact Hha]. apply Hfresh. lia. }
  cbn [length app] in Hrun1, He1. rewrite Z.add_0_r in Hrun1. eapply wp_step; [run Hrun1; reflexivity|]. apply wp_bind.
  eapply wp_mono; [|by apply (grow_run m0 mu pins first s0 bs w1)].
  intros [[]|e|e|] w2; cbn [bind_post]; try done. intros (Hfi & Hseen & Hlen & Hdisk).
  destruct (extend_finish_run flags extend_upto m0 _ _ first _ _ bs [] [] w2 Htarget Hfi Hdisk) as (w3 & Hrun3 & [F1 F2 F3 F4 F5 F6 F7 F8 F9]).
  cbn [app length rev] in F1, F2, F3, F6, Hrun3. set (locks := locks_wanted flags first extend_upto 0 (length bs)) in *.
  eapply wp_eq.
  { assert (when locking (UnlockRelationForExtension reln) w2 = (Ret tt, w2)) as Hun by (destruct locking; [apply unlock_returns|done]).
    run Hun. run Hrun3. reflexivity. }
  split; [done|]. split; [done|]. split; [|split; [|split; [|split]]].
  - rewrite hold_locks_ios in F1. destruct F1 as [A1 A2 A3 A4 A5 A6 A7 A8 A9 A10]. cbv zeta. split; try done.
    + destruct A3. by split.
    + by destruct A4.
  - intros i b Hi. destruct (F6 i b (lock_wanted flags first extend_upto (Z.of_nat i)) Hi) as (d & Hd).
    { unfold locks, locks_wanted. rewrite list_lookup_fmap, lookup_seq_lt; [done|]. by eapply lookup_lt_Some. }
    exists d. by destruct Hd.
  - pose proof (en_linked _ _ _ _ _ _ _ _ _ He1) as Hli. by rewrite <- F9 in Hli.
  - etrans; [|exact Hlen]. unfold file. by rewrite <- F7.
  - intros t. etrans; [apply Hseen|apply F8].
Qed.

Lemma smgrnblocks_work m0 mu pins bs w :
  spares m0 mu pins bs w ->
  exists w', shm w' = shm w /\
    (smgrnblocks reln fork w = (Elog "I/O error", w') /\ true ∈ smgr_faults m0 \/
     smgrnblocks reln fork w = (Ret (Z.of_nat (length (file (shm w) reln fork))), w') /\ spares m0 mu pins bs w').
Proof using Type*.
  intros Hsp. destruct (smgr_call_work _ _ _ w (sp_work _ _ _ _ _ Hsp)) as (w' & Hs & Hrun). exists w'. split; [done|].
  unfold smgrnblocks. rewrite <- bind_assoc. destruct Hrun as [[Hrun Hf]|[Hrun Hw']].
  - left. split; [|done]. unfold bind at 1. by rewrite Hrun.
  - right. split; [|by eapply (spares_world _ _ _ _ w)]. run Hrun. unfold gets, file. by rewrite Hs.
Qed.

Lemma limit_extension_growth first extend_by extend_upto :
  0 <= first -> 0 <= extend_by -> 0 <= extend_upto < 2 ^ 32 ->
  limit_extension first extend_by extend_upto = growth first extend_by extend_upto.
Proof using Type.
  intros Hf Hb Hu. unfold limit_extension, growth. destruct (Z.eqb_spec extend_upto InvalidBlockNumber); case_decide; try done.
  destruct (Z.ltb_spec extend_upto first); [lia|].
  destruct (Z.ltb_spec extend_upto (first + extend_by)); [|lia]. unfold u32. rewrite Z.mod_small; lia.
Qed.
Lemma growth_range size budget upto : 0 <= budget -> 0 <= growth size budget upto <= budget.
Proof using Type. intros Hb. unfold growth. case_decide; lia. Qed.

Lemma nothing_added m0 mu pins flags extend_upto s w' :
  spares m0 mu pins [] w' -> pool s -> seen s (shm w') ->
  extended m0 mu pins flags extend_upto s 0 (Z.of_nat (length (file s reln fork))) [] w'.
Proof using Type*.
  intros [Hw _ _ _] Hp Hse. split; try done.
  - split; constructor.
  - rewrite Nat.add_0_r. apply (seen_length same_page PageGetLSN permanent n); [done|by eapply aw_pool|done].
  - intros t. assert (new_block reln fork (Z.of_nat (length (file s reln fork))) 0 t = false) as ->; [|apply Hse].
    apply not_true_is_false. intros (blk & _ & Hblk)%new_block_spec. lia.
Qed.

Hypothesis lock_returns : forall r w, LockRelationForExtension r w = (Ret tt, w).

(** Nobody has a buffer for a block the relation does not have yet. *)
Definition fresh_blocks (s : Shared) : Prop :=
  forall blk, Z.of_nat (length (file s reln fork)) <= blk -> SharedBufHash s !! new_tag blk = None.

(** From the size of the relation on. *)
Lemma extend_from_run m0 mu pins flags extend_by extend_upto (locking : bool) s0 bs w :
  let size := Z.of_nat (length (file s0 reln fork)) in
  let k := limit_extension size extend_by extend_upto in
  spares m0 mu pins (rev bs) w -> Z.of_nat (length bs) = extend_by -> held_lwlocks m0 = [] -> pool s0 -> cache_kept s0 (shm w) ->
  0 <= extend_upto < 2 ^ 32 -> fresh_blocks s0 -> (forall blk, size <= blk -> persists blk) ->
  (ztrue (Z.land flags EB_LOCK_TARGET) = true -> extend_upto <> InvalidBlockNumber) ->
  wp (release_victims (drop (Z.to_nat k) bs) ;;
      if negb (extend_upto =? InvalidBlockNumber) && (k =? 0) then
        when locking (UnlockRelationForExtension reln) ;;
        ret (size, [])
      else if MaxBlockNumber <=? size + k then elog beyond_limit
      else
        let* buffers := extend_enter_all PageIsNew reln relpersistence fork strategy size (take (Z.to_nat k) bs) in
        smgrzeroextend reln fork size k ;;
        when locking (UnlockRelationForExtension reln) ;;
        extend_finish flags size extend_upto 0 buffers ;;
        count_usage (fun a => with_shared_blks_written (shared_blks_written a + k) a) ;;
        ret (size, buffers)) (extend_post m0 mu pins flags extend_by extend_upto s0) w.
Proof using Type*.
  intros size k Hsp Hlen Hl Hp0 Hk0 Hup Hfresh Hpers Htarget.
  assert (growth size extend_by extend_upto = k) as Eg by (symmetry; apply limit_extension_growth; lia).
  assert (0 <= k <= extend_by) as Hk by (rewrite <- Eg; apply growth_range; lia).
  assert (length (take (Z.to_nat k) bs) = Z.to_nat k) as Hlt by (rewrite length_take; lia).
  rewrite <- (take_drop (Z.to_nat k) bs), rev_app_distr in Hsp.
  destruct (release_victims_run m0 mu pins (drop (Z.to_nat k) bs) (rev (take (Z.to_nat k) bs)) w Hsp) as (w1 & Hrun1 & Hsp1 & Hk1).
  assert (cache_kept s0 (shm w1)) as [Hse Hha] by (by etrans). eapply wp_step; [run Hrun1; reflexivity|].
  destruct (negb (extend_upto =? InvalidBlockNumber) && (k =? 0)) eqn:Ez.
  { apply andb_true_iff in Ez as [_ Ez%Z.eqb_eq]. eapply (wp_eq _ _ _ (Ret (size, [])) w1).
    - assert (when locking (UnlockRelationForExtension reln) w1 = (Ret tt, w1)) as Hun by (destruct locking; [apply unlock_returns|done]).
      by run Hun.
    - unfold extend_post. fold size. cbv zeta. rewrite Eg, Ez in *. by apply nothing_added. }
  destruct (Z.leb_spec MaxBlockNumber (size + k)) as [Hmax|Hmax].
  { apply (wp_eq _ _ _ (Elog beyond_limit) w1); [done|]. split; [by eapply aw_pool, sp_work|]. split; [done|]. fold size. rewrite Eg. by right. }
  pose proof (extend_rest_run m0 mu pins flags extend_upto locking size s0 (take (Z.to_nat k) bs) w1 Hsp1 Hl Hp0 (conj Hse Hha) eq_refl) as Hrest.
  rewrite Hlt, Z2Nat.id in Hrest by lia. eapply wp_mono; [|by apply Hrest].
  intros [[first' bs']|e|e|] w2; [|intros (? & ? & ?)|done..]; unfold extend_post; fold size; cbv zeta; rewrite Eg; [|split_and!; auto].
  intros (-> & -> & R1 & R2 & R3 & R4 & R5). split; try done.
  destruct Hsp1 as [_ _ Hnew Hnd]. by rewrite <- (Permutation_rev (take (Z.to_nat k) bs)) in Hnew, Hnd.
Qed.

(** When a relation can be extended by [extend_by] blocks or up to [extend_upto]. *)
Record extendable (m0 : Backend) (flags extend_by extend_upto : Z) (w : World) : Prop := {
  xb_locks : held_lwlocks m0 = [];
  xb_ring : ring_gas m0;
  xb_room : candidates (Z.to_nat (pin_budget (me w) extend_by)) w;
  xb_by : 0 <= extend_by;
  xb_upto : 0 <= extend_upto < 2 ^ 32;
  xb_target : ztrue (Z.land flags EB_LOCK_TARGET) = true -> extend_upto <> InvalidBlockNumber;
  xb_fresh : fresh_blocks (shm w);
  xb_persists : forall blk, Z.of_nat (length (file (shm w) reln fork)) <= blk -> persists blk
}.

Lemma ExtendBufferedRelShared_run m0 mu pins flags extend_by extend_upto w :
  at_work m0 mu pins w -> extendable m0 flags extend_by extend_upto w ->
  wp (ExtendBufferedRelShared LockRelationForExtension UnlockRelationForExtension PageIsNew reln relpersistence fork strategy
        flags extend_by extend_upto)
    (extend_post m0 mu pins flags (pin_budget (me w) extend_by) extend_upto (shm w)) w.
Proof using Type*.
  intros Hw [Hl Hg Hc Hby Hup Htarget Hfresh Hpers]. pose proof (pin_budget_range (me w) extend_by Hby) as Hbud.
  set (budget := pin_budget (me w) extend_by) in *. unfold ExtendBufferedRelShared.
  eapply wp_step; [run (LimitAdditionalPins_run extend_by w); reflexivity|]. fold budget. apply wp_bind.
  eapply wp_mono; [|apply (extend_victims_run m0 mu pins (Z.to_nat budget) [] w)]; [|split; [exact Hw|constructor..]|done..].
  intros [bs|e|e|] w1; cbn [bind_post victims_post]; try done; [|intros (? & ? & ?); by split_and!; [..|left]].
  rewrite app_nil_r. intros (Hlen & Hsp & Hse & Hha). cbv zeta. set (locking := negb _).
  assert (length (file (shm w1) reln fork) = length (file (shm w) reln fork)) as Hsize.
  { apply (seen_length same_page PageGetLSN permanent n); [by eapply aw_pool|by eapply aw_pool, sp_work|done]. }
  assert (when locking (LockRelationForExtension reln) w1 = (Ret tt, w1)) as Hlo by (destruct locking; [apply lock_returns|done]).
  eapply wp_step; [run Hlo; reflexivity|].
  destruct (smgrnblocks_work m0 mu pins (rev bs) w1 Hsp) as (w2 & Hs2 & [[Hrun2 Hf]|[Hrun2 Hsp2]]).
  { eapply wp_bind, wp_eq; [exact Hrun2|]. cbn [bind_post]. unfold extend_post. rewrite Hs2.
    split; [by eapply aw_pool, sp_work|]. split; [done|by left]. }
  eapply wp_step; [run Hrun2; reflexivity|]. rewrite Hsize.
  apply (extend_from_run m0 mu pins flags budget extend_upto locking (shm w) bs w2); try done.
  - lia.
  - by eapply aw_pool.
  - by rewrite Hs2.
Qed.
End extend.

(** C5. Extending a relation in shared buffers, under any policy and access strategy,
    by a number of blocks or up to a size, without interference, with the extension
    lock granted, enough unpinned buffers that the policy knows of, and no buffer for
    a block behind the end of the file ([fresh_blocks]: a buffer that an extension
    left there when it failed is excluded, and with it the branch that takes such a
    buffer over or raises an error for its page).  The blocks added, right behind the end of the
    file, are as many as the caller's pin limit allows, or those missing to the
    wanted size if they are fewer ([growth]).
    If the call returns, the file has so many blocks more; each is a page of zeros
    in a buffer of its own, valid, clean, pinned once by this backend, in the
    policy's queue and locked exclusively if the flags ask for that; victims that
    turned out not to be needed are released; every other block reads as before,
    and the pool, the policy and the private bookkeeping are in order.  An error is
    a failed read or write, or the size limit of a relation, and changes no page. *)
Theorem ExtendBufferedRelShared_grows same_page `{!Equivalence same_page} `{!Server} `{!ServerLaws same_page}
    permanent n p strategy others LockRelationForExtension UnlockRelationForExtension PageIsNew reln relpersistence fork
    m0 mu pins flags extend_by extend_upto w :
  (forall r w, LockRelationForExtension r w = (Ret tt, w)) -> (forall r w, UnlockRelationForExtension r w = (Ret tt, w)) ->
  at_work same_page permanent n p strategy others m0 mu pins w ->
  extendable permanent n p strategy reln fork relpersistence m0 flags extend_by extend_upto w ->
  wp (ExtendBufferedRelShared LockRelationForExtension UnlockRelationForExtension PageIsNew reln relpersistence fork strategy
        flags extend_by extend_upto)
    (extend_post same_page permanent n p strategy others reln fork m0 mu pins flags (pin_budget (me w) extend_by) extend_upto (shm w)) w.
Proof. intros. by apply ExtendBufferedRelShared_run. Qed.

(** The pool of [cache_world], with a limit of two more pins. *)
Definition room_world : World := with_me (with_MaxProportionalPins 10 (me (cache_world []))) (cache_world []).

Lemma room_at_work :
  at_work eq (fun _ => true) 3 SieveVtable None (fun _ => 0) (me room_world) ∅ [] room_world.
Proof.
  destruct (at_idle _ _ _ _ _ _ (cache_at_rest [])) as [A1 A2 A3 A4 A5 A6 A7 A8 A9 A10]. split; try done.
  - by destruct A2.
  - by destruct A4.
Qed.

Lemma room_extendable :
  extendable (fun _ => true) 3 SieveVtable None sample_rel 0 RELPERSISTENCE_PERMANENT (me room_world) EB_LOCK_TARGET 2 6 room_world.
Proof.
  split; try done.
  - exists [1; 2]. split; [by apply (bool_decide_unpack _)|]. split; [done|].
    assert (forall x, x = 1 \/ x = 2 -> 0 <= x < 3 /\ unpinned room_world x = true /\ pq_linked (p := SieveVtable) 3 (mem room_world) x) as Hx.
    { intros x Hx. split; [lia|]. split; [by destruct Hx as [-> | ->]; vm_compute|].
      exists [0; 1; 2], 0. split; [exact cache_queue|set_solver]. }
    repeat constructor; apply Hx; auto.
  - intros blk Hblk. change (Z.of_nat (length _)) with 4 in Hblk. change (SharedBufHash _) with (SharedBufHash cache_shared). cbn.
    rewrite !lookup_insert_ne, lookup_empty; [done|..]; intros [= E]; lia.
Qed.

(** Two blocks are added up to block 6, the last one locked; buffer 2 is written. *)
Lemma ExtendBufferedRelShared_grows_witness :
  let run := ExtendBufferedRelShared (fun _ => ret tt) (fun _ => ret tt) (fun _ => true) sample_rel RELPERSISTENCE_PERMANENT 0 None
    EB_LOCK_TARGET 2 6 in
  exists w', run room_world = (Ret (4, [1; 2]), w') /\
    extended eq (fun _ => true) 3 SieveVtable None (fun _ => 0) sample_rel 0 (me room_world) ∅ [] EB_LOCK_TARGET 6 (shm room_world) 2 4 [1; 2] w'.
Proof.
  intros run. pose proof (ExtendBufferedRelShared_grows eq (fun _ => true) 3 SieveVtable None (fun _ => 0) (fun _ => ret tt) (fun _ => ret tt)
    (fun _ => true) sample_rel RELPERSISTENCE_PERMANENT 0 (me room_world) ∅ [] EB_LOCK_TARGET 2 6 room_world ltac:(reflexivity)
    ltac:(reflexivity) room_at_work room_extendable) as H. fold run in H.
  assert ((run room_world).1 = Ret (4, [1; 2])) as Hrun by (vm_compute; reflexivity).
  destruct (run room_world) as [o w'] eqn:E. cbn in Hrun. subst o. exists w'. split; [reflexivity|]. exact (wp_use _ _ _ _ _ H E).
Defined.

(** ** A block that has a buffer already

    Buffer 2 holds an empty page of block 4, behind the end of the file. *)
Definition stale_world : World :=
  upd_shm (fun s => with_SharedBufHash {[ sample_tag 0 := 0; sample_tag 1 := 1; sample_tag 4 := 2 ]}
    (with_BufferBlocks [10; 21; 0] (with_BufferDescriptors
      [cache_desc 0 cached_word; cache_desc 1 cached_word; with_tag (sample_tag 4) (cache_desc 2 cached_word)] s))) (cache_world []).

(** The extension takes over buffer 2 and unpins its victim, buffer 0, but does not
    give it back to the policy: of the two unpinned buffers a search finds only one. *)
Example extend_existing_loses_victim :
  let extend := ExtendBufferedRelShared (fun _ => ret tt) (fun _ => ret tt) (fun page => page =? 0) sample_rel RELPERSISTENCE_PERMANENT
    0 None 0 1 InvalidBlockNumber in
  (extend stale_world).1 = Ret (4, [3]) /\
  unpinned (extend stale_world).2 <$> [0; 1; 2] = [true; true; false] /\
  ((extend ;; GetVictimBuffer None) stale_world).1 = Ret 2 /\
  ((extend ;; GetVictimBuffer None ;; GetVictimBuffer None) stale_world).1 = Elog "no unpinned buffers available".
Proof. vm_compute. auto. Qed.
