(* ===== verification/ReadRun.v ===== *)
(** * Reading blocks without interference

    The steps of a read on the pool: a buffer is claimed for the read, gets the
    read's own pin, is filled, and is valid, or unread as before if the read has
    failed.  The read's pins count as pins of somebody else. *)
From S2P Require Import Prelude BufState BufTag Shmem Concurrency PrivateRefCount Ring Policy BufTable Strategy.
From S2P Require Import LocalBuf ContentLock LockWord LockProtocol LockRun Pin PinRun Reserved BufIO IORun.
From S2P Require Import Writeback Eviction DropFlush Extend Readv Read PolicyQuiet Pool FlushRun EvictRun VictimRun AllocRun ExtendRun.

(** ** State words *)

(** The I/O, the validity and the pins change, nothing else does. *)
Record moved (io valid : bool) (delta : Z) (d d' : BufferDesc) : Prop := {
  mv_tag : tag d' = tag d;
  mv_id : buf_id d' = buf_id d;
  mv_queue : lock_waiters d' = lock_waiters d;
  mv_wf : wf_state (state d');
  mv_locked : flag (state d') BM_LOCKED = false;
  mv_io : flag (state d') BM_IO_IN_PROGRESS = io;
  mv_valid : flag (state d') BM_VALID = valid;
  mv_dirty : flag (state d') BM_DIRTY = flag (state d) BM_DIRTY;
  mv_tagged : flag (state d') BM_TAG_VALID = flag (state d) BM_TAG_VALID;
  mv_perm : flag (state d') BM_PERMANENT = flag (state d) BM_PERMANENT;
  mv_ckpt : flag (state d') BM_CHECKPOINT_NEEDED = flag (state d) BM_CHECKPOINT_NEEDED;
  mv_just : flag (state d') BM_JUST_DIRTIED = flag (state d) BM_JUST_DIRTIED;
  mv_lock : lock_field (state d') = lock_field (state d);
  mv_waiters : flag (state d') BM_LOCK_HAS_WAITERS = flag (state d) BM_LOCK_HAS_WAITERS;
  mv_wake : flag (state d') BM_LOCK_WAKE_IN_PROGRESS = flag (state d) BM_LOCK_WAKE_IN_PROGRESS;
  mv_pinwait : flag (state d') BM_PIN_COUNT_WAITER = flag (state d) BM_PIN_COUNT_WAITER;
  mv_count : refcount (state d') = refcount (state d) + delta
}.

Lemma moved_claim d :
  wf_state (state d) -> flag (state d) BM_LOCKED = false ->
  moved true (flag (state d) BM_VALID) 0 d (with_state (Z.lor (state d) BM_IO_IN_PROGRESS) d).
Proof.
  intros Hwf Hl. split; try done; cbn; try (flags; done).
  - by apply wf_lor.
  - unfold lock_field. by rewrite field_lor.
  - rewrite Z.add_0_r, !refcount_field. by rewrite field_lor.
Qed.

(** A pin more or less, on the same bits above. *)
Lemma moved_quot d s' delta io_ref :
  flag (state d) BM_LOCKED = false -> wf_state s' -> refcount s' = refcount (state d) + delta -> s' / 2 ^ 18 = state d / 2 ^ 18 ->
  moved (flag (state d) BM_IO_IN_PROGRESS) (flag (state d) BM_VALID) delta d (with_state s' (with_io_wref io_ref d)).
Proof.
  intros Hl Hwf Hr Hq. assert (s' / 2 ^ 22 = state d / 2 ^ 22) as Hq22.
  { change (2 ^ 22) with (2 ^ 18 * 2 ^ 4). by rewrite <- !Z.div_div, Hq by lia. }
  split; try done; cbn; try (by apply quot22_flag).
  - rewrite <- Hl. by apply quot22_flag.
  - by apply quot22_lock.
Qed.

(** The end of the read gives its pin back. *)
Definition done_word (bits s : Z) : Z := unpinned_word (io_done_word false bits s).

Lemma unlock_done bits s :
  unlock_word (Z.lor s BM_LOCKED) bits (Z.lor BM_IO_IN_PROGRESS BM_IO_ERROR) (-1) = done_word bits s.
Proof. done. Qed.

Lemma moved_done d bits valid :
  wf_state (state d) -> flag (state d) BM_VALID = false -> 0 < refcount (state d) ->
  bits = (if valid : bool then BM_VALID else BM_IO_ERROR) ->
  moved false valid (-1) d (with_state (done_word bits (state d)) (with_io_wref None d)).
Proof.
  intros Hwf Hv Hr Eb. set (s1 := io_done_word false bits (state d)).
  set (unset := Z.lor BM_IO_IN_PROGRESS BM_IO_ERROR).
  assert (s1 = unlock_word (Z.lor (state d) BM_LOCKED) bits unset 0) as E by done.
  assert (wf_state bits /\ field 0 18 bits = 0 /\ field 34 20 bits = 0) as (Hb & Hb1 & Hb2) by (subst bits; by destruct valid).
  assert (forall G k `{!IsBit G k}, flag BM_LOCKED G = false ->
    flag s1 G = (flag (state d) G || flag bits G) && negb (flag unset G)) as Hf.
  { intros G k ? Hg. rewrite E. by apply unlock_ext_flag. }
  assert (wf_state s1) as Hwf1 by (rewrite E; by apply wf_unlock_ext).
  assert (refcount s1 = refcount (state d)) as Hr1 by (rewrite E, !refcount_field; by apply unlock_ext_field).
  assert (flag s1 BM_LOCKED = false) as Hl1 by (rewrite E, unlock_ext_word by done; by flags).
  assert (lock_field s1 = lock_field (state d)) as Hlf by (unfold lock_field; rewrite E; by apply unlock_ext_field).
  destruct (unpin_word s1 Hwf1) as (Hwf2 & Hr2 & Hq2); [lia|].
  destruct (moved_quot (with_state s1 d) (unpinned_word s1) (-1) None Hl1 Hwf2) as [M1 M2 M3 M4 M5 M6 M7 M8 M9 M10 M11 M12 M13 M14 M15 M16 M17];
    [change (refcount (unpinned_word s1) = refcount s1 + -1); lia|done|].
  assert (forall G k `{!IsBit G k}, flag BM_LOCKED G = false -> flag bits G = false -> flag unset G = false -> flag s1 G = flag (state d) G) as Hk.
  { intros G k ? H1 H2 H3. by rewrite (Hf G k _ H1), H2, H3, orb_false_r, andb_true_r. }
  split; try done; (etrans; [eassumption|]); try (by apply (Hk _ _ _); [|subst bits; destruct valid|]).
  - change (flag s1 BM_IO_IN_PROGRESS = false). rewrite (Hf BM_IO_IN_PROGRESS _ _) by done. apply andb_false_r.
  - change (flag s1 BM_VALID = valid). rewrite (Hf BM_VALID _ _), Hv, Eb by done. by destruct valid.
  - done.
  - change (refcount s1 + -1 = refcount (state d) + -1). lia.
Qed.

(** ** Buffers of a read *)

(** Only the buffers [bs] changed, and no page that anybody sees. *)
Record step_on (same_page : relation Z) (bs : list Z) (w w' : World) : Prop := {
  so_seen : same_pages same_page (shm w) (shm w');
  so_hash : SharedBufHash (shm w') = SharedBufHash (shm w);
  so_disk : smgr_disk (shm w') = smgr_disk (shm w);
  so_mem : mem w' = mem w;
  so_descs : forall x, x + 1 ∉ bs -> lookupZ (BufferDescriptors (shm w')) x = lookupZ (BufferDescriptors (shm w)) x;
  so_blocks : forall x, x + 1 ∉ bs -> lookupZ (BufferBlocks (shm w')) x = lookupZ (BufferBlocks (shm w)) x
}.

#[export] Instance step_on_preorder same_page `{!Equivalence same_page} bs : PreOrder (step_on same_page bs).
Proof.
  split; [by split|]. intros w1 w2 w3 [A1 A2 A3 A4 A5 A6] [B1 B2 B3 B4 B5 B6].
  split; [by etrans|congruence..| |]; intros x Hx; [by rewrite B5, A5|by rewrite B6, A6].
Qed.
Lemma step_on_sym same_page `{!Equivalence same_page} bs w w' : step_on same_page bs w w' -> step_on same_page bs w' w.
Proof. intros [A1 A2 A3 A4 A5 A6]. split; try done; intros x Hx; [by rewrite A5|by rewrite A6]. Qed.
Lemma step_on_weaken same_page bs bs' w w' : bs ⊆ bs' -> step_on same_page bs w w' -> step_on same_page bs' w w'.
Proof. intros Hs [A1 A2 A3 A4 A5 A6]. split; try done; intros x Hx; [apply A5|apply A6]; set_solver. Qed.

(** ** The asynchronous I/O subsystem

    What a read system call says it has read are the blocks of the file; it may
    stop early. *)
Definition kernel_reads (td : PgAioTargetData) (s : Shared) (r : ReadResult) : Prop :=
  rr_result r <= td_nblocks td * BLCKSZ /\
  forall i, 0 <= i -> (i + 1) * BLCKSZ <= rr_result r ->
    exists q, lookupZ (rr_pages r) i = Some (Some q) /\
      disk_page s (block_tag (td_rlocator td) (td_forkNum td) (td_blockNum td + i)) = Some q.

(** No I/O is staged, a handle is free, and a read that the caller executed itself
    is complete. *)
Class AioLaws `{Aio} := {
  ai_staged : forall w, pgaio_have_staged w = (Ret false, w);
  ai_acquire : forall w, exists ioh, pgaio_io_acquire_nb w = (Ret (Some ioh), w);
  ai_done : forall wref w, pgaio_wref_check_done wref w = (Ret true, w);
  ai_read : forall w td, td_is_temp td = false -> 0 < td_nblocks td -> kernel_reads td (shm w) (pg_preadv w td)
}.

(** Pins of reads on the buffers [bs]. *)
Definition with_reads (bs : list Z) (others : Z -> Z) (x : Z) : Z := if decide (x + 1 ∈ bs) then others x + 1 else others x.

Lemma with_reads_cons b bs others x :
  b ∉ bs -> with_reads (b :: bs) others x = with_reads bs others x + (if decide (x = b - 1) then 1 else 0).
Proof.
  intros Hb. unfold with_reads. destruct (decide (x = b - 1)) as [->|Hne].
  - rewrite decide_True, decide_False; [done|by replace (b - 1 + 1) with b by lia|]. replace (b - 1 + 1) with b by lia. constructor.
  - rewrite Z.add_0_r. assert (x + 1 ∈ b :: bs <-> x + 1 ∈ bs) as Hiff by (rewrite elem_of_cons; split; [intros [|]; [lia|done]|by right]).
    destruct (decide (x + 1 ∈ bs)); [rewrite decide_True by tauto|rewrite decide_False by tauto]; done.
Qed.
Lemma with_reads_out b bs others : b ∉ bs -> with_reads bs others (b - 1) = others (b - 1).
Proof. intros Hb. unfold with_reads. rewrite decide_False; [done|]. by replace (b - 1 + 1) with b by lia. Qed.

Section reads.
Context (same_page : relation Z) `{!Equivalence same_page} `{!Server} `{!ServerLaws same_page}.
Context (permanent : BufferTag -> bool).
Context (n : Z) (p : EvictionVtablePtr) (strategy : BufferAccessStrategy).
Local Abbreviation pool := (pool_ok same_page PageGetLSN permanent n).
Local Abbreviation work := (at_work same_page permanent n p strategy).
Local Abbreviation seen := (same_pages same_page).
Local Abbreviation step := (step_on same_page).

Lemma moved_alike d d' io delta :
  flag (state d) BM_LOCKED = false -> moved io (flag (state d) BM_VALID) delta d d' -> alike d d'.
Proof using Type. intros Hl [M1 M2 M3 M4 M5 M6 M7 M8 M9 M10 M11 M12 M13 M14 M15 M16 M17]. split; congruence. Qed.

(** The page is there. *)
Definition page_there (w : World) (v : Z) (d : BufferDesc) : Prop :=
  flag (state d) BM_VALID = false /\ flag (state d) BM_TAG_VALID = true /\ flag (state d) BM_DIRTY = false /\
  exists a f, lookupZ (BufferBlocks (shm w)) v = Some a /\ disk_page (shm w) (tag d) = Some f /\ same_page a f.

Lemma moved_pool w v d d' io valid delta :
  pool (shm w) -> desc_at w v d -> moved io valid delta d d' -> 0 < refcount (state d') ->
  valid = flag (state d) BM_VALID \/ valid = true /\ page_there w v d ->
  pool (redesc v d' (shm w)) /\ seen (shm w) (redesc v d' (shm w)).
Proof using Type*.
  intros Hp Hd Hm Hr [->|[-> (Hv & Ht & Hdi & a & f & Ha & Hf & Hsp)]]; pose proof (pl_desc _ _ _ _ _ Hp v d Hd) as Hok.
  - assert (pool_alike (shm w) (redesc v d' (shm w))) as Hal.
    { eapply redesc_alike; [done|done|by eapply moved_alike; [apply Hok|]|lia]. }
    split; [by eapply pool_alike_ok|]. by apply (alike_cache same_page permanent n).
  - destruct Hm as [M1 M2 M3 M4 M5 M6 M7 M8 M9 M10 M11 M12 M13 M14 M15 M16 M17].
    apply (filled_ok same_page PageGetLSN permanent n v d d' a f (shm w)); try done. split; congruence.
Qed.

Lemma moved_work o o' ios ios' m0 mu pins w v d d' io valid delta :
  work o (with_owned_ios ios m0) mu pins w -> desc_at w v d -> moved io valid delta d d' -> 0 < refcount (state d') ->
  valid = flag (state d) BM_VALID \/ valid = true /\ page_there w v d ->
  (forall x, o' x = o x + (if decide (x = v) then delta else 0)) -> 0 <= o' v < 2 ^ 18 - 1 ->
  let w' := with_me (with_owned_ios ios' (me w)) (set_desc v d' w) in
  work o' (with_owned_ios ios' m0) mu pins w' /\ desc_at w' v d' /\ step [v + 1] w w'.
Proof using Type*.
  intros Hw Hd Hm Hr Hv Ho Hov w'. destruct (moved_pool w v d d' io valid delta) as [Hp Hse]; try done; [by eapply aw_pool|].
  destruct Hw as [A1 A2 A3 A4 A5 A6 A7 [S1 S2 S3 S4] [C1 C2] A10]. split_and!.
  - split; try done; [by destruct A2|by destruct A3|by destruct A4|]. split.
    + intros x dx Hx. apply (desc_of_redesc v d' (shm w) x dx d Hd) in Hx as [[-> ->]|[Hne Hx]]; rewrite Ho.
      * rewrite decide_True, (mv_count _ _ _ _ _ Hm), (C1 v d Hd) by done. lia.
      * rewrite decide_False, (C1 x dx Hx) by done. lia.
    + intros x. destruct (decide (x = v)) as [->|Hne]; [done|]. rewrite Ho, decide_False, Z.add_0_r by done. apply C2.
  - by apply (desc_at_set_eq w _ d).
  - split; try done. intros x Hx. cbn. rewrite lookupZ_insertZ_ne; [done|]. intros ->. set_solver.
Qed.

(** A descriptor of the block, in one of the states of a read. *)
Record slot (t : BufferTag) (io valid : bool) (w : World) (b : Z) (d : BufferDesc) : Prop := {
  sl_desc : desc_at w (b - 1) d;
  sl_tag : tag d = t;
  sl_tagged : flag (state d) BM_TAG_VALID = true;
  sl_io : flag (state d) BM_IO_IN_PROGRESS = io;
  sl_valid : flag (state d) BM_VALID = valid;
  sl_clean : flag (state d) BM_DIRTY = false;
  sl_lock : lock_field (state d) = 0;
  sl_waiters : flag (state d) BM_LOCK_HAS_WAITERS = false;
  sl_wake : flag (state d) BM_LOCK_WAKE_IN_PROGRESS = false;
  sl_pinwait : flag (state d) BM_PIN_COUNT_WAITER = false;
  sl_queue : lock_waiters d = []
}.
Definition in_slot (t : BufferTag) (io valid : bool) (w : World) (b : Z) : Prop := exists d, slot t io valid w b d.

Lemma slot_moved t io valid io' valid' delta w w' b d d' :
  slot t io valid w b d -> moved io' valid' delta d d' -> desc_at w' (b - 1) d' -> slot t io' valid' w' b d'.
Proof using Type.
  intros [S1 S2 S3 S4 S5 S6 S7 S8 S9 S10 S11] [M1 M2 M3 M4 M5 M6 M7 M8 M9 M10 M11 M12 M13 M14 M15 M16 M17] Hd'. split; congruence.
Qed.
Lemma slot_idle t valid w b d : slot t false valid w b d -> idle d.
Proof using Type. intros [S1 S2 S3 S4 S5 S6 S7 S8 S9 S10 S11]. by split. Qed.
Lemma slot_of_idle t valid w b d :
  desc_at w (b - 1) d -> tag d = t -> flag (state d) BM_TAG_VALID = true -> flag (state d) BM_VALID = valid ->
  flag (state d) BM_DIRTY = false -> idle d -> slot t false valid w b d.
Proof using Type. intros H1 H2 H3 H4 H5 []. by split. Qed.
Lemma slot_step bs t io valid w w' b : step bs w w' -> b ∉ bs -> in_slot t io valid w b -> in_slot t io valid w' b.
Proof using Type.
  intros Hs Hb (d & [S1 S2 S3 S4 S5 S6 S7 S8 S9 S10 S11]). exists d. split; try done. unfold desc_at in *.
  rewrite (so_descs _ _ _ _ Hs); [done|]. by replace (b - 1 + 1) with b by lia.
Qed.

(** A pinned buffer has a pin. *)
Lemma work_pinned o m0 mu pins w b e d :
  work o m0 mu pins w -> mu !! b = Some e -> desc_at w (b - 1) d -> 0 < refcount (state d) /\ o (b - 1) < refcount (state d).
Proof using Type.
  intros Hw Hmu Hd. destruct (aw_counts _ _ _ _ _ _ _ _ _ _ Hw) as [C1 C2]. rewrite (C1 _ _ Hd). specialize (C2 (b - 1)).
  unfold held. replace (b - 1 + 1) with b by lia. rewrite Hmu. lia.
Qed.

(** ** The steps *)
Lemma claim_run o ios m0 mu pins w b e t nowait :
  work o (with_owned_ios ios m0) mu pins w -> mu !! b = Some e -> in_slot t false false w b ->
  exists w', StartBufferIO pgaio_wref_wait (b - 1) true nowait w = (Ret true, w') /\
    work o (with_owned_ios (b :: ios) m0) mu pins w' /\ in_slot t true false w' b /\ step [b] w w'.
Proof using Type*.
  intros Hw Hmu (d & Hs). pose proof (sl_desc _ _ _ _ _ _ Hs) as Hd. pose proof (aw_desc _ _ _ _ _ _ _ _ _ _ _ _ Hw Hd) as Hok.
  destruct (work_pinned _ _ _ _ _ _ _ _ Hw Hmu Hd) as [Hr _].
  destruct (StartBufferIO_run pgaio_wref_wait w (b - 1) d true nowait) as (w' & Hrun & Hw').
  { split; [apply Hw|by eapply aw_pos|done|apply Hok|apply Hok]. } { left. apply Hs. }
  unfold io_needed in *. rewrite (sl_io _ _ _ _ _ _ Hs), (sl_valid _ _ _ _ _ _ Hs) in Hrun, Hw'. cbn [negb andb] in Hrun, Hw'.
  destruct Hw' as (s' & -> & ->). rewrite (do_id _ _ _ _ _ Hok) in Hrun. replace (b - 1 + 1) with b in Hrun by lia.
  rewrite (kp_ios _ _ (aw_keeps _ _ _ _ _ _ _ _ _ _ Hw)) in Hrun. cbn [owned_ios with_owned_ios] in Hrun.
  pose proof (moved_claim d (do_wf _ _ _ _ _ Hok) (do_unlocked _ _ _ _ _ Hok)) as Hm. set (d' := with_state _ d) in *.
  destruct (moved_work o o ios (b :: ios) m0 mu pins w (b - 1) d d' true (flag (state d) BM_VALID) 0) as (Hw' & Hd' & Hst); try done.
  { rewrite (mv_count _ _ _ _ _ Hm). lia. } { by left. } { intros x. case_decide; lia. } { apply (ps_others _ _ _ (aw_counts _ _ _ _ _ _ _ _ _ _ Hw)). }
  rewrite (sl_valid _ _ _ _ _ _ Hs) in Hm. eexists. split; [exact Hrun|]. split; [exact Hw'|]. split; [eexists; by eapply slot_moved|].
  by replace (b - 1 + 1) with b in Hst by lia.
Qed.

(** The read gets its pin. *)
Lemma stage_raw w b d t wref ios' :
  unlocked w (b - 1) d -> slot t true false w b d -> 0 < refcount (state d) -> remove_one b (owned_ios (me w)) = Some ios' ->
  stage_buffer wref false false b w = (Ret tt, with_me (with_owned_ios ios' (me w))
    (set_desc (b - 1) (with_state (pinned_word (state d)) (with_io_wref (Some wref) d)) w)).
Proof using Type.
  intros [Hq Hg Hd Hwf Hl] Hs Hr Hrm. set (v := b - 1) in *. set (d1 := with_state (Z.lor (state d) BM_LOCKED) d).
  assert (desc_at (set_desc v d1 w) v d1) as Hd1 by (by apply (desc_at_set_eq w _ d)).
  set (d2 := with_io_wref (Some wref) d1). set (w2 := set_desc v d2 (set_desc v d1 w)).
  assert (desc_at w2 v d2) as Hd2 by (by apply (desc_at_set_eq _ _ d1)).
  unfold stage_buffer, GetBufferDescriptor. fold v. run (LockBufHdr_quiet w Hq Hg v d Hd Hl). fold d1.
  assert (forall G k `{!IsBit G k}, flag BM_LOCKED G = false -> flag (Z.lor (state d) BM_LOCKED) G = flag (state d) G) as Hf
    by (intros G k ? HG; by apply locked_flag).
  rewrite c_assert_ok by (by rewrite (Hf BM_TAG_VALID _ _), (sl_tagged _ _ _ _ _ _ Hs)).
  rewrite bind_assoc, c_assert_ok by (by rewrite (Hf BM_VALID _ _), (sl_valid _ _ _ _ _ _ Hs)).
  rewrite c_assert_ok by (by rewrite (Hf BM_DIRTY _ _), (sl_clean _ _ _ _ _ _ Hs)). cbn [negb when].
  rewrite c_assert_ok by (by rewrite (Hf BM_IO_IN_PROGRESS _ _), (sl_io _ _ _ _ _ _ Hs)).
  rewrite c_assert_ok by (rewrite get_refcount, locked_refcount by (by apply wf_locked); apply Z.leb_le; lia).
  run (deref_run (set_desc v d1 w) v d1 Hd1). rewrite bind_assoc.
  assert (store_desc v d2 (set_desc v d1 w) = (Ret tt, w2)) as Hstore by done. run Hstore.
  rewrite bind_assoc. run (UnlockBufHdrExt_quiet w2 Hq Hg v d2 0 0 1 Hd2 (flag_locked _)).
  change (state d2) with (Z.lor (state d) BM_LOCKED). rewrite unlock_pin by done. unfold w2. rewrite !set_desc_set_desc, !bind_ret_l.
  cbn [andb when]. rewrite bind_ret_l. unfold ResourceOwnerForgetBufferIO, get_me, gets, bind at 1. cbn [me set_desc upd_shm with_shm].
  by rewrite Hrm.
Qed.

Lemma stage_run others bs ios ios' m0 mu pins w b e t wref :
  work (with_reads bs others) (with_owned_ios ios m0) mu pins w -> mu !! b = Some e -> in_slot t true false w b ->
  b ∉ bs -> others (b - 1) < 2 ^ 18 - 2 -> remove_one b ios = Some ios' ->
  exists w', stage_buffer wref false false b w = (Ret tt, w') /\
    work (with_reads (b :: bs) others) (with_owned_ios ios' m0) mu pins w' /\ in_slot t true false w' b /\ step [b] w w'.
Proof using Type*.
  intros Hw Hmu (d & Hs) Hb Hroom Hrm. pose proof (sl_desc _ _ _ _ _ _ Hs) as Hd. pose proof (aw_desc _ _ _ _ _ _ _ _ _ _ _ _ Hw Hd) as Hok.
  destruct (work_pinned _ _ _ _ _ _ _ _ Hw Hmu Hd) as [Hr _]. pose proof (do_wf _ _ _ _ _ Hok) as Hwf.
  pose proof (do_unlocked _ _ _ _ _ Hok) as Hl. pose proof (with_reads_out b bs others Hb) as Eo.
  assert (refcount (state d) < 2 ^ 18 - 1) as Hlt.
  { rewrite (ps_count _ _ _ (aw_counts _ _ _ _ _ _ _ _ _ _ Hw) _ _ Hd), Eo. pose proof (held_range mu (b - 1)). lia. }
  destruct (pin_word (state d) Hwf Hlt) as (Hwf' & Hr' & Hq').
  pose proof (moved_quot d (pinned_word (state d)) 1 (Some wref) Hl Hwf' Hr' Hq') as Hm.
  assert (owned_ios (me w) = ios) as Eio by exact (kp_ios _ _ (aw_keeps _ _ _ _ _ _ _ _ _ _ Hw)).
  pose proof (stage_raw w b d t wref ios' ltac:(split; [apply Hw|by eapply aw_pos|done..]) Hs Hr ltac:(by rewrite Eio)) as Hrun.
  set (d' := with_state _ _) in Hm, Hrun. rewrite (sl_io _ _ _ _ _ _ Hs) in Hm.
  destruct (moved_work (with_reads bs others) (with_reads (b :: bs) others) ios ios' m0 mu pins w (b - 1) d d' true (flag (state d) BM_VALID) 1) as (Hw' & Hd' & Hst); try done.
  { change (0 < refcount (pinned_word (state d))). lia. } { by left. } { intros x. by apply with_reads_cons. }
  { rewrite with_reads_cons, decide_True by done. pose proof (ps_others _ _ _ (aw_counts _ _ _ _ _ _ _ _ _ _ Hw) (b - 1)). lia. }
  eexists. split; [exact Hrun|]. split; [exact Hw'|]. split; [|by replace (b - 1 + 1) with b in Hst by lia].
  eexists. eapply slot_moved; [exact Hs| |exact Hd']. by rewrite (sl_valid _ _ _ _ _ _ Hs) in Hm.
Qed.

(** The page arrives. *)
Lemma store_run o m0 mu pins w b t io page :
  work o m0 mu pins w -> in_slot t io false w b ->
  exists w', write_block b page w = (Ret tt, w') /\ work o m0 mu pins w' /\ in_slot t io false w' b /\ step [b] w w' /\
    lookupZ (BufferBlocks (shm w')) (b - 1) = Some page.
Proof using Type*.
  intros Hw (d & Hs). pose proof (sl_desc _ _ _ _ _ _ Hs) as Hd. pose proof (aw_range _ _ _ _ _ _ _ _ _ _ _ _ Hw Hd) as Hv.
  destruct (at_work_reblock same_page permanent n p strategy o m0 mu pins w (b - 1) d page Hw Hd (sl_valid _ _ _ _ _ _ Hs)) as [Hw' Hse].
  destruct (lookupZ_lt (BufferBlocks (shm w)) (b - 1)) as [old Hold].
  { by rewrite (pl_blocks _ _ _ _ _ (aw_pool _ _ _ _ _ _ _ _ _ _ Hw)). }
  eexists. split; [|split; [exact Hw'|split; [|split]]].
  - unfold write_block, BufferIsValid, BufferIsLocal, InvalidBuffer, GetBufferDescriptor.
    rewrite c_assert_ok by (apply negb_true_iff, Z.eqb_neq; lia). rewrite (proj2 (Z.ltb_ge b 0)) by lia.
    by run (BufHdrGetBlock_run w (b - 1) old Hold).
  - exists d. by destruct Hs.
  - split; try done. intros x Hx. cbn. rewrite lookupZ_insertZ_ne; [done|]. intros <-. apply Hx. replace (b - 1 + 1) with b by lia. constructor.
  - cbn. eapply lookupZ_insertZ_eq, lookupZ_Some, Hold.
Qed.

(** The end of the read of a buffer. *)
Lemma terminate_raw w v d bits :
  unlocked w v d -> flag (state d) BM_IO_IN_PROGRESS = true -> flag (state d) BM_PIN_COUNT_WAITER = false -> 0 < refcount (state d) ->
  TerminateBufferIO v false bits false true w =
    (Ret tt, set_desc v (with_state (done_word bits (state d)) (with_io_wref None d)) w).
Proof using Type.
  intros [Hq Hg Hd Hwf Hl] Hio Hpw Hr. unfold TerminateBufferIO.
  run (LockBufHdr_quiet w Hq Hg v d Hd Hl). set (d1 := with_state (Z.lor (state d) BM_LOCKED) d).
  assert (desc_at (set_desc v d1 w) v d1) as Hd1 by (by apply (desc_at_set_eq w _ d)).
  rewrite c_assert_ok by (by rewrite locked_flag). cbn [andb]. cbv zeta.
  rewrite bind_assoc, c_assert_ok by (rewrite get_refcount, locked_refcount by (by apply wf_locked); apply Z.ltb_lt; lia).
  rewrite bind_assoc. run (deref_run (set_desc v d1 w) v d1 Hd1). rewrite bind_assoc.
  set (d2 := with_io_wref None d1). set (w2 := set_desc v d2 (set_desc v d1 w)).
  assert (store_desc v d2 (set_desc v d1 w) = (Ret tt, w2)) as Hstore by done. run Hstore. rewrite bind_ret_l.
  assert (desc_at w2 v d2) as Hd2 by (by apply (desc_at_set_eq _ _ d1)).
  run (UnlockBufHdrExt_quiet w2 Hq Hg v d2 bits (Z.lor BM_IO_IN_PROGRESS BM_IO_ERROR) (-1) Hd2 (flag_locked _)).
  change (state d2) with (Z.lor (state d) BM_LOCKED). rewrite unlock_done, bind_ret_l. unfold w2. rewrite !set_desc_set_desc.
  rewrite locked_flag, Hpw by done. done.
Qed.

Lemma finish_run others bs ios m0 mu pins w b e t valid :
  work (with_reads (b :: bs) others) (with_owned_ios ios m0) mu pins w -> mu !! b = Some e -> in_slot t true false w b -> b ∉ bs -> 0 <= others (b - 1) ->
  (valid = true -> exists a f, lookupZ (BufferBlocks (shm w)) (b - 1) = Some a /\ disk_page (shm w) t = Some f /\ same_page a f) ->
  exists w', TerminateBufferIO (b - 1) false (if valid : bool then BM_VALID else BM_IO_ERROR) false true w = (Ret tt, w') /\
    work (with_reads bs others) (with_owned_ios ios m0) mu pins w' /\ in_slot t false valid w' b /\ step [b] w w' /\
    BufferBlocks (shm w') = BufferBlocks (shm w).
Proof using Type*.
  intros Hw Hmu (d & Hs) Hb Ho0 Hpage. pose proof (sl_desc _ _ _ _ _ _ Hs) as Hd. pose proof (aw_desc _ _ _ _ _ _ _ _ _ _ _ _ Hw Hd) as Hok.
  destruct (work_pinned _ _ _ _ _ _ _ _ Hw Hmu Hd) as [Hr Hgt].
  pose proof (moved_done d _ valid (do_wf _ _ _ _ _ Hok) (sl_valid _ _ _ _ _ _ Hs) Hr eq_refl) as Hm. set (bits := if valid then _ else _) in *.
  pose proof (terminate_raw w (b - 1) d bits ltac:(split; [apply Hw|by eapply aw_pos|done|apply Hok..]) (sl_io _ _ _ _ _ _ Hs)
    (sl_pinwait _ _ _ _ _ _ Hs) Hr) as Hrun.
  pose proof (with_reads_cons b bs others (b - 1) Hb) as Eo. rewrite decide_True in Eo by done.
  pose proof (ps_others _ _ _ (aw_counts _ _ _ _ _ _ _ _ _ _ Hw) (b - 1)) as Hoth.
  pose proof (with_reads_out b bs others Hb) as Eo2.
  set (d' := with_state _ _) in Hm, Hrun.
  destruct (moved_work (with_reads (b :: bs) others) (with_reads bs others) ios ios m0 mu pins w (b - 1) d d' false valid (-1)) as (Hw' & Hd' & Hst); try done.
  { rewrite (mv_count _ _ _ _ _ Hm). lia. }
  { destruct valid; [|left; symmetry; apply Hs]. right. split; [done|]. destruct Hs. split_and!; try done. subst t. by apply Hpage. }
  { intros x. rewrite (with_reads_cons b bs others x Hb). case_decide; lia. } { lia. }
  assert (with_me (with_owned_ios ios (me w)) (set_desc (b - 1) d' w) = set_desc (b - 1) d' w) as Ew.
  { pose proof (kp_ios _ _ (aw_keeps _ _ _ _ _ _ _ _ _ _ Hw)) as E. cbn in E. rewrite <- E. by destruct w as [? [] ?]. }
  rewrite Ew in *. eexists. split; [exact Hrun|]. split; [exact Hw'|]. split; [eexists; by eapply slot_moved|].
  split; [by replace (b - 1 + 1) with b in Hst by lia|done].
Qed.

(** ** Reports *)
Lemma report_shared r td w level :
  result_id r = PGAIO_HCB_SHARED_BUFFER_READV -> result_status r = PGAIO_RS_ERROR \/ result_status r = PGAIO_RS_WARNING ->
  zeroed_any (buffer_readv_decode_error r) = false ->
  (result_status r = PGAIO_RS_WARNING -> ignored_any (buffer_readv_decode_error r) = true) ->
  exists msg, pgaio_result_report r td level w = ereport level msg w.
Proof using Type.
  intros Hid Hst Hz Hi. unfold pgaio_result_report. rewrite Hid.
  rewrite !c_assert_ok by (by destruct Hst as [-> | ->]). unfold buffer_readv_report. cbv zeta. rewrite Hz. cbn [andb].
  destruct Hst as [-> | E].
  - rewrite bool_decide_eq_true_2, c_assert_ok by done. by eexists.
  - rewrite E. rewrite bool_decide_eq_false_2 by done. rewrite (Hi E). by eexists.
Qed.
Lemma report_md r td w level :
  result_id r = PGAIO_HCB_MD_READV -> result_status r <> PGAIO_RS_UNKNOWN -> result_status r <> PGAIO_RS_OK ->
  pgaio_result_report r td level w = ereport level "could not read blocks" w.
Proof using Type.
  intros Hid H1 H2. unfold pgaio_result_report. rewrite Hid, !c_assert_ok by (by apply negb_true_iff, bool_decide_eq_false_2). done.
Qed.
Lemma ereport_quiet level msg w : level <> ERROR -> ereport level msg w = (Ret tt, w).
Proof using Type. intros Hl. unfold ereport. by rewrite bool_decide_eq_false_2. Qed.

(** What a read reports of pages none of which was zeroed. *)
Lemma encode_report td r ia ec cc fe fz fi w :
  0 <= ec -> 0 < ec \/ ia = true -> 0 <= cc ->
  ec <= READV_COUNT_MASK -> cc <= READV_COUNT_MASK -> 0 <= fe <= READV_COUNT_MASK -> 0 <= fi <= READV_COUNT_MASK ->
  exists bits, let r' := mkPgAioResult PGAIO_HCB_SHARED_BUFFER_READV (if 0 <? ec then PGAIO_RS_ERROR else PGAIO_RS_WARNING) bits (result r) in
    buffer_readv_encode_error r false false ia ec 0 cc fe fz fi w = (Ret r', w) /\
    forall level' w', exists msg, pgaio_result_report r' td level' w' = ereport level' msg w'.
Proof using Type.
  intros He Hor Hc He1 Hc1 Hfe Hfi.
  pose proof (encode_run r false false ia ec 0 cc fe fz fi w ltac:(done)) as Hrun. cbv zeta in Hrun.
  set (e := readv_summary _ _ _ _ _ _ _ _) in Hrun.
  assert (0 <= zeroed_or_error_count e <= READV_COUNT_MASK) as H1 by (cbn; destruct (0 <? ec); [lia|done]).
  assert (0 <= first_off e <= READV_COUNT_MASK) as H2 by (cbn; by destruct (0 <? ec)).
  assert (readv_fits e = true) as Hf.
  { unfold readv_fits. rewrite !(proj2 (Z.leb_le _ _)); [done|..]; [apply H2|exact Hc1|apply H1]. }
  rewrite Hf in Hrun. destruct Hrun as (bits & Hrun & Hdec); [apply H1|done|apply H2|]. exists bits. split; [exact Hrun|].
  intros level' w'. apply report_shared; [done|cbn; destruct (0 <? ec); auto|by rewrite Hdec|]. rewrite Hdec. cbn.
  destruct (Z.ltb_spec 0 ec); [done|]. intros _. destruct Hor; [lia|done].
Qed.

(** The check of a page that is not to be zeroed. *)
Context `{!Aio}.
Lemma check_page_run td off b flags blk page w v ck :
  0 < b -> lookupZ (BufferBlocks (shm w)) (b - 1) = Some page -> 0 <= off <= READV_COUNT_MASK ->
  PageIsVerified page blk (ztrue (Z.land flags READ_BUFFERS_IGNORE_CHECKSUM_FAILURES)) = (v, ck) ->
  v = true \/ ztrue (Z.land flags READ_BUFFERS_ZERO_ON_ERROR) = false ->
  check_page td off b flags false blk w = (Ret (mkReadvOne (negb v) ck (v && ck) false), w).
Proof using Type.
  intros Hb Hp Hoff Hpv Hz. unfold check_page. cbv zeta.
  assert (read_block b w = (Ret page, w)) as Hread.
  { unfold read_block, BufferIsValid, BufferIsLocal, InvalidBuffer, GetBufferDescriptor.
    rewrite c_assert_ok by (apply negb_true_iff, Z.eqb_neq; lia). rewrite (proj2 (Z.ltb_ge b 0)) by lia.
    by apply BufHdrGetBlock_run. }
  run Hread. rewrite Hpv. set (one := mkReadvOne (negb v) ck (v && ck) false).
  assert ((if negb v
    then if ztrue (Z.land flags READ_BUFFERS_ZERO_ON_ERROR) then write_block b 0 ;; ret (mkReadvOne false ck false true)
      else ret (mkReadvOne true ck false false) else ret (mkReadvOne false ck ck false)) w = (Ret one, w)) as Hone.
  { destruct v; [done|]. destruct Hz as [|E]; [done|]. by rewrite E. }
  run Hone. subst one. cbn [buffer_invalid failed_checksum ignored_checksum zeroed_buffer]. rewrite orb_false_r.
  destruct (negb v || ck) eqn:E; [|done]. cbn [when].
  destruct (encode_report td (mkPgAioResult PGAIO_HCB_INVALID PGAIO_RS_UNKNOWN 0 0) (v && ck) (Z.b2z (negb v)) (if ck then 1 else 0) off off off w) as (bits & Hrun & Hrep); try done; [by destruct v|destruct v; [by right|by left]|by destruct ck|by destruct v|by destruct ck|].
  rewrite bind_assoc. run Hrun. destruct (Hrep LOG_SERVER_ONLY w) as [msg Hm].
  rewrite ereport_quiet in Hm by done. by run Hm.
Qed.

(** ** Completion *)
Definition verified (flags : Z) (t : BufferTag) (page : Z) : bool :=
  (PageIsVerified page (blockNum t) (ztrue (Z.land flags READ_BUFFERS_IGNORE_CHECKSUM_FAILURES))).1.
(** A page that is not acceptable is not to be replaced with zeros. *)
Definition no_zeroing (flags : Z) (t : BufferTag) (page : Z) : Prop :=
  verified flags t page = true \/ ztrue (Z.land flags READ_BUFFERS_ZERO_ON_ERROR) = false.
Definition read_in (flags : Z) (t : BufferTag) (w : World) (b : Z) (good : bool) : Prop :=
  exists q, lookupZ (BufferBlocks (shm w)) (b - 1) = Some q /\ disk_page (shm w) t = Some q /\ no_zeroing flags t q /\
    verified flags t q = good.

Lemma complete_one_run td off b flags others bs ios m0 mu pins w e t (failed good : bool) :
  work (with_reads (b :: bs) others) (with_owned_ios ios m0) mu pins w -> mu !! b = Some e -> in_slot t true false w b -> b ∉ bs ->
  0 <= others (b - 1) -> 0 <= off <= READV_COUNT_MASK -> (failed = false -> read_in flags t w b good) -> (failed = true -> good = false) ->
  exists w' ck, buffer_readv_complete_one td off b flags failed false w =
      (Ret (mkReadvOne (negb failed && negb good) (negb failed && ck) (good && ck) false), w') /\
    work (with_reads bs others) (with_owned_ios ios m0) mu pins w' /\ in_slot t false good w' b /\ step [b] w w' /\
    BufferBlocks (shm w') = BufferBlocks (shm w).
Proof using Type*.
  intros Hw Hmu Hsl Hb Ho Hoff Hread Hgood. pose proof Hsl as (d & Hs). pose proof (sl_desc _ _ _ _ _ _ Hs) as Hd.
  pose proof (aw_range _ _ _ _ _ _ _ _ _ _ _ _ Hw Hd) as Hv.
  destruct (finish_run others bs ios m0 mu pins w b e t good) as (w' & Hrun & Hw' & Hs' & Hst & Hbl); try done.
  { intros ->. destruct failed; [by specialize (Hgood eq_refl)|]. destruct (Hread eq_refl) as (q & Hq & Hdq & _). by exists q, q. }
  assert (exists ck, (if failed then ret (mkReadvOne false false false false) else check_page td off b flags false (blockNum (tag d))) w =
    (Ret (mkReadvOne (negb failed && negb good) (negb failed && ck) (good && ck) false), w)) as (ck & Hone).
  { destruct failed; [exists false; by rewrite Hgood|]. destruct (Hread eq_refl) as (q & Hq & Hdq & Hz & <-).
    rewrite (sl_tag _ _ _ _ _ _ Hs). unfold no_zeroing, verified in *.
    destruct (PageIsVerified _ _ _) as [v ck] eqn:E. exists ck. cbn [fst] in *. apply check_page_run with q; [lia|done..]. }
  exists w', ck. split; [|done]. unfold buffer_readv_complete_one, io_descriptor, GetBufferDescriptor. cbv zeta.
  run (deref_run w (b - 1) d Hd). rewrite c_assert_ok by apply Hs. rewrite c_assert_ok by (by rewrite (sl_valid _ _ _ _ _ _ Hs)).
  cbn [negb when]. rewrite c_assert_ok by apply Hs. rewrite c_assert_ok by (by rewrite (sl_clean _ _ _ _ _ _ Hs)).
  run Hone. cbn [buffer_invalid].
  assert ((if failed || negb failed && negb good then BM_IO_ERROR else BM_VALID) = (if good then BM_VALID else BM_IO_ERROR)) as ->.
  { destruct failed; [by rewrite Hgood|]. by destruct good. }
  by run Hrun.
Qed.

(** ** Several buffers *)
Lemma work_ext o o' m0 mu pins w : (forall x, o' x = o x) -> work o m0 mu pins w -> work o' m0 mu pins w.
Proof using Type.
  intros Ho [A1 A2 A3 A4 A5 A6 A7 A8 [C1 C2] A10]. split; try done. split.
  - intros x d Hd. by rewrite Ho, (C1 x d Hd).
  - intros x. by rewrite Ho.
Qed.
Lemma work_perm bs bs' others m0 mu pins w : bs ≡ₚ bs' -> work (with_reads bs others) m0 mu pins w -> work (with_reads bs' others) m0 mu pins w.
Proof using Type.
  intros Hp. apply work_ext. intros x. unfold with_reads. by rewrite (decide_ext (x + 1 ∈ bs') (x + 1 ∈ bs)) by (by rewrite Hp).
Qed.

Context (reln : RelFileLocator) (fork : Z).
Local Abbreviation tg := (block_tag reln fork).

(** The buffers of consecutive blocks, from [first] on. *)
Lemma at_cons {A} (x y : A) l first k :
  lookupZ (x :: l) (k - first) = Some y <-> k = first /\ y = x \/ lookupZ l (k - (first + 1)) = Some y.
Proof using Type.
  unfold lookupZ. destruct (Z.leb_spec 0 (k - first)), (Z.leb_spec 0 (k - (first + 1))).
  - replace (Z.to_nat (k - first)) with (S (Z.to_nat (k - (first + 1)))) by lia. cbn. split; [by right|]. by intros [[-> _]|?]; [lia|].
  - assert (k = first) as -> by lia. rewrite Z.sub_diag. cbn. split; [intros [= ->]; by left|]. by intros [[_ ->]|?].
  - lia.
  - split; [done|]. by intros [[-> _]|?]; [lia|].
Qed.
Lemma at_elem {A} (l : list A) i x : lookupZ l i = Some x -> x ∈ l.
Proof using Type. unfold lookupZ. destruct (0 <=? i); [|done]. apply list_elem_of_lookup_2. Qed.

Definition slots (io valid : bool) (first : Z) (bs : list Z) (w : World) : Prop :=
  forall k b, lookupZ bs (k - first) = Some b -> in_slot (tg k) io valid w b.

Lemma slots_cons io valid first b bs w :
  slots io valid first (b :: bs) w <-> in_slot (tg first) io valid w b /\ slots io valid (first + 1) bs w.
Proof using Type.
  unfold slots. split.
  - intros H1. split; [apply (H1 first); by rewrite Z.sub_diag|].
    intros k c Hk. apply H1, at_cons. by right.
  - intros [H1 H2] k c [[-> ->]|Hk]%at_cons; [done|by apply H2].
Qed.
Lemma slots_step io valid first bs cs w w' : step cs w w' -> (forall b, b ∈ bs -> b ∉ cs) -> slots io valid first bs w -> slots io valid first bs w'.
Proof using Type.
  intros Hst Hd Hs k b Hk. eapply slot_step; [exact Hst| |by apply Hs]. apply Hd. by eapply at_elem.
Qed.

(** The buffers are pinned by this backend and have room for the pin of the read. *)
Definition own_pin (mu : gmap Z PrivateRefCountData) (b : Z) : Prop := exists e, mu !! b = Some e /\ 0 < data_refcount e.
Definition ours (others : Z -> Z) (mu : gmap Z PrivateRefCountData) (b : Z) : Prop :=
  own_pin mu b /\ 0 <= others (b - 1) < 2 ^ 18 - 2.

Lemma stage_buffers_run others ios m0 mu pins wref todo : forall done i f first w,
  work (with_reads done others) (with_owned_ios (rev todo ++ ios) m0) mu pins w -> slots true false first todo w ->
  NoDup (done ++ todo) -> Forall (ours others mu) todo ->
  (forall t, f = Some t -> t = tg (first - i)) -> (f = None -> i = 0) ->
  0 <= first -> first + Z.of_nat (length todo) < 2 ^ 32 ->
  exists w', stage_buffers wref false false f i todo w = (Ret tt, w') /\
    work (with_reads (done ++ todo) others) (with_owned_ios ios m0) mu pins w' /\ slots true false first todo w' /\ step todo w w'.
Proof using Type*.
  induction todo as [|b todo IH]; intros done i f first w Hw Hs Hnd Hours Hf Hi Hlo Hlt; cbn [stage_buffers].
  { exists w. by rewrite app_nil_r. }
  apply slots_cons in Hs as [Hb Hs]. apply Forall_cons in Hours as [[(e & Hmu & _) Ho] Hours].
  pose proof Hnd as (N1 & N2 & [N3 N4]%NoDup_cons)%NoDup_app. cbn [length] in Hlt.
  assert (b ∉ done) as Hbd by (intros E; apply (N2 b E); constructor).
  destruct (stage_run others done (rev (b :: todo) ++ ios) (rev todo ++ ios) m0 mu pins w b e (tg first) wref) as (w1 & Hrun1 & Hw1 & Hb1 & Hst1); try done.
  { lia. }
  { cbn [rev]. rewrite <- app_assoc. apply remove_one_mid. by rewrite list_elem_of_In, <- in_rev, <- list_elem_of_In. }
  destruct (IH (b :: done) (i + 1) (Some (default (tg first) f)) (first + 1) w1) as (w2 & Hrun2 & Hw2 & Hs2 & Hst2); try done.
  { eapply slots_step; [exact Hst1| |done]. intros c Hc ->%list_elem_of_singleton. done. }
  { by rewrite <- Permutation_middle in Hnd. }
  { intros t [= <-]. destruct f as [t'|]; cbn; [rewrite (Hf t' eq_refl)|rewrite (Hi eq_refl)]; f_equal; lia. } { lia. } { lia. }
  exists w2. split_and!.
  - destruct Hb as (d & Hsd). unfold io_descriptor, GetBufferDescriptor. run (deref_run w (b - 1) d (sl_desc _ _ _ _ _ _ Hsd)).
    rewrite (sl_tag _ _ _ _ _ _ Hsd).
    assert ((match f with Some f => c_assert (relNumber (tg first) =? relNumber f) "blocks of different relations" ;;
      c_assert (blockNum (tg first) =? u32 (blockNum f + i)) "blocks are not consecutive" | None => ret tt end) w = (Ret tt, w)) as Hck.
    { destruct f as [t|]; [|done]. rewrite (Hf t eq_refl), c_assert_ok by (apply Z.eqb_refl).
      change (blockNum (tg (first - i))) with (first - i). change (blockNum (tg first)) with first.
      unfold u32. rewrite Z.mod_small by lia. by rewrite (proj2 (Z.eqb_eq first (first - i + i))) by lia. }
    run Hck. by run Hrun1.
  - eapply work_perm; [|exact Hw2]. apply Permutation_middle.
  - apply slots_cons. split; [|done]. eapply slot_step; [exact Hst2|done|done].
  - etrans; (eapply step_on_weaken; [|eassumption]); set_solver.
Qed.

(** The pages the system call has filled. *)
Lemma store_pages_run o m0 mu pins bs : forall pages first w,
  work o m0 mu pins w -> slots true false first bs w -> NoDup bs ->
  exists w', store_pages bs pages w = (Ret tt, w') /\ work o m0 mu pins w' /\ slots true false first bs w' /\ step bs w w' /\
    forall k b q, lookupZ bs (k - first) = Some b -> lookupZ pages (k - first) = Some (Some q) ->
      lookupZ (BufferBlocks (shm w')) (b - 1) = Some q.
Proof using Type*.
  induction bs as [|b bs IH]; intros pages first w Hw Hs Hnd; cbn [store_pages].
  { exists w. split_and!; try done. intros k b q Hk%lookupZ_Some. cbn in Hk. lia. }
  destruct pages as [|page pages].
  { exists w. split_and!; try done. intros k c q _ Hk%lookupZ_Some. cbn in Hk. lia. }
  apply slots_cons in Hs as [Hb Hs]. apply NoDup_cons in Hnd as [Hnb Hnd].
  assert (exists w1, (match page with Some v => write_block b v | None => ret tt end) w = (Ret tt, w1) /\ work o m0 mu pins w1 /\
    in_slot (tg first) true false w1 b /\ step [b] w w1 /\ forall q, page = Some q -> lookupZ (BufferBlocks (shm w1)) (b - 1) = Some q)
    as (w1 & Hrun1 & Hw1 & Hb1 & Hst1 & Hpage).
  { destruct page as [q|]; [|by exists w]. destruct (store_run o m0 mu pins w b (tg first) true q Hw Hb) as (w1 & ? & ? & ? & ? & ?).
    exists w1. split_and!; try done. by intros ? [= <-]. }
  destruct (IH pages (first + 1) w1) as (w2 & Hrun2 & Hw2 & Hs2 & Hst2 & Hp2); try done.
  { eapply slots_step; [exact Hst1| |done]. intros c Hc ->%list_elem_of_singleton. done. }
  exists w2. split_and!; try done.
  - by run Hrun1.
  - apply slots_cons. split; [|done]. by eapply slot_step.
  - etrans; (eapply step_on_weaken; [|eassumption]); set_solver.
  - intros k c q [[-> ->]|Hk]%at_cons [[? Hq]|Hq]%at_cons.
    + rewrite (so_blocks _ _ _ _ Hst2); [by apply Hpage|]. by replace (b - 1 + 1) with b by lia.
    + apply lookupZ_Some in Hq. lia.
    + apply lookupZ_Some in Hk. lia.
    + by eapply Hp2.
Qed.

(** ** Counting *)
Record counts_ok (off : Z) (c : readv_counts) : Prop := {
  co_error : 0 <= error_count c <= off;
  co_check : 0 <= checkfails c <= off;
  co_ignored : 0 <= ignored_count c <= off;
  co_zeroed : zeroed_count c = 0;
  co_first_error : 0 <= first_error_off c <= READV_COUNT_MASK;
  co_first_ignored : 0 <= first_ignored_off c <= READV_COUNT_MASK
}.

Lemma count_one_ok off c (invalid ck ig : bool) :
  counts_ok off c -> 0 <= off < READV_COUNT_MASK ->
  let c' := count_one off (mkReadvOne invalid ck ig false) c in
  counts_ok (off + 1) c' /\ (error_count c' = 0 <-> error_count c = 0 /\ invalid = false).
Proof using Type.
  change READV_COUNT_MASK with 127. intros [C1 C2 C3 C4 C5 C6] Hoff c'. change READV_COUNT_MASK with 127 in *.
  unfold c', count_one. cbn [buffer_invalid zeroed_buffer ignored_checksum failed_checksum]. rewrite andb_true_r.
  assert (forall x, 0 <= x <= off -> u8 (x + 1) = x + 1) as Hu by (intros x Hx; unfold u8; apply Z.mod_small; lia).
  split; [split; cbn|cbn].
  - destruct invalid; [rewrite Hu by done|]; lia.
  - destruct ck; [rewrite Hu by done|]; lia.
  - destruct ig; [rewrite Hu by done|]; lia.
  - done.
  - destruct (invalid && _); change READV_COUNT_MASK with 127; lia.
  - destruct (ig && _); change READV_COUNT_MASK with 127; lia.
  - destruct invalid; [rewrite Hu by done|]; split; try done; [lia|intros []; lia|intros []; lia].
Qed.

(** The read has not brought block [k]. *)
Definition failed_at (prior : PgAioResult) (k : Z) : bool := bool_decide (result_status prior = PGAIO_RS_ERROR) || (result prior <=? k).

(** Where the buffer of block [k] is after the read. *)
Definition completed_at (prior : PgAioResult) (flags k : Z) (t : BufferTag) (w w' : World) (b : Z) (good : bool) : Prop :=
  in_slot t false good w' b /\ (failed_at prior k = true -> good = false) /\ (failed_at prior k = false -> read_in flags t w b good).

Lemma read_in_same flags t w w' b good :
  BufferBlocks (shm w') = BufferBlocks (shm w) -> smgr_disk (shm w') = smgr_disk (shm w) -> read_in flags t w' b good <-> read_in flags t w b good.
Proof using Type. intros Hb Hd. unfold read_in, disk_page. by rewrite Hb, Hd. Qed.
Lemma read_in_unique flags t w b g g' : read_in flags t w b g -> read_in flags t w b g' -> g = g'.
Proof using Type. intros (q & Hq & _ & _ & <-) (q' & Hq' & _ & _ & <-). congruence. Qed.

Lemma complete_buffers_run td prior flags others ios m0 mu pins start todo : forall first c w,
  work (with_reads todo others) (with_owned_ios ios m0) mu pins w -> slots true false first todo w -> NoDup todo -> Forall (ours others mu) todo ->
  counts_ok (first - start) c -> start <= first -> first - start + Z.of_nat (length todo) <= READV_COUNT_MASK ->
  (forall k b, lookupZ todo (k - first) = Some b -> failed_at prior (k - start) = false -> exists good, read_in flags (tg k) w b good) ->
  exists w' c', complete_buffers td prior flags false (first - start) todo c w = (Ret c', w') /\
    work (with_reads [] others) (with_owned_ios ios m0) mu pins w' /\ counts_ok (first - start + Z.of_nat (length todo)) c' /\ step todo w w' /\
    BufferBlocks (shm w') = BufferBlocks (shm w) /\
    (forall k b, lookupZ todo (k - first) = Some b -> exists good, completed_at prior flags (k - start) (tg k) w w' b good) /\
    (error_count c' = 0 <-> error_count c = 0 /\ forall k b, lookupZ todo (k - first) = Some b -> failed_at prior (k - start) = false ->
      read_in flags (tg k) w b true).
Proof using Type*.
  induction todo as [|b todo IH]; intros first c w Hw Hs Hnd Hours Hc Hoff Hlen Hread; cbn [complete_buffers].
  { exists w, c. split_and!; try done; [by rewrite Z.add_0_r| |]; [|split; [intros E; split; [done|]|by intros []]];
      intros k b Hk; apply lookupZ_Some in Hk; cbn in Hk; lia. }
  apply slots_cons in Hs as [Hb Hs]. apply Forall_cons in Hours as [[(e & Hmu & _) Ho] Hours]. apply NoDup_cons in Hnd as [Hnb Hnd].
  cbn [length] in Hlen. set (off := first - start) in *. assert (first + 1 - start = off + 1) as Eoff by lia.
  assert (exists good, (failed_at prior off = true -> good = false) /\ (failed_at prior off = false -> read_in flags (tg first) w b good)) as (good & Hg1 & Hg2).
  { destruct (failed_at prior off) eqn:E; [by exists false|]. destruct (Hread first b) as (good & Hg); [apply at_cons; by left|done|by exists good]. }
  destruct (complete_one_run td off b flags others todo ios m0 mu pins w e (tg first) (failed_at prior off) good) as (w1 & ck & Hrun1 & Hw1 & Hb1 & Hst1 & Hbl1); try done.
  { lia. } { lia. }
  set (one := mkReadvOne _ _ _ _) in Hrun1. destruct (count_one_ok off c (negb (failed_at prior off) && negb good) (negb (failed_at prior off) && ck) (good && ck) Hc) as [Hc1 Herr1]; [lia|].
  fold one in Hc1, Herr1. pose proof (so_disk _ _ _ _ Hst1) as Hdk1.
  destruct (IH (first + 1) (count_one off one c) w1) as (w2 & c2 & Hrun2 & Hw2 & Hc2 & Hst2 & Hbl2 & Hcomp2 & Herr2); rewrite ?Eoff; try done; [|lia|lia|..].
  { eapply slots_step; [exact Hst1| |done]. intros x Hx ->%list_elem_of_singleton. done. }
  { intros k x Hk Hf. destruct (Hread k x) as (g & Hr); [apply at_cons; by right|done|]. exists g. by eapply read_in_same. }
  rewrite Eoff in *. exists w2, c2. split_and!.
  - destruct Hb as (d & Hsd). pose proof (aw_range _ _ _ _ _ _ _ _ _ _ _ _ Hw (sl_desc _ _ _ _ _ _ Hsd)).
    rewrite c_assert_ok by (unfold BufferIsValid, InvalidBuffer; apply negb_true_iff, Z.eqb_neq; lia). cbv zeta. by run Hrun1.
  - done.
  - cbn [length]. by replace (off + Z.of_nat (S (length todo))) with (off + 1 + Z.of_nat (length todo)) by lia.
  - etrans; (eapply step_on_weaken; [|eassumption]); set_solver.
  - congruence.
  - intros k x [[-> ->]|Hk]%at_cons.
    + exists good. split; [by eapply slot_step|done].
    + destruct (Hcomp2 k x Hk) as (g & G1 & G2 & G3). exists g. split_and!; try done. intros Hf. apply (read_in_same flags (tg k) w w1 x g Hbl1 Hdk1). auto.
  - rewrite Herr2, Herr1. split.
    + intros [[E1 E2] E3]. split; [done|]. intros k x [[-> ->]|Hk]%at_cons Hf; [|apply (read_in_same flags (tg k) w w1 x true Hbl1 Hdk1); by apply E3].
      fold off in Hf. rewrite Hf in E2. destruct good; [by apply Hg2|done].
    + intros [E1 E2]. split_and!; [done| |].
      * destruct (failed_at prior off) eqn:Hf; [done|]. cbn.
        by rewrite (read_in_unique _ _ _ _ _ _ (Hg2 eq_refl) (E2 first b ltac:(apply at_cons; by left) Hf)).
      * intros k x Hk Hf. apply (read_in_same flags (tg k) w w1 x true Hbl1 Hdk1), E2; [apply at_cons; by right|done].
Qed.

(** ** The result of a read *)
Definition reportable (r : PgAioResult) (td : PgAioTargetData) : Prop :=
  forall level w, exists msg, pgaio_result_report r td level w = ereport level msg w.
Definition all_good (prior : PgAioResult) (flags start : Z) (bs : list Z) (w : World) : Prop :=
  forall k b, lookupZ bs (k - start) = Some b -> failed_at prior (k - start) = false -> read_in flags (tg k) w b true.

Definition distilled (prior : PgAioResult) (flags start : Z) (bs : list Z) (w : World) (td : PgAioTargetData) (r : PgAioResult) : Prop :=
  (result_status prior = PGAIO_RS_ERROR -> r = prior) /\
  (result_status prior <> PGAIO_RS_ERROR ->
     all_good prior flags start bs w /\ result r = result prior /\ (r = prior \/ result_status r = PGAIO_RS_WARNING /\ reportable r td) \/
     ~ all_good prior flags start bs w /\ result_status r = PGAIO_RS_ERROR /\ reportable r td).

Lemma shared_complete_run ioh prior flags others ios m0 mu pins start w :
  let bs := handle_data ioh in
  td_is_temp (target_data ioh) = false ->
  work (with_reads bs others) (with_owned_ios ios m0) mu pins w -> slots true false start bs w -> NoDup bs -> Forall (ours others mu) bs ->
  Z.of_nat (length bs) <= READV_COUNT_MASK ->
  (forall k b, lookupZ bs (k - start) = Some b -> failed_at prior (k - start) = false -> exists good, read_in flags (tg k) w b good) ->
  exists w' r, shared_buffer_readv_complete ioh prior flags w = (Ret r, w') /\ distilled prior flags start bs w (target_data ioh) r /\
    work (with_reads [] others) (with_owned_ios ios m0) mu pins w' /\ step bs w w' /\ BufferBlocks (shm w') = BufferBlocks (shm w) /\
    (forall k b, lookupZ bs (k - start) = Some b -> exists good, completed_at prior flags (k - start) (tg k) w w' b good).
Proof using Type*.
  intros bs Htd Hw Hs Hnd Hours Hlen Hread. set (td := target_data ioh) in *.
  destruct (complete_buffers_run td prior flags others ios m0 mu pins start bs start no_counts w) as (w' & c & Hrun & Hw' & Hc & Hst & Hbl & Hcomp & Herr);
    try done; [rewrite Z.sub_diag; by split|lia|]. rewrite Z.sub_diag in *. cbn [Z.add] in Hc.
  assert (error_count c = 0 <-> all_good prior flags start bs w) as Hgood by (rewrite Herr; unfold all_good; cbn; tauto).
  destruct Hc as [C1 C2 C3 C4 C5 C6]. unfold shared_buffer_readv_complete, buffer_readv_complete. fold td bs. rewrite Htd.
  cbv zeta. rewrite c_assert_ok by done. setoid_rewrite (bind_ret _ _ _ _ _ Hrun). rewrite C4. cbn [Z.ltb Z.compare]. rewrite orb_false_r.
  destruct (decide (result_status prior = PGAIO_RS_ERROR)) as [Ee|Ee].
  { rewrite bool_decide_eq_true_2 by done. exists w', prior. split; [done|]. split; [by split|done]. }
  rewrite bool_decide_eq_false_2 by done. cbn [negb andb].
  destruct ((0 <? error_count c) || (0 <? ignored_count c)) eqn:Ec.
  - destruct (encode_report td prior (0 <? ignored_count c) (error_count c) (checkfails c) (first_error_off c) (first_zeroed_off c) (first_ignored_off c) w')
      as (bits & Henc & Hrep); try lia.
    set (r := mkPgAioResult _ _ bits _) in Henc, Hrep. exists w', r. split; [|split; [split; [done|]|done]].
    + setoid_rewrite (bind_ret _ _ _ _ _ Henc). destruct (Hrep DEBUG1 w') as [msg Hm]. rewrite ereport_quiet in Hm by done.
      by setoid_rewrite (bind_ret _ _ _ _ _ Hm).
    + intros _. destruct (Z.ltb_spec 0 (error_count c)).
      * right. split; [rewrite <- Hgood; lia|]. done.
      * left. split; [apply Hgood; lia|]. split; [done|]. by right.
  - exists w', prior. split; [done|]. split; [split; [done|]|done]. intros _. left. split; [apply Hgood; lia|]. split; [done|by left].
Qed.

(** ** Execution by the caller *)
(** What the completion of the storage manager says of the read. *)
Definition md_result (td : PgAioTargetData) (raw : Z) (r : PgAioResult) : Prop :=
  raw < BLCKSZ /\ result_status r = PGAIO_RS_ERROR /\ result_id r = PGAIO_HCB_MD_READV \/
  BLCKSZ <= raw /\ result r = raw / BLCKSZ /\ 0 < result r <= td_nblocks td /\
    (result_status r = PGAIO_RS_OK \/ result_status r = PGAIO_RS_PARTIAL /\ result_id r = PGAIO_HCB_MD_READV).

Lemma md_run td raw w :
  raw <= td_nblocks td * BLCKSZ ->
  exists r, md_readv_complete td (mkPgAioResult PGAIO_HCB_INVALID PGAIO_RS_OK 0 raw) w = (Ret r, w) /\ md_result td raw r.
Proof using Type.
  intros Hraw. unfold md_readv_complete. cbn [result result_status error_data result_id]. cbv zeta.
  assert (forall r, result_id r = PGAIO_HCB_MD_READV -> result_status r = PGAIO_RS_ERROR ->
    pgaio_result_report r td LOG_SERVER_ONLY w = (Ret tt, w)) as Hlog.
  { intros r H1 H2. rewrite report_md by congruence. by apply ereport_quiet. }
  destruct (Z.ltb_spec raw 0).
  { eexists. split; [by erewrite bind_ret by (by apply Hlog)|]. left. unfold BLCKSZ. split; [lia|done]. }
  rewrite Z.quot_div_nonneg by done. set (k := raw / BLCKSZ).
  assert (0 <= k <= td_nblocks td) as Hk by (unfold k, BLCKSZ in *; zdm).
  rewrite c_assert_ok by (apply Z.leb_le; lia). destruct (Z.eqb_spec k 0) as [E|E].
  { eexists. split; [by erewrite bind_ret by (by apply Hlog)|]. left. split; [|done]. unfold k, BLCKSZ in *. zdm. }
  assert (BLCKSZ <= raw) as Hge by (unfold k, BLCKSZ in *; zdm). cbn [negb bool_decide andb].
  rewrite bool_decide_eq_false_2 by done. cbn [negb andb].
  destruct (k <? td_nblocks td); (eexists; split; [done|]; right; cbn); (split; [done|]; split; [done|]; split; [lia|]); auto.
Qed.

Context `{!AioLaws}.

(** The buffer has the page of block [k]. *)
Definition has_page (w : World) (b k : Z) : Prop :=
  exists q, lookupZ (BufferBlocks (shm w)) (b - 1) = Some q /\ disk_page (shm w) (tg k) = Some q.
(** The first [k] of the buffers [bs] have been read. *)
Definition read_upto (first : Z) (bs : list Z) (k : Z) (w : World) : Prop :=
  forall j b, lookupZ bs (j - first) = Some b -> in_slot (tg j) false (j - first <? k) w b /\ (j - first < k -> has_page w b j).

(** The system call for the blocks from [first] on, made while their buffers [bs]
    are claimed for the read, brings no whole page.  Nothing but these buffers
    differs between the call and [w], the files are the same. *)
Definition short_call (first : Z) (bs : list Z) (w wc : World) : Prop :=
  step bs w wc /\ slots true false first bs wc /\
  rr_result (pg_preadv wc (mkPgAioTargetData reln first (Z.of_nat (length bs)) fork false)) < BLCKSZ.
(** A block in the range has a page that does not pass verification. *)
Definition bad_page (flags first len : Z) (s : Shared) : Prop :=
  exists k q, first <= k < first + len /\ disk_page s (tg k) = Some q /\ verified flags (tg k) q = false.

Record read_done (flags start : Z) (bs : list Z) (w : World) (td : PgAioTargetData) (r : PgAioResult) : Prop := {
  dn_known : result_status r <> PGAIO_RS_UNKNOWN;
  dn_report : result_status r <> PGAIO_RS_OK -> reportable r td;
  dn_slots : forall j b, lookupZ bs (j - start) = Some b -> exists valid, in_slot (tg j) false valid w b;
  dn_good : result_status r <> PGAIO_RS_ERROR -> 0 < result r <= Z.of_nat (length bs) /\ read_upto start bs (result r) w;
  dn_bad : result_status r = PGAIO_RS_ERROR -> (exists wc, short_call start bs w wc) \/ bad_page flags start (Z.of_nat (length bs)) (shm w)
}.

(** No page in the range is to be replaced with zeros. *)
Definition no_damage (flags first len : Z) (s : Shared) : Prop :=
  forall k q, first <= k < first + len -> disk_page s (tg k) = Some q -> no_zeroing flags (tg k) q.

Lemma lookupZ_range {A} (l : list A) start k x : lookupZ l (k - start) = Some x -> start <= k < start + Z.of_nat (length l).
Proof using Type. intros Hk%lookupZ_Some. lia. Qed.

Lemma at_search {A} (P Q : Z -> A -> Prop) l : forall first,
  (forall k x, lookupZ l (k - first) = Some x -> P k x \/ Q k x) ->
  (forall k x, lookupZ l (k - first) = Some x -> P k x) \/ exists k x, lookupZ l (k - first) = Some x /\ Q k x.
Proof using Type.
  induction l as [|y l IH]; intros first HPQ.
  { left. intros k x Hk%lookupZ_Some. cbn in Hk. lia. }
  destruct (HPQ first y) as [Hy|Hy]; [apply at_cons; by left| |right; exists first, y; split; [apply at_cons; by left|done]].
  destruct (IH (first + 1)) as [Hl|(k & x & Hk & Hx)]; [|left|right; exists k, x; split; [apply at_cons; by right|done]].
  - intros k x Hk. apply HPQ, at_cons. by right.
  - intros k x [[-> ->]|Hk]%at_cons; auto.
Qed.

Lemma distilled_done td raw flags start bs r0 r w w' :
  td = mkPgAioTargetData reln start (Z.of_nat (length bs)) fork false -> bs <> [] ->
  md_result td raw r0 -> distilled r0 flags start bs w td r ->
  (raw < BLCKSZ -> exists wc, short_call start bs w' wc) ->
  (forall k b, lookupZ bs (k - start) = Some b -> failed_at r0 (k - start) = false -> exists good, read_in flags (tg k) w b good) ->
  (forall k b, lookupZ bs (k - start) = Some b -> exists good, completed_at r0 flags (k - start) (tg k) w w' b good) ->
  BufferBlocks (shm w') = BufferBlocks (shm w) -> smgr_disk (shm w') = smgr_disk (shm w) ->
  read_done flags start bs w' td r.
Proof using Type*.
  intros Etd Hne Hr0 [D1 D2] Hshort Hread Hcomp Hbl Hdk.
  assert (forall j b, lookupZ bs (j - start) = Some b -> exists valid, in_slot (tg j) false valid w' b) as Hslots.
  { intros j b Hj. destruct (Hcomp j b Hj) as (good & G1 & _). eauto. }
  assert (result_status r0 <> PGAIO_RS_OK -> reportable r0 td) as Hrep0.
  { intros E level w0. eexists. apply report_md; [|by destruct Hr0 as [(_ & -> & _)|(_ & _ & _ & [->|[-> _]])]|done].
    by destruct Hr0 as [(_ & _ & E')|(_ & _ & _ & [E'|[_ E']])]. }
  assert (0 < length bs)%nat as Hpos by (destruct bs; [done|cbn; lia]).
  destruct (decide (result_status r0 = PGAIO_RS_ERROR)) as [E0|E0].
  { rewrite (D1 E0). split; [by rewrite E0|auto|done|done|]. intros _. left.
    destruct Hr0 as [(Hraw & _)|(_ & _ & _ & [E|[E _]])]; [|congruence..]. by apply Hshort. }
  destruct Hr0 as [(_ & E & _)|(_ & _ & Hres & Hst0)]; [done|]. rewrite Etd in Hres. cbn in Hres.
  destruct (D2 E0) as [(Hall & Er & Hr)|(Hnot & Er & Hr)].
  - assert (result_status r <> PGAIO_RS_ERROR) as Hne' by (destruct Hr as [->|[-> _]]; done). split; try done.
    + by destruct Hr as [->|[-> _]]; [destruct Hst0 as [->|[-> _]]|].
    + intros Hok. destruct Hr as [->|[_ Hr]]; [auto|done].
    + intros _. rewrite Er. split; [done|]. intros j b Hj. destruct (Hcomp j b Hj) as (good & G1 & G2 & G3).
      unfold failed_at in G2, G3. rewrite bool_decide_eq_false_2 in G2, G3 by done. cbn [orb] in G2, G3.
      destruct (Z.leb_spec (result r0) (j - start)).
      * rewrite (proj2 (Z.ltb_ge _ _)) by done. rewrite (G2 eq_refl) in G1. split; [done|lia].
      * rewrite (proj2 (Z.ltb_lt _ _)) by done.
        assert (read_in flags (tg j) w b true) as Hin.
        { apply Hall; [done|]. unfold failed_at. rewrite bool_decide_eq_false_2 by done. by apply Z.leb_gt. }
        rewrite (read_in_unique _ _ _ _ _ _ (G3 eq_refl) Hin) in G1. split; [done|]. intros _. destruct Hin as (q & Q1 & Q2 & _).
        exists q. unfold disk_page. rewrite Hbl, Hdk. done.
  - split; try done; [by rewrite Er|]. intros _. right.
    assert (exists k b, lookupZ bs (k - start) = Some b /\ failed_at r0 (k - start) = false /\ read_in flags (tg k) w b false) as (k & b & Hk & Hf & q & Q1 & Q2 & Q3 & Q4).
    { destruct (at_search (fun k b => failed_at r0 (k - start) = false -> read_in flags (tg k) w b true)
        (fun k b => failed_at r0 (k - start) = false /\ read_in flags (tg k) w b false) bs start) as [Hall|?]; [|by destruct Hnot|done].
      intros k b Hk. destruct (failed_at r0 (k - start)) eqn:Hf; [by left|]. destruct (Hread k b Hk Hf) as ([] & ?); auto. }
    exists k, q. split; [by eapply lookupZ_range|]. unfold disk_page. by rewrite Hdk.
Qed.

Lemma process_run ioh flags others ios m0 mu pins start raw w :
  let bs := handle_data ioh in
  let td := mkPgAioTargetData reln start (Z.of_nat (length bs)) fork false in
  ioh_callbacks ioh = [(PGAIO_HCB_SHARED_BUFFER_READV, flags); (PGAIO_HCB_MD_READV, 0)] -> target_data ioh = td -> bs <> [] ->
  work (with_reads bs others) (with_owned_ios ios m0) mu pins w -> slots true false start bs w -> NoDup bs -> Forall (ours others mu) bs ->
  Z.of_nat (length bs) <= READV_COUNT_MASK -> no_damage flags start (Z.of_nat (length bs)) (shm w) ->
  raw <= td_nblocks td * BLCKSZ -> (raw < BLCKSZ -> exists wc, short_call start bs w wc) ->
  (forall k b, lookupZ bs (k - start) = Some b -> (k - start + 1) * BLCKSZ <= raw -> has_page w b k) ->
  exists r w', pgaio_io_process_completion ioh raw w = (Ret r, w') /\ work (with_reads [] others) (with_owned_ios ios m0) mu pins w' /\
    step bs w w' /\ read_done flags start bs w' td r.
Proof using Type*.
  intros bs td Hcb Htd Hne Hw Hs Hnd Hours Hlen Hdam Hraw Hshort Hpages.
  destruct (md_run td raw w Hraw) as (r0 & Hmd & Hr0).
  assert (result_status r0 <> PGAIO_RS_UNKNOWN) as Hk0 by (destruct Hr0 as [(_ & -> & _)|(_ & _ & _ & [->|[-> _]])]; done).
  assert (forall k b, lookupZ bs (k - start) = Some b -> failed_at r0 (k - start) = false -> has_page w b k) as Hhas.
  { intros k b Hk Hf. apply Hpages; [done|]. unfold failed_at in Hf. apply orb_false_iff in Hf as [Hf1%bool_decide_eq_false Hf2%Z.leb_gt].
    destruct Hr0 as [(_ & E & _)|(_ & E & _)]; [done|]. rewrite E in Hf2. unfold BLCKSZ in *. zdm. }
  assert (forall k b, lookupZ bs (k - start) = Some b -> failed_at r0 (k - start) = false -> exists good, read_in flags (tg k) w b good) as Hread.
  { intros k b Hk Hf. destruct (Hhas k b Hk Hf) as (q & Q1 & Q2). exists (verified flags (tg k) q), q. split_and!; try done.
    apply Hdam; [by eapply lookupZ_range|done]. }
  destruct (shared_complete_run ioh r0 flags others ios m0 mu pins start w) as (w' & r & Hrun & Hdist & Hw' & Hst & Hbl & Hcomp); rewrite ?Htd; try done.
  assert (result_status r <> PGAIO_RS_UNKNOWN) as Hk.
  { destruct Hdist as [D1 D2]. destruct (decide (result_status r0 = PGAIO_RS_ERROR)) as [E|E]; [by rewrite (D1 E)|].
    destruct (D2 E) as [(_ & _ & [->|[-> _]])|(_ & -> & _)]; done. }
  exists r, w'. split_and!; try done.
  - unfold pgaio_io_process_completion, pgaio_io_call_complete_shared, pgaio_io_call_complete_local. rewrite Hcb.
    cbn [rev app complete_all call_complete_shared call_complete_local]. rewrite Htd.
    rewrite !bind_assoc. run Hmd. rewrite !bind_assoc, c_assert_ok by (by apply negb_true_iff, bool_decide_eq_false_2).
    rewrite !bind_assoc. run Hrun. rewrite !bind_assoc.
    by repeat first [rewrite bind_ret_l | rewrite c_assert_ok by (by apply negb_true_iff, bool_decide_eq_false_2)].
  - apply (distilled_done td raw flags start bs r0 r w w'); try done; [by rewrite <- Htd| |apply Hst].
    intros Hlt. destruct (Hshort Hlt) as (wc & C1 & C2). exists wc. split; [|done]. etrans; [by apply step_on_sym|done].
Qed.

Lemma no_damage_step flags start len bs w w' : step bs w w' -> no_damage flags start len (shm w) -> no_damage flags start len (shm w').
Proof using Type. intros Hst Hdam k q Hk. unfold disk_page. rewrite (so_disk _ _ _ _ Hst). by apply Hdam. Qed.

(** The buffers claimed are staged, read into by this backend and completed. *)
Lemma pgaio_io_stage_run wref hf flags others ios m0 mu pins start bs w :
  let td := mkPgAioTargetData reln start (Z.of_nat (length bs)) fork false in
  ztrue (Z.land hf PGAIO_HF_SYNCHRONOUS) = true -> bs <> [] ->
  work others (with_owned_ios (rev bs ++ ios) m0) mu pins w -> slots true false start bs w -> NoDup bs -> Forall (ours others mu) bs ->
  Z.of_nat (length bs) <= READV_COUNT_MASK -> 0 <= start -> start + Z.of_nat (length bs) < 2 ^ 32 ->
  no_damage flags start (Z.of_nat (length bs)) (shm w) ->
  exists r w', pgaio_io_stage (mkPgAioHandle wref hf [(PGAIO_HCB_SHARED_BUFFER_READV, flags); (PGAIO_HCB_MD_READV, 0)] bs td) w = (Ret (Some r), w') /\
    work others (with_owned_ios ios m0) mu pins w' /\ step bs w w' /\ read_done flags start bs w' td r.
Proof using Type*.
  intros td Hsync Hne Hw Hs Hnd Hours Hlen Hlo Hlt Hdam. set (ioh := mkPgAioHandle _ _ _ _ _).
  destruct (stage_buffers_run others ios m0 mu pins wref bs [] 0 None start w) as (w1 & Hrun1 & Hw1 & Hs1 & Hst1); try done.
  assert (0 < td_nblocks td) as Hpos by (destruct bs; [done|cbn; lia]).
  pose proof (ai_read w1 td eq_refl Hpos) as [Hmax Hpages]. set (rr := pg_preadv w1 td) in *.
  destruct (store_pages_run _ _ _ _ bs (rr_pages rr) start w1 Hw1 Hs1 Hnd) as (w2 & Hrun2 & Hw2 & Hs2 & Hst2 & Hstored).
  destruct (process_run ioh flags others ios m0 mu pins start (rr_result rr) w2) as (r & w3 & Hrun3 & Hw3 & Hst3 & Hdone); try done.
  { do 2 (eapply no_damage_step; [done|]). done. }
  { intros Hsmall. exists w1. split_and!; try done. by apply step_on_sym. }
  { intros k b Hk Hr. pose proof (lookupZ_range _ _ _ _ Hk). destruct (Hpages (k - start)) as (q & Q1 & Q2); [lia|done|].
    exists q. split; [by eapply Hstored|]. unfold disk_page. rewrite (so_disk _ _ _ _ Hst2). rewrite <- Q2. cbn. by replace (start + (k - start)) with k by lia. }
  exists r, w3. split_and!; [|by eapply work_ext; [|exact Hw3]|by etrans; [|etrans]|done].
  unfold pgaio_io_stage, pgaio_io_call_stage, pgaio_io_needs_synchronous_execution, pgaio_io_perform_synchronously.
  cbn [ioh_callbacks ioh_flags ioh rev app stage_all call_stage]. rewrite Hsync.
  rewrite bind_assoc, bind_ret_l, bind_assoc. unfold shared_buffer_readv_stage, buffer_stage_common. run Hrun1. rewrite bind_ret_l.
  rewrite !bind_assoc. run (interfere_quiet w1 (aw_quiet _ _ _ _ _ _ _ _ _ _ Hw1)). rewrite bind_assoc.
  unfold gets. rewrite (bind_ret _ _ w1 rr w1) by done. rewrite bind_assoc. run Hrun2. by run Hrun3.
Qed.
End reads.
