(* ===== verification/ReadCache.v ===== *)
(** * Reading through the cache

    A read operation without interference, executed by the caller: the buffers of
    a range of blocks are claimed together, read into, and what a system call left
    unread is read by the next round.  On top of it, reading one block the way
    relations are read. *)
From S2P Require Import Prelude BufState BufTag Shmem Concurrency PrivateRefCount Ring Policy BufTable Strategy.
From S2P Require Import LocalBuf ContentLock LockWord LockProtocol LockRun Pin Tracking PinRun Reserved BufIO IORun.
From S2P Require Import Writeback Eviction DropFlush Extend Readv Read PolicyQuiet Pool FlushRun EvictRun VictimRun AllocRun ExtendRun ReadRun.

Section operation.
Context (same_page : relation Z) `{!Equivalence same_page} `{!Server} `{!ServerLaws same_page} `{!Aio} `{!AioLaws}.
Context (permanent : BufferTag -> bool).
Context (n : Z) (p : EvictionVtablePtr) (strategy : BufferAccessStrategy).
Context (reln : RelFileLocator) (fork : Z).
Local Abbreviation pool := (pool_ok same_page PageGetLSN permanent n).
Local Abbreviation work := (at_work same_page permanent n p strategy).
Local Abbreviation seen := (same_pages same_page).
Local Abbreviation step := (step_on same_page).
Local Abbreviation tg := (block_tag reln fork).
Local Abbreviation slots := (slots reln fork).
Local Abbreviation read_upto := (read_upto reln fork).
Local Abbreviation has_page := (has_page reln fork).
Local Abbreviation read_done := (read_done same_page reln fork).
Local Abbreviation no_damage := (no_damage reln fork).

(** ** Small steps *)
Lemma step_shm w w' : shm w' = shm w -> step [] w w'.
Proof using All. intros E. split; unfold mem; rewrite ?E; done. Qed.
Lemma step_shm_any bs w w' : shm w' = shm w -> step bs w w'.
Proof using All. intros E. eapply step_on_weaken; [|by apply step_shm]. set_solver. Qed.
Lemma in_slot_shm t io valid w w' b : shm w' = shm w -> in_slot t io valid w b -> in_slot t io valid w' b.
Proof using All. intros E Hs. eapply (slot_step same_page); [by apply step_shm|set_solver|done]. Qed.
Lemma slots_shm io valid first bs w w' : shm w' = shm w -> slots io valid first bs w -> slots io valid first bs w'.
Proof using All. intros E Hs k b Hk. eapply in_slot_shm; [done|by apply Hs]. Qed.

Lemma count_work o m0 mu pins f w :
  work o m0 mu pins w -> exists w', count_usage f w = (Ret tt, w') /\ shm w' = shm w /\ work o m0 mu pins w'.
Proof using All.
  intros [A1 A2 A3 A4 A5 A6 A7 A8 A9 A10]. eexists. split; [done|]. split; [done|].
  split; try done; cbn; [etrans; [exact A3|by split]|by destruct A4].
Qed.
Lemma count_hit_work o m0 mu pins temp w :
  work o m0 mu pins w -> exists w', count_hit temp w = (Ret tt, w') /\ shm w' = shm w /\ work o m0 mu pins w'.
Proof using All. apply count_work. Qed.
Lemma count_read_work o m0 mu pins temp k w :
  work o m0 mu pins w -> exists w', count_read temp k w = (Ret tt, w') /\ shm w' = shm w /\ work o m0 mu pins w'.
Proof using All. apply count_work. Qed.
Lemma record_hit_work o m0 mu pins w :
  work o m0 mu pins w -> exists w', RecordAtomicCacheHit w = (Ret tt, w') /\ shm w' = shm w /\ work o m0 mu pins w'.
Proof using All. apply count_work. Qed.
Lemma record_miss_work o m0 mu pins k w :
  work o m0 mu pins w -> exists w', RecordAtomicCacheMiss k w = (Ret tt, w') /\ shm w' = shm w /\ work o m0 mu pins w'.
Proof using All. apply count_work. Qed.
Lemma charge_work o m0 mu pins cost w :
  work o m0 mu pins w -> exists w', charge_vacuum cost w = (Ret tt, w') /\ shm w' = shm w /\ work o m0 mu pins w'.
Proof using All. apply count_work. Qed.

Lemma block_number_run o m0 mu pins w b d e :
  work o m0 mu pins w -> mu !! b = Some e -> 0 < data_refcount e -> desc_at w (b - 1) d ->
  exists w', BufferGetBlockNumber b w = (Ret (blockNum (tag d)), w') /\ shm w' = shm w /\ work o m0 mu pins w'.
Proof using All.
  intros Hw Hmu He Hd. pose proof (aw_range _ _ _ _ _ _ _ _ _ _ _ _ Hw Hd) as Hr.
  destruct (assert_pinned_run w mu b e) as (m' & Hrun & Htr); [apply Hw|lia|done|done|].
  exists (with_me m' w). split_and!; [|done|by apply aw_track].
  unfold BufferGetBlockNumber, buffer_tag. rewrite !bind_assoc. run Hrun. unfold BufferIsLocal.
  rewrite (proj2 (Z.ltb_ge b 0)) by lia. unfold GetBufferDescriptor. rewrite bind_assoc.
  unfold bind at 1. rewrite (deref_run (with_me m' w) (b - 1) d Hd). done.
Qed.

(** ** Claiming buffers *)
Lemma can_start_run o ios m0 mu pins w b e t nowait :
  work o (with_owned_ios ios m0) mu pins w -> mu !! b = Some e -> in_slot t false false w b ->
  exists w', ReadBuffersCanStartIO b nowait w = (Ret true, w') /\
    work o (with_owned_ios (b :: ios) m0) mu pins w' /\ in_slot t true false w' b /\ step [b] w w'.
Proof using All.
  intros Hw Hmu Hs. destruct Hs as (d & Hd). pose proof (aw_range _ _ _ _ _ _ _ _ _ _ _ _ Hw (sl_desc _ _ _ _ _ _ Hd)) as Hr.
  destruct (claim_run same_page permanent n p strategy o ios m0 mu pins w b e t nowait) as (w' & Hrun & Hw' & Hs' & Hst); try done; [by exists d|].
  exists w'. split_and!; try done. unfold ReadBuffersCanStartIO.
  assert ((if nowait then ret false else pgaio_have_staged) w = (Ret false, w)) as Hstaged by (destruct nowait; [done|apply ai_staged]).
  run Hstaged. unfold ReadBuffersCanStartIOOnce, BufferIsLocal. by rewrite (proj2 (Z.ltb_ge b 0)) by lia.
Qed.

Lemma combine_run others m0 mu pins rest : forall ios prev first w,
  work others (with_owned_ios ios m0) mu pins w -> in_slot (tg first) true false w prev -> slots false false (first + 1) rest w ->
  NoDup (prev :: rest) -> Forall (ours others mu) (prev :: rest) -> 0 <= first -> first + Z.of_nat (length rest) < 2 ^ 32 ->
  exists w', combine_reads prev rest w = (Ret rest, w') /\ work others (with_owned_ios (rev rest ++ ios) m0) mu pins w' /\
    slots true false first (prev :: rest) w' /\ step rest w w'.
Proof using All.
  induction rest as [|b rest IH]; intros ios prev first w Hw Hprev Hs Hnd Hours Hlo Hlt; cbn [combine_reads].
  { exists w. split_and!; try done. apply slots_cons. split; [done|]. intros k x Hk%lookupZ_Some. cbn in Hk. lia. }
  apply Forall_cons in Hours as [[(e & He & Hre) _] Hours]. pose proof Hours as [[(e' & He' & Hre') _] _]%Forall_cons.
  apply slots_cons in Hs as [Hb Hs]. cbn [length] in Hlt. apply NoDup_cons in Hnd as [Hnp Hnd]. pose proof Hnd as [Hnb _]%NoDup_cons.
  destruct (can_start_run others ios m0 mu pins w b e' (tg (first + 1)) true) as (w1 & Hrun1 & Hw1 & Hb1 & Hst1); try done.
  assert (in_slot (tg first) true false w1 prev) as Hprev1 by (eapply slot_step; [exact Hst1|set_solver|done]).
  destruct (Hprev1) as (dp & Hdp). destruct (Hb1) as (db & Hdb).
  destruct (block_number_run _ _ _ _ w1 prev dp e Hw1 He Hre (sl_desc _ _ _ _ _ _ Hdp)) as (w2 & Hrun2 & Hs2 & Hw2).
  assert (desc_at w2 (b - 1) db) as Hdb2 by (unfold desc_at; rewrite Hs2; apply Hdb).
  destruct (block_number_run _ _ _ _ w2 b db e' Hw2 He' Hre' Hdb2) as (w3 & Hrun3 & Hs3 & Hw3).
  rewrite (sl_tag _ _ _ _ _ _ Hdp) in Hrun2. rewrite (sl_tag _ _ _ _ _ _ Hdb) in Hrun3. assert (shm w3 = shm w1) as E31 by congruence.
  destruct (IH (b :: ios) b (first + 1) w3) as (w4 & Hrun4 & Hw4 & Hs4 & Hst4); try done; [by eapply in_slot_shm| |lia|lia|].
  { eapply slots_shm; [exact E31|]. eapply slots_step; [exact Hst1| |done]. set_solver. }
  exists w4. split_and!.
  - run Hrun1. cbn [negb]. run Hrun2. run Hrun3. rewrite c_assert_ok; [by run Hrun4|]. cbn. apply Z.eqb_eq. unfold u32. rewrite Z.mod_small; lia.
  - cbn [rev]. by rewrite <- app_assoc.
  - apply slots_cons. split; [|done]. eapply slot_step; [exact Hst4|set_solver|]. by eapply in_slot_shm.
  - etrans; [eapply step_on_weaken; [|exact Hst1]; set_solver|]. etrans; [by apply step_shm_any|]. eapply step_on_weaken; [|exact Hst4]. set_solver.
Qed.

(** ** Starting a read *)

(** An operation on the blocks from [first] on, of which [k] are done. *)
Record op_for (flags first : Z) (bs : list Z) (k : Z) (op : ReadBuffersOperation) : Prop := {
  of_smgr : op_smgr op = reln;
  of_persistence : op_persistence op <> RELPERSISTENCE_TEMP;
  of_fork : op_forknum op = fork;
  of_flags : op_flags op = flags;
  of_first : op_blocknum op = first;
  of_len : op_nblocks op = Z.of_nat (length bs);
  of_buffers : take (length bs) (op_buffers op) = bs;
  of_done : op_nblocks_done op = k
}.

(** The blocks can be read: in one segment, by the caller, no more than the counters
    of a result can tell, none of them damaged and to be replaced with zeros. *)
Record readable (flags first : Z) (bs : list Z) (others : Z -> Z) (mu : gmap Z PrivateRefCountData) (s : Shared) : Prop := {
  ra_sync : ztrue (Z.land flags READ_BUFFERS_SYNCHRONOUSLY) = true;
  ra_nodup : NoDup bs;
  ra_ours : Forall (ours others mu) bs;
  ra_len : Z.of_nat (length bs) <= READV_COUNT_MASK;
  ra_first : 0 <= first;
  ra_last : first + Z.of_nat (length bs) < 2 ^ 32;
  ra_segment : first mod RELSEG_SIZE + Z.of_nat (length bs) <= RELSEG_SIZE;
  ra_damage : no_damage (read_flags flags) first (Z.of_nat (length bs)) s
}.

Lemma readable_pins flags first bs others mu s : readable flags first bs others mu s -> Forall (own_pin mu) bs.
Proof using All. intros [_ _ Ho _ _ _ _ _]. eapply Forall_impl; [exact Ho|]. by intros b []. Qed.

Lemma readable_drop flags first bs others mu s k :
  readable flags first bs others mu s -> (k <= length bs)%nat -> readable flags (first + Z.of_nat k) (drop k bs) others mu s.
Proof using All.
  intros [R1 R2 R3 R4 R5 R6 R7 R8] Hk. assert (Z.of_nat (length (drop k bs)) = Z.of_nat (length bs) - Z.of_nat k) as E by (rewrite length_drop; lia).
  split; rewrite ?E; try done; [by eapply sublist_NoDup; [|apply sublist_drop]|by apply Forall_drop|lia..| |].
  - unfold RELSEG_SIZE in *. zdm.
  - intros j q Hj. apply R8. lia.
Qed.

Lemma mdstartreadv_run ioh hf flags others ios m0 mu pins start bs w :
  let td := mkPgAioTargetData reln start (Z.of_nat (length bs)) fork false in
  ztrue (Z.land hf PGAIO_HF_SYNCHRONOUS) = true -> bs <> [] -> readable flags start bs others mu (shm w) ->
  work others (with_owned_ios (rev bs ++ ios) m0) mu pins w -> slots true false start bs w ->
  wp (mdstartreadv ioh hf [(PGAIO_HCB_SHARED_BUFFER_READV, read_flags flags)] false reln fork start bs) (fun o w' => match o with
    | Ret (Some r, td') => td' = td /\ work others (with_owned_ios ios m0) mu pins w' /\ step bs w w' /\
        read_done (read_flags flags) start bs w' td r
    | Elog _ => true ∈ smgr_faults m0 /\ pool (shm w') /\ seen (shm w) (shm w')
    | _ => False
    end) w.
Proof using All.
  intros td Hsync Hne [R1 R2 R3 R4 R5 R6 R7 R8] Hw Hs. unfold mdstartreadv.
  destruct (smgr_call_work same_page permanent n p strategy others _ _ _ w Hw) as (w1 & Hs1 & Hcall).
  assert ((interfere ;; smgr_call) w = smgr_call w) as E by (by run (interfere_quiet w (aw_quiet _ _ _ _ _ _ _ _ _ _ Hw))). rewrite E in Hcall.
  destruct Hcall as [[Hrun Hf]|[Hrun Hw1]].
  { eapply wp_bind, wp_eq; [exact Hrun|]. cbn. rewrite Hs1. split_and!; [done|by eapply aw_pool|done]. }
  eapply wp_step; [run Hrun; reflexivity|]. rewrite Z.min_l, Z.eqb_refl by (unfold RELSEG_SIZE in *; lia). cbn [negb]. cbv zeta. fold td.
  destruct (pgaio_io_stage_run same_page permanent n p strategy reln fork ioh hf (read_flags flags) others ios m0 mu pins start bs w1)
    as (r & w2 & Hrun2 & Hw2 & Hst2 & Hdone); try done; [by eapply slots_shm|by rewrite Hs1|].
  eapply wp_eq; [by run Hrun2|]. split_and!; try done. etrans; [by apply step_shm_any|done].
Qed.

Lemma read_done_shm flags start bs w w' td r : shm w' = shm w -> read_done flags start bs w td r -> read_done flags start bs w' td r.
Proof using All.
  intros E [D1 D2 D3 D4 D5]. split; try done.
  - intros j b Hj. destruct (D3 j b Hj) as (v & Hv). exists v. by eapply in_slot_shm.
  - intros Hr. destruct (D4 Hr) as [Hres Hup]. split; [done|]. intros j b Hj. destruct (Hup j b Hj) as [U1 U2].
    split; [by eapply in_slot_shm|]. intros Hlt. destruct (U2 Hlt) as (q & Hq). exists q. by rewrite E.
  - intros Hr. destruct (D5 Hr) as [(wc & C1 & C2)|Hbad]; [left|right; by rewrite E].
    exists wc. split; [|done]. etrans; [by apply step_shm_any|done].
Qed.

(** The result of the read is in the operation. *)
Definition io_done (flags first : Z) (bs : list Z) (k : nat) (op : ReadBuffersOperation) (w : World) : Prop :=
  is_Some (op_io_wref op) /\
  read_done (read_flags flags) (first + Z.of_nat k) (drop k bs) w (op_io_return op).2 (op_io_return op).1.

Definition started_post (flags first : Z) (bs : list Z) (k : nat) others (m0 : Backend) mu pins (w : World)
    (o : outcome (ReadBuffersOperation * Z * bool)) (w' : World) : Prop :=
  match o with
  | Ret (op', len, started) => len = Z.of_nat (length (drop k bs)) /\ started = true /\ op_for flags first bs (Z.of_nat k) op' /\
      work others m0 mu pins w' /\ step (drop k bs) w w' /\ io_done flags first bs k op' w'
  | Elog _ => true ∈ smgr_faults m0 /\ pool (shm w') /\ seen (shm w) (shm w')
  | _ => False
  end.

Lemma op_for_io flags first bs k op wref r : op_for flags first bs k op -> op_for flags first bs k (with_op_io wref r op).
Proof using All. intros []. by split. Qed.

Lemma start_read_run op ioh flags first bs (k : nat) b rest others ios m0 mu pins w :
  op_for flags first bs (Z.of_nat k) op -> (k <= length bs)%nat -> drop k bs = b :: rest -> readable flags first bs others mu (shm w) ->
  work others (with_owned_ios (b :: ios) m0) mu pins w -> in_slot (tg (first + Z.of_nat k)) true false w b ->
  slots false false (first + Z.of_nat k + 1) rest w ->
  wp (start_read op ioh b rest) (started_post flags first bs k others (with_owned_ios ios m0) mu pins w) w.
Proof using All.
  intros Hop Hk Hdrop Hra Hw Hb Hs. pose proof (readable_drop _ _ _ _ _ _ k Hra Hk) as Hra'. rewrite Hdrop in Hra'.
  destruct (Hop) as [O1 O2 O3 O4 O5 O6 O7 O8]. destruct (Hra') as [R1 R2 R3 R4 R5 R6 R7 R8]. cbn [length] in R6.
  unfold start_read. rewrite bool_decide_eq_false_2, O4, R1, O1, O3, O5, O8 by done. cbv zeta.
  destruct (combine_run others m0 mu pins rest (b :: ios) b (first + Z.of_nat k) w) as (w1 & Hrun1 & Hw1 & Hs1 & Hst1); try done; [lia|].
  eapply wp_step; [run Hrun1; reflexivity|]. unfold u32. rewrite Z.mod_small by lia. apply wp_bind.
  eapply wp_mono; [|apply (mdstartreadv_run ioh PGAIO_HF_SYNCHRONOUS flags others ios m0 mu pins (first + Z.of_nat k) (b :: rest) w1)]; try done.
  2: { split; try done. intros j q Hj. unfold disk_page. rewrite (so_disk _ _ _ _ Hst1). by apply R8. }
  2: { cbn [rev]. by rewrite <- app_assoc. }
  intros [[[r|] td]|e|e|] w2; cbn [bind_post]; try done.
  - intros (-> & Hw2 & Hst2 & Hdone).
    destruct (count_read_work _ _ _ _ false (Z.of_nat (length (b :: rest))) w2 Hw2) as (w3 & Hrun3 & Hs3 & Hw3).
    destruct (record_miss_work _ _ _ _ (Z.of_nat (length (b :: rest))) w3 Hw3) as (w3' & Hrun3' & Hs3' & Hw3').
    destruct (charge_work _ _ _ _ (fun a => VacuumCostPageMiss a * Z.of_nat (length (b :: rest))) w3' Hw3') as (w4 & Hrun4 & Hs4 & Hw4).
    eapply wp_eq; [run Hrun3; cbn [when negb]; run Hrun3'; run Hrun4; reflexivity|]. assert (shm w4 = shm w2) as E42 by congruence. split_and!; try done.
    + by rewrite Hdrop.
    + rewrite Hdrop. etrans; [eapply step_on_weaken; [|exact Hst1]; set_solver|]. etrans; [exact Hst2|by apply step_shm_any].
    + split; [done|]. rewrite Hdrop. by eapply read_done_shm.
  - intros (Hf & Hp & Hse). split_and!; try done. etrans; [apply Hst1|done].
Qed.

Lemma AsyncReadBuffers_run op flags first bs (k : nat) others ios m0 mu pins w :
  op_for flags first bs (Z.of_nat k) op -> (k < length bs)%nat -> readable flags first bs others mu (shm w) ->
  work others (with_owned_ios ios m0) mu pins w -> slots false false (first + Z.of_nat k) (drop k bs) w ->
  wp (AsyncReadBuffers op) (started_post flags first bs k others (with_owned_ios ios m0) mu pins w) w.
Proof using All.
  intros Hop Hk Hra Hw Hs. unfold AsyncReadBuffers, acquire_handle. destruct (ai_acquire w) as (ioh & Hio).
  eapply wp_step; [rewrite bind_assoc; run Hio; rewrite bind_ret_l; reflexivity|]. destruct (op_io_return op) as [r td] eqn:Er.
  set (op1 := with_op_io _ _ op). assert (op_for flags first bs (Z.of_nat k) op1) as Hop1 by (by apply op_for_io).
  rewrite (of_done _ _ _ _ _ Hop1), (of_len _ _ _ _ _ Hop1), !Nat2Z.id, (of_buffers _ _ _ _ _ Hop1).
  destruct (drop k bs) as [|b rest] eqn:Hdrop.
  { apply (f_equal length) in Hdrop. rewrite length_drop in Hdrop. cbn in Hdrop. lia. }
  apply slots_cons in Hs as [Hb Hs]. assert (b ∈ bs) as Hin by (rewrite <- (take_drop k bs), Hdrop; set_solver).
  destruct (proj1 (Forall_forall _ _) (ra_ours _ _ _ _ _ _ Hra) b Hin) as [(e & He & _) _].
  destruct (can_start_run others ios m0 mu pins w b e _ false Hw He Hb) as (w1 & Hrun1 & Hw1 & Hb1 & Hst1).
  eapply wp_step; [run Hrun1; reflexivity|]. cbn [negb].
  assert (b ∉ rest) as Hnb.
  { pose proof (ra_nodup _ _ _ _ _ _ Hra) as Hnd. rewrite <- (take_drop k bs), Hdrop in Hnd. by apply NoDup_app in Hnd as (_ & _ & [? _]%NoDup_cons). }
  eapply wp_mono; [|apply (start_read_run op1 ioh flags first bs k b rest others ios m0 mu pins w1)]; try done; [|lia|..].
  - intros [[[op' len] st]|e'|e'|] w2; unfold started_post; try done.
    + rewrite Hdrop. intros (? & ? & ? & ? & Hst2 & ?). split_and!; try done. etrans; [|exact Hst2]. eapply step_on_weaken; [|exact Hst1]. set_solver.
    + intros (? & ? & ?). split_and!; try done. etrans; [apply Hst1|done].
  - destruct Hra as [R1 R2 R3 R4 R5 R6 R7 R8]. split; try done. by eapply no_damage_step.
  - eapply slots_step; [exact Hst1|set_solver|done].
Qed.

(** ** Checks *)
Definition names_block (t : BufferTag) (need : bool) (w : World) (b : Z) : Prop :=
  exists d, desc_at w (b - 1) d /\ tag d = t /\ flag (state d) BM_TAG_VALID = true /\ (need = true -> flag (state d) BM_VALID = true).
Definition named (first k : Z) (bs : list Z) (w : World) (start : Z) : Prop :=
  forall j b, lookupZ bs (j - start) = Some b -> names_block (tg j) (j - first <? k) w b.

Lemma slot_names t valid w b need : in_slot t false valid w b -> (need = true -> valid = true) -> names_block t need w b.
Proof using All. intros (d & []) Hn. exists d. split_and!; try done. intros E. by rewrite sl_valid, Hn. Qed.
Lemma named_shm first k bs w w' start : shm w' = shm w -> named first k bs w start -> named first k bs w' start.
Proof using All. intros E Hs j b Hj. destruct (Hs j b Hj) as (d & Hd & ?). exists d. unfold desc_at in *. by rewrite E. Qed.

Lemma buffer_state_run o m0 mu pins w b d :
  work o m0 mu pins w -> desc_at w (b - 1) d -> buffer_state b w = (Ret (state d), w).
Proof using All.
  intros Hw Hd. pose proof (aw_range _ _ _ _ _ _ _ _ _ _ _ _ Hw Hd). unfold buffer_state, BufferIsLocal. rewrite (proj2 (Z.ltb_ge b 0)) by lia.
  apply read_quiet; [apply Hw|done].
Qed.

Lemma check_buffers_run others m0 mu pins first k bs : forall i w,
  work others m0 mu pins w -> Forall (own_pin mu) bs -> named first k bs w (first + i) ->
  0 <= first + i -> first + i + Z.of_nat (length bs) <= 2 ^ 32 ->
  exists w', check_buffers first k i bs w = (Ret tt, w') /\ shm w' = shm w /\ work others m0 mu pins w'.
Proof using All.
  induction bs as [|b bs IH]; intros i w Hw Hours Hs Hlo Hhi; cbn [check_buffers]; [by exists w|].
  apply Forall_cons in Hours as [(e & He & Hre) Hours]. cbn [length] in Hhi.
  destruct (Hs (first + i) b) as (d & Hd & Ht & Htv & Hv); [apply at_cons; by left|]. replace (first + i - first) with i in Hv by lia.
  destruct (block_number_run _ _ _ _ w b d e Hw He Hre Hd) as (w1 & Hrun1 & Hs1 & Hw1). rewrite Ht in Hrun1.
  assert (desc_at w1 (b - 1) d) as Hd1 by (unfold desc_at; by rewrite Hs1). pose proof (buffer_state_run _ _ _ _ w1 b d Hw1 Hd1) as Hst.
  destruct (IH (i + 1) w1) as (w2 & Hrun2 & Hs2 & Hw2); try done; [|lia|lia|].
  { apply (named_shm _ _ _ w); [done|]. intros j c Hj. apply Hs. apply at_cons. right. by rewrite Z.add_assoc in Hj. }
  exists w2. split_and!; [|congruence|done]. run Hrun1. rewrite c_assert_ok.
  2: { cbn. apply Z.eqb_eq. unfold u32. rewrite Z.mod_small; lia. }
  run Hst. rewrite c_assert_ok by done. destruct (i <? k) eqn:E; cbn [when]; [|by rewrite bind_ret_l].
  rewrite bind_assoc. run Hst. by rewrite Hv, c_assert_ok.
Qed.

Lemma CheckReadBuffersOperation_run others m0 mu pins flags first bs (k : nat) op is_complete w :
  op_for flags first bs (Z.of_nat k) op -> (k <= length bs)%nat -> (is_complete = true -> k = length bs) ->
  work others m0 mu pins w -> Forall (own_pin mu) bs -> named first (Z.of_nat k) bs w first ->
  0 <= first -> first + Z.of_nat (length bs) <= 2 ^ 32 ->
  exists w', CheckReadBuffersOperation op is_complete w = (Ret tt, w') /\ shm w' = shm w /\ work others m0 mu pins w'.
Proof using All.
  intros [O1 O2 O3 O4 O5 O6 O7 O8] Hk Hc Hw Hours Hs Hlo Hhi.
  destruct (check_buffers_run others m0 mu pins first (Z.of_nat k) bs 0 w) as (w' & Hrun & ? & ?); rewrite ?Z.add_0_r; try done.
  exists w'. split_and!; try done. unfold CheckReadBuffersOperation. rewrite O8, O6, O5, Nat2Z.id, O7.
  rewrite c_assert_ok by (apply Z.leb_le; lia). rewrite c_assert_ok; [done|].
  destruct is_complete; [|done]. cbn. apply Z.eqb_eq. rewrite (Hc eq_refl). done.
Qed.

(** ** Waiting *)
Lemma ProcessReadBuffersResult_run flags first bs (k : nat) op others mu s w :
  op_for flags first bs (Z.of_nat k) op -> (k <= length bs)%nat -> readable flags first bs others mu s -> io_done flags first bs k op w ->
  let r := (op_io_return op).1 in
  result_status r = PGAIO_RS_ERROR /\ (exists e, ProcessReadBuffersResult op w = (Elog e, w)) \/
  result_status r <> PGAIO_RS_ERROR /\ ProcessReadBuffersResult op w = (Ret (with_op_nblocks_done (Z.of_nat k + result r) op), w).
Proof using All.
  intros Hop Hk Hra [[wref Hwref] [D1 D2 D3 D4 D5]] r. unfold ProcessReadBuffersResult. destruct (op_io_return op) as [r' td]. subst r. cbn [fst snd] in *.
  rewrite !c_assert_ok by (rewrite ?Hwref; by (apply bool_decide_eq_true_2 || apply negb_true_iff, bool_decide_eq_false_2)).
  assert (forall level, level <> ERROR -> result_status r' <> PGAIO_RS_OK -> pgaio_result_report r' td level w = (Ret tt, w)) as Hrep.
  { intros level Hl Hs. destruct (D2 Hs level w) as (msg & ->). by apply ereport_quiet. }
  destruct (decide (result_status r' = PGAIO_RS_ERROR)) as [E|E].
  - left. split; [done|]. rewrite (bool_decide_eq_true_2 _ E). destruct (D2 ltac:(by rewrite E) ERROR w) as (msg & Hmsg). exists msg. unfold bind at 1. by rewrite Hmsg.
  - right. split; [done|]. rewrite (bool_decide_eq_false_2 _ E). destruct (D4 E) as [Hres _].
    assert ((if bool_decide (result_status r' = PGAIO_RS_WARNING) then pgaio_result_report r' td WARNING
      else if bool_decide (result_status r' = PGAIO_RS_PARTIAL) then pgaio_result_report r' td DEBUG1 else ret tt) w = (Ret tt, w)) as Hr.
    { repeat case_bool_decide; [..|done]; apply Hrep; congruence. }
    rewrite length_drop in Hres. pose proof (ra_len _ _ _ _ _ _ Hra) as Hlen. change READV_COUNT_MASK with 127 in Hlen.
    run Hr. cbn [op_nblocks_done op_nblocks with_op_nblocks_done]. rewrite (of_done _ _ _ _ _ Hop), (of_len _ _ _ _ _ Hop).
    rewrite !c_assert_ok; [done|apply Z.leb_le..|apply Z.ltb_lt]; unfold MAX_IO_COMBINE_LIMIT; lia.
Qed.

(** The first [k] blocks are read; the others are unread, or the result of their
    read is in the operation. *)
Record waiting (flags first : Z) (bs : list Z) others (m0 : Backend) mu pins (w0 : World) (k : nat) (op : ReadBuffersOperation) (w : World) : Prop := {
  wt_op : op_for flags first bs (Z.of_nat k) op;
  wt_done : (k <= length bs)%nat;
  wt_work : work others m0 mu pins w;
  wt_step : step bs w0 w;
  wt_read : forall j b, lookupZ bs (j - first) = Some b -> j - first < Z.of_nat k -> in_slot (tg j) false true w b /\ has_page w b j;
  wt_rest : op_io_wref op = None /\ slots false false (first + Z.of_nat k) (drop k bs) w \/ (k < length bs)%nat /\ io_done flags first bs k op w
}.

(** Why an operation on the buffers [bs], started in [w], fails: after some of its
    blocks, which are valid now, the system call for all the others, made while
    their buffers are claimed, brings no whole page; or one of the blocks has a page
    that does not pass verification.  The call is made in a world that the operation
    has changed in its own buffers alone. *)
Definition read_trouble (flags first : Z) (bs : list Z) (w : World) : Prop :=
  (exists (k : nat) wc, (k < length bs)%nat /\ step bs w wc /\
     (forall j b, lookupZ bs (j - first) = Some b -> j - first < Z.of_nat k -> in_slot (tg j) false true wc b) /\
     slots true false (first + Z.of_nat k) (drop k bs) wc /\
     rr_result (pg_preadv wc (mkPgAioTargetData reln (first + Z.of_nat k) (Z.of_nat (length bs - k)) fork false)) < BLCKSZ) \/
  bad_page reln fork (read_flags flags) first (Z.of_nat (length bs)) (shm w).

Definition read_failed (flags first : Z) (bs : list Z) (m0 : Backend) (w w' : World) : Prop :=
  (true ∈ smgr_faults m0 \/ read_trouble flags first bs w) /\ pool (shm w') /\ seen (shm w) (shm w').

Lemma lookupZ_drop {A} (l : list A) (k : nat) j first :
  first + Z.of_nat k <= j -> lookupZ (drop k l) (j - (first + Z.of_nat k)) = lookupZ l (j - first).
Proof using Type.
  intros Hj. unfold lookupZ. rewrite !(proj2 (Z.leb_le 0 _)) by lia. rewrite lookup_drop. f_equal. lia.
Qed.

Lemma before_drop {A} (l : list A) (k : nat) i x : NoDup l -> lookupZ l i = Some x -> i < Z.of_nat k -> x ∉ drop k l.
Proof using Type.
  intros Hnd Hx Hi. pose proof (lookupZ_Some _ _ _ Hx). rewrite <- (take_drop k l) in Hnd. apply NoDup_app in Hnd as (_ & Hd & _). apply Hd.
  unfold lookupZ in Hx. destruct (0 <=? i); [|done]. apply (list_elem_of_lookup_2 _ (Z.to_nat i)). by rewrite lookup_take_lt by lia.
Qed.

Lemma waiting_named flags first bs others m0 mu pins w0 k op w :
  waiting flags first bs others m0 mu pins w0 k op w -> named first (Z.of_nat k) bs w first.
Proof using All.
  intros [W1 W2 W3 W4 W5 W6] j b Hj. destruct (Z.ltb_spec (j - first) (Z.of_nat k)) as [Hlt|Hge].
  - destruct (W5 j b Hj Hlt) as [Hs _]. by eapply slot_names.
  - assert (lookupZ (drop k bs) (j - (first + Z.of_nat k)) = Some b) as Hj' by (rewrite lookupZ_drop; [done|lia]).
    destruct W6 as [[_ Hs]|[_ [_ Hs]]]; [eapply slot_names; [by apply Hs|done]|].
    destruct (dn_slots _ _ _ _ _ _ _ _ _ Hs j b Hj') as (v & Hv). by eapply slot_names.
Qed.

Lemma waiting_shm flags first bs others m0 mu pins w0 k op w w' :
  waiting flags first bs others m0 mu pins w0 k op w -> shm w' = shm w -> work others m0 mu pins w' -> waiting flags first bs others m0 mu pins w0 k op w'.
Proof using All.
  intros [W1 W2 W3 W4 W5 W6] E Hw'. split; try done.
  - etrans; [exact W4|by apply step_shm_any].
  - intros j b Hj Hlt. destruct (W5 j b Hj Hlt) as [Hs (q & Hq)]. split; [by eapply in_slot_shm|]. exists q. by rewrite E.
  - destruct W6 as [[? ?]|[? [? ?]]]; [left|right]; split; try done; [by eapply slots_shm|]. split; [done|by eapply read_done_shm].
Qed.

(** What has been read now adds to what had been read before. *)
Lemma waiting_more flags first bs others m0 mu pins w0 (k : nat) op w (r : Z) :
  waiting flags first bs others m0 mu pins w0 k op w -> 0 < r <= Z.of_nat (length (drop k bs)) ->
  read_upto (first + Z.of_nat k) (drop k bs) r w ->
  let k' := (k + Z.to_nat r)%nat in
  (k < k' <= length bs)%nat /\ op_for flags first bs (Z.of_nat k') (with_op_nblocks_done (Z.of_nat k + r) op) /\
  (forall j b, lookupZ bs (j - first) = Some b -> j - first < Z.of_nat k' -> in_slot (tg j) false true w b /\ has_page w b j) /\
  slots false false (first + Z.of_nat k') (drop k' bs) w.
Proof using All.
  intros [[O1 O2 O3 O4 O5 O6 O7 O8] W2 W3 W4 W5 W6] Hr Hup k'. rewrite length_drop in Hr. assert (Z.of_nat k' = Z.of_nat k + r) as Ek by lia. split_and!; [lia|lia|..].
  - split; try done.
  - intros j b Hj Hlt. destruct (Z.lt_ge_cases (j - first) (Z.of_nat k)) as [|Hge]; [auto|].
    destruct (Hup j b) as [U1 U2]; [rewrite lookupZ_drop; [done|lia]|]. rewrite (proj2 (Z.ltb_lt _ _)) in U1 by lia. split; [done|]. apply U2. lia.
  - intros j b Hj. pose proof (lookupZ_range _ _ _ _ Hj) as Hrange. rewrite lookupZ_drop in Hj by lia.
    destruct (Hup j b) as [U1 _]; [rewrite lookupZ_drop; [done|lia]|]. by rewrite (proj2 (Z.ltb_ge _ _)) in U1 by lia.
Qed.

Definition waited (flags first : Z) (bs : list Z) others (m0 : Backend) mu pins (w0 : World) (o : outcome ReadBuffersOperation) (w : World) : Prop :=
  match o with
  | Ret op => op_for flags first bs (Z.of_nat (length bs)) op /\ work others m0 mu pins w /\ step bs w0 w /\
      read_upto first bs (Z.of_nat (length bs)) w
  | Elog _ => read_failed flags first bs m0 w0 w
  | _ => False
  end.

(** The rounds to go: one for each result and one for the first read. *)
Definition rounds (bs : list Z) (k : nat) (op : ReadBuffersOperation) : nat :=
  2 * (length bs - k) + (if op_io_wref op is Some _ then 0 else 1).
Definition wait_inv flags first bs others m0 mu pins w0 (m : nat) (op : ReadBuffersOperation) (w : World) : Prop :=
  exists k, m = rounds bs k op /\ waiting flags first bs others m0 mu pins w0 k op w.

Lemma readable_step flags first bs others mu cs w w' :
  step cs w w' -> readable flags first bs others mu (shm w) -> readable flags first bs others mu (shm w').
Proof using All. intros Hst [R1 R2 R3 R4 R5 R6 R7 R8]. split; try done. by eapply no_damage_step. Qed.

Lemma read_next_run flags first bs others ios m0 mu pins w0 (k m : nat) op w :
  let m1 := with_owned_ios ios m0 in
  readable flags first bs others mu (shm w0) -> op_for flags first bs (Z.of_nat k) op -> (k <= length bs)%nat -> work others m1 mu pins w -> step bs w0 w ->
  (forall j b, lookupZ bs (j - first) = Some b -> j - first < Z.of_nat k -> in_slot (tg j) false true w b /\ has_page w b j) ->
  slots false false (first + Z.of_nat k) (drop k bs) w -> (2 * (length bs - k) < m)%nat ->
  wp (if op_nblocks_done op =? op_nblocks op then ret (Break op)
      else let* '(op, _, _) := AsyncReadBuffers op in ret (Continue op))
    (round_post (wait_inv flags first bs others m1 mu pins w0) m (waited flags first bs others m1 mu pins w0)) w.
Proof using All.
  intros m1 Hra Hop Hk Hw Hst Hread Hs Hm. rewrite (of_done _ _ _ _ _ Hop), (of_len _ _ _ _ _ Hop).
  destruct (Z.eqb_spec (Z.of_nat k) (Z.of_nat (length bs))) as [E|E].
  { apply wp_ret. assert (k = length bs) as -> by lia. cbn. split_and!; try done. intros j b Hj. pose proof (lookupZ_range _ _ _ _ Hj).
    rewrite (proj2 (Z.ltb_lt _ _)) by lia. destruct (Hread j b Hj) as [R1 R2]; [lia|]. by split. }
  apply wp_bind. eapply wp_mono; [|apply (AsyncReadBuffers_run op flags first bs k others ios m0 mu pins w)]; try done; [|lia|by eapply readable_step].
  intros [[[op' len] st]|e|e|] w1; cbn [started_post bind_post]; try done.
  - intros (_ & _ & Hop' & Hw1 & Hst1 & Hio). apply wp_ret. exists (2 * (length bs - k))%nat. split; [done|]. exists k. split.
    { unfold rounds. destruct Hio as [[wref ->] _]. lia. }
    split; try done; [|..|right; split; [lia|done]].
    + etrans; [done|]. eapply step_on_weaken; [|done]. intros x Hx. rewrite <- (take_drop k bs). set_solver.
    + intros j b Hj Hlt. destruct (Hread j b Hj Hlt) as [R1 (q & Q1 & Q2)]. 
      assert (b ∉ drop k bs) as Hb by (eapply before_drop; [apply Hra|done|done]).
      split; [by eapply slot_step|]. exists q. unfold disk_page. rewrite (so_disk _ _ _ _ Hst1), (so_blocks _ _ _ _ Hst1); [done|].
      by replace (b - 1 + 1) with b by lia.
  - intros (Hf & Hp & Hse). split_and!; [by left|done|]. etrans; [apply Hst|done].
Qed.

(** A read of the blocks that are left has failed. *)
Lemma waiting_trouble flags first bs others m0 mu pins w0 (k : nat) op w :
  NoDup bs -> waiting flags first bs others m0 mu pins w0 k op w -> (k < length bs)%nat -> io_done flags first bs k op w ->
  result_status (op_io_return op).1 = PGAIO_RS_ERROR -> read_trouble flags first bs w0.
Proof using All.
  intros Hnd [W1 W2 W3 W4 W5 W6] Hk [_ Hd] He.
  destruct (dn_bad _ _ _ _ _ _ _ _ _ Hd He) as [(wc & C1 & C2 & C3)|(j & q & K1 & K2 & K3)]; rewrite length_drop in *; [left|right].
  - exists k, wc. split_and!; try done.
    + etrans; [exact W4|]. eapply step_on_weaken; [|exact C1]. intros x Hx. rewrite <- (take_drop k bs). set_solver.
    + intros j b Hj Hlt. destruct (W5 j b Hj Hlt) as [Hs _]. eapply slot_step; [exact C1|by eapply before_drop|done].
  - exists j, q. split_and!; try done; [lia|lia|]. unfold disk_page in *. by rewrite (so_disk _ _ _ _ W4) in K2.
Qed.

Lemma wait_round_run flags first bs others ios m0 mu pins w0 (m : nat) op w :
  let m1 := with_owned_ios ios m0 in
  readable flags first bs others mu (shm w0) -> wait_inv flags first bs others m1 mu pins w0 m op w ->
  wp (wait_round op) (round_post (wait_inv flags first bs others m1 mu pins w0) m (waited flags first bs others m1 mu pins w0)) w.
Proof using All.
  intros m1 Hra (k & -> & Hwt). unfold wait_round. pose proof Hra as [R1 R2 R3 R4 R5 R6 R7 R8].
  destruct (CheckReadBuffersOperation_run others m1 mu pins flags first bs k op false w) as (w1 & Hrun1 & Hs1 & Hw1);
    try done; [apply Hwt|apply Hwt|apply Hwt|by eapply readable_pins|by eapply waiting_named|lia|].
  eapply wp_step; [run Hrun1; reflexivity|]. assert (waiting flags first bs others m1 mu pins w0 k op w1) as Hwt1 by (by eapply waiting_shm).
  clear w Hwt Hrun1 Hs1. pose proof Hwt1 as [W1 W2 W3 W4 W5 [[W6 W7]|[W6 W7]]].
  - rewrite W6. eapply wp_step; [rewrite bind_ret_l; reflexivity|]. apply (read_next_run _ _ _ _ ios m0 _ _ _ k); try done. unfold rounds. rewrite W6. lia.
  - destruct (W7) as [[wref Hwref] Hd]. rewrite Hwref.
    assert (wait_result op wref w1 = (Ret op, w1)) as Hres0.
    { unfold wait_result. rewrite bool_decide_eq_false_2 by apply Hd. run (ai_done wref w1). by rewrite c_assert_ok. }
    eapply wp_step; [rewrite bind_assoc; run Hres0; reflexivity|].
    destruct (ProcessReadBuffersResult_run flags first bs k op others mu (shm w0) w1) as [[He (e & Hrun)]|[He Hrun]]; try done.
    + eapply wp_bind, wp_eq; [exact Hrun|]. cbn. split_and!; [right|by eapply aw_pool|apply W4]. by eapply waiting_trouble.
    + eapply wp_step; [run Hrun; reflexivity|]. destruct (dn_good _ _ _ _ _ _ _ _ _ Hd He) as [Hres Hup].
      destruct (waiting_more _ _ _ _ _ _ _ _ _ _ _ _ Hwt1 Hres Hup) as (M1 & M2 & M3 & M4). cbv zeta in *.
      eapply (read_next_run _ _ _ _ ios m0); try done; [lia|]. unfold rounds. rewrite Hwref. lia.
Qed.

Lemma WaitReadBuffers_run flags first bs others ios m0 mu pins w0 k op w :
  let m1 := with_owned_ios ios m0 in
  readable flags first bs others mu (shm w0) -> waiting flags first bs others m1 mu pins w0 k op w ->
  op_io_wref op <> None \/ io_method_sync = true ->
  wp (WaitReadBuffers op) (waited flags first bs others m1 mu pins w0) w.
Proof using All.
  intros m1 Hra Hwt Hio. unfold WaitReadBuffers.
  assert (bool_decide (op_io_wref op = None) && negb io_method_sync = false) as ->.
  { destruct Hio as [|Hio]; [by rewrite bool_decide_eq_false_2|]. rewrite Hio. apply andb_false_r. }
  apply wp_bind. eapply wp_mono; [|eapply (wp_forever (wait_inv flags first bs others m1 mu pins w0)); [intros; by apply wait_round_run| |by exists k]].
  - intros [op'|e|e|] w1; cbn [waited bind_post]; try done. intros (Hop & Hw1 & Hst & Hup).
    destruct (CheckReadBuffersOperation_run others m1 mu pins flags first bs (length bs) op' true w1) as (w2 & Hrun & Hs2 & Hw2); try done.
    + by eapply readable_pins.
    + intros j b Hj. destruct (Hup j b Hj) as [Hs _]. by eapply slot_names.
    + apply Hra.
    + pose proof (ra_last _ _ _ _ _ _ Hra). lia.
    + eapply wp_eq; [by run Hrun|]. split_and!; try done; [etrans; [done|by apply step_shm_any]|].
      intros j b Hj. destruct (Hup j b Hj) as [H1' H2']. split; [by eapply in_slot_shm|]. intros Hlt. destruct (H2' Hlt) as (q & Hq). exists q. by rewrite Hs2.
  - pose proof (aw_gas _ _ _ _ _ _ _ _ _ _ (wt_work _ _ _ _ _ _ _ _ _ _ _ Hwt)) as Hg. pose proof (ra_len _ _ _ _ _ _ Hra) as Hlen.
    change READV_COUNT_MASK with 127 in Hlen. unfold search_gas, rounds in *. destruct (op_io_wref op); lia.
Qed.

(** ** Pinning the buffer of a block *)
Context (others : Z -> Z).
Local Abbreviation allocated := (allocated same_page permanent n p strategy others).
Local Abbreviation alloc_ready := (alloc_ready same_page permanent n p strategy others).

Lemma allocated_shm m0 mu pins w t v found w1 w2 :
  allocated m0 mu pins w t v found w1 -> shm w2 = shm w1 ->
  work others m0 (<[v + 1 := more_pins (mu !! (v + 1))]> mu) (v + 1 :: pins) w2 -> allocated m0 mu pins w t v found w2.
Proof using All.
  intros [A1 A2 A3 A4 A5 A6] E Hw2. split; try done; unfold desc_at, mem in *; rewrite ?E; try done.
Qed.

Definition pin_post m0 mu pins (w : World) (t : BufferTag) (o : outcome (Z * bool)) (w' : World) : Prop :=
  match o with
  | Ret (b, found) => exists v, b = v + 1 /\ allocated m0 mu pins w t v found w'
  | Elog _ => write_failed same_page permanent n m0 (shm w) (shm w')
  | _ => False
  end.

Lemma PinBufferForBlock_run PageSetChecksumInplace m0 mu pins w persistence blk :
  alloc_ready m0 mu pins w (tg blk) -> blk <> P_NEW -> persistence <> RELPERSISTENCE_TEMP ->
  permanent (tg blk) = bool_decide (persistence = RELPERSISTENCE_PERMANENT) || (fork =? INIT_FORKNUM) ->
  wp (PinBufferForBlock PageSetChecksumInplace reln persistence fork blk strategy) (pin_post m0 mu pins w (tg blk)) w.
Proof using All.
  intros Har Hblk Hpers Hperm. unfold PinBufferForBlock. rewrite (bool_decide_eq_false_2 _ Hpers).
  eapply wp_step; [rewrite c_assert_ok by (by apply negb_true_iff, Z.eqb_neq); apply bind_assoc|].
  apply wp_bind. eapply wp_mono; [|by apply (BufferAlloc_run same_page permanent n p strategy others m0 mu pins w reln persistence fork blk)].
  intros [[v found]|e|e|] w1; cbn [bind_post alloc_post]; try done. intros Hac.
  pose proof Hac as [A1 (d & Hd & _) _ _ _ _]. pose proof (do_id _ _ _ _ _ (aw_desc _ _ _ _ _ _ _ _ _ _ _ _ A1 Hd)) as Hid.
  assert (BufferDescriptorGetBuffer v w1 = (Ret (v + 1), w1)) as Hb by (unfold BufferDescriptorGetBuffer; run (deref_run w1 v d Hd); by rewrite Hid).
  destruct found; cbn [when].
  - destruct (count_hit_work _ _ _ _ false w1 A1) as (w2 & Hrun2 & Hs2 & Hw2). destruct (record_hit_work _ _ _ _ w2 Hw2) as (w2' & Hrun2' & Hs2' & Hw2').
    destruct (charge_work _ _ _ _ VacuumCostPageHit w2' Hw2') as (w3 & Hrun3 & Hs3 & Hw3).
    eapply wp_eq; [rewrite bind_assoc; run Hb; rewrite bind_ret_l; cbn [when]; rewrite bind_assoc; run Hrun2; rewrite bind_assoc; run Hrun2'; run Hrun3; reflexivity|].
    exists v. split; [done|]. eapply allocated_shm; [exact Hac|congruence|done].
  - eapply wp_eq; [rewrite bind_assoc; run Hb; rewrite !bind_ret_l; reflexivity|]. by exists v.
Qed.

(** ** Reading one block *)

(** The page a reader of the block sees. *)
Definition seen_as (s : Shared) (t : BufferTag) (q : Z) : Prop := option_Forall2 same_page (page_seen s t) (Some q).

(** The block is not to be replaced with zeros, and if it has a buffer that is not
    valid, nobody uses that one. *)
Record block_ready (flags blk : Z) (mu : gmap Z PrivateRefCountData) (w : World) : Prop := {
  bk_range : 0 <= blk < P_NEW;
  bk_sound : forall q, seen_as (shm w) (tg blk) q -> no_zeroing (read_flags flags) (tg blk) q;
  bk_unread : forall i, cached (shm w) (tg blk) = None -> SharedBufHash (shm w) !! tg blk = Some i -> others i = 0 /\ mu !! (i + 1) = None
}.

Lemma unread_disk w v d t q : pool (shm w) -> desc_at w v d -> tag d = t -> flag (state d) BM_TAG_VALID = true ->
  flag (state d) BM_VALID = false -> disk_page (shm w) t = Some q -> page_seen (shm w) t = Some q.
Proof using All.
  intros Hp Hd Ht Htv Hv Hq. unfold page_seen, cached. assert (SharedBufHash (shm w) !! t = Some v) as -> by (apply Hp; eauto).
  unfold desc_at in Hd. by rewrite Hd, Hv.
Qed.

Lemma allocated_unread m0 mu pins w t v w1 :
  allocated m0 mu pins w t v false w1 ->
  (forall i, cached (shm w) t = None -> SharedBufHash (shm w) !! t = Some i -> others i = 0 /\ mu !! (i + 1) = None) ->
  others v = 0 /\ mu !! (v + 1) = None /\ in_slot t false false w1 (v + 1) /\ ours others (<[v + 1 := more_pins (mu !! (v + 1))]> mu) (v + 1).
Proof using All.
  intros [A1 (d & Hd & Ht & Htv & Hv & Hr & Hi) A3 A4 A5 A6] Hun.
  assert (others v = 0 /\ mu !! (v + 1) = None) as [Ho Hmu].
  { destruct (SharedBufHash (shm w) !! t) as [i|] eqn:Hh; [|by destruct A5 as (_ & _ & ? & ?)]. destruct A5 as [-> _].
    apply Hun; [|done]. destruct (cached (shm w) t) eqn:E; [|done]. discriminate (proj2 A6 (mk_is_Some _ _ eq_refl)). }
  split_and!; try done.
  - exists d. apply slot_of_idle; try done; [by replace (v + 1 - 1) with v by lia| |by apply Hi].
    destruct (flag (state d) BM_DIRTY) eqn:E; [|done]. by rewrite (do_dirty _ _ _ _ _ (aw_desc _ _ _ _ _ _ _ _ _ _ _ _ A1 Hd) E) in Hv.
  - split; [eexists; split; [apply lookup_insert_eq|by rewrite Hmu]|]. replace (v + 1 - 1) with v by lia. lia.
Qed.

Definition mode_flags (mode : ReadBufferMode) : Z :=
  if bool_decide (mode = RBM_ZERO_ON_ERROR) then Z.lor READ_BUFFERS_SYNCHRONOUSLY READ_BUFFERS_ZERO_ON_ERROR else READ_BUFFERS_SYNCHRONOUSLY.

Lemma mode_flags_ok mode :
  let flags := mode_flags mode in
  ztrue (Z.land flags READ_BUFFERS_SYNCHRONOUSLY) = true /\ ztrue (Z.land flags READ_BUFFERS_ISSUE_ADVICE) = false /\
  Z.lor flags READ_BUFFERS_SYNCHRONOUSLY = flags.
Proof using Type. by destruct mode. Qed.

Lemma unread_readable mode m0 mu pins w v w1 blk :
  block_ready (mode_flags mode) blk mu w -> allocated m0 mu pins w (tg blk) v false w1 ->
  readable (mode_flags mode) blk [v + 1] others (<[v + 1 := more_pins (mu !! (v + 1))]> mu) (shm w1) /\ in_slot (tg blk) false false w1 (v + 1).
Proof using All.
  intros [B1 B2 B3] Hac. destruct (allocated_unread _ _ _ _ _ _ _ Hac (fun i Hc Hi => B3 i Hc Hi)) as (_ & _ & Hs & Hours). split; [|done].
  destruct Hac as [A1 (d & Hd & Ht & Htv & Hv & _) _ A4 _ _]. change P_NEW with (2 ^ 32 - 1) in B1. split; cbn [length]; try done; try lia.
  - apply mode_flags_ok.
  - apply NoDup_singleton.
  - by apply Forall_singleton.
  - unfold RELSEG_SIZE. zdm.
  - intros k q Hk Hq. assert (k = blk) as -> by lia. apply B2. unfold seen_as.
    rewrite <- (unread_disk w1 v d (tg blk) q); try done. by eapply aw_pool.
Qed.

Definition start_post (flags blk : Z) m0 mu pins (w : World) (o : outcome (ReadBuffersOperation * bool)) (w' : World) : Prop :=
  match o with
  | Ret (op, wait) => exists v,
      if wait : bool then
        exists w1, allocated m0 mu pins w (tg blk) v false w1 /\
          waiting flags blk [v + 1] others m0 (<[v + 1 := more_pins (mu !! (v + 1))]> mu) (v + 1 :: pins) w1 0 op w' /\
          (op_io_wref op <> None \/ io_method_sync = true)
      else op_buffers op = [v + 1] /\ allocated m0 mu pins w (tg blk) v true w'
  | Elog _ => write_failed same_page permanent n m0 (shm w) (shm w')
  | _ => False
  end.

Context (PageSetChecksumInplace : Z -> Z -> Z) (smgrprefetch : RelFileLocator -> Z -> Z -> Z -> M bool).
Context (persistence : RelPersistence) (shared_relation : persistence <> RELPERSISTENCE_TEMP).

Lemma owned_eta m : with_owned_ios (owned_ios m) m = m.
Proof using Type. by destruct m. Qed.

Definition begun (flags blk b : Z) m0 mu pins (w1 : World) (o : outcome (ReadBuffersOperation * Z * bool)) (w' : World) : Prop :=
  match o with
  | Ret (op, len, st) => len = 1 /\ st = true /\ waiting flags blk [b] others m0 mu pins w1 0 op w' /\
      (op_io_wref op <> None \/ io_method_sync = true)
  | Elog _ => write_failed same_page permanent n m0 (shm w1) (shm w')
  | _ => False
  end.

Lemma start_range_run mode blk b r0 m0 mu pins w :
  let flags := mode_flags mode in
  readable flags blk [b] others mu (shm w) -> work others m0 mu pins w -> in_slot (tg blk) false false w b ->
  wp (start_range smgrprefetch (mkOperation reln persistence fork strategy [b] blk flags 1 0 None r0) blk) (begun flags blk b m0 mu pins w) w.
Proof using All.
  intros flags Hra Hw Hs. destruct (mode_flags_ok mode) as (F1 & F2 & F3). fold flags in F1, F2, F3. set (op := mkOperation _ _ _ _ _ _ _ _ _ _ _).
  assert (op_for flags blk [b] (Z.of_nat 0) op) as Hop by (by split).
  assert (slots false false (blk + Z.of_nat 0) (drop 0 [b]) w) as Hslots.
  { apply slots_cons. rewrite Z.add_0_r. split; [done|]. intros j x Hj%lookupZ_Some. cbn in Hj. lia. }
  unfold start_range. destruct io_method_sync eqn:Hsync; cbn [negb].
  - cbn [op_flags op]. rewrite F2. cbn [when]. eapply wp_eq; [rewrite bind_ret_l; reflexivity|].
    change (op_flags op) with flags. rewrite F3. split_and!; try done; [|by right]. split; try done; [cbn; lia|..].
    + intros j x Hj%lookupZ_range Hlt. lia.
    + left. by split.
  - rewrite <- (owned_eta m0) in *. apply wp_bind.
    eapply wp_mono; [|apply (AsyncReadBuffers_run op flags blk [b] 0 others (owned_ios m0) m0 mu pins w)]; try done; [|cbn; lia].
    intros [[[op' len] st]|e|e|] w1; cbn [started_post bind_post]; try done.
    intros (-> & -> & [O1 O2 O3 O4 O5 O6 O7 O8] & Hw1 & Hst1 & Hio). apply wp_ret. cbn. destruct (Hio) as [[wref Hwref] _].
    split_and!; try done; [|left; cbn; by rewrite Hwref]. split; try done; [cbn; lia|..].
    + intros j x Hj%lookupZ_range Hlt. lia.
    + right. split; [cbn; lia|done].
Qed.

(** The operation with which one block is read. *)
Definition one_block_op : ReadBuffersOperation :=
  mkOperation reln persistence fork strategy [] 0 0 0 0 None (unknown_result, mkPgAioTargetData reln 0 0 0 false).

Lemma StartReadBuffer_run mode blk m0 mu pins w :
  alloc_ready m0 mu pins w (tg blk) -> block_ready (mode_flags mode) blk mu w ->
  permanent (tg blk) = bool_decide (persistence = RELPERSISTENCE_PERMANENT) || (fork =? INIT_FORKNUM) ->
  wp (StartReadBuffer PageSetChecksumInplace smgrprefetch one_block_op InvalidBuffer blk (mode_flags mode))
    (start_post (mode_flags mode) blk m0 mu pins w) w.
Proof using All.
  intros Har Hbk Hperm. pose proof (bk_range _ _ _ _ Hbk) as Hblk. unfold StartReadBuffer, StartReadBuffersImpl.
  apply wp_bind. do 3 (eapply wp_step; [rewrite c_assert_ok by done; reflexivity|]). apply wp_bind. change (Z.to_nat 1) with 1%nat. cbn [pin_range].
  change (negb (0 <? 1)) with false. cbn [andb op_smgr op_persistence op_forknum op_strategy one_block_op]. cbv iota.
  assert (u32 (blk + 0) = blk) as -> by (unfold u32; change P_NEW with (2 ^ 32 - 1) in Hblk; rewrite Z.mod_small; lia).
  apply wp_bind. eapply wp_mono; [|apply (PinBufferForBlock_run PageSetChecksumInplace m0 mu pins w persistence blk)]; try done; [|lia].
  intros [[b found]|e|e|] w1; cbn [bind_post pin_post]; try done. intros (v & -> & Hac). change (insertZ 0 (v + 1) [InvalidBuffer]) with [v + 1].
  set (mu1 := <[v + 1 := more_pins (mu !! (v + 1))]> mu). destruct found; apply wp_ret; cbn [bind_post].
  - set (op := mkOperation _ _ _ _ _ _ _ _ _ _ _). destruct (Hac) as [A1 (d & Hd & Ht & Htv & Hv & _) _ _ _ _].
    destruct (CheckReadBuffersOperation_run others m0 mu1 (v + 1 :: pins) 0 blk [v + 1] 1 op true w1) as (w2 & Hrun2 & Hs2 & Hw2); try done.
    + apply Forall_singleton. eexists. split; [apply lookup_insert_eq|]. destruct (mu !! (v + 1)) as [e|] eqn:E; [|done].
      pose proof (ar_pins _ _ _ _ _ _ _ _ _ _ _ Har _ _ E). cbn. lia.
    + intros j b Hj. apply at_cons in Hj as [[-> ->]|Hj%lookupZ_Some]; [|cbn in Hj; lia]. exists d. by replace (v + 1 - 1) with v by lia.
    + lia.
    + change P_NEW with (2 ^ 32 - 1) in Hblk. cbn. lia.
    + eapply wp_eq; [run Hrun2; reflexivity|]. apply wp_ret. exists v. split; [done|]. by eapply allocated_shm.
  - destruct (unread_readable _ _ _ _ _ _ _ _ Hbk Hac) as [Hra Hs].
    apply wp_bind. eapply wp_mono; [|apply (start_range_run mode blk (v + 1) _ m0 mu1 (v + 1 :: pins) w1)]; try done; [|apply Hac].
    intros [[[op len] st]|e|e|] w2; cbn [begun bind_post]; try done.
    + intros (-> & -> & Hwt & Hio). cbn [negb].
      destruct (CheckReadBuffersOperation_run others m0 mu1 (v + 1 :: pins) (mode_flags mode) blk [v + 1] 0 op false w2) as (w3 & Hrun3 & Hs3 & Hw3);
        try done; [apply Hwt|cbn; lia|apply Hwt|by eapply readable_pins|by eapply waiting_named|lia|apply Z.lt_le_incl, Hra|].
      eapply wp_eq; [run Hrun3; reflexivity|]. eapply wp_eq; [by rewrite c_assert_ok|]. exists v, w1. split_and!; try done. by eapply waiting_shm.
    + intros (? & ? & ?). split_and!; try done. etrans; [apply Hac|done].
Qed.

(** What a read of the block returns. *)
Record read_buffer m0 mu pins (w : World) (t : BufferTag) (b : Z) (w' : World) : Prop := {
  (** The pool, the policy and the bookkeeping are in order, with one pin more. *)
  rb_work : work others m0 (<[b := more_pins (mu !! b)]> mu) (b :: pins) w';
  (** The buffer is the one of the block, and valid. *)
  rb_desc : exists d, desc_at w' (b - 1) d /\ tag d = t /\ flag (state d) BM_TAG_VALID = true /\ flag (state d) BM_VALID = true /\
    0 < refcount (state d) /\ (others (b - 1) = 0 -> mu !! b = None -> idle d);
  (** It has the page that a reader was to see before. *)
  rb_page : exists q, lookupZ (BufferBlocks (shm w')) (b - 1) = Some q /\ seen_as (shm w) t q;
  (** No block reads differently. *)
  rb_seen : seen (shm w) (shm w');
  (** A block that had a buffer keeps it and the policy loses track of none; another
      one gets a buffer that the policy knows of. *)
  rb_buffer : match SharedBufHash (shm w) !! t with
              | Some i => b = i + 1 /\ forall x, pq_linked (p := p) n (mem w) x -> pq_linked (p := p) n (mem w') x
              | None => pq_linked (p := p) n (mem w') (b - 1)
              end
}.

(** Why reading the block fails: a page is not written or read, the system call
    brings no whole page, or the page does not pass verification.  The system call
    is the one for this block, made while its buffer is claimed for the read and
    every block reads as in [s]. *)
Definition block_trouble (flags blk : Z) (m0 : Backend) (s : Shared) : Prop :=
  true ∈ smgr_faults m0 \/
  (exists wc b, seen s (shm wc) /\ SharedBufHash (shm wc) !! tg blk = Some (b - 1) /\ in_slot (tg blk) true false wc b /\
     rr_result (pg_preadv wc (mkPgAioTargetData reln blk 1 fork false)) < BLCKSZ) \/
  (exists q, seen_as s (tg blk) q /\ verified (read_flags flags) (tg blk) q = false).

Definition read_post (flags blk : Z) m0 mu pins (w : World) (o : outcome Z) (w' : World) : Prop :=
  match o with
  | Ret b => read_buffer m0 mu pins w (tg blk) b w'
  | Elog _ => block_trouble flags blk m0 (shm w) /\ pool (shm w') /\ seen (shm w) (shm w')
  | _ => False
  end.

Lemma valid_seen w t w' b d :
  pool (shm w') -> seen (shm w) (shm w') -> desc_at w' (b - 1) d -> tag d = t -> flag (state d) BM_TAG_VALID = true -> flag (state d) BM_VALID = true ->
  exists q, lookupZ (BufferBlocks (shm w')) (b - 1) = Some q /\ seen_as (shm w) t q.
Proof using All.
  intros Hp Hse Hd Ht Htv Hv. destruct (do_valid _ _ _ _ _ (pl_desc _ _ _ _ _ Hp _ _ Hd) Hv) as (_ & q & f & Hq & _).
  exists q. split; [done|]. unfold seen_as. rewrite <- Hq, (valid_page same_page permanent n (shm w') (b - 1) d t); try done.
Qed.

Lemma hit_read m0 mu pins w t v w' : allocated m0 mu pins w t v true w' -> read_buffer m0 mu pins w t (v + 1) w'.
Proof using All.
  intros [A1 (d & Hd & Ht & Htv & Hv & Hr & Hi) A3 A4 A5 A6]. assert (v + 1 - 1 = v) as E by lia. split; try done; rewrite ?E.
  - exists d. by split_and!.
  - destruct (valid_seen w t w' (v + 1) d) as (q & Hq); rewrite ?E in *; try done; [by eapply aw_pool|by exists q].
  - destruct (SharedBufHash (shm w) !! t); [by destruct A5 as [-> ?]|by destruct A5].
Qed.

Lemma miss_read m0 mu pins w blk v w1 w' :
  (forall i, cached (shm w) (tg blk) = None -> SharedBufHash (shm w) !! tg blk = Some i -> others i = 0 /\ mu !! (i + 1) = None) ->
  allocated m0 mu pins w (tg blk) v false w1 -> work others m0 (<[v + 1 := more_pins (mu !! (v + 1))]> mu) (v + 1 :: pins) w' ->
  step [v + 1] w1 w' -> in_slot (tg blk) false true w' (v + 1) -> read_buffer m0 mu pins w (tg blk) (v + 1) w'.
Proof using All.
  intros Hun Hac Hw' Hst (d & Hs). destruct (allocated_unread _ _ _ _ _ _ _ Hac Hun) as (Ho & Hmu & _).
  destruct Hac as [A1 _ A3 A4 A5 A6]. pose proof Hs as [S1 S2 S3 S4 S5 S6 S7 S8 S9 S10 S11]. 
  assert (seen (shm w) (shm w')) as Hse by (etrans; [done|apply Hst]). split; try done.
  - exists d. split_and!; try done.
    eapply (work_pinned same_page permanent n p strategy); [exact Hw'|apply lookup_insert_eq|done].
  - eapply valid_seen; try done. by eapply aw_pool.
  - rewrite (so_mem _ _ _ _ Hst). replace (v + 1 - 1) with v by lia.
    destruct (SharedBufHash (shm w) !! tg blk); [by destruct A5 as [-> ?]|by destruct A5 as (_ & ? & _)].
Qed.

Lemma trouble_block flags blk m0 mu pins w v w1 :
  allocated m0 mu pins w (tg blk) v false w1 ->
  true ∈ smgr_faults m0 \/ read_trouble flags blk [v + 1] w1 -> block_trouble flags blk m0 (shm w).
Proof using All.
  intros [A1 (d & Hd & Ht & Htv & Hv & _) _ A4 _ _] [|[(k & wc & T1 & T2 & _ & T4 & T5)|(k & q & K1 & K2 & K3)]]; [by left|right; left|right; right].
  - cbn [length] in T1. assert (k = 0)%nat as -> by lia. rewrite Z.add_0_r in *. exists wc, (v + 1). split_and!; try done.
    + etrans; [exact A4|apply T2].
    + rewrite (so_hash _ _ _ _ T2). replace (v + 1 - 1) with v by lia. apply (pl_hash _ _ _ _ _ (aw_pool _ _ _ _ _ _ _ _ _ _ A1)). eauto.
    + apply T4, at_cons. by left.
  - cbn [length] in K1. assert (k = blk) as -> by lia. exists q. split; [|done]. unfold seen_as.
    rewrite <- (unread_disk w1 v d (tg blk) q); try done. by eapply aw_pool.
Qed.

Lemma read_one_run mode blk m0 mu pins w :
  alloc_ready m0 mu pins w (tg blk) -> block_ready (mode_flags mode) blk mu w ->
  permanent (tg blk) = bool_decide (persistence = RELPERSISTENCE_PERMANENT) || (fork =? INIT_FORKNUM) ->
  wp (read_one PageSetChecksumInplace smgrprefetch reln persistence fork blk mode strategy) (read_post (mode_flags mode) blk m0 mu pins w) w.
Proof using All.
  intros Har Hbk Hperm. unfold read_one. fold (mode_flags mode). fold one_block_op. apply wp_bind.
  eapply wp_mono; [|by apply StartReadBuffer_run].
  intros [[op wait]|e|e|] w1; cbn [start_post bind_post]; try done.
  2: { intros (? & ? & ?). split_and!; try done. by left. }
  intros (v & Hw1). destruct wait.
  2: { destruct Hw1 as [Hb Hac]. eapply wp_eq; [rewrite bind_ret_l, Hb; reflexivity|]. by apply hit_read. }
  destruct Hw1 as (w0 & Hac & Hwt & Hio). destruct (unread_readable _ _ _ _ _ _ _ _ Hbk Hac) as [Hra _].
  rewrite <- (owned_eta m0) in Hwt. apply wp_bind. eapply wp_mono; [|by apply (WaitReadBuffers_run _ _ _ _ _ _ _ _ _ _ _ _ Hra Hwt)].
  intros [op'|e|e|] w2; cbn [waited bind_post]; try done.
  - intros (Hop & Hw2 & Hst & Hup). rewrite owned_eta in Hw2. pose proof (of_buffers _ _ _ _ _ Hop) as Hbufs.
    destruct (op_buffers op') as [|b bufs]; [done|]. injection Hbufs as ->. apply wp_ret.
    eapply miss_read; try done; [by apply Hbk|]. destruct (Hup blk (v + 1)) as [Hs _]; [apply at_cons; by left|].
    by rewrite Z.sub_diag in Hs.
  - intros (Ht & Hp & Hse). split_and!; [|done|etrans; [apply Hac|done]]. rewrite owned_eta in Ht. by eapply trouble_block.
Qed.

(** ** Reads that do not fail *)

(** The kernel brings at least one page of the blocks it is asked for if the file has
    the first of them; it may still stop after it. *)
Definition kernel_delivers : Prop :=
  forall w td, td_is_temp td = false -> 0 < td_nblocks td ->
    is_Some (disk_page (shm w) (block_tag (td_rlocator td) (td_forkNum td) (td_blockNum td))) -> BLCKSZ <= rr_result (pg_preadv w td).

(** The blocks are in the file, with pages that pass verification. *)
Definition on_disk (flags first len : Z) (s : Shared) : Prop :=
  forall k, first <= k < first + len -> exists q, disk_page s (tg k) = Some q /\ verified (read_flags flags) (tg k) q = true.
(** A reader of the block sees a page, and one that passes verification. *)
Definition block_sound (flags blk : Z) (s : Shared) : Prop :=
  is_Some (page_seen s (tg blk)) /\ forall q, seen_as s (tg blk) q -> verified (read_flags flags) (tg blk) q = true.

Lemma no_read_trouble flags first bs w :
  kernel_delivers -> on_disk flags first (Z.of_nat (length bs)) (shm w) -> ~ read_trouble flags first bs w.
Proof using Type.
  intros Hk Hd [(k & wc & T1 & T2 & _ & _ & T5)|(k & q & K1 & K2 & K3)].
  - destruct (Hd (first + Z.of_nat k)) as (q & Hq & _); [lia|]. apply Z.lt_nge in T5. apply T5, Hk; [done|cbn; lia|].
    unfold disk_page in *. cbn. rewrite (so_disk _ _ _ _ T2). by exists q.
  - destruct (Hd k K1) as (q' & Hq' & Hv). congruence.
Qed.

Lemma no_block_trouble flags blk m0 s :
  kernel_delivers -> true ∉ smgr_faults m0 -> block_sound flags blk s -> ~ block_trouble flags blk m0 s.
Proof using Type.
  intros Hk Hf [[q Hq] Hv] [?|[(wc & b & T1 & T2 & (d & T3) & T4)|(q' & Hq' & Hbad)]]; [done| |].
  - apply Z.lt_nge in T4. apply T4, Hk; [done|done|]. specialize (T1 (tg blk)). rewrite Hq in T1. cbn.
    unfold page_seen, cached in T1. rewrite T2 in T1. pose proof (sl_desc _ _ _ _ _ _ T3) as Hd. unfold desc_at in Hd.
    rewrite Hd, (sl_valid _ _ _ _ _ _ T3) in T1. inversion T1. by eexists.
  - rewrite (Hv q' Hq') in Hbad. done.
Qed.
End operation.

Lemma wp_returns {A} (m : M A) Q w :
  wp m Q w -> (forall o w', Q o w' -> exists a, o = Ret a) -> exists a w', m w = (Ret a, w') /\ Q (Ret a) w'.
Proof. unfold wp. destruct (m w) as [o w']. intros Hq Hret. destruct (Hret o w' Hq) as [a ->]. by exists a, w'. Qed.
