(* ===== verification/ReadSession.v ===== *)
(** * What readers get

    The theorems about reading: a read operation on a range of blocks, the read of
    one block of a relation, and any sequence of reads, with a concrete pool and a
    kernel that reads one page per call on which they apply. *)
From S2P Require Import Prelude BufState BufTag Shmem Concurrency PrivateRefCount Ring Sample Sieve Policy BufTable Strategy.
From S2P Require Import LocalBuf ContentLock LockWord LockProtocol LockRun Pin PinRun Reserved BufIO IORun.
From S2P Require Import Writeback Eviction DropFlush Extend Readv Read PolicyQuiet Pool FlushRun EvictRun VictimRun AllocRun SharedCache.
From S2P Require Import ExtendRun ReadRun ReadCache.

(** ** A backend that reads one block after the other *)
Section session.
Context (same_page : relation Z) `{!Equivalence same_page} `{!Server} `{!ServerLaws same_page} `{!Aio} `{!AioLaws}.
Context (permanent : BufferTag -> bool).
Context (n : Z) (p : EvictionVtablePtr).
Context (LockRelationForExtension UnlockRelationForExtension : RelFileLocator -> M unit) (PageIsNew : Z -> bool)
  (PageSetChecksumInplace : Z -> Z -> Z) (smgrprefetch : RelFileLocator -> Z -> Z -> Z -> M bool) (InHotStandby : bool)
  (ResolveRecoveryConflictWithBufferPin : M unit) (SetStartupBufferPinWaitBufId : Z -> M unit).
Context (rel : Relation).
Local Abbreviation ReadBufferExtended := (ReadBufferExtended LockRelationForExtension UnlockRelationForExtension PageIsNew
  PageSetChecksumInplace smgrprefetch InHotStandby ResolveRecoveryConflictWithBufferPin SetStartupBufferPinWaitBufId rel).
Local Abbreviation ReadBuffer := (ReadBuffer LockRelationForExtension UnlockRelationForExtension PageIsNew
  PageSetChecksumInplace smgrprefetch InHotStandby ResolveRecoveryConflictWithBufferPin SetStartupBufferPinWaitBufId rel).
Local Abbreviation read_post := (read_post same_page permanent n p).

Fixpoint read_session (blks : list Z) : M (list Z) :=
  match blks with
  | [] => ret []
  | blk :: blks =>
      let* b := ReadBuffer blk in
      let* page := read_block b in
      ReleaseBuffer b ;;
      let* pages := read_session blks in
      ret (page :: pages)
  end.

(** The relation is in shared buffers. *)
Definition shared_rel (fork blk : Z) : Prop :=
  rd_other_temp rel = false /\ rd_persistence rel <> RELPERSISTENCE_TEMP /\
  permanent (block_tag (rd_locator rel) fork blk) = bool_decide (rd_persistence rel = RELPERSISTENCE_PERMANENT) || (fork =? INIT_FORKNUM).

Lemma ReadBufferExtended_run strategy others fork blk mode m0 mu pins w :
  let t := block_tag (rd_locator rel) fork blk in
  shared_rel fork blk -> zero_mode mode = false ->
  alloc_ready same_page permanent n p strategy others m0 mu pins w t ->
  block_ready same_page (rd_locator rel) fork others (mode_flags mode) blk mu w ->
  wp (ReadBufferExtended fork blk mode strategy) (read_post strategy (rd_locator rel) fork others (mode_flags mode) blk m0 mu pins w) w.
Proof using Type*.
  intros t (Hother & Hpers & Hperm) Hmode Har Hbk. unfold Read.ReadBufferExtended, ReadBuffer_common. rewrite Hother, Hmode.
  rewrite (proj2 (Z.eqb_neq blk P_NEW)) by (pose proof (bk_range _ _ _ _ _ _ _ _ Hbk); lia). by apply read_one_run.
Qed.

Local Abbreviation at_rest := (at_rest same_page permanent n p).
Local Abbreviation tg := (block_tag (rd_locator rel) MAIN_FORKNUM).
Local Abbreviation read_buffer := (read_buffer same_page permanent n p None (fun _ => 0)).

(** The buffer that was read is given back. *)
Lemma read_release_run m0 w w1 t b :
  at_rest m0 w -> read_buffer m0 ∅ [] w t b w1 ->
  exists w2, ReleaseBuffer b w1 = (Ret tt, w2) /\ at_rest m0 w2 /\ same_pages same_page (shm w) (shm w2).
Proof using Type*.
  intros [_ Hl (x & Hx & Hlink)] [R1 (d & Hd & Ht & Htv & Hv & Hr & Hi) _ R4 R5]. change (more_pins _) with one_pin in R1.
  pose proof (aw_range _ _ _ _ _ _ _ _ _ _ _ _ R1 Hd). assert (b = b - 1 + 1) as Eb by lia. rewrite Eb in *.
  eapply give_back_run; try done; rewrite <- ?Eb in *; try done; [by apply Hi|].
  destruct (SharedBufHash (shm w) !! t); [|by exists (b - 1)]. exists x. split; [done|]. by apply R5.
Qed.

Lemma read_page_run w b q : 0 < b -> lookupZ (BufferBlocks (shm w)) (b - 1) = Some q -> read_block b w = (Ret q, w).
Proof using Type*.
  intros Hb Hq. unfold read_block, BufferIsValid, BufferIsLocal, InvalidBuffer, GetBufferDescriptor.
  rewrite c_assert_ok by (apply negb_true_iff, Z.eqb_neq; lia). rewrite (proj2 (Z.ltb_ge b 0)) by lia. by apply BufHdrGetBlock_run.
Qed.

Local Abbreviation seen_as := (seen_as same_page).

(** The pages of the blocks, as they were at the beginning. *)
Definition session_read (m0 : Backend) (blks : list Z) (w : World) (o : outcome (list Z)) (w' : World) : Prop :=
  match o with
  | Ret pages => at_rest m0 w' /\ same_pages same_page (shm w) (shm w') /\ Forall2 (fun blk page => seen_as (shm w) (tg blk) page) blks pages
  | Elog _ => (exists blk, blk ∈ blks /\ block_trouble same_page (rd_locator rel) MAIN_FORKNUM READ_BUFFERS_SYNCHRONOUSLY blk m0 (shm w)) /\
      pool_ok same_page PageGetLSN permanent n (shm w') /\ same_pages same_page (shm w) (shm w')
  | _ => False
  end.

Lemma rest_block_ready m0 w blk :
  at_rest m0 w -> zero_damaged_pages = false -> 0 <= blk < P_NEW ->
  alloc_ready same_page permanent n p None (fun _ => 0) m0 ∅ [] w (tg blk) /\
  block_ready same_page (rd_locator rel) MAIN_FORKNUM (fun _ => 0) READ_BUFFERS_SYNCHRONOUSLY blk ∅ w.
Proof using Type*.
  intros Hrest Hz Hblk. pose proof Hrest as [Hw Hl (x & Hx & Hlink)]. split; split; try done.
  - intros _. exists x. split; [done|]. split; [done|]. by eapply rest_unpinned.
  - change (0 < gas m0)%nat. pose proof (aw_gas _ _ _ _ _ _ _ _ _ _ Hw). rewrite (kp_gas _ _ (aw_keeps _ _ _ _ _ _ _ _ _ _ Hw)) in *. lia.
  - intros q _. right. unfold read_flags. rewrite Hz. by destruct ignore_checksum_failure.
Qed.

Lemma seen_as_back s s' t q : same_pages same_page s s' -> seen_as s' t q -> seen_as s t q.
Proof using Type*. intros Hse Hq. unfold ReadCache.seen_as in *. etrans; [apply Hse|done]. Qed.

Lemma trouble_back flags blk m0 s s' : same_pages same_page s s' ->
  block_trouble same_page (rd_locator rel) MAIN_FORKNUM flags blk m0 s' -> block_trouble same_page (rd_locator rel) MAIN_FORKNUM flags blk m0 s.
Proof using Type*.
  intros Hse [?|[(wc & b & Hc & ?)|(q & Hq & ?)]]; [by left|right; left|right; right].
  - exists wc, b. split; [by etrans|done].
  - exists q. split; [by eapply seen_as_back|done].
Qed.

Lemma read_session_run m0 blks : forall w,
  at_rest m0 w -> zero_damaged_pages = false -> Forall (fun blk => 0 <= blk < P_NEW /\ shared_rel MAIN_FORKNUM blk) blks ->
  wp (read_session blks) (session_read m0 blks w) w.
Proof using Type*.
  induction blks as [|blk blks IH]; intros w Hrest Hz Hblks; cbn [read_session]; [by apply wp_ret|].
  apply Forall_cons in Hblks as [[Hblk Hrel] Hblks]. destruct (rest_block_ready m0 w blk Hrest Hz Hblk) as [Har Hbk].
  apply wp_bind. eapply wp_mono; [|by apply (ReadBufferExtended_run None (fun _ => 0) MAIN_FORKNUM blk RBM_NORMAL m0 ∅ [] w)].
  intros [b|e|e|] w1; cbn [ReadCache.read_post bind_post]; try done.
  - intros Hrb. pose proof Hrb as [R1 (d & Hd & _) (q & Hq & Hseen) _ _]. pose proof (aw_range _ _ _ _ _ _ _ _ _ _ _ _ R1 Hd).
    destruct (read_release_run m0 w w1 _ b Hrest Hrb) as (w2 & Hrun2 & Hrest2 & Hse2).
    eapply wp_step; [run (read_page_run w1 b q ltac:(lia) Hq); run Hrun2; reflexivity|].
    apply wp_bind. eapply wp_mono; [|by apply IH]. intros [pages|e|e|] w3; cbn; try done.
    + intros (Hrest3 & Hse3 & Hpages). split_and!; [done|by etrans|]. constructor; [done|].
      eapply Forall2_impl; [exact Hpages|]. intros ? ?. by apply seen_as_back.
    + intros ((k & Hk & Htr) & Hp & Hse3). split_and!; [|done|by etrans]. exists k. split; [by right|by eapply trouble_back].
  - intros (Htr & Hp & Hse). split_and!; try done. exists blk. split; [left|done].
Qed.
End session.

(** ** A kernel that reads a page per call *)
#[export] Instance sample_aio : Aio := {|
  pgaio_have_staged := ret false;
  pgaio_submit_staged := ret tt;
  pgaio_io_acquire_nb := ret (Some 7);
  pgaio_io_acquire := ret 7;
  pgaio_io_release := fun _ => ret tt;
  method_needs_synchronous_execution := fun _ => true;
  pgaio_submit := fun _ => ret tt;
  pgaio_wref_check_done := fun _ => ret true;
  pgaio_wref_finish := fun _ => trap "read in progress";
  io_method_sync := true;
  pg_preadv := fun w td =>
    match disk_page (shm w) (block_tag (td_rlocator td) (td_forkNum td) (td_blockNum td)) with
    | Some page => mkReadResult BLCKSZ [Some page]
    | None => mkReadResult 0 []
    end;
  PageIsVerified := fun page _ _ => (0 <? page, false);
  smgrmaxcombine := fun _ _ _ => 16;
  zero_damaged_pages := false;
  ignore_checksum_failure := false
|}.

#[export] Instance sample_aio_laws : AioLaws.
Proof.
  split; try done; [by eexists|]. intros w td Htd Hpos. unfold kernel_reads. cbn [pg_preadv sample_aio].
  destruct (disk_page _ _) as [page|] eqn:E; cbn [rr_result rr_pages]; unfold BLCKSZ in *; (split; [lia|]); intros i Hi Hle; [|lia].
  assert (i = 0) as -> by lia. exists page. by rewrite Z.add_0_r.
Qed.

Lemma sample_delivers : kernel_delivers.
Proof. intros w td _ _ [page Hpage]. cbn. by rewrite Hpage. Qed.

Lemma sample_sound flags blk q s :
  page_seen s (block_tag sample_rel 0 blk) = Some q -> verified (read_flags flags) (block_tag sample_rel 0 blk) q = true ->
  block_sound eq sample_rel 0 flags blk s.
Proof.
  intros Hq Hv. split; [by eexists|]. intros q' Hq'. unfold seen_as in Hq'. rewrite Hq in Hq'.
  inversion Hq'. by subst.
Qed.

Definition sample_relation : Relation := mkRelation sample_rel RELPERSISTENCE_PERMANENT false.

(** ** The theorems *)

(** C2. Any sequence of blocks of a relation that a backend reads with [ReadBuffer]
    and releases one after the other, under any of the policies, without
    interference, with reads executed by the backend itself that may stop early, in
    a pool where nothing is pinned and the policy knows of at least one buffer, and
    with [zero_damaged_pages] off.  If every call returns, the pages read are those
    that the blocks had at the beginning, dirty ones that were evicted, written and
    read again on the way included; at the end nothing is pinned, the pool and the
    policy are in order and every block reads as at the beginning.  An error means
    that a call of the storage manager failed, that the system call made for one of
    the blocks, while its buffer was claimed, brought no whole page, or that one of
    the blocks has a page that does not pass verification.  So if no call fails,
    the kernel brings at least one page of a block that the file has, and the
    blocks exist with pages that pass verification, all the reads return. *)
Theorem read_session_exact same_page `{!Equivalence same_page} `{!Server} `{!ServerLaws same_page} `{!Aio} `{!AioLaws}
    permanent n p LockRelationForExtension UnlockRelationForExtension PageIsNew PageSetChecksumInplace smgrprefetch InHotStandby
    ResolveRecoveryConflictWithBufferPin SetStartupBufferPinWaitBufId rel m0 blks w :
  at_rest same_page permanent n p m0 w -> zero_damaged_pages = false ->
  Forall (fun blk => 0 <= blk < P_NEW /\ shared_rel permanent rel MAIN_FORKNUM blk) blks ->
  wp (read_session LockRelationForExtension UnlockRelationForExtension PageIsNew PageSetChecksumInplace smgrprefetch InHotStandby
        ResolveRecoveryConflictWithBufferPin SetStartupBufferPinWaitBufId rel blks)
    (session_read same_page permanent n p rel m0 blks w) w /\
  (kernel_delivers -> true ∉ smgr_faults m0 ->
   Forall (fun blk => block_sound same_page (rd_locator rel) MAIN_FORKNUM READ_BUFFERS_SYNCHRONOUSLY blk (shm w)) blks ->
   exists pages w', read_session LockRelationForExtension UnlockRelationForExtension PageIsNew PageSetChecksumInplace smgrprefetch
       InHotStandby ResolveRecoveryConflictWithBufferPin SetStartupBufferPinWaitBufId rel blks w = (Ret pages, w') /\
     session_read same_page permanent n p rel m0 blks w (Ret pages) w').
Proof.
  intros Hrest Hz Hblks. split; [by apply read_session_run|]. intros Hk Hf Hs. apply wp_returns; [by apply read_session_run|].
  intros [pages|e|e|] w'; try done; [by eexists|]. intros ((blk & Hin & Ht) & _).
  destruct (no_block_trouble same_page (rd_locator rel) MAIN_FORKNUM _ blk m0 (shm w) Hk Hf (proj1 (Forall_forall _ _) Hs blk Hin) Ht).
Qed.

(** Five reads in three buffers, with two dirty victims. *)
Lemma read_session_exact_witness :
  let run := read_session (fun _ => ret tt) (fun _ => ret tt) (fun _ => true) (fun page _ => page) (fun _ _ _ _ => ret true) false
    (ret tt) (fun _ => ret tt) sample_relation [3; 0; 2; 1; 3] in
  exists w', run (cache_world []) = (Ret [13; 10; 22; 21; 13], w') /\
    session_read eq (fun _ => true) 3 SieveVtable sample_relation (me (cache_world [])) [3; 0; 2; 1; 3] (cache_world [])
      (Ret [13; 10; 22; 21; 13]) w'.
Proof.
  intros run.
  destruct (read_session_exact eq (fun _ => true) 3 SieveVtable (fun _ => ret tt) (fun _ => ret tt) (fun _ => true) (fun page _ => page)
    (fun _ _ _ _ => ret true) false (ret tt) (fun _ => ret tt) sample_relation (me (cache_world [])) [3; 0; 2; 1; 3] (cache_world [])
    (cache_at_rest [])) as [_ Hret]; [done|repeat constructor; done|]. fold run in Hret.
  destruct Hret as (pages & w' & Hrun & Hread); [exact sample_delivers|by apply not_elem_of_nil| |].
  { repeat (apply Forall_cons; split); [apply (sample_sound _ _ 13)|apply (sample_sound _ _ 10)|apply (sample_sound _ _ 22)|
      apply (sample_sound _ _ 21)|apply (sample_sound _ _ 13)|by apply Forall_nil]; vm_compute; reflexivity. }
  assert ((run (cache_world [])).1 = Ret [13; 10; 22; 21; 13]) as Hpages by (vm_compute; reflexivity).
  rewrite Hrun in Hpages. cbn in Hpages. injection Hpages as ->. exists w'. exact (conj Hrun Hread).
Defined.

(** C3. [ReadBufferExtended] on a relation in shared buffers, in the modes that read
    ([RBM_NORMAL], [RBM_NORMAL_NO_LOG], [RBM_ZERO_ON_ERROR] on a block that is not to
    be zeroed), under any policy and access strategy, without interference, in a
    pool that is in order: this backend holds no partition lock, the block has a
    buffer or the policy knows of one that nobody has pinned, and a buffer that the
    block has but that is not valid is used by nobody.  If the call returns, it
    returns the buffer of the block, pinned once more and valid, with the page that
    a reader of the block was to see before the call, whether the block was in the
    cache or had to be read; the pool, the policy and the private bookkeeping are
    in order, no block reads differently, and a block that had a buffer keeps it.
    An error means that a call of the storage manager failed, that the system call
    made for this block, while its buffer was claimed, brought no whole page, or
    that the block's page does not pass verification, and it loses no page.  So if
    no call fails, the kernel brings a page of a block that the file has, and the
    block exists with a page that passes verification, the call returns. *)
Theorem ReadBufferExtended_reads same_page `{!Equivalence same_page} `{!Server} `{!ServerLaws same_page} `{!Aio} `{!AioLaws}
    permanent n p LockRelationForExtension UnlockRelationForExtension PageIsNew PageSetChecksumInplace smgrprefetch InHotStandby
    ResolveRecoveryConflictWithBufferPin SetStartupBufferPinWaitBufId rel strategy others fork blk mode m0 mu pins w :
  shared_rel permanent rel fork blk -> zero_mode mode = false ->
  alloc_ready same_page permanent n p strategy others m0 mu pins w (block_tag (rd_locator rel) fork blk) ->
  block_ready same_page (rd_locator rel) fork others (mode_flags mode) blk mu w ->
  wp (ReadBufferExtended LockRelationForExtension UnlockRelationForExtension PageIsNew PageSetChecksumInplace smgrprefetch InHotStandby
        ResolveRecoveryConflictWithBufferPin SetStartupBufferPinWaitBufId rel fork blk mode strategy)
    (read_post same_page permanent n p strategy (rd_locator rel) fork others (mode_flags mode) blk m0 mu pins w) w /\
  (kernel_delivers -> true ∉ smgr_faults m0 -> block_sound same_page (rd_locator rel) fork (mode_flags mode) blk (shm w) ->
   exists b w', ReadBufferExtended LockRelationForExtension UnlockRelationForExtension PageIsNew PageSetChecksumInplace smgrprefetch
       InHotStandby ResolveRecoveryConflictWithBufferPin SetStartupBufferPinWaitBufId rel fork blk mode strategy w = (Ret b, w') /\
     read_buffer same_page permanent n p strategy others m0 mu pins w (block_tag (rd_locator rel) fork blk) b w').
Proof.
  intros Hrel Hmode Har Hbk. split; [by apply ReadBufferExtended_run|]. intros Hk Hf Hs.
  destruct (wp_returns _ _ w (ReadBufferExtended_run same_page permanent n p LockRelationForExtension UnlockRelationForExtension PageIsNew
    PageSetChecksumInplace smgrprefetch InHotStandby ResolveRecoveryConflictWithBufferPin SetStartupBufferPinWaitBufId rel strategy others
    fork blk mode m0 mu pins w Hrel Hmode Har Hbk)) as (b & w' & Hrun & Hread); [|by exists b, w'].
  intros [b|e|e|] w'; try done; [by eexists|]. intros (Ht & _).
  destruct (no_block_trouble same_page (rd_locator rel) fork _ blk m0 (shm w) Hk Hf Hs Ht).
Qed.

(** Block 3 is read into the buffer of block 0. *)
Lemma ReadBufferExtended_reads_witness :
  let run := ReadBufferExtended (fun _ => ret tt) (fun _ => ret tt) (fun _ => true) (fun page _ => page) (fun _ _ _ _ => ret true) false
    (ret tt) (fun _ => ret tt) sample_relation 0 3 RBM_NORMAL None in
  exists w', run (cache_world []) = (Ret 1, w') /\ lookupZ (BufferBlocks (shm w')) 0 = Some 13 /\
    read_buffer eq (fun _ => true) 3 SieveVtable None (fun _ => 0) (me (cache_world [])) ∅ [] (cache_world []) (sample_tag 3) 1 w'.
Proof.
  intros run.
  destruct (rest_block_ready eq (fun _ => true) 3 SieveVtable sample_relation _ _ 3 (cache_at_rest [])) as [Har Hbk]; [done|done|].
  destruct (ReadBufferExtended_reads eq (fun _ => true) 3 SieveVtable (fun _ => ret tt) (fun _ => ret tt) (fun _ => true) (fun page _ => page)
    (fun _ _ _ _ => ret true) false (ret tt) (fun _ => ret tt) sample_relation None (fun _ => 0) 0 3 RBM_NORMAL (me (cache_world [])) ∅ []
    (cache_world []) ltac:(done) eq_refl Har Hbk) as (_ & Hret).
  destruct Hret as (b & w' & Hrun & Hread); [exact sample_delivers|by apply not_elem_of_nil| |].
  { apply (sample_sound _ _ 13); vm_compute; reflexivity. }
  assert ((run (cache_world [])).1 = Ret 1 /\ lookupZ (BufferBlocks (shm (run (cache_world [])).2)) 0 = Some 13) as [Hb Hpage]
    by (vm_compute; split; reflexivity).
  fold run in Hrun. rewrite Hrun in Hb, Hpage. injection Hb as ->. exists w'. exact (conj Hrun (conj Hpage Hread)).
Defined.










